(* ===== verification/_CoqProject ===== *)
-Q . S2P
Prelude.v
PyStr.v
PyNum.v
PyVal.v
Regex.v
Sha256.v
IsoTime.v
RunStore.v
RunStoreFacts.v
RunStoreSpec.v
Scheduler.v
Gates.v
Redaction.v
Canonical.v
Glob.v
Contracts.v
ReportV2.v
PlanStore.v
Lifecycle.v
GatewaySubscription.v
GatewayAuth.v
SafeRendering.v
GatewayRedaction.v
Models.v
Validation.v
FleetState.v
GatewayDeny.v
Handoff.v
Supervision.v
Events.v
EventDiagnostics.v
Reconciliation.v
Readiness.v
Checkpoint.v
CheckpointStore.v
OrchestratorParts.v
Orchestrator.v
OrchestratorSpec.v
Provider.v
ProviderRouting.v
GatewayBridge.v
Observability.v
LifecycleEvents.v
Dispatch.v
OrchestratorReconcile.v
TuiContract.v
Evidence.v
