(* ===== verification/Prelude.v ===== *)
(** * A verification library for the PD fleet runtime

    The repository is a project-development workflow whose core is the fleet
    runtime, the Python package [scripts/pd_fleet]: it plans work as a graph
    of tasks for agents, leases the tasks to workers, keeps what they report,
    and lets a supervisor and a gateway watch.  This library models the parts of
    that package that hold state or decide something, and proves what makes them
    correct.  A definition keeps the name of the function or method it
    translates; a class is a record, a method is a function of it.

    ** Layers

    Shared ground, used by every component.
    - [Prelude]: the result monad [res] (a function that returns or raises), the
      state monad [stm] (a method that mutates an object and may raise half way:
      the state after an exception is kept), stable sorting, the tactics
      [res_inv] and [bool_inv], facts on lists.
    - [PyStr], [PyNum], [PyVal]: Python's strings, numbers (unbounded integers
      and binary64 floats, compared exactly) and JSON-shaped values, with
      [json.dumps] and what [json.loads] gives back ([reload]).
    - [Regex], [Sha256], [Glob], [IsoTime]: the operations of the standard
      library the package relies on ([re], [hashlib.sha256], [fnmatch],
      [datetime]), written out so that examples evaluate.

    Plans and contracts.
    - [Models] (models.py): the V1 plan and its reader and printer.
    - [Validation] (validation.py): references, cycles, gates, parallel paths and
      the tasks that can start.
    - [Redaction], [Canonical], [Contracts], [ReportV2] (contracts.py): redaction
      of text, the canonical form and hash of a V2 plan and the reconciliation of
      a run's tokens, the agent contract and report of V1, the report of V2.
    - [SafeRendering] (safe_rendering.py): diagnostics on untrusted values.

    Execution.
    - [Lifecycle] (lifecycle.py): the state machine of a task, and the gate
      policy that releases it.
    - [Gates] (gates.py): gate results, their policy and human verification.
    - [Evidence] (evidence.py): evidence records and the store that takes them.
    - [RunStore], [RunStoreFacts], [RunStoreSpec] (run_store.py): the durable
      store of runs with its leases, attempts and reports, and its properties.
    - [Scheduler] (scheduler.py): ready tasks and batches of leases, a client of
      [RunStore]: it claims through [claim_many] with a selector of its own.
    - [PlanStore]: the interface [PlanIdentity] through which the store sees a
      plan, and its instances by the two forms of [contracts.py].
    - [Checkpoint], [CheckpointStore] (checkpoint.py): the checkpoint of a run,
      whose records are snapshots of [Lifecycle] objects, and its crash-safe
      store.
    - [OrchestratorParts], [Orchestrator], [OrchestratorSpec] (orchestrator.py):
      the checks and reports of the orchestrator, its serial run over
      [Lifecycle], [Validation], [Gates] and [ReportV2], and the properties of
      runs: [lawful] is an abstract system of dispatches and announcements, and
      a logic of weakest preconditions carries the invariant through the run.
    - [OrchestratorReconcile] (orchestrator.py): the reconciliation of a context
      before a run, whose verdict [Orchestrator.run] takes.
    - [Dispatch] (dispatch.py): the checks of a dispatch, the simulated adapter
      and the dispatcher with its records.
    - [Provider] (provider.py), [ProviderRouting] (provider_routing.py): requests
      to and responses of providers, their profiles, and the choice of one for a
      task by the policy and the declared identities.

    Supervision.
    - [FleetState] (state.py): the versioned block in STATE.json.
    - [Handoff] (handoff.py): handoff artifacts and their store; its text checks
      are those of [Redaction].
    - [Supervision] (supervision.py, supervisor.py): health signals, diagnoses,
      proposals; the proposals reuse the text checks of [Handoff].
    - [Events] (events.py): the append-only log of a run.
    - [EventDiagnostics] (event_diagnostics.py), [Reconciliation]
      (run_event_reconciliation.py), [Readiness] (readiness.py): reports on the
      log, on the log against the run store, and on all of them.
    - [LifecycleEvents] (lifecycle_events.py): the recorder of transitions and
      checkpoints, a client of [Events], [Lifecycle] and [Checkpoint].
    - [Observability] (observability.py): the audit sink of a run.

    Gateway.
    - [GatewaySubscription] (gateway_subscription.py), [GatewayAuth]
      (gateway_auth.py), [GatewayRedaction] (gateway_redaction.py), [GatewayDeny]
      (gateway_deny.py): subscriptions with cursors and replay, activation
      tickets and associations, the closed schema of events, the composite gate.
    - [GatewayBridge] (gateway_bridge_contracts.py): the wire contracts of the
      bridge, with their canonical text and fingerprints.
    - [TuiContract] (tui_readonly_contract.py): host bindings and the registry of
      their leases, a client of the snapshots of [GatewayBridge].

    ** What the theorems show

    - Validation is exact: [validate_plan] accepts the valid plans and no other,
      [compute_ready_tasks] and [ready_ids] return exactly the tasks that can
      start, and an acyclic plan always makes progress.
    - The run store never loses a completed operation, except the append of an
      event it should have refused, survives a crash between its two
      replacements, fences old leases, never changes a report and bounds the
      leases; a claim of the scheduler keeps the leased tasks apart, component
      by component of their paths.
    - An accepted contract holds no URL, no token of a known form and no key that
      spells a credential; what the evidence store keeps or runs holds no URL and
      no plain assignment of a secret.  Both are stated without the patterns of
      the code.
    - Whatever the dispatcher and the clocks do, the orchestrator dispatches a
      task only when its dependencies and the earlier waves are done and its
      gates pass, with increasing attempts within the limit; its run ends.  With
      a context it runs exactly when the envelope is resumable.
    - A dispatch reaches the simulated adapter once per request, with nothing
      denied in it, and its answer stays; a provider is chosen exactly when catalog, policy and
      identities allow it, and its profile is ready exactly as declared.
    - While a log stays within its bound, what is appended to it stays, and a
      recorded checkpoint is one bounded event of it; the audit sink holds
      exactly what was recorded, numbered without a gap.
    - The identity of a plan is blind to the order of keys and lists and to
      secrets, and reconciliation allows exactly equal tokens.
    - Round trips: plans, contracts, checkpoints, handoffs, log events and events
      of the bridge read back as what was written, up to a normal form that each
      theorem names.
    - The checkpoint store is a register under injected faults and crashes, and
      the operations on snapshots simulate those of the task objects.
    - Constructors are exact: a report, an artifact, an event or a view exists
      exactly when the stated conditions hold, and then it is bounded and safe.
    - Subscriptions deliver each event or say that they did not; a ticket is
      used at most once; a binding resolves only through its last open lease.
    - The reports of the supervision side exist under the conditions each theorem
      states, and say healthy, consistent or ready exactly when the inputs
      do.

    Each component also states, as evaluated examples, inputs on which the code
    does not do what it means to; they are listed as findings of the library.

    ** Bounds and fuel

    Recursion that is not structural carries fuel, and a theorem or the entry
    point makes it enough: the searches of [Validation] get the number of tasks
    ([validate_dag_exact]); the matcher of [Regex] gets the length of the text,
    since an iteration that consumes nothing stops a repetition; the line loop of
    the redaction gets the number of lines ([redaction_terminates]); the attempts
    of a task get its limit and a wave one round more than there are tasks
    ([orchestrator_ends]); the
    [repr] of a float gets 17 digits, which always read back.  Size and number
    limits of the code ([MAX_...]) are definitions of the same name.

    ** What is not modelled

    - Code points above U+00FF, sets, cyclic data and integers of more than 4300
      digits: the models take none of them.
    - The parser of JSON: a file is the value its text decodes to, or no value.
      The text that is written is modelled where a digest depends on it.
    - Locks (an operation under a lock is one step), directories, symbolic links
      except where a check of the code is on the link itself, file modes, and
      operating system failures except the crash and fault points named above.
    - Clocks, random tokens and injected callables are arguments.
    - Threads, processes, sockets and SQLite: parallel.py, sandbox.py,
      validation_executor.py, fleet_gateway_bridge.py; the scripts that only read
      and print (pd.py, the studio and cockpit snapshots, the pilot and fixture
      runners); the test doubles; the adapters of providers, of runtimes and of
      the Hermes client, which hand arguments to injected callables.
    - Of orchestrator.py: the V2 integration loop over an injected scheduler,
      executor and adapter, hooks that raise or lack methods, and the issues of a
      context that is no mapping, which is refused in any case.
    - Of orchestrator.py also: records of a checkpoint whose fields have other
      types than those of the lifecycle class.
    - Of dispatch.py: tasks that are objects, and containers other than the empty
      tuple that occur twice in one value.
    - Of evidence.py: bytes, and records that are changed after they were added. *)

From stdpp Require Export prelude strings gmap pretty sorting.
From Stdlib Require Export ZArith Lia Ascii.

#[export] Set Default Proof Using "Type".

Declare Scope fleet_scope.
Delimit Scope fleet_scope with fleet.

(** ** Fallible code: Python functions that return or raise *)

Inductive res (E A : Type) : Type :=
| Ok (a : A)
| Err (e : E).
Arguments Ok {E A} a.
Arguments Err {E A} e.

#[export] Instance res_ret {E} : MRet (res E) := λ A a, Ok a.
#[export] Instance res_bind {E} : MBind (res E) := λ A B f m,
  match m with Ok a => f a | Err e => Err e end.
#[export] Instance res_fmap {E} : FMap (res E) := λ A B f m,
  match m with Ok a => Ok (f a) | Err e => Err e end.
#[export] Instance res_eq_dec {E A} `{EqDecision E, EqDecision A} : EqDecision (res E A).
Proof. solve_decision. Defined.

(** [ensure b e] is [if not b: raise e]. *)
Definition ensure {E} (b : bool) (e : E) : res E unit := if b then Ok () else Err e.

Definition is_ok {E A} (m : res E A) : bool := match m with Ok _ => true | Err _ => false end.

(** [map_err f m] is [try: m except exc: raise f(exc)]. *)
Definition map_err {E F A} (f : E → F) (m : res E A) : res F A :=
  match m with Ok a => Ok a | Err e => Err (f e) end.

(** ** Stateful code that mutates an object and may raise half way

    The state after an exception is kept: what was assigned before the
    [raise] stays assigned. *)

Definition stm (S E A : Type) : Type := S → S * res E A.

#[export] Instance stm_ret {S E} : MRet (stm S E) := λ A a s, (s, Ok a).
#[export] Instance stm_bind {S E} : MBind (stm S E) := λ A B f m s,
  match m s with
  | (s', Ok a) => f a s'
  | (s', Err e) => (s', Err e)
  end.

Section stm_ops.
  Context {S E : Type}.
Definition get_state : stm S E S := λ s, (s, Ok s).
Definition modify (f : S → S) : stm S E unit := λ s, (f s, Ok ()).
Definition raise {A} (e : E) : stm S E A := λ s, (s, Err e).
Definition lift_res {A} (m : res E A) : stm S E A := λ s, (s, m).
Definition ensure_st (b : bool) (e : E) : stm S E unit := lift_res (ensure b e).
End stm_ops.

(** One step of a computation with a state. *)
Section stm_steps.
  Context {S E A B : Type}.
Lemma stm_lift (m : res E A) (f : A → stm S E B) s : (x ← lift_res m; f x) s = match m with Ok x => f x s | Err e => (s, Err e) end.
Proof. by destruct m. Qed.
Lemma stm_ensure b (e : E) (f : unit → stm S E B) s : (x ← ensure_st b e; f x) s = if b then f () s else (s, Err e).
Proof. by destruct b. Qed.
Lemma stm_get (f : S → stm S E B) s : (x ← get_state; f x) s = f s s.
Proof. done. Qed.
Lemma stm_modify (g : S → S) (f : unit → stm S E B) s : (x ← modify g; f x) s = f () (g s).
Proof. done. Qed.
End stm_steps.

(** ** Lemmas on the result monad *)

Create HintDb fleet discriminated.

Section res_facts.
  Context {E A B : Type}.

Lemma bind_ok (m : res E A) (f : A → res E B) b :
    (x ← m; f x) = Ok b ↔ ∃ a, m = Ok a ∧ f a = Ok b.
  Proof. destruct m; cbn; naive_solver. Qed.

Lemma bind_err (m : res E A) (f : A → res E B) e :
    (x ← m; f x) = Err e ↔ m = Err e ∨ ∃ a, m = Ok a ∧ f a = Err e.
  Proof. destruct m; cbn; naive_solver. Qed.

Lemma fmap_ok (m : res E A) (f : A → B) b : f <$> m = Ok b ↔ ∃ a, m = Ok a ∧ b = f a.
  Proof. destruct m; cbn; naive_solver. Qed.

Lemma ensure_ok (b : bool) (e : E) u : ensure b e = Ok u ↔ b = true.
  Proof. destruct b, u; cbn; naive_solver. Qed.

Lemma ensure_err (b : bool) (e e' : E) : ensure b e = Err e' ↔ b = false ∧ e' = e.
  Proof. destruct b; cbn; naive_solver. Qed.

Lemma ret_ok (a b : A) : (mret a : res E A) = Ok b ↔ a = b.
  Proof. cbv [mret res_ret]. naive_solver. Qed.

Lemma ok_inj (a b : A) : (Ok a : res E A) = Ok b → a = b.
  Proof. congruence. Qed.

Lemma is_ok_true (m : res E A) : is_ok m = true ↔ ∃ a, m = Ok a.
  Proof. destruct m; cbn; naive_solver. Qed.
End res_facts.

Lemma mapM_res_ok {E A B} (f : A → res E B) l l' :
  mapM f l = Ok l' ↔ Forall2 (λ a b, f a = Ok b) l l'.
Proof.
  revert l'. induction l as [|a l IH]; intros l'; cbn.
  - rewrite ret_ok. split; [intros <-; constructor|by inversion 1].
  - rewrite bind_ok. setoid_rewrite bind_ok. setoid_rewrite ret_ok. split.
    + intros (b & Hb & bs & Hbs & <-). constructor; [done|]. by apply IH.
    + inversion 1; subst. eexists; split; [done|]. eexists; split; [by apply IH|done].
Qed.

(** A loop that carries a value and may raise. *)
Fixpoint foldM {E A B} (f : B → A → res E B) (acc : B) (l : list A) : res E B :=
  match l with [] => Ok acc | x :: l' => acc' ← f acc x; foldM f acc' l' end.

(** ** Tactics *)

(** Turn the [Ok]-hypotheses of monadic code into their parts. *)
Ltac res_inv1 :=
  match goal with
  | H : (mbind _ _) = Ok _ |- _ => apply bind_ok in H; destruct H as (? & ? & ?)
  | H : (fmap _ _) = Ok _ |- _ => apply fmap_ok in H; destruct H as (? & ? & ?)
  | H : ensure _ _ = Ok _ |- _ => apply ensure_ok in H
  | H : mret _ = Ok _ |- _ => apply ret_ok in H
  | H : Ok _ = Ok _ |- _ => injection H as H; try subst
  | H : Err _ = Ok _ |- _ => discriminate H
  | H : Ok _ = Err _ |- _ => discriminate H
  end.
Ltac res_inv := repeat res_inv1.

(** Split the boolean hypotheses of Python conditions. *)
Ltac bool_inv1 :=
  match goal with
  | H : (_ && _)%bool = true |- _ => apply andb_true_iff in H; destruct H
  | H : (_ || _)%bool = false |- _ => apply orb_false_iff in H; destruct H
  | H : negb _ = true |- _ => apply negb_true_iff in H
  | H : negb _ = false |- _ => apply negb_false_iff in H
  | H : bool_decide _ = true |- _ => apply bool_decide_eq_true in H
  | H : bool_decide _ = false |- _ => apply bool_decide_eq_false in H
  | H : (_ =? _)%Z = true |- _ => apply Z.eqb_eq in H
  | H : (_ =? _)%Z = false |- _ => apply Z.eqb_neq in H
  | H : (_ <? _)%Z = true |- _ => apply Z.ltb_lt in H
  | H : (_ <? _)%Z = false |- _ => apply Z.ltb_ge in H
  | H : (_ <=? _)%Z = true |- _ => apply Z.leb_le in H
  | H : (_ <=? _)%Z = false |- _ => apply Z.leb_gt in H
  end.
Ltac bool_inv := repeat bool_inv1.

(** Case on the scrutinee of the first [match] or [if] of the goal, or of a hypothesis. *)
Ltac case_goal :=
  match goal with
  | |- context [match ?x with _ => _ end] => destruct x eqn:?
  end.
Ltac case_in H :=
  match type of H with
  | context [match ?x with _ => _ end] => destruct x eqn:?
  end.

(** ** Sorting: Python's stable [sorted] with a key, as insertion sort *)

Section sorting.
  Context {A : Type} (leb : A → A → bool).

Fixpoint insert_by (x : A) (l : list A) : list A :=
    match l with
    | [] => [x]
    | y :: l' => if leb x y then x :: l else y :: insert_by x l'
    end.
Definition sort_by (l : list A) : list A := foldr insert_by [] l.

Lemma insert_by_perm x l : insert_by x l ≡ₚ x :: l.
  Proof.
    induction l as [|y l IH]; cbn; [done|]. destruct (leb x y); [done|].
    rewrite IH. apply Permutation_swap.
  Qed.

Lemma sort_by_perm l : sort_by l ≡ₚ l.
  Proof. induction l; cbn; [done|]. by rewrite insert_by_perm, IHl. Qed.

Lemma elem_of_sort_by x l : x ∈ sort_by l ↔ x ∈ l.
  Proof. by rewrite sort_by_perm. Qed.

Lemma length_sort_by l : length (sort_by l) = length l.
  Proof. by rewrite sort_by_perm. Qed.

Lemma NoDup_sort_by l : NoDup (sort_by l) ↔ NoDup l.
  Proof. by rewrite sort_by_perm. Qed.

  Context (leb_total : ∀ x y, leb x y = true ∨ leb y x = true).
  Context (leb_trans : ∀ x y z, leb x y = true → leb y z = true → leb x z = true).

Lemma insert_by_sorted x l :
    StronglySorted (λ a b, leb a b = true) l →
    StronglySorted (λ a b, leb a b = true) (insert_by x l).
  Proof using leb_total leb_trans.
    induction 1 as [|y l Hl IH Hy]; cbn; [repeat constructor|].
    destruct (leb x y) eqn:Hxy.
    - constructor; [by constructor|]. constructor; [done|].
      eapply Forall_impl; [exact Hy|]. cbn. eauto.
    - constructor; [done|]. rewrite insert_by_perm. constructor; [|done].
      destruct (leb_total x y); congruence.
  Qed.

Lemma sort_by_sorted l : StronglySorted (λ a b, leb a b = true) (sort_by l).
  Proof using leb_total leb_trans.
    induction l; cbn; [constructor|by apply insert_by_sorted].
  Qed.

(** A sorted list is left as it is. *)
Lemma sort_by_id l : StronglySorted (λ a b, leb a b = true) l → sort_by l = l.
  Proof.
    induction 1 as [|x l Hl IH Hx]; [done|]. change (sort_by (x :: l)) with (insert_by x (sort_by l)).
    rewrite IH. destruct Hx as [|y l Hy _]; cbn; [done|]. by rewrite Hy.
  Qed.

(** Sorting is stable: selecting before or after is the same. *)
Lemma filter_insert_by (P : A → Prop) `{!∀ x, Decision (P x)} x l :
    StronglySorted (λ a b, leb a b = true) l →
    filter P (insert_by x l) = if decide (P x) then insert_by x (filter P l) else filter P l.
  Proof using leb_trans.
    induction 1 as [|y l Hl IH Hy]; cbn -[filter]; [by rewrite filter_cons|].
    destruct (leb x y) eqn:Hxy.
    - rewrite filter_cons. destruct (decide (P x)); [|done]. rewrite filter_cons.
      destruct (decide (P y)); cbn; [by rewrite Hxy|].
      destruct (filter P l) as [|z l'] eqn:Hf; cbn; [done|].
      assert (z ∈ l) as Hz. { assert (z ∈ filter P l) as Hz by (rewrite Hf; left). by apply list_elem_of_filter in Hz as [_ ?]. }
      rewrite Forall_forall in Hy. by rewrite (leb_trans x y z) by auto.
    - rewrite !filter_cons, IH. by destruct (decide (P y)), (decide (P x)); cbn; rewrite ?Hxy.
  Qed.
Lemma filter_sort_by (P : A → Prop) `{!∀ x, Decision (P x)} l : filter P (sort_by l) = sort_by (filter P l).
  Proof using leb_total leb_trans.
    induction l as [|x l IH]; [done|]. cbn [sort_by foldr]. fold (sort_by l).
    rewrite filter_insert_by by (by apply sort_by_sorted). rewrite IH, filter_cons. by destruct (decide (P x)).
  Qed.
End sorting.

(** Sorting commutes with what keeps the order of the keys. *)
Lemma sort_by_map {A B} (la : A → A → bool) (lb : B → B → bool) (f : A → B) l :
  (∀ x y, lb (f x) (f y) = la x y) → sort_by lb (map f l) = map f (sort_by la l).
Proof.
  intros Hf. induction l as [|x l IH]; [done|]. change (insert_by lb (f x) (sort_by lb (map f l)) = map f (insert_by la x (sort_by la l))).
  rewrite IH. clear IH. induction (sort_by la l) as [|y l' IH]; [done|]. cbn. rewrite Hf. destruct (la x y); [done|]. cbn. by rewrite IH.
Qed.

Lemma Forall2_sort_by {A B} (la : A → A → bool) (lb : B → B → bool) (R S : A → B → Prop) l k :
  (∀ x x' y y', R x y → R x' y' → la x x' = lb y y') → (∀ x y, R x y → S x y) →
  Forall2 R l k → Forall2 S (sort_by la l) (sort_by lb k).
Proof.
  intros Hle HRS HF. eapply Forall2_impl; [|exact HRS]. induction HF as [|x y l k Hxy HF IH]; [constructor|].
  change (Forall2 R (insert_by la x (sort_by la l)) (insert_by lb y (sort_by lb k))). clear HF. induction IH as [|x' y' l' k' Hxy' H IH]; cbn; [by repeat constructor|].
  rewrite (Hle x x' y y') by done. destruct (lb y y'); by repeat constructor.
Qed.

(** [sorted(strings)]: by code point. *)
Definition sort_strings : list string → list string := sort_by String.leb.

Lemma leb_str_total x y : String.leb x y = true ∨ String.leb y x = true.
Proof. apply String.leb_total. Qed.
Lemma leb_str_trans x y z : String.leb x y = true → String.leb y z = true → String.leb x z = true.
Proof.
  intros H1 H2. apply Is_true_true.
  eapply (transitivity (R := String.le)); apply Is_true_true; eassumption.
Qed.
Lemma leb_str_antisym x y : String.leb x y = true → String.leb y x = true → x = y.
Proof. intros. by apply String.leb_antisym. Qed.

Lemma sort_strings_sorted l : StronglySorted (λ a b, String.leb a b = true) (sort_strings l).
Proof. apply sort_by_sorted; eauto using leb_str_total, leb_str_trans. Qed.

Lemma perm_sorted (l l' : list string) : l ≡ₚ l' → sort_strings l = sort_strings l'.
Proof.
  intros Hp. apply (StronglySorted_unique_strong (λ a b, String.leb a b = true)); [|apply sort_strings_sorted..|].
  - intros a b _ _. apply leb_str_antisym.
  - unfold sort_strings. by rewrite !sort_by_perm.
Qed.
(** ** Small facts on lists *)

Lemma existsb_true_iff {A} (p : A → bool) l : existsb p l = true ↔ ∃ x, x ∈ l ∧ p x = true.
Proof. rewrite existsb_exists. by setoid_rewrite list_elem_of_In. Qed.
Lemma existsb_false_iff {A} (p : A → bool) l : existsb p l = false ↔ ∀ x, x ∈ l → p x = false.
Proof.
  induction l; cbn; [set_solver|]. rewrite orb_false_iff, IHl. set_solver.
Qed.
Lemma forallb_true_iff {A} (p : A → bool) l : forallb p l = true ↔ ∀ x, x ∈ l → p x = true.
Proof. rewrite forallb_forall. by setoid_rewrite list_elem_of_In. Qed.

Lemma filter_all {A} (P : A → Prop) `{!∀ x, Decision (P x)} (l : list A) : (∀ x, x ∈ l → P x) → filter P l = l.
Proof.
  induction l as [|x l IH]; intros Hl; [done|]. rewrite filter_cons, decide_True by (apply Hl; left).
  f_equal. apply IH. intros y Hy. apply Hl. by right.
Qed.

#[export] Hint Rewrite @existsb_true_iff @existsb_false_iff @forallb_true_iff
  @elem_of_sort_by : fleet_lists.

Lemma Forall2_in_l {A B} (R : A → B → Prop) l k x : Forall2 R l k → x ∈ l → ∃ y, y ∈ k ∧ R x y.
Proof.
  intros HF Hx. induction HF as [|a b l k Hab HF IH]; [by apply elem_of_nil in Hx|].
  apply elem_of_cons in Hx as [-> | Hx]; [exists b; split; [by left|done]|]. destruct (IH Hx) as (y & Hy & Hxy). exists y. split; [by right|done].
Qed.
Lemma Forall2_in_r {A B} (R : A → B → Prop) l k y : Forall2 R l k → y ∈ k → ∃ x, x ∈ l ∧ R x y.
Proof. intros HF Hy. apply Forall2_flip in HF. by apply (Forall2_in_l _ _ _ _ HF). Qed.

Lemma map_filter_sublist {A B} (f : A → B) (P : A → Prop) `{!∀ x, Decision (P x)} l : map f (filter P l) `sublist_of` map f l.
Proof.
  induction l as [|x l IH]; [done|]. rewrite filter_cons. case_decide; cbn; by constructor.
Qed.
Lemma sorted_sublist {A} (R : A → A → Prop) (l k : list A) : l `sublist_of` k → StronglySorted R k → StronglySorted R l.
Proof.
  induction 1 as [|x l k Hs IH|x l k Hs IH]; [done| |]; intros [Hk Hf]%StronglySorted_inv; [|by apply IH].
  constructor; [by apply IH|]. rewrite !Forall_forall in *. intros y Hy. apply Hf. by eapply elem_of_sublist.
Qed.

Lemma NoDup_map_inj {A B} (f : A → B) l x y : NoDup (map f l) → x ∈ l → y ∈ l → f x = f y → x = y.
Proof.
  induction l as [|z l IH]; [by intros _ ?%elem_of_nil|]. cbn. intros [Hz Hn]%NoDup_cons [-> | Hx]%elem_of_cons [-> | Hy]%elem_of_cons Hf; [done|..].
  - destruct Hz. rewrite Hf. apply list_elem_of_fmap. by exists y.
  - destruct Hz. rewrite <- Hf. apply list_elem_of_fmap. by exists x.
  - by apply IH.
Qed.
Lemma Forall2_perm {A B} (R : A → B → Prop) l l' k : l ≡ₚ l' → Forall2 R l k → ∃ k', k ≡ₚ k' ∧ Forall2 R l' k'.
Proof.
  intros Hp. revert k. induction Hp as [|x l l' _ IH|x y l|l1 l2 l3 _ IH1 _ IH2]; intros k HF.
  - by exists k.
  - inversion HF as [|? b ? k0 Hb HF0]; subst. destruct (IH k0 HF0) as (k' & Hk & HF'). exists (b :: k'). split; [by constructor|by constructor].
  - inversion HF as [|? b ? k0 Hb HF0]; subst. inversion HF0 as [|? c ? k1 Hc HF1]; subst. exists (c :: b :: k1). split; [constructor|by repeat constructor].
  - destruct (IH1 k HF) as (k1 & Hk1 & HF1). destruct (IH2 k1 HF1) as (k2 & Hk2 & HF2). exists k2. split; [by transitivity k1|done].
Qed.
