(* ===== verification/PyStr.v ===== *)
(** * Python strings

    A Python [str] is a [string] of 8-bit characters: the character of code
    [c] stands for the code point U+00[c], so strings with code points above
    U+00FF are outside the model.  [strip], [lower] and [casefold] follow
    CPython on these code points (white space U+0009-000D, U+001C-0020,
    U+0085, U+00A0).  [u8] turns a source literal written in UTF-8 into that
    representation. *)

From S2P Require Import Prelude.

Definition code (c : ascii) : nat := nat_of_ascii c.

Definition dquote : ascii := ascii_of_nat 34.

(** ["é"] in a file is two bytes; the string has one character. *)
Fixpoint u8 (s : string) : string :=
  match s with
  | String c1 ((String c2 s') as t) =>
      if (code c1 =? 194)%nat then String c2 (u8 s')
      else if (code c1 =? 195)%nat then String (ascii_of_nat (code c2 + 64)) (u8 s')
      else String c1 (u8 t)
  | _ => s
  end.

(** ** Character classes *)

Definition between (lo hi : nat) (c : ascii) : bool := (lo <=? code c)%nat && (code c <=? hi)%nat.

Definition is_space (c : ascii) : bool :=
  between 9 13 c || between 28 32 c || (code c =? 133)%nat || (code c =? 160)%nat.
Definition is_upper (c : ascii) : bool := between 65 90 c.
Definition is_lower (c : ascii) : bool := between 97 122 c.
Definition is_digit (c : ascii) : bool := between 48 57 c.
Definition is_alpha (c : ascii) : bool := is_upper c || is_lower c.
Definition is_alnum (c : ascii) : bool := is_alpha c || is_digit c.
Definition is_hex_lower (c : ascii) : bool := is_digit c || between 97 102 c.
Definition is_control (c : ascii) : bool := (code c <? 32)%nat.

(** ** Whole-string predicates and slices *)

Fixpoint str_forallb (p : ascii → bool) (s : string) : bool :=
  match s with "" => true | String c s' => p c && str_forallb p s' end.
Definition str_existsb (p : ascii → bool) (s : string) : bool := negb (str_forallb (negb ∘ p) s).

Definition nonempty (s : string) : bool := match s with "" => false | _ => true end.

Fixpoint str_map (f : ascii → ascii) (s : string) : string :=
  match s with "" => "" | String c s' => String (f c) (str_map f s') end.

Definition lower_char (c : ascii) : ascii :=
  if is_upper c || (between 192 222 c && negb (code c =? 215)%nat)
  then ascii_of_nat (code c + 32) else c.
Definition lower (s : string) : string := str_map lower_char s.

(** [casefold] also maps U+00DF to ["ss"]. *)
Fixpoint casefold (s : string) : string :=
  match s with
  | "" => ""
  | String c s' => if (code c =? 223)%nat then "ss" +:+ casefold s'
                   else String (lower_char c) (casefold s')
  end.

(** [s.lstrip()], [s.rstrip()], with the class of stripped characters. *)
Fixpoint lstrip_by (p : ascii → bool) (s : string) : string :=
  match s with
  | "" => ""
  | String c s' => if p c then lstrip_by p s' else s
  end.
Fixpoint rstrip_by (p : ascii → bool) (s : string) : string :=
  match s with
  | "" => ""
  | String c s' =>
      match rstrip_by p s' with
      | "" => if p c then "" else String c ""
      | t => String c t
      end
  end.
Definition strip_by (p : ascii → bool) (s : string) : string := rstrip_by p (lstrip_by p s).
Definition strip (s : string) : string := strip_by is_space s.

(** [not s.strip()] *)
Definition blank (s : string) : bool := negb (nonempty (strip s)).

Definition startswith (s p : string) : bool := String.prefix p s.
Fixpoint endswith (s p : string) : bool :=
  bool_decide (s = p) || match s with "" => false | String _ s' => endswith s' p end.
Fixpoint contains (s sub : string) : bool :=
  String.prefix sub s || match s with "" => false | String _ s' => contains s' sub end.

(** [s[n:]] for a non-negative [n]. *)
Fixpoint str_drop (n : nat) (s : string) : string :=
  match n, s with
  | O, _ => s
  | S n', String _ s' => str_drop n' s'
  | S _, "" => ""
  end.
Fixpoint str_take (n : nat) (s : string) : string :=
  match n, s with
  | O, _ => ""
  | S n', String c s' => String c (str_take n' s')
  | S _, "" => ""
  end.
Definition removeprefix (s p : string) : string :=
  if startswith s p then str_drop (String.length p) s else s.

(** [s.replace(a, b)] for single characters. *)
Definition replace_char (a b : ascii) (s : string) : string :=
  str_map (λ c, if (code c =? code a)%nat then b else c) s.

(** [s.split(c)]: always at least one part. *)
Fixpoint split_on (sep : ascii) (s : string) : list string :=
  match s with
  | "" => [""]
  | String c s' =>
      if (code c =? code sep)%nat then "" :: split_on sep s'
      else match split_on sep s' with
           | w :: ws => String c w :: ws
           | [] => [String c ""]
           end
  end.
Definition join (sep : string) (l : list string) : string := String.concat sep l.

(** ** Integers *)

Definition str_of_Z (z : Z) : string := pretty z.

Definition digit_val (c : ascii) : Z := Z.of_nat (code c) - 48.

(** The digits of an integer literal, single underscores allowed between
    digits; [prev] says the last character read was a digit. *)
Fixpoint int_digits (acc : Z) (prev : bool) (s : string) : option Z :=
  match s with
  | "" => if prev then Some acc else None
  | String c s' =>
      if is_digit c then int_digits (10 * acc + digit_val c) true s'
      else if (code c =? 95)%nat && prev then int_digits acc false s' else None
  end.

(** [int(s)]: [None] is [ValueError]. *)
Definition int_of_str (s : string) : option Z :=
  match strip s with
  | String c s' =>
      if (code c =? 43)%nat then int_digits 0 false s'
      else if (code c =? 45)%nat then Z.opp <$> int_digits 0 false s'
      else int_digits 0 false (String c s')
  | "" => None
  end.

(** ** Identifier patterns

    [ident first rest max s] is [re.fullmatch(r"[first][rest]{0,max}", s)];
    [max = None] is the star. *)
Definition ident (first rest : ascii → bool) (max : option nat) (s : string) : bool :=
  match s with
  | "" => false
  | String c s' =>
      first c && str_forallb rest s' &&
      match max with Some n => (String.length s' <=? n)%nat | None => true end
  end.

Definition one_of (cs : string) (c : ascii) : bool := negb (str_forallb (λ d, negb (Ascii.eqb c d)) cs).

(** [re.fullmatch(r"[0-9a-f]{64}", s)] *)
Definition is_sha256_hex (s : string) : bool :=
  (String.length s =? 64)%nat && str_forallb is_hex_lower s.

(** [cbn] leaves these folded. *)
#[global] Arguments u8 : simpl never.
#[global] Arguments strip : simpl never.
#[global] Arguments blank : simpl never.
#[global] Arguments str_of_Z : simpl never.

(** ** Facts *)

Lemma nonempty_true s : nonempty s = true ↔ s ≠ "".
Proof. destruct s; cbn; naive_solver. Qed.

Lemma rstrip_by_nil p s : rstrip_by p s = "" ↔ str_forallb p s = true.
Proof.
  induction s as [|c s IH]; cbn; [done|]. destruct (rstrip_by p s) eqn:E.
  - destruct (p c); cbn; [tauto|split; discriminate].
  - split; [discriminate|]. rewrite andb_true_iff. intros [_ H%IH]. discriminate.
Qed.

Lemma rstrip_by_idem p s : rstrip_by p (rstrip_by p s) = rstrip_by p s.
Proof.
  induction s as [|c s IH]; cbn; [done|]. destruct (rstrip_by p s) eqn:E.
  - destruct (p c) eqn:Hc; cbn; [done|]. by rewrite Hc.
  - change (rstrip_by p (String c (String a s0))) with
      (match rstrip_by p (String a s0) with
       | "" => if p c then "" else String c "" | t => String c t end).
    by rewrite IH.
Qed.

Lemma lstrip_by_head p s : match lstrip_by p s with "" => True | String c _ => p c = false end.
Proof. induction s as [|c s IH]; cbn; [done|]. by destruct (p c) eqn:?. Qed.

Lemma lstrip_rstrip_by p s :
  match s with "" => True | String c _ => p c = false end →
  lstrip_by p (rstrip_by p s) = rstrip_by p s.
Proof.
  destruct s as [|c s]; cbn; [done|]. intros Hc.
  destruct (rstrip_by p s); cbn; rewrite Hc; cbn; by rewrite ?Hc.
Qed.

Lemma strip_by_idem p s : strip_by p (strip_by p s) = strip_by p s.
Proof.
  unfold strip_by. rewrite lstrip_rstrip_by by apply lstrip_by_head. apply rstrip_by_idem.
Qed.

Lemma strip_idem s : strip (strip s) = strip s.
Proof. apply strip_by_idem. Qed.

Lemma blank_strip s : blank (strip s) = blank s.
Proof. unfold blank. by rewrite strip_idem. Qed.

Lemma strip_nil : strip "" = "".
Proof. done. Qed.

#[export] Hint Rewrite strip_idem blank_strip : fleet_str.

Lemma str_forallb_spec p s : str_forallb p s = true ↔ ∀ i c, String.get i s = Some c → p c = true.
Proof.
  induction s as [|c s IH]; cbn.
  - split; [|done]. intros _ i c. by destruct i.
  - rewrite andb_true_iff, IH. split.
    + intros [Hc Hs] [|i] d; cbn; [intros [= <-]; exact Hc|apply Hs].
    + intros H. split; [by apply (H 0%nat)|]. intros i. apply (H (S i)).
Qed.

Lemma startswith_refl s : startswith s s = true.
Proof.
  unfold startswith. induction s as [|c s IH]; cbn; [done|].
  destruct (Ascii.ascii_dec c c); [done|congruence].
Qed.

Lemma startswith_app p s : startswith (p +:+ s) p = true.
Proof.
  unfold startswith. induction p as [|c p IH]; [by destruct s|].
  change (String c p +:+ s) with (String c (p +:+ s)).
  cbn. destruct (Ascii.ascii_dec c c); [done|congruence].
Qed.

Lemma startswith_spec s p : startswith s p = true ↔ ∃ t, s = p +:+ t.
Proof.
  split; [|intros [t ->]; apply startswith_app].
  unfold startswith. revert s. induction p as [|c p IH]; intros s; [by exists s|].
  destruct s as [|d s]; [done|]. cbn. destruct (Ascii.ascii_dec c d) as [->|]; [|done].
  intros [t ->]%IH. by exists t.
Qed.

Lemma app_assoc_str (a b c : string) : (a +:+ b) +:+ c = a +:+ b +:+ c.
Proof. induction a as [|x a IH]; [done|]. exact (f_equal (String x) IH). Qed.

Lemma cons_app_str c a b : String c a +:+ b = String c (a +:+ b).
Proof. done. Qed.
Lemma app_nil_str s : s +:+ "" = s.
Proof. induction s as [|c s IH]; [done|]. exact (f_equal (String c) IH). Qed.
Lemma length_str_app a b : String.length (a +:+ b) = (String.length a + String.length b)%nat.
Proof. induction a as [|c a IH]; [done|]. exact (f_equal S IH). Qed.
Lemma str_forallb_app p a b : str_forallb p (a +:+ b) = str_forallb p a && str_forallb p b.
Proof. induction a as [|c a IH]; [done|]. rewrite cons_app_str. cbn. rewrite IH. by destruct (p c). Qed.
Lemma take_app_str a b : str_take (String.length a) (a +:+ b) = a.
Proof. induction a as [|c a IH]; [by destruct b|]. exact (f_equal (String c) IH). Qed.
Lemma drop_app_str a b i : str_drop (String.length a + i) (a +:+ b) = str_drop i b.
Proof. induction a as [|c a IH]; [done|]. exact IH. Qed.
Lemma drop_app_le a b i : (i ≤ String.length a)%nat → str_drop i (a +:+ b) = str_drop i a +:+ b.
Proof.
  revert i. induction a as [|c a IH]; intros [|i] Hi; try done; cbn in Hi; [lia|].
  apply (IH i). lia.
Qed.
Lemma str_drop_0 s : str_drop 0 s = s.
Proof. by destruct s. Qed.

Lemma str_take_forallb p n s : str_forallb p s = true → str_forallb p (str_take n s) = true.
Proof.
  revert s. induction n as [|n IH]; intros [|c s]; cbn; try done. rewrite andb_true_iff. intros [-> Hs]. cbn. auto.
Qed.

Lemma str_take_length n s : (String.length (str_take n s) ≤ n)%nat.
Proof. revert s. induction n as [|n IH]; intros [|c s]; cbn; try lia. specialize (IH s). lia. Qed.
Lemma strip_by_forallb q p s : str_forallb q s = true → str_forallb q (strip_by p s) = true.
Proof.
  intros H. unfold strip_by. assert (str_forallb q (lstrip_by p s) = true) as Hl.
  { induction s as [|c s IH]; [done|]. cbn in *. apply andb_true_iff in H as [Hc Hs]. destruct (p c); [by apply IH|]. cbn. by rewrite Hc. }
  revert Hl. generalize (lstrip_by p s). clear. intros s. induction s as [|c s IH]; [done|]. cbn. intros [Hc Hs]%andb_true_iff.
  specialize (IH Hs). destruct (rstrip_by p s) eqn:E; [destruct (p c); cbn; by rewrite ?Hc|]. cbn in *. by rewrite Hc.
Qed.

(** ** Path components *)

Definition slash : ascii := "/"%char.

Lemma split_on_cons_eq s : split_on slash (String slash s) = "" :: split_on slash s.
Proof. done. Qed.
Lemma split_on_cons_ne c s : c ≠ slash →
  split_on slash (String c s) = match split_on slash s with w :: ws => String c w :: ws | [] => [String c ""] end.
Proof.
  intros Hc. cbn. destruct (Nat.eqb_spec (code c) (code slash)) as [He|]; [|done].
  destruct Hc. unfold code in He. rewrite <- (ascii_nat_embedding c), <- (ascii_nat_embedding slash). by f_equal.
Qed.
Lemma split_on_nonempty c s : split_on c s ≠ [].
Proof. destruct s as [|x s]; cbn; [done|]. destruct (_ =? _)%nat; [done|]. by destruct (split_on c s). Qed.

Lemma startswith_cons c d s p : startswith (String c s) (String d p) = bool_decide (c = d) && startswith s p.
Proof.
  unfold startswith. cbn. destruct (Ascii.ascii_dec d c) as [->|Hne]; [by rewrite bool_decide_true|].
  by rewrite bool_decide_false by congruence.
Qed.

Lemma prefix_cons_iff {A} (x y : A) l k : (x :: l) `prefix_of` (y :: k) ↔ x = y ∧ l `prefix_of` k.
Proof.
  split; [|intros [-> ?]; by apply prefix_cons]. intros H. split; [by eapply prefix_cons_inv_1|by eapply prefix_cons_inv_2].
Qed.

(** [a] followed by a slash is a prefix of [b], or [b] itself: [a]'s components
    are the first components of [b]. *)
Lemma components_prefix a b :
  split_on slash a `prefix_of` split_on slash b ↔ a = b ∨ startswith b (a +:+ "/") = true.
Proof.
  revert b. induction a as [|c a IH]; intros b.
  - destruct b as [|d b]; [split; [by left|done]|]. change ("" +:+ "/") with "/". change "/" with (String slash "").
    rewrite startswith_cons. destruct (decide (d = slash)) as [->|Hd].
    + rewrite split_on_cons_eq. split; [intros _; right; by destruct b|]. intros _. by apply prefix_cons, prefix_nil.
    + rewrite split_on_cons_ne by done. pose proof (split_on_nonempty slash b). destruct (split_on slash b) as [|w ws]; [done|].
      rewrite bool_decide_false by done. split; [|intros [?|?]; done]. intros Hp. apply prefix_cons_inv_1 in Hp. discriminate.
  - change (String c a +:+ "/") with (String c (a +:+ "/")). destruct b as [|d b].
    + split; [|intros [?|?]; done]. intros Hp. destruct (decide (c = slash)) as [->|Hc].
      * rewrite split_on_cons_eq in Hp. apply prefix_cons_inv_2 in Hp. apply prefix_nil_inv in Hp. by destruct (split_on_nonempty slash a).
      * rewrite split_on_cons_ne in Hp by done. pose proof (split_on_nonempty slash a). destruct (split_on slash a) as [|w ws]; [done|].
        apply prefix_cons_inv_1 in Hp. discriminate.
    + rewrite startswith_cons. destruct (decide (c = slash)) as [->|Hc], (decide (d = slash)) as [->|Hd].
      * rewrite !split_on_cons_eq, bool_decide_true by done. cbn [andb]. specialize (IH b).
        rewrite prefix_cons_iff, IH. naive_solver.
      * rewrite split_on_cons_eq, split_on_cons_ne, bool_decide_false by congruence.
        pose proof (split_on_nonempty slash b). destruct (split_on slash b) as [|w ws]; [done|].
        rewrite prefix_cons_iff. naive_solver.
      * rewrite split_on_cons_eq, split_on_cons_ne, bool_decide_false by congruence.
        pose proof (split_on_nonempty slash a). destruct (split_on slash a) as [|w ws]; [done|].
        rewrite prefix_cons_iff. naive_solver.
      * rewrite !split_on_cons_ne by done. specialize (IH b).
        pose proof (split_on_nonempty slash a). destruct (split_on slash a) as [|w ws]; [done|].
        pose proof (split_on_nonempty slash b). destruct (split_on slash b) as [|v vs]; [done|].
        rewrite prefix_cons_iff in IH |- *. case_bool_decide; cbn; naive_solver.
Qed.

(** The components between the slashes hold none, and joining them gives the text back. *)
Definition slash_free (s : string) : bool := str_forallb (λ c, negb (bool_decide (c = slash))) s.

Lemma split_on_free s : Forall (λ w, slash_free w = true) (split_on slash s).
Proof.
  induction s as [|c s IH]; [by repeat constructor|]. destruct (decide (c = slash)) as [-> | Hc].
  - rewrite split_on_cons_eq. by constructor.
  - rewrite split_on_cons_ne by done. pose proof (split_on_nonempty slash s). destruct (split_on slash s) as [|w ws]; [done|].
    apply Forall_cons in IH as [Hw Hws]. constructor; [|done]. unfold slash_free in *. cbn. by rewrite bool_decide_false, Hw.
Qed.
Lemma split_on_word w : slash_free w = true → split_on slash w = [w].
Proof.
  induction w as [|c w IH]; [done|]. unfold slash_free in *. cbn [str_forallb]. intros [Hc Hw]%andb_true_iff. bool_inv.
  rewrite split_on_cons_ne by done. by rewrite IH.
Qed.
Lemma split_on_app w s : slash_free w = true → split_on slash (w +:+ String slash s) = w :: split_on slash s.
Proof.
  induction w as [|c w IH]; [done|]. unfold slash_free in *. cbn [str_forallb]. intros [Hc Hw]%andb_true_iff. bool_inv.
  rewrite cons_app_str, split_on_cons_ne by done. by rewrite IH.
Qed.
Lemma split_on_join l : l ≠ [] → Forall (λ w, slash_free w = true) l → split_on slash (join "/" l) = l.
Proof.
  induction l as [|w l IH]; [done|]. intros _ [Hw Hl]%Forall_cons. destruct l as [|v l]; [by apply split_on_word|].
  change (join "/" (w :: v :: l)) with (w +:+ String slash (join "/" (v :: l))). rewrite split_on_app by done. by rewrite IH.
Qed.

(** *** One more character at the end *)

Lemma nil_app_str s : "" +:+ s = s.
Proof. done. Qed.
Lemma str_map_app f a b : str_map f (a +:+ b) = str_map f a +:+ str_map f b.
Proof. induction a as [|c a IH]; [done|]. rewrite !cons_app_str. cbn [str_map]. by rewrite IH. Qed.
Lemma rstrip_snoc p s c : rstrip_by p (s +:+ String c "") = if p c then rstrip_by p s else s +:+ String c "".
Proof.
  induction s as [|d s IH]; [rewrite nil_app_str; cbn; by destruct (p c)|]. rewrite cons_app_str. cbn [rstrip_by]. rewrite IH. destruct (p c); [done|].
  destruct s; [done|]. by rewrite !cons_app_str.
Qed.
Lemma lstrip_snoc p s c : lstrip_by p (s +:+ String c "") =
  match lstrip_by p s with "" => if p c then "" else String c "" | t => t +:+ String c "" end.
Proof. induction s as [|d s IH]; [rewrite nil_app_str; cbn; by destruct (p c)|]. rewrite cons_app_str. cbn [lstrip_by]. by destruct (p d). Qed.
Lemma strip_snoc p s c : p c = true → strip_by p (s +:+ String c "") = strip_by p s.
Proof.
  intros Hc. unfold strip_by. rewrite lstrip_snoc, Hc. destruct (lstrip_by p s) as [|d t]; [done|]. by rewrite rstrip_snoc, Hc.
Qed.
Lemma strip_snoc_keep p s c : p c = false → strip_by p s = s → strip_by p (s +:+ String c "") = s +:+ String c "".
Proof.
  intros Hc Hs. unfold strip_by in *. rewrite lstrip_snoc, Hc. destruct (lstrip_by p s) as [|d t] eqn:E.
  - cbn in Hs. subst s. cbn [rstrip_by]. by rewrite Hc.
  - assert (s = String d t) as ->; [|by rewrite rstrip_snoc, Hc].
    assert (∀ u, (String.length (rstrip_by p u) ≤ String.length u)%nat) as Hr.
    { induction u as [|x u IHu]; cbn; [done|]. destruct (rstrip_by p u); [destruct (p x)|]; cbn in *; lia. }
    assert (∀ u, (String.length (lstrip_by p u) ≤ String.length u)%nat) as Hl.
    { induction u as [|x u IHu]; cbn; [done|]. destruct (p x); cbn; lia. }
    destruct s as [|x s]; [done|]. cbn [lstrip_by] in E. destruct (p x); [|done]. exfalso.
    specialize (Hr (String d t)). specialize (Hl s). rewrite Hs, <- E in Hr. cbn in Hr. lia.
Qed.

Fixpoint char_repeat (n : nat) (c : ascii) : string := match n with O => "" | S n' => String c (char_repeat n' c) end.
Lemma char_repeat_snoc n c : char_repeat (S n) c = char_repeat n c +:+ String c "".
Proof. induction n as [|n IH]; [done|]. cbn [char_repeat]. rewrite cons_app_str. cbn [char_repeat] in IH. by rewrite <- IH. Qed.
Lemma rstrip_eqb c s : ∃ n, s = rstrip_by (Ascii.eqb c) s +:+ char_repeat n c.
Proof.
  induction s as [|d s [n IH]]; [by exists O|]. cbn [rstrip_by]. destruct (rstrip_by (Ascii.eqb c) s) as [|x t] eqn:E.
  - destruct (Ascii.eqb_spec c d) as [<-|Hne]; [exists (S n)|exists n]; [|rewrite cons_app_str]; by rewrite IH at 1.
  - exists n. rewrite cons_app_str. by rewrite IH at 1.
Qed.
Lemma app_str_inj a b x y : String.length a = String.length x → a +:+ b = x +:+ y → a = x ∧ b = y.
Proof.
  revert x. induction a as [|c a IH]; intros [|d x] Hl H; try done. rewrite !cons_app_str in H. injection H as -> H. cbn in Hl.
  destruct (IH x) as [-> ->]; [lia|done|done].
Qed.
Lemma length_str_map f s : String.length (str_map f s) = String.length s.
Proof. induction s; cbn; [done|by f_equal]. Qed.

Lemma contains_char s c : contains s (String c "") = str_existsb (Ascii.eqb c) s.
Proof.
  unfold str_existsb. induction s as [|d s IH]; [done|]. cbn [contains str_forallb String.prefix]. rewrite IH. unfold compose.
  destruct (Ascii.ascii_dec c d) as [->|Hne].
  - rewrite Ascii.eqb_refl. by destruct s.
  - destruct (Ascii.eqb_spec c d); [done|]. cbn. done.
Qed.
Lemma startswith_head s c t : s ≠ "" → startswith (s +:+ t) (String c "") = startswith s (String c "").
Proof. destruct s as [|d s]; [done|]. intros _. rewrite cons_app_str, !startswith_cons.
  assert (∀ u, startswith u "" = true) as Hu by (by intros []). rewrite !Hu. done.
Qed.

Lemma split_on_app_slash a b : split_on slash (a +:+ String slash b) = (split_on slash a ++ split_on slash b)%list.
Proof.
  induction a as [|c a IH]; [done|]. rewrite cons_app_str. destruct (decide (c = slash)) as [->|Hc].
  - by rewrite !split_on_cons_eq, IH.
  - rewrite !split_on_cons_ne, IH by done. pose proof (split_on_nonempty slash a). by destruct (split_on slash a).
Qed.

Lemma ident_nonempty first rest max s : ident first rest max s = true → s ≠ "".
Proof. by destruct s. Qed.

Example strip_ex : strip "  a b " = "a b". Proof. reflexivity. Qed.
Example int_ex : int_of_str " -1_0 " = Some (-10)%Z. Proof. reflexivity. Qed.
Example u8_ex : String.length (u8 "é") = 1%nat. Proof. reflexivity. Qed.
