(* ===== verification/PyNum.v ===== *)
(** * Python numbers

    A [float] is a binary64 datum of [SpecFloat] (53-bit mantissa, maximal
    exponent 1024) with its IEEE operations; an [int] is an unbounded [Z].
    Comparisons between the two are exact, as in CPython.  [float_repr] is
    [repr(float)]: the shortest decimal that reads back as the same float. *)

From S2P Require Import Prelude PyStr.
From Stdlib Require Export Floats.SpecFloat.

Definition prec : Z := 53.
Definition emax : Z := 1024.

Definition fadd : spec_float → spec_float → spec_float := SFadd prec emax.
Definition fsub : spec_float → spec_float → spec_float := SFsub prec emax.

#[export] Instance spec_float_eq_dec : EqDecision spec_float.
Proof. solve_decision. Defined.

Definition is_finite (f : spec_float) : bool :=
  match f with S754_zero _ | S754_finite _ _ _ => true | _ => false end.

(** [float(z)]: [None] is [OverflowError]. *)
Definition float_of_Z (z : Z) : option spec_float :=
  match binary_normalize prec emax z 0 false with
  | S754_infinity _ => None
  | f => Some f
  end.

(** A finite float as [m * 2^e]. *)
Definition dyadic (f : spec_float) : option (Z * Z) :=
  match f with
  | S754_zero _ => Some (0, 0)%Z
  | S754_finite s m e => Some (if s then Zneg m else Zpos m, e)
  | _ => None
  end.

Definition dyadic_compare (x y : Z * Z) : comparison :=
  let e := Z.min x.2 y.2 in
  Z.compare (x.1 * 2 ^ (x.2 - e)) (y.1 * 2 ^ (y.2 - e)).

(** ** Numbers: [int | float] *)

Inductive pynum : Type :=
| NInt (z : Z)
| NFloat (f : spec_float).

#[export] Instance pynum_eq_dec : EqDecision pynum.
Proof. solve_decision. Defined.

(** The ordering class of a number: a dyadic, an infinity, or not a number. *)
Inductive numval : Type :=
| NVal (m e : Z)
| NInf (neg : bool)
| NNan.

Definition num_val (n : pynum) : numval :=
  match n with
  | NInt z => NVal z 0
  | NFloat (S754_infinity s) => NInf s
  | NFloat S754_nan => NNan
  | NFloat f => match dyadic f with Some (m, e) => NVal m e | None => NNan end
  end.

Definition num_compare (x y : pynum) : option comparison :=
  match num_val x, num_val y with
  | NNan, _ | _, NNan => None
  | NVal m e, NVal m' e' => Some (dyadic_compare (m, e) (m', e'))
  | NVal _ _, NInf s => Some (if s then Gt else Lt)
  | NInf s, NVal _ _ => Some (if s then Lt else Gt)
  | NInf s, NInf s' => Some (match s, s' with
                             | true, false => Lt | false, true => Gt | _, _ => Eq end)
  end.

Definition num_eqb (x y : pynum) : bool := match num_compare x y with Some Eq => true | _ => false end.
Definition num_ltb (x y : pynum) : bool := match num_compare x y with Some Lt => true | _ => false end.
Definition num_leb (x y : pynum) : bool := match num_compare x y with Some (Lt | Eq) => true | _ => false end.
Definition num_finite (x : pynum) : bool := match num_val x with NVal _ _ => true | _ => false end.

(** [x > y] and [x >= y] are [y < x] and [y <= x] with NaN excluded on both sides. *)
Definition fltb (x y : spec_float) : bool := num_ltb (NFloat x) (NFloat y).
Definition fleb (x y : spec_float) : bool := num_leb (NFloat x) (NFloat y).
Definition fgtZ (x : spec_float) (z : Z) : bool := num_ltb (NInt z) (NFloat x).
Definition fgeZ (x : spec_float) (z : Z) : bool := num_leb (NInt z) (NFloat x).

(** ** [repr(float)] *)

(** The float nearest to [d * 10^p], [d > 0]. *)
Definition float_of_decimal (d p : Z) : spec_float :=
  if (0 <=? p)%Z then binary_normalize prec emax (d * 10 ^ p) 0 false
  else let '(q, e, l) := SFdiv_core_binary prec emax d 0 (10 ^ (- p)) 0 in
       binary_round_aux prec emax false q e l.

(** [num/den < 10^k], with [k] of either sign. *)
Definition below_pow10 (num den k : Z) : bool :=
  if (0 <=? k)%Z then (num <? den * 10 ^ k)%Z else (num * 10 ^ (- k) <? den)%Z.

(** The least [k] from [k0] on with [num/den < 10^k]. *)
Fixpoint dec_exponent (fuel : nat) (num den k : Z) : Z :=
  match fuel with
  | O => k
  | S n => if below_pow10 num den k then k else dec_exponent n num den (k + 1)
  end.

(** The shortest digits [d] with [d * 10^(k-n)] reading back as [f]. *)
Fixpoint shortest (fuel : nat) (f : spec_float) (num den k n : Z) : Z * Z :=
  let p := (n - k)%Z in
  let sn := if (0 <=? p)%Z then (num * 10 ^ p)%Z else num in
  let sd := if (0 <=? p)%Z then den else (den * 10 ^ (- p))%Z in
  let lo := (sn / sd)%Z in
  let up := (2 * (sn - lo * sd) >? sd)%Z || ((2 * (sn - lo * sd) =? sd)%Z && Z.odd lo) in
  let c1 := if up then (lo + 1)%Z else lo in
  let c2 := if up then lo else (lo + 1)%Z in
  match fuel with
  | O => (c1, n)
  | S fuel' =>
      if bool_decide (float_of_decimal c1 (- p) = f) then (c1, n)
      else if bool_decide (float_of_decimal c2 (- p) = f) && (0 <? c2)%Z then (c2, n)
      else shortest fuel' f num den k (n + 1)
  end.

Fixpoint zeros (n : nat) : string := match n with O => "" | S n' => String "0"%char (zeros n') end.

(** Digits without trailing zeros. *)
Definition digits_of (d : Z) : string := rstrip_by (λ c, (code c =? 48)%nat) (str_of_Z d).

(** Lay out digits [ds] whose first digit has weight [10^(decpt-1)]. *)
Definition layout (ds : string) (decpt : Z) : string :=
  let n := Z.of_nat (String.length ds) in
  if (decpt <=? -4)%Z || (16 <? decpt)%Z then
    let ex := (decpt - 1)%Z in
    let mant := match ds with
                | String c "" => ds
                | String c t => String c ("." +:+ t)
                | "" => "" end in
    let a := str_of_Z (Z.abs ex) in
    mant +:+ "e" +:+ (if (ex <? 0)%Z then "-" else "+") +:+
      (if (Z.abs ex <? 10)%Z then "0" +:+ a else a)
  else if (decpt <=? 0)%Z then "0." +:+ zeros (Z.to_nat (- decpt)) +:+ ds
  else if (n <=? decpt)%Z then ds +:+ zeros (Z.to_nat (decpt - n)) +:+ ".0"
  else str_take (Z.to_nat decpt) ds +:+ "." +:+ str_drop (Z.to_nat decpt) ds.

Definition float_repr (f : spec_float) : string :=
  match f with
  | S754_nan => "nan"
  | S754_infinity s => if s then "-inf" else "inf"
  | S754_zero s => if s then "-0.0" else "0.0"
  | S754_finite s m e =>
      let num := if (0 <=? e)%Z then (Zpos m * 2 ^ e)%Z else Zpos m in
      let den := if (0 <=? e)%Z then 1%Z else (2 ^ (- e))%Z in
      let k0 := ((Zpos (digits2_pos m) + e - 1) * 30103 / 100000 - 1)%Z in
      let k := dec_exponent 5 num den k0 in
      let '(d, n) := shortest 17 (S754_finite false m e) num den k 1 in
      let raw := str_of_Z d in
      (if s then "-" else "") +:+
        layout (digits_of d) (k + (Z.of_nat (String.length raw) - n))
  end.

(** ** Facts *)

Lemma dyadic_compare_scale x y e :
  (e ≤ x.2)%Z → (e ≤ y.2)%Z →
  dyadic_compare x y = Z.compare (x.1 * 2 ^ (x.2 - e)) (y.1 * 2 ^ (y.2 - e)).
Proof.
  intros Hx Hy. unfold dyadic_compare. set (d := Z.min x.2 y.2).
  assert (Hd : (e ≤ d)%Z) by lia.
  replace (x.2 - e)%Z with ((x.2 - d) + (d - e))%Z by lia.
  replace (y.2 - e)%Z with ((y.2 - d) + (d - e))%Z by lia.
  rewrite !Z.pow_add_r, !Z.mul_assoc by lia.
  apply Zmult_compare_compat_r. apply Z.lt_gt, Z.pow_pos_nonneg; lia.
Qed.

Lemma dyadic_compare_refl x : dyadic_compare x x = Eq.
Proof. unfold dyadic_compare. apply Z.compare_refl. Qed.

Lemma dyadic_compare_antisym x y : dyadic_compare y x = CompOpp (dyadic_compare x y).
Proof. unfold dyadic_compare. rewrite Z.min_comm. apply Z.compare_antisym. Qed.

Lemma num_ltb_irrefl x : num_ltb x x = false.
Proof.
  unfold num_ltb, num_compare. destruct (num_val x) as [m e|[]|]; [|done..].
  by rewrite dyadic_compare_refl.
Qed.

Lemma num_ltb_trans x y z : num_ltb x y = true → num_ltb y z = true → num_ltb x z = true.
Proof.
  unfold num_ltb, num_compare.
  destruct (num_val x) as [m1 e1|[]|], (num_val y) as [m2 e2|[]|], (num_val z) as [m3 e3|[]|];
    try done.
  set (e := Z.min e1 (Z.min e2 e3)).
  rewrite !(dyadic_compare_scale _ _ e) by (cbn; lia). cbn.
  repeat case_match; simplify_eq; rewrite ?Z.compare_lt_iff, ?Z.compare_eq_iff, ?Z.compare_gt_iff in *;
    try done; lia.
Qed.

Lemma num_ltb_antisym x y : num_ltb x y = true → num_ltb y x = false.
Proof.
  intros H1. destruct (num_ltb y x) eqn:H2; [|done].
  rewrite <- (num_ltb_irrefl x). symmetry. by eapply num_ltb_trans.
Qed.

Lemma num_ltb_int x y : num_ltb (NInt x) (NInt y) = (x <? y)%Z.
Proof.
  unfold num_ltb, num_compare. cbn. rewrite (dyadic_compare_scale _ _ 0) by (cbn; lia). cbn.
  rewrite !Z.mul_1_r. unfold Z.ltb. by destruct (x ?= y)%Z.
Qed.

Lemma num_eqb_int x y : num_eqb (NInt x) (NInt y) = (x =? y)%Z.
Proof.
  unfold num_eqb, num_compare. cbn. rewrite (dyadic_compare_scale _ _ 0) by (cbn; lia). cbn.
  rewrite !Z.mul_1_r. destruct (Z.compare_spec x y); symmetry; [by apply Z.eqb_eq|apply Z.eqb_neq; lia..].
Qed.

Lemma fsub_diag f : is_finite f = true → fsub f f = S754_zero false.
Proof.
  destruct f as [s| | |s m e]; cbn; try done.
  - by destruct s.
  - intros _. rewrite Z.min_id. by rewrite Z.sub_diag.
Qed.

Example repr_ex1 : float_repr (float_of_decimal 1 (-1)) = "0.1". Proof. vm_compute. reflexivity. Qed.
Example repr_ex2 : float_repr (float_of_decimal 15 (-1)) = "1.5". Proof. vm_compute. reflexivity. Qed.
Example repr_ex3 : float_repr (float_of_decimal 1 22) = "1e+22". Proof. vm_compute. reflexivity. Qed.
Example repr_ex4 : float_repr (float_of_decimal 5 (-324)) = "5e-324". Proof. vm_compute. reflexivity. Qed.
Example repr_ex5 : float_repr (float_of_decimal 300 0) = "300.0". Proof. vm_compute. reflexivity. Qed.

(** ** The float of an integer keeps its sign *)

Lemma digits2_lower p : (2 ^ (Zpos (digits2_pos p) - 1) <= Zpos p)%Z.
Proof.
  induction p as [p IH|p IH|]; cbn [digits2_pos]; [| |done].
  all: rewrite Pos2Z.inj_succ; replace (Z.succ (Zpos (digits2_pos p)) - 1)%Z with (Z.succ (Zpos (digits2_pos p) - 1)) by lia;
    rewrite Z.pow_succ_r by lia; lia.
Qed.
Lemma shr_1_div r : (0 <= shr_m r)%Z → shr_m (shr_1 r) = (shr_m r / 2)%Z.
Proof.
  destruct r as [m a b]. cbn. destruct m as [|p|p]; intros H; [done| |lia]. destruct p as [p|p|]; cbn; [| |done].
  - change (Zpos p~1) with (2 * Zpos p + 1)%Z. apply Z.div_unique with 1%Z; lia.
  - change (Zpos p~0) with (2 * Zpos p)%Z. apply Z.div_unique with 0%Z; lia.
Qed.
Lemma shr_iter p r : (0 <= shr_m r)%Z → shr_m (SpecFloat.iter_pos shr_1 p r) = (shr_m r / 2 ^ Zpos p)%Z.
Proof.
  revert r. induction p as [p IH|p IH|]; intros r Hr; cbn [SpecFloat.iter_pos].
  3: by rewrite shr_1_div.
  all: assert (∀ q, 0 <= q → 0 <= q / 2 ^ Zpos p)%Z as Hq by (intros q Hq; apply Z.div_pos; lia).
  - assert (0 <= shr_m (shr_1 r))%Z as H1 by (rewrite shr_1_div by done; apply Z.div_pos; lia).
    rewrite (IH (SpecFloat.iter_pos shr_1 p (shr_1 r))), (IH (shr_1 r)), shr_1_div by (rewrite ?(IH (shr_1 r)) by done; auto).
    rewrite !Z.div_div by lia. f_equal. change (Zpos p~1) with (2 * Zpos p + 1)%Z. replace (2 * Zpos p + 1)%Z with (1 + Zpos p + Zpos p)%Z by lia.
    rewrite !Z.pow_add_r by lia. lia.
  - rewrite (IH (SpecFloat.iter_pos shr_1 p r)), (IH r) by (rewrite ?(IH r) by done; auto). rewrite Z.div_div by lia. f_equal.
    change (Zpos p~0) with (2 * Zpos p)%Z. replace (2 * Zpos p)%Z with (Zpos p + Zpos p)%Z by lia. rewrite Z.pow_add_r by lia. lia.
Qed.

(** Aligning a positive mantissa never loses it. *)
Lemma shr_fexp_pos p e l : (-1074 <= e)%Z →
  (1 <= shr_m (fst (shr_fexp prec emax (Zpos p) e l)))%Z ∧ (-1074 <= snd (shr_fexp prec emax (Zpos p) e l))%Z.
Proof.
  intros He. unfold shr_fexp. set (n := (fexp prec emax (Zdigits2 (Zpos p) + e) - e)%Z).
  assert (n <= Z.max (Zpos (digits2_pos p) - 1) 0)%Z as Hn.
  { unfold n, fexp, Zdigits2, prec, SpecFloat.emin, emax. lia. }
  assert (shr_m (shr_record_of_loc (Zpos p) l) = Zpos p) as Hm by (by destruct l as [|[]]).
  unfold shr. destruct n as [|q|q] eqn:En; cbn [fst snd]; rewrite ?Hm; try (split; lia).
  split; [|lia]. rewrite shr_iter by (rewrite Hm; lia). rewrite Hm. pose proof (digits2_lower p) as Hd.
  apply Z.div_le_lower_bound; [lia|]. transitivity (2 ^ (Zpos (digits2_pos p) - 1))%Z; [|done]. rewrite Z.mul_1_r. apply Z.pow_le_mono_r; lia.
Qed.

Lemma float_of_pos p f : float_of_Z (Zpos p) = Some f → ∃ m e, f = S754_finite false m e.
Proof.
  unfold float_of_Z. cbn [binary_normalize]. unfold binary_round. destruct (shl_align p 0 (fexp prec emax (Zpos (digits2_pos p) + 0))) as [mz ez] eqn:Es.
  assert (-1074 <= ez)%Z as Hez.
  { unfold shl_align in Es. destruct (fexp prec emax (Zpos (digits2_pos p) + 0) - 0)%Z eqn:En; injection Es as _ <-; unfold fexp, prec, SpecFloat.emin, emax in *; lia. }
  unfold binary_round_aux. destruct (shr_fexp prec emax (Zpos mz) ez loc_Exact) as [r1 e1] eqn:E1.
  destruct (shr_fexp_pos mz ez loc_Exact Hez) as [H1 He1]. rewrite E1 in H1, He1. cbn [fst snd] in H1, He1.
  assert (1 <= round_nearest_even (shr_m r1) (loc_of_shr_record r1))%Z as Hr.
  { unfold round_nearest_even. destruct (loc_of_shr_record r1) as [|[]]; try lia. destruct (Z.even (shr_m r1)); lia. }
  destruct (round_nearest_even (shr_m r1) (loc_of_shr_record r1)) as [|q|q]; [lia| |lia].
  destruct (shr_fexp prec emax (Zpos q) e1 loc_Exact) as [r2 e2] eqn:E2. destruct (shr_fexp_pos q e1 loc_Exact He1) as [H2 _].
  rewrite E2 in H2. cbn [fst] in H2. destruct (shr_m r2) as [|m|m]; [lia| |lia]. destruct (Z.leb e2 (emax - prec)); intros [= <-]. by exists m, e2.
Qed.

(** A positive integer has a positive, finite float; zero has zero. *)
Lemma float_of_Z_sign z f : (0 <= z)%Z → float_of_Z z = Some f →
  is_finite f = true ∧ num_ltb (NFloat f) (NInt 0) = false ∧ (0 < z → num_ltb (NInt 0) (NFloat f) = true)%Z.
Proof.
  intros Hz Hf. destruct z as [|p|p]; [|destruct (float_of_pos p f Hf) as (m & e & ->)|lia].
  - injection Hf as <-. split; [done|]. split; [done|lia].
  - split; [done|]. unfold num_ltb, num_compare, num_val, dyadic, dyadic_compare. cbn [fst snd].
    assert (0 < Zpos m * 2 ^ (e - Z.min e 0))%Z as Hp by (apply Z.mul_pos_pos; [lia|apply Z.pow_pos_nonneg; lia]).
    rewrite Z.mul_0_l. split.
    + rewrite (proj2 (Z.compare_gt_iff _ _)); [done|exact Hp].
    + intros _. rewrite Z.mul_0_l, Z.min_comm. rewrite (proj2 (Z.compare_lt_iff _ _)); [done|exact Hp].
Qed.
