(* ===== verification/PyVal.v ===== *)
(** * Python values and JSON

    [pyval] is the universe of JSON-shaped Python data: [None], booleans,
    integers, floats, strings, lists, tuples, exact [dict]s, the read-only
    mapping views ([MappingProxyType]) the package builds, and [VOther], an
    object of any other type, carried with its [str()].  A dictionary is an
    association list in insertion order.  [json_dumps] is
    [json.dumps(v, sort_keys=True, separators=(",", ":"), ensure_ascii=False,
    allow_nan=False)]. *)

From S2P Require Import Prelude PyStr PyNum.

Inductive pyval : Type :=
| VNone
| VBool (b : bool)
| VInt (z : Z)
| VFloat (f : spec_float)
| VStr (s : string)
| VList (l : list pyval)
| VTuple (l : list pyval)
| VDict (kvs : list (pyval * pyval))
| VProxy (kvs : list (pyval * pyval))
| VOther (repr : string).

Section pyval_ind.
  Context (P : pyval → Prop)
    (HNone : P VNone) (HBool : ∀ b, P (VBool b)) (HInt : ∀ z, P (VInt z))
    (HFloat : ∀ f, P (VFloat f)) (HStr : ∀ s, P (VStr s))
    (HList : ∀ l, Forall P l → P (VList l)) (HTuple : ∀ l, Forall P l → P (VTuple l))
    (HDict : ∀ kvs, Forall (λ kv, P kv.1 ∧ P kv.2) kvs → P (VDict kvs))
    (HProxy : ∀ kvs, Forall (λ kv, P kv.1 ∧ P kv.2) kvs → P (VProxy kvs))
    (HOther : ∀ r, P (VOther r)).

Fixpoint pyval_ind' (v : pyval) : P v :=
    let go := fix go l : Forall P l :=
      match l with [] => Forall_nil_2 _ | x :: l' => Forall_cons_2 _ x l' (pyval_ind' x) (go l') end in
    let gokv := fix gokv l : Forall (λ kv, P kv.1 ∧ P kv.2) l :=
      match l with
      | [] => Forall_nil_2 _
      | kv :: l' => Forall_cons_2 _ kv l' (conj (pyval_ind' kv.1) (pyval_ind' kv.2)) (gokv l')
      end in
    match v with
    | VNone => HNone | VBool b => HBool b | VInt z => HInt z | VFloat f => HFloat f
    | VStr s => HStr s | VList l => HList l (go l) | VTuple l => HTuple l (go l)
    | VDict kvs => HDict kvs (gokv kvs) | VProxy kvs => HProxy kvs (gokv kvs)
    | VOther r => HOther r
    end.
End pyval_ind.

(** ** Type tests *)

Definition is_none (v : pyval) : bool := match v with VNone => true | _ => false end.
Definition is_str (v : pyval) : bool := match v with VStr _ => true | _ => false end.
(** [type(v) is int]: booleans excluded. *)
Definition is_exact_int (v : pyval) : bool := match v with VInt _ => true | _ => false end.
Definition is_bool (v : pyval) : bool := match v with VBool _ => true | _ => false end.
Definition is_mapping (v : pyval) : bool := match v with VDict _ | VProxy _ => true | _ => false end.
Definition is_list (v : pyval) : bool := match v with VList _ => true | _ => false end.
Definition is_seq (v : pyval) : bool := match v with VList _ | VTuple _ => true | _ => false end.

Definition as_str (v : pyval) : option string := match v with VStr s => Some s | _ => None end.
Definition as_num (v : pyval) : option pynum :=
  match v with
  | VInt z => Some (NInt z)
  | VFloat f => Some (NFloat f)
  | VBool b => Some (NInt (Z.b2z b))
  | _ => None
  end.
Definition entries (v : pyval) : option (list (pyval * pyval)) :=
  match v with VDict kvs | VProxy kvs => Some kvs | _ => None end.
Definition elems (v : pyval) : option (list pyval) :=
  match v with VList l | VTuple l => Some l | _ => None end.

(** [hash(v)] does not raise. *)
Fixpoint hashable (v : pyval) : bool :=
  match v with
  | VList _ | VDict _ | VProxy _ => false
  | VTuple l => forallb hashable l
  | _ => true
  end.

(** [copy.deepcopy(v)] does not raise: a mapping view cannot be copied. *)
Fixpoint copyable (v : pyval) : bool :=
  match v with
  | VProxy _ => false
  | VDict kvs => forallb (λ kv, copyable kv.1 && copyable kv.2) kvs
  | VList l | VTuple l => forallb copyable l
  | _ => true
  end.

(** [bool(v)] *)
Definition truthy (v : pyval) : bool :=
  match v with
  | VNone => false
  | VBool b => b
  | VInt z => negb (z =? 0)%Z
  | VFloat f => match f with S754_zero _ => false | _ => true end
  | VStr s => nonempty s
  | VList l | VTuple l => match l with [] => false | _ => true end
  | VDict l | VProxy l => match l with [] => false | _ => true end
  | VOther _ => true
  end.

(** ** Dictionaries *)

Definition key_is (k : string) (v : pyval) : bool :=
  match v with VStr s => bool_decide (s = k) | _ => false end.

(** [d.get(k)] for a string key; [None] (the option) is an absent key. *)
Fixpoint dget (k : string) (kvs : list (pyval * pyval)) : option pyval :=
  match kvs with
  | [] => None
  | (k', v) :: rest => if key_is k k' then Some v else dget k rest
  end.
Definition dhas (k : string) (kvs : list (pyval * pyval)) : bool :=
  match dget k kvs with Some _ => true | None => false end.

(** [d.get(k, default)] *)
Definition dget_or (d : pyval) (k : string) (kvs : list (pyval * pyval)) : pyval := default d (dget k kvs).

(** [d[k] = v]: in place when the key is there, else at the end. *)
Fixpoint dset (k : string) (v : pyval) (kvs : list (pyval * pyval)) : list (pyval * pyval) :=
  match kvs with
  | [] => [(VStr k, v)]
  | (k', v') :: rest => if key_is k k' then (k', v) :: rest else (k', v') :: dset k v rest
  end.
(** [d.pop(k, None)] *)
Definition dpop (k : string) (kvs : list (pyval * pyval)) : list (pyval * pyval) :=
  filter (λ kv, key_is k kv.1 = false) kvs.
(** [d.setdefault(k, v)] *)
Definition dsetdefault (k : string) (v : pyval) (kvs : list (pyval * pyval)) : list (pyval * pyval) :=
  if dhas k kvs then kvs else dset k v kvs.

(** [any(not isinstance(k, str) or k not in allowed for k in d)] *)
Definition has_unknown (allowed : list string) (kvs : list (pyval * pyval)) : bool :=
  existsb (λ kv, match kv.1 with VStr s => negb (bool_decide (s ∈ allowed)) | _ => true end) kvs.

(** [m.get(k)] on any value: only mappings have [get]. *)
Definition vget (k : string) (v : pyval) : option pyval := entries v ≫= dget k.

(** ** Equality: [==] *)

Fixpoint py_eqb (a b : pyval) {struct a} : bool :=
  let eq_seq := fix eq_seq (l l' : list pyval) : bool :=
    match l, l' with
    | [], [] => true
    | x :: l, y :: l' => py_eqb x y && eq_seq l l'
    | _, _ => false
    end in
  let eq_map := fix eq_map (l l' : list (pyval * pyval)) : bool :=
    match l with
    | [] => true
    | kv :: l => existsb (λ kv', py_eqb kv.1 kv'.1 && py_eqb kv.2 kv'.2) l' && eq_map l l'
    end in
  match a, b with
  | VNone, VNone => true
  | VStr s, VStr t => bool_decide (s = t)
  | VList l, VList l' | VTuple l, VTuple l' => eq_seq l l'
  | (VDict l | VProxy l), (VDict l' | VProxy l') => (length l =? length l')%nat && eq_map l l'
  | VOther r, VOther r' => bool_decide (r = r')
  | _, _ => match as_num a, as_num b with Some x, Some y => num_eqb x y | _, _ => false end
  end.

(** ** [str(v)] *)

Definition repr_char (q c : ascii) : string :=
  let n := code c in
  if Ascii.eqb c q || (n =? 92)%nat then String "\"%char (String c "")
  else if (n =? 9)%nat then "\t" else if (n =? 10)%nat then "\n" else if (n =? 13)%nat then "\r"
  else if (n <? 32)%nat || between 127 160 c || (n =? 173)%nat then
    let hex d := String (ascii_of_nat (if (d <? 10)%nat then 48 + d else 87 + d)) "" in
    "\x" +:+ hex (n / 16)%nat +:+ hex (n mod 16)%nat
  else String c "".
Fixpoint repr_body (q : ascii) (s : string) : string :=
  match s with "" => "" | String c s' => repr_char q c +:+ repr_body q s' end.
Definition repr_str (s : string) : string :=
  let sq := ascii_of_nat 39 in let dq := ascii_of_nat 34 in
  let q := if contains s (String sq "") && negb (contains s (String dq "")) then dq else sq in
  String q "" +:+ repr_body q s +:+ String q "".

Fixpoint py_repr (v : pyval) : string :=
  match v with
  | VNone => "None"
  | VBool b => if b then "True" else "False"
  | VInt z => str_of_Z z
  | VFloat f => float_repr f
  | VStr s => repr_str s
  | VList l => "[" +:+ join ", " (map py_repr l) +:+ "]"
  | VTuple [x] => "(" +:+ py_repr x +:+ ",)"
  | VTuple l => "(" +:+ join ", " (map py_repr l) +:+ ")"
  | VDict l => "{" +:+ join ", " (map (λ kv, py_repr kv.1 +:+ ": " +:+ py_repr kv.2) l) +:+ "}"
  | VProxy l => "mappingproxy({" +:+ join ", " (map (λ kv, py_repr kv.1 +:+ ": " +:+ py_repr kv.2) l) +:+ "})"
  | VOther r => r
  end.
Definition py_str (v : pyval) : string := match v with VStr s => s | _ => py_repr v end.

(** ** JSON text *)

Inductive json_error : Type := JsonType | JsonNaN | JsonKey.
#[export] Instance json_error_eq_dec : EqDecision json_error.
Proof. solve_decision. Defined.

Definition json_char (c : ascii) : string :=
  let n := code c in
  if (n =? 34)%nat || (n =? 92)%nat then String "\"%char (String c "")
  else if (n =? 8)%nat then "\b" else if (n =? 12)%nat then "\f"
  else if (n =? 10)%nat then "\n" else if (n =? 13)%nat then "\r" else if (n =? 9)%nat then "\t"
  else if (n <? 32)%nat then
    let hex d := String (ascii_of_nat (if (d <? 10)%nat then 48 + d else 87 + d)) "" in
    "\u00" +:+ hex (n / 16)%nat +:+ hex (n mod 16)%nat
  else String c "".
Fixpoint json_body (s : string) : string :=
  match s with "" => "" | String c s' => json_char c +:+ json_body s' end.
Definition json_str (s : string) : string :=
  let dq := String (ascii_of_nat 34) "" in dq +:+ json_body s +:+ dq.

(** With [ensure_ascii]: the other characters as [\u00xx]. *)
Definition ascii_char (c : ascii) : string :=
  let n := code c in
  if (n <? 127)%nat then json_char c
  else let hex d := String (ascii_of_nat (if (d <? 10)%nat then 48 + d else 87 + d)) "" in "\u00" +:+ hex (n / 16)%nat +:+ hex (n mod 16)%nat.
Fixpoint ascii_body (s : string) : string := match s with "" => "" | String c s' => ascii_char c +:+ ascii_body s' end.
Definition ascii_str (s : string) : string := String dquote (ascii_body s +:+ String dquote "").

Definition key_leb (x y : string * string) : bool := String.leb x.1 y.1.

Fixpoint json_dumps (v : pyval) : res json_error string :=
  match v with
  | VNone => Ok "null"
  | VBool b => Ok (if b then "true" else "false")
  | VInt z => Ok (str_of_Z z)
  | VFloat f => if is_finite f then Ok (float_repr f) else Err JsonNaN
  | VStr s => Ok (json_str s)
  | VList l | VTuple l =>
      ws ← mapM json_dumps l;
      Ok ("[" +:+ join "," ws +:+ "]")
  | VDict kvs =>
      ws ← mapM (λ kv, w ← json_dumps kv.2;
                       match kv.1 with VStr k => Ok (k, w) | _ => Err JsonKey end) kvs;
      Ok ("{" +:+ join "," (map (λ kw, json_str kw.1 +:+ ":" +:+ kw.2) (sort_by key_leb ws)) +:+ "}")
  | VProxy _ | VOther _ => Err JsonType
  end.

(** The text of plain JSON data, where [json.dumps] never raises. *)
Definition dumps (v : pyval) : string := match json_dumps v with Ok s => s | Err _ => "" end.
Definition dumps_leb (a b : pyval) : bool := String.leb (dumps a) (dumps b).

(** ** JSON values read back

    What comes back from the text: dictionaries with their keys sorted, lists
    for tuples. *)

Definition key_str (kv : pyval * pyval) : string := match kv.1 with VStr s => s | _ => "" end.
Definition kv_leb (x y : pyval * pyval) : bool := String.leb (key_str x) (key_str y).

(** [json.loads(json.dumps(v, sort_keys=True))] *)
Fixpoint reload (v : pyval) : pyval :=
  match v with
  | VList l | VTuple l => VList (map reload l)
  | VDict kvs => VDict (sort_by kv_leb (map (λ kv, (kv.1, reload kv.2)) kvs))
  | _ => v
  end.
Definition reload_dict (d : list (pyval * pyval)) : list (pyval * pyval) := sort_by kv_leb (map (λ kv, (kv.1, reload kv.2)) d).

(** ** Facts *)

Lemma dget_dset_eq k v kvs : dget k (dset k v kvs) = Some v.
Proof.
  induction kvs as [|[k' v'] kvs IH]; cbn.
  - by rewrite bool_decide_true.
  - destruct (key_is k k') eqn:E; cbn; by rewrite E.
Qed.

Lemma key_is_ne k k' v : k ≠ k' → key_is k v = true → key_is k' v = false.
Proof. destruct v; cbn; try done. case_bool_decide; intros; [|done]. by rewrite bool_decide_false by congruence. Qed.

Lemma dget_dset_ne k k' v kvs : k ≠ k' → dget k' (dset k v kvs) = dget k' kvs.
Proof.
  intros Hne. induction kvs as [|[j w] kvs IH]; cbn.
  - by rewrite bool_decide_false.
  - destruct (key_is k j) eqn:E; cbn; [by rewrite (key_is_ne k k')|]. by rewrite IH.
Qed.

Lemma dhas_true k kvs : dhas k kvs = true ↔ is_Some (dget k kvs).
Proof. unfold dhas. destruct (dget k kvs); split; naive_solver. Qed.

Lemma has_unknown_false allowed kvs :
  has_unknown allowed kvs = false ↔ ∀ kv, kv ∈ kvs → ∃ s, kv.1 = VStr s ∧ s ∈ allowed.
Proof.
  unfold has_unknown. rewrite existsb_false_iff. split; intros H kv Hkv; specialize (H kv Hkv).
  - destruct kv as [[] ?]; cbn in *; try done. bool_inv. eauto.
  - destruct H as (s & -> & Hs). by rewrite bool_decide_true.
Qed.

(** Updates and lookups of dictionaries. *)

Lemma dget_dset k k' v d : dget k (dset k' v d) = if bool_decide (k' = k) then Some v else dget k d.
Proof. case_bool_decide; subst; [apply dget_dset_eq|by apply dget_dset_ne]. Qed.

Lemma elem_of_dset k v d kv : kv ∈ dset k v d → kv = (VStr k, v) ∨ kv ∈ d.
Proof.
  induction d as [|[k' v'] d IH]; cbn; [set_solver|].
  destruct (key_is k k') eqn:E; rewrite elem_of_cons; [|set_solver].
  destruct k'; try discriminate. apply bool_decide_eq_true in E as ->. set_solver.
Qed.

Lemma elem_of_dpop k d kv : kv ∈ dpop k d → kv ∈ d.
Proof. unfold dpop. rewrite list_elem_of_filter. tauto. Qed.

Lemma dpop_no_key k d v : (VStr k, v) ∉ dpop k d.
Proof. unfold dpop. rewrite list_elem_of_filter. cbn. rewrite bool_decide_true by done. by intros [? _]. Qed.

Lemma dget_elem_of k d v : dget k d = Some v → (VStr k, v) ∈ d.
Proof.
  induction d as [|[k' v'] d IH]; cbn; [done|]. destruct (key_is k k') eqn:E; [|set_solver].
  destruct k'; try discriminate. apply bool_decide_eq_true in E as ->. intros [= ->]. set_solver.
Qed.

Lemma dget_dpop k k' d : dget k (dpop k' d) = if bool_decide (k' = k) then None else dget k d.
Proof.
  unfold dpop. induction d as [|[j w] d IH]; [by case_bool_decide|]. rewrite filter_cons. cbn -[filter].
  destruct (key_is k' j) eqn:E; [rewrite decide_False by done|rewrite decide_True by done; cbn -[filter]]; rewrite IH.
  - destruct j; try discriminate. apply bool_decide_eq_true in E as ->. cbn. by repeat case_bool_decide.
  - destruct (key_is k j) eqn:Ek; [|done]. case_bool_decide; [|done]. subst. congruence.
Qed.

Lemma dpop_dset k v d : dpop k (dset k v d) = dpop k d.
Proof.
  unfold dpop. induction d as [|[j w] d IH]; cbn -[filter].
  - rewrite filter_cons. cbn -[filter]. by rewrite bool_decide_true.
  - destruct (key_is k j) eqn:E; rewrite !filter_cons; cbn -[filter]; rewrite E; [done|].
    by rewrite !decide_True, IH by done.
Qed.

Lemma dpop_nop k d : dget k d = None → dpop k d = d.
Proof.
  unfold dpop. induction d as [|[j w] d IH]; [done|]. rewrite filter_cons. cbn -[filter].
  destruct (key_is k j); [done|]. intros H. by rewrite decide_True, IH by done.
Qed.

(** Sorting the keys does not change lookups. *)
Lemma kv_leb_total x y : kv_leb x y = true ∨ kv_leb y x = true.
Proof. apply leb_str_total. Qed.
Lemma kv_leb_trans x y z : kv_leb x y = true → kv_leb y z = true → kv_leb x z = true.
Proof. apply leb_str_trans. Qed.

Lemma dget_insert_kv k x l : dget k (insert_by kv_leb x l) = if key_is k x.1 then Some x.2 else dget k l.
Proof.
  destruct x as [kx vx]. induction l as [|[ky vy] l IH]; cbn; [done|].
  destruct (kv_leb (kx, vx) (ky, vy)) eqn:E; cbn; [done|]. rewrite IH.
  destruct (key_is k ky) eqn:Ey, (key_is k kx) eqn:Ex; cbn; rewrite ?Ex; try done. exfalso.
  destruct kx, ky; try discriminate. apply bool_decide_eq_true in Ex as ->, Ey as ->.
  destruct (kv_leb_total (VStr k, vx) (VStr k, vy)) as [H|H]; unfold kv_leb in *; cbn in *; congruence.
Qed.
Lemma dget_sort_kv k d : dget k (sort_by kv_leb d) = dget k d.
Proof. induction d as [|[j w] d IH]; [done|]. change (sort_by kv_leb ((j, w) :: d)) with (insert_by kv_leb (j, w) (sort_by kv_leb d)). rewrite dget_insert_kv, IH. done. Qed.

Lemma dget_map_snd (f : pyval → pyval) k d : dget k (map (λ kv, (kv.1, f kv.2)) d) = f <$> dget k d.
Proof. induction d as [|[j w] d IH]; cbn; [done|]. by destruct (key_is k j). Qed.

Lemma dget_reload k d : dget k (reload_dict d) = reload <$> dget k d.
Proof. unfold reload_dict. by rewrite dget_sort_kv, dget_map_snd. Qed.

Lemma elem_of_reload kv d : kv ∈ reload_dict d ↔ ∃ v, (kv.1, v) ∈ d ∧ kv.2 = reload v.
Proof.
  unfold reload_dict. rewrite elem_of_sort_by, list_elem_of_fmap. split.
  - intros ([k v] & -> & Hin). by exists v.
  - destruct kv as [k w]. cbn. intros (v & Hin & ->). by exists (k, v).
Qed.

Lemma dhas_reload k d : dhas k (reload_dict d) = dhas k d.
Proof. unfold dhas. rewrite dget_reload. by destruct (dget k d). Qed.

Lemma has_unknown_perm ks (d d' : list (pyval * pyval)) : map fst d ≡ₚ map fst d' → has_unknown ks d = has_unknown ks d'.
Proof.
  assert (∀ x, has_unknown ks x = existsb (λ k, match k with VStr s => negb (bool_decide (s ∈ ks)) | _ => true end) (map fst x)) as Hk.
  { intros x. unfold has_unknown. induction x as [|[k v] x IH]; cbn; [done|]. by rewrite IH. }
  rewrite !Hk. intros Hp. apply eq_bool_prop_intro. rewrite !Is_true_true, !existsb_true_iff. by setoid_rewrite Hp.
Qed.

Lemma keys_reload d : map fst (reload_dict d) ≡ₚ map fst d.
Proof.
  unfold reload_dict. rewrite sort_by_perm. rewrite map_map. done.
Qed.
Lemma has_unknown_reload ks d : has_unknown ks (reload_dict d) = has_unknown ks d.
Proof. apply has_unknown_perm, keys_reload. Qed.

Lemma dpop_reload k d : dpop k (reload_dict d) = reload_dict (dpop k d).
Proof.
  unfold dpop, reload_dict. rewrite (filter_sort_by kv_leb kv_leb_total kv_leb_trans). f_equal.
  induction d as [|[j v] d IH]; [done|]. cbn [map fst snd]. rewrite !filter_cons. cbn [fst]. rewrite IH. by destruct (decide _).
Qed.
Lemma reload_VDict d : reload (VDict d) = VDict (reload_dict d).
Proof. done. Qed.

Lemma reload_idem v : reload (reload v) = reload v.
Proof.
  induction v as [| | | | |l IH|l IH|kvs IH|kvs IH|] using pyval_ind'; try done; cbn.
  - f_equal. rewrite map_map. apply map_ext_Forall. exact IH.
  - f_equal. rewrite map_map. apply map_ext_Forall. exact IH.
  - f_equal. rewrite (sort_by_map kv_leb kv_leb) by done. rewrite (sort_by_id kv_leb).
    2: apply sort_by_sorted; [apply kv_leb_total|apply kv_leb_trans].
    rewrite <- (sort_by_map kv_leb kv_leb) by done. f_equal. rewrite map_map. apply map_ext_Forall.
    eapply Forall_impl; [exact IH|]. intros [k v] [_ H]. cbn in *. by rewrite H.
Qed.

(** The text of a value and of what it reads back to are the same. *)
Lemma dumps_reload v w : json_dumps v = Ok w → json_dumps (reload v) = Ok w.
Proof.
  revert w. induction v as [| | | | |l IH|l IH|kvs IH|kvs IH|] using pyval_ind'; intros w; try done.
  1-2: cbn; rewrite bind_ok; intros (ws & Hws & Hw); apply bind_ok; exists ws; split; [|done];
    apply mapM_res_ok; apply mapM_res_ok in Hws; clear Hw;
    induction Hws as [|v w' l ws Hv Hws IHws]; cbn; [constructor|]; inversion IH; subst; constructor; auto.
  cbn [json_dumps]. rewrite bind_ok. intros (ws & Hws & Hw). cbn [reload json_dumps]. apply bind_ok.
  exists (sort_by key_leb ws). split.
  - apply mapM_res_ok. apply mapM_res_ok in Hws. clear Hw. rewrite (sort_by_map kv_leb kv_leb) by done.
    apply Forall2_fmap_l. eapply (Forall2_sort_by kv_leb key_leb (λ kv kw, kv.1 = VStr kw.1 ∧ json_dumps (reload kv.2) = Ok kw.2)).
    + intros [k1 v1] [k2 v2] [j1 w1] [j2 w2] [H1 _] [H2 _]. cbn in *. by subst.
    + intros [k v] [j w'] [Hk Hv]. cbn in *. by rewrite Hv, Hk.
    + revert ws Hws. clear w. induction IH as [|[k v] kvs [_ Hv] HF IHws]; intros ws Hws; inversion Hws as [|? [j w'] ? ws' H1 H2]; subst; constructor.
      * cbn in *. apply bind_ok in H1 as (w & Hw1 & Hw2). destruct k; try discriminate. injection Hw2 as <- <-. auto.
      * auto.
  - rewrite (sort_by_id key_leb (sort_by key_leb ws)); [done|]. apply sort_by_sorted; intros; [apply leb_str_total|by eapply leb_str_trans].
Qed.

Lemma dumps_of v s : json_dumps v = Ok s → dumps v = s.
Proof. unfold dumps. by intros ->. Qed.

Lemma perm_sorted_keys (ws ws' : list (string * string)) : NoDup (map fst ws) → ws ≡ₚ ws' → sort_by key_leb ws = sort_by key_leb ws'.
Proof.
  intros Hn Hp. apply (StronglySorted_unique_strong (λ a b, key_leb a b = true)).
  - intros [k v] [k' v'] H1 H2 Hle Hge. rewrite elem_of_sort_by in H1, H2. rewrite <- Hp in H2.
    assert (k = k') as <- by (by apply leb_str_antisym). exact (NoDup_map_inj fst ws _ _ Hn H1 H2 eq_refl).
  - apply sort_by_sorted; intros; [apply leb_str_total|by eapply leb_str_trans].
  - apply sort_by_sorted; intros; [apply leb_str_total|by eapply leb_str_trans].
  - by rewrite !sort_by_perm.
Qed.

Example json_ex : json_dumps (VList [VNone; VBool true; VInt (-2); VTuple []]) = Ok "[null,true,-2,[]]".
Proof. vm_compute. reflexivity. Qed.
