(* ===== verification/Regex.v ===== *)
(** * Regular expressions

    A backtracking matcher for the patterns of the package, with the priorities
    of Python's [re]: alternatives in order, greedy repetitions first.  A
    pattern is a term of [re]; a matcher state keeps the previous character
    (for word boundaries and look-behind), the text that is left and the
    captured groups.  Repetition stops when an iteration consumes nothing, so
    the length of the text is enough fuel. *)

From S2P Require Import Prelude PyStr.

Inductive re : Type :=
| REps
| RChar (p : ascii → bool)
| RSeq (a b : re)
| RAlt (a b : re)
| RStar (greedy : bool) (a : re)
| RGroup (n : nat) (a : re)
| RBack (n : nat)
| RStart
| REnd
| RWordBoundary
| RNotAfter (p : ascii → bool)
| RLookahead (positive : bool) (a : re).

Record mstate : Type := MkState {
  m_prev : option ascii;
  m_rest : string;
  m_caps : list (nat * string) }.

(** [\w] and [\s] on code points below 256. *)
Definition is_word (c : ascii) : bool :=
  is_alnum c || (code c =? 95)%nat || (code c =? 170)%nat || (code c =? 181)%nat || (code c =? 186)%nat ||
  between 178 179 c || (code c =? 185)%nat || between 188 190 c ||
  (between 192 255 c && negb (code c =? 215)%nat && negb (code c =? 247)%nat).

Definition word_at (o : option ascii) : bool := match o with Some c => is_word c | None => false end.
Definition head_char (s : string) : option ascii := match s with String c _ => Some c | "" => None end.

(** The text of group [n], if it took part in the match. *)
Definition group_text (n : nat) (caps : list (nat * string)) : option string := snd <$> head (filter (λ c, c.1 = n) caps).

(** The text consumed between two states of one match. *)
Definition consumed (s s' : string) : string := str_take (String.length s - String.length s') s.

(** The iterations of a repetition: [body] is one more of them. *)
Section star.
Context {A : Type} (body : mstate → (mstate → option A) → option A) (greedy : bool) (k : mstate → option A).

Fixpoint star_loop (n : nat) (s : mstate) : option A :=
  match n with
  | O => k s
  | S n' =>
      let more := λ _ : unit, body s (λ s',
        if (String.length s'.(m_rest) <? String.length s.(m_rest))%nat then star_loop n' s' else None) in
      if greedy then match more () with Some x => Some x | None => k s end
      else match k s with Some x => Some x | None => more () end
  end.
End star.

Fixpoint run_re {A : Type} (r : re) (s : mstate) (k : mstate → option A) : option A :=
  match r with
  | REps => k s
  | RChar p =>
      match s.(m_rest) with
      | String c rest => if p c then k (MkState (Some c) rest s.(m_caps)) else None
      | "" => None
      end
  | RSeq a b => run_re a s (λ s', run_re b s' k)
  | RAlt a b => match run_re a s k with Some x => Some x | None => run_re b s k end
  | RStar greedy a => star_loop (run_re a) greedy k (S (String.length s.(m_rest))) s
  | RGroup n a =>
      run_re a s (λ s', k (MkState s'.(m_prev) s'.(m_rest) ((n, consumed s.(m_rest) s'.(m_rest)) :: s'.(m_caps))))
  | RBack n =>
      match group_text n s.(m_caps) with
      | Some t =>
          if startswith s.(m_rest) t
          then k (MkState (match last (String.list_ascii_of_string t) with Some c => Some c | None => s.(m_prev) end)
                    (str_drop (String.length t) s.(m_rest)) s.(m_caps))
          else None
      | None => None
      end
  | RStart => match s.(m_prev) with None => k s | Some _ => None end
  | REnd => if bool_decide (s.(m_rest) = "" ∨ s.(m_rest) = String (ascii_of_nat 10) "") then k s else None
  | RWordBoundary =>
      if Bool.eqb (word_at s.(m_prev)) (word_at (head_char s.(m_rest))) then None else k s
  | RNotAfter p =>
      match s.(m_prev) with
      | Some c => if p c then None else k s
      | None => k s
      end
  | RLookahead positive a =>
      match run_re a s Some with
      | Some s' => if positive then k (MkState s.(m_prev) s.(m_rest) s'.(m_caps)) else None
      | None => if positive then None else k s
      end
  end.

(** ** Derived forms *)

Fixpoint rseq (l : list re) : re := match l with [] => REps | [r] => r | r :: l => RSeq r (rseq l) end.
Fixpoint ralt (l : list re) : re := match l with [] => RLookahead false REps | [r] => r | r :: l => RAlt r (ralt l) end.
Definition rstar (a : re) : re := RStar true a.
Definition rplus (a : re) : re := RSeq a (rstar a).
Definition ropt (a : re) : re := RAlt a REps.
Fixpoint rtimes (n : nat) (a : re) : re := match n with O => REps | S n' => RSeq a (rtimes n' a) end.
Fixpoint rupto (n : nat) (a : re) : re := match n with O => REps | S n' => RAlt (RSeq a (rupto n' a)) REps end.
Definition rbetween (lo hi : nat) (a : re) : re := RSeq (rtimes lo a) (rupto (hi - lo) a).

(** Character classes; [ci] is the effect of [IGNORECASE] on an ASCII class. *)
Definition upper_ascii (c : ascii) : ascii := if is_lower c then ascii_of_nat (code c - 32) else c.
Definition lower_ascii (c : ascii) : ascii := if is_upper c then ascii_of_nat (code c + 32) else c.
Definition ci (p : ascii → bool) (c : ascii) : bool := p c || p (lower_ascii c) || p (upper_ascii c).
Definition cset (s : string) : ascii → bool := one_of s.
Definition cneg (p : ascii → bool) (c : ascii) : bool := negb (p c).
Definition rchr (s : string) : re := RChar (one_of s).
Definition rnot (s : string) : re := RChar (cneg (one_of s)).
Definition rspace : re := RChar is_space.
Definition rnonspace : re := RChar (cneg is_space).

(** A literal, with and without case. *)
Definition rlit (s : string) : re := rseq (map (λ c, RChar (Ascii.eqb c)) (String.list_ascii_of_string s)).
Definition rlit_ci (s : string) : re := rseq (map (λ c, RChar (ci (Ascii.eqb c))) (String.list_ascii_of_string s)).

(** ** Entry points *)

Definition at_start (s : string) : mstate := MkState None s [].

(** [re.match] at a state: the final state. *)
Definition match_at (r : re) (s : mstate) : option mstate := run_re r s Some.

Definition fullmatch (r : re) (s : string) : bool :=
  match run_re r (at_start s) (λ s', if bool_decide (s'.(m_rest) = "") then Some () else None) with
  | Some _ => true | None => false
  end.

(** [pattern.match(s) is not None] *)
Definition match_prefix (r : re) (s : string) : bool :=
  match match_at r (at_start s) with Some _ => true | None => false end.

(** The leftmost match from a state on: the state before it and the one after. *)
Fixpoint search_from (r : re) (prev : option ascii) (rest : string) : option (mstate * mstate) :=
  let s := MkState prev rest [] in
  match match_at r s with
  | Some s' => Some (s, s')
  | None => match rest with
            | "" => None
            | String c rest' => search_from r (Some c) rest'
            end
  end.
Definition search (r : re) (s : string) : bool :=
  match search_from r None s with Some _ => true | None => false end.

(** The text of group [n], the empty string when it did not take part. *)
Definition group (n : nat) (s : mstate) : string := default "" (group_text n s.(m_caps)).
(** [m.group(n) is not None] *)
Definition took_part (n : nat) (s : mstate) : bool := match group_text n s.(m_caps) with Some _ => true | None => false end.

(** [re.sub] for a pattern that never matches the empty text: [repl] receives
    the state after a match. *)
Fixpoint sub_from (fuel : nat) (r : re) (repl : mstate → string) (prev : option ascii) (rest : string) : string :=
  match fuel with
  | O => rest
  | S fuel' =>
      match rest with
      | "" => ""
      | String c rest' =>
          match match_at r (MkState prev rest []) with
          | Some s' =>
              if (String.length s'.(m_rest) <? String.length rest)%nat
              then repl s' +:+ sub_from fuel' r repl s'.(m_prev) s'.(m_rest)
              else String c (sub_from fuel' r repl (Some c) rest')
          | None => String c (sub_from fuel' r repl (Some c) rest')
          end
      end
  end.
Definition sub (r : re) (repl : mstate → string) (s : string) : string :=
  sub_from (String.length s) r repl None s.

(** ** Facts *)

Lemma length_str_drop n s : (String.length (str_drop n s) ≤ String.length s)%nat.
Proof. revert n. induction s as [|c s IH]; intros [|n]; try (cbn; lia). specialize (IH n). cbn. lia. Qed.

(** A match only consumes a prefix: what is left is no longer than the text. *)
Definition consumes {A : Type} (m : mstate → (mstate → option A) → option A) : Prop :=
  ∀ s k x, m s k = Some x → ∃ s', (String.length s'.(m_rest) ≤ String.length s.(m_rest))%nat ∧ k s' = Some x.

Lemma star_loop_rest {A : Type} (body : mstate → (mstate → option A) → option A) g n :
  consumes body → consumes (λ s k, star_loop body g k n s).
Proof.
  intros Hbody. induction n as [|n IH]; intros s k x; [intros H; exists s; by split; [lia|]|].
  cbn [star_loop]. cbv zeta.
  assert (∀ y, body s (λ s', if (String.length (m_rest s') <? String.length (m_rest s))%nat
      then star_loop body g k n s' else None) = Some y →
    ∃ s', (String.length (m_rest s') ≤ String.length (m_rest s))%nat ∧ k s' = Some y) as Hmore.
  { intros y (s1 & H1 & H)%Hbody. revert H. destruct (_ <? _)%nat; [|done].
    intros (s2 & H2 & Hk)%IH. exists s2. split; [lia|done]. }
  destruct g.
  - destruct (body s _) as [y|] eqn:Hr; [intros [= <-]; exact (Hmore _ eq_refl)|]. intros Hk. exists s. by split; [lia|].
  - destruct (k s) as [z|] eqn:Hk; [intros [= <-]; exists s; by split; [lia|]|apply Hmore].
Qed.

Lemma run_re_rest (r : re) {A : Type} : consumes (@run_re A r).
Proof.
  revert A. induction r as [|p|a IHa b IHb|a IHa b IHb|g a IHa|n a IHa|n| | | |p|pos a IHa]; intros A s k x; cbn [run_re].
  - intros H. exists s. by split; [lia|].
  - destruct (m_rest s) as [|c rest] eqn:E; [done|]. destruct (p c); [|done]. intros H. eexists. split; [|exact H]. cbn. lia.
  - intros (s1 & H1 & (s2 & H2 & Hk)%IHb)%IHa. exists s2. split; [lia|done].
  - destruct (run_re a s k) as [y|] eqn:Ha; [|exact (IHb _ _ _ _)]. intros [= <-]. exact (IHa _ _ _ _ Ha).
  - apply (star_loop_rest (run_re a)). exact (IHa A).
  - intros (s1 & H1 & Hk)%IHa. eexists. split; [|exact Hk]. done.
  - destruct (group_text _ _) as [t|]; [|done]. destruct (startswith _ _); [|done]. intros Hk. eexists. split; [|exact Hk]. cbn. apply length_str_drop.
  - destruct (m_prev s); [done|]. intros H. exists s. by split; [lia|].
  - case_bool_decide; [|done]. intros H'. exists s. by split; [lia|].
  - destruct (Bool.eqb _ _); [done|]. intros H. exists s. by split; [lia|].
  - destruct (m_prev s) as [c|]; [destruct (p c); [done|]|]; intros H; exists s; by split; [lia|].
  - destruct (run_re a s Some) as [s1|], pos; try done; intros H; eexists; by split; [|exact H].
Qed.

Example re_ex1 : fullmatch (rseq [rchr "ab"; rstar (rchr "bc")]) "abcb" = true. Proof. reflexivity. Qed.
Example re_ex2 :
  sub (rseq [RGroup 1 (rseq [rlit_ci "key"; rchr "=:"]); rplus rnonspace]) (λ s, group 1 s +:+ "*") "a Key=1 KEY:22 z" =
  "a Key=* KEY:* z".
Proof. vm_compute. reflexivity. Qed.

(** A run of characters of one class: the match takes the whole run. *)
Lemma class_run p caps n prev rest : (String.length rest < n)%nat →
  ∃ prev', star_loop (@run_re mstate (RChar p)) true Some n (MkState prev rest caps) = Some (MkState prev' (lstrip_by p rest) caps).
Proof.
  set (body := @run_re mstate (RChar p)).
  assert (∀ s k, body s k = match s.(m_rest) with
    | String c rest => if p c then k (MkState (Some c) rest s.(m_caps)) else None | "" => None end) as Hb by done.
  clearbody body. revert n prev. induction rest as [|c rest IH]; intros [|n] prev Hn; try (cbn in Hn; lia);
    cbn [star_loop]; rewrite Hb; cbn [m_rest m_caps lstrip_by]; [by exists prev|].
  cbn in Hn. destruct (p c); [|by exists prev]. rewrite (proj2 (Nat.ltb_lt _ _)) by (cbn; lia).
  destruct (IH n (Some c) ltac:(lia)) as (prev' & ->). by exists prev'.
Qed.
Lemma match_class p prev rest :
  match rest with
  | String c rest' => if p c then ∃ prev', match_at (rplus (RChar p)) (MkState prev rest []) = Some (MkState prev' (lstrip_by p rest') [])
                      else match_at (rplus (RChar p)) (MkState prev rest []) = None
  | "" => match_at (rplus (RChar p)) (MkState prev rest []) = None
  end.
Proof.
  destruct rest as [|c rest]; [done|]. unfold match_at, rplus, rstar.
  change (run_re (RSeq (RChar p) (RStar true (RChar p))) (MkState prev (String c rest) []) Some) with
    (if p c then star_loop (@run_re mstate (RChar p)) true Some (S (String.length rest)) (MkState (Some c) rest []) else None).
  destruct (p c); [|done]. apply class_run. lia.
Qed.

(** [re.sub(r"[p]+", t, s)]: every run of [p] becomes one [t]. *)
Fixpoint collapse (p : ascii → bool) (t : string) (inside : bool) (s : string) : string :=
  match s with
  | "" => ""
  | String c s' => if p c then (if inside then "" else t) +:+ collapse p t true s' else String c (collapse p t false s')
  end.
Lemma length_lstrip_by p s : (String.length (lstrip_by p s) ≤ String.length s)%nat.
Proof. induction s as [|c s IH]; cbn; [done|]. destruct (p c); cbn; lia. Qed.
Lemma collapse_lstrip p t s : collapse p t true s = collapse p t false (lstrip_by p s).
Proof. induction s as [|c s IH]; [done|]. cbn. destruct (p c) eqn:Hc; cbn; [by rewrite IH|by rewrite Hc]. Qed.

Lemma sub_class_from p t fuel prev s : (String.length s ≤ fuel)%nat →
  sub_from fuel (rplus (RChar p)) (λ _, t) prev s = collapse p t false s.
Proof.
  revert prev s. induction fuel as [|fuel IH]; intros prev s Hf; [by destruct s; [|cbn in Hf; lia]|].
  destruct s as [|c s]; [done|]. cbn in Hf. pose proof (match_class p prev (String c s)) as Hm. cbn [sub_from collapse]. cbv iota in Hm.
  destruct (p c).
  - destruct Hm as (prev' & ->). cbn [m_rest m_prev]. rewrite (proj2 (Nat.ltb_lt _ _)) by (cbn; pose proof (length_lstrip_by p s); lia).
    f_equal. rewrite IH by (pose proof (length_lstrip_by p s); lia). by rewrite collapse_lstrip.
  - rewrite Hm. by rewrite IH by lia.
Qed.
Lemma sub_class p t s : sub (rplus (RChar p)) (λ _, t) s = collapse p t false s.
Proof. by apply sub_class_from. Qed.

(** What is left consists of the other characters and those of [t]. *)
Lemma collapse_forallb p t (q : ascii → bool) b s : str_forallb q t = true → (∀ c, p c = false → q c = true) →
  str_forallb q (collapse p t b s) = true.
Proof.
  intros Ht Hq. revert b. induction s as [|c s IH]; intros b; [done|]. cbn. destruct (p c) eqn:Hc.
  - rewrite str_forallb_app, IH, andb_true_r. by destruct b.
  - cbn. by rewrite (Hq c Hc), IH.
Qed.

(** ** A character that no class accepts

    Putting such a character behind a text changes no match in it. *)

Fixpoint rejects (c : ascii) (r : re) : Prop :=
  match r with
  | REps => True
  | RChar p => p c = false
  | RSeq a b | RAlt a b => rejects c a ∧ rejects c b
  | RStar _ a | RGroup _ a => rejects c a
  | _ => False
  end.
Definition snoc (c : ascii) (s : mstate) : mstate := MkState s.(m_prev) (s.(m_rest) +:+ String c "") s.(m_caps).

(** A matcher that treats a text and its extension alike. *)
Definition blind (c : ascii) (m : ∀ A : Type, mstate → (mstate → option A) → option A) : Prop :=
  ∀ (A B : Type) (f : A → B) s k k',
    (∀ st, (String.length st.(m_rest) ≤ String.length s.(m_rest))%nat → k' (snoc c st) = f <$> k st) → m B (snoc c s) k' = f <$> m A s k.

Lemma snoc_length c s : String.length (m_rest (snoc c s)) = S (String.length (m_rest s)).
Proof. cbn. rewrite length_str_app. cbn. lia. Qed.

Lemma star_blind c (m : ∀ A : Type, mstate → (mstate → option A) → option A) g : blind c m →
  ∀ (A B : Type) (f : A → B) k k' l, (∀ st, (String.length st.(m_rest) ≤ l)%nat → k' (snoc c st) = f <$> k st) →
  ∀ s n1 n2, (String.length s.(m_rest) ≤ l)%nat → (l < n1)%nat → (l < n2)%nat →
  star_loop (m B) g k' n1 (snoc c s) = f <$> star_loop (m A) g k n2 s.
Proof.
  intros Hm A B f k k' l. induction l as [|l IH]; intros Hk s [|n1] [|n2] Hl H1 H2; try lia; cbn [star_loop]; cbv zeta.
  all: assert (m B (snoc c s) (λ s', if (String.length (m_rest s') <? String.length (m_rest (snoc c s)))%nat then star_loop (m B) g k' n1 s' else None) =
    f <$> m A s (λ s', if (String.length (m_rest s') <? String.length (m_rest s))%nat then star_loop (m A) g k n2 s' else None)) as Hmore;
    [apply Hm; intros st Hst; rewrite !snoc_length; destruct (String.length (m_rest st) <? String.length (m_rest s))%nat eqn:Hlt;
       [apply Nat.ltb_lt in Hlt; rewrite (proj2 (Nat.ltb_lt _ _)) by lia|apply Nat.ltb_ge in Hlt; by rewrite (proj2 (Nat.ltb_ge _ _)) by lia]|].
  1: lia. 2: apply IH; [intros st' Hst'; apply Hk|..]; lia.
  all: pose proof (Hk s Hl) as Hks; destruct g; [rewrite Hmore; destruct (m A s _) as [x|]; [done|exact Hks]
    |rewrite Hks; destruct (k s) as [x|]; [done|exact Hmore]].
Qed.

Lemma consumed_snoc c s s' : (String.length s' ≤ String.length s)%nat → consumed (s +:+ String c "") (s' +:+ String c "") = consumed s s'.
Proof.
  intros Hl. unfold consumed. rewrite !length_str_app. cbn [String.length].
  replace (String.length s + 1 - (String.length s' + 1))%nat with (String.length s - String.length s')%nat by lia.
  assert (∀ n a b, (n ≤ String.length a)%nat → str_take n (a +:+ b) = str_take n a) as Ht; [|apply Ht; lia].
  induction n as [|n IH]; intros [|x a] b Hn; try done; cbn in Hn; [lia|]. rewrite cons_app_str. cbn [str_take]. f_equal. apply IH. lia.
Qed.

Lemma run_blind c r : rejects c r → blind c (λ A, @run_re A r).
Proof.
  induction r as [|p|a IHa b IHb|a IHa b IHb|g a IHa|n a IHa|n| | | |p|pos a IHa]; cbn [rejects]; intros Hr; try done; intros A B f s k k' Hk; cbn [run_re].
  - by apply Hk.
  - destruct s as [prev rest caps]. cbn [snoc m_rest m_prev m_caps]. destruct rest as [|x rest]; [change ("" +:+ String c "") with (String c ""); cbv iota; by rewrite Hr|].
    rewrite cons_app_str. destruct (p x); [|done]. apply (Hk (MkState (Some x) rest caps)). cbn. lia.
  - destruct Hr as [Ha Hb]. apply (IHa Ha A B f s). intros st Hst. apply (IHb Hb A B f st). intros st' Hst'. apply Hk. lia.
  - destruct Hr as [Ha Hb]. rewrite (IHa Ha A B f s k k' Hk), (IHb Hb A B f s k k' Hk). by destruct (run_re a s k).
  - apply (star_blind c (λ A, @run_re A a) g (IHa Hr) A B f k k' (String.length (m_rest s)) Hk); rewrite ?snoc_length; lia.
  - apply (IHa Hr A B f s). intros st Hst. cbn [snoc m_rest m_prev m_caps]. rewrite consumed_snoc by done.
    apply (Hk (MkState (m_prev st) (m_rest st) ((n, consumed (m_rest s) (m_rest st)) :: m_caps st))). done.
Qed.

Lemma match_blind c r s : rejects c r → match_at r (snoc c s) = snoc c <$> match_at r s.
Proof. intros Hr. apply (run_blind c r Hr mstate mstate (snoc c) s Some Some). done. Qed.
Lemma match_prefix_blind c r s : rejects c r → match_prefix r (s +:+ String c "") = match_prefix r s.
Proof.
  intros Hr. unfold match_prefix. change (at_start (s +:+ String c "")) with (snoc c (at_start s)). rewrite match_blind by done.
  by destruct (match_at r (at_start s)).
Qed.
Lemma length_snoc s c : String.length (s +:+ String c "") = S (String.length s).
Proof. rewrite length_str_app. cbn. lia. Qed.
Lemma sub_from_blind c r repl : rejects c r → (∀ m, repl (snoc c m) = repl m) →
  ∀ l s prev n1 n2, (String.length s ≤ l)%nat → (l < n1)%nat → (l ≤ n2)%nat →
  sub_from n1 r repl prev (s +:+ String c "") = sub_from n2 r repl prev s +:+ String c "".
Proof.
  intros Hr Hrepl.
  assert (∀ prev n1 n2, (0 < n1)%nat → sub_from n1 r repl prev ("" +:+ String c "") = sub_from n2 r repl prev "" +:+ String c "") as H0.
  { intros prev [|n1] n2 Hn; [lia|]. assert (sub_from n2 r repl prev "" = "") as -> by (by destruct n2). change ("" +:+ String c "") with (String c "").
    cbn [sub_from]. change (MkState prev (String c "") []) with (snoc c (MkState prev "" [])). rewrite match_blind by done.
    assert (sub_from n1 r repl (Some c) "" = "") as -> by (by destruct n1).
    destruct (match_at r (MkState prev "" [])) as [s'|]; cbn [fmap option_fmap option_map]; [|done]. by rewrite snoc_length, (proj2 (Nat.ltb_ge _ _)) by (cbn; lia). }
  induction l as [|l IH]; intros s prev n1 n2 Hs H1 H2; (destruct s as [|x s]; [apply H0; lia|]); cbn in Hs; [lia|].
  destruct n1 as [|n1]; [lia|]. destruct n2 as [|n2]; [lia|]. rewrite cons_app_str. cbn [sub_from].
  change (MkState prev (String x (s +:+ String c "")) []) with (snoc c (MkState prev (String x s) [])).
  rewrite match_blind by done. destruct (match_at r (MkState prev (String x s) [])) as [s'|] eqn:E; cbn [fmap option_fmap option_map].
  - rewrite snoc_length. cbn [String.length]. rewrite length_snoc.
    destruct (Nat.ltb_spec (String.length (m_rest s')) (S (String.length s))).
    + rewrite (proj2 (Nat.ltb_lt _ _)) by lia. cbn [snoc m_rest m_prev]. rewrite Hrepl, (IH (m_rest s') (m_prev s') n1 n2) by lia.
      by rewrite app_assoc_str.
    + rewrite (proj2 (Nat.ltb_ge _ _)) by lia. rewrite (IH s (Some x) n1 n2) by lia. done.
  - rewrite (IH s (Some x) n1 n2) by lia. done.
Qed.
Lemma sub_blind c r repl s : rejects c r → (∀ m, repl (snoc c m) = repl m) → sub r repl (s +:+ String c "") = sub r repl s +:+ String c "".
Proof.
  intros Hr Hrepl. unfold sub. rewrite length_snoc. apply (sub_from_blind c r repl Hr Hrepl (String.length s)); lia.
Qed.

(** [re.match(r"^[p]+$", s)]: a run of the class, perhaps before a newline. *)
Definition at_end (s : string) : Prop := s = "" ∨ s = String (ascii_of_nat 10) "".
Lemma class_end p n caps prev rest : (String.length rest < n)%nat →
  match star_loop (@run_re mstate (RChar p)) true (λ s, run_re REnd s Some) n (MkState prev rest caps) with Some _ => true | None => false end = true ↔
  ∃ a b, rest = a +:+ b ∧ str_forallb p a = true ∧ at_end b.
Proof.
  revert n prev. induction rest as [|c rest IH]; intros [|n] prev Hn; try (cbn in Hn; lia); cbn [star_loop run_re m_rest m_caps]; cbv zeta.
  - rewrite bool_decide_true by (by left). split; [|done]. intros _. exists "", "". split; [done|]. split; [done|by left].
  - cbn in Hn. rewrite (proj2 (Nat.ltb_lt _ _)) by (cbn; lia). specialize (IH n (Some c) ltac:(lia)). destruct (p c) eqn:Hp.
    + cbn [m_rest] in IH. destruct (star_loop _ _ _ _ _) as [st|].
      * split; [|done]. intros _. destruct (proj1 IH eq_refl) as (a & b & -> & Ha & Hb). exists (String c a), b. cbn. by rewrite Hp.
      * case_bool_decide as He; [split; [|done]; intros _; exists "", (String c rest); by split|]. split; [done|].
        intros (a & b & E & Ha & Hb). exfalso. destruct a as [|c' a]; [rewrite nil_app_str in E; subst b; done|]. injection E as <- ->. cbn in Ha. rewrite Hp in Ha.
        assert (false = true); [|done]. apply IH. by exists a, b.
    + case_bool_decide as He; [split; [|done]; intros _; exists "", (String c rest); by split|]. split; [done|].
      intros (a & b & E & Ha & Hb). exfalso. destruct a as [|c' a]; [rewrite nil_app_str in E; subst b; done|]. injection E as <- ->. cbn in Ha. by rewrite Hp in Ha.
Qed.
Lemma match_class_end p s : match_prefix (rseq [RStart; rplus (RChar p); REnd]) s = true ↔
  ∃ w e, s = w +:+ e ∧ nonempty w = true ∧ str_forallb p w = true ∧ at_end e.
Proof.
  unfold match_prefix, match_at. destruct s as [|c s].
  - split; [done|]. intros ([|] & e & E & Hw & _); [done|discriminate].
  - assert (run_re (rseq [RStart; rplus (RChar p); REnd]) (at_start (String c s)) Some =
      if p c then star_loop (@run_re mstate (RChar p)) true (λ s, run_re REnd s Some) (S (String.length s)) (MkState (Some c) s []) else None) as -> by reflexivity.
    destruct (p c) eqn:Hp.
    + rewrite class_end by lia. split.
      * intros (a & b & -> & Ha & Hb). exists (String c a), b. cbn. by rewrite Hp.
      * intros ([|c' a] & b & E & Hw & Ha & Hb); [done|]. injection E as <- ->. cbn in Ha. rewrite Hp in Ha. by exists a, b.
    + split; [done|]. intros ([|c' a] & b & E & Hw & Ha & Hb); [done|]. injection E as <- ->. cbn in Ha. by rewrite Hp in Ha.
Qed.

(** ** What a pattern accepts

    The texts a pattern without assertions and back references accepts.  The
    matcher is complete for them: a text that holds such a text somewhere is
    found by [search]. *)

Inductive accepts : re → string → Prop :=
| accepts_eps : accepts REps ""
| accepts_char p c : p c = true → accepts (RChar p) (String c "")
| accepts_seq a b u v : accepts a u → accepts b v → accepts (RSeq a b) (u +:+ v)
| accepts_left a b u : accepts a u → accepts (RAlt a b) u
| accepts_right a b u : accepts b u → accepts (RAlt a b) u
| accepts_done g a : accepts (RStar g a) ""
| accepts_more g a u v : accepts a u → u ≠ "" → accepts (RStar g a) v → accepts (RStar g a) (u +:+ v)
| accepts_group n a u : accepts a u → accepts (RGroup n a) u.

(** The matcher goes on behind [u] whatever comes next. *)
Definition goes_on (r : re) (u : string) : Prop := ∀ A prev rest caps (k : mstate → option A),
  (∀ prev' caps', is_Some (k (MkState prev' rest caps'))) → is_Some (run_re r (MkState prev (u +:+ rest) caps) k).

Lemma star_complete g a v : (∀ u, accepts a u → goes_on a u) → accepts (RStar g a) v →
  ∀ A prev rest caps (k : mstate → option A) n, (String.length (v +:+ rest) < n)%nat → (∀ prev' caps', is_Some (k (MkState prev' rest caps'))) →
  is_Some (star_loop (run_re a) g k n (MkState prev (v +:+ rest) caps)).
Proof.
  intros Ha Hv. remember (RStar g a) as r eqn:E. induction Hv as [| | | | |g' a'|g' a' u v Hu _ Hne Hv IH|]; try discriminate; injection E as -> ->;
    intros A prev rest caps k [|n] Hn Hk; try lia; cbn [star_loop]; cbv zeta.
  - destruct g.
    + destruct (run_re a _ _); [by eexists|]. apply Hk.
    + destruct (Hk prev caps) as [x Hx]. rewrite nil_app_str. rewrite Hx. by eexists.
  - assert (is_Some (run_re a (MkState prev ((u +:+ v) +:+ rest) caps) (λ s',
      if (String.length (m_rest s') <? String.length (m_rest (MkState prev ((u +:+ v) +:+ rest) caps)))%nat then star_loop (run_re a) g k n s' else None))) as [x Hx].
    { rewrite app_assoc_str. apply (Ha u Hu). intros prev' caps'. cbn [m_rest]. rewrite app_assoc_str in Hn. rewrite !length_str_app in *.
      destruct u as [|c u]; [done|]. cbn [String.length] in *. rewrite (proj2 (Nat.ltb_lt _ _)) by lia. apply IH; [done|rewrite length_str_app; lia|exact Hk]. }
    rewrite Hx. destruct g; [by eexists|]. destruct (k _); by eexists.
Qed.
Lemma run_complete r u : accepts r u → goes_on r u.
Proof.
  revert u. induction r as [|p|a IHa b IHb|a IHa b IHb|g a IHa|n a IHa|n| | | |p|pos a IHa]; intros u H; inversion H; subst; intros A prev rest caps k Hk.
  - apply Hk.
  - rewrite cons_app_str. cbn [run_re m_rest m_caps]. destruct (p c); [apply Hk|done].
  - rewrite app_assoc_str. cbn [run_re]. apply (IHa u0); [done|]. intros prev' caps'. by apply (IHb v).
  - cbn [run_re]. destruct (IHa u ltac:(done) A prev rest caps k Hk) as [x ->]. by eexists.
  - cbn [run_re]. destruct (run_re a _ _); [by eexists|]. by apply IHb.
  - cbn [run_re]. apply (star_complete g a "" IHa H A prev rest caps k); [cbn [m_rest]; lia|done].
  - cbn [run_re]. apply (star_complete g a (u0 +:+ v) IHa H A prev rest caps k); [cbn [m_rest]; lia|done].
  - cbn [run_re]. apply (IHa u); [done|]. intros prev' caps'. apply Hk.
Qed.
Lemma search_holds r a u b : accepts r u → search r (a +:+ u +:+ b) = true.
Proof.
  intros Hu. unfold search. assert (∀ prev, is_Some (search_from r prev (a +:+ u +:+ b))) as H; [|by destruct (H None) as [x ->]].
  induction a as [|c a IH]; intros prev; [rewrite nil_app_str|rewrite cons_app_str].
  - destruct (run_complete r u Hu mstate prev b [] Some) as [x Hx]; [by eexists|]. destruct (u +:+ b); cbn [search_from]; unfold match_at; rewrite Hx; by eexists.
  - cbn [search_from]. destruct (match_at r _); [by eexists|]. apply IH.
Qed.

(** The same behind an assertion that holds where the text begins. *)
Definition last_char (a : string) : option ascii := last (String.list_ascii_of_string a).
Lemma search_guarded g r a u b : accepts r u →
  (∀ (k : mstate → option mstate), run_re g (MkState (last_char a) (u +:+ b) []) k = k (MkState (last_char a) (u +:+ b) [])) →
  search (RSeq g r) (a +:+ u +:+ b) = true.
Proof.
  intros Hu Hg. unfold search.
  assert (∀ prev, (∀ (k : mstate → option mstate), let p := match last_char a with Some c => Some c | None => prev end in
      run_re g (MkState p (u +:+ b) []) k = k (MkState p (u +:+ b) [])) → is_Some (search_from (RSeq g r) prev (a +:+ u +:+ b))) as H;
    [|destruct (H None) as [x ->]; [|done]; intros k; by destruct (last_char a)]. clear Hg.
  induction a as [|c a IH]; intros prev Hg; [rewrite nil_app_str|rewrite cons_app_str].
  - cbv zeta in Hg. cbn in Hg. destruct (run_complete r u Hu mstate prev b [] Some) as [x Hx]; [by eexists|].
    assert (match_at (RSeq g r) (MkState prev (u +:+ b) []) = Some x) as Hm by (unfold match_at; cbn [run_re]; by rewrite Hg).
    destruct (u +:+ b); cbn [search_from]; rewrite Hm; by eexists.
  - cbn [search_from]. destruct (match_at _ _); [by eexists|]. apply IH. intros k. cbv zeta. specialize (Hg k). cbv zeta in Hg.
    assert (match last_char (String c a) with Some c => Some c | None => prev end = match last_char a with Some d => Some d | None => Some c end) as E; [|by rewrite <- E].
    unfold last_char. cbn [String.list_ascii_of_string]. rewrite last_cons. by destruct (last _).
Qed.

(** A word spelled in any case, a run of a class, [n] characters of a class. *)
Lemma accepts_literal s t : str_map lower_ascii t = s → accepts (rlit_ci s) t.
Proof.
  intros <-. unfold rlit_ci. induction t as [|c t IH]; [constructor|].
  assert (accepts (RChar (ci (Ascii.eqb (lower_ascii c)))) (String c "")) as Hc.
  { constructor. unfold ci. rewrite (Ascii.eqb_refl (lower_ascii c)), orb_true_r. done. }
  cbn [str_map String.list_ascii_of_string map]. destruct t as [|d t]; [exact Hc|]. exact (accepts_seq _ _ _ _ Hc IH).
Qed.
Lemma accepts_run p w : str_forallb p w = true → accepts (rstar (RChar p)) w.
Proof.
  unfold rstar. induction w as [|c w IH]; [constructor|]. cbn [str_forallb]. intros [Hc Hw]%andb_true_iff.
  apply (accepts_more true (RChar p) (String c "") w); [by constructor|done|by apply IH].
Qed.
Lemma accepts_plus p w : nonempty w = true → str_forallb p w = true → accepts (rplus (RChar p)) w.
Proof.
  destruct w as [|c w]; [done|]. cbn [str_forallb]. intros _ [Hc Hw]%andb_true_iff.
  apply (accepts_seq _ _ (String c "") w); [by constructor|by apply accepts_run].
Qed.
Lemma accepts_times n p w : String.length w = n → str_forallb p w = true → accepts (rtimes n (RChar p)) w.
Proof.
  intros <-. induction w as [|c w IH]; [constructor|]. cbn [str_forallb]. intros [Hc Hw]%andb_true_iff.
  apply (accepts_seq _ _ (String c "") w); [by constructor|by apply IH].
Qed.

(** ** Replacements that keep part of the text *)

Fixpoint uncaptured (r : re) : bool :=
  match r with
  | RSeq a b | RAlt a b => uncaptured a && uncaptured b
  | RStar _ a | RLookahead _ a => uncaptured a
  | RGroup _ _ => false
  | _ => true
  end.

(** A match consumes a prefix, and captures what its groups say. *)
Definition strips {A : Type} (r : re) (m : mstate → (mstate → option A) → option A) : Prop :=
  ∀ s k x, m s k = Some x → ∃ w s', m_rest s = w +:+ m_rest s' ∧ (uncaptured r = true → m_caps s' = m_caps s) ∧ k s' = Some x.

Lemma star_strips {A : Type} a g n : strips a (@run_re A a) → strips (RStar g a) (λ s k, star_loop (@run_re A a) g k n s).
Proof.
  intros Ha. induction n as [|n IH]; intros s k x; [intros H; by exists "", s|]. cbn [star_loop]. cbv zeta.
  assert (∀ y, run_re a s (λ s', if (String.length (m_rest s') <? String.length (m_rest s))%nat then star_loop (run_re a) g k n s' else None) = Some y →
    ∃ w s', m_rest s = w +:+ m_rest s' ∧ (uncaptured a = true → m_caps s' = m_caps s) ∧ k s' = Some y) as Hmore.
  { intros y (w1 & s1 & E1 & C1 & H)%Ha. revert H. destruct (_ <? _)%nat; [|done]. intros (w2 & s2 & E2 & C2 & Hk)%IH. exists (w1 +:+ w2), s2.
    split; [by rewrite E1, E2, app_assoc_str|]. split; [|done]. intros Hu. by rewrite C2, C1. }
  destruct g.
  - destruct (run_re a s _) as [y|] eqn:Hr; [intros [= <-]; exact (Hmore _ eq_refl)|]. intros Hk. by exists "", s.
  - destruct (k s) as [z|] eqn:Hk; [intros [= <-]; by exists "", s|apply Hmore].
Qed.
Lemma drop_prefix s t : startswith s t = true → s = t +:+ str_drop (String.length t) s.
Proof. intros (u & ->)%startswith_spec. rewrite <- (Nat.add_0_r (String.length t)), drop_app_str. by rewrite str_drop_0. Qed.
Lemma run_strips r {A : Type} : strips r (@run_re A r).
Proof.
  revert A. induction r as [|p|a IHa b IHb|a IHa b IHb|g a IHa|n a IHa|n| | | |p|pos a IHa]; intros A s k x; cbn [run_re uncaptured].
  - intros H. by exists "", s.
  - destruct (m_rest s) as [|c rest]; [done|]. destruct (p c); [|done]. intros H. by exists (String c ""), (MkState (Some c) rest (m_caps s)).
  - intros (w1 & s1 & E1 & C1 & (w2 & s2 & E2 & C2 & Hk)%IHb)%IHa. exists (w1 +:+ w2), s2. split; [by rewrite E1, E2, app_assoc_str|]. split; [|done].
    intros [H1 H2]%andb_true_iff. by rewrite C2, C1.
  - destruct (run_re a s k) as [y|] eqn:Ha.
    + intros [= <-]. apply IHa in Ha as (w & s' & E & C & Hk). exists w, s'. split; [done|]. split; [|done]. by intros [H1 _]%andb_true_iff; apply C.
    + intros (w & s' & E & C & Hk)%IHb. exists w, s'. split; [done|]. split; [|done]. by intros [_ H2]%andb_true_iff; apply C.
  - apply (star_strips a g). exact (IHa A).
  - intros (w & s' & E & _ & Hk)%IHa. eexists w, _. split; [|split; [|exact Hk]]; [exact E|done].
  - destruct (group_text _ _) as [t|]; [|done]. destruct (startswith _ _) eqn:E; [|done]. intros Hk. eexists t, _. split; [|split; [|exact Hk]]; [|done].
    by apply drop_prefix.
  - destruct (m_prev s); [done|]. intros H. by exists "", s.
  - case_bool_decide; [|done]. intros H'. by exists "", s.
  - destruct (Bool.eqb _ _); [done|]. intros H. by exists "", s.
  - destruct (m_prev s) as [c|]; [destruct (p c); [done|]|]; intros H; by exists "", s.
  - destruct (run_re a s Some) as [s1|] eqn:Ha, pos; try done; intros H; eexists "", _; (split; [|split; [|exact H]]); try done.
    cbn [m_caps]. intros Hu. apply IHa in Ha as (w & s' & _ & C & [= ->]). by apply C.
Qed.

Lemma consumed_app w t : consumed (w +:+ t) t = w.
Proof. unfold consumed. rewrite length_str_app. replace (String.length w + String.length t - String.length t)%nat with (String.length w) by lia. apply take_app_str. Qed.
(** Two groups, one behind the other. *)
Lemma two_groups a b s s' : uncaptured a = true → uncaptured b = true → match_at (RSeq (RGroup 1 a) (RGroup 2 b)) s = Some s' →
  m_rest s = group 1 s' +:+ group 2 s' +:+ m_rest s'.
Proof.
  intros Ha Hb. unfold match_at. cbn [run_re]. intros (u & s1 & E1 & C1 & H)%run_strips. apply run_strips in H as (v & s2 & E2 & C2 & [= <-]).
  specialize (C1 Ha). specialize (C2 Hb). cbn [m_rest m_caps] in *. unfold group. cbn [m_caps m_rest].
  rewrite C2, E1, E2, !consumed_app. reflexivity.
Qed.

Fixpoint str_filter (p : ascii → bool) (s : string) : string :=
  match s with "" => "" | String c s' => if p c then String c (str_filter p s') else str_filter p s' end.
Lemma str_filter_app p a b : str_filter p (a +:+ b) = str_filter p a +:+ str_filter p b.
Proof. induction a as [|c a IH]; [done|]. rewrite cons_app_str. cbn [str_filter]. destruct (p c); [by rewrite IH|exact IH]. Qed.

(** A replacement that keeps what [f] sees of each match keeps what it sees of
    the text. *)
Lemma sub_keeps (f : string → string) r repl s : f "" = "" → (∀ a b, f (a +:+ b) = f a +:+ f b) →
  (∀ st st', m_caps st = [] → match_at r st = Some st' → ∃ w, m_rest st = w +:+ m_rest st' ∧ f (repl st') = f w) → f (sub r repl s) = f s.
Proof.
  intros H0 Happ Hr. unfold sub. generalize (String.length s) as n, (@None ascii) as prev. intros n. revert s.
  assert (∀ c t, f (String c t) = f (String c "") +:+ f t) as Hc by (intros c t; by rewrite <- Happ).
  induction n as [|n IH]; intros s prev; [done|]. cbn [sub_from]. destruct s as [|c s]; [done|].
  destruct (match_at r _) as [st'|] eqn:E; [|by rewrite Hc, IH, <- Hc].
  destruct (_ <? _)%nat; [|by rewrite Hc, IH, <- Hc]. destruct (Hr (MkState prev (String c s) []) st' eq_refl E) as (w & Hw & Hf). cbn [m_rest] in Hw. by rewrite Happ, IH, Hf, <- Happ, <- Hw.
Qed.
