(* ===== verification/Sha256.v ===== *)
(** * SHA-256 of text

    [hashlib.sha256(text.encode("utf-8")).hexdigest()]: the digest of FIPS 180-4
    on 32-bit words written as integers with explicit wrap-around. *)

From S2P Require Import Prelude PyStr.

Local Open Scope Z_scope.

Definition w32 (x : Z) : Z := Z.land x 4294967295.
Definition rotr (n x : Z) : Z := Z.lor (Z.shiftr x n) (w32 (Z.shiftl x (32 - n))).
Definition xor3 (a b c : Z) : Z := Z.lxor (Z.lxor a b) c.

Definition big_sigma0 (x : Z) : Z := xor3 (rotr 2 x) (rotr 13 x) (rotr 22 x).
Definition big_sigma1 (x : Z) : Z := xor3 (rotr 6 x) (rotr 11 x) (rotr 25 x).
Definition small_sigma0 (x : Z) : Z := xor3 (rotr 7 x) (rotr 18 x) (Z.shiftr x 3).
Definition small_sigma1 (x : Z) : Z := xor3 (rotr 17 x) (rotr 19 x) (Z.shiftr x 10).
Definition choose (e f g : Z) : Z := Z.lxor (Z.land e f) (Z.land (4294967295 - e) g).
Definition majority (a b c : Z) : Z := xor3 (Z.land a b) (Z.land a c) (Z.land b c).

Definition round_constants : list Z :=
  [1116352408; 1899447441; 3049323471; 3921009573; 961987163; 1508970993; 2453635748; 2870763221;
   3624381080; 310598401; 607225278; 1426881987; 1925078388; 2162078206; 2614888103; 3248222580;
   3835390401; 4022224774; 264347078; 604807628; 770255983; 1249150122; 1555081692; 1996064986;
   2554220882; 2821834349; 2952996808; 3210313671; 3336571891; 3584528711; 113926993; 338241895;
   666307205; 773529912; 1294757372; 1396182291; 1695183700; 1986661051; 2177026350; 2456956037;
   2730485921; 2820302411; 3259730800; 3345764771; 3516065817; 3600352804; 4094571909; 275423344;
   430227734; 506948616; 659060556; 883997877; 958139571; 1322822218; 1537002063; 1747873779;
   1955562222; 2024104815; 2227730452; 2361852424; 2428436474; 2756734187; 3204031479; 3329325298].

Definition initial_hash : list Z :=
  [1779033703; 3144134277; 1013904242; 2773480762; 1359893119; 2600822924; 528734635; 1541459225].

(** UTF-8: code points below 256 take one or two bytes. *)
Fixpoint utf8 (s : string) : list Z :=
  match s with
  | "" => []
  | String c s' =>
      let n := Z.of_nat (code c) in
      if n <? 128 then n :: utf8 s' else (192 + Z.shiftr n 6) :: (128 + Z.land n 63) :: utf8 s'
  end.

Fixpoint be_bytes (n : nat) (x : Z) : list Z :=
  match n with O => [] | S n' => Z.land (Z.shiftr x (8 * Z.of_nat n')) 255 :: be_bytes n' x end.

Definition pad (msg : list Z) : list Z :=
  let len := Z.of_nat (length msg) in
  msg ++ [128] ++ repeat 0 (Z.to_nat ((55 - len) mod 64)) ++ be_bytes 8 (8 * len).

(** Big-endian words. *)
Fixpoint words (bs : list Z) : list Z :=
  match bs with
  | a :: b :: c :: d :: bs' => (a * 16777216 + b * 65536 + c * 256 + d) :: words bs'
  | _ => []
  end.

(** The message schedule, newest word first. *)
Fixpoint extend_schedule (n : nat) (rev_w : list Z) : list Z :=
  match n with
  | O => rev_w
  | S n' =>
      let at_ i := nth i rev_w 0 in
      extend_schedule n' (w32 (small_sigma1 (at_ 1%nat) + at_ 6%nat + small_sigma0 (at_ 14%nat) + at_ 15%nat) :: rev_w)
  end.
Definition schedule (block : list Z) : list Z := rev (extend_schedule 48 (rev block)).

Definition compress_round (st : list Z) (kw : Z * Z) : list Z :=
  match st with
  | [a; b; c; d; e; f; g; h] =>
      let t1 := h + big_sigma1 e + choose e f g + kw.1 + kw.2 in
      let t2 := big_sigma0 a + majority a b c in
      [w32 (t1 + t2); a; b; c; w32 (d + t1); e; f; g]
  | _ => st
  end.

Definition compress (st block : list Z) : list Z :=
  let out := foldl compress_round st (zip round_constants (schedule block)) in
  zip_with (λ a b, w32 (a + b)) st out.

Fixpoint blocks (fuel : nat) (ws : list Z) (st : list Z) : list Z :=
  match fuel with
  | O => st
  | S n => match ws with [] => st | _ => blocks n (drop 16 ws) (compress st (take 16 ws)) end
  end.

Definition hex_char (d : Z) : ascii := ascii_of_nat (Z.to_nat (if d <? 10 then 48 + d else 87 + d)).
Fixpoint hex_bytes (bs : list Z) : string :=
  match bs with
  | [] => ""
  | b :: bs' => String (hex_char (Z.shiftr b 4)) (String (hex_char (Z.land b 15)) (hex_bytes bs'))
  end.

Definition sha256_hex (s : string) : string :=
  let ws := words (pad (utf8 s)) in
  hex_bytes (flat_map (be_bytes 4) (blocks (length ws) ws initial_hash)).

Example sha256_empty : sha256_hex "" = "e3b0c44298fc1c149afbf4c8996fb92427ae41e4649b934ca495991b7852b855".
Proof. vm_compute. reflexivity. Qed.
Example sha256_abc : sha256_hex "abc" = "ba7816bf8f01cfea414140de5dae2223b00361a396177a9cb410ff61f20015ad".
Proof. vm_compute. reflexivity. Qed.
Example sha256_long :
  sha256_hex "abcdbcdecdefdefgefghfghighijhijkijkljklmklmnlmnomnopnopq" =
  "248d6a61d20638b8e5c026930c3e6039a33ce45964ff2167f6ecedd419db06c1".
Proof. vm_compute. reflexivity. Qed.

(** ** Facts *)

Lemma be_bytes_range n x : Forall (λ b, 0 ≤ b < 256) (be_bytes n x).
Proof.
  induction n as [|n IH]; cbn [be_bytes]; constructor; [|done].
  change 255 with (Z.ones 8). rewrite Z.land_ones by lia. apply Z.mod_pos_bound. lia.
Qed.
Lemma length_be_bytes n x : length (be_bytes n x) = n.
Proof. induction n; cbn; congruence. Qed.

Lemma compress_length st block : length st = 8%nat → length (compress st block) = 8%nat.
Proof.
  intros Hst. unfold compress. rewrite length_zip_with.
  assert (∀ l st, length st = 8%nat → length (foldl compress_round st l) = 8%nat) as H.
  { clear. induction l as [|kw l IH]; intros st Hst; [done|]. cbn. apply IH.
    unfold compress_round. do 9 (destruct st as [|? st]; try done). }
  rewrite (H _ _ Hst). lia.
Qed.
Lemma blocks_length n ws st : length st = 8%nat → length (blocks n ws st) = 8%nat.
Proof. revert ws st. induction n as [|n IH]; intros [|w ws] st H; cbn; try done. by apply IH, compress_length. Qed.

Lemma hex_char_hex d : 0 ≤ d < 16 → is_hex_lower (hex_char d) = true.
Proof.
  intros H. assert (forallb (λ n, is_hex_lower (hex_char (Z.of_nat n))) (seq 0 16) = true) as Hall by reflexivity.
  rewrite forallb_true_iff in Hall. specialize (Hall (Z.to_nat d)). rewrite Z2Nat.id in Hall by lia.
  apply Hall, elem_of_seq. lia.
Qed.

Lemma hex_bytes_hex bs : Forall (λ b, 0 ≤ b < 256) bs → str_forallb is_hex_lower (hex_bytes bs) = true.
Proof.
  induction 1 as [|b bs Hb _ IH]; [done|]. cbn -[Z.land Z.shiftr]. rewrite IH, !hex_char_hex; [done| |].
  - change 15 with (Z.ones 4). rewrite Z.land_ones by lia. apply Z.mod_pos_bound. lia.
  - rewrite Z.shiftr_div_pow2 by lia. split; [apply Z.div_pos; lia|]. apply Z.div_lt_upper_bound; lia.
Qed.
Lemma length_hex_bytes bs : String.length (hex_bytes bs) = (2 * length bs)%nat.
Proof. induction bs; cbn; lia. Qed.

(** A digest is 64 lower-case hexadecimal digits. *)
Lemma sha256_shape s : is_sha256_hex (sha256_hex s) = true.
Proof.
  unfold is_sha256_hex, sha256_hex. apply andb_true_iff. set (st := blocks _ _ _).
  assert (length st = 8%nat) as Hst by (by apply blocks_length). clearbody st. split.
  - rewrite length_hex_bytes. apply Nat.eqb_eq.
    assert (∀ l, length (flat_map (be_bytes 4) l) = (4 * length l)%nat) as ->; [|lia].
    induction l as [|x l IH]; [done|]. cbn -[be_bytes]. rewrite length_app, length_be_bytes, IH. lia.
  - apply hex_bytes_hex. clear Hst. induction st as [|x l IH]; cbn -[be_bytes]; [constructor|].
    apply Forall_app. split; [apply be_bytes_range|done].
Qed.
