(* ===== verification/IsoTime.v ===== *)
(** * Timestamps: [clock.py] and the [datetime] operations of the package

    A [datetime] is its local time in microseconds since 0001-01-01T00:00 and
    its offset from UTC, absent when naive.  [fromisoformat] accepts what
    CPython 3.11 accepts (calendar and week dates, extended and basic forms,
    any separator character, fractions truncated to microseconds);
    [isoformat] prints with [timespec="microseconds"] or [auto]; [plus_delta]
    adds a [timedelta], failing outside years 1 to 9999. *)

From S2P Require Import Prelude PyStr PyNum PyVal.

Open Scope Z_scope.

Record datetime : Type := MkDt { dt_us : Z; dt_offset : option Z }.
#[export] Instance datetime_eq_dec : EqDecision datetime.
Proof. solve_decision. Defined.

(** ** The proleptic Gregorian calendar *)

Definition is_leap (y : Z) : bool := (y mod 4 =? 0) && (negb (y mod 100 =? 0) || (y mod 400 =? 0)).
Definition days_before_year (y : Z) : Z := (y - 1) * 365 + (y - 1) / 4 - (y - 1) / 100 + (y - 1) / 400.
Definition days_in_month (y m : Z) : Z :=
  if m =? 2 then (if is_leap y then 29 else 28)
  else if (m =? 4) || (m =? 6) || (m =? 9) || (m =? 11) then 30 else 31.
Definition days_before_month (y m : Z) : Z :=
  foldr (λ k acc, (if k <? m then days_in_month y k else 0) + acc) 0 [1; 2; 3; 4; 5; 6; 7; 8; 9; 10; 11; 12].
(** Days since 0001-01-01, which is day 0. *)
Definition day_number (y m d : Z) : Z := days_before_year y + days_before_month y m + d - 1.

Definition valid_date (y m d : Z) : bool :=
  (1 <=? y) && (y <=? 9999) && (1 <=? m) && (m <=? 12) && (1 <=? d) && (d <=? days_in_month y m).

(** The month and day of day [n] of a year, 0-based, trying the months in order. *)
Fixpoint month_of (months : list Z) (y n : Z) : Z * Z :=
  match months with
  | [] => (12, n + 1)
  | m :: months' => if n <? days_in_month y m then (m, n + 1) else month_of months' y (n - days_in_month y m)
  end.
Definition civil_of_day (n : Z) : Z * Z * Z :=
  let y400 := n / 146097 in let n := n mod 146097 in
  let y100 := Z.min 3 (n / 36524) in let n := n - y100 * 36524 in
  let y4 := n / 1461 in let n := n mod 1461 in
  let y1 := Z.min 3 (n / 365) in let n := n - y1 * 365 in
  let y := y400 * 400 + y100 * 100 + y4 * 4 + y1 + 1 in
  let '(m, d) := month_of [1; 2; 3; 4; 5; 6; 7; 8; 9; 10; 11] y n in (y, m, d).

(** The Monday of ISO week 1 of a year. *)
Definition iso_week1 (y : Z) : Z :=
  let first := day_number y 1 1 in
  let weekday := first mod 7 in
  let monday := first - weekday in
  if 3 <? weekday then monday + 7 else monday.
Definition iso_week_day (y w d : Z) : option Z :=
  let first := day_number y 1 1 in
  let long := (first mod 7 =? 3) || ((first mod 7 =? 2) && is_leap y) in
  if (1 <=? y) && (y <=? 9999) && (1 <=? w) && ((w <=? 52) || ((w =? 53) && long)) && (1 <=? d) && (d <=? 7)
  then Some (iso_week1 y + (w - 1) * 7 + d - 1) else None.

(** ** Parsing *)

Definition slice (i n : nat) (s : string) : string := str_take n (str_drop i s).
Definition char_at (i : nat) (s : string) : option ascii := String.get i s.
Definition has_char (i : nat) (c : string) (s : string) : bool := bool_decide (slice i 1 s = c).
Definition digit_at (i : nat) (s : string) : bool :=
  match char_at i s with Some c => is_digit c | None => false end.

Fixpoint digits_val (acc : Z) (s : string) : Z :=
  match s with "" => acc | String c s' => digits_val (acc * 10 + digit_val c) s' end.
(** Exactly [n] digits at position [i]. *)
Definition digits (i n : nat) (s : string) : option Z :=
  let t := slice i n s in
  if (String.length t =? n)%nat && str_forallb is_digit t then Some (digits_val 0 t) else None.

Fixpoint digit_run (s : string) : nat :=
  match s with String c s' => if is_digit c then S (digit_run s') else O | "" => O end.

(** Where the date ends; [None] is an invalid string. *)
Definition date_end (s : string) : option nat :=
  let len := String.length s in
  if (len <? 7)%nat then None
  else if (len =? 7)%nat then Some 7%nat
  else if has_char 4 "-" s then
    if has_char 5 "W" s then
      if (8 <? len)%nat && has_char 8 "-" s then
        if (len =? 9)%nat then None
        else if digit_at 10 s then Some 8%nat else Some 10%nat
      else Some 8%nat
    else Some 10%nat
  else if has_char 4 "W" s then
    let idx := (7 + digit_run (str_drop 7 s))%nat in
    if (idx <? 9)%nat then Some idx
    else if Nat.even idx then Some 7%nat else Some 8%nat
  else Some 8%nat.

Definition parse_date (s : string) : option Z :=
  y ← digits 0 4 s;
  let sep := has_char 4 "-" s in
  let pos := (4 + Nat.b2n sep)%nat in
  if has_char pos "W" s then
    w ← digits (S pos) 2 s;
    let pos := (pos + 3)%nat in
    if (pos <? String.length s)%nat then
      if Bool.eqb (has_char pos "-" s) sep
      then let pos := (pos + Nat.b2n sep)%nat in
           d ← digits pos 1 s;
           if (String.length s =? S pos)%nat then iso_week_day y w d else None
      else None
    else iso_week_day y w 1
  else
    m ← digits pos 2 s;
    let pos := (pos + 2)%nat in
    if Bool.eqb (has_char pos "-" s) sep
    then let pos := (pos + Nat.b2n sep)%nat in
         d ← digits pos 2 s;
         if (String.length s =? pos + 2)%nat && valid_date y m d then Some (day_number y m d) else None
    else None.

Definition pad_fraction (t : string) : Z := digits_val 0 t * 10 ^ (6 - Z.of_nat (String.length t)).
Definition is_nul (c : ascii) : bool := (code c =? 0)%nat.
Fixpoint skip_digits (s : string) : string :=
  match s with String c s' => if is_digit c then skip_digits s' else s | "" => s end.

(** A clock reading [HH[:?MM[:?SS[.f+]]]], and whether text is left over;
    [at_end] tells that the end of the text is the end of the whole string.
    Only the caller decides whether a left-over is an error. *)
Definition parse_fraction (at_end : bool) (s : string) : option (Z * bool) :=
  let t := str_take 6 s in
  if str_forallb is_digit t then
    Some (pad_fraction t, match skip_digits (str_drop 6 s) with "" => negb at_end | String c _ => negb (is_nul c) end)
  else None.
Fixpoint parse_comps (n : nat) (sep : option bool) (at_end : bool) (s : string) : option (list Z * Z * bool) :=
  match n with
  | O => '(f, rv) ← parse_fraction at_end s; Some ([], f, rv)
  | S n' =>
      x ← digits 0 2 s;
      let rest := str_drop 2 s in
      match rest with
      | "" => Some ([x], 0, negb at_end)
      | String c rest' =>
          let sep := default (Ascii.eqb c ":") sep in
          if negb (nonempty rest') then Some ([x], 0, negb (is_nul c))
          else if sep && Ascii.eqb c ":" then '(l, f, rv) ← parse_comps n' (Some sep) at_end rest'; Some (x :: l, f, rv)
          else if one_of ".," c then '(f, rv) ← parse_fraction at_end rest'; Some ([x], f, rv)
          else if sep then None
          else '(l, f, rv) ← parse_comps n' (Some sep) at_end rest; Some (x :: l, f, rv)
      end
  end.
Definition parse_clock (at_end : bool) (s : string) : option (Z * Z * Z * Z * bool) :=
  '(l, f, rv) ← parse_comps 3 None at_end s;
  Some (nth 0 l 0, nth 1 l 0, nth 2 l 0, f, rv).

Fixpoint tz_position (i : nat) (s : string) : option nat :=
  match s with
  | "" => None
  | String c s' => if one_of "+-Z" c then Some i else tz_position (S i) s'
  end.

Definition clock_us (t : Z * Z * Z * Z) : Z :=
  let '(h, m, s, f) := t in ((h * 60 + m) * 60 + s) * 1000000 + f.
Definition valid_clock (t : Z * Z * Z * Z) : bool :=
  let '(h, m, s, f) := t in (h <? 24) && (m <? 60) && (s <? 60).
Definition day_us : Z := 86400000000.

Definition parse_offset (sign : string) (s : string) : option Z :=
  if bool_decide (sign = "Z") then (if nonempty s then None else Some 0)
  else '(t, rv) ← parse_clock true s;
       if negb rv && (clock_us t <? day_us)
       then Some (if bool_decide (sign = "-") then - clock_us t else clock_us t) else None.

Definition parse_time (s : string) : option (Z * option Z) :=
  match tz_position 0 s with
  | None =>
      '(t, rv) ← parse_clock true s;
      if negb rv && valid_clock t then Some (clock_us t, None) else None
  | Some i =>
      '(t, _) ← parse_clock false (str_take i s);
      off ← parse_offset (slice i 1 s) (str_drop (S i) s);
      if valid_clock t then Some (clock_us t, Some off) else None
  end.

(** [datetime.fromisoformat]; [None] is [ValueError]. *)
Definition fromisoformat (s : string) : option datetime :=
  i ← date_end s;
  day ← parse_date (str_take i s);
  if (i <? String.length s)%nat
  then '(us, off) ← parse_time (str_drop (S i) s); Some (MkDt (day * day_us + us) off)
  else Some (MkDt (day * day_us) None).

(** [value.replace("Z", "+00:00")] *)
Fixpoint replace_Z (s : string) : string :=
  match s with
  | "" => ""
  | String c s' => if Ascii.eqb c "Z" then "+00:00" +:+ replace_Z s' else String c (replace_Z s')
  end.
Definition parse_z (s : string) : option datetime := fromisoformat (replace_Z s).

(** ** Printing *)

(** [n] in exactly [k] digits. *)
Fixpoint pad_digits (k : nat) (n : Z) : string :=
  match k with
  | O => ""
  | S k' => pad_digits k' (n / 10) +:+ String (ascii_of_nat (Z.to_nat (48 + n mod 10))) ""
  end.

Definition iso_offset (o : Z) : string :=
  let a := Z.abs o in
  let s := a / 1000000 in
  (if o <? 0 then "-" else "+") +:+ pad_digits 2 (s / 3600) +:+ ":" +:+ pad_digits 2 (s / 60 mod 60) +:+
  (if a mod 60000000 =? 0 then "" else
     ":" +:+ pad_digits 2 (s mod 60) +:+
     (if a mod 1000000 =? 0 then "" else "." +:+ pad_digits 6 (a mod 1000000))).

(** [isoformat(timespec="microseconds")] with [micro], [isoformat()] without. *)
Definition iso_with (micro : bool) (t : datetime) : string :=
  let '(y, m, d) := civil_of_day (t.(dt_us) / day_us) in
  let us := t.(dt_us) mod day_us in
  let s := us / 1000000 in
  pad_digits 4 y +:+ "-" +:+ pad_digits 2 m +:+ "-" +:+ pad_digits 2 d +:+ "T" +:+
  pad_digits 2 (s / 3600) +:+ ":" +:+ pad_digits 2 (s / 60 mod 60) +:+ ":" +:+ pad_digits 2 (s mod 60) +:+
  (if micro || negb (us mod 1000000 =? 0) then "." +:+ pad_digits 6 (us mod 1000000) else "") +:+
  match t.(dt_offset) with None => "" | Some o => iso_offset o end.
Definition isoformat (t : datetime) : string := iso_with false t.

(** [s.replace("+00:00", "Z")] *)
Fixpoint zulu_from (fuel : nat) (s : string) : string :=
  match fuel, s with
  | S fuel', String c s' =>
      if startswith s "+00:00" then "Z" +:+ zulu_from fuel' (str_drop 6 s)
      else String c (zulu_from fuel' s')
  | _, _ => s
  end.
Definition zulu (s : string) : string := zulu_from (String.length s) s.

(** ** Arithmetic *)

Definition max_us : Z := 3652059 * day_us.
(** [stamp + timedelta]: [None] is [OverflowError]. *)
Definition plus_delta (t : datetime) (us : Z) : option datetime :=
  if (0 <=? t.(dt_us) + us) && (t.(dt_us) + us <? max_us)
  then Some (MkDt (t.(dt_us) + us) t.(dt_offset)) else None.

(** [m * 2^e] rounded to an integer, halves to even. *)
Definition round_half_even (m e : Z) : Z :=
  if 0 <=? e then m * 2 ^ e
  else let q := m / 2 ^ (- e) in
       let r2 := 2 * (m mod 2 ^ (- e)) in
       if (r2 <? 2 ^ (- e)) || ((r2 =? 2 ^ (- e)) && Z.even q) then q else q + 1.
(** The integral part of [m * 2^e], toward zero. *)
Definition trunc_dyadic (m e : Z) : Z := if 0 <=? e then m * 2 ^ e else Z.quot m (2 ^ (- e)).

(** [timedelta(seconds=x)] in microseconds, for a finite [x]; [None] is
    [OverflowError].  As in CPython, the fraction is multiplied by [1e6] in
    floating point, then rounded. *)
Definition timedelta_us (x : pynum) : option Z :=
  us ← match x with
       | NInt z => Some (z * 1000000)
       | NFloat f =>
           '(m, e) ← dyadic f;
           let whole := trunc_dyadic m e in
           let frac := if 0 <=? e then S754_zero false
                       else binary_normalize prec emax (m - whole * 2 ^ (- e)) e false in
           '(m', e') ← dyadic (SFmul prec emax (binary_normalize prec emax 1000000 0 false) frac);
           Some (whole * 1000000 + round_half_even m' e')
       end;
  if (- 999999999 <=? us / day_us) && (us / day_us <=? 999999999) then Some us else None.

(** ** [clock.py] *)

(** What an injected clock can return. *)
Inductive clock_reading : Type :=
| ReadDatetime (t : datetime)
| ReadValue (v : pyval).

Definition astimezone_utc (t : datetime) : option datetime :=
  match t.(dt_offset) with
  | Some o => if (0 <=? t.(dt_us) - o) && (t.(dt_us) - o <? max_us) then Some (MkDt (t.(dt_us) - o) (Some 0)) else None
  | None => None
  end.

Definition is_utc (t : datetime) : bool := bool_decide (t.(dt_offset) = Some 0).

Definition clock_now (r : clock_reading) : res string datetime :=
  match r with
  | ReadDatetime t => if is_utc t then Ok t else Err "clock must return an aware UTC datetime"
  | ReadValue (VStr s) =>
      match parse_z s with
      | Some t => if is_utc t then Ok t else Err "clock must return an ISO-8601 UTC value"
      | None => Err "clock must return an ISO-8601 UTC value"
      end
  | ReadValue _ => Err "clock must return an aware UTC datetime or ISO-8601 UTC value"
  end.
Definition clock_iso (r : clock_reading) : res string string := isoformat <$> clock_now r.

Example iso_ex1 : parse_z "2026-09-22T12:34:56.5Z" = Some (MkDt (day_number 2026 9 22 * day_us + 45296500000) (Some 0)).
Proof. vm_compute. reflexivity. Qed.
Example iso_ex2 : (zulu ∘ iso_with true) <$> parse_z "2024-02-29 23:59:59,1234567Z" = Some "2024-02-29T23:59:59.123456Z".
Proof. vm_compute. reflexivity. Qed.
Example iso_ex3 : iso_with true <$> fromisoformat "2026W011T0102-05:30" = Some "2025-12-29T01:02:00.000000-05:30".
Proof. vm_compute. reflexivity. Qed.
Example iso_ex4 : map (λ s, is_ok (clock_now (ReadValue (VStr s))))
  ["2026-01-01"; "2026-02-30T00:00:00Z"; "2026-01-01T24:00:00Z"; "2026-01-01T00:00:00+01:00"; "20260101T0000Z"; "zz"] =
  [false; false; false; false; true; false].
Proof. vm_compute. reflexivity. Qed.

(** ** The calendar *)

Lemma year_parts a b c e : 0 ≤ b ≤ 3 → 0 ≤ c ≤ 24 → 0 ≤ e ≤ 3 →
  days_before_year (a * 400 + b * 100 + c * 4 + e + 1) = 146097 * a + 36524 * b + 1461 * c + 365 * e.
Proof.
  intros Hb Hc He. unfold days_before_year. replace (a * 400 + b * 100 + c * 4 + e + 1 - 1) with (a * 400 + b * 100 + c * 4 + e) by lia.
  assert ((a * 400 + b * 100 + c * 4 + e) / 4 = 100 * a + 25 * b + c) as -> by (symmetry; apply Z.div_unique with e; lia).
  assert ((a * 400 + b * 100 + c * 4 + e) / 100 = 4 * a + b) as -> by (symmetry; apply Z.div_unique with (c * 4 + e); lia).
  assert ((a * 400 + b * 100 + c * 4 + e) / 400 = a) as -> by (symmetry; apply Z.div_unique with (b * 100 + c * 4 + e); lia).
  lia.
Qed.

Lemma leap_parts a b c e : 0 ≤ b ≤ 3 → 0 ≤ c ≤ 24 → 0 ≤ e ≤ 3 →
  is_leap (a * 400 + b * 100 + c * 4 + e + 1) = (e =? 3) && (negb (c =? 24) || (b =? 3)).
Proof.
  intros Hb Hc He. unfold is_leap.
  set (y := a * 400 + b * 100 + c * 4 + e + 1).
  assert (y mod 4 = 0 ↔ e = 3) as H4 by (subst y; Z.to_euclidean_division_equations; lia).
  assert (y mod 100 = 0 ↔ e = 3 ∧ c = 24) as H100 by (subst y; Z.to_euclidean_division_equations; lia).
  assert (y mod 400 = 0 ↔ e = 3 ∧ c = 24 ∧ b = 3) as H400 by (subst y; Z.to_euclidean_division_equations; lia).
  clearbody y. apply eq_bool_prop_intro. rewrite !Is_true_true.
  rewrite !andb_true_iff, !orb_true_iff, !negb_true_iff, !Z.eqb_eq, !Z.eqb_neq. lia.
Qed.

Definition year_length (y : Z) : Z := if is_leap y then 366 else 365.

Lemma month_of_spec y n : 0 ≤ n < year_length y →
  let '(m, d) := month_of [1; 2; 3; 4; 5; 6; 7; 8; 9; 10; 11] y n in
  1 ≤ m ≤ 12 ∧ 1 ≤ d ≤ days_in_month y m ∧ days_before_month y m + d - 1 = n.
Proof.
  unfold year_length, days_before_month, days_in_month. intros Hn. cbv [month_of days_in_month].
  destruct (is_leap y); cbn -[Z.sub Z.ltb];
    repeat (match goal with |- context [if ?c then (_, _) else _] =>
              let E := fresh in destruct c eqn:E; [apply Z.ltb_lt in E|apply Z.ltb_ge in E] end;
            try (cbn -[Z.sub]; lia)); cbn -[Z.sub]; lia.
Qed.

(** A day number is the number of its date. *)
Lemma civil_of_day_spec n : 0 ≤ n < 3652059 →
  let '(y, m, d) := civil_of_day n in valid_date y m d = true ∧ day_number y m d = n.
Proof.
  intros Hn. unfold civil_of_day.
  set (a := n / 146097). set (r := n mod 146097). set (b := Z.min 3 (r / 36524)). set (r1 := r - b * 36524).
  set (c := r1 / 1461). set (r2 := r1 mod 1461). set (e := Z.min 3 (r2 / 365)). set (r3 := r2 - e * 365).
  assert (n = 146097 * a + r ∧ 0 ≤ r < 146097 ∧ 0 ≤ a < 25) as (Hn1 & Hr & Ha) by (subst a r; Z.to_euclidean_division_equations; lia).
  assert (0 ≤ b ≤ 3 ∧ 0 ≤ r1 ∧ (b < 3 → r1 < 36524) ∧ r1 < 36525) as (Hb & Hr1 & Hr1' & Hr1'').
  { subst b r1. clear -Hr. Z.to_euclidean_division_equations. lia. }
  assert (r1 = 1461 * c + r2 ∧ 0 ≤ r2 < 1461 ∧ 0 ≤ c ≤ 24) as (Hr2 & Hr2' & Hc).
  { subst c r2. clear -Hr1 Hr1''. Z.to_euclidean_division_equations. lia. }
  assert (0 ≤ e ≤ 3 ∧ 0 ≤ r3 ∧ (e < 3 → r3 < 365) ∧ r3 < 366) as (He & Hr3 & Hr3' & Hr3'').
  { subst e r3. clear -Hr2'. Z.to_euclidean_division_equations. lia. }
  assert (r = b * 36524 + r1 ∧ r2 = e * 365 + r3) as [Hrr Hrr2] by (subst r1 r3; lia).
  clearbody a r b r1 c r2 e r3.
  set (y := a * 400 + b * 100 + c * 4 + e + 1).
  assert (0 ≤ r3 < year_length y) as Hlen.
  { unfold year_length, y. rewrite leap_parts by lia. destruct (e =? 3) eqn:E3; cbn; [|lia].
    destruct (c =? 24) eqn:E24; cbn; [|lia]. destruct (b =? 3) eqn:Eb; lia. }
  pose proof (month_of_spec y r3 Hlen) as Hm. destruct (month_of _ _ _) as [m d]. destruct Hm as (Hm & Hd & Heq).
  split.
  - unfold valid_date. rewrite !andb_true_iff, !Z.leb_le. assert (1 ≤ y ≤ 9999) by (unfold y; lia). lia.
  - unfold day_number. unfold y at 1. rewrite year_parts by lia. lia.
Qed.

(** ** Printed digits read back *)

Lemma digit_char d : 0 ≤ d < 10 → is_digit (ascii_of_nat (Z.to_nat (48 + d))) = true ∧ digit_val (ascii_of_nat (Z.to_nat (48 + d))) = d.
Proof.
  intros Hd. assert (d ∈ [0; 1; 2; 3; 4; 5; 6; 7; 8; 9]) as Hin by (rewrite !elem_of_cons; lia).
  repeat (apply elem_of_cons in Hin as [-> | Hin]; [by vm_compute|]). by apply elem_of_nil in Hin.
Qed.

Lemma pad_digits_digits k n : str_forallb is_digit (pad_digits k n) = true.
Proof.
  revert n. induction k as [|k IH]; intros n; [done|]. cbn [pad_digits]. rewrite str_forallb_app, IH. cbn [str_forallb].
  destruct (digit_char (n mod 10)) as [-> _]; [Z.to_euclidean_division_equations; lia|done].
Qed.
Lemma length_pad_digits k n : String.length (pad_digits k n) = k.
Proof. revert n. induction k as [|k IH]; intros n; [done|]. cbn [pad_digits]. rewrite length_str_app, IH. cbn. lia. Qed.
Lemma digits_val_app acc a b : digits_val acc (a +:+ b) = digits_val (digits_val acc a) b.
Proof. revert acc. induction a as [|c a IH]; intros acc; [done|]. apply (IH (acc * 10 + digit_val c)). Qed.
Lemma digits_val_pad k n acc : 0 ≤ n < 10 ^ Z.of_nat k → digits_val acc (pad_digits k n) = acc * 10 ^ Z.of_nat k + n.
Proof.
  revert n acc. induction k as [|k IH]; intros n acc Hn; cbn [pad_digits digits_val]; [cbn in *; lia|].
  rewrite Nat2Z.inj_succ, Z.pow_succ_r in * by lia. rewrite digits_val_app, IH by (Z.to_euclidean_division_equations; lia).
  cbn [digits_val]. destruct (digit_char (n mod 10)) as [_ ->]; [Z.to_euclidean_division_equations; lia|].
  pose proof (Z.div_mod n 10). lia.
Qed.

Lemma drop_pad k i n b : str_drop (k + i) (pad_digits k n +:+ b) = str_drop i b.
Proof.
  rewrite <- (length_pad_digits k n) at 1. apply drop_app_str.
Qed.
Lemma take_pad k n b : str_take k (pad_digits k n +:+ b) = pad_digits k n.
Proof. rewrite <- (length_pad_digits k n) at 1. apply take_app_str. Qed.
Lemma digits_pad i k n b s : str_drop i s = pad_digits k n +:+ b → 0 ≤ n < 10 ^ Z.of_nat k → digits i k s = Some n.
Proof.
  intros Hs Hn. unfold digits, slice. rewrite Hs, take_pad, length_pad_digits, Nat.eqb_refl, pad_digits_digits, digits_val_pad by done. done.
Qed.
Lemma has_char_at i c x b s : str_drop i s = String x b → has_char i c s = bool_decide (String x "" = c).
Proof. intros Hs. unfold has_char, slice. rewrite Hs. by destruct b. Qed.
Lemma pad_digits_head k n : ∃ x b, pad_digits (S k) n = String x b ∧ is_digit x = true.
Proof.
  pose proof (length_pad_digits (S k) n) as Hl. pose proof (pad_digits_digits (S k) n) as Hd.
  destruct (pad_digits (S k) n) as [|x b]; [done|]. cbn in Hd. exists x, b. split; [done|]. by destruct (is_digit x).
Qed.
Lemma has_char_pad i k c n b s : str_drop i s = pad_digits (S k) n +:+ b → str_forallb is_digit c = false → has_char i c s = false.
Proof.
  intros Hs Hc. destruct (pad_digits_head k n) as (x & b' & Hx & Hd). rewrite Hx in Hs.
  rewrite (has_char_at i c x _ s Hs). apply bool_decide_eq_false_2. intros <-. cbn in Hc. by rewrite Hd in Hc.
Qed.

Definition date_text (y m d : Z) : string := pad_digits 4 y +:+ "-" +:+ pad_digits 2 m +:+ "-" +:+ pad_digits 2 d.
Lemma length_date_text y m d : String.length (date_text y m d) = 10%nat.
Proof. unfold date_text. by rewrite !length_str_app, !length_pad_digits. Qed.

Lemma days_in_month_bound y m : days_in_month y m ≤ 31.
Proof. unfold days_in_month. repeat case_match; lia. Qed.

(** Read one field printed by [pad_digits], known from the text that starts there. *)
Ltac pow10 :=
  match goal with |- context [10 ^ Z.of_nat ?k] =>
    let v := eval vm_compute in (10 ^ Z.of_nat k) in change (10 ^ Z.of_nat k) with v end; lia.
Ltac read_field E n := rewrite (digits_pad _ _ n _ _ E) by pow10; cbn [mbind option_bind].
Ltac read_char E := rewrite (has_char_at _ _ _ _ _ E); first [rewrite bool_decide_true by done|rewrite bool_decide_false by done].

Lemma parse_date_text y m d : valid_date y m d = true → parse_date (date_text y m d) = Some (day_number y m d).
Proof.
  intros Hv. pose proof Hv as Hr. unfold valid_date in Hr. bool_inv. pose proof (days_in_month_bound y m).
  assert (str_drop 4 (date_text y m d) = "-" +:+ pad_digits 2 m +:+ "-" +:+ pad_digits 2 d) as E4 by apply (drop_pad 4 0).
  assert (str_drop 5 (date_text y m d) = pad_digits 2 m +:+ "-" +:+ pad_digits 2 d) as E5 by apply (drop_pad 4 1).
  assert (str_drop 7 (date_text y m d) = "-" +:+ pad_digits 2 d) as E7.
  { unfold date_text. rewrite (drop_pad 4 3). exact (drop_pad 2 0 m ("-" +:+ pad_digits 2 d)). }
  assert (str_drop 8 (date_text y m d) = pad_digits 2 d +:+ "") as E8.
  { rewrite app_nil_str. unfold date_text. rewrite (drop_pad 4 4). exact (drop_pad 2 1 m ("-" +:+ pad_digits 2 d)). }
  assert (str_drop 0 (date_text y m d) = pad_digits 4 y +:+ "-" +:+ pad_digits 2 m +:+ "-" +:+ pad_digits 2 d) as E0 by done.
  unfold parse_date. read_field E0 y. read_char E4. cbn [Nat.b2n Nat.add].
  rewrite (has_char_pad 5 1 "W" m _ _ E5) by done. read_field E5 m. read_char E7. cbn [Bool.eqb Nat.b2n Nat.add]. read_field E8 d.
  rewrite length_date_text. cbn [Nat.eqb andb Nat.add]. by rewrite Hv.
Qed.

(** ** Clock readings and whole timestamps *)

Definition time_text (h m s f : Z) : string :=
  pad_digits 2 h +:+ ":" +:+ pad_digits 2 m +:+ ":" +:+ pad_digits 2 s +:+ "." +:+ pad_digits 6 f.

Lemma str_forallb_impl (p q : ascii → bool) s : (∀ c, p c = true → q c = true) → str_forallb p s = true → str_forallb q s = true.
Proof. intros Hpq. induction s as [|c s IH]; cbn; [done|]. destruct (p c) eqn:E; [|done]. by rewrite Hpq. Qed.

(** Neither a digit nor a separator of a clock reading starts an offset. *)
Definition plain (c : ascii) : bool := negb (one_of "+-Z" c).
Lemma digit_plain c : is_digit c = true → plain c = true.
Proof. destruct c as [[] [] [] [] [] [] [] []]; vm_compute; congruence. Qed.
Lemma pad_plain k n : str_forallb plain (pad_digits k n) = true.
Proof. apply (str_forallb_impl is_digit); [apply digit_plain|apply pad_digits_digits]. Qed.
Lemma time_text_plain h m s f : str_forallb plain (time_text h m s f) = true.
Proof. unfold time_text. by rewrite !str_forallb_app, !pad_plain. Qed.
Lemma length_time_text h m s f : String.length (time_text h m s f) = 15%nat.
Proof. unfold time_text. by rewrite !length_str_app, !length_pad_digits. Qed.

Lemma tz_position_app a b i : str_forallb plain a = true →
  tz_position i (a +:+ b) = tz_position (i + String.length a) b.
Proof.
  revert i. induction a as [|c a IH]; intros i Ha; [cbn; by rewrite Nat.add_0_r|].
  rewrite cons_app_str. cbn in *. unfold plain in Ha at 1. destruct (one_of "+-Z" c); [discriminate|]. cbn in Ha.
  rewrite IH by done. f_equal. lia.
Qed.

Lemma parse_comp (at_end : bool) n sep k x rest : 0 ≤ x < 100 → (sep = None ∨ sep = Some true) → nonempty rest = true → k = ":" →
  parse_comps (S n) sep at_end (pad_digits 2 x +:+ k +:+ rest) =
  ('(l, f, rv) ← parse_comps n (Some true) at_end rest; Some (x :: l, f, rv)).
Proof.
  intros Hx Hsep Hne ->. cbn [parse_comps].
  rewrite (digits_pad 0 2 x (":" +:+ rest)) by first [done|pow10]. cbn [mbind option_bind].
  rewrite (drop_pad 2 0). cbn [str_drop]. change (":" +:+ rest) with (String ":" rest). cbv beta iota. rewrite Hne.
  by destruct Hsep as [-> | ->].
Qed.
Lemma parse_clock_text (at_end : bool) h m s f :
  0 ≤ h < 100 → 0 ≤ m < 100 → 0 ≤ s < 100 → 0 ≤ f < 1000000 →
  parse_clock at_end (time_text h m s f) = Some (h, m, s, f, negb at_end).
Proof.
  intros Hh Hm Hs Hf. unfold parse_clock, time_text.
  rewrite (parse_comp at_end 2%nat None ":" h) by first [lia|by left|done|by destruct (pad_digits_head 1 m) as (x & b & -> & _)].
  rewrite (parse_comp at_end 1%nat (Some true) ":" m) by first [lia|by right|done|by destruct (pad_digits_head 1 s) as (x & b & -> & _)].
  cbn [parse_comps]. rewrite (digits_pad 0 2 s ("." +:+ pad_digits 6 f)) by first [done|pow10]. cbn [mbind option_bind].
  rewrite (drop_pad 2 0). cbn [str_drop]. change ("." +:+ pad_digits 6 f) with (String "." (pad_digits 6 f)).
  destruct (pad_digits_head 5 f) as (x & b & Hx & _). rewrite Hx. cbv beta iota. cbn [nonempty negb]. rewrite <- Hx.
  change (default (Ascii.eqb "." ":") (Some true)) with true. change (one_of ".," ".") with true. change (Ascii.eqb "." ":") with false.
  cbn [andb]. unfold parse_fraction. rewrite <- (app_nil_str (pad_digits 6 f)), take_pad, (drop_pad 6 0), pad_digits_digits. cbn [str_drop skip_digits].
  unfold pad_fraction. rewrite length_pad_digits, digits_val_pad by pow10. cbn. repeat f_equal. lia.
Qed.

(** A clock reading without its fraction. *)
Definition short_text (h m s : Z) : string := pad_digits 2 h +:+ ":" +:+ pad_digits 2 m +:+ ":" +:+ pad_digits 2 s.
Lemma short_text_plain h m s : str_forallb plain (short_text h m s) = true.
Proof. unfold short_text. by rewrite !str_forallb_app, !pad_plain. Qed.
Lemma parse_short_text (at_end : bool) h m s :
  0 ≤ h < 100 → 0 ≤ m < 100 → 0 ≤ s < 100 → parse_clock at_end (short_text h m s) = Some (h, m, s, 0, negb at_end).
Proof.
  intros Hh Hm Hs. unfold parse_clock, short_text. rewrite (parse_comp at_end 2%nat None ":" h) by first [lia|by left|done|by destruct (pad_digits_head 1 m) as (x & b & -> & _)].
  rewrite (parse_comp at_end 1%nat (Some true) ":" m) by first [lia|by right|done|by destruct (pad_digits_head 1 s) as (x & b & -> & _)].
  cbn [parse_comps]. rewrite <- (app_nil_str (pad_digits 2 s)). rewrite (digits_pad 0 2 s "") by first [done|pow10]. cbn [mbind option_bind].
  rewrite (drop_pad 2 0). done.
Qed.

(** An instant in UTC, whatever the precision of its clock reading. *)
Lemma fromisoformat_clock y m d clock h mi s f rv :
  valid_date y m d = true → 0 ≤ h < 24 → 0 ≤ mi < 60 → 0 ≤ s < 60 → str_forallb plain clock = true → parse_clock false clock = Some (h, mi, s, f, rv) →
  fromisoformat (date_text y m d +:+ "T" +:+ clock +:+ "+00:00") =
  Some (MkDt (day_number y m d * day_us + clock_us (h, mi, s, f)) (Some 0)).
Proof.
  intros Hd Hh Hmi Hs Hp Hc. set (rest := clock +:+ "+00:00").
  set (whole := date_text y m d +:+ "T" +:+ rest).
  assert (String.length whole = (17 + String.length clock)%nat) as Hlen.
  { subst whole rest. rewrite !length_str_app, length_date_text. cbn. lia. }
  assert (date_end whole = Some 10%nat) as Hend.
  { unfold date_end. rewrite Hlen. cbn [Nat.ltb Nat.leb Nat.eqb Nat.add].
    assert (∀ i t, str_drop i (date_text y m d) = t → (i ≤ 10)%nat → str_drop i whole = t +:+ "T" +:+ rest) as Hdrop.
    { intros i t <- Hi. apply drop_app_le. by rewrite length_date_text. }
    assert (str_drop 4 whole = "-" +:+ (pad_digits 2 m +:+ "-" +:+ pad_digits 2 d) +:+ "T" +:+ rest) as E4.
    { rewrite (Hdrop 4%nat _ (drop_pad 4 0 y ("-" +:+ pad_digits 2 m +:+ "-" +:+ pad_digits 2 d))) by lia. done. }
    assert (str_drop 5 whole = pad_digits 2 m +:+ ("-" +:+ pad_digits 2 d) +:+ "T" +:+ rest) as E5.
    { rewrite (Hdrop 5%nat _ (drop_pad 4 1 y ("-" +:+ pad_digits 2 m +:+ "-" +:+ pad_digits 2 d))) by lia. by rewrite <- !app_assoc_str. }
    read_char E4. by rewrite (has_char_pad 5 1 "W" m _ _ E5). }
  unfold fromisoformat. rewrite Hend. cbn [mbind option_bind]. rewrite Hlen.
  assert (str_take 10 whole = date_text y m d) as ->.
  { subst whole. rewrite <- (length_date_text y m d) at 1. apply take_app_str. }
  rewrite parse_date_text by done. cbn [mbind option_bind Nat.ltb Nat.leb Nat.add].
  assert (str_drop 11 whole = rest) as ->.
  { subst whole. pose proof (drop_app_str (date_text y m d) ("T" +:+ rest) 1) as Hx. rewrite length_date_text in Hx. exact Hx. }
  unfold parse_time. subst rest. rewrite tz_position_app by done. cbn [tz_position Nat.add].
  change (one_of "+-Z" "+") with true. cbn iota. rewrite take_app_str, Hc. cbn [mbind option_bind]. unfold slice.
  pose proof (drop_app_str clock "+00:00" 0) as Hd0. pose proof (drop_app_str clock "+00:00" 1) as Hd1. rewrite Nat.add_0_r in Hd0. rewrite Nat.add_1_r in Hd1.
  rewrite Hd0, Hd1. cbn [str_drop str_take]. change (parse_offset "+" "00:00") with (Some 0). cbn [mbind option_bind]. unfold valid_clock.
  rewrite !(proj2 (Z.ltb_lt _ _)) by lia. done.
Qed.
Lemma fromisoformat_text y m d h mi s f :
  valid_date y m d = true → 0 ≤ h < 24 → 0 ≤ mi < 60 → 0 ≤ s < 60 → 0 ≤ f < 1000000 →
  fromisoformat (date_text y m d +:+ "T" +:+ time_text h mi s f +:+ "+00:00") =
  Some (MkDt (day_number y m d * day_us + clock_us (h, mi, s, f)) (Some 0)).
Proof.
  intros Hd Hh Hmi Hs Hf. apply (fromisoformat_clock y m d _ h mi s f true); try done; [apply time_text_plain|].
  apply (parse_clock_text false); lia.
Qed.

(** ** The canonical form of an instant *)

Definition no_mark (c : ascii) : bool := negb (one_of "+Z" c).
Lemma digit_no_mark c : is_digit c = true → no_mark c = true.
Proof. destruct c as [[] [] [] [] [] [] [] []]; vm_compute; congruence. Qed.
Lemma pad_no_mark k n : str_forallb no_mark (pad_digits k n) = true.
Proof. apply (str_forallb_impl is_digit); [apply digit_no_mark|apply pad_digits_digits]. Qed.

Lemma zulu_from_text a fuel : str_forallb no_mark a = true → (String.length a < fuel)%nat →
  zulu_from fuel (a +:+ "+00:00") = a +:+ "Z".
Proof.
  revert fuel. induction a as [|c a IH]; intros fuel Ha Hf; (destruct fuel as [|fuel]; [cbn in Hf; lia|]).
  - cbn. by destruct fuel.
  - rewrite !cons_app_str. cbn [zulu_from str_forallb] in *. destruct (no_mark c) eqn:Hc; [|discriminate].
    assert (startswith (String c (a +:+ "+00:00")) "+00:00" = false) as ->.
    { unfold startswith. cbn [String.prefix]. destruct (Ascii.ascii_dec "+" c) as [<-|]; [by vm_compute in Hc|reflexivity]. }
    f_equal. apply IH; [done|]. cbn in Hf. lia.
Qed.
Lemma zulu_text a : str_forallb no_mark a = true → zulu (a +:+ "+00:00") = a +:+ "Z".
Proof. intros Ha. apply zulu_from_text; [done|]. rewrite length_str_app. cbn. lia. Qed.
Lemma replace_Z_text a : str_forallb no_mark a = true → replace_Z (a +:+ "Z") = a +:+ "+00:00".
Proof.
  induction a as [|c a IH]; [done|]. intros Ha. rewrite !cons_app_str. cbn [replace_Z str_forallb] in *.
  destruct (no_mark c) eqn:Hc; [|discriminate]. rewrite IH by done. destruct (Ascii.eqb_spec c "Z"); [subst; by vm_compute in Hc|done].
Qed.

(** [_now] of an instant: what the package writes into snapshots. *)
Definition canonical_iso (t : datetime) : string := zulu (iso_with true t).

Definition utc_at (us : Z) : datetime := MkDt us (Some 0).
Definition clock_parts (us : Z) : Z * Z * Z * Z :=
  let u := us mod day_us in let s := u / 1000000 in (s / 3600, s / 60 mod 60, s mod 60, u mod 1000000).

Lemma clock_parts_spec us : 0 ≤ us →
  let '(h, m, s, f) := clock_parts us in
  0 ≤ h < 24 ∧ 0 ≤ m < 60 ∧ 0 ≤ s < 60 ∧ 0 ≤ f < 1000000 ∧ us = us / day_us * day_us + clock_us (h, m, s, f).
Proof.
  intros Hus. unfold clock_parts, clock_us, day_us. set (u := us mod 86400000000).
  assert (0 ≤ u < 86400000000 ∧ us = us / 86400000000 * 86400000000 + u) as [Hu Heq] by (subst u; Z.to_euclidean_division_equations; lia).
  clearbody u. revert Heq. generalize (us / 86400000000). intros q Heq. set (s := u / 1000000).
  assert (u = s * 1000000 + u mod 1000000 ∧ 0 ≤ u mod 1000000 < 1000000 ∧ 0 ≤ s < 86400) as (E1 & E2 & E3)
    by (subst s; Z.to_euclidean_division_equations; lia).
  clearbody s. revert E1 E2. generalize (u mod 1000000). intros f E1 E2.
  assert (s = (s / 3600 * 60 + s / 60 mod 60) * 60 + s mod 60 ∧ 0 ≤ s / 3600 < 24 ∧ 0 ≤ s / 60 mod 60 < 60 ∧ 0 ≤ s mod 60 < 60)
    as (E4 & E5 & E6 & E7) by (Z.to_euclidean_division_equations; lia).
  repeat split; try lia.
Qed.

Definition iso_parts (us : Z) : string :=
  let '(y, m, d) := civil_of_day (us / day_us) in
  let '(h, mi, s, f) := clock_parts us in
  date_text y m d +:+ "T" +:+ time_text h mi s f.

Lemma iso_with_utc us : iso_with true (utc_at us) = iso_parts us +:+ "+00:00".
Proof.
  unfold iso_with, iso_parts, utc_at, clock_parts. cbn [dt_us dt_offset orb]. destruct (civil_of_day _) as [[y m] d].
  unfold date_text, time_text. change (iso_offset 0) with "+00:00". by rewrite !app_assoc_str.
Qed.
Lemma iso_parts_no_mark us : str_forallb no_mark (iso_parts us) = true.
Proof.
  unfold iso_parts. destruct (civil_of_day _) as [[y m] d], (clock_parts us) as [[[h mi] s] f].
  unfold date_text, time_text. by rewrite !str_forallb_app, !pad_no_mark.
Qed.

Lemma parse_canonical us : 0 ≤ us < max_us → parse_z (canonical_iso (utc_at us)) = Some (utc_at us).
Proof.
  intros Hus. unfold canonical_iso, parse_z. rewrite iso_with_utc, zulu_text, replace_Z_text by apply iso_parts_no_mark.
  pose proof (clock_parts_spec us ltac:(lia)) as Hc.
  pose proof (civil_of_day_spec (us / day_us) ltac:(unfold max_us, day_us in *; Z.to_euclidean_division_equations; lia)) as Hd.
  unfold iso_parts. destruct (civil_of_day _) as [[y m] d], (clock_parts us) as [[[h mi] s] f].
  destruct Hc as (Hh & Hm & Hs & Hf & Heq), Hd as [Hv Hn]. rewrite !app_assoc_str, fromisoformat_text by done.
  rewrite Hn. unfold utc_at. by rewrite <- Heq.
Qed.

(** [isoformat()] leaves out a fraction of zero, and reads back all the same. *)
Lemma parse_auto us : 0 ≤ us < max_us → parse_z (zulu (isoformat (utc_at us))) = Some (utc_at us).
Proof.
  intros Hus. destruct (us mod day_us mod 1000000 =? 0) eqn:E.
  2:{ assert (isoformat (utc_at us) = iso_with true (utc_at us)) as ->; [|by apply parse_canonical].
      unfold isoformat, iso_with. cbn [dt_us dt_offset utc_at orb]. by rewrite E. }
  apply Z.eqb_eq in E. pose proof (clock_parts_spec us ltac:(lia)) as Hc. unfold clock_parts in Hc. cbv zeta in Hc. rewrite E in Hc.
  pose proof (civil_of_day_spec (us / day_us) ltac:(unfold max_us, day_us in *; Z.to_euclidean_division_equations; lia)) as Hd.
  unfold isoformat, iso_with, utc_at, parse_z. cbn [dt_us dt_offset orb]. rewrite E. destruct (civil_of_day (us / day_us)) as [[y m] d].
  set (s := us mod day_us / 1000000) in *. destruct Hc as (Hh & Hm & Hs & _ & Heq), Hd as [Hv Hn].
  assert (pad_digits 4 y +:+ "-" +:+ pad_digits 2 m +:+ "-" +:+ pad_digits 2 d +:+ "T" +:+ pad_digits 2 (s / 3600) +:+ ":" +:+ pad_digits 2 (s / 60 mod 60) +:+
    ":" +:+ pad_digits 2 (s mod 60) +:+ (if negb (0 =? 0) then "." +:+ pad_digits 6 0 else "") +:+ iso_offset 0 =
    (date_text y m d +:+ "T" +:+ short_text (s / 3600) (s / 60 mod 60) (s mod 60)) +:+ "+00:00") as ->.
  { unfold date_text, short_text. by rewrite !app_assoc_str. }
  assert (str_forallb no_mark (date_text y m d +:+ "T" +:+ short_text (s / 3600) (s / 60 mod 60) (s mod 60)) = true) as Hnm.
  { unfold date_text, short_text. by rewrite !str_forallb_app, !pad_no_mark. }
  rewrite zulu_text, replace_Z_text by done. rewrite !app_assoc_str.
  rewrite (fromisoformat_clock y m d _ (s / 3600) (s / 60 mod 60) (s mod 60) 0 true); [|done..|apply short_text_plain|apply (parse_short_text false); lia].
  rewrite Hn. by rewrite <- Heq.
Qed.

(** ** Canonical timestamps compare as strings as their instants do *)

Definition then_cmp (c d : comparison) : comparison := match c with Eq => d | _ => c end.

Lemma ascii_digit_compare d d' : 0 ≤ d < 10 → 0 ≤ d' < 10 →
  Ascii.compare (ascii_of_nat (Z.to_nat (48 + d))) (ascii_of_nat (Z.to_nat (48 + d'))) = (d ?= d').
Proof.
  intros Hd Hd'. assert (d ∈ [0; 1; 2; 3; 4; 5; 6; 7; 8; 9]) as Hin by (rewrite !elem_of_cons; lia).
  assert (d' ∈ [0; 1; 2; 3; 4; 5; 6; 7; 8; 9]) as Hin' by (rewrite !elem_of_cons; lia).
  repeat (apply elem_of_cons in Hin as [-> | Hin]);
    [..|by apply elem_of_nil in Hin]; clear Hd Hd';
    repeat (apply elem_of_cons in Hin' as [-> | Hin']; [by vm_compute|]); by apply elem_of_nil in Hin'.
Qed.

Lemma compare_div_mod n n' : (n ?= n') = then_cmp (n / 10 ?= n' / 10) (n mod 10 ?= n' mod 10).
Proof.
  destruct (Z.compare_spec (n / 10) (n' / 10)); cbn [then_cmp].
  - destruct (Z.compare_spec (n mod 10) (n' mod 10)); [apply Z.compare_eq_iff|apply Z.compare_lt_iff|apply Z.compare_gt_iff];
      Z.to_euclidean_division_equations; lia.
  - apply Z.compare_lt_iff. Z.to_euclidean_division_equations; lia.
  - apply Z.compare_gt_iff. Z.to_euclidean_division_equations; lia.
Qed.

Lemma compare_cons_str x y a b : String.compare (String x a) (String y b) = then_cmp (Ascii.compare x y) (String.compare a b).
Proof. cbn. by destruct (Ascii.compare x y). Qed.

Lemma compare_pad k n n' a b : 0 ≤ n < 10 ^ Z.of_nat k → 0 ≤ n' < 10 ^ Z.of_nat k →
  String.compare (pad_digits k n +:+ a) (pad_digits k n' +:+ b) = then_cmp (n ?= n') (String.compare a b).
Proof.
  revert n n' a b. induction k as [|k IH]; intros n n' a b Hn Hn'; cbn [pad_digits].
  - assert (n = n') as -> by (cbn in *; lia). by rewrite Z.compare_refl.
  - rewrite Nat2Z.inj_succ, Z.pow_succ_r in Hn, Hn' by lia. rewrite !app_assoc_str.
    rewrite IH by (Z.to_euclidean_division_equations; lia). rewrite !cons_app_str, compare_cons_str.
    rewrite ascii_digit_compare by (Z.to_euclidean_division_equations; lia).
    rewrite (compare_div_mod n n'). by destruct (n / 10 ?= n' / 10), (n mod 10 ?= n' mod 10).
Qed.

Lemma days_before_next y : days_before_year (y + 1) = days_before_year y + year_length y.
Proof.
  unfold days_before_year, year_length, is_leap.
  destruct (y mod 4 =? 0) eqn:E4, (y mod 100 =? 0) eqn:E1, (y mod 400 =? 0) eqn:E0; cbn; bool_inv;
    Z.to_euclidean_division_equations; lia.
Qed.
Lemma days_before_mono y y' : y < y' → days_before_year y + year_length y ≤ days_before_year y'.
Proof. intros Hy. rewrite <- days_before_next. unfold days_before_year. Z.to_euclidean_division_equations; lia. Qed.

Lemma month_in m : 1 ≤ m ≤ 12 → m ∈ [1; 2; 3; 4; 5; 6; 7; 8; 9; 10; 11; 12].
Proof. intros Hm. rewrite !elem_of_cons. lia. Qed.
Ltac each_month H := apply month_in in H; repeat (apply elem_of_cons in H as [-> | H]); [..|by apply elem_of_nil in H].

Lemma months_total y m : 1 ≤ m ≤ 12 → days_before_month y m + days_in_month y m ≤ year_length y.
Proof. intros Hm. unfold days_before_month, days_in_month, year_length. each_month Hm; by destruct (is_leap y). Qed.
Lemma months_mono y m m' : 1 ≤ m ≤ 12 → 1 ≤ m' ≤ 12 → m < m' → days_before_month y m + days_in_month y m ≤ days_before_month y m'.
Proof.
  intros Hm Hm' Hlt. unfold days_before_month, days_in_month.
  each_month Hm; each_month Hm'; first [done|by destruct (is_leap y)].
Qed.
Lemma days_before_month_nonneg y m : 1 ≤ m ≤ 12 → 0 ≤ days_before_month y m.
Proof. intros Hm. unfold days_before_month, days_in_month. each_month Hm; by destruct (is_leap y). Qed.

Lemma day_number_compare y m d y' m' d' : valid_date y m d = true → valid_date y' m' d' = true →
  (day_number y m d ?= day_number y' m' d') = then_cmp (y ?= y') (then_cmp (m ?= m') (d ?= d')).
Proof.
  intros Hv Hv'. unfold valid_date in *. bool_inv. unfold day_number.
  assert (1 ≤ m ≤ 12) as Hm by lia. assert (1 ≤ m' ≤ 12) as Hm' by lia.
  pose proof (months_total y m Hm). pose proof (months_total y' m' Hm').
  pose proof (days_before_month_nonneg y m Hm). pose proof (days_before_month_nonneg y' m' Hm').
  destruct (Z.compare_spec y y') as [-> | Hlt | Hlt]; cbn [then_cmp].
  - destruct (Z.compare_spec m m') as [-> | Hlt | Hlt]; cbn [then_cmp].
    + destruct (Z.compare_spec d d'); [apply Z.compare_eq_iff|apply Z.compare_lt_iff|apply Z.compare_gt_iff]; lia.
    + pose proof (months_mono y' m m' Hm Hm' Hlt). apply Z.compare_lt_iff. lia.
    + pose proof (months_mono y' m' m Hm' Hm Hlt). apply Z.compare_gt_iff. lia.
  - pose proof (days_before_mono y y' Hlt). apply Z.compare_lt_iff. lia.
  - pose proof (days_before_mono y' y Hlt). apply Z.compare_gt_iff. lia.
Qed.

Lemma compare_char_text c a b : String.compare (String c "" +:+ a) (String c "" +:+ b) = String.compare a b.
Proof.
  change (String c "" +:+ a) with (String c a). change (String c "" +:+ b) with (String c b). rewrite compare_cons_str.
  assert (Ascii.compare c c = Eq) as -> by (unfold Ascii.compare; apply N.compare_refl). done.
Qed.

Lemma clock_compare h m s f h' m' s' f' :
  0 ≤ m < 60 → 0 ≤ s < 60 → 0 ≤ f < 1000000 → 0 ≤ m' < 60 → 0 ≤ s' < 60 → 0 ≤ f' < 1000000 →
  (clock_us (h, m, s, f) ?= clock_us (h', m', s', f')) =
  then_cmp (h ?= h') (then_cmp (m ?= m') (then_cmp (s ?= s') (f ?= f'))).
Proof.
  intros. unfold clock_us.
  destruct (Z.compare_spec h h') as [-> | |]; cbn [then_cmp]; [|apply Z.compare_lt_iff; lia|apply Z.compare_gt_iff; lia].
  destruct (Z.compare_spec m m') as [-> | |]; cbn [then_cmp]; [|apply Z.compare_lt_iff; lia|apply Z.compare_gt_iff; lia].
  destruct (Z.compare_spec s s') as [-> | |]; cbn [then_cmp]; [|apply Z.compare_lt_iff; lia|apply Z.compare_gt_iff; lia].
  destruct (Z.compare_spec f f'); [apply Z.compare_eq_iff|apply Z.compare_lt_iff|apply Z.compare_gt_iff]; lia.
Qed.

Lemma canonical_compare us us' : 0 ≤ us < max_us → 0 ≤ us' < max_us →
  String.compare (canonical_iso (utc_at us)) (canonical_iso (utc_at us')) = (us ?= us').
Proof.
  intros Hus Hus'. unfold canonical_iso. rewrite !iso_with_utc, !zulu_text by apply iso_parts_no_mark. unfold iso_parts.
  pose proof (clock_parts_spec us ltac:(lia)) as Hc. pose proof (clock_parts_spec us' ltac:(lia)) as Hc'.
  pose proof (civil_of_day_spec (us / day_us) ltac:(unfold max_us, day_us in *; Z.to_euclidean_division_equations; lia)) as Hd.
  pose proof (civil_of_day_spec (us' / day_us) ltac:(unfold max_us, day_us in *; Z.to_euclidean_division_equations; lia)) as Hd'.
  destruct (civil_of_day _) as [[y m] d], (civil_of_day (us' / _)) as [[y' m'] d'].
  destruct (clock_parts us) as [[[h mi] s] f], (clock_parts us') as [[[h' mi'] s'] f'].
  destruct Hc as (Hh & Hm & Hs & Hf & Heq), Hc' as (Hh' & Hm' & Hs' & Hf' & Heq'), Hd as [Hv Hn], Hd' as [Hv' Hn'].
  pose proof (day_number_compare _ _ _ _ _ _ Hv Hv') as Hdc. rewrite Hn, Hn' in Hdc.
  pose proof (clock_compare h mi s f h' mi' s' f' Hm Hs Hf Hm' Hs' Hf') as Hcc.
  pose proof (days_in_month_bound y m). pose proof (days_in_month_bound y' m').
  pose proof Hv as Hr. pose proof Hv' as Hr'. unfold valid_date in Hr, Hr'. bool_inv.
  unfold date_text, time_text. rewrite !app_assoc_str.
  rewrite compare_pad, compare_char_text, compare_pad, compare_char_text, compare_pad, compare_char_text,
    compare_pad, compare_char_text, compare_pad, compare_char_text, compare_pad, compare_char_text, compare_pad by pow10.
  change (String.compare "Z" "Z") with Eq.
  assert ((us ?= us') = then_cmp (us / day_us ?= us' / day_us) (clock_us (h, mi, s, f) ?= clock_us (h', mi', s', f'))) as ->.
  { assert (0 ≤ clock_us (h, mi, s, f) < day_us ∧ 0 ≤ clock_us (h', mi', s', f') < day_us) as [B B'] by (unfold clock_us, day_us; lia).
    destruct (Z.compare_spec (us / day_us) (us' / day_us)) as [Hq | |]; cbn [then_cmp].
    - destruct (Z.compare_spec (clock_us (h, mi, s, f)) (clock_us (h', mi', s', f'))); [apply Z.compare_eq_iff|apply Z.compare_lt_iff|apply Z.compare_gt_iff]; rewrite Hq in Heq; lia.
    - apply Z.compare_lt_iff. rewrite Heq, Heq'. unfold day_us in *. nia.
    - apply Z.compare_gt_iff. rewrite Heq, Heq'. unfold day_us in *. nia. }
  rewrite Hdc, Hcc. by destruct (y ?= y'), (m ?= m'), (d ?= d'), (h ?= h'), (mi ?= mi'), (s ?= s'), (f ?= f').
Qed.

(** The timestamps the fleet writes, UTC with six fractional digits and a
    [Z], parse back to the instant they were written from, and compare as
    strings exactly as their instants do, in every year from 1 to 9999; this is
    what makes the store's comparison of expiry strings a comparison of times. *)
Theorem canonical_timestamps us us' : 0 ≤ us < max_us → 0 ≤ us' < max_us →
  parse_z (canonical_iso (utc_at us)) = Some (utc_at us) ∧
  String.compare (canonical_iso (utc_at us)) (canonical_iso (utc_at us')) = (us ?= us').
Proof. intros Hus Hus'. split; [by apply parse_canonical|by apply canonical_compare]. Qed.
Lemma canonical_timestamps_witness :
  parse_z "2024-02-29T23:59:59.999999Z" = Some (utc_at 63844847999999999) ∧
  String.compare "2024-02-29T23:59:59.999999Z" "2024-03-01T00:00:00.000000Z" = Lt.
Proof.
  exact (canonical_timestamps 63844847999999999 63844848000000000 ltac:(unfold max_us, day_us; lia) ltac:(unfold max_us, day_us; lia)).
Defined.
