(* ===== verification/RunStore.v ===== *)
(** * The run store: [run_store.py]

    A run is a directory with two slots, the primary snapshot and its backup;
    a slot holds the JSON value its text decodes to ([reload]: dictionaries
    come back with sorted keys, tuples as lists).  An operation reads the best
    valid snapshot under the store's lock, changes a copy, seals it with its
    checksum and replaces the slots one after the other.  Operations are
    functions from the disk to the new disk and their result, or the exception;
    the clock readings and the random tokens an operation draws are arguments,
    in the order they are drawn.  The lock makes operations atomic; operating
    system failures appear only as the crash points of [_write].  Identifiers
    are strings, as the signatures say. *)

From stdpp Require Import strings list.
From S2P Require Import Prelude PyStr PyNum PyVal Regex Sha256 IsoTime.

Open Scope string_scope.

Inductive store_error : Type :=
| RunStoreError (msg : string)
| RunNotFoundError
| OwnerMismatchError (msg : string)
| GenerationConflictError
| LeaseError (msg : string)
| DuplicateCommitError
| PathContainmentError (msg : string)
| CorruptSnapshotError
| SchedulerError (msg : string)
| OwnershipConflict
| CapacityExceeded
| ContractValidationError
| PyTypeError
| PyAttributeError
| PyKeyError
| PyValueError
| PyOverflowError.
#[export] Instance store_error_eq_dec : EqDecision store_error.
Proof. solve_decision. Defined.

Notation sres := (res store_error).
Notation dict := (list (pyval * pyval)).

(** What the store asks of the plan contract ([contracts.py]): the canonical
    form of a plan and its hash, [None] when the plan is rejected. *)
Class PlanIdentity : Type := {
  canonicalize : pyval → option pyval;
  plan_hash : pyval → option string;
  canonicalize_dict : ∀ v w, canonicalize v = Some w → ∃ kvs, w = VDict kvs;
  plan_hash_some : ∀ v, is_Some (plan_hash v) ↔ is_Some (canonicalize v) }.

(** ** Constants *)

Definition _ID (s : string) : bool := ident is_alnum (λ c, is_alnum c || one_of "_.-" c) None s.
Definition _STATUSES : list string := ["created"; "running"; "completed"; "failed"; "cancelled"; "blocked"].
Definition _TASK_STATUSES : list string := _STATUSES ++ ["pending"; "ready"; "orphaned"; "skipped"].
Definition _TERMINAL_TASK_STATUSES : list string := ["completed"; "failed"; "blocked"; "cancelled"; "orphaned"; "skipped"].
Definition _TERMINAL_RUN_STATUSES : list string := ["completed"; "failed"; "cancelled"].
Definition _REPORT_STATUSES : list string := ["completed"; "failed"; "blocked"].
Definition _REPORT_FIELDS : list string :=
  ["status"; "outputs"; "evidence"; "tests"; "validation"; "decision"; "started_at"; "completed_at"; "reason"; "error"; "blocker"].
Definition schema_version : string := "pd-fleet-run:v2".
Definition _STRUCTURAL : list string :=
  ["schema_version"; "run_id"; "plan_hash"; "plan"; "generation"; "owner"; "event_sequence"; "updated_at"; "checksum"].
Definition _COLLECTIONS : list string :=
  ["waves"; "tasks"; "leases"; "attempts"; "checkpoints"; "reports"; "events"; "gates"; "metrics"; "audit"].
Definition _FIELDS : list string :=
  ["schema_version"; "run_id"; "plan_hash"; "plan"; "generation"; "owner"; "status"] ++ _COLLECTIONS ++
  ["event_sequence"; "updated_at"; "checksum"].
Definition _LEASE_KEYS : list string := ["owner"; "lease_id"; "expires_at"; "generation"].
Definition _RECORD_KEYS : list string := ["status"; "report"; "digest"; "attempt"; "lease_id"; "lease_generation"].
Definition _TOKEN_KEYS : list string := ["run_id"; "task_id"; "lease_id"; "generation"; "expires_at"].

(** ** Patterns *)

Definition key_sep : re := ropt (rchr "_ -").
Definition _SENSITIVE : re :=
  ralt [rlit_ci "token"; rlit_ci "secret"; rlit_ci "password"; rlit_ci "credential";
        rseq [rlit_ci "api"; key_sep; rlit_ci "key"]; rlit_ci "authorization";
        rseq [rlit_ci "private"; key_sep; rlit_ci "key"]].
Definition _SECRET_TEXT : re :=
  rseq [RGroup 1 (ralt [rseq [rlit_ci "bearer"; rplus rspace];
                        rseq [ralt [rlit_ci "token"; rlit_ci "secret"; rlit_ci "password";
                                    rseq [rlit_ci "api"; key_sep; rlit_ci "key"]; rlit_ci "authorization"];
                              rstar rspace; rchr ":="; rstar rspace]]);
        rplus rnonspace].
Definition _URL : re :=
  rseq [ralt [rseq [rlit_ci "http"; ropt (RChar (ci (Ascii.eqb "s")))]; rlit_ci "ftp";
              rseq [rlit_ci "ws"; ropt (RChar (ci (Ascii.eqb "s")))]];
        rlit "://"; rplus (RChar (cneg (λ c, is_space c || one_of "'<>" c || Ascii.eqb dquote c)))].
Definition _PATH_TEXT : re :=
  let tail := rplus (RChar (cneg (λ c, is_space c || one_of ",;" c))) in
  rseq [RNotAfter (λ c, is_word c || one_of "." c);
        ralt [rseq [rchr "~"; rchr "/\"; tail]; rseq [rchr "/"; tail];
              rseq [RChar is_alpha; rchr ":"; rchr "/\"; tail]; rseq [rlit "\\"; tail]]].

(** ** Helpers *)

Definition str_leb (a b : string) : bool := String.leb a b.
Definition str_ltb (a b : string) : bool := negb (String.leb b a).

(** [v in frozenset(l)]: an unhashable value raises. *)
Fixpoint hashable (v : pyval) : bool :=
  match v with
  | VList _ | VDict _ | VProxy _ => false
  | VTuple l => forallb hashable l
  | _ => true
  end.
Definition str_in (v : pyval) (l : list string) : bool :=
  match v with VStr s => bool_decide (s ∈ l) | _ => false end.
Definition in_set (v : pyval) (l : list string) : sres bool :=
  if hashable v then Ok (str_in v l) else Err PyTypeError.

(** [any(f(x) for x in l)] *)
Fixpoint anyM {A} (f : A → sres bool) (l : list A) : sres bool :=
  match l with
  | [] => Ok false
  | x :: l' => b ← f x; if b : bool then Ok true else anyM f l'
  end.

(** [set(d) == set(ks)] *)
Definition same_keys (ks : list string) (d : dict) : bool := forallb (λ k, dhas k d) ks && negb (has_unknown ks d).

Definition str_is (p : string → bool) (v : pyval) : bool := match v with VStr s => p s | _ => false end.
Definition nat_int (v : pyval) : bool := match v with VInt z => (0 <=? z)%Z | _ => false end.
Definition pos_int (v : pyval) : bool := match v with VInt z => (1 <=? z)%Z | _ => false end.
Definition is_dict (v : pyval) : bool := match v with VDict _ => true | _ => false end.
Definition is_dict_or_list (v : pyval) : bool := match v with VDict _ | VList _ => true | _ => false end.

(** Iteration over a decoded dictionary or list; [d.values()] and [d.items()]. *)
Definition iter (v : pyval) : list pyval :=
  match v with VDict kvs => map fst kvs | VList l => l | _ => [] end.
Definition items_of (v : pyval) : sres dict := match v with VDict kvs => Ok kvs | _ => Err PyAttributeError end.

(** The dictionary field [k] of a valid snapshot, and its update. *)
Definition fld (k : string) (s : dict) : dict := match dget k s with Some (VDict l) => l | _ => [] end.
Definition set_fld (k : string) (l : dict) (s : dict) : dict := dset k (VDict l) s.
Definition int_fld (k : string) (s : dict) : Z := match dget k s with Some (VInt z) => z | _ => 0 end.
Definition str_fld (k : string) (s : dict) : string := match dget k s with Some (VStr t) => t | _ => "" end.

Definition json_exn (e : json_error) : store_error := match e with JsonNaN => PyValueError | _ => PyTypeError end.
(** [hashlib.sha256(json.dumps(v, ...).encode()).hexdigest()] *)
Definition json_digest (v : pyval) : sres string := sha256_hex <$> map_err json_exn (json_dumps v).

(** ** Time and identifiers *)

Definition clock_error : store_error := RunStoreError "clock must return an ISO-8601 UTC string".
Definition _clock_value (v : pyval) : sres string :=
  match v with
  | VStr s => match parse_z s with
              | Some t => if is_utc t then Ok s else Err clock_error
              | None => Err clock_error
              end
  | _ => Err clock_error
  end.

(** [type(x) in (int, float) and math.isfinite(x) and x > 0] *)
Definition lease_duration (v : pyval) : sres pynum :=
  let bad := LeaseError "lease duration must be positive" in
  match v with
  | VInt z => match float_of_Z z with
              | None => Err PyOverflowError
              | Some _ => if (z <=? 0)%Z then Err bad else Ok (NInt z)
              end
  | VFloat f => if is_finite f && num_ltb (NInt 0) (NFloat f) then Ok (NFloat f) else Err bad
  | _ => Err bad
  end.

Definition _plus_seconds (value : string) (seconds : pyval) : sres string :=
  x ← lease_duration seconds;
  match parse_z value with
  | None => Err (RunStoreError "invalid clock")
  | Some t => match timedelta_us x ≫= plus_delta t with
              | None => Err PyOverflowError
              | Some t' => Ok (zulu (iso_with true t'))
              end
  end.

Definition _safe_id (v : pyval) : sres string :=
  match v with
  | VStr s => if nonempty s && negb (bool_decide (s ∈ ["."; ".."])) && _ID s
              then Ok s else Err (PathContainmentError "unsafe run identifier")
  | _ => Err (PathContainmentError "unsafe run identifier")
  end.

(** ** Redaction *)

Definition redact_text (s : string) : string :=
  let s := sub _URL (λ _, "[URL REDACTED]") s in
  let s := sub _PATH_TEXT (λ _, "[PATH REDACTED]") s in
  sub _SECRET_TEXT (λ m, group 1 m +:+ "[REDACTED]") s.

Fixpoint _redact (v : pyval) : sres pyval :=
  match v with
  | VDict kvs | VProxy kvs =>
      l ← mapM (λ kv, match kv.1 with
                      | VStr k => if search _SENSITIVE k then Ok (VStr k, VStr "[REDACTED]")
                                  else w ← _redact kv.2; Ok (VStr k, w)
                      | _ => Err (RunStoreError "payload mapping keys must be strings")
                      end) kvs;
      Ok (VDict l)
  | VList l | VTuple l => l' ← mapM _redact l; Ok (VList l')
  | VStr s => Ok (VStr (redact_text s))
  | VFloat f => if is_finite f then Ok v else Err (RunStoreError "payload is not JSON-safe")
  | VOther _ => Err (RunStoreError "payload is not JSON-safe")
  | _ => Ok v
  end.

(** ** Reports, records, events and leases *)

(** [v not in (None, "", [], {})] *)
Definition meaningful (v : pyval) : bool :=
  match v with
  | VNone | VStr "" | VList [] | VDict [] | VProxy [] => false
  | _ => true
  end.
Definition got (k : string) (d : dict) : bool := meaningful (dget_or VNone k d).

Definition clock_ok (v : pyval) : bool := is_ok (_clock_value v).

Definition report_complete (d : dict) : bool :=
  got "outputs" d && got "evidence" d && (got "tests" d || got "validation" d) && got "decision" d &&
  dhas "started_at" d && dhas "completed_at" d.
Definition _valid_report (report : pyval) (status : string) : bool :=
  match entries report with
  | None => false
  | Some d =>
      negb (has_unknown _REPORT_FIELDS d) && str_is (λ s, bool_decide (s = status)) (dget_or VNone "status" d) &&
      forallb (λ k, match dget k d with Some v => clock_ok v | None => true end) ["started_at"; "completed_at"] &&
      (if bool_decide (status = "completed") then report_complete d
       else got "reason" d || got "error" d || got "blocker" d)
  end.

Definition digest_matches (report digest : pyval) : bool :=
  match json_digest report, digest with Ok h, VStr h' => bool_decide (h = h') | _, _ => false end.
Definition _valid_report_record (v : pyval) : sres bool :=
  match v with
  | VDict d =>
      if negb (same_keys _RECORD_KEYS d) then Ok false else
      let f k := dget_or VNone k d in
      known ← in_set (f "status") _REPORT_STATUSES;
      Ok (known &&
          match f "report" with VDict r => negb (has_unknown _REPORT_FIELDS r) | _ => false end &&
          pos_int (f "attempt") && str_is _ID (f "lease_id") && nat_int (f "lease_generation") &&
          str_is is_sha256_hex (f "digest") && digest_matches (f "report") (f "digest") &&
          match f "status" with VStr s => _valid_report (f "report") s | _ => false end)
  | _ => Ok false
  end.

Definition _valid_event (v : pyval) : bool :=
  match v with
  | VDict d =>
      let f k := dget_or VNone k d in
      pos_int (f "sequence") && str_is _ID (f "event_id") && str_is nonempty (f "ordering_key") &&
      match dget "generation" d with Some g => nat_int g | None => true end &&
      match dget "metadata" d with Some m => is_dict m | None => true end
  | _ => false
  end.

Definition lease_ok (kv : pyval * pyval) : bool :=
  str_is _ID kv.1 &&
  match kv.2 with
  | VDict d =>
      let f k := dget_or VNone k d in
      same_keys _LEASE_KEYS d && str_is _ID (f "owner") && str_is _ID (f "lease_id") &&
      is_str (f "expires_at") && nat_int (f "generation") && clock_ok (f "expires_at")
  | _ => false
  end.

(** [not isinstance(t, dict) or ("status" in t and t["status"] not in _TASK_STATUSES)] *)
Definition task_bad (v : pyval) : sres bool :=
  match v with
  | VDict d => match dget "status" d with
               | Some st => ok ← in_set st _TASK_STATUSES; Ok (negb ok)
               | None => Ok false
               end
  | _ => Ok true
  end.
Definition report_bad (kv : pyval * pyval) : sres bool :=
  if str_is _ID kv.1 then negb <$> _valid_report_record kv.2 else Ok true.

(** ** Snapshots *)

Definition _checksum (d : dict) : sres string := json_digest (VDict (dpop "checksum" d)).
Definition _seal (d : dict) : sres dict := c ← _checksum d; Ok (dset "checksum" (VStr c) d).

Section store.
Context `{PlanIdentity}.

Definition is_the (v : pyval) (m : sres string) : bool :=
  match m, v with Ok s, VStr t => bool_decide (s = t) | _, _ => false end.
Definition plan_matches (d : dict) : bool :=
  is_the (dget_or VNone "plan_hash" d)
    (match plan_hash (dget_or VNone "plan" d) with Some h => Ok h | None => Err ContractValidationError end).

Definition header_ok (d : dict) (rid : string) : bool :=
  let f k := dget_or VNone k d in
  str_is (λ s, bool_decide (s = schema_version)) (f "schema_version") && str_is (λ s, bool_decide (s = rid)) (f "run_id") &&
  nat_int (f "generation") && nat_int (f "event_sequence") && str_is _ID (f "owner").
Definition types_ok (d : dict) : bool :=
  let f k := dget_or VNone k d in
  is_dict (f "plan") && is_str (f "plan_hash") && forallb (λ k, is_dict_or_list (f k)) _COLLECTIONS.
Definition sequence_of (v : pyval) : Z := match v with VDict d => int_fld "sequence" d | _ => 0 end.

Definition contents_ok (d : dict) : sres bool :=
  let f k := dget_or VNone k d in
  if existsb (λ w, negb (is_dict w)) (iter (f "waves")) then Ok false else
  tasks ← items_of (f "tasks");
  bad ← anyM task_bad (map snd tasks);
  if bad : bool then Ok false else
  leases ← items_of (f "leases");
  if existsb (λ kv, negb (lease_ok kv)) leases then Ok false else
  attempts ← items_of (f "attempts");
  if existsb (λ kv, negb (nat_int kv.2)) attempts then Ok false else
  checkpoints ← items_of (f "checkpoints");
  if existsb (λ kv, negb (is_dict kv.2)) checkpoints then Ok false else
  reports ← items_of (f "reports");
  bad ← anyM report_bad reports;
  if bad : bool then Ok false else
  let events := iter (f "events") in
  if existsb (λ e, negb (_valid_event e)) events then Ok false else
  Ok (bool_decide (map sequence_of events = seqZ 1 (int_fld "event_sequence" d))).

Definition _validate (data : pyval) (rid : string) : sres bool :=
  match data with
  | VDict d =>
      let f k := dget_or VNone k d in
      if negb (same_keys _FIELDS d) then Ok false else
      if negb (header_ok d rid) then Ok false else
      known ← in_set (f "status") _STATUSES;
      if negb (known && is_str (f "updated_at")) then Ok false else
      if negb (types_ok d) then Ok false else
      if negb (plan_matches d && clock_ok (f "updated_at") && is_the (f "checksum") (_checksum d)) then Ok false else
      contents_ok d
  | _ => Ok false
  end.

(** ** The disk *)

Inductive slot : Type :=
| Absent
| Symlink
| Unreadable
| Json (v : pyval).
Record disk : Type := MkDisk { d_symlink : bool; primary : slot; backup : slot }.

Definition _dir (run_id : string) (d : disk) : sres unit :=
  _ ← _safe_id (VStr run_id);
  ensure (negb d.(d_symlink)) (PathContainmentError "run path escapes root").

Definition read_slot (run_id : string) (s : slot) : sres (option dict) :=
  match s with
  | Json (VDict kvs) => ok ← _validate (VDict kvs) run_id; Ok (if ok : bool then Some kvs else None)
  | _ => Ok None
  end.
Definition generation (s : dict) : Z := int_fld "generation" s.
(** [max(found, key=generation)]: the first of the largest. *)
Definition newest (p b : option dict) : option dict :=
  match p, b with
  | Some x, Some y => if (generation x <? generation y)%Z then Some y else Some x
  | Some x, None => Some x
  | None, _ => b
  end.

Definition _valid_snapshot (run_id : string) (d : disk) : sres (option dict) :=
  _ ← _dir run_id d;
  p ← read_slot run_id d.(primary);
  b ← read_slot run_id d.(backup);
  Ok (newest p b).

Definition is_symlink (s : slot) : bool := match s with Symlink => true | _ => false end.
Definition is_absent (s : slot) : bool := match s with Absent => true | _ => false end.

Definition load (run_id : string) (d : disk) : sres dict :=
  found ← _valid_snapshot run_id d;
  match found with
  | Some s => Ok s
  | None =>
      if is_symlink d.(primary) || is_symlink d.(backup) then Err (PathContainmentError "snapshot path is symlink")
      else if is_absent d.(primary) && is_absent d.(backup) then Err RunNotFoundError
      else Err CorruptSnapshotError
  end.

(** The disks a write goes through: before, after the backup is replaced,
    after the primary is. *)
Record write_steps : Type := MkWrite { w_backup : disk; w_done : disk }.
Definition _write_steps (run_id : string) (state : dict) (d : disk) : sres write_steps :=
  _ ← _dir run_id d;
  sealed ← _seal state;
  _ ← ensure (negb (is_symlink d.(primary) || is_symlink d.(backup))) (PathContainmentError "snapshot path is symlink");
  old ← read_slot run_id d.(primary);
  let b := match old with Some _ => d.(primary) | None => d.(backup) end in
  Ok (MkWrite (MkDisk false d.(primary) b) (MkDisk false (Json (reload (VDict sealed))) b)).
Definition _write (run_id : string) (state : dict) (d : disk) : sres disk := w_done <$> _write_steps run_id state d.

(** ** Creating a run *)

Definition initial_state (rid owner hash now : string) (canonical : pyval) : dict :=
  [(VStr "schema_version", VStr schema_version); (VStr "run_id", VStr rid); (VStr "plan_hash", VStr hash);
   (VStr "plan", canonical); (VStr "generation", VInt 0); (VStr "owner", VStr owner); (VStr "status", VStr "created");
   (VStr "waves", VList []); (VStr "tasks", VDict []); (VStr "leases", VDict []); (VStr "attempts", VDict []);
   (VStr "checkpoints", VDict []); (VStr "reports", VDict []); (VStr "events", VList []); (VStr "gates", VDict []);
   (VStr "metrics", VDict []); (VStr "audit", VList []); (VStr "event_sequence", VInt 0); (VStr "updated_at", VStr now)].

Definition _USER_FIELDS : list string := ["status"] ++ _COLLECTIONS.

(** [for k, v in redacted.items(): if k in state: state[k] = v] *)
Definition merge_initial (extra state : dict) : dict :=
  foldl (λ st kv, match kv.1 with VStr k => if dhas k st then dset k kv.2 st else st | _ => st end) state extra.
Definition apply_initial (initial : option pyval) (state : dict) : sres dict :=
  match initial with
  | None => Ok state
  | Some v =>
      match entries v with
      | None => Err (RunStoreError "initial state must be an object")
      | Some kvs =>
          if existsb (λ k, dhas k kvs) _STRUCTURAL then Err (RunStoreError "initial state contains structural fields")
          else if has_unknown _USER_FIELDS kvs then Err (RunStoreError "initial state contains unknown fields")
          else r ← _redact (VDict kvs); Ok (match r with VDict extra => merge_initial extra state | _ => state end)
      end
  end.

Definition create (run_id : string) (plan : pyval) (owner : string) (initial : option pyval) (clock : pyval)
    (d : disk) : sres (disk * dict) :=
  rid ← _safe_id (VStr run_id);
  _ ← map_err (λ _, OwnerMismatchError "owner required") (_safe_id (VStr owner));
  _ ← ensure (is_mapping plan) (RunStoreError "plan must be an object");
  canonical ← match canonicalize plan with Some c => Ok c | None => Err ContractValidationError end;
  now ← _clock_value clock;
  _ ← _dir rid d;
  _ ← ensure (is_absent d.(primary) && is_absent d.(backup)) (RunStoreError "run snapshot artifact already exists");
  hash ← match plan_hash plan with Some h => Ok h | None => Err ContractValidationError end;
  state ← apply_initial initial (initial_state rid owner hash now canonical);
  d' ← _write rid state d;
  sealed ← _seal state;
  Ok (d', sealed).

(** ** Reading and changing a run *)

Definition open_run (run_id owner : string) (d : disk) : sres dict :=
  found ← _valid_snapshot run_id d;
  match found with
  | None => Err RunNotFoundError
  | Some s => _ ← ensure (bool_decide (str_fld "owner" s = owner)) (OwnerMismatchError "run owner mismatch"); Ok s
  end.

(** [expected_generation is not None and (type(...) is not int or ... !=)] *)
Definition check_generation (expected : option pyval) (s : dict) : sres unit :=
  match expected with
  | None | Some VNone => Ok ()
  | Some (VInt g) => ensure (generation s =? g)%Z GenerationConflictError
  | Some _ => Err GenerationConflictError
  end.

Definition bump (s : dict) : dict := dset "generation" (VInt (generation s + 1)) s.
Definition stamp (now : string) (s : dict) : dict := dset "updated_at" (VStr now) s.

Definition _mutate {A} (run_id owner : string) (expected : option pyval) (fn : dict → sres (dict * A)) (clock : pyval)
    (d : disk) : sres (disk * dict * A) :=
  s ← open_run run_id owner d;
  _ ← check_generation expected s;
  '(candidate, a) ← fn s;
  now ← _clock_value clock;
  let candidate := stamp now (bump candidate) in
  d' ← _write run_id candidate d;
  Ok (d', candidate, a).

Definition transition (run_id status owner : string) (expected : option pyval) (clock : pyval) (d : disk)
    : sres (disk * dict) :=
  let change s :=
    _ ← ensure (bool_decide (status ∈ _STATUSES)) (RunStoreError "invalid status");
    let current := str_fld "status" s in
    if bool_decide (current ∈ _TERMINAL_RUN_STATUSES) && negb (bool_decide (current = status))
    then Err (RunStoreError ("run is terminal (" +:+ current +:+ "); " +:+ current +:+ " -> " +:+ status +:+ " is not allowed"))
    else Ok (dset "status" (VStr status) s, ()) in
  '(d', s, _) ← _mutate run_id owner expected change clock d; Ok (d', s).

(** The ids of the plan's tasks: [{item.get("id") for item in plan.get("tasks", [])}]. *)
Definition plan_ids (s : dict) : sres (list pyval) :=
  match dget_or (VList []) "tasks" (fld "plan" s) with
  | VList l =>
      mapM (λ item, let id := default VNone (vget "id" item) in if hashable id then Ok id else Err PyTypeError)
           (filter (λ item, is_mapping item = true) l)
  | VDict _ | VStr _ => Ok []
  | _ => Err PyTypeError
  end.
Definition known_task (task_id : string) (s : dict) : sres unit :=
  ids ← plan_ids s; ensure (existsb (str_is (λ i, bool_decide (i = task_id))) ids) (RunStoreError "unknown task id").

(** [s["tasks"].setdefault(task_id, {})["status"] = status] *)
Definition set_task_status (task_id status : string) (s : dict) : dict :=
  let tasks := fld "tasks" s in
  let entry := match dget task_id tasks with Some (VDict e) => e | _ => [] end in
  set_fld "tasks" (dset task_id (VDict (dset "status" (VStr status) entry)) tasks) s.
(** [s["leases"].pop(task_id, None)] *)
Definition drop_lease (task_id : string) (s : dict) : dict := set_fld "leases" (dpop task_id (fld "leases" s)) s.

Definition update_task_status (run_id task_id status owner : string) (expected : option pyval) (clock : pyval) (d : disk)
    : sres (disk * dict) :=
  _ ← _safe_id (VStr task_id);
  _ ← ensure (bool_decide (status ∈ _TASK_STATUSES)) (RunStoreError "invalid task status");
  let change s :=
    _ ← known_task task_id s;
    _ ← ensure (negb (dhas task_id (fld "reports" s))) (RunStoreError "cannot invalidate committed task");
    Ok (drop_lease task_id (set_task_status task_id status s), ()) in
  '(d', s, _) ← _mutate run_id owner expected change clock d;
  sealed ← _seal s;
  Ok (d', sealed).

(** ** Events *)

Definition events_of (s : dict) : list pyval := match dget "events" s with Some v => iter v | None => [] end.
(** [s["events"].append(e); s["event_sequence"] += 1] *)
Definition push_event (e : dict) (s : dict) : sres dict :=
  match dget "events" s with
  | Some (VList l) =>
      Ok (dset "event_sequence" (VInt (int_fld "event_sequence" s + 1)) (dset "events" (VList (l ++ [VDict e])) s))
  | _ => Err PyAttributeError
  end.

Definition is_text (t : string) (v : option pyval) : bool :=
  match v with Some (VStr s) => bool_decide (s = t) | _ => false end.
Definition canonical_event (task_id : string) (e : pyval) : bool :=
  match e with VDict d => is_text task_id (dget "event_id" d) && is_text task_id (dget "ordering_key" d) | _ => false end.
Definition terminal_event (task_id status : string) (seq : Z) : dict :=
  [(VStr "event_id", VStr task_id); (VStr "ordering_key", VStr task_id); (VStr "task_id", VStr task_id);
   (VStr "status", VStr status); (VStr "sequence", VInt seq)].

(** The result: whether the event was appended, the generation and the event. *)
Definition append_terminal_event_if_absent (run_id task_id owner : string) (expected : option pyval) (clock : pyval)
    (d : disk) : sres (disk * (bool * Z * pyval)) :=
  _ ← _safe_id (VStr task_id);
  s ← open_run run_id owner d;
  _ ← check_generation expected s;
  let record := match dget task_id (fld "reports" s) with Some (VDict r) => r | _ => [] end in
  let status := str_fld "status" record in
  _ ← ensure (bool_decide (status ∈ _REPORT_STATUSES)) (RunStoreError "terminal report required");
  match filter (λ e, canonical_event task_id e = true) (events_of s) with
  | e :: rest =>
      if existsb (λ e, match e with
                       | VDict x => is_text task_id (dget "task_id" x) && is_text status (dget "status" x)
                       | _ => false
                       end) (e :: rest)
      then Ok (d, (false, generation s, e))
      else Err (RunStoreError "conflicting terminal event")
  | [] =>
      let event := terminal_event task_id status (int_fld "event_sequence" s + 1) in
      candidate ← push_event event s;
      now ← _clock_value clock;
      let candidate := stamp now (bump candidate) in
      d' ← _write run_id candidate d;
      Ok (d', (true, generation candidate, VDict event))
  end.

(** The event [append_event] stores, without its sequence number. *)
Definition prepare_event (item : dict) : sres dict :=
  let supplied := match dget "ordering_key" item with Some v => v | None => dget_or VNone "event_id" item end in
  _ ← ensure (match dget "event_id" item with Some v => str_is nonempty v | None => true end)
        (RunStoreError "event event_id must be a nonempty string");
  _ ← ensure (is_none supplied || str_is nonempty supplied) (RunStoreError "event ordering_key must be a nonempty string");
  key ← (if is_none supplied
         then h ← json_digest (VDict (dpop "ordering_key" (dpop "event_id" (dpop "sequence" item)))); Ok (VStr h)
         else Ok supplied);
  Ok (dset "ordering_key" key (dsetdefault "event_id" key item)).

Definition append_event (run_id : string) (event : pyval) (owner : string) (expected : option pyval) (clock : pyval)
    (d : disk) : sres (disk * dict) :=
  _ ← ensure (is_mapping event) (RunStoreError "event must be an object");
  let add s :=
    r ← _redact event;
    item ← prepare_event (match r with VDict l => l | _ => [] end);
    s' ← push_event (dset "sequence" (VInt (int_fld "event_sequence" s + 1)) item) s;
    Ok (s', ()) in
  '(d', s, _) ← _mutate run_id owner expected add clock d; Ok (d', s).

(** ** Leases *)

Definition terminal_in (v : option pyval) : bool :=
  match v with Some (VDict e) => str_in (dget_or VNone "status" e) _TERMINAL_TASK_STATUSES | _ => false end.
Definition expires_at (lease : pyval) : string := match lease with VDict l => str_fld "expires_at" l | _ => "" end.
Definition lease_entry (owner lease_id expiry : string) (gen : Z) : dict :=
  [(VStr "owner", VStr owner); (VStr "lease_id", VStr lease_id); (VStr "expires_at", VStr expiry); (VStr "generation", VInt gen)].
Definition lease_token (run_id task_id lease_id expiry : string) (gen : Z) : pyval :=
  VDict [(VStr "run_id", VStr run_id); (VStr "task_id", VStr task_id); (VStr "lease_id", VStr lease_id);
         (VStr "generation", VInt gen); (VStr "expires_at", VStr expiry)].

(** A lease and one more attempt for a task. *)
Definition install_lease (owner task_id lease_id expiry : string) (gen : Z) (s : dict) : dict :=
  let s := set_fld "leases" (dset task_id (VDict (lease_entry owner lease_id expiry gen)) (fld "leases" s)) s in
  set_fld "attempts" (dset task_id (VInt (int_fld task_id (fld "attempts" s) + 1)) (fld "attempts" s)) s.

(** The change [claim] makes, [add] in the code. *)
Definition claim_add (run_id task_id owner : string) (lease_seconds clock : pyval) (token : string) (s : dict)
    : sres (dict * pyval) :=
  _ ← known_task task_id s;
  _ ← ensure (negb (terminal_in (dget task_id (fld "tasks" s)) || terminal_in (dget task_id (fld "reports" s))))
        (RunStoreError "cannot claim terminal task");
  now ← _clock_value clock;
  _ ← ensure (match dget task_id (fld "leases" s) with Some l => negb (str_ltb now (expires_at l)) | None => true end)
        (LeaseError "task already leased");
  expiry ← _plus_seconds now lease_seconds;
  Ok (install_lease owner task_id token expiry (generation s + 1) s,
      lease_token run_id task_id token expiry (generation s + 1)).
Definition claim (run_id task_id owner : string) (lease_seconds : pyval) (expected : option pyval)
    (clock : pyval) (token : string) (clock' : pyval) (d : disk) : sres (disk * pyval) :=
  _ ← _safe_id (VStr task_id);
  '(d', _, t) ← _mutate run_id owner expected (claim_add run_id task_id owner lease_seconds clock token) clock' d; Ok (d', t).

(** [state["leases"]] without the leases that expired by [now]. *)
Definition expired (now : string) (kv : pyval * pyval) : bool := str_leb (expires_at kv.2) now.
Definition reclaim (now : string) (s : dict) : dict :=
  set_fld "leases" (filter (λ kv, expired now kv = false) (fld "leases" s)) s.

(** A selector receives the snapshot, the available ids, the capacity and the time. *)
Definition selector : Type := dict → list string → Z → string → sres pyval.

Fixpoint strings_of (l : list pyval) : option (list string) :=
  match l with
  | [] => Some []
  | VStr s :: l' => (s ::.) <$> strings_of l'
  | _ => None
  end.
Definition check_ids (task_ids : list pyval) : sres (list string) :=
  match strings_of task_ids with
  | Some ids => if forallb _ID ids && bool_decide (NoDup ids) then Ok ids else Err (RunStoreError "invalid task id")
  | None => Err (RunStoreError "invalid task id")
  end.
Definition check_choice (chosen : pyval) (available : list string) (capacity : Z) : sres (list string) :=
  let bad := Err (RunStoreError "invalid claim selection") in
  match chosen with
  | VList l =>
      if (capacity <? Z.of_nat (length l))%Z then bad else
      out ← anyM (λ v, negb <$> in_set v available) l;
      if out : bool then bad else
      match strings_of l with
      | Some ids => if bool_decide (NoDup ids) then Ok ids else bad
      | None => bad
      end
  | _ => bad
  end.
Definition terminal_ids (s : dict) : list string :=
  omap (λ kv, if terminal_in (Some kv.2) then as_str kv.1 else None) (fld "tasks" s) ++
  omap (λ kv, if terminal_in (Some kv.2) then as_str kv.1 else None) (fld "reports" s).

Definition install_all (owner expiry : string) (gen : Z) (grants : list (string * string)) (s : dict) : dict :=
  foldl (λ st g, install_lease owner g.1 g.2 expiry gen st) s grants.

(** [tokens] are the random tokens of the chosen tasks, in order. *)
Definition claim_many (run_id : string) (task_ids : list pyval) (owner : string) (max_parallel lease_seconds : pyval)
    (select : option selector) (clock : pyval) (tokens : list string) (clock' : pyval) (d : disk)
    : sres (disk * list pyval) :=
  mp ← match max_parallel with VInt z => if (z <? 1)%Z then Err (RunStoreError "max_parallel must be positive") else Ok z
                             | _ => Err (RunStoreError "max_parallel must be positive") end;
  _ ← lease_duration lease_seconds;
  ids ← check_ids task_ids;
  s ← open_run run_id owner d;
  known ← plan_ids s;
  _ ← ensure (forallb (λ t, existsb (str_is (λ i, bool_decide (i = t))) known) ids) (RunStoreError "unknown task id");
  _ ← ensure (forallb (λ t, negb (bool_decide (t ∈ terminal_ids s))) ids) (RunStoreError "cannot claim terminal task");
  now ← _clock_value clock;
  let reclaimed := existsb (expired now) (fld "leases" s) in
  let s := reclaim now s in
  let capacity := (mp - Z.of_nat (length (fld "leases" s)))%Z in
  _ ← ensure (0 <? capacity)%Z (RunStoreError "bounded capacity exceeded");
  let available := filter (λ t, dhas t (fld "leases" s) = false) ids in
  chosen ← match select with
           | Some f => f s available capacity now
           | None => Ok (VList (map VStr (take (Z.to_nat capacity) available)))
           end;
  chosen ← check_choice chosen available capacity;
  match chosen with
  | [] => if reclaimed then d' ← _write run_id (stamp now (bump s)) d; Ok (d', []) else Ok (d, [])
  | _ =>
      expiry ← _plus_seconds now lease_seconds;
      let gen := (generation s + 1)%Z in
      let grants := zip chosen tokens in
      now' ← _clock_value clock';
      d' ← _write run_id (stamp now' (bump (install_all owner expiry gen grants s))) d;
      Ok (d', map (λ g, lease_token run_id g.1 g.2 expiry gen) grants)
  end.

(** ** Tokens *)

Definition _validate_token_shape (s : dict) (task_id : string) (token : pyval) : sres dict :=
  match entries token with
  | Some t =>
      let f k := dget_or VNone k t in
      _ ← ensure (same_keys _TOKEN_KEYS t && py_eqb (f "run_id") (dget_or VNone "run_id" s) &&
                  str_is (λ i, bool_decide (i = task_id)) (f "task_id") && is_exact_int (f "generation") &&
                  is_str (f "lease_id") && is_str (f "expires_at")) (LeaseError "invalid lease");
      _ ← map_err (λ _, LeaseError "invalid lease") (_clock_value (f "expires_at"));
      Ok t
  | None => Err (LeaseError "invalid lease")
  end.

(** The token names the lease of the task. *)
Definition holds_lease (t lease : dict) : bool :=
  bool_decide (str_fld "lease_id" lease = str_fld "lease_id" t) && (int_fld "generation" lease =? int_fld "generation" t)%Z &&
  bool_decide (str_fld "expires_at" lease = str_fld "expires_at" t).
Definition _check_token (s : dict) (task_id : string) (token : pyval) (clock : pyval) : sres dict :=
  t ← _validate_token_shape s task_id token;
  now ← _clock_value clock;
  match dget task_id (fld "leases" s) with
  | Some (VDict lease) =>
      _ ← ensure (holds_lease t lease && negb (str_leb (str_fld "expires_at" lease) now)) (LeaseError "stale or expired lease");
      Ok lease
  | _ => Err (LeaseError "stale or expired lease")
  end.

Definition use (run_id task_id : string) (token : pyval) (owner : string) (clock : pyval) (d : disk) : sres dict :=
  s ← open_run run_id owner d; _ ← _check_token s task_id token clock; Ok s.

(** The change [renew] makes, [change] in the code. *)
Definition renew_change (run_id task_id : string) (token lease_seconds clock : pyval) (new_id : string) (s : dict)
    : sres (dict * pyval) :=
  now ← _clock_value clock;
  lease ← _check_token s task_id token clock;
  expiry ← _plus_seconds now lease_seconds;
  let gen := (generation s + 1)%Z in
  let lease' := dset "generation" (VInt gen) (dset "expires_at" (VStr expiry) (dset "lease_id" (VStr new_id) lease)) in
  Ok (set_fld "leases" (dset task_id (VDict lease') (fld "leases" s)) s, lease_token run_id task_id new_id expiry gen).
Definition renew (run_id task_id : string) (token : pyval) (owner : string) (lease_seconds : pyval)
    (clock : pyval) (new_id : string) (clock' : pyval) (d : disk) : sres (disk * pyval) :=
  _ ← lease_duration lease_seconds;
  '(d', _, t) ← _mutate run_id owner None (renew_change run_id task_id token lease_seconds clock new_id) clock' d; Ok (d', t).

(** ** Committing a report *)

Definition report_record (status : string) (report : dict) (digest : string) (attempt : Z) (lease_id : string) (gen : Z) : dict :=
  [(VStr "status", VStr status); (VStr "report", VDict report); (VStr "digest", VStr digest); (VStr "attempt", VInt attempt);
   (VStr "lease_id", VStr lease_id); (VStr "lease_generation", VInt gen)].
Definition prepare_report (report : pyval) (status : string) : sres (dict * string) :=
  _ ← ensure (bool_decide (status ∈ _REPORT_STATUSES)) (RunStoreError "commit status must be terminal");
  _ ← ensure (is_mapping report) (RunStoreError "report must be an object");
  safe ← _redact report;
  _ ← ensure (_valid_report safe status) (RunStoreError "incomplete or invalid terminal report");
  digest ← json_digest safe;
  Ok (match safe with VDict l => l | _ => [] end, digest).

Definition committed (t : dict) (status : string) (safe : dict) (digest : string) (task_id : string) (s : dict) : dict :=
  let attempt := match dget task_id (fld "attempts" s) with Some (VInt n) => n | _ => 1%Z end in
  let record := report_record status safe digest attempt (str_fld "lease_id" t) (int_fld "generation" t) in
  let s := set_fld "reports" (dset task_id (VDict record) (fld "reports" s)) s in
  drop_lease task_id (set_task_status task_id status s).

Definition commit (run_id task_id : string) (token : pyval) (owner : string) (report : pyval) (status : string)
    (clock : pyval) (clock' : pyval) (d : disk) : sres (disk * dict) :=
  '(safe, digest) ← prepare_report report status;
  s ← open_run run_id owner d;
  t ← _validate_token_shape s task_id token;
  match dget task_id (fld "reports" s) with
  | Some existing =>
      let x := match existing with VDict x => x | _ => [] end in
      _ ← ensure (bool_decide (str_fld "lease_id" x = str_fld "lease_id" t) &&
                  (int_fld "lease_generation" x =? int_fld "generation" t)%Z) (LeaseError "stale or invalid lease");
      if bool_decide (str_fld "digest" x = digest) && bool_decide (str_fld "status" x = status)
      then Ok (d, s) else Err DuplicateCommitError
  | None =>
      _ ← _check_token s task_id token clock;
      now ← _clock_value clock';
      let candidate := stamp now (bump (committed t status safe digest task_id s)) in
      d' ← _write run_id candidate d;
      Ok (d', candidate)
  end.

(** ** Queries *)

Definition event_key (e : pyval) : string * Z :=
  match e with VDict x => (str_fld "ordering_key" x, int_fld "sequence" x) | _ => ("", 0) end.
Definition event_leb (a b : pyval) : bool :=
  let '(k, n) := event_key a in let '(k', n') := event_key b in
  str_ltb k k' || (bool_decide (k = k') && (n <=? n')%Z).
Definition query (run_id : string) (key : option string) (d : disk) : sres pyval :=
  s ← load run_id d;
  Ok (match key with
      | None => VDict s
      | Some k => if bool_decide (k = "events") then VList (sort_by event_leb (events_of s)) else dget_or VNone k s
      end).
End store.
