(* ===== verification/RunStoreFacts.v ===== *)
(** * The run store: lemmas on snapshots, writes and operations

    What a valid snapshot says ([contents], [pre_valid]); what reading back
    keeps ([good]); what a write leaves on the disk ([write_steps_ok]); what
    each operation changes ([change_ok] and the [*_step] lemmas). *)

From stdpp Require Import strings list.
From S2P Require Import Prelude PyStr PyNum PyVal Regex Sha256 IsoTime RunStore.

Open Scope string_scope.

(** * Facts *)

(** ** Fields under updates *)

Lemma dget_or_dset k k' v d : dget_or VNone k (dset k' v d) = if bool_decide (k' = k) then v else dget_or VNone k d.
Proof. unfold dget_or. rewrite dget_dset. by case_bool_decide. Qed.
Lemma dhas_dset k k' v d : dhas k (dset k' v d) = bool_decide (k' = k) || dhas k d.
Proof. unfold dhas. rewrite dget_dset. by case_bool_decide. Qed.
Lemma has_unknown_dset ks k v d : k ∈ ks → has_unknown ks d = false → has_unknown ks (dset k v d) = false.
Proof.
  rewrite !has_unknown_false. intros Hk Hd kv [->|Hin]%elem_of_dset; [by exists k|by apply Hd].
Qed.
Lemma same_keys_dset ks k v d : k ∈ ks → same_keys ks d = true → same_keys ks (dset k v d) = true.
Proof.
  intros Hk. unfold same_keys. rewrite !andb_true_iff, !negb_true_iff, !forallb_true_iff. intros [Hall Hun]. split.
  - intros x Hx. rewrite dhas_dset, (Hall x Hx). by rewrite orb_true_r.
  - by apply has_unknown_dset.
Qed.
Lemma same_keys_reload ks d : same_keys ks (reload_dict d) = same_keys ks d.
Proof.
  unfold same_keys. rewrite has_unknown_reload. f_equal.
  induction ks as [|k ks IH]; cbn; [done|]. by rewrite dhas_reload, IH.
Qed.
Lemma fld_set_fld k k' l s : fld k (set_fld k' l s) = if bool_decide (k' = k) then l else fld k s.
Proof. unfold fld, set_fld. rewrite dget_dset. by case_bool_decide. Qed.
Lemma int_fld_dset k k' v s :
  int_fld k (dset k' v s) = if bool_decide (k' = k) then match v with VInt z => z | _ => 0%Z end else int_fld k s.
Proof. unfold int_fld. rewrite dget_dset. by case_bool_decide. Qed.

(** ** [any] *)

Lemma anyM_false {A} (f : A → sres bool) l : anyM f l = Ok false ↔ ∀ x, x ∈ l → f x = Ok false.
Proof.
  induction l as [|x l IH]; cbn; [split; [set_solver|done]|]. split.
  - intros (b & Hb & Hrest)%bind_ok. destruct b; [discriminate|]. intros y [->|Hy]%elem_of_cons; [done|]. by apply IH.
  - intros Hall. apply bind_ok. exists false. split; [apply Hall; left|]. apply IH. intros y Hy. apply Hall. by right.
Qed.

(** ** What validation says *)

Section valid.
Context `{PlanIdentity}.

(** The contents of a valid snapshot. *)
Record contents (d : dict) : Prop := {
  c_waves : ∀ w, w ∈ iter (dget_or VNone "waves" d) → is_dict w = true;
  c_tasks : ∃ l, dget "tasks" d = Some (VDict l) ∧ ∀ kv, kv ∈ l → task_bad kv.2 = Ok false;
  c_leases : ∃ l, dget "leases" d = Some (VDict l) ∧ ∀ kv, kv ∈ l → lease_ok kv = true;
  c_attempts : ∃ l, dget "attempts" d = Some (VDict l) ∧ ∀ kv, kv ∈ l → nat_int kv.2 = true;
  c_checkpoints : ∃ l, dget "checkpoints" d = Some (VDict l) ∧ ∀ kv, kv ∈ l → is_dict kv.2 = true;
  c_reports : ∃ l, dget "reports" d = Some (VDict l) ∧ ∀ kv, kv ∈ l → report_bad kv = Ok false;
  c_events : ∀ e, e ∈ iter (dget_or VNone "events" d) → _valid_event e = true;
  c_sequence : map sequence_of (iter (dget_or VNone "events" d)) = seqZ 1 (int_fld "event_sequence" d) }.

Lemma items_of_ok k d l : items_of (dget_or VNone k d) = Ok l ↔ dget k d = Some (VDict l).
Proof. unfold dget_or. destruct (dget k d) as [[]|]; cbn; split; intros Hx; try discriminate; by injection Hx as ->. Qed.

Lemma existsb_negb_false {A} (p : A → bool) l : existsb (λ x, negb (p x)) l = false ↔ ∀ x, x ∈ l → p x = true.
Proof. rewrite existsb_false_iff. by setoid_rewrite negb_false_iff. Qed.

Lemma if_false_ok (b : bool) (m : sres bool) : (if b then Ok false else m) = Ok true ↔ b = false ∧ m = Ok true.
Proof. destruct b; naive_solver. Qed.

Lemma contents_ok_spec d : contents_ok d = Ok true ↔ contents d.
Proof.
  unfold contents_ok. rewrite if_false_ok, existsb_negb_false, bind_ok.
  setoid_rewrite items_of_ok. setoid_rewrite bind_ok.
  setoid_rewrite if_false_ok. setoid_rewrite bind_ok. setoid_rewrite items_of_ok.
  setoid_rewrite if_false_ok. setoid_rewrite existsb_negb_false. setoid_rewrite bind_ok. setoid_rewrite items_of_ok.
  setoid_rewrite if_false_ok. setoid_rewrite existsb_negb_false. setoid_rewrite bind_ok. setoid_rewrite items_of_ok.
  setoid_rewrite if_false_ok. setoid_rewrite existsb_negb_false. setoid_rewrite bind_ok. setoid_rewrite items_of_ok.
  setoid_rewrite bind_ok. setoid_rewrite if_false_ok. setoid_rewrite if_false_ok. setoid_rewrite existsb_negb_false.
  split.
  - intros (Hw & ts & Ht & b & Hb & -> & ls & Hl & Hl' & ats & Ha & Ha' & cs & Hc & Hc' & rs & Hr & b' & Hb' & -> & He & Hs).
    injection Hs as Hs. apply bool_decide_eq_true in Hs.
    assert (∀ kv, kv ∈ ts → task_bad kv.2 = Ok false) as Ht'.
    { intros kv Hkv. apply (proj1 (anyM_false _ _) Hb). apply list_elem_of_fmap. by exists kv. }
    split; [done|by exists ts|by exists ls|by exists ats|by exists cs| |done|done].
    exists rs. split; [done|]. by apply anyM_false.
  - intros [Hw (ts & Ht & Ht') (ls & Hl & Hl') (ats & Ha & Ha') (cs & Hc & Hc') (rs & Hr & Hr') He Hs].
    split; [done|]. exists ts. split; [done|]. exists false. split.
    { apply anyM_false. intros v (kv & -> & Hkv)%list_elem_of_fmap. by apply Ht'. }
    split; [done|]. exists ls. do 2 (split; [done|]). exists ats. do 2 (split; [done|]). exists cs. do 2 (split; [done|]).
    exists rs. split; [done|]. exists false. split; [by apply anyM_false|]. do 2 (split; [done|]). by rewrite bool_decide_true.
Qed.

(** A snapshot that is valid but for its checksum. *)
Record pre_valid (rid : string) (d : dict) : Prop := {
  v_keys : ∀ k, k ∈ _FIELDS → k = "checksum" ∨ dhas k d = true;
  v_known : has_unknown _FIELDS d = false;
  v_header : header_ok d rid = true;
  v_status : in_set (dget_or VNone "status" d) _STATUSES = Ok true;
  v_updated : clock_ok (dget_or VNone "updated_at" d) = true;
  v_types : types_ok d = true;
  v_plan : plan_matches d = true;
  v_contents : contents d }.

Lemma clock_ok_str v : clock_ok v = true → is_str v = true.
Proof. by destruct v. Qed.

Lemma validate_spec d rid :
  _validate (VDict d) rid = Ok true ↔
  pre_valid rid d ∧ dhas "checksum" d = true ∧ is_the (dget_or VNone "checksum" d) (_checksum d) = true.
Proof.
  unfold _validate. rewrite !if_false_ok, bind_ok, !negb_false_iff. setoid_rewrite if_false_ok. setoid_rewrite if_false_ok.
  setoid_rewrite if_false_ok. setoid_rewrite negb_false_iff. unfold same_keys.
  rewrite andb_true_iff, negb_true_iff, forallb_true_iff. split.
  - intros ([Hk Hu] & Hh & b & Hb & Hs & Ht & Hp & Hc). bool_inv. destruct b; [|discriminate].
    split; [|split; [apply Hk; cbn; set_solver|done]].
    split; try done. { intros k Hk'. right. by apply Hk. } by apply contents_ok_spec.
  - intros ([Hk Hu Hh Hs Hup Ht Hp Hc] & Hcs & Hck). split.
    { split; [|done]. intros k Hk'. destruct (Hk k Hk') as [-> | ?]; done. }
    split; [done|]. exists true. split; [done|]. rewrite (clock_ok_str _ Hup). split; [done|]. split; [done|].
    rewrite Hp, Hup, Hck. split; [done|]. by apply contents_ok_spec.
Qed.
End valid.

(** ** Values read back *)

Definition fixed (v : pyval) : Prop := reload v = v.

Lemma elem_of_fixed l kv : fixed (VDict l) → kv ∈ l → fixed kv.2.
Proof.
  unfold fixed. rewrite reload_VDict. intros [= Hl] Hin. rewrite <- Hl in Hin.
  apply elem_of_reload in Hin as (v & _ & ->). apply reload_idem.
Qed.
Lemma dget_fixed k l v : fixed (VDict l) → dget k l = Some v → fixed v.
Proof. intros Hl Hk. apply (elem_of_fixed l (VStr k, v)); [done|by apply dget_elem_of]. Qed.
Lemma fixed_reload_dict d : fixed (VDict d) → reload_dict d = d.
Proof. unfold fixed. rewrite reload_VDict. by intros [= ->]. Qed.

Lemma in_set_true v l : in_set v l = Ok true ↔ ∃ s, v = VStr s ∧ s ∈ l.
Proof.
  unfold in_set. split.
  - destruct (hashable v); [|discriminate]. intros [= Hv]. destruct v; try discriminate. apply bool_decide_eq_true in Hv. by eexists.
  - intros (s & -> & Hs). cbn. by rewrite bool_decide_true.
Qed.
Lemma in_set_str s l : s ∈ l → in_set (VStr s) l = Ok true.
Proof. intros Hs. apply in_set_true. by exists s. Qed.

(** What holds of the values read back holds of the entries read back. *)
Lemma reload_entries (P : pyval * pyval → Prop) l :
  (∀ kv, kv ∈ l → P (kv.1, reload kv.2)) → ∀ kv, kv ∈ reload_dict l → P kv.
Proof. intros Hl [k w] (v & Hin & Hw)%elem_of_reload. cbn in *. subst. exact (Hl (k, v) Hin). Qed.

Section good.
Context `{PlanIdentity} (rid : string).

(** A snapshot under change: what will be read back is valid but for the checksum. *)
Definition good (c : dict) : Prop := pre_valid rid (reload_dict c).

Lemma getR_eq k v c : dget k (reload_dict (dset k v c)) = Some (reload v).
Proof. by rewrite dget_reload, dget_dset_eq. Qed.
Lemma getR_ne k k' v c : k ≠ k' → dget k' (reload_dict (dset k v c)) = dget k' (reload_dict c).
Proof. intros Hne. by rewrite !dget_reload, dget_dset_ne. Qed.

(** The dictionary fields of a good snapshot, before they are read back. *)
Lemma good_field k (P : pyval * pyval → Prop) c l :
  dget k (reload_dict c) = Some (VDict l) → (∀ kv, kv ∈ l → P kv) →
  ∃ l0, dget k c = Some (VDict l0) ∧ fld k c = l0 ∧ ∀ kv, kv ∈ l0 → P (kv.1, reload kv.2).
Proof.
  rewrite dget_reload. unfold fld. intros Hk Hl. destruct (dget k c) as [v|] eqn:E; [|discriminate].
  injection Hk as Hk. destruct v; try discriminate. cbn in Hk. injection Hk as <-. exists kvs. do 2 (split; [done|]).
  intros kv Hkv. apply Hl. apply elem_of_reload. by exists kv.2; destruct kv.
Qed.

Ltac lookups :=
  unfold dget_or, int_fld in *;
  repeat first [rewrite getR_eq | rewrite getR_ne by discriminate].

(** Changing one field keeps the others; the goals are what the field must satisfy. *)
Ltac start_update Hg :=
  destruct Hg as [Hk Hu Hh Hs Hup Ht Hp [Hw Hts Hls Has Hcs Hrs He Hsq]];
  unfold header_ok, types_ok, plan_matches in *; cbn [forallb _COLLECTIONS] in *.
Ltac keys :=
  match goal with
  | Hk : ∀ k, k ∈ _FIELDS → _ |- ∀ k, k ∈ _FIELDS → _ =>
      let x := fresh "x" in let Hx := fresh "Hx" in let Hd := fresh "Hd" in
      intros x Hx; destruct (Hk x Hx) as [-> | Hd]; [by left|right]; revert Hd;
      rewrite !dhas_reload, ?dhas_dset; intros ->; by rewrite ?orb_true_r
  | Hu : has_unknown _ _ = false |- has_unknown _ _ = false =>
      revert Hu; rewrite !has_unknown_reload; intros Hu;
      repeat (apply has_unknown_dset; [by repeat constructor|]); exact Hu
  end.

Ltac update_fields Hg :=
  start_update Hg; split;
  [ keys | keys | | | | | | ]; unfold header_ok, types_ok, plan_matches; cbn [forallb _COLLECTIONS];
  lookups; try done; try (split; lookups; try done).

Lemma good_checksum c h : good c → good (dset "checksum" (VStr h) c).
Proof. intros Hg. update_fields Hg. Qed.

Lemma good_generation c n : (0 ≤ n)%Z → good c → good (dset "generation" (VInt n) c).
Proof.
  intros Hn Hg. update_fields Hg. bool_inv. cbn [default reload nat_int].
  repeat (apply andb_true_intro; split); try done. by apply Z.leb_le.
Qed.
Lemma good_stamp c now : clock_ok (VStr now) = true → good c → good (stamp now c).
Proof. intros Hn Hg. unfold stamp. update_fields Hg. Qed.
Lemma good_status c st : st ∈ _STATUSES → good c → good (dset "status" (VStr st) c).
Proof. intros Hst Hg. update_fields Hg. by apply in_set_str. Qed.

Lemma good_events c l (n : Z) : (0 ≤ n)%Z → (∀ e, e ∈ l → _valid_event (reload e) = true) →
  map sequence_of (map reload l) = seqZ 1 n → good c → good (dset "event_sequence" (VInt n) (dset "events" (VList l) c)).
Proof.
  intros Hn Hl Hseq Hg. update_fields Hg.
  - bool_inv. cbn [default reload nat_int]. repeat (apply andb_true_intro; split); try done. by apply Z.leb_le.
  - bool_inv. cbn [default reload is_dict_or_list]. repeat (apply andb_true_intro; split); done.
  - cbn. intros e (e0 & -> & He0)%list_elem_of_fmap. by apply Hl.
Qed.

(** A dictionary field: its entries, read back, must satisfy the field's condition. *)
Definition entry_ok (k : string) : pyval * pyval → Prop :=
  if bool_decide (k = "tasks") then λ kv, task_bad kv.2 = Ok false
  else if bool_decide (k = "leases") then λ kv, lease_ok kv = true
  else if bool_decide (k = "attempts") then λ kv, nat_int kv.2 = true
  else λ kv, report_bad kv = Ok false.
Definition entry_fields : list string := ["tasks"; "leases"; "attempts"; "reports"].

Lemma good_dict k l c : k ∈ entry_fields → (∀ kv, kv ∈ l → entry_ok k (kv.1, reload kv.2)) → good c → good (set_fld k l c).
Proof.
  intros Hk Hl Hg. unfold set_fld.
  assert (∃ l', reload (VDict l) = VDict l' ∧ ∀ kv, kv ∈ l' → entry_ok k kv) as (l' & Hr & Hl').
  { exists (reload_dict l). split; [done|]. by apply reload_entries. }
  repeat (apply elem_of_cons in Hk as [-> | Hk]); [..|by apply elem_of_nil in Hk]; cbv [entry_ok] in Hl'; cbn in Hl';
    update_fields Hg; rewrite ?Hr; try (by exists l'); bool_inv; cbn [default is_dict_or_list]; repeat (apply andb_true_intro; split); done.
Qed.

(** The entries of a good snapshot's dictionary fields. *)
Lemma good_entries k c : k ∈ entry_fields → good c →
  dget k c = Some (VDict (fld k c)) ∧ ∀ kv, kv ∈ fld k c → entry_ok k (kv.1, reload kv.2).
Proof.
  intros Hk Hg. destruct Hg as [_ _ _ _ _ _ _ [_ Hts Hls Has _ Hrs _ _]].
  repeat (apply elem_of_cons in Hk as [-> | Hk]); [..|by apply elem_of_nil in Hk].
  - destruct Hts as (l & Hl & Hall). destruct (good_field _ _ _ _ Hl Hall) as (l0 & Hl0 & -> & Hl0'). done.
  - destruct Hls as (l & Hl & Hall). destruct (good_field _ _ _ _ Hl Hall) as (l0 & Hl0 & -> & Hl0'). done.
  - destruct Has as (l & Hl & Hall). destruct (good_field _ _ _ _ Hl Hall) as (l0 & Hl0 & -> & Hl0'). done.
  - destruct Hrs as (l & Hl & Hall). destruct (good_field _ _ _ _ Hl Hall) as (l0 & Hl0 & -> & Hl0'). done.
Qed.

Lemma good_entry_set k t v c : k ∈ entry_fields → entry_ok k (VStr t, reload v) → good c →
  good (set_fld k (dset t v (fld k c)) c).
Proof.
  intros Hk Hv Hg. apply good_dict; [done| |done]. intros kv [-> | Hin]%elem_of_dset; [done|].
  by apply (good_entries k c).
Qed.
Lemma good_entry_sub k l c : k ∈ entry_fields → (∀ kv, kv ∈ l → kv ∈ fld k c) → good c → good (set_fld k l c).
Proof. intros Hk Hsub Hg. apply good_dict; [done| |done]. intros kv Hkv. by apply (good_entries k c), Hsub. Qed.
End good.

(** ** Writing and reading back *)

Lemma json_digest_reload v h : json_digest v = Ok h → json_digest (reload v) = Ok h.
Proof.
  unfold json_digest. intros (w & Hw & ->)%fmap_ok. apply fmap_ok. exists w. split; [|done].
  destruct (json_dumps v) as [t|] eqn:E; [|discriminate]. injection Hw as ->. by rewrite (dumps_reload _ _ E).
Qed.

Lemma expiry_clock_ok now secs e : clock_ok (VStr now) = true → _plus_seconds now secs = Ok e → clock_ok (VStr e) = true.
Proof.
  unfold clock_ok, _plus_seconds. intros Hn He. res_inv. destruct (parse_z now) as [t|] eqn:Ht; [|discriminate].
  destruct (timedelta_us _ ≫= plus_delta t) as [t'|] eqn:Hd; [|discriminate]. res_inv.
  cbn in Hn. rewrite Ht in Hn. unfold is_utc in Hn. case_bool_decide as Hu; [|discriminate].
  apply bind_Some in Hd as (us & _ & Hd). unfold plus_delta in Hd. destruct (_ && _) eqn:Hb; [|discriminate]. injection Hd as <-.
  bool_inv. rewrite Hu. pose proof (parse_canonical (dt_us t + us) ltac:(lia)) as Hp. unfold canonical_iso, utc_at in Hp.
  cbn. rewrite Hp. done.
Qed.

Section disk_facts.
Context `{PlanIdentity} (rid : string).

(** Sealing a good snapshot makes what is read back valid. *)
Lemma sealed_valid c sealed : good rid c → _seal c = Ok sealed → _validate (reload (VDict sealed)) rid = Ok true.
Proof.
  unfold _seal. intros Hg Hs. res_inv. rename x into h. rewrite reload_VDict. apply validate_spec.
  split; [by apply good_checksum|]. rewrite dhas_reload, dhas_dset, bool_decide_true by done. split; [done|].
  unfold dget_or. rewrite getR_eq. cbn [default reload]. unfold _checksum, is_the in *. rewrite dpop_reload, dpop_dset.
  rewrite <- reload_VDict. match goal with Hc : json_digest _ = Ok _ |- _ => rewrite (json_digest_reload _ _ Hc) end.
  by apply bool_decide_eq_true_2.
Qed.

Lemma seal_get k c sealed : k ≠ "checksum" → _seal c = Ok sealed → dget k sealed = dget k c.
Proof. unfold _seal. intros Hk Hs. res_inv. by rewrite dget_dset_ne. Qed.

(** A valid snapshot as it is read is good. *)
Lemma valid_good s : _validate (VDict s) rid = Ok true → fixed (VDict s) → good rid s.
Proof. intros (Hv & _)%validate_spec Hf. unfold good. by rewrite fixed_reload_dict. Qed.

Definition slot_fixed (x : slot) : Prop := ∀ v, x = Json v → fixed v.
(** The slots of a run hold what the store wrote, the backup no newer than the primary. *)
Record disk_ok (d : disk) : Prop := {
  k_dir : d.(d_symlink) = false;
  k_primary : slot_fixed d.(primary);
  k_backup : slot_fixed d.(backup);
  k_links : is_symlink d.(primary) || is_symlink d.(backup) = false;
  k_reads : ∃ p b, read_slot rid d.(primary) = Ok p ∧ read_slot rid d.(backup) = Ok b ∧
    ∀ x y, p = Some x → b = Some y → (generation y ≤ generation x)%Z }.

Lemma read_slot_some x s : read_slot rid x = Ok (Some s) → x = Json (VDict s) ∧ _validate (VDict s) rid = Ok true.
Proof.
  destruct x as [| | |[]]; cbn [read_slot]; try discriminate. intros Hr. apply bind_ok in Hr as (ok & Hok & Hr).
  destruct ok; [|discriminate]. by injection Hr as <-.
Qed.

(** The current snapshot of a run. *)
Definition current (d : disk) (s : dict) : Prop := _valid_snapshot rid d = Ok (Some s).

Lemma current_facts d s : disk_ok d → current d s →
  _safe_id (VStr rid) = Ok rid ∧ _validate (VDict s) rid = Ok true ∧ fixed (VDict s) ∧ good rid s ∧
  ∃ p b, read_slot rid d.(primary) = Ok p ∧ read_slot rid d.(backup) = Ok b ∧
    ((p = Some s ∧ ∀ y, b = Some y → (generation y ≤ generation s)%Z) ∨ (p = None ∧ b = Some s)).
Proof.
  intros [Hd Hp Hb _ (p & b & Hrp & Hrb & Hle)] Hc. unfold current, _valid_snapshot, _dir in Hc. rewrite Hd, Hrp, Hrb in Hc.
  apply bind_ok in Hc as (u & Hu & Hc). apply bind_ok in Hu as (r & Hr & _). assert (r = rid) as ->.
  { unfold _safe_id in Hr. destruct (_ && _); [by injection Hr|discriminate]. }
  split; [done|]. cbn in Hc. injection Hc as Hc.
  assert ((p = Some s ∧ ∀ y, b = Some y → (generation y ≤ generation s)%Z) ∨ (p = None ∧ b = Some s)) as Hcase.
  { unfold newest in Hc. destruct p as [x|]; [|by right]. left. destruct b as [y|].
    - rewrite (proj2 (Z.ltb_ge _ _)) in Hc by (by apply Hle). injection Hc as <-. split; [done|]. intros y' [= <-]. by apply Hle.
    - by injection Hc as <-. }
  assert (∃ x, slot_fixed x ∧ read_slot rid x = Ok (Some s)) as (x & Hxf & Hx).
  { destruct Hcase as [[-> _] | [_ ->]]; eauto. }
  apply read_slot_some in Hx as [-> Hv]. assert (fixed (VDict s)) by (by apply Hxf).
  split; [done|]. split; [done|]. split; [by apply valid_good|]. eauto 10.
Qed.

(** A write never loses the run: after its first step the old snapshot is
    still the current one, after its second the new one is. *)
Lemma write_steps_ok d s c w : disk_ok d → current d s → good rid c → generation c = (generation s + 1)%Z →
  _write_steps rid c d = Ok w →
  current (w_backup w) s ∧ disk_ok (w_backup w) ∧
  ∃ sealed, _seal c = Ok sealed ∧ current (w_done w) (reload_dict sealed) ∧ disk_ok (w_done w).
Proof.
  intros Hok Hcur Hg Hgen Hw. destruct (current_facts d s Hok Hcur) as (Hsafe & Hv & Hf & _ & p & b & Hrp & Hrb & Hcase).
  destruct Hok as [Hd Hp Hb Hl _]. unfold _write_steps, _dir in Hw. rewrite Hsafe, Hd, Hrp in Hw. cbn [mbind res_bind ensure negb] in Hw.
  apply bind_ok in Hw as (sealed & Hs & Hw). rewrite Hl in Hw. cbn [mbind res_bind ensure negb] in Hw. apply ok_inj in Hw. subst w. cbn [w_backup w_done].
  pose proof (sealed_valid c sealed Hg Hs) as Hnew.
  assert (generation (reload_dict sealed) = (generation s + 1)%Z) as Hgen'.
  { rewrite <- Hgen. unfold generation, int_fld. rewrite dget_reload, (seal_get "generation" c) by done.
    by destruct (dget "generation" c) as [[]|]. }
  assert (∃ b', read_slot rid (match p with Some _ => d.(primary) | None => d.(backup) end) = Ok (Some b') ∧
    b' = s ∧ slot_fixed (match p with Some _ => d.(primary) | None => d.(backup) end) ∧
    is_symlink (match p with Some _ => d.(primary) | None => d.(backup) end) = false) as (b' & Hb' & -> & Hbf & Hbl).
  { apply orb_false_iff in Hl as [Hl1 Hl2]. destruct Hcase as [[-> _] | [-> ->]]; eauto 10. }
  apply orb_false_iff in Hl as [Hl1 Hl2].
  split; [|split].
  - unfold current, _valid_snapshot, _dir. cbn [d_symlink primary backup]. rewrite Hsafe. cbn. rewrite Hrp, Hb'. cbn.
    destruct Hcase as [[-> _] | [-> _]]; cbn; [|done]. by rewrite Z.ltb_irrefl.
  - split; cbn [d_symlink primary backup]; try done; [by rewrite Hl1, Hbl|].
    exists p, (Some s). split; [done|]. split; [done|]. intros x y -> [= <-]. destruct Hcase as [[[= ->] _] | [? _]]; [lia|done].
  - exists sealed. split; [done|].
    assert (read_slot rid (Json (reload (VDict sealed))) = Ok (Some (reload_dict sealed))) as Hrn.
    { rewrite reload_VDict in *. cbn [read_slot]. by rewrite Hnew. }
    split.
    + unfold current, _valid_snapshot, _dir. cbn [d_symlink primary backup]. rewrite Hsafe. cbn [mbind res_bind ensure negb].
      rewrite Hrn, Hb'. cbn [mbind res_bind newest]. rewrite (proj2 (Z.ltb_ge _ _)) by lia. done.
    + split; cbn [d_symlink primary backup]; try done.
      * intros v Hjv. assert (reload (VDict sealed) = v) as <- by congruence. apply reload_idem.
      * exists (Some (reload_dict sealed)), (Some s). split; [done|]. split; [done|]. intros x y [= <-] [= <-]. lia.
Qed.

(** The same for [_write]. *)
Lemma write_ok d s c d' : disk_ok d → current d s → good rid c → generation c = (generation s + 1)%Z →
  _write rid c d = Ok d' →
  disk_ok d' ∧ ∃ sealed, _seal c = Ok sealed ∧ current d' (reload_dict sealed).
Proof.
  intros Hok Hcur Hg Hgen Hw. unfold _write in Hw. apply fmap_ok in Hw as (w & Hw & ->).
  destruct (write_steps_ok d s c w Hok Hcur Hg Hgen Hw) as (_ & _ & sealed & Hs & Hc & Hd). eauto.
Qed.
End disk_facts.

(** ** What an operation does to a snapshot *)

Lemma fld_dset k k' v s : fld k (dset k' v s) = if bool_decide (k' = k) then match v with VDict l => l | _ => [] end else fld k s.
Proof. unfold fld. rewrite dget_dset. by case_bool_decide. Qed.
Lemma fld_reload k s : fld k (reload_dict s) = reload_dict (fld k s).
Proof. unfold fld. rewrite dget_reload. by destruct (dget k s) as [[]|]. Qed.
Lemma fld_dset_ne k k' v s : k' ≠ k → fld k (dset k' v s) = fld k s.
Proof. intros. by rewrite fld_dset, bool_decide_false. Qed.
Lemma fld_set_eq k l s : fld k (set_fld k l s) = l.
Proof. by rewrite fld_set_fld, bool_decide_true. Qed.
Lemma fld_set_ne k k' l s : k' ≠ k → fld k (set_fld k' l s) = fld k s.
Proof. intros. by rewrite fld_set_fld, bool_decide_false. Qed.
Lemma generation_dset_ne k v s : k ≠ "generation" → generation (dset k v s) = generation s.
Proof. intros. unfold generation. by rewrite int_fld_dset, bool_decide_false. Qed.
Lemma generation_set_ne k l s : k ≠ "generation" → generation (set_fld k l s) = generation s.
Proof. apply generation_dset_ne. Qed.

(** Rewrite the fields of an updated snapshot. *)
Ltac fields := unfold stamp, bump, drop_lease, set_task_status, install_lease in *;
  repeat first [ rewrite fld_set_eq | rewrite fld_set_ne by done | rewrite fld_dset_ne by done
               | rewrite generation_set_ne by done | rewrite generation_dset_ne by done ].

(** A lease granted by the change from [s]: of the next generation, to a task without report. *)
Definition new_lease (s : dict) (kv : pyval * pyval) : Prop :=
  ∃ t l, kv = (VStr t, VDict l) ∧ int_fld "generation" l = (generation s + 1)%Z ∧ dget t (fld "reports" s) = None.

(** Every leased task has been attempted. *)
Definition attempted (s : dict) : Prop :=
  ∀ t v, (VStr t, v) ∈ fld "leases" s → ∃ n, dget t (fld "attempts" s) = Some (VInt n) ∧ (1 ≤ n)%Z.

(** What every change keeps: the generation, until it is bumped; the reports
    made; and leases only for tasks without a report. *)
Record change_ok `{PlanIdentity} (rid : string) (s c : dict) : Prop := {
  h_good : good rid c;
  h_generation : generation c = generation s;
  h_owner : str_fld "owner" c = str_fld "owner" s;
  h_reports : ∀ t r, dget t (fld "reports" s) = Some r → dget t (fld "reports" c) = Some r;
  h_leases : ∀ kv, kv ∈ fld "leases" c → kv ∈ fld "leases" s ∨ new_lease s kv;
  h_dropped : ∀ t v, dget t (fld "reports" c) ≠ None → dget t (fld "reports" s) = None → (VStr t, v) ∉ fld "leases" c;
  h_attempted : attempted s → attempted c }.

(** The invariant of the snapshots of a run. *)
Record snap_inv (s : dict) : Prop := {
  i_generation : ∀ t l, (t, VDict l) ∈ fld "leases" s → (int_fld "generation" l ≤ generation s)%Z;
  i_reported : ∀ t v, dget t (fld "reports" s) ≠ None → (VStr t, v) ∉ fld "leases" s;
  i_attempted : attempted s }.

Section changes.
Context `{PlanIdentity} (rid : string).

Lemma str_fld_dset k k' v s :
  str_fld k (dset k' v s) = if bool_decide (k' = k) then match v with VStr t => t | _ => "" end else str_fld k s.
Proof. unfold str_fld. rewrite dget_dset. by case_bool_decide. Qed.

Lemma change_refl s : good rid s → change_ok rid s s.
Proof. intros Hg. split; first [done|by left|by intros t v Hr Hs]. Qed.

(** A change of other fields than these. *)
Lemma change_keep s c c' : (∀ k, k ∈ ["owner"; "generation"; "reports"; "leases"; "attempts"] → dget k c' = dget k c) → good rid c' →
  change_ok rid s c → change_ok rid s c'.
Proof.
  intros Hk Hg [_ Hgen Hown Hrep Hle Hdr Hat].
  assert (fld "reports" c' = fld "reports" c) as Er by (unfold fld; by rewrite Hk by repeat constructor).
  assert (fld "leases" c' = fld "leases" c) as El by (unfold fld; by rewrite Hk by repeat constructor).
  assert (fld "attempts" c' = fld "attempts" c) as Ea by (unfold fld; by rewrite Hk by repeat constructor).
  split; unfold attempted in *; rewrite ?Er, ?El, ?Ea; try done.
  - unfold generation, int_fld. by rewrite Hk by repeat constructor.
  - unfold str_fld. by rewrite Hk by repeat constructor.
Qed.
Lemma change_dset s c k v : k ∉ ["owner"; "generation"; "reports"; "leases"; "attempts"] → good rid (dset k v c) → change_ok rid s c →
  change_ok rid s (dset k v c).
Proof. intros Hk Hg. apply change_keep; [|done]. intros k' Hk'. apply dget_dset_ne. by intros ->. Qed.
Lemma change_set s c k l : k ∉ ["owner"; "generation"; "reports"; "leases"; "attempts"] → good rid (set_fld k l c) → change_ok rid s c →
  change_ok rid s (set_fld k l c).
Proof. apply change_dset. Qed.

(** The leases. *)
Lemma change_leases s c l : (∀ kv, kv ∈ l → kv ∈ fld "leases" c ∨ new_lease s kv) →
  (∀ t v, (VStr t, v) ∈ l → (VStr t, v) ∈ fld "leases" c ∨ dget t (fld "reports" c) = None) →
  good rid (set_fld "leases" l c) → (attempted s → attempted (set_fld "leases" l c)) →
  change_ok rid s c → change_ok rid s (set_fld "leases" l c).
Proof.
  intros Hl Hno Hg Hat' [_ Hgen Hown Hrep Hle Hdr Hat]. split; fields; try done.
  - unfold set_fld. rewrite str_fld_dset. done.
  - intros kv [Hin|Hin]%Hl; auto.
  - intros t v Hr Hs Hin. destruct (Hno t v Hin) as [Hin'|Hn]; [|congruence]. by apply (Hdr t v).
Qed.

(** Fewer leases. *)
Lemma change_sub_leases s c l : (∀ kv, kv ∈ l → kv ∈ fld "leases" c) → good rid c → change_ok rid s c →
  change_ok rid s (set_fld "leases" l c).
Proof.
  intros Hl Hg Hc. apply change_leases; [by left; apply Hl|by left; apply Hl| | |done].
  - by apply good_entry_sub; [by repeat constructor|..].
  - intros Hs t v. fields. intros Hin. apply (h_attempted _ _ _ Hc Hs t v). by apply Hl.
Qed.
Lemma change_drop_lease s c t : good rid c → change_ok rid s c → change_ok rid s (drop_lease t c).
Proof. apply change_sub_leases. intros kv. apply elem_of_dpop. Qed.

Lemma task_entry_ok e st : st ∈ _TASK_STATUSES → task_bad (reload (VDict (dset "status" (VStr st) e))) = Ok false.
Proof. intros Hst. rewrite reload_VDict. cbn [task_bad]. rewrite getR_eq. cbn [reload]. by rewrite in_set_str. Qed.

Lemma change_task_status s c t st : st ∈ _TASK_STATUSES → change_ok rid s c → change_ok rid s (set_task_status t st c).
Proof.
  intros Hst Hc. pose proof (h_good _ _ _ Hc) as Hg. unfold set_task_status. apply change_set; [by cbn; set_solver| |done].
  apply good_entry_set; [by repeat constructor| |done]. by apply task_entry_ok.
Qed.

Lemma lease_intro t d owner id expiry n :
  _ID t = true → _ID owner = true → _ID id = true → clock_ok (VStr expiry) = true → (0 ≤ n)%Z → same_keys _LEASE_KEYS d = true →
  dget "owner" d = Some (VStr owner) → dget "lease_id" d = Some (VStr id) → dget "expires_at" d = Some (VStr expiry) →
  dget "generation" d = Some (VInt n) → lease_ok (VStr t, reload (VDict d)) = true.
Proof.
  intros Ht Ho Hi He Hn Hk E1 E2 E3 E4. rewrite reload_VDict. unfold lease_ok. cbn [fst snd str_is]. rewrite Ht, same_keys_reload, Hk.
  unfold dget_or. rewrite !dget_reload, E1, E2, E3, E4. cbn -[_ID clock_ok Z.leb].
  rewrite Ho, Hi, He. cbn [andb]. by rewrite (proj2 (Z.leb_le _ _)).
Qed.
Lemma lease_entry_ok t owner id expiry n :
  _ID t = true → _ID owner = true → _ID id = true → clock_ok (VStr expiry) = true → (0 ≤ n)%Z →
  lease_ok (VStr t, reload (VDict (lease_entry owner id expiry n))) = true.
Proof. intros. by apply (lease_intro t _ owner id expiry n). Qed.
Lemma lease_ok_owner d : header_ok d rid = true → _ID (str_fld "owner" d) = true ∧ (0 ≤ generation d)%Z.
Proof.
  unfold header_ok, dget_or, generation, int_fld, str_fld. intros Hh. bool_inv.
  destruct (dget "owner" d) as [[]|]; try discriminate. destruct (dget "generation" d) as [[]|]; try discriminate.
  split; [done|]. by apply Z.leb_le.
Qed.
Lemma good_owner c : good rid c → _ID (str_fld "owner" c) = true ∧ (0 ≤ generation c)%Z.
Proof.
  intros Hg. apply v_header in Hg. apply lease_ok_owner in Hg. revert Hg. unfold generation, int_fld, str_fld. rewrite !dget_reload.
  by destruct (dget "owner" c) as [[]|], (dget "generation" c) as [[]|].
Qed.

Lemma attempts_nonneg c t : good rid c → (0 ≤ int_fld t (fld "attempts" c))%Z.
Proof.
  intros Hg. destruct (good_entries rid "attempts" c ltac:(by repeat constructor) Hg) as [_ Hall].
  unfold int_fld. destruct (dget t _) as [v|] eqn:E; [|done]. apply dget_elem_of, Hall in E. cbv [entry_ok] in E. cbn in E.
  destruct v; try done. by apply Z.leb_le.
Qed.

Lemma change_install s c owner t id expiry :
  str_fld "owner" s = owner → _ID t = true → _ID id = true → clock_ok (VStr expiry) = true → dget t (fld "reports" s) = None →
  dget t (fld "reports" c) = None → change_ok rid s c → change_ok rid s (install_lease owner t id expiry (generation s + 1) c).
Proof.
  intros Ho Ht Hid He Hr Hr' Hc. pose proof (h_good _ _ _ Hc) as Hg. destruct (good_owner c Hg) as [Hown Hge].
  rewrite (h_owner _ _ _ Hc), Ho in Hown. rewrite (h_generation _ _ _ Hc) in Hge. unfold install_lease.
  set (l := dset t _ (fld "leases" c)).
  assert (good rid (set_fld "leases" l c)) as Hg1.
  { apply good_entry_set; [by repeat constructor| |done]. cbv [entry_ok]. cbn [bool_decide].
    apply lease_entry_ok; try done. lia. }
  set (n := (int_fld t _ + 1)%Z). assert (1 ≤ n)%Z as Hn.
  { pose proof (attempts_nonneg (set_fld "leases" l c) t Hg1). subst n. lia. }
  assert (good rid (set_fld "attempts" (dset t (VInt n) (fld "attempts" (set_fld "leases" l c))) (set_fld "leases" l c))) as Hg2.
  { apply good_entry_set; [by repeat constructor| |done]. cbv [entry_ok]. cbn. apply Z.leb_le. lia. }
  destruct Hc as [_ Hgen Hown' Hrep Hle Hdr Hat]. split; [done|..]; fields; try done.
  - unfold set_fld. by rewrite !str_fld_dset.
  - intros kv [-> | Hin]%elem_of_dset; [|by apply Hle]. right. by exists t, (lease_entry owner id expiry (generation s + 1)).
  - intros t' v Hrc Hrs [[= -> ->] | Hin]%elem_of_dset; [done|]. by apply (Hdr t' v).
  - intros Hs t' v. fields. rewrite dget_dset. intros [[= -> ->] | Hin]%elem_of_dset.
    + rewrite bool_decide_true by done. by exists n.
    + case_bool_decide; [by exists n|]. by apply (Hat Hs t' v).
Qed.
End changes.

(** ** Operations as steps of a run *)

Section steps.
Context `{PlanIdentity} (rid : string).

Lemma clock_value_ok v now : _clock_value v = Ok now → v = VStr now ∧ clock_ok (VStr now) = true.
Proof.
  intros Hv. assert (v = VStr now) as ->.
  { unfold _clock_value in Hv. destruct v; try discriminate. destruct (parse_z s); [|discriminate]. destruct (is_utc _); [|discriminate].
    by injection Hv as ->. }
  split; [done|]. unfold clock_ok. by rewrite Hv.
Qed.

(** A completed operation: nothing, or one write of a changed copy of the current snapshot. *)
Definition wrote (d d' : disk) : Prop :=
  ∃ s c now, current rid d s ∧ change_ok rid s c ∧ clock_ok (VStr now) = true ∧ _write rid (stamp now (bump c)) d = Ok d'.
Definition stepped (d d' : disk) : Prop := d' = d ∨ wrote d d'.

Lemma good_bumped s c now : change_ok rid s c → clock_ok (VStr now) = true → good rid (stamp now (bump c)).
Proof.
  intros Hc Hn. pose proof (h_good _ _ _ Hc) as Hg. apply good_stamp; [done|]. unfold bump. apply good_generation; [|done].
  pose proof (good_owner rid c Hg) as [_ Hge]. lia.
Qed.
Lemma generation_bumped c now : generation (stamp now (bump c)) = (generation c + 1)%Z.
Proof. unfold stamp, bump. rewrite generation_dset_ne by done. unfold generation at 1. by rewrite int_fld_dset, bool_decide_true. Qed.

Lemma wrote_current d d' : disk_ok rid d → wrote d d' →
  disk_ok rid d' ∧ ∃ s c now sealed, current rid d s ∧ change_ok rid s c ∧ _seal (stamp now (bump c)) = Ok sealed ∧
    current rid d' (reload_dict sealed).
Proof.
  intros Hok (s & c & now & Hcur & Hc & Hn & Hw).
  destruct (write_ok rid d s _ d' Hok Hcur (good_bumped s c now Hc Hn)) as (Hok' & sealed & Hs & Hcur'); [|done|].
  { rewrite generation_bumped. by rewrite (h_generation _ _ _ Hc). }
  split; [done|]. by exists s, c, now, sealed.
Qed.

Lemma open_run_ok owner d s : open_run rid owner d = Ok s → current rid d s ∧ str_fld "owner" s = owner.
Proof.
  unfold open_run, current. intros Ho. apply bind_ok in Ho as (found & Hf & Ho). destruct found as [s'|]; [|discriminate].
  apply bind_ok in Ho as (u & Hu & Ho). apply ensure_ok, bool_decide_eq_true in Hu. injection Ho as <-. done.
Qed.

Lemma mutate_wrote {A} owner e (fn : dict → sres (dict * A)) clk d d' s' a :
  _mutate rid owner e fn clk d = Ok (d', s', a) →
  (∀ s c, current rid d s → str_fld "owner" s = owner → fn s = Ok (c, a) → change_ok rid s c) → wrote d d'.
Proof.
  unfold _mutate. intros Hm Hfn. apply bind_ok in Hm as (s & Hs & Hm). apply bind_ok in Hm as (u & _ & Hm).
  apply bind_ok in Hm as ([c a'] & Hc & Hm). apply bind_ok in Hm as (now & Hn & Hm). apply bind_ok in Hm as (d1 & Hw & Hm).
  assert (d1 = d' ∧ a' = a) as [-> ->] by (split; congruence). apply open_run_ok in Hs as [Hcur Ho].
  apply clock_value_ok in Hn as [-> Hn]. exists s, c, now. split; [done|]. split; [by apply Hfn|]. done.
Qed.

Lemma current_good d s : disk_ok rid d → current rid d s → good rid s.
Proof. intros Hok Hcur. by destruct (current_facts rid d s Hok Hcur) as (_ & _ & _ & Hg & _). Qed.

Lemma status_fields k : k ∈ ["status"; "tasks"; "events"; "event_sequence"] → k ∉ ["owner"; "generation"; "reports"; "leases"; "attempts"].
Proof. intros Hk. repeat (apply elem_of_cons in Hk as [-> | Hk]; [by apply (bool_decide_unpack _); vm_compute|]). by apply elem_of_nil in Hk. Qed.

Lemma transition_step status owner e clk d d' s' : disk_ok rid d →
  transition rid status owner e clk d = Ok (d', s') → wrote d d'.
Proof.
  intros Hok Ht. unfold transition in Ht. apply bind_ok in Ht as ([[d1 s1] u] & Hm & Ht). injection Ht as -> ->.
  apply (mutate_wrote _ _ _ _ _ _ _ _ Hm). intros s c Hcur _ Hc. apply bind_ok in Hc as (u' & Hst & Hc).
  apply ensure_ok, bool_decide_eq_true in Hst. destruct (_ && _); [discriminate|]. injection Hc as <-.
  pose proof (current_good d s Hok Hcur) as Hg.
  apply change_dset; [by apply status_fields; repeat constructor|by apply good_status|by apply change_refl].
Qed.

Lemma update_step task status owner e clk d d' s' : disk_ok rid d →
  update_task_status rid task status owner e clk d = Ok (d', s') → wrote d d'.
Proof.
  intros Hok Ht. unfold update_task_status in Ht. apply bind_ok in Ht as (t & _ & Ht). apply bind_ok in Ht as (u & Hst & Ht).
  apply ensure_ok, bool_decide_eq_true in Hst. apply bind_ok in Ht as ([[d1 s1] u'] & Hm & Ht). apply bind_ok in Ht as (sealed & _ & Ht).
  assert (d1 = d') as -> by congruence. apply (mutate_wrote _ _ _ _ _ _ _ _ Hm). intros s c Hcur _ Hc.
  apply bind_ok in Hc as (u1 & _ & Hc). apply bind_ok in Hc as (u2 & _ & Hc). injection Hc as <-.
  pose proof (current_good d s Hok Hcur) as Hg.
  assert (change_ok rid s (set_task_status task status s)) as Hch by (apply change_task_status; [done|by apply change_refl]).
  apply change_drop_lease; [by apply h_good in Hch|done].
Qed.

Lemma map_seq_snoc (l : list pyval) e n : (0 ≤ n)%Z → map sequence_of l = seqZ 1 n → sequence_of e = (n + 1)%Z →
  map sequence_of (l ++ [e]) = seqZ 1 (n + 1).
Proof. intros Hn Hl He. rewrite map_app, Hl. cbn [map]. rewrite He, seqZ_app by lia. by rewrite Z.add_comm. Qed.

Lemma current_sequence s : good rid s → (0 ≤ int_fld "event_sequence" s)%Z.
Proof.
  intros Hg. apply v_header in Hg. unfold header_ok, dget_or in Hg. bool_inv. rewrite !dget_reload in *. unfold int_fld.
  destruct (dget "event_sequence" s) as [[]|]; try discriminate; try done. by apply Z.leb_le.
Qed.

Lemma push_change s c e : good rid s → fixed (VDict s) → _valid_event (reload (VDict e)) = true →
  dget "sequence" e = Some (VInt (int_fld "event_sequence" s + 1)) → push_event e s = Ok c → change_ok rid s c.
Proof.
  intros Hg Hf He Hseq Hc. unfold push_event in Hc. destruct (dget "events" s) as [[]|] eqn:Hev; try discriminate. injection Hc as <-.
  pose proof Hg as Hg'. destruct Hg' as [_ _ Hh _ _ _ _ [_ _ _ _ _ _ Hall Hsq]]. rewrite (fixed_reload_dict s Hf) in *.
  unfold dget_or in *. rewrite Hev in *. cbn in Hall, Hsq.
  pose proof (current_sequence s Hg) as Hn.
  assert (map reload l = l) as Hl.
  { pose proof (dget_fixed _ _ _ Hf Hev) as Hx. unfold fixed in Hx. cbn in Hx. by injection Hx. }
  assert (good rid (dset "event_sequence" (VInt (int_fld "event_sequence" s + 1)) (dset "events" (VList (l ++ [VDict e])) s))) as Hgood.
  { apply good_events; [lia| | |done].
    - intros x [Hx|Hx]%elem_of_app; [|apply list_elem_of_singleton in Hx as ->; done].
      rewrite <- Hl in Hx. apply list_elem_of_fmap in Hx as (y & -> & Hy). rewrite reload_idem. apply Hall. rewrite <- Hl. apply list_elem_of_fmap. by exists y.
    - rewrite map_app, Hl. apply map_seq_snoc; [done|done|]. cbn [map]. rewrite reload_VDict. cbn [sequence_of]. unfold int_fld at 1.
      by rewrite dget_reload, Hseq. }
  apply (change_keep rid s s); [|done|by apply change_refl].
  intros k Hk. rewrite !dget_dset_ne; [done|..]; intros <-; revert Hk; apply (bool_decide_unpack _); by vm_compute.
Qed.

Lemma fixed_current d s : disk_ok rid d → current rid d s → fixed (VDict s).
Proof. intros Hok Hcur. by destruct (current_facts rid d s Hok Hcur) as (_ & _ & Hf & _). Qed.

Lemma terminal_event_step task owner e clk d d' r : disk_ok rid d →
  append_terminal_event_if_absent rid task owner e clk d = Ok (d', r) → stepped d d'.
Proof.
  intros Hok Ht. unfold append_terminal_event_if_absent in Ht. apply bind_ok in Ht as (t & Hid & Ht).
  apply bind_ok in Ht as (s & Hs & Ht). apply bind_ok in Ht as (u & _ & Ht). apply bind_ok in Ht as (u' & Hst & Ht).
  apply open_run_ok in Hs as [Hcur _]. destruct (filter _ _) as [|ev rest].
  - apply bind_ok in Ht as (c & Hc & Ht). apply bind_ok in Ht as (now & Hn & Ht). apply bind_ok in Ht as (d1 & Hw & Ht).
    assert (d1 = d') as -> by congruence. apply clock_value_ok in Hn as [-> Hn]. right. exists s, c, now.
    split; [done|]. split; [|done]. pose proof (current_good d s Hok Hcur) as Hg.
    apply (push_change s c _ Hg (fixed_current d s Hok Hcur)) in Hc; [done| |done].
    assert (_ID task = true) as Hid'.
    { unfold _safe_id in Hid. destruct (_ && _) eqn:Hb; [|discriminate]. by bool_inv. }
    pose proof (current_sequence s Hg) as Hz. revert Hz; generalize (int_fld "event_sequence" s); intros z.
    rewrite reload_VDict. unfold _valid_event, dget_or. rewrite !dget_reload. unfold terminal_event.
    match goal with |- context [dget _ ?e] => set (ev := e) end.
    assert (dget "sequence" ev = Some (VInt (z + 1))) as -> by done. assert (dget "event_id" ev = Some (VStr task)) as -> by done.
    assert (dget "ordering_key" ev = Some (VStr task)) as -> by done. assert (dget "generation" ev = None) as -> by done.
    assert (dget "metadata" ev = None) as -> by done. cbn -[_ID Z.leb]. rewrite Hid'.
    assert (task ≠ "") by (by eapply ident_nonempty). rewrite (proj2 (nonempty_true task)) by done.
    intros Hz. by rewrite (proj2 (Z.leb_le _ _)) by lia.
  - left. destruct (existsb _ _); [|discriminate]. congruence.
Qed.

(** The event as it is stored, whatever its number, passes [_valid_event]. *)
Definition storable (event : pyval) : Prop :=
  ∀ r item n, _redact event = Ok (VDict r) → prepare_event r = Ok item → (1 ≤ n)%Z →
    _valid_event (reload (VDict (dset "sequence" (VInt n) item))) = true.

Lemma redact_mapping v r : is_mapping v = true → _redact v = Ok r → ∃ l, r = VDict l.
Proof. destruct v; try discriminate; intros _ Hr; apply bind_ok in Hr as (l & _ & Hr); eexists; by injection Hr as <-. Qed.

Lemma event_step event owner e clk d d' s' : disk_ok rid d → storable event →
  append_event rid event owner e clk d = Ok (d', s') → wrote d d'.
Proof.
  intros Hok Hst Ht. unfold append_event in Ht. apply bind_ok in Ht as (u & Hm & Ht). apply ensure_ok in Hm.
  apply bind_ok in Ht as ([[d1 s1] u'] & Hmu & Ht). injection Ht as -> ->.
  apply (mutate_wrote _ _ _ _ _ _ _ _ Hmu). intros s c Hcur _ Hc.
  apply bind_ok in Hc as (r & Hr & Hc). apply bind_ok in Hc as (item & Hi & Hc). apply bind_ok in Hc as (c' & Hp & Hc).
  assert (c' = c) as -> by congruence. destruct (redact_mapping _ _ Hm Hr) as [l ->].
  pose proof (current_good d s Hok Hcur) as Hg.
  apply (push_change s c _ Hg (fixed_current d s Hok Hcur)) in Hp; [done| |by apply dget_dset_eq].
  apply (Hst l item); [done|done|]. pose proof (current_sequence s Hg). lia.
Qed.

Lemma safe_id_ok v t : _safe_id v = Ok t → v = VStr t ∧ _ID t = true.
Proof.
  unfold _safe_id. destruct v; try discriminate. destruct (_ && _) eqn:Hb; [|discriminate]. intros [= <-]. bool_inv. done.
Qed.

(** A task with a report is terminal. *)
Lemma report_terminal s t v : good rid s → fixed (VDict s) → dget t (fld "reports" s) = Some v → terminal_in (Some v) = true.
Proof.
  intros Hg Hf Ht. destruct (good_entries rid "reports" s ltac:(by repeat constructor) Hg) as [Hd Hall].
  pose proof (dget_fixed _ _ _ (dget_fixed _ _ _ Hf Hd) Ht) as Hv. apply dget_elem_of, Hall in Ht.
  change (report_bad (VStr t, reload v) = Ok false) in Ht. rewrite Hv in Ht. unfold report_bad in Ht. cbn [fst snd] in Ht. destruct (str_is _ _); [|discriminate].
  apply fmap_ok in Ht as (b & Hb & Hbn). destruct b; [|discriminate]. destruct v as [| | | | | | |d| |]; try discriminate.
  unfold _valid_report_record in Hb. destruct (negb _); [discriminate|]. apply bind_ok in Hb as (k & Hk & Hb).
  destruct k; [|discriminate]. apply in_set_true in Hk as (st & Hst & Hin). unfold terminal_in. rewrite Hst. cbn [str_in].
  apply bool_decide_eq_true_2. repeat (apply elem_of_cons in Hin as [-> | Hin]; [by repeat constructor|]). by apply elem_of_nil in Hin.
Qed.

Lemma claim_add_ok s task owner secs clk token c t : good rid s → fixed (VDict s) → str_fld "owner" s = owner →
  _ID task = true → _ID token = true → claim_add rid task owner secs clk token s = Ok (c, t) →
  change_ok rid s c ∧ ∃ expiry, clock_ok (VStr expiry) = true ∧ t = lease_token rid task token expiry (generation s + 1) ∧
    dget task (fld "leases" c) = Some (VDict (lease_entry owner token expiry (generation s + 1))).
Proof.
  intros Hg Hf Ho Hid Htok Ha. unfold claim_add in Ha.
  apply bind_ok in Ha as (u & _ & Ha). apply bind_ok in Ha as (u' & Hterm & Ha). apply ensure_ok in Hterm. bool_inv.
  apply bind_ok in Ha as (now & Hn & Ha). apply clock_value_ok in Hn as [-> Hn]. apply bind_ok in Ha as (u2 & _ & Ha).
  apply bind_ok in Ha as (expiry & He & Ha). apply (expiry_clock_ok now) in He; [|done]. injection Ha as <- <-.
  assert (dget task (fld "reports" s) = None) as Hr.
  { destruct (dget task (fld "reports" s)) as [v|] eqn:E; [|done]. pose proof (report_terminal s task v Hg Hf E). congruence. }
  split; [apply change_install; try done; by apply change_refl|]. exists expiry. split; [done|]. split; [done|].
  fields. apply dget_dset_eq.
Qed.

Lemma claim_step task owner secs e clk token clk' d d' t : disk_ok rid d → _ID token = true →
  claim rid task owner secs e clk token clk' d = Ok (d', t) → wrote d d'.
Proof.
  intros Hok Htok Hc. unfold claim in Hc. apply bind_ok in Hc as (x & Hid & Hc). apply safe_id_ok in Hid as [Hx Hid].
  assert (x = task) as -> by congruence.
  apply bind_ok in Hc as ([[d1 s1] t1] & Hm & Hc). assert (d1 = d' ∧ t1 = t) as [-> ->] by (split; congruence).
  apply (mutate_wrote _ _ _ _ _ _ _ _ Hm). intros s c Hcur Ho Ha.
  by apply (claim_add_ok s task owner secs clk token c t (current_good d s Hok Hcur) (fixed_current d s Hok Hcur) Ho Hid Htok) in Ha as [? _].
Qed.

Lemma change_reclaim s now : good rid s → change_ok rid s (reclaim now s).
Proof.
  intros Hg. unfold reclaim. apply change_sub_leases; [|done|by apply change_refl]. by intros kv [_ Hin]%list_elem_of_filter.
Qed.

Lemma reports_install owner t id expiry n c : fld "reports" (install_lease owner t id expiry n c) = fld "reports" c.
Proof. unfold install_lease. by fields. Qed.

Lemma change_install_all s c owner expiry grants :
  str_fld "owner" s = owner → clock_ok (VStr expiry) = true → fld "reports" c = fld "reports" s →
  (∀ g, g ∈ grants → _ID g.1 = true ∧ _ID g.2 = true ∧ dget g.1 (fld "reports" s) = None) →
  change_ok rid s c → change_ok rid s (install_all owner expiry (generation s + 1) grants c).
Proof.
  intros Ho He. revert c. induction grants as [|[t id] grants IH]; intros c Hr Hall Hc; [done|].
  destruct (Hall (t, id)) as (Ht & Hid & Hrep); [left|]. cbn [install_all foldl fst snd] in *. apply IH.
  - by rewrite reports_install.
  - intros g Hg. apply Hall. by right.
  - apply change_install; try done. by rewrite Hr.
Qed.

Lemma strings_of_some l ids : strings_of l = Some ids → l = map VStr ids.
Proof.
  revert ids. induction l as [|v l IH]; intros ids; cbn; [by intros [= <-]|]. destruct v; try discriminate.
  intros (ids' & Hi & ->)%fmap_Some. cbn. f_equal. by apply IH.
Qed.

Lemma check_choice_ok chosen available capacity ids : check_choice chosen available capacity = Ok ids →
  NoDup ids ∧ (Z.of_nat (length ids) ≤ capacity)%Z ∧ ∀ t, t ∈ ids → t ∈ available.
Proof.
  unfold check_choice. destruct chosen; try discriminate. destruct (capacity <? _)%Z eqn:Hc; [discriminate|].
  intros (out & Ho & Hi)%bind_ok. destruct out; [discriminate|]. destruct (strings_of l) as [ids'|] eqn:Hs; [|discriminate].
  apply strings_of_some in Hs as ->. destruct (bool_decide _) eqn:Hn; [|discriminate]. injection Hi as ->. bool_inv.
  rewrite length_map in Hc. split; [done|]. split; [done|]. intros t Ht.
  assert (negb <$> in_set (VStr t) available = Ok false) as Hin.
  { apply (proj1 (anyM_false _ _) Ho). apply list_elem_of_fmap. by exists t. }
  apply fmap_ok in Hin as (b & Hb & Hbn). destruct b; [|discriminate]. apply in_set_true in Hb as (t' & [= ->] & Ht'). done.
Qed.

Lemma check_ids_ok l ids : check_ids l = Ok ids → ∀ t, t ∈ ids → _ID t = true.
Proof.
  unfold check_ids. destruct (strings_of l) as [ids'|]; [|discriminate]. destruct (_ && _) eqn:Hb; [|discriminate].
  intros [= ->]. bool_inv. by apply forallb_true_iff.
Qed.

Lemma not_terminal_no_report s t : good rid s → fixed (VDict s) → t ∉ terminal_ids s → dget t (fld "reports" s) = None.
Proof.
  intros Hg Hf Ht. destruct (dget t (fld "reports" s)) as [v|] eqn:E; [|done]. exfalso. apply Ht.
  apply elem_of_app. right. apply list_elem_of_omap. exists (VStr t, v). split; [by apply dget_elem_of|].
  cbn [fst snd]. by rewrite (report_terminal s t v).
Qed.

Lemma reclaim_reports now s : fld "reports" (reclaim now s) = fld "reports" s.
Proof. unfold reclaim. by fields. Qed.
Lemma reclaim_generation now s : generation (reclaim now s) = generation s.
Proof. unfold reclaim. by fields. Qed.

Lemma claim_many_step ids owner mp secs select clk tokens clk' d d' out : disk_ok rid d → Forall (λ t, _ID t = true) tokens →
  claim_many rid ids owner mp secs select clk tokens clk' d = Ok (d', out) → stepped d d'.
Proof.
  intros Hok Htok Hc. unfold claim_many in Hc. apply bind_ok in Hc as (m & _ & Hc). apply bind_ok in Hc as (x & _ & Hc).
  apply bind_ok in Hc as (ts & Hids & Hc). apply bind_ok in Hc as (s & Hs & Hc). apply open_run_ok in Hs as [Hcur Ho].
  apply bind_ok in Hc as (known & _ & Hc). apply bind_ok in Hc as (u & _ & Hc). apply bind_ok in Hc as (u1 & Hterm & Hc).
  apply ensure_ok in Hterm. pose proof (proj1 (forallb_true_iff _ _) Hterm) as Hterm'. cbv beta in Hterm'. apply bind_ok in Hc as (now & Hn & Hc). apply clock_value_ok in Hn as [-> Hn].
  apply bind_ok in Hc as (u2 & _ & Hc). apply bind_ok in Hc as (ch & _ & Hc). apply bind_ok in Hc as (chosen & Hch & Hc).
  apply check_choice_ok in Hch as (_ & _ & Hsub).
  pose proof (current_good d s Hok Hcur) as Hg. pose proof (fixed_current d s Hok Hcur) as Hf.
  pose proof (change_reclaim s now Hg) as Hrec. rewrite reclaim_generation in Hc.
  destruct chosen as [|t0 rest] eqn:Hcs.
  - destruct (existsb _ _); [|left; congruence]. apply bind_ok in Hc as (d1 & Hw & Hc). right. exists s, (reclaim now s), now.
    assert (d1 = d') as <- by congruence. done.
  - rewrite <- Hcs in *. apply bind_ok in Hc as (expiry & He & Hc). apply (expiry_clock_ok now) in He; [|done].
    apply bind_ok in Hc as (now' & Hn' & Hc). apply clock_value_ok in Hn' as [-> Hn']. apply bind_ok in Hc as (d1 & Hw & Hc).
    assert (d1 = d') as -> by congruence. right.
    exists s, (install_all owner expiry (generation s + 1) (zip chosen tokens) (reclaim now s)), now'. split; [done|]. split; [|done].
    apply change_install_all; [done|done|apply reclaim_reports| |done]. intros [t id] Hin. cbn [fst snd].
    pose proof (elem_of_zip_l _ _ _ _ Hin) as Ht. pose proof (elem_of_zip_r _ _ _ _ Hin) as Hi.
    rewrite Forall_forall in Htok. apply Hsub, list_elem_of_filter in Ht as [_ Ht].
    split; [by apply (check_ids_ok ids ts)|]. split; [by apply Htok|]. apply not_terminal_no_report; [done|done|].
    specialize (Hterm' t Ht). bool_inv. done.
Qed.
End steps.

(** ** Renewing and committing *)

Section commits.
Context `{PlanIdentity} (rid : string).

Lemma lease_valid s t l : good rid s → fixed (VDict s) → dget t (fld "leases" s) = Some l →
  lease_ok (VStr t, l) = true ∧ fixed l.
Proof.
  intros Hg Hf Ht. destruct (good_entries rid "leases" s ltac:(by repeat constructor) Hg) as [Hd Hall].
  pose proof (dget_fixed _ _ _ (dget_fixed _ _ _ Hf Hd) Ht) as Hl. split; [|done].
  apply dget_elem_of, Hall in Ht. change (lease_ok (VStr t, reload l) = true) in Ht. by rewrite Hl in Ht.
Qed.

Lemma renewed_lease_ok t lease id expiry n : lease_ok (VStr t, VDict lease) = true → fixed (VDict lease) →
  _ID id = true → clock_ok (VStr expiry) = true → (0 ≤ n)%Z →
  lease_ok (VStr t, reload (VDict (dset "generation" (VInt n) (dset "expires_at" (VStr expiry) (dset "lease_id" (VStr id) lease))))) = true.
Proof.
  unfold lease_ok at 1. cbn [fst snd]. intros Hl Hf Hid He Hn. bool_inv. unfold dget_or in *.
  destruct (dget "owner" lease) as [[| | | |o| | | | |]|] eqn:Ho; try discriminate.
  apply (lease_intro t _ o id expiry n); try done; [|by rewrite !dget_dset..].
  repeat (apply same_keys_dset; [by repeat constructor|]). done.
Qed.

Lemma check_token_ok s t token clk lease : _check_token s t token clk = Ok lease →
  ∃ tk, entries token = Some tk ∧ _validate_token_shape s t token = Ok tk ∧ dget t (fld "leases" s) = Some (VDict lease) ∧
    holds_lease tk lease = true.
Proof.
  unfold _check_token. intros Hc. apply bind_ok in Hc as (tk & Htk & Hc). apply bind_ok in Hc as (now & _ & Hc).
  destruct (dget t _) as [[]|]; try discriminate. apply bind_ok in Hc as (u & Hu & Hc). apply ensure_ok in Hu. bool_inv.
  assert (kvs = lease) as <- by congruence. exists tk. split; [|done].
  unfold _validate_token_shape in Htk. destruct (entries token) as [x|]; [|discriminate].
  apply bind_ok in Htk as (? & _ & Htk). apply bind_ok in Htk as (? & _ & Htk). by injection Htk as ->.
Qed.

Lemma renew_change_ok s task token secs clk id c t : good rid s → fixed (VDict s) → snap_inv s → _ID id = true →
  renew_change rid task token secs clk id s = Ok (c, t) →
  change_ok rid s c ∧ ∃ expiry l, clock_ok (VStr expiry) = true ∧ t = lease_token rid task id expiry (generation s + 1) ∧
    dget task (fld "leases" c) = Some (VDict l) ∧ str_fld "lease_id" l = id ∧ str_fld "expires_at" l = expiry ∧
    int_fld "generation" l = (generation s + 1)%Z.
Proof.
  intros Hg Hf [_ Hrep Hat] Hid Hc. unfold renew_change in Hc.
  apply bind_ok in Hc as (now & Hn & Hc). apply clock_value_ok in Hn as [-> Hn]. apply bind_ok in Hc as (lease & Hl & Hc).
  apply bind_ok in Hc as (expiry & He & Hc). apply (expiry_clock_ok now) in He; [|done]. injection Hc as <- <-.
  apply check_token_ok in Hl as (tk & _ & _ & Hl & _).
  destruct (lease_valid s task _ Hg Hf Hl) as [Hlo Hlf]. pose proof (good_owner rid s Hg) as [_ Hge].
  assert (dget task (fld "reports" s) = None) as Hnr.
  { destruct (dget task (fld "reports" s)) eqn:E; [|done]. exfalso. apply (Hrep task (VDict lease)); [by rewrite E|by apply dget_elem_of]. }
  set (l := dset "generation" _ _). assert (int_fld "generation" l = (generation s + 1)%Z) as Hgen.
  { subst l. by rewrite int_fld_dset, bool_decide_true. }
  split.
  - apply change_leases; [..|by apply change_refl].
    + intros kv [-> | Hin]%elem_of_dset; [|by left]. right. by exists task, l.
    + intros t' v [[= -> ->] | Hin]%elem_of_dset; [by right|by left].
    + apply good_entry_set; [by repeat constructor| |done]. apply renewed_lease_ok; try done. lia.
    + intros Hs t' v. fields. intros [[= -> ->] | Hin]%elem_of_dset; [|by apply (Hs t' v)].
      apply (Hs task (VDict lease)). by apply dget_elem_of.
  - exists expiry, l. split; [done|]. split; [done|]. fields. rewrite dget_dset_eq. split; [done|]. subst l.
    by rewrite !str_fld_dset.
Qed.

Lemma renew_step task token owner secs clk id clk' d d' t : disk_ok rid d → (∀ s, current rid d s → snap_inv s) → _ID id = true →
  renew rid task token owner secs clk id clk' d = Ok (d', t) → wrote rid d d'.
Proof.
  intros Hok Hinv Hid Hr. unfold renew in Hr. apply bind_ok in Hr as (x & _ & Hr).
  apply bind_ok in Hr as ([[d1 s1] t1] & Hm & Hr). injection Hr as -> ->.
  apply (mutate_wrote _ _ _ _ _ _ _ _ _ Hm). intros s c Hcur _ Hc.
  by apply (renew_change_ok s task token secs clk id c t (current_good rid d s Hok Hcur) (fixed_current rid d s Hok Hcur) (Hinv s Hcur) Hid) in Hc as [? _].
Qed.

(** Redacted values hold no tuples, so that their emptiness is read back. *)
Definition flat (v : pyval) : Prop := match v with VTuple _ | VProxy _ => False | _ => True end.
Lemma redact_flat v w : _redact v = Ok w → flat w.
Proof.
  destruct v; cbn; intros Hr; repeat (first [apply bind_ok in Hr as (? & _ & Hr)|case_match]); try discriminate; by injection Hr as <-.
Qed.
Lemma redact_entries v l : is_mapping v = true → _redact v = Ok (VDict l) → ∀ kv, kv ∈ l → flat kv.2.
Proof.
  intros Hm Hr. assert (∃ kvs, (v = VDict kvs ∨ v = VProxy kvs)) as (kvs & Hv) by (destruct v; try discriminate; eauto).
  assert (mapM (λ kv, match kv.1 with
    | VStr k => if search _SENSITIVE k then Ok (VStr k, VStr "[REDACTED]") else w ← _redact kv.2; Ok (VStr k, w)
    | _ => Err (RunStoreError "payload mapping keys must be strings") end) kvs = Ok l) as Hl.
  { destruct Hv as [-> | ->]; cbn [_redact] in Hr; apply bind_ok in Hr as (l' & Hl & Hr); by injection Hr as ->. }
  apply mapM_res_ok in Hl. clear Hr Hv. intros kv Hkv. apply list_elem_of_lookup in Hkv as (i & Hi).
  destruct (Forall2_lookup_r _ _ _ _ _ Hl Hi) as ([k x] & _ & Hkx). cbn [fst snd] in Hkx.
  destruct k; try discriminate. destruct (search _SENSITIVE s); [by injection Hkx as <-|].
  apply bind_ok in Hkx as (w & Hw & Hkx). injection Hkx as <-. by apply redact_flat in Hw.
Qed.

Lemma reload_dict_nil d : reload_dict d = [] ↔ d = [].
Proof.
  split; [|by intros ->]. intros Hd. apply (f_equal length) in Hd. unfold reload_dict in Hd.
  rewrite length_sort_by, length_map in Hd. by destruct d.
Qed.
Lemma meaningful_reload v : flat v → meaningful (reload v) = meaningful v.
Proof.
  destruct v as [| | | | |l| |d| |]; try done; intros _.
  - by destruct l.
  - rewrite reload_VDict. destruct d as [|kv d]; [done|].
    destruct (reload_dict (kv :: d)) as [|kv' d'] eqn:E; [|done]. discriminate (proj1 (reload_dict_nil _) E).
Qed.

Lemma clock_ok_reload v : clock_ok (reload v) = clock_ok v.
Proof. by destruct v. Qed.

Lemma valid_report_reload l st : (∀ kv, kv ∈ l → flat kv.2) → _valid_report (VDict l) st = true →
  _valid_report (reload (VDict l)) st = true.
Proof.
  intros Hl. rewrite reload_VDict. unfold _valid_report. cbn [entries]. rewrite has_unknown_reload.
  assert (∀ k, got k (reload_dict l) = got k l) as Hgot.
  { intros k. unfold got, dget_or. rewrite dget_reload. destruct (dget k l) as [v|] eqn:E; [|done].
    apply meaningful_reload. exact (Hl _ (dget_elem_of _ _ _ E)). }
  unfold report_complete. rewrite !Hgot, !dhas_reload. intros Hv. bool_inv.
  apply andb_true_intro; split; [apply andb_true_intro; split; [apply andb_true_intro; split|]|done].
  - by apply negb_true_iff.
  - unfold dget_or in *. rewrite dget_reload. destruct (dget "status" l) as [[]|]; done.
  - apply forallb_true_iff. intros k Hk. cbv beta. rewrite dget_reload.
    match goal with Hc : forallb _ _ = true |- _ => pose proof (proj1 (forallb_true_iff _ _) Hc k Hk) as Hck end. cbv beta in Hck.
    destruct (dget k l) as [v|]; [|done]. cbn. by rewrite clock_ok_reload.
Qed.

Lemma record_ok t st l digest attempt id n :
  _ID t = true → st ∈ _REPORT_STATUSES → (∀ kv, kv ∈ l → flat kv.2) → _valid_report (VDict l) st = true →
  json_digest (VDict l) = Ok digest → (1 ≤ attempt)%Z → _ID id = true → (0 ≤ n)%Z →
  report_bad (VStr t, reload (VDict (report_record st l digest attempt id n))) = Ok false.
Proof.
  intros Ht Hst Hl Hv Hd Ha Hid Hn. unfold report_bad. cbn [fst snd str_is]. rewrite Ht. rewrite reload_VDict.
  unfold _valid_report_record, dget_or. cbv beta iota zeta. rewrite same_keys_reload, !dget_reload.
  set (r := report_record st l digest attempt id n).
  assert (same_keys _RECORD_KEYS r = true) as -> by done. assert (dget "status" r = Some (VStr st)) as -> by done.
  assert (dget "report" r = Some (VDict l)) as -> by done. assert (dget "attempt" r = Some (VInt attempt)) as -> by done.
  assert (dget "lease_id" r = Some (VStr id)) as -> by done. assert (dget "digest" r = Some (VStr digest)) as -> by done.
  assert (dget "lease_generation" r = Some (VInt n)) as -> by done.
  set (report := reload (VDict l)). pose proof (valid_report_reload l st Hl Hv) as Hvr.
  pose proof (json_digest_reload _ _ Hd) as Hdr. fold report in Hvr, Hdr.
  assert (match report with VDict r => negb (has_unknown _REPORT_FIELDS r) | _ => false end = true) as Hun.
  { unfold report. rewrite reload_VDict, has_unknown_reload. unfold _valid_report in Hv. cbn [entries] in Hv. bool_inv.
    by apply negb_true_iff. }
  assert (is_sha256_hex digest = true) as Hsha.
  { unfold json_digest in Hd. apply fmap_ok in Hd as (w & _ & ->). apply sha256_shape. }
  change (negb <$> (known ← in_set (VStr st) _REPORT_STATUSES;
    Ok (known && match report with VDict r => negb (has_unknown _REPORT_FIELDS r) | _ => false end &&
        (1 <=? attempt)%Z && _ID id && (0 <=? n)%Z && is_sha256_hex digest && digest_matches report (VStr digest) &&
        _valid_report report st)) = Ok false).
  rewrite in_set_str by done. cbn [mbind res_bind]. rewrite Hun, Hid, Hsha, Hvr. unfold digest_matches. rewrite Hdr.
  rewrite bool_decide_true by done. rewrite !(proj2 (Z.leb_le _ _)) by done. done.
Qed.

Lemma lease_fields t lease : lease_ok (VStr t, VDict lease) = true →
  _ID t = true ∧ _ID (str_fld "lease_id" lease) = true ∧ (0 ≤ int_fld "generation" lease)%Z.
Proof.
  unfold lease_ok, dget_or, str_fld, int_fld. cbn [fst snd]. intros Hl. bool_inv.
  destruct (dget "lease_id" lease) as [[]|]; try discriminate. destruct (dget "generation" lease) as [[]|]; try discriminate.
  split; [done|]. split; [done|]. by apply Z.leb_le.
Qed.
Lemma holds_fields tk lease : holds_lease tk lease = true →
  str_fld "lease_id" lease = str_fld "lease_id" tk ∧ int_fld "generation" lease = int_fld "generation" tk.
Proof. unfold holds_lease. intros Hh. by bool_inv. Qed.

Lemma prepare_report_ok report status safe digest : prepare_report report status = Ok (safe, digest) →
  status ∈ _REPORT_STATUSES ∧ (∀ kv, kv ∈ safe → flat kv.2) ∧ _valid_report (VDict safe) status = true ∧
  json_digest (VDict safe) = Ok digest ∧ _redact report = Ok (VDict safe).
Proof.
  unfold prepare_report. intros Hp. apply bind_ok in Hp as (u & Hst & Hp). apply ensure_ok, bool_decide_eq_true in Hst.
  apply bind_ok in Hp as (u1 & Hm & Hp). apply ensure_ok in Hm. apply bind_ok in Hp as (sv & Hr & Hp).
  apply bind_ok in Hp as (u2 & Hv & Hp). apply ensure_ok in Hv. apply bind_ok in Hp as (h & Hd & Hp).
  destruct (redact_mapping _ _ Hm Hr) as [l ->]. assert (l = safe ∧ h = digest) as [-> ->] by (split; congruence).
  split; [done|]. split; [by apply (redact_entries report)|]. done.
Qed.

Lemma report_statuses st : st ∈ _REPORT_STATUSES → st ∈ _TASK_STATUSES.
Proof. intros Hin. repeat (apply elem_of_cons in Hin as [-> | Hin]; [by repeat constructor|]). by apply elem_of_nil in Hin. Qed.

Lemma commit_change s task token report status clk safe digest tk lease : good rid s → fixed (VDict s) → snap_inv s →
  prepare_report report status = Ok (safe, digest) → _validate_token_shape s task token = Ok tk →
  dget task (fld "reports" s) = None → _check_token s task token clk = Ok lease →
  change_ok rid s (committed tk status safe digest task s) ∧
  ∃ n, dget task (fld "reports" (committed tk status safe digest task s)) =
    Some (VDict (report_record status safe digest n (str_fld "lease_id" tk) (int_fld "generation" tk))).
Proof.
  intros Hg Hf [_ _ Hat] Hp Htk Hex Hl.
  apply check_token_ok in Hl as (tk' & _ & Htk' & Hl & Hh). assert (tk' = tk) as -> by congruence.
  destruct (lease_valid s task _ Hg Hf Hl) as [Hlo _].
  destruct (Hat task (VDict lease) (dget_elem_of _ _ _ Hl)) as (n & Hatt & Hn1).
  destruct (prepare_report_ok _ _ _ _ Hp) as (Hst & Hflat & Hv & Hd & _).
  destruct (lease_fields _ _ Hlo) as (Hid & Hlid & Hgen). destruct (holds_fields _ _ Hh) as [Eid Egen]. rewrite Eid in Hlid. rewrite Egen in Hgen.
  unfold committed. rewrite Hatt. set (record := report_record _ _ _ _ _ _). set (c1 := set_fld "reports" _ s).
  assert (good rid c1) as Hg1.
  { apply good_entry_set; [by repeat constructor| |done]. by apply record_ok. }
  assert (good rid (set_task_status task status c1)) as Hg2.
  { unfold set_task_status. apply good_entry_set; [by repeat constructor| |done]. by apply task_entry_ok, report_statuses. }
  assert (good rid (drop_lease task (set_task_status task status c1))) as Hg3.
  { apply good_entry_sub; [by repeat constructor| |done]. intros kv. apply elem_of_dpop. }
  split; [split; [done|..]; unfold c1; fields; try done|].
  - unfold set_fld. by rewrite !str_fld_dset.
  - intros t r Ht. rewrite dget_dset_ne; [done|]. intros ->. congruence.
  - intros kv Hin%elem_of_dpop. by left.
  - intros t v Hrc Hrs Hin. rewrite dget_dset in Hrc. case_bool_decide; [subst t|congruence].
    apply dpop_no_key in Hin; done.
  - intros Hs t v. fields. intros Hin%elem_of_dpop. by apply (Hs t v).
  - exists n. unfold c1. fields. by rewrite dget_dset_eq.
Qed.

Lemma commit_step task token owner report status clk clk' d d' s' :
  disk_ok rid d → (∀ s, current rid d s → snap_inv s) →
  commit rid task token owner report status clk clk' d = Ok (d', s') → stepped rid d d'.
Proof.
  intros Hok Hinv Hc. unfold commit in Hc. apply bind_ok in Hc as ([safe digest] & Hp & Hc).
  apply bind_ok in Hc as (s & Hs & Hc). apply open_run_ok in Hs as [Hcur Ho]. apply bind_ok in Hc as (tk & Htk & Hc).
  destruct (dget task (fld "reports" s)) as [ex|] eqn:Hex.
  { apply bind_ok in Hc as (u & _ & Hc). destruct (_ && _); [|discriminate]. left. congruence. }
  apply bind_ok in Hc as (lease & Hl & Hc). apply bind_ok in Hc as (now & Hn & Hc). apply clock_value_ok in Hn as [-> Hn].
  apply bind_ok in Hc as (d1 & Hw & Hc). assert (d1 = d') as -> by congruence. right.
  exists s, (committed tk status safe digest task s), now. split; [done|]. split; [|done].
  by apply (commit_change s task token report status clk safe digest tk lease (current_good rid d s Hok Hcur)
    (fixed_current rid d s Hok Hcur) (Hinv s Hcur)).
Qed.
End commits.
