(* ===== verification/RunStoreSpec.v ===== *)
(** * The run store: properties of runs

    Runs as sequences of completed operations ([step]), the invariant of the
    runs ([run_ok]) and the properties of the store: durability, crash safety,
    reports that stay, fenced and exclusive leases, bounded capacity, and the
    two inputs for which the store writes what it cannot read. *)

From stdpp Require Import strings list.
From S2P Require Import Prelude PyStr PyNum PyVal Regex Sha256 IsoTime RunStore RunStoreFacts.

Open Scope string_scope.

(** ** Runs: sequences of completed operations *)

Section runs.
Context `{PlanIdentity} (rid : string).

(** A change that only drops leases: the scheduler's. *)
Definition drops_leases (fn : dict → sres (dict * unit)) : Prop :=
  ∀ s c, fn s = Ok (c, ()) → c = s ∨ ∃ l, (∀ kv, kv ∈ l → kv ∈ fld "leases" s) ∧ c = set_fld "leases" l s.

(** One completed operation of the store on a run.  Random tokens are hexadecimal
    strings.  One completed operation is left out: [append_event] of an event
    whose stored form is not valid, which the store accepts and no later [load]
    finds ([append_event_lost]); [operations_durable] covers it apart. *)
Inductive step : disk → disk → Prop :=
| StepTransition status owner e clk d d' s : transition rid status owner e clk d = Ok (d', s) → step d d'
| StepUpdate task status owner e clk d d' s : update_task_status rid task status owner e clk d = Ok (d', s) → step d d'
| StepTerminalEvent task owner e clk d d' r : append_terminal_event_if_absent rid task owner e clk d = Ok (d', r) → step d d'
| StepEvent event owner e clk d d' s : storable event → append_event rid event owner e clk d = Ok (d', s) → step d d'
| StepClaim task owner secs e clk token clk' d d' t :
    _ID token = true → claim rid task owner secs e clk token clk' d = Ok (d', t) → step d d'
| StepClaimMany ids owner mp secs select clk tokens clk' d d' out :
    Forall (λ t, _ID t = true) tokens → claim_many rid ids owner mp secs select clk tokens clk' d = Ok (d', out) → step d d'
| StepRenew task token owner secs clk id clk' d d' t :
    _ID id = true → renew rid task token owner secs clk id clk' d = Ok (d', t) → step d d'
| StepCommit task token owner report status clk clk' d d' s :
    commit rid task token owner report status clk clk' d = Ok (d', s) → step d d'
| StepDrop fn owner e clk d d' s : drops_leases fn → _mutate rid owner e fn clk d = Ok (d', s, ()) → step d d'.

Record run_ok (d : disk) : Prop := {
  r_disk : disk_ok rid d;
  r_inv : ∀ s, current rid d s → snap_inv s }.

Lemma step_stepped d d' : run_ok d → step d d' → stepped rid d d'.
Proof.
  intros [Hok Hinv] Hs. destruct Hs.
  - right. eapply transition_step; eassumption.
  - right. eapply update_step; eassumption.
  - eapply terminal_event_step; eassumption.
  - right. eapply event_step; eassumption.
  - right. eapply claim_step; eassumption.
  - eapply claim_many_step; eassumption.
  - right. eapply renew_step; eassumption.
  - eapply commit_step; eassumption.
  - right. match goal with Hm : _mutate _ _ _ _ _ _ = _ |- _ => apply (mutate_wrote _ _ _ _ _ _ _ _ _ Hm) end.
    intros s0 c Hcur _ Hc. pose proof (current_good rid d s0 Hok Hcur) as Hg. pose proof (change_refl rid s0 Hg) as Hr.
    match goal with Hd : drops_leases _ |- _ => destruct (Hd s0 c Hc) as [-> | (l & Hl & ->)] end; [done|]. by apply change_sub_leases.
Qed.

Lemma sealed_fld k c sealed : k ≠ "checksum" → _seal c = Ok sealed → fld k sealed = fld k c.
Proof. intros Hk Hs. unfold fld. by rewrite (seal_get k c sealed Hk Hs). Qed.
Lemma sealed_generation c sealed : _seal c = Ok sealed → generation (reload_dict sealed) = generation c.
Proof.
  intros Hs. unfold generation, int_fld. rewrite dget_reload, (seal_get "generation" c sealed) by done.
  by destruct (dget "generation" c) as [[]|].
Qed.
Lemma bumped_fld k c now : k ≠ "generation" → k ≠ "updated_at" → fld k (stamp now (bump c)) = fld k c.
Proof. intros. unfold stamp, bump. by rewrite !fld_dset_ne by congruence. Qed.

Lemma reloaded_fld k c now sealed : k ∉ ["generation"; "updated_at"; "checksum"] → _seal (stamp now (bump c)) = Ok sealed →
  fld k (reload_dict sealed) = reload_dict (fld k c).
Proof.
  rewrite !not_elem_of_cons. intros (H1 & H2 & H3 & _) Hs. by rewrite fld_reload, (sealed_fld _ _ _ H3 Hs), bumped_fld.
Qed.
Lemma reloaded_fields c now sealed : _seal (stamp now (bump c)) = Ok sealed →
  fld "leases" (reload_dict sealed) = reload_dict (fld "leases" c) ∧
  fld "reports" (reload_dict sealed) = reload_dict (fld "reports" c) ∧
  fld "attempts" (reload_dict sealed) = reload_dict (fld "attempts" c).
Proof. intros Hs. split_and!; (eapply reloaded_fld; [by apply (bool_decide_unpack _); vm_compute|exact Hs]). Qed.

Lemma sealed_owner c now sealed : _seal (stamp now (bump c)) = Ok sealed → str_fld "owner" (reload_dict sealed) = str_fld "owner" c.
Proof.
  intros Hs. unfold str_fld. rewrite dget_reload, (seal_get "owner" _ _ ltac:(done) Hs). unfold stamp, bump.
  rewrite !dget_dset_ne by done. by destruct (dget "owner" c) as [[]|].
Qed.

Lemma change_inv s c now sealed : snap_inv s → change_ok rid s c → _seal (stamp now (bump c)) = Ok sealed →
  snap_inv (reload_dict sealed) ∧ generation (reload_dict sealed) = (generation s + 1)%Z.
Proof.
  intros [Hgen Hrep Hat] [_ Hg _ Hr Hl Hd Ha] Hs.
  assert (generation (reload_dict sealed) = (generation s + 1)%Z) as Hgn.
  { rewrite (sealed_generation _ _ Hs), generation_bumped. by rewrite Hg. }
  destruct (reloaded_fields _ _ _ Hs) as (El & Er & Ea). split; [|done]. split.
  - intros t l. rewrite El, Hgn. intros (v & Hin & Hv)%elem_of_reload. cbn [fst snd] in *.
    destruct v as [| | | | | | |l0| |]; try discriminate. rewrite reload_VDict in Hv. injection Hv as ->.
    assert (int_fld "generation" (reload_dict l0) = int_fld "generation" l0) as ->.
    { unfold int_fld. rewrite dget_reload. by destruct (dget "generation" l0) as [[]|]. }
    destruct (Hl _ Hin) as [Hin' | (t' & l' & [= -> ->] & Hn & _)]; [|lia]. pose proof (Hgen _ _ Hin'). lia.
  - intros t v. rewrite El, Er, dget_reload. intros Hne (w & Hin & _)%elem_of_reload. cbn [fst snd] in Hin.
    assert (dget t (fld "reports" c) ≠ None) as Hne' by (by intros E; rewrite E in Hne).
    destruct (dget t (fld "reports" s)) as [r|] eqn:E; [|by apply (Hd t w)].
    destruct (Hl _ Hin) as [Hin' | (t' & l' & [= -> ->] & _ & Hn)]; [|congruence]. apply (Hrep t w); [by rewrite E|done].
  - intros t v. rewrite El, Ea. intros (w & Hin & _)%elem_of_reload. cbn [fst snd] in Hin.
    destruct (Ha Hat t w Hin) as (n & Hn & Hn1). exists n. by rewrite dget_reload, Hn.
Qed.

Lemma wrote_ok d d' : run_ok d → wrote rid d d' →
  run_ok d' ∧ ∃ s c now sealed, current rid d s ∧ change_ok rid s c ∧ _seal (stamp now (bump c)) = Ok sealed ∧
    current rid d' (reload_dict sealed) ∧ generation (reload_dict sealed) = (generation s + 1)%Z.
Proof.
  intros [Hok Hinv] Hw. destruct (wrote_current rid d d' Hok Hw) as (Hok' & s & c & now & sealed & Hcur & Hc & Hs & Hcur').
  destruct (change_inv s c now sealed (Hinv s Hcur) Hc Hs) as [Hi Hg]. split; [|by exists s, c, now, sealed].
  split; [done|]. intros s' Hs'. unfold current in *. rewrite Hcur' in Hs'. injection Hs' as <-. done.
Qed.

Lemma load_current d s : load rid d = Ok s ↔ current rid d s.
Proof.
  unfold load, current. split.
  - intros Hl. apply bind_ok in Hl as (f & Hf & Hl). destruct f as [x|]; [by injection Hl as ->|].
    destruct (_ || _); [discriminate|]. by destruct (_ && _).
  - intros ->. done.
Qed.

Lemma run_step_ok d d' : run_ok d → step d d' → run_ok d' ∧
  (d' = d ∨ ∃ s s', current rid d s ∧ current rid d' s' ∧ generation s' = (generation s + 1)%Z).
Proof.
  intros Hr Hs. destruct (step_stepped d d' Hr Hs) as [-> | Hw]; [by split; [|left]|].
  destruct (wrote_ok d d' Hr Hw) as (Hr' & s & c & now & sealed & H1 & _ & _ & H2 & H3).
  split; [done|]. right. by exists s, (reload_dict sealed).
Qed.

Lemma current_unique d s s' : current rid d s → current rid d s' → s = s'.
Proof. unfold current. congruence. Qed.

(** Reports stay, and their tasks are never leased again. *)
Lemma steps_report d d' s t r : run_ok d → rtc step d d' → current rid d s → dget t (fld "reports" s) = Some r →
  run_ok d' ∧ ∃ s', current rid d' s' ∧ (generation s ≤ generation s')%Z ∧ dget t (fld "reports" s') = Some r ∧
    str_fld "owner" s' = str_fld "owner" s.
Proof.
  intros Hr Hs. revert s Hr. induction Hs as [d|d d1 d' Hst Hs IH]; intros s Hr Hcur Ht; [by split; [|exists s]|].
  destruct (run_step_ok d d1 Hr Hst) as [Hr1 _]. destruct (step_stepped d d1 Hr Hst) as [-> | Hw]; [by apply IH|].
  destruct (wrote_ok d d1 Hr Hw) as (_ & s0 & c & now & sealed & Hcur0 & Hc & Hse & Hcur1 & Hg).
  rewrite (current_unique _ _ _ Hcur0 Hcur) in *.
  assert (fixed r) as Hf.
  { pose proof (fixed_current rid d s (r_disk _ Hr) Hcur) as Hf. pose proof (current_good rid d s (r_disk _ Hr) Hcur) as Hgd.
    destruct (good_entries rid "reports" s ltac:(by repeat constructor) Hgd) as [Hd _].
    exact (dget_fixed _ _ _ (dget_fixed _ _ _ Hf Hd) Ht). }
  destruct (IH (reload_dict sealed) Hr1 Hcur1) as (Hr' & s' & Hcur' & Hle & Ht' & Hown).
  { destruct (reloaded_fields _ _ _ Hse) as (_ & -> & _). rewrite dget_reload, (h_reports _ _ _ Hc t r Ht). cbn. by rewrite Hf. }
  split; [done|]. exists s'. split; [done|]. split; [lia|]. split; [done|]. by rewrite Hown, (sealed_owner _ _ _ Hse), (h_owner _ _ _ Hc).
Qed.
End runs.

(** ** Creating a run *)

Section creation.
Context `{PlanIdentity} (rid : string).

Lemma initial_lookup k owner h now canonical :
  dget k (reload_dict (initial_state rid owner h now canonical)) = reload <$> dget k (initial_state rid owner h now canonical).
Proof. apply dget_reload. Qed.

Lemma initial_keys owner h now canonical : same_keys _FIELDS (dset "checksum" VNone (initial_state rid owner h now canonical)) = true.
Proof. done. Qed.

Lemma initial_contents owner h now canonical : contents (reload_dict (initial_state rid owner h now canonical)).
Proof.
  split; unfold dget_or; rewrite ?initial_lookup.
  - intros w Hw. by apply elem_of_nil in Hw.
  - exists []. split; [done|]. by intros kv ?%elem_of_nil.
  - exists []. split; [done|]. by intros kv ?%elem_of_nil.
  - exists []. split; [done|]. by intros kv ?%elem_of_nil.
  - exists []. split; [done|]. by intros kv ?%elem_of_nil.
  - exists []. split; [done|]. by intros kv ?%elem_of_nil.
  - intros w Hw. by apply elem_of_nil in Hw.
  - unfold int_fld. by rewrite initial_lookup.
Qed.

Lemma initial_header owner h now canonical : _ID owner = true → header_ok (reload_dict (initial_state rid owner h now canonical)) rid = true.
Proof.
  intros Ho. unfold header_ok, dget_or. rewrite !initial_lookup. set (i := initial_state rid owner h now canonical).
  assert (dget "schema_version" i = Some (VStr schema_version)) as -> by done. assert (dget "run_id" i = Some (VStr rid)) as -> by done.
  assert (dget "generation" i = Some (VInt 0)) as -> by done. assert (dget "event_sequence" i = Some (VInt 0)) as -> by done.
  assert (dget "owner" i = Some (VStr owner)) as -> by done. cbn -[_ID bool_decide]. by rewrite !bool_decide_true.
Qed.

Lemma initial_types owner h now kvs : types_ok (reload_dict (initial_state rid owner h now (VDict kvs))) = true.
Proof. unfold types_ok, dget_or. cbn [forallb _COLLECTIONS]. by rewrite !initial_lookup. Qed.

Lemma initial_plan owner h now canonical :
  plan_matches (reload_dict (initial_state rid owner h now canonical)) = bool_decide (plan_hash (reload canonical) = Some h).
Proof.
  unfold plan_matches, dget_or. rewrite !initial_lookup. set (i := initial_state rid owner h now canonical).
  assert (dget "plan_hash" i = Some (VStr h)) as -> by done. assert (dget "plan" i = Some canonical) as -> by done.
  change (is_the (VStr h) (match plan_hash (reload canonical) with Some h => Ok h | None => Err ContractValidationError end) =
    bool_decide (plan_hash (reload canonical) = Some h)).
  destruct (plan_hash (reload canonical)) as [h'|]; [|done]. unfold is_the. apply bool_decide_ext. split; congruence.
Qed.

Lemma initial_good owner h now kvs : _ID owner = true → clock_ok (VStr now) = true → plan_hash (reload (VDict kvs)) = Some h →
  good rid (initial_state rid owner h now (VDict kvs)).
Proof.
  intros Ho Hn Hh. split.
  - intros k Hk. rewrite dhas_reload. repeat (apply elem_of_cons in Hk as [-> | Hk]; [first [by right|by left]|]). by apply elem_of_nil in Hk.
  - by rewrite has_unknown_reload.
  - by apply initial_header.
  - unfold dget_or. rewrite initial_lookup. by apply in_set_str; repeat constructor.
  - unfold dget_or. by rewrite initial_lookup.
  - by apply initial_types.
  - rewrite initial_plan. by apply bool_decide_eq_true_2.
  - apply initial_contents.
Qed.

Lemma unstable_invalid owner h now canonical sealed : plan_hash (reload canonical) ≠ Some h →
  _seal (initial_state rid owner h now canonical) = Ok sealed → _validate (reload (VDict sealed)) rid = Ok false.
Proof.
  intros Hne Hs. unfold _seal in Hs. apply bind_ok in Hs as (c & _ & Hs). apply ok_inj in Hs. subst sealed. rewrite reload_VDict.
  unfold _validate. destruct (negb (same_keys _ _)); [done|]. destruct (negb (header_ok _ _)); [done|].
  assert (∀ k, k ≠ "checksum" → dget k (reload_dict (dset "checksum" (VStr c) (initial_state rid owner h now canonical))) =
    dget k (reload_dict (initial_state rid owner h now canonical))) as Hget.
  { intros k Hk. by apply getR_ne. }
  assert (dget_or VNone "status" (reload_dict (dset "checksum" (VStr c) (initial_state rid owner h now canonical))) = VStr "created") as ->.
  { unfold dget_or. rewrite Hget by done. by rewrite initial_lookup. }
  rewrite in_set_str by repeat constructor. cbn [mbind res_bind andb]. destruct (negb (is_str _)); [done|]. destruct (negb (types_ok _)); [done|].
  assert (plan_matches (reload_dict (dset "checksum" (VStr c) (initial_state rid owner h now canonical))) = false) as ->; [|done].
  unfold plan_matches, dget_or. rewrite !Hget by done. pose proof (initial_plan owner h now canonical) as Hp. unfold plan_matches, dget_or in Hp.
  rewrite Hp. by apply bool_decide_eq_false_2.
Qed.

Lemma create_parts plan owner clk d d' s : create rid plan owner None clk d = Ok (d', s) →
  ∃ kvs h now, canonicalize plan = Some (VDict kvs) ∧ plan_hash plan = Some h ∧ _safe_id (VStr rid) = Ok rid ∧
    _ID owner = true ∧ clock_ok (VStr now) = true ∧ _seal (initial_state rid owner h now (VDict kvs)) = Ok s ∧
    d' = MkDisk false (Json (reload (VDict s))) Absent.
Proof.
  unfold create. intros Hc. apply bind_ok in Hc as (r & Hr & Hc). pose proof (safe_id_ok _ _ Hr) as [Hrr _]. assert (r = rid) as -> by congruence.
  apply bind_ok in Hc as (o & Ho & Hc). assert (_ID owner = true) as Hown.
  { destruct (_safe_id (VStr owner)) as [o'|] eqn:E; [|discriminate]. pose proof (safe_id_ok _ _ E) as [[= <-] ?]. done. }
  apply bind_ok in Hc as (u & _ & Hc). apply bind_ok in Hc as (c & Hcan & Hc).
  destruct (canonicalize plan) as [c'|] eqn:Ec; [|discriminate]. destruct (canonicalize_dict _ _ Ec) as [kvs ->].
  assert (c = VDict kvs) as -> by congruence.
  apply bind_ok in Hc as (now & Hn & Hc). apply clock_value_ok in Hn as [-> Hn]. apply bind_ok in Hc as (u1 & Hdir & Hc).
  apply bind_ok in Hc as (u2 & Habs & Hc). apply ensure_ok in Habs. apply bind_ok in Hc as (h & Hh & Hc).
  apply bind_ok in Hc as (st & Hst & Hc). cbn [apply_initial] in Hst. apply ok_inj in Hst. subst st.
  apply bind_ok in Hc as (d1 & Hw & Hc). apply bind_ok in Hc as (sealed & Hs & Hc).
  assert (d1 = d' ∧ sealed = s) as [-> ->] by (split; congruence).
  exists kvs, h, now. split; [done|]. split; [destruct (plan_hash plan); congruence|]. do 3 (split; [done|]). split; [done|].
  unfold _write, _write_steps in Hw. rewrite Hdir, Hs in Hw. cbn [mbind res_bind] in Hw. apply andb_true_iff in Habs as [Hp Hb].
  destruct (primary d); try discriminate. destruct (backup d); try discriminate. cbn [is_symlink orb negb ensure read_slot mbind res_bind] in Hw.
  unfold fmap, res_fmap in Hw. apply ok_inj in Hw. by rewrite <- Hw.
Qed.

Lemma absent_reads s p : read_slot rid (Json (reload (VDict s))) = Ok p → read_slot rid Absent = Ok None → _safe_id (VStr rid) = Ok rid →
  _valid_snapshot rid (MkDisk false (Json (reload (VDict s))) Absent) = Ok p.
Proof.
  intros Hp Hb Hs. unfold _valid_snapshot, _dir. cbn [d_symlink primary backup]. rewrite Hs. cbn [mbind res_bind ensure negb].
  rewrite Hp, Hb. by destruct p.
Qed.

Lemma created_run_ok plan owner clk d d' s kvs h : create rid plan owner None clk d = Ok (d', s) →
  canonicalize plan = Some (VDict kvs) → plan_hash plan = Some h → plan_hash (reload (VDict kvs)) = Some h →
  run_ok rid d' ∧ current rid d' (reload_dict s) ∧ generation (reload_dict s) = 0%Z ∧ str_fld "owner" (reload_dict s) = owner.
Proof.
  intros Hc Hk Hh Hst. destruct (create_parts _ _ _ _ _ _ Hc) as (kvs' & h' & now & Hk' & Hh' & Hid & Hown & Hn & Hs & ->).
  assert (kvs' = kvs ∧ h' = h) as [-> ->] by (split; congruence).
  pose proof (initial_good owner h now kvs Hown Hn Hst) as Hg. pose proof (sealed_valid rid _ _ Hg Hs) as Hv.
  assert (read_slot rid (Json (reload (VDict s))) = Ok (Some (reload_dict s))) as Hr.
  { rewrite reload_VDict in *. cbn [read_slot]. by rewrite Hv. }
  assert (current rid (MkDisk false (Json (reload (VDict s))) Absent) (reload_dict s)) as Hcur by (by apply absent_reads).
  assert (∀ k, k ≠ "checksum" → fld k (reload_dict s) = reload_dict (fld k (initial_state rid owner h now (VDict kvs)))) as Hf.
  { intros k Hne. by rewrite fld_reload, (sealed_fld k _ _ Hne Hs). }
  split; [|split; [done|split]].
  - split.
    + split; cbn [d_symlink primary backup]; try done.
      * intros v Hjv. assert (reload (VDict s) = v) as <- by congruence. apply reload_idem.
      * exists (Some (reload_dict s)), None. done.
    + intros s' Hs'. rewrite (current_unique rid _ _ _ Hs' Hcur). split.
      * intros t l. rewrite Hf by done. by intros (v & Hin%elem_of_nil & _)%elem_of_reload.
      * intros t v _. rewrite Hf by done. by intros (w & Hin%elem_of_nil & _)%elem_of_reload.
      * intros t v. rewrite Hf by done. by intros (w & Hin%elem_of_nil & _)%elem_of_reload.
  - by rewrite (sealed_generation _ _ Hs).
  - unfold str_fld. rewrite dget_reload, (seal_get "owner" _ _ ltac:(done) Hs). done.
Qed.

(** A created run can be loaded exactly when the canonical form of its plan
    has the plan's hash: then loading returns the created snapshot, at
    generation 0; otherwise [create] returned normally and every [load]
    reports a corrupt snapshot. *)
Theorem create_durable plan owner clk d d' s kvs h :
  create rid plan owner None clk d = Ok (d', s) → canonicalize plan = Some (VDict kvs) → plan_hash plan = Some h →
  (plan_hash (reload (VDict kvs)) = Some h ∧ run_ok rid d' ∧ load rid d' = Ok (reload_dict s) ∧ generation (reload_dict s) = 0%Z) ∨
  (plan_hash (reload (VDict kvs)) ≠ Some h ∧ load rid d' = Err CorruptSnapshotError).
Proof.
  intros Hc Hk Hh. destruct (decide (plan_hash (reload (VDict kvs)) = Some h)) as [Hst | Hne]; [left|right]; (split; [done|]).
  - destruct (created_run_ok _ _ _ _ _ _ _ _ Hc Hk Hh Hst) as (Hr & Hcur & Hg & _). split; [done|]. split; [by apply load_current|done].
  - destruct (create_parts _ _ _ _ _ _ Hc) as (kvs' & h' & now & Hk' & Hh' & Hid & Hown & Hn & Hs & ->).
    assert (kvs' = kvs ∧ h' = h) as [-> ->] by (split; congruence). unfold load.
    rewrite (absent_reads s None); [done| |done|done]. pose proof (unstable_invalid _ _ _ _ _ Hne Hs) as Hv.
    rewrite reload_VDict in *. cbn [read_slot]. by rewrite Hv.
Qed.
End creation.

(** ** A concrete run, for the examples *)

Definition plain_identity : PlanIdentity.
Proof.
  refine {| canonicalize v := if is_dict v then Some v else None;
            plan_hash v := if is_dict v then Some "0123456789abcdef0123456789abcdef0123456789abcdef0123456789abcdef" else None |}.
  - intros v w Hv. destruct v; try discriminate. injection Hv as <-. eauto.
  - intros v. by destruct (is_dict v).
Defined.

Definition demo_hash : string := "0123456789abcdef0123456789abcdef0123456789abcdef0123456789abcdef".
Definition demo_plan_fields : dict := [(VStr "tasks", VList [VDict [(VStr "id", VStr "t1")]; VDict [(VStr "id", VStr "t2")]])].
Definition demo_plan : pyval := VDict demo_plan_fields.
Definition demo_time : pyval := VStr "2026-01-01T00:00:00.000000Z".
Definition demo_later : pyval := VStr "2026-01-01T00:00:30.000000Z".
Definition demo_token : string := "0123456789abcdef0123456789abcdef".
Definition demo_empty : disk := MkDisk false Absent Absent.
Definition disk_of {A} (m : sres (disk * A)) : disk := match m with Ok (d, _) => d | Err _ => demo_empty end.
Definition value_of {A} (a : A) (m : sres (disk * A)) : A := match m with Ok (_, x) => x | Err _ => a end.
Definition demo_create : sres (disk * dict) := create (H := plain_identity) "run" demo_plan "owner" None demo_time demo_empty.
Definition loaded (m : sres dict) : dict := match m with Ok s => s | Err _ => [] end.
Definition demo_disk : disk := Eval vm_compute in disk_of demo_create.
Definition demo_sealed : dict := Eval vm_compute in value_of [] demo_create.
Definition demo_claim : sres (disk * pyval) :=
  claim (H := plain_identity) "run" "t1" "owner" (VInt 60) None demo_time demo_token demo_time demo_disk.
Definition demo_held : disk := Eval vm_compute in disk_of demo_claim.
Definition demo_lease_token : pyval := Eval vm_compute in value_of VNone demo_claim.

Lemma demo_created : create (H := plain_identity) "run" demo_plan "owner" None demo_time demo_empty = Ok (demo_disk, demo_sealed).
Proof. vm_compute. reflexivity. Qed.
Lemma demo_run_ok : run_ok (H := plain_identity) "run" demo_disk.
Proof.
  exact (proj1 (created_run_ok (H := plain_identity) "run" demo_plan "owner" demo_time demo_empty demo_disk demo_sealed
    demo_plan_fields demo_hash demo_created eq_refl eq_refl eq_refl)).
Qed.
Lemma demo_claimed :
  claim (H := plain_identity) "run" "t1" "owner" (VInt 60) None demo_time demo_token demo_time demo_disk = Ok (demo_held, demo_lease_token).
Proof. vm_compute. reflexivity. Qed.

Lemma create_durable_witness : ∃ d s, create (H := plain_identity) "run" demo_plan "owner" None demo_time demo_empty = Ok (d, s) ∧
  ((plan_hash (PlanIdentity := plain_identity) (reload demo_plan) = Some demo_hash ∧
    run_ok (H := plain_identity) "run" d ∧ load (H := plain_identity) "run" d = Ok (reload_dict s) ∧ generation (reload_dict s) = 0%Z) ∨
   (plan_hash (PlanIdentity := plain_identity) (reload demo_plan) ≠ Some demo_hash ∧
    load (H := plain_identity) "run" d = Err CorruptSnapshotError)).
Proof.
  exists demo_disk, demo_sealed. split; [exact demo_created|].
  exact (create_durable (H := plain_identity) "run" demo_plan "owner" demo_time demo_empty demo_disk demo_sealed
    demo_plan_fields demo_hash demo_created eq_refl eq_refl).
Defined.

Section properties.
Context `{PlanIdentity} (rid : string).

(** C8: A write is crash-safe.  The store replaces the backup and then the
    primary; a crash between the two leaves the snapshot the operation started
    from as the one [load] returns, and after the second the new one is
    returned, whatever was in the slots of a run in good order. *)
Theorem write_crash_safe d s c now w : run_ok rid d → load rid d = Ok s → change_ok rid s c → clock_ok (VStr now) = true →
  _write_steps rid (stamp now (bump c)) d = Ok w →
  load rid (w_backup w) = Ok s ∧
  ∃ sealed, _seal (stamp now (bump c)) = Ok sealed ∧ load rid (w_done w) = Ok (reload_dict sealed) ∧ run_ok rid (w_done w).
Proof.
  intros [Hok Hinv] Hl Hc Hn Hw. apply load_current in Hl.
  destruct (write_steps_ok rid d s _ w Hok Hl (good_bumped rid s c now Hc Hn)) as (Hb & _ & sealed & Hs & Hd & Hok'); [|done|].
  { by rewrite generation_bumped, (h_generation _ _ _ Hc). }
  split; [by apply load_current|]. exists sealed. split; [done|]. split; [by apply load_current|]. split; [done|].
  intros s' Hs'. rewrite (current_unique rid _ _ _ Hs' Hd). by apply (change_inv rid s c now sealed (Hinv s Hl) Hc Hs).
Qed.

(** C11: A report is final.  Once a task has a report, every later snapshot of
    the run, after any sequence of completed operations, holds the same report,
    and the task is never leased again. *)
Theorem report_final d d' s t r : run_ok rid d → rtc (step rid) d d' → load rid d = Ok s → dget t (fld "reports" s) = Some r →
  ∃ s', load rid d' = Ok s' ∧ (generation s ≤ generation s')%Z ∧ dget t (fld "reports" s') = Some r ∧
    ∀ v, (VStr t, v) ∉ fld "leases" s'.
Proof.
  intros Hr Hs Hl Ht. apply load_current in Hl. destruct (steps_report rid d d' s t r Hr Hs Hl Ht) as (Hr' & s' & Hcur & Hg & Ht' & _).
  exists s'. split; [by apply load_current|]. split; [done|]. split; [done|]. intros v. apply (i_reported _ (r_inv _ _ Hr' s' Hcur)). by rewrite Ht'.
Qed.
End properties.

Section leases.
Context `{PlanIdentity} (rid : string).

Lemma load_facts d s : run_ok rid d → load rid d = Ok s → current rid d s ∧ good rid s ∧ fixed (VDict s) ∧ snap_inv s.
Proof.
  intros Hr Hl. apply load_current in Hl. split; [done|].
  destruct (current_facts rid d s (r_disk _ _ Hr) Hl) as (_ & _ & Hf & Hg & _). split; [done|]. split; [done|]. by apply (r_inv _ _ Hr).
Qed.

Lemma open_run_load owner d s : load rid d = Ok s → str_fld "owner" s = owner → open_run rid owner d = Ok s.
Proof. intros Hl Ho. apply load_current in Hl. unfold open_run. rewrite Hl. cbn. by rewrite bool_decide_true. Qed.
Lemma load_open_run owner d s : open_run rid owner d = Ok s → load rid d = Ok s ∧ str_fld "owner" s = owner.
Proof. intros [Hc Ho]%open_run_ok. split; [by apply load_current|done]. Qed.

(** A token that is not the lease's is refused. *)
Lemma token_refused s t token clk lease :
  dget t (fld "leases" s) = Some (VDict lease) →
  (∀ tk, entries token = Some tk → int_fld "generation" tk ≠ int_fld "generation" lease) →
  is_ok (_check_token s t token clk) = false.
Proof.
  intros Hl Hne. destruct (_check_token s t token clk) as [l|] eqn:E; [|done].
  apply check_token_ok in E as (tk & Htk & _ & Hl' & Hh). assert (l = lease) as -> by congruence.
  apply holds_fields in Hh as [_ Hg]. by destruct (Hne tk Htk).
Qed.

(** The task of a new lease, in the snapshot written. *)
Lemma lease_written c now sealed t l : _seal (stamp now (bump c)) = Ok sealed → dget t (fld "leases" c) = Some (VDict l) →
  dget t (fld "leases" (reload_dict sealed)) = Some (VDict (reload_dict l)).
Proof. intros Hs Hl. destruct (reloaded_fields _ _ _ Hs) as (-> & _). by rewrite dget_reload, Hl. Qed.

(** A grant: the lease of task [t] was written with this id, expiry and generation. *)
Definition granted (d d' : disk) (t id expiry : string) : Prop :=
  ∃ s s' l, load rid d = Ok s ∧ load rid d' = Ok s' ∧ run_ok rid d' ∧ generation s' = (generation s + 1)%Z ∧
    dget t (fld "leases" s') = Some (VDict l) ∧ str_fld "lease_id" l = id ∧ str_fld "expires_at" l = expiry ∧
    int_fld "generation" l = (generation s + 1)%Z ∧ clock_ok (VStr expiry) = true ∧ str_fld "owner" s' = str_fld "owner" s ∧
    str_fld "run_id" s' = rid.

Lemma str_fld_reload k l : str_fld k (reload_dict l) = str_fld k l.
Proof. unfold str_fld. rewrite dget_reload. by destruct (dget k l) as [[]|]. Qed.
Lemma int_fld_reload k l : int_fld k (reload_dict l) = int_fld k l.
Proof. unfold int_fld. rewrite dget_reload. by destruct (dget k l) as [[]|]. Qed.

Lemma good_run_id s : good rid s → fixed (VDict s) → dget "run_id" s = Some (VStr rid).
Proof.
  intros Hg Hf. apply v_header in Hg. rewrite fixed_reload_dict in Hg by done. unfold header_ok, dget_or in Hg. bool_inv.
  destruct (dget "run_id" s) as [[]|]; try discriminate. cbn in *.
  match goal with Hb : bool_decide (_ = rid) = true |- _ => apply bool_decide_eq_true in Hb; by subst end.
Qed.

Lemma mutate_parts {A} owner e (fn : dict → sres (dict * A)) clk d d' s' a :
  _mutate rid owner e fn clk d = Ok (d', s', a) →
  ∃ s c now, load rid d = Ok s ∧ str_fld "owner" s = owner ∧ fn s = Ok (c, a) ∧ clock_ok (VStr now) = true ∧
    _write rid (stamp now (bump c)) d = Ok d' ∧ s' = stamp now (bump c).
Proof.
  unfold _mutate. intros Hm. apply bind_ok in Hm as (s & Hs & Hm). apply bind_ok in Hm as (u & _ & Hm).
  apply bind_ok in Hm as ([c a'] & Hc & Hm). apply bind_ok in Hm as (now & Hn & Hm). apply bind_ok in Hm as (d1 & Hw & Hm).
  apply load_open_run in Hs as [Hl Ho]. apply clock_value_ok in Hn as [-> Hn]. apply ok_inj in Hm.
  exists s, c, now. split; [done|]. split; [done|]. split; [congruence|]. split; [done|]. split; congruence.
Qed.

Lemma wrote_grant d s c now d' t id expiry owner :
  run_ok rid d → load rid d = Ok s → change_ok rid s c → clock_ok (VStr now) = true → _write rid (stamp now (bump c)) d = Ok d' →
  dget t (fld "leases" c) = Some (VDict owner) → str_fld "lease_id" owner = id → str_fld "expires_at" owner = expiry →
  int_fld "generation" owner = (generation s + 1)%Z → clock_ok (VStr expiry) = true →
  granted d d' t id expiry.
Proof.
  intros Hr Hl Hc Hn Hw Ht Hid He Hg Hce. pose proof (load_current rid d s) as [Hcur _]. specialize (Hcur Hl).
  destruct (wrote_ok rid d d' Hr) as (Hr' & s0 & c0 & now0 & sealed0 & H1 & _ & _ & H2 & H3); [by exists s, c, now|].
  rewrite (current_unique rid _ _ _ H1 Hcur) in *. clear c0 now0 H1.
  destruct (write_ok rid d s _ d' (r_disk _ _ Hr) Hcur (good_bumped rid s c now Hc Hn)) as (_ & sealed & Hs & Hcur'); [|done|].
  { by rewrite generation_bumped, (h_generation _ _ _ Hc). }
  rewrite (current_unique rid _ _ _ H2 Hcur') in *. clear sealed0 H2.
  assert (load rid d' = Ok (reload_dict sealed)) as Hl' by (by apply load_current).
  exists s, (reload_dict sealed), (reload_dict owner). do 4 (split; [done|]).
  split; [exact (lease_written c now sealed t owner Hs Ht)|]. rewrite !str_fld_reload, int_fld_reload. do 4 (split; [done|]).
  split.
  - unfold str_fld at 1. rewrite (seal_get "owner" _ _ ltac:(done) Hs). unfold stamp, bump.
    rewrite !dget_dset_ne by done. exact (h_owner _ _ _ Hc).
  - unfold str_fld at 1. destruct (load_facts d' _ Hr' Hl') as (_ & Hg' & Hf' & _).
    pose proof (good_run_id _ Hg' Hf') as Hri. rewrite dget_reload in Hri. by destruct (dget "run_id" sealed) as [[]|]; try discriminate; injection Hri as ->.
Qed.

Lemma claim_grant task owner secs e clk token clk' d d' t : run_ok rid d → _ID token = true →
  claim rid task owner secs e clk token clk' d = Ok (d', t) →
  ∃ expiry s, load rid d = Ok s ∧ str_fld "owner" s = owner ∧ t = lease_token rid task token expiry (generation s + 1) ∧
    granted d d' task token expiry.
Proof.
  intros Hr Htok Hc. pose proof Hc as Hc0. unfold claim in Hc. apply bind_ok in Hc as (x & Hid & Hc).
  apply safe_id_ok in Hid as [Hx Hid]. assert (x = task) as -> by congruence.
  apply bind_ok in Hc as ([[d1 s1] t1] & Hm & Hc). apply ok_inj in Hc. assert (d1 = d' ∧ t1 = t) as [-> ->] by (split; congruence).
  apply mutate_parts in Hm as (s & c & now & Hl & Ho & Ha & Hn & Hw & _). destruct (load_facts d s Hr Hl) as (_ & Hg & Hf & _).
  destruct (claim_add_ok rid s task owner secs clk token c t Hg Hf Ho Hid Htok Ha) as (Hch & expiry & He & -> & Hlease).
  exists expiry, s. do 3 (split; [done|]). by apply (wrote_grant d s c now d' task token expiry (lease_entry owner token expiry (generation s + 1))).
Qed.

Lemma renew_grant task token owner secs clk id clk' d d' t : run_ok rid d → _ID id = true →
  renew rid task token owner secs clk id clk' d = Ok (d', t) →
  ∃ expiry s, load rid d = Ok s ∧ str_fld "owner" s = owner ∧ t = lease_token rid task id expiry (generation s + 1) ∧
    granted d d' task id expiry.
Proof.
  intros Hr Hid Hc. unfold renew in Hc. apply bind_ok in Hc as (x & _ & Hc).
  apply bind_ok in Hc as ([[d1 s1] t1] & Hm & Hc). apply ok_inj in Hc. assert (d1 = d' ∧ t1 = t) as [-> ->] by (split; congruence).
  apply mutate_parts in Hm as (s & c & now & Hl & Ho & Ha & Hn & Hw & _). destruct (load_facts d s Hr Hl) as (_ & Hg & Hf & Hi).
  destruct (renew_change_ok rid s task token secs clk id c t Hg Hf Hi Hid Ha) as (Hch & expiry & l & He & -> & Hlease & H1 & H2 & H3).
  exists expiry, s. do 3 (split; [done|]). by apply (wrote_grant d s c now d' task id expiry l).
Qed.

(** The token of a grant is accepted until it expires. *)
Lemma token_accepted s t id expiry g l now : str_fld "run_id" s = rid → dget "run_id" s = Some (VStr rid) →
  dget t (fld "leases" s) = Some (VDict l) → str_fld "lease_id" l = id → str_fld "expires_at" l = expiry →
  int_fld "generation" l = g → clock_ok (VStr expiry) = true → clock_ok (VStr now) = true → str_ltb now expiry = true →
  _check_token s t (lease_token rid t id expiry g) (VStr now) = Ok l.
Proof.
  intros _ Hrun Hl Hid He Hg Hce Hcn Hlt. unfold _check_token, _validate_token_shape, lease_token. cbn [entries].
  set (tk := [_; _; _; _; _] : dict). assert (same_keys _TOKEN_KEYS tk = true) as -> by done.
  assert (dget_or VNone "run_id" tk = VStr rid) as -> by done. assert (dget_or VNone "task_id" tk = VStr t) as -> by done.
  assert (dget_or VNone "generation" tk = VInt g) as -> by done. assert (dget_or VNone "lease_id" tk = VStr id) as -> by done.
  assert (dget_or VNone "expires_at" tk = VStr expiry) as -> by done.
  assert (dget_or VNone "run_id" s = VStr rid) as -> by (unfold dget_or; by rewrite Hrun). cbn [py_eqb str_is is_exact_int is_str]. rewrite !bool_decide_true by done.
  cbn [andb ensure mbind res_bind]. unfold clock_ok in Hce, Hcn.
  destruct (_clock_value (VStr expiry)) as [e|] eqn:Ee; [|discriminate]. cbn [map_err mbind res_bind].
  destruct (_clock_value (VStr now)) as [n|] eqn:En; [|discriminate]. apply clock_value_ok in En as [[= <-] _].
  cbn [mbind res_bind]. rewrite Hl. unfold holds_lease.
  assert (str_fld "lease_id" tk = id) as -> by done. assert (int_fld "generation" tk = g) as -> by done.
  assert (str_fld "expires_at" tk = expiry) as -> by done. rewrite Hid, He, Hg, Z.eqb_refl, !bool_decide_true by done.
  unfold str_ltb, str_leb in *. by rewrite Hlt.
Qed.

(** C9: A granted lease fences every older one.  After a [claim] or a [renew]
    of a task, the token it returned is accepted by [use] until the time it
    names, in the order of the timestamps, while every token of a generation no
    later than the run had before, so every token handed out before, is refused
    by [use], by [renew] and by [commit]. *)
Theorem lease_fenced task owner secs d d' t id :
  run_ok rid d → _ID id = true →
  (∃ e clk clk', claim rid task owner secs e clk id clk' d = Ok (d', t)) ∨
  (∃ old clk clk', renew rid task old owner secs clk id clk' d = Ok (d', t)) →
  ∃ s expiry, load rid d = Ok s ∧ t = lease_token rid task id expiry (generation s + 1) ∧
    (∀ now, clock_ok (VStr now) = true → str_ltb now expiry = true → is_ok (use rid task t owner (VStr now) d') = true) ∧
    (∀ token tk clk, entries token = Some tk → (int_fld "generation" tk ≤ generation s)%Z →
       is_ok (use rid task token owner clk d') = false ∧
       (∀ secs new clk', is_ok (renew rid task token owner secs clk new clk' d') = false) ∧
       (∀ report status clk', is_ok (commit rid task token owner report status clk clk' d') = false)).
Proof.
  intros Hr Hid Hop.
  assert (∃ expiry s, load rid d = Ok s ∧ str_fld "owner" s = owner ∧ t = lease_token rid task id expiry (generation s + 1) ∧
    granted d d' task id expiry) as (expiry & s & Hl & Ho & -> & Hgr).
  { destruct Hop as [(e & clk & clk' & Hc) | (old & clk & clk' & Hc)]; [by eapply claim_grant|by eapply renew_grant]. }
  destruct Hgr as (s0 & s' & l & Hl0 & Hl' & Hr' & Hg' & Hlease & H1 & H2 & H3 & Hce & Hown & Hrun).
  assert (s0 = s) as -> by congruence. exists s, expiry. do 2 (split; [done|]).
  destruct (load_facts d' s' Hr' Hl') as (Hcur' & Hgd' & Hf' & Hi').
  assert (open_run rid owner d' = Ok s') as Hopen by (apply open_run_load; [done|congruence]).
  split.
  - intros now Hn Hlt. unfold use. rewrite Hopen. cbn [mbind res_bind].
    rewrite (token_accepted s' task id expiry _ l now); try done. by apply good_run_id.
  - intros token tk clk Htk Hle.
    assert (∀ clk, is_ok (_check_token s' task token clk) = false) as Href.
    { intros clk0. apply (token_refused s' task token clk0 l Hlease). intros tk' Htk'. assert (tk' = tk) as -> by congruence. lia. }
    specialize (Href clk). destruct (_check_token s' task token clk) as [x|e] eqn:Ec; [discriminate|].
    split; [|split].
    + unfold use. rewrite Hopen. cbn [mbind res_bind]. by rewrite Ec.
    + intros secs' new clk'. unfold renew. destruct (lease_duration secs'); [|done]. cbn [mbind res_bind]. unfold _mutate.
      rewrite Hopen. cbn [mbind res_bind check_generation]. unfold renew_change. destruct (_clock_value clk) as [n|] eqn:En; [|done].
      cbn [mbind res_bind]. by rewrite Ec.
    + intros report status clk'. unfold commit. destruct (prepare_report report status) as [[safe digest]|]; [|done]. cbn [mbind res_bind].
      rewrite Hopen. cbn [mbind res_bind]. destruct (_validate_token_shape s' task token) as [x|]; [|done]. cbn [mbind res_bind].
      destruct (dget task (fld "reports" s')) as [r|] eqn:Er.
      * exfalso. apply (i_reported _ Hi' task (VDict l)); [by rewrite Er|by apply dget_elem_of].
      * by rewrite Ec.
Qed.
End leases.

Section more_properties.
Context `{PlanIdentity} (rid : string).

(** ** Committing *)

Definition record_fields (v : pyval) : dict := match v with VDict x => x | _ => [] end.
(** The report of [task] in [s] is the one the lease of [tk] committed. *)
Definition committed_by (s : dict) (task : string) (tk : dict) (digest status : string) : Prop :=
  ∃ v, dget task (fld "reports" s) = Some v ∧
    str_fld "lease_id" (record_fields v) = str_fld "lease_id" tk ∧
    int_fld "lease_generation" (record_fields v) = int_fld "generation" tk ∧
    str_fld "digest" (record_fields v) = digest ∧ str_fld "status" (record_fields v) = status.

Lemma commit_committed d s owner task token tk report status safe digest report' status' safe' digest' c c' :
  open_run rid owner d = Ok s → prepare_report report status = Ok (safe, digest) → _validate_token_shape s task token = Ok tk →
  committed_by s task tk digest status → prepare_report report' status' = Ok (safe', digest') →
  commit rid task token owner report' status' c c' d =
  if bool_decide (digest = digest') && bool_decide (status = status') then Ok (d, s) else Err DuplicateCommitError.
Proof.
  intros Ho _ Htk (v & Hv & H1 & H2 & H3 & H4) Hp'. unfold commit. rewrite Hp'. cbn [mbind res_bind]. rewrite Ho. cbn [mbind res_bind].
  rewrite Htk. cbn [mbind res_bind]. rewrite Hv. cbv zeta. fold (record_fields v).
  rewrite H1, H2, H3, H4, Z.eqb_refl, (bool_decide_true (str_fld "lease_id" tk = _)) by done. done.
Qed.

Lemma commit_result d d1 s1 task token owner report status clk clk' : run_ok rid d →
  commit rid task token owner report status clk clk' d = Ok (d1, s1) →
  run_ok rid d1 ∧ ∃ safe digest tk s0 s, prepare_report report status = Ok (safe, digest) ∧ _validate_token_shape s0 task token = Ok tk ∧
    dget "run_id" s0 = Some (VStr rid) ∧ load rid d1 = Ok s ∧ str_fld "owner" s = owner ∧ committed_by s task tk digest status.
Proof.
  intros Hr Hc. pose proof Hc as Hc0. split.
  { destruct (run_step_ok rid d d1 Hr) as [? _]; [by eapply StepCommit|done]. }
  unfold commit in Hc. apply bind_ok in Hc as ([safe digest] & Hp & Hc).
  apply bind_ok in Hc as (s & Hs & Hc). apply bind_ok in Hc as (tk & Htk & Hc). apply load_open_run in Hs as [Hl Ho].
  destruct (load_facts rid d s Hr Hl) as (Hcur & Hg & Hf & Hi). pose proof (good_run_id rid s Hg Hf) as Hrun.
  destruct (dget task (fld "reports" s)) as [v|] eqn:Hv.
  { apply bind_ok in Hc as (u & Hu & Hc). apply ensure_ok in Hu. destruct (_ && _) eqn:Hb in Hc; [|discriminate].
    apply ok_inj in Hc. assert (d1 = d) as -> by congruence. bool_inv.
    exists safe, digest, tk, s, s. do 5 (split; [done|]). by exists v. }
  apply bind_ok in Hc as (lease & Hlease & Hc). apply bind_ok in Hc as (now & Hn & Hc). apply clock_value_ok in Hn as [-> Hn].
  apply bind_ok in Hc as (d2 & Hw & Hc). apply ok_inj in Hc. assert (d2 = d1) as -> by congruence.
  destruct (commit_change rid s task token report status clk safe digest tk lease Hg Hf Hi Hp Htk Hv Hlease) as (Hch & n & Hrec).
  destruct (write_ok rid d s _ d1 (r_disk _ _ Hr) Hcur (good_bumped rid s _ now Hch Hn)) as (_ & sealed & Hse & Hcur'); [|done|].
  { by rewrite generation_bumped, (h_generation _ _ _ Hch). }
  exists safe, digest, tk, s, (reload_dict sealed). do 3 (split; [done|]). split; [by apply load_current|].
  split; [by rewrite (sealed_owner _ _ _ Hse), (h_owner _ _ _ Hch)|].
  destruct (reloaded_fields _ _ _ Hse) as (_ & Hrp & _). exists (reload (VDict (report_record status safe digest n (str_fld "lease_id" tk) (int_fld "generation" tk)))).
  rewrite Hrp, dget_reload, Hrec. rewrite reload_VDict. cbn [record_fields]. rewrite !str_fld_reload, int_fld_reload. done.
Qed.

(** C10: A task is committed exactly once.  After a successful [commit], and any
    sequence of further completed operations on the run, the same call, at any
    time, succeeds again and changes nothing; a report that is redacted to
    another content, or another status, is refused with [DuplicateCommitError]. *)
Theorem commit_once d d1 s1 task token owner report status clk clk' : run_ok rid d →
  commit rid task token owner report status clk clk' d = Ok (d1, s1) →
  ∃ safe digest, prepare_report report status = Ok (safe, digest) ∧
  ∀ d2, rtc (step rid) d1 d2 →
    (∀ c c', ∃ s2, load rid d2 = Ok s2 ∧ commit rid task token owner report status c c' d2 = Ok (d2, s2)) ∧
    (∀ report' status' safe' digest' c c', prepare_report report' status' = Ok (safe', digest') → digest' ≠ digest ∨ status' ≠ status →
       commit rid task token owner report' status' c c' d2 = Err DuplicateCommitError).
Proof.
  intros Hr Hc. destruct (commit_result _ _ _ _ _ _ _ _ _ _ Hr Hc) as (Hr1 & safe & digest & tk & s0 & s & Hp & Htk & Hrun0 & Hl & Ho & v & Hv & Hrec).
  exists safe, digest. split; [done|]. intros d2 Hst. pose proof (proj1 (load_current rid d1 s) Hl) as Hcur.
  destruct (steps_report rid d1 d2 s task v Hr1 Hst Hcur Hv) as (Hr2 & s2 & Hcur2 & _ & Hv2 & Hown).
  pose proof (proj2 (load_current rid d2 s2) Hcur2) as Hl2.
  assert (open_run rid owner d2 = Ok s2) as Hopen by (apply open_run_load; [done|congruence]).
  destruct (load_facts rid d2 s2 Hr2 Hl2) as (_ & Hg2 & Hf2 & _). pose proof (good_run_id rid s2 Hg2 Hf2) as Hrun2.
  assert (_validate_token_shape s2 task token = Ok tk) as Htk2.
  { rewrite <- Htk. unfold _validate_token_shape, dget_or. by rewrite Hrun0, Hrun2. }
  assert (committed_by s2 task tk digest status) as Hcb by (by exists v).
  split.
  - intros c c'. exists s2. split; [done|].
    rewrite (commit_committed d2 s2 owner task token tk report status safe digest report status safe digest); try done.
    by rewrite !bool_decide_true.
  - intros report' status' safe' digest' c c' Hp' Hne.
    rewrite (commit_committed d2 s2 owner task token tk report status safe digest report' status' safe' digest'); try done.
    destruct Hne as [Hne | Hne].
    + by rewrite bool_decide_false by congruence.
    + rewrite (bool_decide_false (status = status')) by congruence. by rewrite andb_false_r.
Qed.
End more_properties.

Section claims.
Context `{PlanIdentity} (rid : string).

Lemma elem_of_dhas t v (l : dict) : (VStr t, v) ∈ l → dhas t l = true.
Proof.
  induction l as [|[k w] l IH]; [by intros ?%elem_of_nil|]. unfold dhas in *. cbn. intros [Hx | Hx]%elem_of_cons.
  - injection Hx as <- <-. cbn. by rewrite bool_decide_true.
  - destruct (key_is t k); [done|]. by apply IH.
Qed.

Lemma length_dset t v (l : dict) : (length (dset t v l) ≤ S (length l))%nat.
Proof. induction l as [|[k w] l IH]; cbn; [lia|]. destruct (key_is t k); cbn; lia. Qed.

Lemma length_install_all owner expiry g grants s :
  (length (fld "leases" (install_all owner expiry g grants s)) ≤ length grants + length (fld "leases" s))%nat.
Proof.
  revert s. induction grants as [|[t id] grants IH]; intros s; [done|]. cbn [install_all foldl fst snd length].
  etransitivity; [apply IH|]. unfold install_lease. fields.
  pose proof (length_dset t (VDict (lease_entry owner id expiry g)) (fld "leases" s)). lia.
Qed.

Lemma length_reload l : length (reload_dict l) = length l.
Proof. unfold reload_dict. by rewrite length_sort_by, length_map. Qed.

Lemma fld_stamped c now : fld "leases" (stamp now (bump c)) = fld "leases" c.
Proof. by apply bumped_fld. Qed.

(** The ids the selector may choose from, and its choice. *)
Definition available_ids (s : dict) (ids : list string) : list string := filter (λ t, dhas t (fld "leases" s) = false) ids.
Definition choices (s : dict) (ids : list string) (mp : Z) (select : option selector) (now : string) : sres pyval :=
  let capacity := (mp - Z.of_nat (length (fld "leases" s)))%Z in
  match select with
  | Some f => f s (available_ids s ids) capacity now
  | None => Ok (VList (map VStr (take (Z.to_nat capacity) (available_ids s ids))))
  end.

(** What [claim_many] writes, or that it writes nothing. *)
Lemma claim_many_parts ids owner mp secs select now tokens clk' d d' out s : load rid d = Ok s →
  claim_many rid ids owner (VInt mp) secs select (VStr now) tokens clk' d = Ok (d', out) →
  ∃ ts chosen, str_fld "owner" s = owner ∧ check_ids ids = Ok ts ∧
    (∃ choice, choices (reclaim now s) ts mp select now = Ok choice ∧
       check_choice choice (available_ids (reclaim now s) ts) (mp - Z.of_nat (length (fld "leases" (reclaim now s)))) = Ok chosen) ∧
    NoDup chosen ∧ (0 < mp - Z.of_nat (length (fld "leases" (reclaim now s))))%Z ∧
    (Z.of_nat (length chosen) ≤ mp - Z.of_nat (length (fld "leases" (reclaim now s))))%Z ∧
    (∀ t, t ∈ chosen → t ∈ ts ∧ t ∉ terminal_ids s ∧ dhas t (fld "leases" (reclaim now s)) = false) ∧
    ((chosen = [] ∧ out = [] ∧ d' = d ∧ existsb (expired now) (fld "leases" s) = false) ∨
     (chosen = [] ∧ out = [] ∧ ∃ n, clock_ok (VStr n) = true ∧ _write rid (stamp n (bump (reclaim now s))) d = Ok d') ∨
     (∃ expiry n, clock_ok (VStr expiry) = true ∧ clock_ok (VStr n) = true ∧ out = map (λ g, lease_token rid g.1 g.2 expiry (generation s + 1)) (zip chosen tokens) ∧
        _write rid (stamp n (bump (install_all owner expiry (generation s + 1) (zip chosen tokens) (reclaim now s)))) d = Ok d')).
Proof.
  intros Hl Hc. unfold claim_many in Hc. apply bind_ok in Hc as (m & Hm & Hc). destruct (mp <? 1)%Z; [discriminate|].
  apply ok_inj in Hm. subst m. apply bind_ok in Hc as (x & _ & Hc).
  apply bind_ok in Hc as (ts & Hids & Hc). apply bind_ok in Hc as (s1 & Hs & Hc). apply load_open_run in Hs as [Hl1 Ho].
  assert (s1 = s) as -> by congruence.
  apply bind_ok in Hc as (known & _ & Hc). apply bind_ok in Hc as (u & _ & Hc). apply bind_ok in Hc as (u1 & Hterm & Hc).
  apply ensure_ok in Hterm. pose proof (proj1 (forallb_true_iff _ _) Hterm) as Hterm'. cbv beta in Hterm'.
  apply bind_ok in Hc as (now' & Hn & Hc). apply clock_value_ok in Hn as [[= <-] Hn].
  apply bind_ok in Hc as (u2 & Hcap & Hc). apply ensure_ok, Z.ltb_lt in Hcap.
  apply bind_ok in Hc as (ch & Hchoice & Hc). apply bind_ok in Hc as (chosen & Hch & Hc). pose proof Hch as Hch0.
  apply check_choice_ok in Hch as (Hnd & Hlen & Hsub). exists ts, chosen. rewrite reclaim_generation in Hc.
  do 2 (split; [done|]). split; [by exists ch|]. do 3 (split; [done|]). split.
  { intros t Ht. apply Hsub, list_elem_of_filter in Ht as [Hh Ht]. specialize (Hterm' t Ht). bool_inv. done. }
  destruct chosen as [|t0 rest] eqn:Hcs.
  - destruct (existsb _ _) eqn:Hex.
    + apply bind_ok in Hc as (d1 & Hw & Hc). apply ok_inj in Hc. assert (d1 = d' ∧ out = []) as [-> ->] by (split; congruence).
      right. left. split; [done|]. split; [done|]. by exists now.
    + left. apply ok_inj in Hc. split; [done|]. split; [congruence|]. split; [congruence|done].
  - rewrite <- Hcs in *. apply bind_ok in Hc as (expiry & He & Hc). apply (expiry_clock_ok now) in He; [|done]. apply bind_ok in Hc as (n & Hn' & Hc).
    apply clock_value_ok in Hn' as [-> Hn']. apply bind_ok in Hc as (d1 & Hw & Hc). apply ok_inj in Hc.
    right. right. exists expiry, n. do 2 (split; [done|]). split; [congruence|]. by assert (d1 = d') as <- by congruence.
Qed.

Lemma wrote_leases d d' s c now : run_ok rid d → load rid d = Ok s → change_ok rid s c → clock_ok (VStr now) = true →
  _write rid (stamp now (bump c)) d = Ok d' → ∃ s', load rid d' = Ok s' ∧ fld "leases" s' = reload_dict (fld "leases" c).
Proof.
  intros Hr Hl Hc Hn Hw. apply load_current in Hl.
  destruct (write_ok rid d s _ d' (r_disk _ _ Hr) Hl (good_bumped rid s c now Hc Hn)) as (_ & sealed & Hs & Hcur'); [|done|].
  { by rewrite generation_bumped, (h_generation _ _ _ Hc). }
  exists (reload_dict sealed). split; [by apply load_current|]. by destruct (reloaded_fields _ _ _ Hs).
Qed.

Lemma reclaim_expired now s t lease : dget t (fld "leases" s) = Some lease → dhas t (fld "leases" (reclaim now s)) = false →
  str_leb (expires_at lease) now = true.
Proof.
  intros Hl Hno. destruct (str_leb (expires_at lease) now) eqn:E; [done|]. exfalso.
  assert ((VStr t, lease) ∈ fld "leases" (reclaim now s)) as Hin.
  { unfold reclaim. fields. apply list_elem_of_filter. split; [exact E|by apply dget_elem_of]. }
  apply elem_of_dhas in Hin. congruence.
Qed.

(** [claim_many] respects the capacity and never takes over a live lease.
    When it returns, the run holds at most [max_parallel] leases; the granted
    tasks are distinct, among those asked for, none is terminal, and a task
    granted had no lease, or one whose expiry had passed at the store's time.
    The selector, whatever it returns, cannot break this. *)
Theorem claim_many_bounded ids owner mp secs select now tokens clk' d d' out s : run_ok rid d → load rid d = Ok s →
  Forall (λ t, _ID t = true) tokens →
  claim_many rid ids owner (VInt mp) secs select (VStr now) tokens clk' d = Ok (d', out) →
  ∃ s' chosen, load rid d' = Ok s' ∧ (Z.of_nat (length (fld "leases" s')) ≤ mp)%Z ∧ NoDup chosen ∧
    (∀ g, g ∈ out → ∃ t id expiry, g = lease_token rid t id expiry (generation s + 1) ∧ t ∈ chosen) ∧
    ∀ t, t ∈ chosen → VStr t ∈ ids ∧ t ∉ terminal_ids s ∧
      ∀ lease, dget t (fld "leases" s) = Some lease → str_leb (expires_at lease) now = true.
Proof.
  intros Hr Hl Htok Hc. pose proof Hc as Hc0.
  destruct (claim_many_parts _ _ _ _ _ _ _ _ _ _ _ _ Hl Hc) as (ts & chosen & Ho & Hids & _ & Hnd & Hcap & Hlen & Hsub & Hcase).
  destruct (load_facts rid d s Hr Hl) as (Hcur & Hg & Hf & _). pose proof (change_reclaim rid s now Hg) as Hrec.
  assert (∀ t, t ∈ chosen → VStr t ∈ ids ∧ t ∉ terminal_ids s ∧
    ∀ lease, dget t (fld "leases" s) = Some lease → str_leb (expires_at lease) now = true) as Hchosen.
  { intros t Ht. destruct (Hsub t Ht) as (Hts & Hterm & Hno). split; [|split; [done|]].
    - unfold check_ids in Hids. destruct (strings_of ids) as [ids'|] eqn:Es; [|discriminate]. apply strings_of_some in Es as ->.
      destruct (_ && _); [|discriminate]. apply ok_inj in Hids. subst ids'. apply list_elem_of_fmap. by exists t.
    - intros lease Hlease. by apply (reclaim_expired now s t). }
  destruct Hcase as [(-> & -> & -> & Hex) | [(-> & -> & n & Hn & Hw) | (expiry & n & He & Hn & -> & Hw)]].
  - exists s, []. split; [done|]. split; [|by split_and!; try done; intros g Hgo%elem_of_nil].
    assert (reclaim_all : fld "leases" (reclaim now s) = fld "leases" s).
    { unfold reclaim. fields. apply filter_all. intros kv Hkv. exact (proj1 (existsb_false_iff _ _) Hex kv Hkv). }
    rewrite reclaim_all in Hcap. lia.
  - destruct (wrote_leases d d' s _ n Hr Hl Hrec Hn Hw) as (s' & Hl' & Hle). exists s', []. split; [done|].
    split; [rewrite Hle, length_reload; lia|]. by split_and!; try done; intros g Hgo%elem_of_nil.
  - assert (change_ok rid s (install_all owner expiry (generation s + 1) (zip chosen tokens) (reclaim now s))) as Hch.
    { apply change_install_all; [done|done|apply reclaim_reports| |done]. intros [t id] Hin. cbn [fst snd].
      pose proof (elem_of_zip_l _ _ _ _ Hin) as Ht. pose proof (elem_of_zip_r _ _ _ _ Hin) as Hi. rewrite Forall_forall in Htok.
      destruct (Hsub t Ht) as (Hts & Hterm & _). split; [by apply (check_ids_ok ids ts)|]. split; [by apply Htok|].
      by apply (not_terminal_no_report rid). }
    destruct (wrote_leases d d' s _ n Hr Hl Hch Hn Hw) as (s' & Hl' & Hle). exists s', chosen. split; [done|]. split.
    { rewrite Hle, length_reload. pose proof (length_install_all owner expiry (generation s + 1) (zip chosen tokens) (reclaim now s)) as Hlen'.
      rewrite length_zip_with in Hlen'. lia. }
    split; [done|]. split; [|done]. intros g ([t id] & -> & Hin)%list_elem_of_fmap. exists t, id, expiry. split; [done|].
    by apply (elem_of_zip_l _ _ _ _ Hin).
Qed.

(** [append_event] can lose the event it reports as written.  It does not
    check the stored event the way validation does: when the stored form is not
    valid (an [event_id] with a space, a negative [generation], a [metadata]
    that is no object), the call returns the snapshot with the event, and no
    later [load] returns anything but the snapshot there was before the call. *)
Theorem append_event_lost event owner e clk d d' s s' r item : run_ok rid d → load rid d = Ok s →
  append_event rid event owner e clk d = Ok (d', s') →
  _redact event = Ok (VDict r) → prepare_event r = Ok item →
  _valid_event (reload (VDict (dset "sequence" (VInt (int_fld "event_sequence" s + 1)) item))) = false →
  generation s' = (generation s + 1)%Z ∧
  VDict (dset "sequence" (VInt (int_fld "event_sequence" s + 1)) item) ∈ events_of s' ∧
  ∀ s2, load rid d' = Ok s2 → s2 = s.
Proof.
  intros Hr Hl Ha Hred Hprep Hbad. unfold append_event in Ha. apply bind_ok in Ha as (u & Hm & Ha).
  apply bind_ok in Ha as ([[d1 s1] u'] & Hmu & Ha). apply ok_inj in Ha. assert (d1 = d' ∧ s1 = s') as [-> ->] by (split; congruence).
  apply mutate_parts in Hmu as (s0 & c & now & Hl0 & Ho & Hc & Hn & Hw & ->). assert (s0 = s) as -> by congruence.
  rewrite Hred in Hc. cbn [mbind res_bind] in Hc. rewrite Hprep in Hc. cbn [mbind res_bind] in Hc.
  apply bind_ok in Hc as (c' & Hp & Hc). apply ok_inj in Hc. assert (c' = c) as -> by congruence.
  set (ev := dset "sequence" _ item) in *. unfold push_event in Hp. destruct (dget "events" s) as [[]|] eqn:Hev; try discriminate.
  apply ok_inj in Hp. subst c.
  assert (dget "events" (stamp now (bump (dset "event_sequence" (VInt (int_fld "event_sequence" s + 1)) (dset "events" (VList (l ++ [VDict ev])) s)))) =
    Some (VList (l ++ [VDict ev]))) as Hev'.
  { unfold stamp, bump. rewrite !dget_dset. done. }
  split; [by rewrite generation_bumped, !generation_dset_ne|]. split.
  { unfold events_of. rewrite Hev'. cbn. apply elem_of_app. right. by apply list_elem_of_singleton. }
  set (c := stamp now _) in *. unfold _write in Hw. apply fmap_ok in Hw as (w & Hw & ->).
  destruct (load_facts rid d s Hr Hl) as (Hcur & Hg & Hf & _). pose proof (r_disk _ _ Hr) as Hok.
  destruct (current_facts rid d s Hok Hcur) as (Hsafe & _ & _ & _ & p & b & Hrp & Hrb & Hcase). destruct Hok as [Hd Hp Hb Hlk _].
  unfold _write_steps, _dir in Hw. rewrite Hsafe, Hd, Hrp in Hw. cbn [mbind res_bind ensure negb] in Hw.
  apply bind_ok in Hw as (sealed & Hs & Hw). rewrite Hlk in Hw. cbn [mbind res_bind ensure negb] in Hw. apply ok_inj in Hw. subst w.
  cbn [w_done]. intros s2 Hl2. apply load_current in Hl2. unfold current, _valid_snapshot, _dir in Hl2. cbn [d_symlink primary backup] in Hl2.
  rewrite Hsafe in Hl2. cbn [mbind res_bind ensure negb] in Hl2. apply bind_ok in Hl2 as (x & Hx & Hl2).
  assert (read_slot rid (match p with Some _ => d.(primary) | None => d.(backup) end) = Ok (Some s)) as Hb'.
  { destruct Hcase as [[-> _] | [-> ->]]; done. }
  rewrite Hb' in Hl2. cbn [mbind res_bind] in Hl2. apply ok_inj in Hl2. destruct x as [x|]; [|cbn in Hl2; congruence].
  exfalso. apply read_slot_some in Hx as [Hjx Hv]. assert (x = reload_dict sealed) as ->.
  { assert (reload (VDict sealed) = VDict x) as Hxx by congruence. rewrite reload_VDict in Hxx. congruence. }
  apply validate_spec in Hv as ([_ _ _ _ _ _ _ [_ _ _ _ _ _ Hall _]] & _ & _).
  specialize (Hall (reload (VDict ev))). rewrite Hall in Hbad; [done|].
  unfold dget_or. rewrite dget_reload, (seal_get "events" c sealed ltac:(done) Hs), Hev'. cbn. apply list_elem_of_fmap.
  exists (VDict ev). split; [done|]. apply elem_of_app. right. by apply list_elem_of_singleton.
Qed.

Lemma valid_numbered n m item : (1 ≤ n)%Z → (1 ≤ m)%Z →
  _valid_event (reload (VDict (dset "sequence" (VInt n) item))) = _valid_event (reload (VDict (dset "sequence" (VInt m) item))).
Proof.
  intros Hn Hm. rewrite !reload_VDict. unfold _valid_event, dget_or. rewrite !dget_reload, !dget_dset_eq, !dget_dset_ne by done. cbn.
  by rewrite !(proj2 (Z.leb_le _ _)) by done.
Qed.
(** An event is storable or is lost. *)
Lemma unstorable_lost event owner e clk d d' s s' : run_ok rid d → load rid d = Ok s → append_event rid event owner e clk d = Ok (d', s') →
  ¬ storable event → ∀ s2, load rid d' = Ok s2 → s2 = s.
Proof.
  intros Hr Hl Ha Hns. pose proof Ha as Ha'. unfold append_event in Ha'. apply bind_ok in Ha' as (u & Hm%ensure_ok & Ha').
  apply bind_ok in Ha' as ([[d1 s1] u'] & Hmu & _). apply mutate_parts in Hmu as (s0 & c & now & Hl0 & _ & Hc & _). assert (s0 = s) as -> by congruence.
  apply bind_ok in Hc as (redacted & Hred & Hc). destruct (redact_mapping event redacted Hm Hred) as (r & ->). apply bind_ok in Hc as (item & Hprep & _).
  destruct (load_facts rid d s Hr Hl) as (_ & Hg & _).
  assert (1 ≤ int_fld "event_sequence" s + 1)%Z as Hn by (pose proof (current_sequence rid s Hg); lia).
  destruct (_valid_event (reload (VDict (dset "sequence" (VInt (int_fld "event_sequence" s + 1)) item)))) eqn:Hv.
  - destruct Hns. intros r' item' n Hr' Hi' Hn'. assert (r' = r) as -> by congruence. assert (item' = item) as -> by congruence. by rewrite (valid_numbered n _ item Hn' Hn).
  - by destruct (append_event_lost event owner e clk d d' s s' r item Hr Hl Ha Hred Hprep Hv) as (_ & _ & ?).
Qed.

(** C7: A completed operation of the store on a run in good order leaves the run
    in good order and readable: either the disk is as it was, or the next [load]
    returns a valid snapshot whose generation is one more than that of the
    snapshot the operation started from.  The invariant of the run is kept: no
    lease is newer than the snapshot, no task with a report is leased, and every
    leased task has been attempted.  The exception is [append_event] of an event
    whose stored form is not valid, the one operation [step] leaves out: it
    returns, and no later [load] gives anything but the snapshot there was
    before. *)
Theorem operations_durable d : run_ok rid d →
  (∀ d', step rid d d' → run_ok rid d' ∧ (d' = d ∨ ∃ s s', load rid d = Ok s ∧ load rid d' = Ok s' ∧ _validate (VDict s') rid = Ok true ∧
    generation s' = (generation s + 1)%Z)) ∧
  (∀ event owner e clk d' s s', load rid d = Ok s → append_event rid event owner e clk d = Ok (d', s') →
    (storable event → step rid d d') ∧ (¬ storable event → ∀ s2, load rid d' = Ok s2 → s2 = s)).
Proof.
  intros Hr. split.
  - intros d' Hs. destruct (run_step_ok rid d d' Hr Hs) as [Hr' [-> | (s & s' & H1 & H2 & H3)]]; [by split; [|left]|].
    split; [done|]. right. exists s, s'. rewrite !load_current.
    by destruct (current_facts rid d' s' (r_disk _ _ Hr') H2) as (_ & Hv & _).
  - intros event owner e clk d' s s' Hl Ha. split; [intros Hst; by eapply StepEvent|]. by eapply unstorable_lost.
Qed.
End claims.

(** ** The properties on the concrete run *)

Definition demo_snapshot : dict := Eval vm_compute in loaded (load (H := plain_identity) "run" demo_disk).
Definition demo_report : pyval := VDict [(VStr "status", VStr "blocked"); (VStr "reason", VStr "no network")].
Definition demo_commit : sres (disk * dict) :=
  commit (H := plain_identity) "run" "t1" demo_lease_token "owner" demo_report "blocked" demo_time demo_time demo_held.
Definition demo_done : disk := Eval vm_compute in disk_of demo_commit.
Definition demo_committed_state : dict := Eval vm_compute in value_of [] demo_commit.
Definition demo_final : dict := Eval vm_compute in loaded (load (H := plain_identity) "run" demo_done).
Definition demo_stored_report : pyval := default VNone (dget "t1" (fld "reports" demo_final)).

Lemma demo_loaded : load (H := plain_identity) "run" demo_disk = Ok demo_snapshot.
Proof. vm_compute. reflexivity. Qed.
Lemma demo_token_ok : _ID demo_token = true.
Proof. vm_compute. reflexivity. Qed.
Lemma demo_step : step (H := plain_identity) "run" demo_disk demo_held.
Proof.
  exact (StepClaim (H := plain_identity) "run" "t1" "owner" (VInt 60) None demo_time demo_token demo_time demo_disk demo_held demo_lease_token
    demo_token_ok demo_claimed).
Qed.
Lemma demo_held_ok : run_ok (H := plain_identity) "run" demo_held.
Proof. exact (proj1 (run_step_ok (H := plain_identity) "run" demo_disk demo_held demo_run_ok demo_step)). Qed.
Lemma demo_committed :
  commit (H := plain_identity) "run" "t1" demo_lease_token "owner" demo_report "blocked" demo_time demo_time demo_held =
  Ok (demo_done, demo_committed_state).
Proof. vm_compute. reflexivity. Qed.
Lemma demo_commit_step : step (H := plain_identity) "run" demo_held demo_done.
Proof.
  exact (StepCommit (H := plain_identity) "run" "t1" demo_lease_token "owner" demo_report "blocked" demo_time demo_time demo_held demo_done
    demo_committed_state demo_committed).
Qed.
Lemma demo_done_ok : run_ok (H := plain_identity) "run" demo_done.
Proof. exact (proj1 (run_step_ok (H := plain_identity) "run" demo_held demo_done demo_held_ok demo_commit_step)). Qed.
Lemma demo_done_loaded : load (H := plain_identity) "run" demo_done = Ok demo_final.
Proof. vm_compute. reflexivity. Qed.
Lemma demo_reported : dget "t1" (fld "reports" demo_final) = Some demo_stored_report.
Proof. vm_compute. reflexivity. Qed.

Definition demo_write : sres write_steps :=
  _write_steps (H := plain_identity) "run" (stamp "2026-01-01T00:00:30.000000Z" (bump demo_snapshot)) demo_disk.
Definition written (m : sres write_steps) : write_steps := match m with Ok w => w | Err _ => MkWrite demo_empty demo_empty end.
Definition demo_steps : write_steps := Eval vm_compute in written demo_write.
Lemma demo_written :
  _write_steps (H := plain_identity) "run" (stamp "2026-01-01T00:00:30.000000Z" (bump demo_snapshot)) demo_disk = Ok demo_steps.
Proof. vm_compute. reflexivity. Qed.
Lemma demo_change : change_ok (H := plain_identity) "run" demo_snapshot demo_snapshot.
Proof. apply change_refl. by destruct (load_facts (H := plain_identity) "run" demo_disk demo_snapshot demo_run_ok demo_loaded) as (_ & Hg & _). Qed.
Lemma demo_clock : clock_ok (VStr "2026-01-01T00:00:30.000000Z") = true.
Proof. vm_compute. reflexivity. Qed.

Lemma write_crash_safe_witness :
  load (H := plain_identity) "run" (w_backup demo_steps) = Ok demo_snapshot ∧
  ∃ sealed, _seal (stamp "2026-01-01T00:00:30.000000Z" (bump demo_snapshot)) = Ok sealed ∧
    load (H := plain_identity) "run" (w_done demo_steps) = Ok (reload_dict sealed) ∧ run_ok (H := plain_identity) "run" (w_done demo_steps).
Proof.
  exact (write_crash_safe (H := plain_identity) "run" demo_disk demo_snapshot demo_snapshot "2026-01-01T00:00:30.000000Z" demo_steps
    demo_run_ok demo_loaded demo_change demo_clock demo_written).
Defined.

Lemma report_final_witness : ∃ s', load (H := plain_identity) "run" demo_done = Ok s' ∧ (generation demo_final ≤ generation s')%Z ∧
  dget "t1" (fld "reports" s') = Some demo_stored_report ∧ ∀ v, (VStr "t1", v) ∉ fld "leases" s'.
Proof.
  exact (report_final (H := plain_identity) "run" demo_done demo_done demo_final "t1" demo_stored_report demo_done_ok (rtc_refl _ _)
    demo_done_loaded demo_reported).
Defined.

Lemma lease_fenced_witness : ∃ s expiry, load (H := plain_identity) "run" demo_disk = Ok s ∧
  demo_lease_token = lease_token "run" "t1" demo_token expiry (generation s + 1) ∧
  (∀ now, clock_ok (VStr now) = true → str_ltb now expiry = true →
     is_ok (use (H := plain_identity) "run" "t1" demo_lease_token "owner" (VStr now) demo_held) = true) ∧
  (∀ token tk clk, entries token = Some tk → (int_fld "generation" tk ≤ generation s)%Z →
     is_ok (use (H := plain_identity) "run" "t1" token "owner" clk demo_held) = false ∧
     (∀ secs new clk', is_ok (renew (H := plain_identity) "run" "t1" token "owner" secs clk new clk' demo_held) = false) ∧
     (∀ report status clk', is_ok (commit (H := plain_identity) "run" "t1" token "owner" report status clk clk' demo_held) = false)).
Proof.
  exact (lease_fenced (H := plain_identity) "run" "t1" "owner" (VInt 60) demo_disk demo_held demo_lease_token demo_token demo_run_ok demo_token_ok
    (or_introl (ex_intro _ None (ex_intro _ demo_time (ex_intro _ demo_time demo_claimed))))).
Defined.

Lemma commit_once_witness : ∃ safe digest, prepare_report demo_report "blocked" = Ok (safe, digest) ∧
  ∀ d2, rtc (step (H := plain_identity) "run") demo_done d2 →
    (∀ c c', ∃ s2, load (H := plain_identity) "run" d2 = Ok s2 ∧
       commit (H := plain_identity) "run" "t1" demo_lease_token "owner" demo_report "blocked" c c' d2 = Ok (d2, s2)) ∧
    (∀ report' status' safe' digest' c c', prepare_report report' status' = Ok (safe', digest') → digest' ≠ digest ∨ status' ≠ "blocked" →
       commit (H := plain_identity) "run" "t1" demo_lease_token "owner" report' status' c c' d2 = Err DuplicateCommitError).
Proof.
  exact (commit_once (H := plain_identity) "run" demo_held demo_done demo_committed_state "t1" demo_lease_token "owner" demo_report "blocked"
    demo_time demo_time demo_held_ok demo_committed).
Defined.

Definition demo_many : sres (disk * list pyval) :=
  claim_many (H := plain_identity) "run" [VStr "t1"; VStr "t2"] "owner" (VInt 1) (VInt 60) None demo_time [demo_token; demo_token] demo_time demo_disk.
Definition demo_many_disk : disk := Eval vm_compute in disk_of demo_many.
Definition demo_many_tokens : list pyval := Eval vm_compute in value_of [] demo_many.
Lemma demo_many_ok :
  claim_many (H := plain_identity) "run" [VStr "t1"; VStr "t2"] "owner" (VInt 1) (VInt 60) None demo_time [demo_token; demo_token] demo_time demo_disk =
  Ok (demo_many_disk, demo_many_tokens).
Proof. vm_compute. reflexivity. Qed.
Lemma demo_tokens_ok : Forall (λ t, _ID t = true) [demo_token; demo_token].
Proof. repeat constructor. Qed.
Lemma claim_many_bounded_witness : length demo_many_tokens = 1%nat ∧
  ∃ s' chosen, load (H := plain_identity) "run" demo_many_disk = Ok s' ∧ (Z.of_nat (length (fld "leases" s')) ≤ 1)%Z ∧ NoDup chosen ∧
    (∀ g, g ∈ demo_many_tokens → ∃ t id expiry, g = lease_token "run" t id expiry (generation demo_snapshot + 1) ∧ t ∈ chosen) ∧
    ∀ t, t ∈ chosen → VStr t ∈ [VStr "t1"; VStr "t2"] ∧ t ∉ terminal_ids demo_snapshot ∧
      ∀ lease, dget t (fld "leases" demo_snapshot) = Some lease → str_leb (expires_at lease) "2026-01-01T00:00:00.000000Z" = true.
Proof.
  split; [vm_compute; reflexivity|].
  exact (claim_many_bounded (H := plain_identity) "run" [VStr "t1"; VStr "t2"] "owner" 1 (VInt 60) None "2026-01-01T00:00:00.000000Z"
    [demo_token; demo_token] demo_time demo_disk demo_many_disk demo_many_tokens demo_snapshot demo_run_ok demo_loaded demo_tokens_ok demo_many_ok).
Defined.

Definition bad_event : dict := [(VStr "event_id", VStr "a b")].
Definition bad_item : dict := [(VStr "event_id", VStr "a b"); (VStr "ordering_key", VStr "a b")].
Definition demo_append : sres (disk * dict) :=
  append_event (H := plain_identity) "run" (VDict bad_event) "owner" None demo_time demo_disk.
Definition demo_append_disk : disk := Eval vm_compute in disk_of demo_append.
Definition demo_append_state : dict := Eval vm_compute in value_of [] demo_append.
Lemma demo_appended :
  append_event (H := plain_identity) "run" (VDict bad_event) "owner" None demo_time demo_disk = Ok (demo_append_disk, demo_append_state).
Proof. vm_compute. reflexivity. Qed.
Lemma demo_redacted : _redact (VDict bad_event) = Ok (VDict bad_event).
Proof. vm_compute. reflexivity. Qed.
Lemma demo_prepared : prepare_event bad_event = Ok bad_item.
Proof. vm_compute. reflexivity. Qed.
Lemma demo_invalid : _valid_event (reload (VDict (dset "sequence" (VInt (int_fld "event_sequence" demo_snapshot + 1)) bad_item))) = false.
Proof. vm_compute. reflexivity. Qed.
Lemma append_event_lost_witness :
  generation demo_append_state = (generation demo_snapshot + 1)%Z ∧
  VDict (dset "sequence" (VInt (int_fld "event_sequence" demo_snapshot + 1)) bad_item) ∈ events_of demo_append_state ∧
  ∀ s2, load (H := plain_identity) "run" demo_append_disk = Ok s2 → s2 = demo_snapshot.
Proof.
  exact (append_event_lost (H := plain_identity) "run" (VDict bad_event) "owner" None demo_time demo_disk demo_append_disk demo_snapshot
    demo_append_state bad_event bad_item demo_run_ok demo_loaded demo_appended demo_redacted demo_prepared demo_invalid).
Defined.

Lemma operations_durable_witness :
  let P d d' := run_ok (H := plain_identity) "run" d' ∧ (d' = d ∨
    ∃ s s', load (H := plain_identity) "run" d = Ok s ∧ load (H := plain_identity) "run" d' = Ok s' ∧
      _validate (H := plain_identity) (VDict s') "run" = Ok true ∧ generation s' = (generation s + 1)%Z) in
  P demo_disk demo_held ∧ (¬ storable (VDict bad_event) → ∀ s2, load (H := plain_identity) "run" demo_append_disk = Ok s2 → s2 = demo_snapshot).
Proof.
  split; [exact (proj1 (operations_durable (H := plain_identity) "run" demo_disk demo_run_ok) demo_held demo_step)|].
  exact (proj2 (proj2 (operations_durable (H := plain_identity) "run" demo_disk demo_run_ok)
    (VDict bad_event) "owner" None demo_time demo_append_disk demo_snapshot demo_append_state demo_loaded demo_appended)).
Defined.
