(* ===== verification/Scheduler.v ===== *)
(** * The lease scheduler: [scheduler.py]

    The scheduler reads the run's snapshot, computes the tasks that can start,
    and claims a batch of them through [claim_many], with a selector that
    checks, under the store's lock, that the paths the tasks own do not
    overlap.  The scheduler's own state is the dictionary of the claims it
    made.  [now] is the reading of the scheduler's clock, [None] when it has
    none; the readings of the store's clock and its random tokens are arguments
    as in [RunStore].  A token's task id is a string, as everywhere in the store:
    another value is refused with the lease error without a closer look. *)

From stdpp Require Import strings list gmap.
From S2P Require Import Prelude PyStr PyNum PyVal Regex Sha256 IsoTime RunStore RunStoreFacts RunStoreSpec.

Open Scope string_scope.

(** ** The paths a task owns *)

Definition backslash : ascii := "\".

(** [PurePosixPath(s).parts] of a relative path, and [str] of it. *)
Definition posix_parts (s : string) : list string := filter (λ c, c ≠ "" ∧ c ≠ ".") (split_on slash s).
Definition posix_str (parts : list string) : string := match parts with [] => "." | _ => join "/" parts end.

Definition path_values (v : option pyval) : sres (list pyval) :=
  match v with
  | None | Some VNone | Some (VStr "") => Ok []
  | Some (VStr s) => Ok [VStr s]
  | Some (VList l) | Some (VTuple l) => Ok l
  | Some _ => Err (SchedulerError "task paths must be a list")
  end.
Definition path_of (v : pyval) : sres string :=
  match v with
  | VStr s =>
      if nonempty s && negb (startswith s "/" || startswith s "\") then
        let parts := posix_parts (replace_char backslash slash s) in
        if bool_decide (".." ∈ parts) then Err (SchedulerError "task paths must not traverse") else Ok (posix_str parts)
      else Err (SchedulerError "task paths must be relative")
  | _ => Err (SchedulerError "task paths must be relative")
  end.
Definition _paths (task : dict) : sres (list string) :=
  a ← path_values (dget "allowed_paths" task); xs ← mapM path_of a;
  b ← path_values (dget "paths" task); ys ← mapM path_of b;
  Ok (remove_dups (xs ++ ys)).

Definition path_overlap (a b : string) : bool :=
  bool_decide (a = b) || startswith a (b +:+ "/") || startswith b (a +:+ "/").
Definition _overlap (left right : list string) : bool := existsb (λ a, existsb (path_overlap a) right) left.

(** ** The tasks of the plan *)

(** [task.get("depends_on", task.get("dependencies", ()))] *)
Definition deps_of (task : dict) : pyval :=
  match dget "depends_on" task with Some v => v | None => dget_or (VTuple []) "dependencies" task end.
Definition _validate_task_dependencies (task : dict) : sres unit :=
  match elems (deps_of task) with
  | Some l => ensure (forallb is_str l) (SchedulerError "dependency elements must be exact strings")
  | None => Err (SchedulerError "task dependencies must be a list")
  end.
Definition dependencies (task : dict) : list string := match elems (deps_of task) with Some l => omap as_str l | None => [] end.

(** [[task for task in state.get("plan", {}).get("tasks", []) if isinstance(task, Mapping)]] *)
Definition plan_tasks (s : dict) : sres (list dict) :=
  match dget "plan" s with
  | Some (VDict p) | Some (VProxy p) =>
      match dget_or (VList []) "tasks" p with
      | VList l | VTuple l => Ok (omap entries l)
      | VDict _ | VProxy _ | VStr _ => Ok []
      | _ => Err PyTypeError
      end
  | _ => Ok []
  end.
Definition task_ok (task : dict) : sres unit :=
  _ ← _validate_task_dependencies task;
  ensure (nat_int (dget_or (VInt 0) "wave" task)) (SchedulerError "task wave must be a non-negative integer").
Definition index_task (m : gmap string dict) (task : dict) : gmap string dict :=
  match dget "id" task with Some (VStr i) => <[i := task]> m | _ => m end.
Definition _task_map (s : dict) : sres (gmap string dict) :=
  tasks ← plan_tasks s; _ ← mapM task_ok tasks; Ok (foldl index_task ∅ tasks).

(** ** Readiness *)

Definition terminal : list string := ["completed"; "failed"; "blocked"; "orphaned"; "cancelled"; "skipped"].
Definition wave_of (task : dict) : Z := match dget "wave" task with Some (VInt z) => z | _ => 0 end.

(** The status of a task: the run's, else the plan's, else ["pending"]. *)
Definition status_value (s : dict) (tid : string) (task : dict) : pyval :=
  let own := dget_or (VStr "pending") "status" task in
  match dget tid (fld "tasks" s) ≫= entries with
  | Some e => dget_or own "status" e
  | None => own
  end.
Definition completed_entry (kv : pyval * pyval) : option string :=
  if is_text "completed" (vget "status" kv.2) then as_str kv.1 else None.
Definition completed_ids (s : dict) : list string :=
  omap completed_entry (fld "tasks" s) ++ omap completed_entry (fld "reports" s).

Definition lease_active (now : option string) (s : dict) (tid : string) : bool :=
  match dget tid (fld "leases" s) with
  | Some l => match now with None => true | Some n => str_ltb n (expires_at l) end
  | None => false
  end.

Definition minimum (l : list Z) : option Z := match l with [] => None | x :: l => Some (foldl Z.min x l) end.

(** The tasks by id, each with whether its status is terminal. *)
Definition task_rows (s : dict) (tasks : gmap string dict) : sres (list (string * dict * bool)) :=
  mapM (λ tid : string, let task : dict := default [] (tasks !! tid) in
               t ← in_set (status_value s tid task) terminal; Ok (tid, task, t))
       (sort_strings (map fst (map_to_list tasks))).
Definition open_waves (rows : list (string * dict * bool)) : list Z :=
  omap (λ r : string * dict * bool, if r.2 then None else Some (wave_of r.1.2)) rows.
Definition row_ready (now : option string) (s : dict) (wave : Z) (r : string * dict * bool) : bool :=
  let '(tid, task, term) := r in
  negb (term || lease_active now s tid || negb (wave_of task =? wave)%Z) &&
  forallb (λ d, bool_decide (d ∈ completed_ids s)) (dependencies task).
Definition _ready_ids_from_state (now : option string) (s : dict) : sres (list string) :=
  tasks ← _task_map s;
  rows ← task_rows s tasks;
  Ok (match minimum (open_waves rows) with
      | None => []
      | Some w => map (λ r, r.1.1) (filter (λ r : string * dict * bool, row_ready now s w r = true) rows)
      end).

(** ** The scheduler *)

Record scheduler : Type := MkScheduler {
  sc_run_id : string; sc_owner : string; sc_max : Z; _worker_claims : dict }.

Definition new_scheduler (run_id owner : string) (max_parallel : pyval) : sres scheduler :=
  match max_parallel with
  | VInt z => if (z <? 1)%Z then Err (SchedulerError "max_parallel must be positive") else Ok (MkScheduler run_id owner z [])
  | _ => Err (SchedulerError "max_parallel must be positive")
  end.

(** [str(exc)] for a [RunStoreError]. *)
Definition error_text (e : store_error) : option string :=
  match e with
  | RunStoreError m | OwnerMismatchError m | LeaseError m | PathContainmentError m | SchedulerError m => Some m
  | RunNotFoundError => Some "run snapshot unavailable"
  | GenerationConflictError => Some "generation mismatch"
  | DuplicateCommitError => Some "task already committed"
  | CorruptSnapshotError => Some "run snapshot malformed or no valid candidate"
  | OwnershipConflict => Some "task paths overlap"
  | CapacityExceeded => Some "bounded capacity exceeded"
  | ContractValidationError | PyTypeError | PyAttributeError | PyKeyError | PyValueError | PyOverflowError => None
  end.
Definition is_capacity (e : store_error) : bool :=
  match error_text e with Some t => contains t "bounded capacity exceeded" | None => false end.

Definition paths_at (tasks : gmap string dict) (tid : string) : sres (list string) :=
  match tasks !! tid with Some task => _paths task | None => Err PyKeyError end.

Fixpoint choose (requested : Z) (tasks : gmap string dict) (ready : list string) (occupied : list (list string))
    (selected l : list string) : sres (list string) :=
  match l with
  | [] => Ok selected
  | t :: l =>
      if (requested <=? Z.of_nat (length selected))%Z then Ok selected
      else if negb (bool_decide (t ∈ ready)) then choose requested tasks ready occupied selected l
      else
        paths ← paths_at tasks t;
        if existsb (_overlap paths) occupied then Err OwnershipConflict else
        hit ← anyM (λ u, other ← paths_at tasks u; Ok (_overlap paths other)) selected;
        if hit : bool then Err OwnershipConflict else choose requested tasks ready occupied (selected ++ [t]) l
  end.

(** The ids of the live leases of tasks of the plan. *)
Definition occupied_ids (tasks : gmap string dict) (now : string) (leases : dict) : list string :=
  omap (λ kv : pyval * pyval, t ← as_str kv.1; if bool_decide (is_Some (tasks !! t)) && str_ltb now (expires_at kv.2) then Some t else None) leases.

Definition select (requested : Z) : selector := λ s available capacity now,
  if (capacity <? requested)%Z then Err CapacityExceeded else
  tasks ← _task_map s;
  ready ← _ready_ids_from_state (Some now) s;
  occupied ← mapM (paths_at tasks) (occupied_ids tasks now (fld "leases" s));
  chosen ← choose requested tasks ready occupied [] (sort_strings available);
  Ok (VList (map VStr chosen)).

Section scheduler.
Context `{PlanIdentity}.

Definition ready_ids (now : option string) (sch : scheduler) (d : disk) : sres (list string) :=
  s ← load sch.(sc_run_id) d; _ready_ids_from_state now s.

Definition active_claims (now : option string) (sch : scheduler) (d : disk) : sres dict :=
  s ← load sch.(sc_run_id) d;
  Ok (match now with
      | None => fld "leases" s
      | Some n => filter (λ kv : pyval * pyval, str_ltb n (expires_at kv.2) = true) (fld "leases" s)
      end).

(** [self._worker_claims[token["lease_id"]] = {"worker_id": worker_id, **token}] *)
Definition register (worker_id : string) (claims : dict) (token : pyval) : dict :=
  let t := default [] (entries token) in
  dset (str_fld "lease_id" t) (VDict (foldl (λ e kv, match kv.1 with VStr k => dset k kv.2 e | _ => e end)
    [(VStr "worker_id", VStr worker_id)] t)) claims.

Definition claim (worker_id : pyval) (limit : option pyval) (lease_seconds : pyval) (now : option string)
    (clock : pyval) (tokens : list string) (clock' : pyval) (sch : scheduler) (d : disk)
    : sres (scheduler * disk * list pyval) :=
  worker ← match worker_id with VStr w => if nonempty w then Ok w else Err (SchedulerError "worker_id required")
                              | _ => Err (SchedulerError "worker_id required") end;
  requested ← match limit with
              | None | Some VNone => Ok sch.(sc_max)
              | Some (VInt z) => if (z <? 0)%Z then Err (SchedulerError "limit must be non-negative") else Ok z
              | Some _ => Err (SchedulerError "limit must be non-negative")
              end;
  _ ← ensure (requested <=? sch.(sc_max))%Z CapacityExceeded;
  candidates ← ready_ids now sch d;
  match claim_many sch.(sc_run_id) (map VStr candidates) sch.(sc_owner) (VInt sch.(sc_max)) lease_seconds
          (Some (select requested)) clock tokens clock' d with
  | Ok (d', claimed) =>
      Ok (MkScheduler sch.(sc_run_id) sch.(sc_owner) sch.(sc_max) (foldl (register worker) sch.(_worker_claims) claimed), d', claimed)
  | Err e => if is_capacity e then (match candidates with [] => Err CapacityExceeded | _ => Ok (sch, d, []) end) else Err e
  end.

Definition renew (token lease_seconds clock : pyval) (new_id : string) (clock' : pyval) (sch : scheduler) (d : disk)
    : sres (disk * pyval) :=
  match vget "task_id" token with
  | Some (VStr t) =>
      map_err (λ e, match e with GenerationConflictError => LeaseError "stale or expired lease" | _ => e end)
        (RunStore.renew sch.(sc_run_id) t token sch.(sc_owner) lease_seconds clock new_id clock' d)
  | Some _ => Err (LeaseError "stale or expired lease")
  | None => Err PyKeyError
  end.

(** The change [release] makes, [remove] in the code. *)
Definition release_change (token clock : pyval) (s : dict) : sres (dict * unit) :=
  match vget "task_id" token with
  | Some (VStr t) => _ ← _check_token s t token clock; Ok (drop_lease t s, ())
  | _ => Err (LeaseError "invalid lease")
  end.
Definition release (token clock clock' : pyval) (sch : scheduler) (d : disk) : sres (scheduler * disk) :=
  '(d', _, _) ← _mutate sch.(sc_run_id) sch.(sc_owner) None (release_change token clock) clock' d;
  Ok (MkScheduler sch.(sc_run_id) sch.(sc_owner) sch.(sc_max)
        (dpop (str_fld "lease_id" (default [] (entries token))) sch.(_worker_claims)), d').

(** The change [recover_stale] makes for one task, [remove] in the code. *)
Definition recover_change (now tid : string) (s : dict) : sres (dict * unit) :=
  match dget tid (fld "leases" s) with
  | Some lease => Ok (if str_leb (expires_at lease) now then drop_lease tid s else s, ())
  | None => Ok (s, ())
  end.
(** One turn of its loop; [clk] is the reading the store's clock gives for the task. *)
Definition recover_one (now : string) (sch : scheduler) (clk : string → pyval) (tid : string) : stm disk store_error unit := λ d,
  match load sch.(sc_run_id) d with
  | Err e => (d, Err e)
  | Ok current =>
      if dhas tid (fld "leases" current) then
        match _mutate sch.(sc_run_id) sch.(sc_owner) (Some (VInt (generation current))) (recover_change now tid) (clk tid) d with
        | Ok (d', _, _) => (d', Ok ())
        | Err e => (d, Err e)
        end
      else (d, Ok ())
  end.
Fixpoint recover_all (now : string) (sch : scheduler) (clk : string → pyval) (l : list string) : stm disk store_error unit :=
  match l with [] => mret () | t :: l => _ ← recover_one now sch clk t; recover_all now sch clk l end.
Definition stale_ids (now : string) (s : dict) : list string :=
  sort_strings (omap (λ kv : pyval * pyval, if str_leb (expires_at kv.2) now then as_str kv.1 else None) (fld "leases" s)).
Definition recover_stale (now : option string) (clk : string → pyval) (sch : scheduler) : stm disk store_error (list string) := λ d,
  match load sch.(sc_run_id) d with
  | Err e => (d, Err e)
  | Ok s =>
      match now with
      | None => (d, Ok [])
      | Some n => (_ ← recover_all n sch clk (stale_ids n s); mret (stale_ids n s)) d
      end
  end.
End scheduler.

(** ** Paths *)

Lemma path_overlap_comm a b : path_overlap a b = path_overlap b a.
Proof.
  unfold path_overlap. rewrite (bool_decide_ext (a = b) (b = a)) by done.
  by destruct (bool_decide _), (startswith a _), (startswith b _).
Qed.
Lemma overlap_sym l r : _overlap l r = _overlap r l.
Proof.
  apply eq_true_iff_eq. unfold _overlap. rewrite !existsb_true_iff. setoid_rewrite existsb_true_iff.
  split; intros (a & Ha & b & Hb & Hab); (exists b; split; [done|]; exists a; split; [done|]; by rewrite path_overlap_comm).
Qed.

(** ** The selection *)

Section selection.
Context (tasks : gmap string dict).

(** The tasks of a list own disjoint paths. *)
Definition disjoint_tasks (l : list string) : Prop :=
  ∀ t u p q, t ∈ l → u ∈ l → t ≠ u → paths_at tasks t = Ok p → paths_at tasks u = Ok q → _overlap p q = false.

Lemma anyM_none {A} (f : A → sres bool) l : anyM f l = Ok false → ∀ x, x ∈ l → f x = Ok false.
Proof.
  induction l as [|y l IH]; cbn; intros Ha x Hx; [by apply elem_of_nil in Hx|].
  apply bind_ok in Ha as ([|] & Hy & Ha); [discriminate|]. apply elem_of_cons in Hx as [-> | Hx]; [done|by apply IH].
Qed.

Lemma disjoint_snoc l t : disjoint_tasks l →
  (∀ u p q, u ∈ l → paths_at tasks t = Ok p → paths_at tasks u = Ok q → _overlap p q = false) → disjoint_tasks (l ++ [t]).
Proof.
  intros Hl Ht u v p q. rewrite !elem_of_app, !list_elem_of_singleton. intros [Hu| ->] [Hv| ->] Hne Hp Hq.
  - by apply (Hl u v).
  - rewrite overlap_sym. by apply (Ht u).
  - by apply (Ht v).
  - done.
Qed.

Lemma choose_spec requested ready occupied l selected out : choose requested tasks ready occupied selected l = Ok out →
  disjoint_tasks selected → (Z.of_nat (length selected) ≤ Z.max 0 requested)%Z →
  disjoint_tasks out ∧ (Z.of_nat (length out) ≤ Z.max 0 requested)%Z ∧
  ∀ t, t ∈ out → t ∈ selected ∨ (t ∈ l ∧ t ∈ ready ∧ ∃ p, paths_at tasks t = Ok p ∧ ∀ o, o ∈ occupied → _overlap p o = false).
Proof.
  revert selected. induction l as [|t l IH]; intros selected Hc Hd Hlen; cbn [choose] in Hc.
  { apply ok_inj in Hc as <-. split; [done|]. split; [done|]. by left. }
  destruct (_ <=? _)%Z eqn:Hreq in Hc; [apply ok_inj in Hc as <-; split; [done|]; split; [done|]; by left|].
  destruct (negb _) eqn:Hready in Hc.
  - destruct (IH selected Hc Hd Hlen) as (H1 & H2 & H3). split; [done|]. split; [done|]. intros u Hu.
    destruct (H3 u Hu) as [? | (? & ? & ?)]; [by left|right]. split; [by right|done].
  - apply bind_ok in Hc as (p & Hp & Hc). destruct (existsb _ _) eqn:Hocc in Hc; [discriminate|].
    apply bind_ok in Hc as ([|] & Hhit & Hc); [discriminate|]. bool_inv. rewrite existsb_false_iff in Hocc.
    destruct (IH (selected ++ [t])%list Hc) as (H1 & H2 & H3).
    + apply disjoint_snoc; [done|]. intros u p' q Hu Hp' Hq. assert (p' = p) as -> by congruence.
      pose proof (anyM_none _ _ Hhit u Hu) as Ho. cbv beta in Ho. rewrite Hq in Ho. cbn in Ho. congruence.
    + rewrite length_app. cbn. lia.
    + split; [done|]. split; [done|]. intros u Hu. destruct (H3 u Hu) as [[Hs | ->%list_elem_of_singleton]%elem_of_app | (? & ? & ?)].
      * by left.
      * right. split; [by left|]. split; [done|]. by exists p.
      * right. split; [by right|done].
Qed.
End selection.

(** ** The tasks that can start *)

Lemma minimum_spec l : match minimum l with None => l = [] | Some w => w ∈ l ∧ ∀ x, x ∈ l → (w ≤ x)%Z end.
Proof.
  destruct l as [|a l]; [done|]. cbn [minimum]. revert a. induction l as [|b l IH]; intros a; cbn [foldl].
  - split; [by left|]. by intros x ->%list_elem_of_singleton.
  - destruct (IH (Z.min a b)) as [Hin Hle]. split.
    + apply elem_of_cons in Hin as [-> | Hin]; [|by do 2 right]. destruct (Z.min_spec a b) as [[_ ->] | [_ ->]]; [by left|by right; left].
    + intros x [-> | [-> | Hx]%elem_of_cons]%elem_of_cons; [| |apply Hle; by right];
        (transitivity (Z.min a b); [apply Hle; by left|lia]).
Qed.

Definition open_task (s : dict) (tid : string) (task : dict) : Prop := in_set (status_value s tid task) terminal = Ok false.

Definition ready_task (now : option string) (s : dict) (tasks : gmap string dict) (tid : string) : Prop :=
  ∃ task, tasks !! tid = Some task ∧ open_task s tid task ∧ lease_active now s tid = false ∧
    (∀ d, d ∈ dependencies task → d ∈ completed_ids s) ∧
    ∀ u other, tasks !! u = Some other → open_task s u other → (wave_of task ≤ wave_of other)%Z.

Section rows.
Context (s : dict) (tasks : gmap string dict).

Lemma task_ids_in t : t ∈ sort_strings (map fst (map_to_list tasks)) ↔ is_Some (tasks !! t).
Proof.
  unfold sort_strings. rewrite elem_of_sort_by, list_elem_of_fmap. split.
  - intros ([t' task] & -> & Hin%elem_of_map_to_list). by exists task.
  - intros [task Ht]. exists (t, task). split; [done|]. by apply elem_of_map_to_list.
Qed.
Lemma task_ids_NoDup : NoDup (sort_strings (map fst (map_to_list tasks))).
Proof. apply NoDup_sort_by. exact (NoDup_fst_map_to_list tasks). Qed.

Lemma rows_spec rows : task_rows s tasks = Ok rows →
  map (λ r, r.1.1) rows = sort_strings (map fst (map_to_list tasks)) ∧
  (∀ tid task b, (tid, task, b) ∈ rows ↔ tasks !! tid = Some task ∧ in_set (status_value s tid task) terminal = Ok b).
Proof.
  unfold task_rows. intros HF%mapM_res_ok. pose proof (λ t, task_ids_in t) as Hids.
  assert (∀ tid r, (t ← in_set (status_value s tid (default [] (tasks !! tid))) terminal; Ok (tid, default [] (tasks !! tid), t)) = Ok r →
    r.1.1 = tid ∧ r.1.2 = default [] (tasks !! tid) ∧ in_set (status_value s tid (default [] (tasks !! tid))) terminal = Ok r.2) as Hrow.
  { intros tid r Hr. apply bind_ok in Hr as (b & Hb & Hr). apply ok_inj in Hr as <-. done. }
  split.
  - revert HF. generalize (sort_strings (map fst (map_to_list tasks))). induction 1 as [|t r l rs Hr HF IH]; [done|]. cbn.
    destruct (Hrow _ _ Hr) as (-> & _). by rewrite IH.
  - intros tid task b. split.
    + intros Hin. destruct (Forall2_in_r _ _ _ _ HF Hin) as (t & Ht & Hr). apply Hids in Ht as [task' Ht].
      destruct (Hrow _ _ Hr) as (E1 & E2 & E3). cbn in E1, E2, E3. subst t. rewrite Ht in *. cbn in *. by subst task'.
    + intros [Ht Hb]. destruct (Forall2_in_l _ _ _ tid HF) as ([[t' task'] b'] & Hin & Hr); [apply Hids; by exists task|].
      destruct (Hrow _ _ Hr) as (E1 & E2 & E3). cbn in E1, E2, E3. subst t'. rewrite Ht in *. cbn in *. subst task'.
      assert (b' = b) as -> by congruence. done.
Qed.
End rows.

Lemma ready_ids_spec now s ids : _ready_ids_from_state now s = Ok ids → ∃ tasks, _task_map s = Ok tasks ∧
  StronglySorted (λ a b, String.leb a b = true) ids ∧ NoDup ids ∧ ∀ t, t ∈ ids ↔ ready_task now s tasks t.
Proof.
  unfold _ready_ids_from_state. intros Hr. apply bind_ok in Hr as (tasks & Ht & Hr). apply bind_ok in Hr as (rows & Hrows & Hr).
  exists tasks. split; [done|]. destruct (rows_spec s tasks rows Hrows) as [Hids Hin]. apply ok_inj in Hr. subst ids.
  pose proof (minimum_spec (open_waves rows)) as Hmin.
  assert (∀ w, w ∈ open_waves rows ↔ ∃ u other, tasks !! u = Some other ∧ open_task s u other ∧ wave_of other = w) as Hopen.
  { intros w. unfold open_waves. rewrite list_elem_of_omap. split.
    - intros ([[u other] b] & Hi & Hb). cbn in Hb. destruct b; [discriminate|]. apply Hin in Hi as [Hu Ho]. exists u, other. by injection Hb as <-.
    - intros (u & other & Hu & Ho & <-). exists (u, other, false). split; [by apply Hin|done]. }
  destruct (minimum _) as [w|].
  - destruct Hmin as [Hw Hle]. split; [|split].
    + eapply sorted_sublist; [apply map_filter_sublist|]. rewrite Hids. apply sort_strings_sorted.
    + eapply sublist_NoDup; [|apply map_filter_sublist]. rewrite Hids. apply task_ids_NoDup.
    + intros t. rewrite list_elem_of_fmap. split.
      * intros ([[t' task] b] & -> & [Hrow Hi]%list_elem_of_filter). cbn [fst]. apply Hin in Hi as [Htask Hb]. unfold row_ready in Hrow.
        bool_inv. subst b. exists task. split; [done|]. split; [done|]. split; [done|]. split.
        -- intros d Hd. match goal with Hf : forallb _ _ = true |- _ => pose proof (proj1 (forallb_true_iff _ _) Hf d Hd) as Hdd end.
           by apply bool_decide_eq_true in Hdd.
        -- intros u other Hu Ho. match goal with He : wave_of task = w |- _ => rewrite He end. apply Hle, Hopen. by exists u, other.
      * intros (task & Htask & Ho & Hl & Hd & Hmw). exists (t, task, false). split; [done|]. apply list_elem_of_filter. split; [|by apply Hin].
        unfold row_ready. rewrite Hl. cbn [orb]. assert (wave_of task = w) as ->.
        { apply Hopen in Hw as (u & other & Hu & Hou & <-). pose proof (Hmw u other Hu Hou).
          assert (wave_of other ≤ wave_of task)%Z; [|lia]. apply Hle, Hopen. by exists t, task. }
        rewrite Z.eqb_refl. cbn [negb andb]. apply forallb_true_iff. intros d Hd'. apply bool_decide_eq_true_2. by apply Hd.
  - split; [constructor|]. split; [constructor|]. intros t. split; [by intros ?%elem_of_nil|]. intros (task & Htask & Ho & _). exfalso.
    assert (wave_of task ∈ open_waves rows) as Hw by (apply Hopen; by exists t, task). rewrite Hmin in Hw. by apply elem_of_nil in Hw.
Qed.

(** ** Claims *)

Section claims.
Context `{PlanIdentity} (rid : string).

Definition leased (s : dict) (t : string) : Prop := dhas t (fld "leases" s) = true.
(** Two leased tasks of the plan never own overlapping paths. *)
Definition exclusive (s : dict) : Prop :=
  ∀ tasks t u p q, _task_map s = Ok tasks → leased s t → leased s u → t ≠ u →
    paths_at tasks t = Ok p → paths_at tasks u = Ok q → _overlap p q = false.

Lemma task_map_plan (s s' : dict) : dget "plan" s' = dget "plan" s → _task_map s' = _task_map s.
Proof. intros Hp. unfold _task_map, plan_tasks. by rewrite Hp. Qed.


Lemma install_all_leased owner expiry g grants s t : leased (install_all owner expiry g grants s) t →
  t ∈ map fst grants ∨ leased s t.
Proof.
  revert s. induction grants as [|[u id] grants IH]; intros s; [by right|]. cbn [install_all foldl fst snd map].
  intros [Hin | Hl]%IH; [by left; right|]. unfold leased, install_lease in *. revert Hl. fields. rewrite !dhas_true.
  intros [w Hw]. rewrite dget_dset in Hw. case_bool_decide as Hu; [left; subst; by left|]. right. by exists w.
Qed.

(** What a write keeps of the fields it does not set itself. *)
Lemma wrote_fields d d' s c now : run_ok rid d → load rid d = Ok s → change_ok rid s c → clock_ok (VStr now) = true →
  _write rid (stamp now (bump c)) d = Ok d' →
  ∃ s', load rid d' = Ok s' ∧ ∀ k, k ∉ ["generation"; "updated_at"; "checksum"] → dget k s' = reload <$> dget k c.
Proof.
  intros Hr Hl Hc Hn Hw. apply load_current in Hl.
  destruct (write_ok rid d s _ d' (r_disk _ _ Hr) Hl (good_bumped rid s c now Hc Hn)) as (_ & sealed & Hs & Hcur'); [|done|].
  { by rewrite generation_bumped, (h_generation _ _ _ Hc). }
  exists (reload_dict sealed). split; [by apply load_current|]. intros k Hk. rewrite !not_elem_of_cons in Hk. destruct Hk as (H1 & H2 & H3 & _).
  rewrite dget_reload, (seal_get k _ _ H3 Hs). unfold stamp, bump. by rewrite !dget_dset_ne by congruence.
Qed.

Lemma leased_reload (s' c : dict) t : dget "leases" s' = reload <$> dget "leases" c → leased s' t → leased c t.
Proof.
  unfold leased, fld. intros ->. destruct (dget "leases" c) as [[]|]; cbn [fmap option_fmap option_map]; rewrite ?reload_VDict; try done.
  unfold dhas. rewrite dget_reload. by destruct (dget t kvs).
Qed.

Lemma plan_kept d s c s' : run_ok rid d → load rid d = Ok s → dget "plan" c = dget "plan" s →
  dget "plan" s' = reload <$> dget "plan" c → dget "plan" s' = dget "plan" s.
Proof.
  intros Hr Hl Hc ->. rewrite Hc. destruct (load_facts rid d s Hr Hl) as (_ & _ & Hf & _).
  destruct (dget "plan" s) as [p|] eqn:Hp; [|done]. cbn. f_equal. exact (dget_fixed _ _ _ Hf Hp).
Qed.

Lemma reclaim_live now s t : leased (reclaim now s) t → ∃ v, dget t (fld "leases" (reclaim now s)) = Some v ∧ str_ltb now (expires_at v) = true.
Proof.
  unfold leased. rewrite dhas_true. intros [v Hv]. exists v. split; [done|]. pose proof (dget_elem_of _ _ _ Hv) as Hin.
  unfold reclaim in Hin. revert Hin. fields. intros [Hex _]%list_elem_of_filter. unfold expired in Hex. cbn in Hex.
  unfold str_ltb. unfold str_leb in Hex. by rewrite Hex.
Qed.
Lemma reclaim_leased now s t : leased (reclaim now s) t → leased s t.
Proof.
  unfold leased. rewrite dhas_true. intros [v Hv]. apply dget_elem_of in Hv. revert Hv. unfold reclaim. fields.
  intros [_ Hin]%list_elem_of_filter. by apply elem_of_dhas in Hin.
Qed.

Lemma occupied_in tasks now leases t v task : dget t leases = Some v → str_ltb now (expires_at v) = true → tasks !! t = Some task →
  t ∈ occupied_ids tasks now leases.
Proof.
  intros Hv Hlt Ht. unfold occupied_ids. apply list_elem_of_omap. exists (VStr t, v). split; [by apply dget_elem_of|]. cbn.
  rewrite Hlt, bool_decide_true by (by exists task). done.
Qed.

Lemma strings_of_map l : strings_of (map VStr l) = Some l.
Proof. induction l as [|x l IH]; [done|]. cbn. by rewrite IH. Qed.
Lemma check_choice_strings l available capacity c : check_choice (VList (map VStr l)) available capacity = Ok c → c = l.
Proof.
  unfold check_choice. destruct (_ <? _)%Z; [discriminate|]. intros Hc. apply bind_ok in Hc as ([|] & _ & Hc); [discriminate|].
  rewrite strings_of_map in Hc. case_bool_decide; [by apply ok_inj in Hc|discriminate].
Qed.

(** The selector's choice: ready, disjoint from each other and from the live leases. *)
Lemma select_spec requested s available capacity now choice chosen :
  select requested s available capacity now = Ok choice → check_choice choice available capacity = Ok chosen →
  (∀ t, leased s t → ∃ v, dget t (fld "leases" s) = Some v ∧ str_ltb now (expires_at v) = true) →
  (requested ≤ capacity)%Z ∧ (Z.of_nat (length chosen) ≤ Z.max 0 requested)%Z ∧
  ∃ tasks, _task_map s = Ok tasks ∧ disjoint_tasks tasks chosen ∧
    ∀ t, t ∈ chosen → ready_task (Some now) s tasks t ∧
      ∀ u p q, leased s u → paths_at tasks t = Ok p → paths_at tasks u = Ok q → _overlap p q = false.
Proof.
  unfold select. intros Hs Hc Hlive. destruct (_ <? _)%Z eqn:Hcap in Hs; [discriminate|]. apply Z.ltb_ge in Hcap.
  apply bind_ok in Hs as (tasks & Ht & Hs). apply bind_ok in Hs as (ready & Hready & Hs). apply bind_ok in Hs as (occ & Hocc & Hs).
  apply bind_ok in Hs as (l & Hl & Hs). apply ok_inj in Hs. subst choice. apply check_choice_strings in Hc. subst l.
  destruct (choose_spec tasks _ _ _ _ _ _ Hl) as (Hd & Hlen & Hch); [by intros ???? ?%elem_of_nil|cbn; lia|].
  split; [done|]. split; [done|]. exists tasks. split; [done|]. split; [done|]. intros t Hin.
  destruct (Hch t Hin) as [?%elem_of_nil | (_ & Hrd & p0 & Hp0 & Ho)]; [done|]. split.
  - destruct (ready_ids_spec _ _ _ Hready) as (tasks' & Ht' & _ & _ & Hspec). assert (tasks' = tasks) as -> by congruence. by apply Hspec.
  - intros u p q Hu Hp Hq. assert (p = p0) as -> by congruence. apply Ho. apply mapM_res_ok in Hocc.
    destruct (Hlive u Hu) as (v & Hv & Hlt). pose proof Hq as Hq'. unfold paths_at in Hq'. destruct (tasks !! u) as [task|] eqn:Htask; [|discriminate].
    destruct (Forall2_in_l _ _ _ u Hocc) as (q' & Hq0 & Hqq); [by eapply occupied_in|]. assert (q' = q) as <- by congruence. done.
Qed.

(** A snapshot whose leases are live leases of [s] or of newly selected tasks. *)
Lemma exclusive_after s r s' tasks chosen : dget "plan" s' = dget "plan" s → _task_map s = Ok tasks → exclusive s →
  (∀ t, leased r t → leased s t) → (∀ t, leased s' t → t ∈ chosen ∨ leased r t) → disjoint_tasks tasks chosen →
  (∀ t u p q, t ∈ chosen → leased r u → paths_at tasks t = Ok p → paths_at tasks u = Ok q → _overlap p q = false) →
  exclusive s'.
Proof.
  intros Hp Hm He Hr Hl Hd Hcr tasks' t u p q Hm' Ht Hu Hne Hpt Hpu.
  assert (tasks' = tasks) as -> by (rewrite (task_map_plan _ _ Hp) in Hm'; congruence).
  destruct (Hl t Ht) as [Hct | Hrt], (Hl u Hu) as [Hcu | Hru].
  - by apply (Hd t u).
  - by apply (Hcr t u).
  - rewrite overlap_sym. by apply (Hcr u t).
  - apply (He tasks t u p q); auto.
Qed.

Lemma reclaim_plan now s : dget "plan" (reclaim now s) = dget "plan" s.
Proof. unfold reclaim, set_fld. by rewrite dget_dset_ne. Qed.
Lemma install_all_plan owner expiry g grants s : dget "plan" (install_all owner expiry g grants s) = dget "plan" s.
Proof.
  revert s. induction grants as [|[t id] grants IH]; intros s; [done|]. cbn [install_all foldl fst snd]. etransitivity; [apply IH|].
  unfold install_lease, set_fld. by rewrite !dget_dset_ne.
Qed.

Lemma task_map_reclaim now s : _task_map (reclaim now s) = _task_map s.
Proof. apply task_map_plan, reclaim_plan. Qed.

(** The change [claim_many] writes. *)
Lemma change_grants d s chosen tokens owner expiry now : run_ok rid d → load rid d = Ok s → str_fld "owner" s = owner →
  Forall (λ t, _ID t = true) tokens → clock_ok (VStr expiry) = true →
  (∀ t, t ∈ chosen → _ID t = true ∧ t ∉ terminal_ids s) →
  change_ok rid s (install_all owner expiry (generation s + 1) (zip chosen tokens) (reclaim now s)).
Proof.
  intros Hr Hl Ho Htok He Hch. destruct (load_facts rid d s Hr Hl) as (Hcur & Hg & Hf & _).
  apply change_install_all; [done|done|apply reclaim_reports| |by apply change_reclaim]. intros [t id] Hin. cbn [fst snd].
  pose proof (elem_of_zip_l _ _ _ _ Hin) as Ht. pose proof (elem_of_zip_r _ _ _ _ Hin) as Hi. rewrite Forall_forall in Htok.
  destruct (Hch t Ht) as [Hid Hterm]. split; [done|]. split; [by apply Htok|]. by apply (not_terminal_no_report rid).
Qed.

Lemma zip_fst_in {A B} (l : list A) (k : list B) x : x ∈ map fst (zip l k) → x ∈ l.
Proof. intros ([a b] & -> & Hin)%list_elem_of_fmap. by apply (elem_of_zip_l _ _ _ _ Hin). Qed.

Lemma claim_many_exclusive ids owner mp secs requested now tokens clk' d d' out s : run_ok rid d → load rid d = Ok s → exclusive s →
  Forall (λ t, _ID t = true) tokens →
  claim_many rid ids owner (VInt mp) secs (Some (select requested)) (VStr now) tokens clk' d = Ok (d', out) →
  ∃ s' tasks, load rid d' = Ok s' ∧ exclusive s' ∧ (Z.of_nat (length out) ≤ Z.max 0 requested)%Z ∧ _task_map s = Ok tasks ∧
    ∀ g, g ∈ out → ∃ t id expiry, g = lease_token rid t id expiry (generation s + 1) ∧ ready_task (Some now) (reclaim now s) tasks t.
Proof.
  intros Hr Hl Hex Htok Hc.
  destruct (claim_many_parts _ _ _ _ _ _ _ _ _ _ _ _ _ Hl Hc) as (ts & chosen & Ho & Hids & (choice & Hsel & Hch) & Hnd & Hcap & Hlen & Hsub & Hcase).
  cbn [choices] in Hsel. destruct (load_facts rid d s Hr Hl) as (Hcur & Hg & Hf & _).
  destruct (select_spec _ _ _ _ _ _ _ Hsel Hch (λ t, reclaim_live now s t)) as (_ & Hlr & tasks & Hm & Hdis & Hready).
  rewrite task_map_reclaim in Hm.
  assert (∀ s' c, (∀ k, k ∉ ["generation"; "updated_at"; "checksum"] → dget k s' = reload <$> dget k c) → dget "plan" c = dget "plan" s →
    (∀ t, leased c t → t ∈ chosen ∨ leased (reclaim now s) t) → exclusive s') as Hafter.
  { intros s' c Hk Hpl Hlc. apply (exclusive_after s (reclaim now s) s' tasks chosen); try done.
    - apply (plan_kept d s c); try done. apply Hk. by apply (bool_decide_unpack _); vm_compute.
    - apply reclaim_leased.
    - intros t Ht. apply Hlc. apply (leased_reload s' c); [apply Hk; by apply (bool_decide_unpack _); vm_compute|exact Ht].
    - intros t u p q Ht. by apply Hready. }
  destruct Hcase as [(-> & -> & -> & _) | [(-> & -> & n & Hn & Hw) | (expiry & n & He & Hn & -> & Hw)]].
  - exists s, tasks. split; [done|]. split; [done|]. split; [cbn; lia|]. split; [done|]. by intros g ?%elem_of_nil.
  - destruct (wrote_fields d d' s _ n Hr Hl (change_reclaim rid s now Hg) Hn Hw) as (s' & Hl' & Hk). exists s', tasks. split; [done|].
    split; [apply (Hafter s' (reclaim now s) Hk (reclaim_plan now s)); by right|]. split; [cbn; lia|]. split; [done|]. by intros g ?%elem_of_nil.
  - assert (change_ok rid s (install_all owner expiry (generation s + 1) (zip chosen tokens) (reclaim now s))) as Hchange.
    { apply (change_grants d s); try done. intros t Ht. destruct (Hsub t Ht) as (Hts & Hterm & _). split; [|done]. by apply (check_ids_ok ids ts). }
    destruct (wrote_fields d d' s _ n Hr Hl Hchange Hn Hw) as (s' & Hl' & Hk). exists s', tasks. split; [done|]. split; [|split; [|split; [done|]]].
    + apply (Hafter s' _ Hk).
      * by rewrite install_all_plan, reclaim_plan.
      * intros t [Hin%zip_fst_in | Ht]%install_all_leased; [by left|by right].
    + rewrite length_map, length_zip_with. lia.
    + intros g ([t id] & -> & Hin)%list_elem_of_fmap. exists t, id, expiry. split; [done|]. apply Hready. by apply (elem_of_zip_l _ _ _ _ Hin).
Qed.
End claims.

(** ** Recovering stale leases *)

Section recovery.
Context `{PlanIdentity} (sch : scheduler).

Lemma recover_drops now t : drops_leases (recover_change now t).
Proof.
  intros s c Hc. unfold recover_change in Hc. destruct (dget t (fld "leases" s)) as [v|]; [|left; congruence].
  destruct (str_leb _ _); [|left; congruence]. right. exists (dpop t (fld "leases" s)). split; [intros kv; apply elem_of_dpop|]. by assert (c = drop_lease t s) as -> by congruence.
Qed.
Lemma release_drops token clk : drops_leases (release_change token clk).
Proof.
  intros s c Hc. unfold release_change in Hc. destruct (vget "task_id" token) as [[]|]; try discriminate. apply bind_ok in Hc as (l & _ & Hc).
  right. exists (dpop s0 (fld "leases" s)). split; [intros kv; apply elem_of_dpop|]. by assert (c = drop_lease s0 s) as -> by congruence.
Qed.

Lemma expires_reload v : expires_at (reload v) = expires_at v.
Proof. destruct v; try done. rewrite reload_VDict. cbn [expires_at]. apply str_fld_reload. Qed.

Lemma lease_fixed d s t v : run_ok (sc_run_id sch) d → load (sc_run_id sch) d = Ok s → dget t (fld "leases" s) = Some v → reload v = v.
Proof.
  intros Hr Hl Hv. destruct (load_facts _ d s Hr Hl) as (Hcur & Hg & Hf & _).
  destruct (good_entries (sc_run_id sch) "leases" s ltac:(by repeat constructor) Hg) as [Hd _].
  exact (dget_fixed _ _ _ (dget_fixed _ _ _ Hf Hd) Hv).
Qed.

Lemma recover_one_spec now clk t d d' s : run_ok (sc_run_id sch) d → load (sc_run_id sch) d = Ok s →
  recover_one now sch clk t d = (d', Ok ()) →
  run_ok (sc_run_id sch) d' ∧ ∃ s', load (sc_run_id sch) d' = Ok s' ∧
    (∀ k, k ∈ ["plan"; "tasks"; "reports"; "attempts"] → dget k s' = dget k s) ∧
    ∀ u, dget u (fld "leases" s') = if bool_decide (u = t) then (v ← dget u (fld "leases" s); if str_leb (expires_at v) now then None else Some v)
                                     else dget u (fld "leases" s).
Proof.
  intros Hr Hl. unfold recover_one. rewrite Hl. destruct (dhas t (fld "leases" s)) eqn:Hh.
  2:{ intros [= <-]. split; [done|]. exists s. do 2 (split; [done|]). intros u. case_bool_decide; [|done]. subst u. unfold dhas in Hh. by destruct (dget t _). }
  destruct (_mutate _ _ _ _ _ _) as [[[d1 s1] []]|] eqn:Hm; [|discriminate]. intros [= <-].
  destruct (run_step_ok _ _ _ Hr (StepDrop _ _ _ _ _ _ _ _ (recover_drops now t) Hm)) as [Hr' _]. split; [done|].
  apply mutate_parts in Hm as (s0 & c & n & Hl0 & _ & Hc & Hn & Hw & _). assert (s0 = s) as -> by congruence.
  destruct (load_facts _ d s Hr Hl) as (Hcur & Hg & Hf & _). pose proof (change_refl (sc_run_id sch) s Hg) as Hrefl.
  assert (change_ok (sc_run_id sch) s c) as Hch.
  { destruct (recover_drops now t s c Hc) as [-> | (l & Hsub & ->)]; [done|]. by apply change_sub_leases. }
  destruct (wrote_fields _ d d1 s c n Hr Hl Hch Hn Hw) as (s' & Hl' & Hk). exists s'. split; [done|].
  assert (∀ k, k ≠ "leases" → dget k c = dget k s) as Hkeep.
  { intros k Hne. destruct (recover_drops now t s c Hc) as [-> | (l & _ & ->)]; [done|]. unfold set_fld. by apply dget_dset_ne. }
  split.
  - intros k Hin. rewrite Hk, Hkeep.
    + destruct (dget k s) as [v|] eqn:Hv; [|done]. cbn. f_equal. exact (dget_fixed _ _ _ Hf Hv).
    + repeat (apply elem_of_cons in Hin as [-> | Hin]; [done|]). by apply elem_of_nil in Hin.
    + repeat (apply elem_of_cons in Hin as [-> | Hin]; [by apply (bool_decide_unpack _); vm_compute|]). by apply elem_of_nil in Hin.
  - intros u. assert (dget u (fld "leases" s') = reload <$> dget u (fld "leases" c)) as ->.
    { unfold fld. rewrite Hk by (by apply (bool_decide_unpack _); vm_compute). destruct (dget "leases" c) as [[]|]; try done.
      cbn [fmap option_fmap option_map]. rewrite reload_VDict. apply dget_reload. }
    assert (reload <$> dget u (fld "leases" s) = dget u (fld "leases" s)) as Hfix.
    { destruct (dget u (fld "leases" s)) as [v|] eqn:Hv; [|done]. cbn. f_equal. by apply (lease_fixed d s u). }
    unfold recover_change in Hc. apply dhas_true in Hh as [v Hv]. rewrite Hv in Hc.
    destruct (str_leb (expires_at v) now) eqn:Hle.
    + assert (c = drop_lease t s) as -> by congruence. unfold drop_lease. fields. rewrite dget_dpop, (bool_decide_ext (t = u) (u = t)) by done. case_bool_decide; [subst u; by rewrite Hv; cbn; rewrite Hle|done].
    + assert (c = s) as -> by congruence. rewrite Hfix. case_bool_decide; [subst u; by rewrite Hv; cbn; rewrite Hle|done].
Qed.

Lemma recover_all_spec now clk l d d' s : run_ok (sc_run_id sch) d → load (sc_run_id sch) d = Ok s →
  recover_all now sch clk l d = (d', Ok ()) →
  run_ok (sc_run_id sch) d' ∧ ∃ s', load (sc_run_id sch) d' = Ok s' ∧
    (∀ k, k ∈ ["plan"; "tasks"; "reports"; "attempts"] → dget k s' = dget k s) ∧
    ∀ u, dget u (fld "leases" s') = if bool_decide (u ∈ l) then (v ← dget u (fld "leases" s); if str_leb (expires_at v) now then None else Some v)
                                     else dget u (fld "leases" s).
Proof.
  revert d s. induction l as [|t l IH]; intros d s Hr Hl Ha; cbn [recover_all] in Ha.
  - assert (d' = d) as -> by (cbv [mret stm_ret] in Ha; congruence). split; [done|]. exists s. done.
  - unfold mbind, stm_bind in Ha. destruct (recover_one now sch clk t d) as [d1 [[]|]] eqn:Hone; [|discriminate].
    destruct (recover_one_spec now clk t d d1 s Hr Hl Hone) as (Hr1 & s1 & Hl1 & Hk1 & Hu1).
    destruct (IH d1 s1 Hr1 Hl1 Ha) as (Hr' & s' & Hl' & Hk' & Hu'). split; [done|]. exists s'. split; [done|]. split.
    + intros k Hin. by rewrite Hk', Hk1.
    + intros u. rewrite Hu', !Hu1. destruct (dget u (fld "leases" s)) as [v|] eqn:Hv; cbn.
      * destruct (str_leb (expires_at v) now) eqn:Hle; repeat case_bool_decide; try done; cbn; rewrite ?Hle; try done; set_solver.
      * by repeat case_bool_decide.
Qed.
End recovery.

(** ** The properties *)

Definition normal_parts (s : string) : list string := posix_parts (replace_char backslash slash s).

Lemma path_of_ok a x : path_of (VStr a) = Ok x → x = posix_str (normal_parts a).
Proof.
  unfold path_of, normal_parts. destruct (_ && _); [|discriminate]. cbv zeta. case_bool_decide; [discriminate|]. by intros ->%ok_inj.
Qed.
Lemma parts_split s : split_on slash (posix_str (posix_parts s)) = match posix_parts s with [] => ["."] | p => p end.
Proof.
  destruct (posix_parts s) as [|w ws] eqn:Hp; [done|]. unfold posix_str. apply split_on_join; [done|]. rewrite <- Hp. unfold posix_parts.
  pose proof (split_on_free s) as Hf. rewrite Forall_forall in *. intros v [_ Hv]%list_elem_of_filter. by apply Hf.
Qed.
Lemma part_not_dot s w : w ∈ posix_parts s → w ≠ ".".
Proof. by intros [[_ ?] _]%list_elem_of_filter. Qed.

Lemma prefix_elem (x : string) l k : (x :: l) `prefix_of` k → x ∈ k.
Proof. intros [k' ->]. by left. Qed.

Lemma path_overlap_split a b : path_overlap a b = true ↔
  split_on slash a `prefix_of` split_on slash b ∨ split_on slash b `prefix_of` split_on slash a.
Proof.
  unfold path_overlap. rewrite !orb_true_iff, bool_decide_eq_true, !components_prefix. naive_solver.
Qed.

(** Two accepted paths overlap exactly when the components of one are a
    prefix of the components of the other, except for a path with no component:
    ["."], which contains every path, overlaps only itself. *)
Theorem overlap_components a b x y : path_of (VStr a) = Ok x → path_of (VStr b) = Ok y →
  path_overlap x y = true ↔
    (normal_parts a `prefix_of` normal_parts b ∨ normal_parts b `prefix_of` normal_parts a) ∧ (normal_parts a = [] ↔ normal_parts b = []).
Proof.
  intros ->%path_of_ok ->%path_of_ok. rewrite path_overlap_split. unfold normal_parts. rewrite !parts_split.
  pose proof (part_not_dot (replace_char backslash slash a)) as Ha. pose proof (part_not_dot (replace_char backslash slash b)) as Hb.
  destruct (posix_parts (replace_char backslash slash a)) as [|v vs], (posix_parts (replace_char backslash slash b)) as [|w ws].
  - split; intros _; [split; [by left|done]|by left].
  - split; [|by intros [_ [? _]]; naive_solver]. intros [Hp | Hp]; exfalso; apply prefix_elem in Hp.
    + by apply (Hb ".").
    + apply list_elem_of_singleton in Hp. subst w. apply (Hb "."); [by left|done].
  - split; [|by intros [_ [_ ?]]; naive_solver]. intros [Hp | Hp]; exfalso; apply prefix_elem in Hp.
    + apply list_elem_of_singleton in Hp. subst v. apply (Ha "."); [by left|done].
    + by apply (Ha ".").
  - naive_solver.
Qed.
Lemma overlap_components_witness : path_overlap "src" "src/a" = true ↔
  (normal_parts "src/" `prefix_of` normal_parts "./src//a" ∨ normal_parts "./src//a" `prefix_of` normal_parts "src/") ∧
  (normal_parts "src/" = [] ↔ normal_parts "./src//a" = []).
Proof. exact (overlap_components "src/" "./src//a" "src" "src/a" eq_refl eq_refl). Defined.

(** The ids the scheduler reports as ready are sorted, without duplicates,
    and are exactly the tasks of the plan whose status is not terminal, that
    hold no active lease, whose dependencies are all completed, and whose wave
    is the earliest that has a task left. *)
Theorem ready_exact `{PlanIdentity} now sch d ids : ready_ids now sch d = Ok ids →
  ∃ s tasks, load sch.(sc_run_id) d = Ok s ∧ _task_map s = Ok tasks ∧
    StronglySorted (λ a b, String.leb a b = true) ids ∧ NoDup ids ∧ ∀ t, t ∈ ids ↔ ready_task now s tasks t.
Proof.
  unfold ready_ids. intros Hr. apply bind_ok in Hr as (s & Hl & Hr). destruct (ready_ids_spec _ _ _ Hr) as (tasks & Hspec). by exists s, tasks.
Qed.

Lemma rows_total s tasks : (∀ t task, tasks !! t = Some task → hashable (status_value s t task) = true) → ∃ rows, task_rows s tasks = Ok rows.
Proof.
  intros Hh. unfold task_rows. pose proof (λ t, proj1 (task_ids_in tasks t)) as Hin. revert Hin.
  generalize (sort_strings (map fst (map_to_list tasks))). intros l Hin. induction l as [|t l IH]; [by exists []|].
  destruct IH as [rows Hrows]; [intros u Hu; apply Hin; by right|]. destruct (Hin t) as [task Ht]; [by left|]. specialize (Hh t task Ht).
  assert (in_set (status_value s t (default [] (tasks !! t))) terminal = Ok (str_in (status_value s t task) terminal)) as Hs.
  { rewrite Ht. change (default [] (Some task)) with task. unfold in_set. by rewrite Hh. }
  cbn [mapM]. rewrite Hrows, Hs. by eexists.
Qed.

(** C32: The scheduler does not stall by itself.  When the tasks of the plan can be
    read and their statuses are hashable, the dependencies of every task are
    tasks of the plan, in no later wave and without cycles, no lease is active,
    and every task whose status is terminal is completed (none failed, was
    blocked or skipped), then as long as a task is left some task is ready. *)
Theorem ready_progress now s tasks (rank : string → nat) t0 task0 : _task_map s = Ok tasks →
  (∀ t task, tasks !! t = Some task → hashable (status_value s t task) = true) →
  (∀ t task, tasks !! t = Some task → lease_active now s t = false) →
  (∀ t task, tasks !! t = Some task → in_set (status_value s t task) terminal = Ok true → t ∈ completed_ids s) →
  (∀ t task d, tasks !! t = Some task → d ∈ dependencies task →
     ∃ dep, tasks !! d = Some dep ∧ (wave_of dep ≤ wave_of task)%Z ∧ (rank d < rank t)%nat) →
  tasks !! t0 = Some task0 → open_task s t0 task0 →
  ∃ ids, _ready_ids_from_state now s = Ok ids ∧ ids ≠ [].
Proof.
  intros Hm Hh Hl Hterm Hdeps Ht0 Ho0. destruct (rows_total s tasks Hh) as [rows Hrows].
  assert (∃ ids, _ready_ids_from_state now s = Ok ids) as [ids Hids] by (unfold _ready_ids_from_state; rewrite Hm; cbn; rewrite Hrows; cbn; by eexists).
  exists ids. split; [done|]. destruct (ready_ids_spec _ _ _ Hids) as (tasks' & Hm' & _ & _ & Hspec). assert (tasks' = tasks) as -> by congruence.
  assert (∃ t task, tasks !! t = Some task ∧ open_task s t task ∧
    ∀ u other, tasks !! u = Some other → open_task s u other → (wave_of task ≤ wave_of other)%Z) as (t & task & Ht & Ho & Hmin).
  { destruct (rows_spec s tasks rows Hrows) as [_ Hin]. pose proof (minimum_spec (open_waves rows)) as Hmin.
    assert (∀ u other, tasks !! u = Some other → open_task s u other → wave_of other ∈ open_waves rows) as Hopen.
    { intros u other Hu Hou. unfold open_waves. apply list_elem_of_omap. exists (u, other, false). split; [by apply Hin|done]. }
    destruct (minimum _) as [w|]; [|exfalso; specialize (Hopen t0 task0 Ht0 Ho0); rewrite Hmin in Hopen; by apply elem_of_nil in Hopen].
    destruct Hmin as [Hw Hle]. unfold open_waves in Hw. apply list_elem_of_omap in Hw as ([[u other] b] & Hi & Hb). cbn in Hb. destruct b; [discriminate|].
    apply Hin in Hi as [Hu Hou]. exists u, other. split; [done|]. split; [done|]. intros v o Hv Hov. assert (wave_of other = w) as -> by congruence. by apply Hle, Hopen with v. }
  assert (∃ u, ready_task now s tasks u) as [u Hu]; [|intros ->; apply Hspec in Hu; by apply elem_of_nil in Hu].
  assert (∀ n u other, rank u = n → tasks !! u = Some other → open_task s u other → wave_of other = wave_of task → ∃ v, ready_task now s tasks v) as Hgo;
    [|by apply (Hgo (rank t) t task)].
  intros n. induction (lt_wf n) as [n _ IH]. intros u other Hn Hu Hou Hw.
  destruct (decide (Forall (λ d, d ∈ completed_ids s) (dependencies other))) as [Hall | Hex].
  - exists u, other. split; [done|]. split; [done|]. split; [by apply (Hl u other)|]. split; [by rewrite Forall_forall in Hall|].
    intros v o Hv Hov. rewrite Hw. by apply (Hmin v o).
  - apply not_Forall_Exists in Hex; [|apply _]. apply Exists_exists in Hex as (x & Hx & Hnx). cbn in Hnx. destruct (Hdeps u other x Hu Hx) as (dep & Hdep & Hwd & Hrank).
    specialize (Hh x dep Hdep). assert (open_task s x dep) as Hox.
    { unfold open_task. destruct (in_set (status_value s x dep) terminal) as [[|]|] eqn:Hs; [|done|].
      - exfalso. apply Hnx. by apply (Hterm x dep).
      - unfold in_set in Hs. by rewrite Hh in Hs. }
    apply (IH (rank x)) with x dep; [lia|done..|]. specialize (Hmin x dep Hdep Hox). lia.
Qed.

Definition progress_state : dict := [(VStr "plan", VDict [(VStr "tasks", VList [
  VDict [(VStr "id", VStr "a")]; VDict [(VStr "id", VStr "b"); (VStr "depends_on", VList [VStr "a"])]])])].
Definition progress_tasks : gmap string dict :=
  <["b" := [(VStr "id", VStr "b"); (VStr "depends_on", VList [VStr "a"])]]> (<["a" := [(VStr "id", VStr "a")]]> ∅).
Definition progress_rank (t : string) : nat := if bool_decide (t = "a") then 0%nat else 1%nat.

Lemma progress_lookup t task : progress_tasks !! t = Some task →
  (t = "a" ∧ task = [(VStr "id", VStr "a")]) ∨ (t = "b" ∧ task = [(VStr "id", VStr "b"); (VStr "depends_on", VList [VStr "a"])]).
Proof.
  unfold progress_tasks. intros [[<- <-] | [_ [[<- <-] | [_ Ht]]%lookup_insert_Some]]%lookup_insert_Some; [by right|by left|].
  by rewrite lookup_empty in Ht.
Qed.

Lemma ready_progress_witness : ∃ ids, _ready_ids_from_state None progress_state = Ok ids ∧ ids ≠ [].
Proof.
  apply (ready_progress None progress_state progress_tasks progress_rank "a" [(VStr "id", VStr "a")]).
  - vm_compute. reflexivity.
  - intros t task [[-> ->] | [-> ->]]%progress_lookup; reflexivity.
  - intros t task _. reflexivity.
  - intros t task [[-> ->] | [-> ->]]%progress_lookup; intros [=].
  - intros t task d [[-> ->] | [-> ->]]%progress_lookup Hd; [by apply elem_of_nil in Hd|].
    apply list_elem_of_singleton in Hd as ->. exists [(VStr "id", VStr "a")]. split; [reflexivity|]. split; [reflexivity|]. apply (bool_decide_unpack _). vm_compute. exact I.
  - reflexivity.
  - reflexivity.
Defined.

(** *** Tasks that are apart *)

(** A path as the plan gives it, among those a task owns. *)
Definition owned (tasks : gmap string dict) (t a : string) : Prop :=
  ∃ task key values, tasks !! t = Some task ∧ key ∈ ["allowed_paths"; "paths"] ∧ path_values (dget key task) = Ok values ∧ VStr a ∈ values.
(** No two leased tasks own paths of which one lies below the other, component
    by component.  A path without components, such as ["."], is not compared. *)
Definition apart (s : dict) : Prop := ∀ tasks t u p q a b, _task_map s = Ok tasks → leased s t → leased s u → t ≠ u →
  paths_at tasks t = Ok p → paths_at tasks u = Ok q → owned tasks t a → owned tasks u b → normal_parts a ≠ [] → normal_parts b ≠ [] →
  ¬ normal_parts a `prefix_of` normal_parts b ∧ ¬ normal_parts b `prefix_of` normal_parts a.

Lemma mapM_path l xs a : mapM path_of l = Ok xs → VStr a ∈ l → ∃ x, path_of (VStr a) = Ok x ∧ x ∈ xs.
Proof.
  intros HF%mapM_res_ok Hin. induction HF as [|v x l xs Hv HF IH]; [by apply elem_of_nil in Hin|].
  apply elem_of_cons in Hin as [<- | Hin]; [exists x; by split; [|left]|]. destruct (IH Hin) as (y & ? & ?). exists y. by split; [|right].
Qed.
Lemma owned_path tasks t p a : paths_at tasks t = Ok p → owned tasks t a → ∃ x, path_of (VStr a) = Ok x ∧ x ∈ p.
Proof.
  intros Hp (task & key & values & Ht & Hkey & Hv & Hin). unfold paths_at in Hp. rewrite Ht in Hp. unfold _paths in Hp.
  apply bind_ok in Hp as (l1 & H1 & Hp). apply bind_ok in Hp as (xs & H2 & Hp). apply bind_ok in Hp as (l2 & H3 & Hp). apply bind_ok in Hp as (ys & H4 & Hp%ok_inj). subst p.
  setoid_rewrite elem_of_remove_dups. setoid_rewrite elem_of_app.
  apply elem_of_cons in Hkey as [-> | Hkey%list_elem_of_singleton]; [|subst key].
  - rewrite H1 in Hv. apply ok_inj in Hv. subst l1. destruct (mapM_path _ _ a H2 Hin) as (x & ? & ?). exists x. auto.
  - rewrite H3 in Hv. apply ok_inj in Hv. subst l2. destruct (mapM_path _ _ a H4 Hin) as (x & ? & ?). exists x. auto.
Qed.
Lemma exclusive_apart s : exclusive s → apart s.
Proof.
  intros Hex tasks t u p q a b Hm Ht Hu Hne Hp Hq Ha Hb Hna Hnb. specialize (Hex tasks t u p q Hm Ht Hu Hne Hp Hq).
  destruct (owned_path tasks t p a Hp Ha) as (x & Hx & Hxp), (owned_path tasks u q b Hq Hb) as (y & Hy & Hyq).
  unfold _overlap in Hex. rewrite existsb_false_iff in Hex. specialize (Hex x Hxp). rewrite existsb_false_iff in Hex. specialize (Hex y Hyq).
  apply not_true_iff_false in Hex. rewrite (overlap_components a b x y Hx Hy) in Hex. tauto.
Qed.

(** C31: Claims never let tasks run at the same time that own overlapping paths.
    If before a [claim] no two leased tasks of the run overlap (leases that were
    granted past the scheduler are not its doing), then after it no two leased
    tasks do: their paths are apart, component by component, where a path with
    no component (["."], the whole tree) is a name like any other.  Each task
    granted was ready at the store's time, and no more than [max_parallel] tasks
    are granted. *)
Theorem claim_exclusive `{PlanIdentity} worker limit secs now time tokens clk' sch sch' d d' out s :
  run_ok sch.(sc_run_id) d → load sch.(sc_run_id) d = Ok s → exclusive s → Forall (λ t, _ID t = true) tokens →
  claim worker limit secs now (VStr time) tokens clk' sch d = Ok (sch', d', out) →
  ∃ s' tasks, load sch.(sc_run_id) d' = Ok s' ∧ exclusive s' ∧ apart s' ∧ (Z.of_nat (length out) ≤ Z.max 0 sch.(sc_max))%Z ∧ _task_map s = Ok tasks ∧
    ∀ g, g ∈ out → ∃ t id expiry, g = lease_token sch.(sc_run_id) t id expiry (generation s + 1) ∧
      ready_task (Some time) (reclaim time s) tasks t.
Proof.
  intros Hr Hl Hex Htok Hc. unfold claim in Hc. apply bind_ok in Hc as (w & _ & Hc). apply bind_ok in Hc as (requested & _ & Hc).
  apply bind_ok in Hc as (u & Hreq & Hc). apply ensure_ok, Z.leb_le in Hreq. apply bind_ok in Hc as (candidates & Hcand & Hc).
  destruct (claim_many _ _ _ _ _ _ _ _ _ _) as [[d1 claimed]|e] eqn:Hm.
  - apply ok_inj in Hc. assert (d1 = d' ∧ claimed = out) as [-> ->] by (split; congruence).
    destruct (claim_many_exclusive _ _ _ _ _ _ _ _ _ _ _ _ _ Hr Hl Hex Htok Hm) as (s' & tasks & H1 & H2 & H3 & H4 & H5).
    exists s', tasks. do 2 (split; [done|]). split; [by apply exclusive_apart|]. split; [lia|]. done.
  - destruct (is_capacity e); [|discriminate]. destruct candidates as [|c candidates]; [discriminate|]. apply ok_inj in Hc.
    assert (d' = d ∧ out = []) as [-> ->] by (split; congruence). unfold ready_ids in Hcand. rewrite Hl in Hcand. cbn in Hcand.
    destruct (ready_ids_spec _ _ _ Hcand) as (tasks & Hm' & _). exists s, tasks. do 2 (split; [done|]). split; [by apply exclusive_apart|]. split; [cbn; lia|]. split; [done|].
    by intros g ?%elem_of_nil.
Qed.

(** [recover_stale] drops exactly the leases that had expired: when it
    returns, the leases of the run are those that expire after its time, the
    plan, the tasks, the attempts and the reports are what they were, and the
    ids returned are those of the expired leases. *)
Theorem recover_stale_exact `{PlanIdentity} now clk sch d d' s ids :
  run_ok sch.(sc_run_id) d → load sch.(sc_run_id) d = Ok s → recover_stale (Some now) clk sch d = (d', Ok ids) →
  run_ok sch.(sc_run_id) d' ∧ ids = stale_ids now s ∧ ∃ s', load sch.(sc_run_id) d' = Ok s' ∧
    (∀ k, k ∈ ["plan"; "tasks"; "reports"; "attempts"] → dget k s' = dget k s) ∧
    ∀ t, dget t (fld "leases" s') = (v ← dget t (fld "leases" s); if str_leb (expires_at v) now then None else Some v).
Proof.
  intros Hr Hl Hrec. unfold recover_stale in Hrec. rewrite Hl in Hrec. unfold mbind, stm_bind in Hrec.
  destruct (recover_all now sch clk (stale_ids now s) d) as [d1 [[]|]] eqn:Hall; [|discriminate].
  cbv [mret stm_ret] in Hrec. assert (d1 = d' ∧ ids = stale_ids now s) as [-> ->] by (split; congruence).
  destruct (recover_all_spec sch now clk _ d d' s Hr Hl Hall) as (Hr' & s' & Hl' & Hk & Hu). split; [done|]. split; [done|].
  exists s'. split; [done|]. split; [done|]. intros t. rewrite Hu. case_bool_decide as Hin; [done|].
  destruct (dget t (fld "leases" s)) as [v|] eqn:Hv; [|done]. cbn. destruct (str_leb (expires_at v) now) eqn:Hle; [|done]. exfalso. apply Hin.
  unfold stale_ids, sort_strings. rewrite elem_of_sort_by. apply list_elem_of_omap. exists (VStr t, v). split; [by apply dget_elem_of|]. cbn. by rewrite Hle.
Qed.

(** The scheduler on the concrete run of [RunStoreSpec]. *)
Definition demo_scheduler : scheduler := MkScheduler "run" "owner" 2 [].
Definition demo_scheduled : sres (scheduler * disk * list pyval) :=
  claim (H := plain_identity) (VStr "w") (Some (VInt 1)) (VInt 60) None demo_time [demo_token] demo_time demo_scheduler demo_disk.
Definition sched_of (m : sres (scheduler * disk * list pyval)) : scheduler * disk * list pyval :=
  match m with Ok x => x | Err _ => (demo_scheduler, demo_empty, []) end.
Definition demo_sched_result : scheduler * disk * list pyval := Eval vm_compute in sched_of demo_scheduled.
Lemma demo_sched_claimed :
  claim (H := plain_identity) (VStr "w") (Some (VInt 1)) (VInt 60) None (VStr "2026-01-01T00:00:00.000000Z") [demo_token] demo_time demo_scheduler demo_disk =
  Ok (demo_sched_result.1.1, demo_sched_result.1.2, demo_sched_result.2).
Proof. vm_compute. reflexivity. Qed.
Lemma demo_exclusive : exclusive demo_snapshot.
Proof. intros tasks t u p q _ Ht. vm_compute in Ht. discriminate. Qed.
Lemma demo_one_token : Forall (λ t, _ID t = true) [demo_token].
Proof. repeat constructor. Qed.

Lemma claim_exclusive_witness : length demo_sched_result.2 = 1%nat ∧
  ∃ s' tasks, load (H := plain_identity) "run" demo_sched_result.1.2 = Ok s' ∧ exclusive s' ∧ apart s' ∧
    (Z.of_nat (length demo_sched_result.2) ≤ Z.max 0 2)%Z ∧ _task_map demo_snapshot = Ok tasks ∧
    ∀ g, g ∈ demo_sched_result.2 → ∃ t id expiry, g = lease_token "run" t id expiry (generation demo_snapshot + 1) ∧
      ready_task (Some "2026-01-01T00:00:00.000000Z") (reclaim "2026-01-01T00:00:00.000000Z" demo_snapshot) tasks t.
Proof.
  split; [reflexivity|].
  exact (claim_exclusive (H := plain_identity) (VStr "w") (Some (VInt 1)) (VInt 60) None "2026-01-01T00:00:00.000000Z" [demo_token] demo_time
    demo_scheduler demo_sched_result.1.1 demo_disk demo_sched_result.1.2 demo_sched_result.2 demo_snapshot demo_run_ok demo_loaded demo_exclusive demo_one_token
    demo_sched_claimed).
Defined.

Lemma ready_exact_witness : ready_ids (H := plain_identity) None demo_scheduler demo_disk = Ok ["t1"; "t2"] ∧
  ∃ s tasks, load (H := plain_identity) "run" demo_disk = Ok s ∧ _task_map s = Ok tasks ∧
    StronglySorted (λ a b, String.leb a b = true) ["t1"; "t2"] ∧ NoDup ["t1"; "t2"] ∧ ∀ t, t ∈ ["t1"; "t2"] ↔ ready_task None s tasks t.
Proof.
  assert (ready_ids (H := plain_identity) None demo_scheduler demo_disk = Ok ["t1"; "t2"]) as Hr by (vm_compute; reflexivity).
  split; [exact Hr|]. exact (ready_exact (H := plain_identity) None demo_scheduler demo_disk ["t1"; "t2"] Hr).
Defined.

Definition demo_recovered : disk * sres (list string) :=
  recover_stale (H := plain_identity) (Some "2026-01-01T00:02:00.000000Z") (λ _, demo_later) demo_scheduler demo_held.
Definition demo_recovered_disk : disk := Eval vm_compute in demo_recovered.1.
Definition demo_held_state : dict := Eval vm_compute in loaded (load (H := plain_identity) "run" demo_held).
Lemma demo_held_loaded : load (H := plain_identity) "run" demo_held = Ok demo_held_state.
Proof. vm_compute. reflexivity. Qed.
Lemma demo_recovers : recover_stale (H := plain_identity) (Some "2026-01-01T00:02:00.000000Z") (λ _, demo_later) demo_scheduler demo_held =
  (demo_recovered_disk, Ok ["t1"]).
Proof. vm_compute. reflexivity. Qed.
Lemma recover_stale_exact_witness :
  run_ok (H := plain_identity) "run" demo_recovered_disk ∧ ["t1"] = stale_ids "2026-01-01T00:02:00.000000Z" demo_held_state ∧
  ∃ s', load (H := plain_identity) "run" demo_recovered_disk = Ok s' ∧
    (∀ k, k ∈ ["plan"; "tasks"; "reports"; "attempts"] → dget k s' = dget k demo_held_state) ∧
    ∀ t, dget t (fld "leases" s') =
      (v ← dget t (fld "leases" demo_held_state); if str_leb (expires_at v) "2026-01-01T00:02:00.000000Z" then None else Some v).
Proof.
  exact (recover_stale_exact (H := plain_identity) "2026-01-01T00:02:00.000000Z" (λ _, demo_later) demo_scheduler demo_held demo_recovered_disk
    demo_held_state ["t1"] demo_held_ok demo_held_loaded demo_recovers).
Defined.
