(* ===== verification/Gates.v ===== *)
(** * Gates: [gates.py]

    Gate results with their transitions, the policy that evaluates them, and
    the record of a human verification.  Data is checked and copied at the
    boundary ([_safe], [_plain_json], [_frozen_policy]).  A gate result is a
    mutable object: [transition] is a state change that keeps what it assigned
    when it raises.  The texts of the exceptions are not modelled.  Values are
    finite trees, so the guards against cyclic structures never fire. *)

From stdpp Require Import strings list.
From S2P Require Import Prelude PyStr PyNum PyVal IsoTime.

Open Scope string_scope.

Inductive gate_error : Type := GateError | GateValueError | GateTypeError | GateKeyError | GateOverflowError.
#[export] Instance gate_error_eq_dec : EqDecision gate_error.
Proof. solve_decision. Defined.
Notation gres := (res gate_error).
Notation dict := (list (pyval * pyval)).

(** ** Enumerations *)

Definition GateType : list string := ["review"; "grill"; "smoke_test"; "evidence"].

Inductive GateStatus : Type := PENDING | RUNNING | PASSED | FAILED | BLOCKED.
#[export] Instance gate_status_eq_dec : EqDecision GateStatus.
Proof. solve_decision. Defined.
Definition status_text (s : GateStatus) : string :=
  match s with PENDING => "pending" | RUNNING => "running" | PASSED => "passed" | FAILED => "failed" | BLOCKED => "blocked" end.
Definition status_of_text (s : string) : option GateStatus :=
  if bool_decide (s = "pending") then Some PENDING else if bool_decide (s = "running") then Some RUNNING
  else if bool_decide (s = "passed") then Some PASSED else if bool_decide (s = "failed") then Some FAILED
  else if bool_decide (s = "blocked") then Some BLOCKED else None.

Inductive HumanDecision : Type := APPROVED | REJECTED | DECISION_PENDING.
#[export] Instance human_decision_eq_dec : EqDecision HumanDecision.
Proof. solve_decision. Defined.
Definition decision_text (d : HumanDecision) : string :=
  match d with APPROVED => "APPROVED" | REJECTED => "REJECTED" | DECISION_PENDING => "PENDING" end.

Definition _POLICY_KEYS : list string := ["requirements"; "gates"; "default_requirements"].
Definition _REQUIREMENT_KEYS : list string := ["owner"; "decision"; "evidence"; "reports"; "no_blockers"].

(** [s.upper()]; no character outside ASCII becomes an ASCII letter of the decisions. *)
Definition upper (s : string) : string :=
  str_map (λ c, if is_lower c then ascii_of_nat (code c - 32) else c) s.

(** [_utc_datetime], in microseconds since the year 1. *)
Definition _utc_datetime (r : clock_reading) : gres Z :=
  match r with
  | ReadDatetime t => if is_utc t then Ok t.(dt_us) else Err GateError
  | ReadValue (VStr s) => match parse_z s with
                          | Some t => if is_utc t then Ok t.(dt_us) else Err GateError
                          | None => Err GateError
                          end
  | ReadValue _ => Err GateError
  end.
Definition _digest (v : pyval) : gres string :=
  match v with VStr s => if is_sha256_hex s then Ok s else Err GateError | _ => Err GateError end.
Definition _human_decision (v : pyval) : gres HumanDecision :=
  let s := upper (py_str v) in
  if bool_decide (s = "APPROVED") then Ok APPROVED else if bool_decide (s = "REJECTED") then Ok REJECTED
  else if bool_decide (s = "PENDING") then Ok DECISION_PENDING else Err GateError.

Definition _VALID_TRANSITIONS (s : GateStatus) : list GateStatus :=
  match s with
  | PENDING => [RUNNING; BLOCKED]
  | RUNNING => [PASSED; FAILED; BLOCKED]
  | FAILED => [RUNNING]
  | BLOCKED => [RUNNING]
  | PASSED => []
  end.

(** ** Copies *)

Definition json_key (k : pyval) : bool := match k with VStr s => nonempty s | _ => false end.

Fixpoint _safe (v : pyval) : gres pyval :=
  match v with
  | VNone | VStr _ | VBool _ | VInt _ => Ok v
  | VFloat f => if is_finite f then Ok v else Err GateError
  | VDict kvs | VProxy kvs =>
      _ ← ensure (forallb (λ kv, json_key kv.1) kvs) GateError;
      l ← mapM (λ kv, w ← _safe kv.2; Ok (kv.1, w)) kvs; Ok (VDict l)
  | VList l | VTuple l => l' ← mapM _safe l; Ok (VList l')
  | VOther _ => Err GateError
  end.

Definition _text (v : pyval) (required : bool) : gres (option string) :=
  match v with
  | VNone => if required then Err GateError else Ok None
  | VStr s => if required && blank s then Err GateError else Ok (Some (strip s))
  | _ => Err GateError
  end.
Definition required_text (v : pyval) : gres string := default "" <$> _text v true.
Definition _status (v : pyval) : gres GateStatus :=
  match v with VStr s => match status_of_text s with Some x => Ok x | None => Err GateError end | _ => Err GateError end.
Definition _items (v : pyval) : gres (list pyval) :=
  match v with VNone => Ok [] | VList l | VTuple l => Ok l | _ => Err GateError end.

(** The elements of a JSON-safe copy of a list. *)
Definition list_of (v : pyval) : list pyval := match v with VList l => l | _ => [] end.
Definition reference_ok (item : pyval) : bool :=
  match item with
  | VStr s => negb (blank s)
  | VDict d => existsb (λ k, match dget k d with Some (VStr s) => negb (blank s) | _ => false end) ["ref"; "id"; "path"; "name"]
  | _ => false
  end.
Definition _references (v : pyval) : gres (list pyval) :=
  items ← _items v; w ← _safe (VList items);
  _ ← ensure (forallb reference_ok (list_of w)) GateError; Ok (list_of w).

(** A JSON-safe copy whose containers are read-only. *)
Fixpoint freeze (v : pyval) : pyval :=
  match v with
  | VDict kvs | VProxy kvs => VProxy (map (λ kv, (kv.1, freeze kv.2)) kvs)
  | VList l | VTuple l => VTuple (map freeze l)
  | _ => v
  end.
Definition _frozen_policy (v : pyval) : gres pyval := freeze <$> _safe v.

Definition _plain_policy_dict (v : pyval) : gres dict := match v with VDict kvs => Ok kvs | _ => Err GateError end.

Fixpoint _plain_json (v : pyval) : gres pyval :=
  match v with
  | VNone | VStr _ | VBool _ | VInt _ => Ok v
  | VFloat f => if is_finite f then Ok v else Err GateError
  | VDict kvs =>
      l ← mapM (λ kv, if json_key kv.1 then w ← _plain_json kv.2; Ok (kv.1, w) else Err GateError) kvs; Ok (VDict l)
  | VList l | VTuple l => l' ← mapM _plain_json l; Ok (VList l')
  | VProxy _ | VOther _ => Err GateError
  end.

(** ** Scopes *)

Fixpoint normalize (v : pyval) : pyval :=
  match v with
  | VDict kvs => VDict (sort_by kv_leb (map (λ kv, (kv.1, normalize kv.2)) kvs))
  | VList l => VList (sort_by dumps_leb (map normalize l))
  | _ => v
  end.
Definition _canonical_scope (v : pyval) : option string :=
  match _plain_json v with
  | Ok plain => match json_dumps (normalize plain) with Ok s => Some s | Err _ => None end
  | Err _ => None
  end.

(** ** Blockers *)

Definition known_severities : list string := ["blocker"; "critical"; "high"; "medium"; "low"; "info"].
Definition closed_statuses : list string := ["closed"; "resolved"; "done"; "passed"].
Definition known_statuses : list string :=
  ["open"; "pending"; "active"; "in_progress"; "in-progress"; "unresolved"] ++ closed_statuses.
Definition _open_blocker (item : pyval) : bool :=
  match entries item with
  | Some d =>
      match (match dget "severity" d with Some v => v | None => dget_or VNone "level" d end), dget_or VNone "status" d with
      | VStr severity, VStr status =>
          let severity := casefold (strip severity) in
          let status := casefold (strip status) in
          if negb (bool_decide (severity ∈ known_severities)) || negb (bool_decide (status ∈ known_statuses)) then true
          else negb (bool_decide (status ∈ closed_statuses)) && bool_decide (severity ∈ ["blocker"; "critical"; "high"])
      | _, _ => true
      end
  | None => true
  end.

(** ** Gate results *)

Record GateResult : Type := MkGate {
  gate_id : string; gate_type : string; g_status : GateStatus; g_owner : option string; g_decision : option string;
  g_blockers : list pyval; g_evidence : list pyval; g_reports : list pyval; g_details : dict }.

Definition filled (o : option string) : bool := match o with Some s => nonempty s | None => false end.
Definition some_items (l : list pyval) : bool := match l with [] => false | _ => true end.
Definition _passes_gate_contract (g : GateResult) : bool :=
  filled g.(g_owner) && filled g.(g_decision) && some_items g.(g_evidence) && some_items g.(g_reports) &&
  negb (existsb _open_blocker g.(g_blockers)).

(** The constructor: [GateResult(...)] with its [__post_init__]. *)
Definition new_gate (id type status owner decision blockers evidence reports details : pyval) : gres GateResult :=
  gid ← required_text id;
  gtype ← required_text type;
  _ ← ensure (bool_decide (gtype ∈ GateType)) GateError;
  current ← _status status;
  own ← _text owner false;
  dec ← _text decision false;
  items ← _items blockers; bl ← _safe (VList items);
  ev ← _references evidence;
  rep ← _references reports;
  _ ← ensure (is_mapping details) GateError;
  det ← _safe details;
  let g := MkGate gid gtype current own dec (list_of bl) ev rep (match det with VDict d => d | _ => [] end) in
  _ ← ensure (negb (bool_decide (current = PASSED)) || _passes_gate_contract g) GateError;
  Ok g.

Definition opt_str (o : option string) : pyval := match o with Some s => VStr s | None => VNone end.
Definition gate_fields (g : GateResult) : dict :=
  [(VStr "gate_id", VStr g.(gate_id)); (VStr "gate_type", VStr g.(gate_type)); (VStr "status", VStr (status_text g.(g_status)));
   (VStr "owner", opt_str g.(g_owner)); (VStr "decision", opt_str g.(g_decision)); (VStr "blockers", VList g.(g_blockers));
   (VStr "evidence", VList g.(g_evidence)); (VStr "reports", VList g.(g_reports)); (VStr "details", VDict g.(g_details))].
Definition to_dict (g : GateResult) : gres pyval := _safe (VDict (gate_fields g)).

(** [d.get(k, default)] with a default that is another lookup. *)
Definition first_of (ks : list string) (default : pyval) (d : dict) : pyval :=
  foldr (λ k rest, match dget k d with Some v => v | None => rest end) default ks.
Definition gate_of_mapping (d : dict) : gres GateResult :=
  new_gate (first_of ["gate_id"; "id"] VNone d) (first_of ["gate_type"; "kind"; "type"] VNone d)
    (dget_or (VStr "pending") "status" d) (dget_or VNone "owner" d) (dget_or VNone "decision" d)
    (dget_or (VList []) "blockers" d) (first_of ["evidence"; "evidence_refs"] (VList []) d) (dget_or (VList []) "reports" d)
    (dget_or (VDict []) "details" d).
Definition from_dict (v : GateResult + pyval) : gres GateResult :=
  match v with
  | inl g => d ← to_dict g; match d with VDict kvs => gate_of_mapping kvs | _ => Err GateError end
  | inr v => match entries v with Some d => gate_of_mapping d | None => Err GateError end
  end.
Definition to_json (g : GateResult) : gres string := d ← to_dict g; map_err (λ _, GateTypeError) (json_dumps d).

(** [transition]: the status is assigned before the reason is checked. *)
Definition with_status (st : GateStatus) (g : GateResult) : GateResult :=
  MkGate g.(gate_id) g.(gate_type) st g.(g_owner) g.(g_decision) g.(g_blockers) g.(g_evidence) g.(g_reports) g.(g_details).
Definition with_details (d : dict) (g : GateResult) : GateResult :=
  MkGate g.(gate_id) g.(gate_type) g.(g_status) g.(g_owner) g.(g_decision) g.(g_blockers) g.(g_evidence) g.(g_reports) d.
Definition transition (target : pyval) (reason : option pyval) : stm GateResult gate_error unit :=
  t ← lift_res (_status target);
  g ← get_state;
  _ ← ensure_st (bool_decide (t ∈ _VALID_TRANSITIONS g.(g_status))) GateError;
  _ ← ensure_st (negb (bool_decide (t ∈ [PASSED; FAILED])) || (filled g.(g_owner) && filled g.(g_decision))) GateError;
  _ ← ensure_st (negb (bool_decide (t = PASSED)) || _passes_gate_contract g) GateError;
  _ ← modify (with_status t);
  match reason with
  | None | Some VNone => mret ()
  | Some r => text ← lift_res (required_text r); modify (λ g, with_details (dset "reason" (VStr text) g.(g_details)) g)
  end.

(** ** The policy *)

Definition requirement : Type := list (string * bool).
Record GatePolicy : Type := MkPolicy { requirements : list (string * requirement); default_requirements : requirement }.

Definition requirement_item (kv : pyval * pyval) : gres (string * bool) :=
  match kv.1 with
  | VStr k =>
      _ ← ensure (nonempty k && bool_decide (k ∈ _REQUIREMENT_KEYS)) GateError;
      match kv.2 with VBool b => Ok (k, b) | _ => Err GateError end
  | _ => Err GateError
  end.
Definition requirement_of (kv : pyval * pyval) : gres (string * requirement) :=
  match kv.1 with
  | VStr kind =>
      _ ← ensure (nonempty kind && bool_decide (kind ∈ GateType)) GateError;
      match kv.2 with VDict req => items ← mapM requirement_item req; Ok (kind, items) | _ => Err GateError end
  | _ => Err GateError
  end.
Definition new_policy (reqs defaults : pyval) : gres GatePolicy :=
  r ← _plain_policy_dict reqs;
  normalized ← mapM requirement_of r;
  d ← _plain_policy_dict defaults;
  items ← mapM requirement_item d;
  Ok (MkPolicy normalized items).
Definition default_policy : GatePolicy := MkPolicy [] (map (λ k, (k, true)) _REQUIREMENT_KEYS).
Definition requirement_dict (r : requirement) : pyval := VDict (map (λ kb, (VStr kb.1, VBool kb.2)) r).

Definition policy_field (k : string) (d : dict) : gres (option pyval) :=
  match dget k d with
  | Some v => kvs ← _plain_policy_dict v; Some <$> _plain_json (VDict kvs)
  | None => Ok None
  end.
Definition policy_from_dict (v : GatePolicy + pyval) : gres GatePolicy :=
  match v with
  | inl p => Ok p
  | inr VNone => Ok default_policy
  | inr v =>
      d ← _plain_policy_dict v;
      _ ← ensure (forallb (λ kv, is_str kv.1) d) GateError;
      _ ← ensure (negb (has_unknown _POLICY_KEYS d)) GateError;
      reqs ← policy_field "requirements" d;
      gates ← policy_field "gates" d;
      _ ← ensure (match reqs, gates with Some r, Some g => py_eqb r g | _, _ => true end) GateError;
      defaults ← policy_field "default_requirements" d;
      new_policy (match reqs, gates with Some r, _ => r | None, Some g => g | None, None => VDict [] end)
        (default (requirement_dict (default_requirements default_policy)) defaults)
  end.

(** [req.get(k, True)], where [req] is the defaults updated with the requirements of the type. *)
Definition find_req (k : string) (r : requirement) : option bool := snd <$> List.find (λ kb, bool_decide (kb.1 = k)) r.
Definition required (p : GatePolicy) (type k : string) : bool :=
  let own := match snd <$> List.find (λ kr, bool_decide (kr.1 = type)) p.(requirements) with Some r => r | None => [] end in
  match find_req k own with
  | Some b => b
  | None => default true (find_req k p.(default_requirements))
  end.
Definition human_decisions : list string := ["human"; "human_required"; "needs_approval"; "pending"].
Definition evaluate_gate (p : GatePolicy) (g : GateResult) : GateStatus :=
  if bool_decide (g.(g_status) ∈ [PENDING; RUNNING]) then g.(g_status) else
  let req := required p g.(gate_type) in
  if filled g.(g_decision) && bool_decide (lower (default "" g.(g_decision)) ∈ human_decisions) then PENDING
  else if negb (bool_decide (g.(g_status) = PASSED)) then g.(g_status)
  else if req "owner" && negb (filled g.(g_owner)) then BLOCKED
  else if req "decision" && negb (filled g.(g_decision)) then PENDING
  else if req "evidence" && negb (some_items g.(g_evidence)) then BLOCKED
  else if req "reports" && negb (some_items g.(g_reports)) then BLOCKED
  else if req "no_blockers" && existsb _open_blocker g.(g_blockers) then BLOCKED
  else PASSED.
Definition evaluate (p : GatePolicy) (v : GateResult + pyval) : gres GateStatus :=
  g ← match v with inl g => Ok g | inr _ => from_dict v end; Ok (evaluate_gate p g).
Definition allows (p : GatePolicy) (v : GateResult + pyval) : gres bool := (λ s, bool_decide (s = PASSED)) <$> evaluate p v.
Definition policy_to_dict (p : GatePolicy) : pyval :=
  VDict [(VStr "requirements", VDict (map (λ kr, (VStr kr.1, requirement_dict kr.2)) p.(requirements)));
         (VStr "default_requirements", requirement_dict p.(default_requirements))].

(** ** Human verification *)

Inductive window_value : Type := WDelta (us : Z) | WValue (v : pyval).

Record HumanVerificationGate : Type := MkHuman {
  h_owner : string; h_identity : string; h_decision : HumanDecision; h_scope : pyval; h_run : string;
  h_evidence_digest : string; h_artifact_digest : string; h_created_at : Z; h_updated_at : Z;
  h_freshness_window : Z; h_blockers : list pyval; h_clock : option clock_reading }.

(** [window.total_seconds()] *)
Definition total_seconds (us : Z) : spec_float :=
  if (us =? 0)%Z then S754_zero false
  else if (us <? 0)%Z then SFopp (float_of_decimal (- us) (-6)) else float_of_decimal us (-6).
Definition window_seconds (w : window_value) : gres spec_float :=
  match w with
  | WDelta us => Ok (total_seconds us)
  | WValue (VInt z) => match float_of_Z z with Some f => Ok f | None => Err GateOverflowError end
  | WValue (VFloat f) => Ok f
  | WValue _ => Err GateError
  end.
Definition window_us (w : window_value) : gres Z :=
  f ← window_seconds w;
  _ ← ensure (num_ltb (NInt 0) (NFloat f) && is_finite f) GateError;
  match timedelta_us (NFloat f) with Some us => Ok us | None => Err GateOverflowError end.
Definition frozen_scope (v : pyval) : gres pyval :=
  w ← match v with VStr _ => VStr <$> required_text v | _ => p ← _plain_json v; _frozen_policy p end;
  match w with VStr _ | VProxy _ | VTuple _ => Ok w | _ => Err GateError end.
Definition tuple_of (v : pyval) : list pyval := match v with VTuple l => l | _ => [] end.
Definition frozen_blockers (v : pyval) : gres (list pyval) :=
  items ← _items v; p ← _plain_json (VList items); tuple_of <$> _frozen_policy p.

Definition new_human (owner identity decision scope run evidence artifact : pyval) (created updated : clock_reading)
    (window : window_value) (blockers : pyval) (clock : option clock_reading) : gres HumanVerificationGate :=
  own ← required_text owner;
  ident ← required_text identity;
  r ← required_text run;
  dec ← _human_decision decision;
  ed ← _digest evidence;
  ad ← _digest artifact;
  c ← _utc_datetime created;
  u ← _utc_datetime updated;
  _ ← ensure (c <=? u)%Z GateError;
  w ← window_us window;
  sc ← frozen_scope scope;
  bl ← frozen_blockers blockers;
  Ok (MkHuman own ident dec sc r ed ad c u w bl clock).

(** The optional arguments of [evaluate]; [None] is an argument left out or given as [None]. *)
Definition given (v : pyval) : option pyval := if is_none v then None else Some v.
Definition human_now (h : HumanVerificationGate) (now : option clock_reading) (clock : option clock_reading) (wall : Z) : gres Z :=
  match now with
  | Some r => _utc_datetime r
  | None =>
      match (match clock with Some c => Some c | None => h.(h_clock) end) with
      | Some c => dt_us <$> map_err (λ _, GateValueError) (clock_now c)
      | None => Ok wall
      end
  end.
Definition evaluate_human (h : HumanVerificationGate) (now : option clock_reading) (artifact evidence blockers : pyval)
    (clock : option clock_reading) (expected_run expected_scope : pyval) (wall : Z) : gres GateStatus :=
  now_value ← human_now h now clock wall;
  let expected := _canonical_scope expected_scope in
  actual ← _canonical_scope <$> _safe h.(h_scope);
  if negb (match expected_run with VStr r => negb (blank r) && bool_decide (h.(h_run) = r) | _ => false end) || is_none expected_scope ||
     negb (match actual, expected with Some a, Some e => bool_decide (a = e) | _, _ => false end)
  then Ok PENDING else
  current ← match given blockers with None => Ok h.(h_blockers) | Some b => frozen_blockers b end;
  if existsb _open_blocker current then Ok BLOCKED else
  match h.(h_decision) with
  | REJECTED => Ok BLOCKED
  | DECISION_PENDING => Ok PENDING
  | APPROVED =>
      if negb (py_eqb (default (VStr h.(h_artifact_digest)) (given artifact)) (VStr h.(h_artifact_digest))) then Ok PENDING
      else if negb (py_eqb (default (VStr h.(h_evidence_digest)) (given evidence)) (VStr h.(h_evidence_digest))) then Ok PENDING
      else match plus_delta (MkDt h.(h_updated_at) (Some 0%Z)) h.(h_freshness_window) with
           | None => Err GateOverflowError
           | Some limit => Ok (if (limit.(dt_us) <? now_value)%Z then PENDING else PASSED)
           end
  end.

Definition human_keys : list string :=
  ["owner"; "identity"; "decision"; "scope"; "run"; "run_id"; "evidence_digest"; "artifact_digest"; "created_at"; "updated_at";
   "freshness_window"; "blockers"].
Definition human_from_dict (v : pyval) (reject_unknown : bool) : gres HumanVerificationGate :=
  match v with
  | VDict d =>
      _ ← ensure (negb (reject_unknown && has_unknown human_keys d)) GateError;
      _ ← ensure (match dget "run" d, dget "run_id" d with
                  | Some (VStr a), Some (VStr b) => bool_decide (a = b)
                  | Some _, Some _ => false
                  | _, _ => true
                  end) GateError;
      let f k := dget_or VNone k d in
      new_human (f "owner") (f "identity") (f "decision") (f "scope") (first_of ["run"; "run_id"] VNone d) (f "evidence_digest")
        (f "artifact_digest") (ReadValue (f "created_at")) (ReadValue (f "updated_at")) (WValue (f "freshness_window"))
        (dget_or (VTuple []) "blockers" d) None
  | _ => Err GateError
  end.
Definition human_to_dict (h : HumanVerificationGate) : gres pyval :=
  sc ← _safe h.(h_scope);
  bl ← _safe (VTuple h.(h_blockers));
  let stamp us := VStr (zulu (isoformat (MkDt us (Some 0%Z)))) in
  Ok (VDict [(VStr "owner", VStr h.(h_owner)); (VStr "identity", VStr h.(h_identity)); (VStr "decision", VStr (decision_text h.(h_decision)));
    (VStr "scope", sc); (VStr "run", VStr h.(h_run)); (VStr "run_id", VStr h.(h_run)); (VStr "evidence_digest", VStr h.(h_evidence_digest));
    (VStr "artifact_digest", VStr h.(h_artifact_digest)); (VStr "created_at", stamp h.(h_created_at)); (VStr "updated_at", stamp h.(h_updated_at));
    (VStr "freshness_window", VFloat (total_seconds h.(h_freshness_window))); (VStr "blockers", bl)]).

(** ** Copies are stable *)

Lemma safe_list l l' : mapM _safe l = Ok l' ↔ _safe (VList l) = Ok (VList l').
Proof.
  cbn. rewrite bind_ok. split; [intros ->; by exists l'|]. intros (k & -> & Hk). congruence.
Qed.

Lemma safe_idem v w : _safe v = Ok w → _safe w = Ok w.
Proof.
  revert w. induction v as [| | | f | |l IH|l IH|kvs IH|kvs IH|] using pyval_ind'; intros w Hw.
  1-3,5: apply ok_inj in Hw; by subst w.
  1: cbn in Hw; destruct (is_finite f) eqn:Hf; [|discriminate]; apply ok_inj in Hw; subst w; cbn; by rewrite Hf.
  1-2: change (_safe _) with (mapM _safe l ≫= λ l', Ok (VList l')) in Hw; apply bind_ok in Hw as (l' & Hl & Hw); apply ok_inj in Hw; subst w;
    apply safe_list, mapM_res_ok; apply mapM_res_ok in Hl; clear -IH Hl; induction Hl as [|v w l l' Hv Hl IHl]; [constructor|];
    apply Forall_cons in IH as [Hh IH]; constructor; auto.
  1-2: change (_safe _) with (ensure (forallb (λ kv, json_key kv.1) kvs) GateError ≫= λ _, mapM (λ kv : pyval * pyval, w ← _safe kv.2; Ok (kv.1, w)) kvs ≫= λ l, Ok (VDict l)) in Hw;
    apply bind_ok in Hw as (u & Hk & Hw); apply ensure_ok in Hk; apply bind_ok in Hw as (l & Hl & Hw); apply ok_inj in Hw; subst w;
    apply mapM_res_ok in Hl; cbn; assert (forallb (λ kv, json_key kv.1) l = true ∧ mapM (λ kv : pyval * pyval, w ← _safe kv.2; Ok (kv.1, w)) l = Ok l) as [-> ->];
    [|done]; clear -IH Hl Hk; induction Hl as [|[k v] [k' w] kvs l Hv Hl IHl]; [done|]; apply Forall_cons in IH as [[_ Hh] IH];
    cbn in Hk; apply andb_true_iff in Hk as [Hk1 Hk]; cbn in Hv; apply bind_ok in Hv as (w' & Hw' & Hv); cbn in Hh;
    assert (k' = k ∧ w' = w) as [-> ->] by (split; congruence); destruct (IHl IH Hk) as [E1 E2]; cbn; rewrite Hk1, E1; split; [done|];
    rewrite (Hh w Hw'); cbn; by rewrite E2.
  discriminate.
Qed.

Lemma safe_list_of l w : _safe (VList l) = Ok w → w = VList (list_of w) ∧ _safe (VList (list_of w)) = Ok (VList (list_of w)).
Proof.
  intros Hw. assert (w = VList (list_of w)) as E.
  { change (_safe (VList l)) with (mapM _safe l ≫= λ l', Ok (VList l')) in Hw. apply bind_ok in Hw as (l' & _ & Hw). apply ok_inj in Hw. by subst w. }
  split; [done|]. rewrite <- E. by apply (safe_idem (VList l)).
Qed.
Lemma safe_mapping v w : is_mapping v = true → _safe v = Ok w → ∃ d, w = VDict d ∧ _safe (VDict d) = Ok (VDict d).
Proof.
  intros Hm Hw. assert (∃ d, w = VDict d) as [d ->]; [|exists d; split; [done|by apply (safe_idem v)]].
  destruct v; try discriminate; cbn in Hw; apply bind_ok in Hw as (u & _ & Hw); apply bind_ok in Hw as (l & _ & Hw);
    apply ok_inj in Hw; subst w; by exists l.
Qed.

(** ** Gate results in good order *)

Definition stripped (o : option string) : Prop := ∀ s, o = Some s → strip s = s.
Definition safe_items (l : list pyval) : Prop := _safe (VList l) = Ok (VList l).
Definition references_ok (l : list pyval) : Prop := safe_items l ∧ forallb reference_ok l = true.

Record gate_ok (g : GateResult) : Prop := {
  ok_id : blank (gate_id g) = false ∧ strip (gate_id g) = gate_id g;
  ok_type : gate_type g ∈ GateType;
  ok_owner : stripped (g_owner g);
  ok_decision : stripped (g_decision g);
  ok_blockers : safe_items (g_blockers g);
  ok_evidence : references_ok (g_evidence g);
  ok_reports : references_ok (g_reports g);
  ok_details : _safe (VDict (g_details g)) = Ok (VDict (g_details g));
  ok_passed : g_status g = PASSED → _passes_gate_contract g = true }.

Lemma required_text_ok v s : required_text v = Ok s → ∃ t, v = VStr t ∧ blank t = false ∧ s = strip t.
Proof.
  unfold required_text, _text. intros Ht. apply fmap_ok in Ht as (o & Ho & ->). destruct v as [| | | |t| | | | |]; try discriminate.
  cbn [andb] in Ho. destruct (blank t) eqn:Hb; [discriminate|]. apply ok_inj in Ho. subst o. by exists t.
Qed.
Lemma text_stripped v o : _text v false = Ok o → stripped o.
Proof.
  unfold _text. destruct v; try discriminate; intros Ho; apply ok_inj in Ho; subst o; intros t Ht; [discriminate|].
  injection Ht as <-. apply strip_idem.
Qed.
Lemma references_of v l : _references v = Ok l → references_ok l.
Proof.
  unfold _references. intros Hr. apply bind_ok in Hr as (items & _ & Hr). apply bind_ok in Hr as (w & Hw & Hr).
  apply bind_ok in Hr as (u & Hu & Hr). apply ensure_ok in Hu. apply ok_inj in Hr. subst l. split; [|done]. by apply safe_list_of in Hw as [_ ?].
Qed.
Lemma references_again l : references_ok l → _references (VList l) = Ok l.
Proof. intros [Hs Hf]. unfold _references. cbn [_items mbind res_bind]. rewrite Hs. cbn [mbind res_bind list_of]. by rewrite Hf. Qed.

Lemma gate_type_plain t : t ∈ GateType → blank t = false ∧ strip t = t.
Proof. intros Ht. unfold GateType in Ht. repeat (apply elem_of_cons in Ht as [-> | Ht]; [by vm_compute|]). by apply elem_of_nil in Ht. Qed.
Lemma required_text_plain s : blank s = false → strip s = s → required_text (VStr s) = Ok s.
Proof. intros Hb Hs. unfold required_text, _text. rewrite Hb. cbn. by rewrite Hs. Qed.
Lemma text_again o : stripped o → _text (opt_str o) false = Ok o.
Proof. intros Ho. destruct o as [s|]; [|done]. cbn. by rewrite (Ho s). Qed.
Lemma status_round s : _status (VStr (status_text s)) = Ok s.
Proof. by destruct s. Qed.

Lemma new_gate_ok id type status owner decision blockers evidence reports details g :
  new_gate id type status owner decision blockers evidence reports details = Ok g → gate_ok g.
Proof.
  unfold new_gate. intros Hg. apply bind_ok in Hg as (gid & Hid & Hg). apply bind_ok in Hg as (gtype & Htype & Hg).
  apply bind_ok in Hg as (u & Hgt & Hg). apply ensure_ok, bool_decide_eq_true in Hgt. apply bind_ok in Hg as (current & Hst & Hg).
  apply bind_ok in Hg as (own & Hown & Hg). apply bind_ok in Hg as (dec & Hdec & Hg). apply bind_ok in Hg as (items & Hit & Hg).
  apply bind_ok in Hg as (bl & Hbl & Hg). apply bind_ok in Hg as (ev & Hev & Hg). apply bind_ok in Hg as (rep & Hrep & Hg).
  apply bind_ok in Hg as (u1 & Hm & Hg). apply ensure_ok in Hm. apply bind_ok in Hg as (det & Hdet & Hg).
  apply bind_ok in Hg as (u2 & Hpass & Hg). apply ensure_ok in Hpass. apply ok_inj in Hg. subst g.
  apply required_text_ok in Hid as (t & _ & Hb & ->). apply safe_list_of in Hbl as [_ Hbl]. destruct (safe_mapping _ _ Hm Hdet) as (d & -> & Hd).
  split; cbn; try done.
  - split; [by rewrite blank_strip|apply strip_idem].
  - by apply (text_stripped owner).
  - by apply (text_stripped decision).
  - by apply (references_of evidence).
  - by apply (references_of reports).
  - intros ->. by rewrite bool_decide_true in Hpass.
Qed.

(** Reading the fields of a gate result back. *)
Lemma gate_of_fields g : gate_ok g → gate_of_mapping (gate_fields g) = Ok g.
Proof.
  intros [[Hb Hs] Ht Ho Hd Hbl Hev Hrep Hdet Hp]. destruct g as [gid gt st own dec bl ev rep det]. cbn [gate_id gate_type g_status g_owner g_decision g_blockers g_evidence g_reports g_details] in *.
  unfold gate_of_mapping, new_gate. set (f := gate_fields _).
  assert (first_of ["gate_id"; "id"] VNone f = VStr gid) as -> by done. assert (first_of ["gate_type"; "kind"; "type"] VNone f = VStr gt) as -> by done.
  assert (dget_or (VStr "pending") "status" f = VStr (status_text st)) as -> by done. assert (dget_or VNone "owner" f = opt_str own) as -> by done.
  assert (dget_or VNone "decision" f = opt_str dec) as -> by done. assert (dget_or (VList []) "blockers" f = VList bl) as -> by done.
  assert (first_of ["evidence"; "evidence_refs"] (VList []) f = VList ev) as -> by done. assert (dget_or (VList []) "reports" f = VList rep) as -> by done.
  assert (dget_or (VDict []) "details" f = VDict det) as -> by done. destruct (gate_type_plain gt Ht) as [Htb Hts].
  rewrite !required_text_plain by done. cbn [mbind res_bind]. rewrite bool_decide_true by done. rewrite status_round. cbn [ensure mbind res_bind].
  rewrite !text_again by done. cbn [_items mbind res_bind]. rewrite Hbl. cbn [mbind res_bind list_of]. rewrite !references_again by done.
  cbn [is_mapping ensure mbind res_bind]. rewrite Hdet. cbn [mbind res_bind]. destruct (decide (st = PASSED)) as [-> | Hne].
  - by rewrite (Hp eq_refl), orb_true_r.
  - by rewrite (bool_decide_false (st = PASSED)).
Qed.

Lemma safe_cons_list l l' : _safe (VList l) = Ok (VList l') → mapM _safe l = Ok l'.
Proof. by rewrite safe_list. Qed.
Lemma fields_safe g : gate_ok g → to_dict g = Ok (VDict (gate_fields g)).
Proof.
  intros [_ _ _ _ Hbl [Hev _] [Hrep _] Hdet _]. unfold to_dict, gate_fields. unfold safe_items in *.
  assert (∀ o, _safe (opt_str o) = Ok (opt_str o)) as Hopt by (by intros []).
  change (_safe (VDict ?k)) with (ensure (forallb (λ kv, json_key kv.1) k) GateError ≫= λ _, mapM (λ kv : pyval * pyval, w ← _safe kv.2; Ok (kv.1, w)) k ≫= λ l, Ok (VDict l)).
  cbn [forallb json_key nonempty fst andb ensure mbind res_bind mapM snd].
  rewrite !Hopt, Hbl, Hev, Hrep, Hdet. done.
Qed.

(** ** Transitions *)

Lemma safe_dict_spec l : _safe (VDict l) = Ok (VDict l) ↔ Forall (λ kv : pyval * pyval, json_key kv.1 = true ∧ _safe kv.2 = Ok kv.2) l.
Proof.
  assert (∀ k, mapM (λ kv : pyval * pyval, w ← _safe kv.2; Ok (kv.1, w)) k = Ok k ↔ Forall (λ kv : pyval * pyval, _safe kv.2 = Ok kv.2) k) as Hmap.
  { intros k. induction k as [|[a b] k IH]; [by split|]. cbn [mapM fst snd]. rewrite Forall_cons, <- IH. cbn [snd]. split.
    - intros Hm. apply bind_ok in Hm as (x & Hx & Hm). apply bind_ok in Hx as (b' & Hb & Hx). apply bind_ok in Hm as (k' & Hk & Hm).
      cbv [mret res_ret] in Hm. split; congruence.
    - intros [Hb Hk]. rewrite Hb, Hk. done. }
  change (_safe (VDict l)) with (ensure (forallb (λ kv, json_key kv.1) l) GateError ≫= λ _, mapM (λ kv : pyval * pyval, w ← _safe kv.2; Ok (kv.1, w)) l ≫= λ l, Ok (VDict l)).
  rewrite Forall_and, <- Hmap, Forall_forall, <- forallb_true_iff. split.
  - intros Hl. apply bind_ok in Hl as (u & Hu & Hl). apply ensure_ok in Hu. apply bind_ok in Hl as (l' & Hm & Hl). split; [done|congruence].
  - intros [-> Hm]. cbn [ensure mbind res_bind]. by rewrite Hm.
Qed.
Lemma safe_dset k v d : nonempty k = true → _safe (VDict d) = Ok (VDict d) → _safe v = Ok v → _safe (VDict (dset k v d)) = Ok (VDict (dset k v d)).
Proof.
  rewrite !safe_dict_spec, !Forall_forall. intros Hk Hd Hv kv [-> | Hin]%elem_of_dset; [done|by apply Hd].
Qed.

(** What a transition can do: change the status along the table, and then set
    the reason; or fail, before the status is assigned or after. *)
Definition allowed (g : GateResult) (t : GateStatus) : Prop :=
  t ∈ _VALID_TRANSITIONS (g_status g) ∧ (t ∈ [PASSED; FAILED] → filled (g_owner g) = true ∧ filled (g_decision g) = true) ∧
  (t = PASSED → _passes_gate_contract g = true).
Definition reason_text (reason : option pyval) : gres (option string) :=
  match reason with None | Some VNone => Ok None | Some r => Some <$> required_text r end.

Lemma transition_outcome target reason g :
  (∃ t, _status target = Ok t ∧ allowed g t ∧
     ((∃ o, reason_text reason = Ok o ∧
        transition target reason g = (match o with Some x => with_details (dset "reason" (VStr x) (g_details g)) | None => id end (with_status t g), Ok ())) ∨
      (reason_text reason = Err GateError ∧ transition target reason g = (with_status t g, Err GateError)))) ∨
  ((∀ t, _status target = Ok t → ¬ allowed g t) ∧ transition target reason g = (g, Err GateError)).
Proof.
  unfold transition. cbv [mbind stm_bind lift_res get_state ensure_st modify]. destruct (_status target) as [t|e] eqn:Ht.
  2:{ right. split; [done|]. assert (e = GateError) as -> by (unfold _status in Ht; destruct target; try congruence; destruct (status_of_text _); congruence). done. }
  destruct (bool_decide (t ∈ _)) eqn:Hv; cbn [ensure]; bool_inv.
  2:{ right. split; [|done]. intros t' [= <-] [Hin _]. done. }
  destruct (negb (bool_decide (t ∈ [PASSED; FAILED])) || _) eqn:Hf; cbn [ensure].
  2:{ right. split; [|done]. intros t' [= <-] (_ & Hin & _). bool_inv. destruct (Hin ltac:(done)) as [Ho Hd]. by rewrite Ho, Hd in *. }
  destruct (negb (bool_decide (t = PASSED)) || _) eqn:Hp; cbn [ensure].
  2:{ right. split; [|done]. intros t' [= <-] (_ & _ & Hin). bool_inv. by rewrite Hin in *. }
  left. exists t. split; [done|]. split.
  { split; [done|]. split; [intros Hin; rewrite bool_decide_true in Hf by done; cbn in Hf; by bool_inv|]. intros ->. by rewrite bool_decide_true in Hp. }
  unfold reason_text. destruct reason as [r|]; [|left; by exists None].
  assert (r = VNone ∨ r ≠ VNone) as [-> | Hr] by (destruct r; auto); [left; by exists None|].
  destruct (required_text r) as [x|e] eqn:Hx.
  - left. exists (Some x). destruct r; try done; cbn; by rewrite Hx.
  - right. assert (e = GateError) as -> by (unfold required_text, _text in Hx; destruct r; try (cbn in Hx; congruence); cbn in Hx; destruct (blank _); cbn in Hx; congruence).
    destruct r; try done; cbn; by rewrite Hx.
Qed.

Lemma with_status_ok t g : gate_ok g → allowed g t → gate_ok (with_status t g).
Proof. intros [? ? ? ? ? ? ? ? ?] (_ & _ & Hp). by split. Qed.
Lemma with_reason_ok x g : gate_ok g → gate_ok (with_details (dset "reason" (VStr x) (g_details g)) g).
Proof. intros [? ? ? ? ? ? ? Hd ?]. split; try done. by apply safe_dset. Qed.
Lemma transition_ok target reason g : gate_ok g → gate_ok (transition target reason g).1.
Proof.
  intros Hg. destruct (transition_outcome target reason g) as [(t & _ & Ha & [(o & _ & ->) | [_ ->]]) | [_ ->]]; cbn [fst]; [| |done].
  - pose proof (with_status_ok t g Hg Ha) as Hs. destruct o; [|done]. by apply (with_reason_ok s (with_status t g)).
  - by apply with_status_ok.
Qed.

(** ** The properties of gate results *)

Inductive gate_reachable : GateResult → Prop :=
| ReachNew id type status owner decision blockers evidence reports details g :
    new_gate id type status owner decision blockers evidence reports details = Ok g → gate_reachable g
| ReachRead v g : from_dict (inr v) = Ok g → gate_reachable g
| ReachTransition target reason g : gate_reachable g → gate_reachable (transition target reason g).1.

Lemma reachable_ok g : gate_reachable g → gate_ok g.
Proof.
  induction 1 as [| |target reason g _ IH].
  - by eapply new_gate_ok.
  - unfold from_dict in *. destruct (entries v); [|discriminate]. by eapply new_gate_ok.
  - by apply transition_ok.
Qed.

(** A gate result, however it was made and whatever transitions it went
    through, those that raised included, serialises, and reading the result
    back gives the same gate result. *)
Theorem gate_roundtrip g : gate_reachable g →
  to_dict g = Ok (VDict (gate_fields g)) ∧ from_dict (inr (VDict (gate_fields g))) = Ok g ∧ from_dict (inl g) = Ok g.
Proof.
  intros Hg%reachable_ok. split; [by apply fields_safe|]. split; [by apply gate_of_fields|].
  unfold from_dict. rewrite fields_safe by done. by apply gate_of_fields.
Qed.

(** [transition] changes the status only along the table of valid
    transitions, to a final status only with an owner and a decision, and to
    [PASSED] only when the contract of passed results holds; in every other
    case it raises and changes nothing, except that a reason that is not a
    nonempty text raises after the new status has been assigned. *)
Theorem transition_exact target reason g :
  (∃ t, _status target = Ok t ∧ allowed g t ∧
     ((∃ o, reason_text reason = Ok o ∧
        transition target reason g = (match o with Some x => with_details (dset "reason" (VStr x) (g_details g)) | None => id end (with_status t g), Ok ())) ∨
      (reason_text reason = Err GateError ∧ transition target reason g = (with_status t g, Err GateError)))) ∨
  ((∀ t, _status target = Ok t → ¬ allowed g t) ∧ transition target reason g = (g, Err GateError)).
Proof. apply transition_outcome. Qed.

Lemma contract_required p g : _passes_gate_contract g = true →
  (required p (gate_type g) "owner" && negb (filled (g_owner g)) = false) ∧ (required p (gate_type g) "decision" && negb (filled (g_decision g)) = false) ∧
  (required p (gate_type g) "evidence" && negb (some_items (g_evidence g)) = false) ∧ (required p (gate_type g) "reports" && negb (some_items (g_reports g)) = false) ∧
  (required p (gate_type g) "no_blockers" && existsb _open_blocker (g_blockers g) = false).
Proof.
  unfold _passes_gate_contract. intros Hc. bool_inv.
  repeat match goal with H : ?x = true |- _ => rewrite H; clear H | H : existsb _ _ = false |- _ => rewrite H; clear H end.
  cbn [negb]. by rewrite !andb_false_r.
Qed.

(** The verdict on a gate result, whatever the policy. *)
Definition verdict (g : GateResult) : GateStatus :=
  if bool_decide (g_status g ∈ [PENDING; RUNNING]) then g_status g
  else if filled (g_decision g) && bool_decide (lower (default "" (g_decision g)) ∈ human_decisions) then PENDING
  else g_status g.

(** The configured requirements never decide anything.  For every gate
    result that can exist, [evaluate] gives the same verdict under every policy:
    the result's own status, or pending when its decision asks for a human; it
    says [PASSED] only for a result that meets the whole contract. *)
Theorem policy_without_effect p g : gate_reachable g →
  evaluate p (inl g) = Ok (verdict g) ∧ (verdict g = PASSED → _passes_gate_contract g = true).
Proof.
  intros Hg%reachable_ok. unfold evaluate, evaluate_gate, verdict. cbn [mbind res_bind].
  destruct (bool_decide (g_status g ∈ _)) eqn:Hpr; [split; [done|by apply (ok_passed g)]|].
  destruct (filled _ && _) eqn:Hh; [by split|]. split; [|by apply (ok_passed g)].
  destruct (decide (g_status g = PASSED)) as [Hp | Hp]; [|by rewrite bool_decide_false].
  rewrite bool_decide_true by done. cbn [negb]. destruct (contract_required p g (ok_passed g Hg Hp)) as (-> & -> & -> & -> & ->). by rewrite Hp.
Qed.

(** ** Human verification *)

Lemma py_eqb_str v s : py_eqb v (VStr s) = true ↔ v = VStr s.
Proof. destruct v; cbn; try (by split). rewrite bool_decide_eq_true. split; congruence. Qed.
Lemma given_eq v s : py_eqb (default (VStr s) (given v)) (VStr s) = true ↔ v = VNone ∨ v = VStr s.
Proof.
  unfold given. destruct v; cbn [is_none default]; rewrite py_eqb_str; naive_solver.
Qed.

(** A human verification passes exactly when every condition holds: the
    time is known, the expected run is the gate's, the expected scope is given
    and has the gate's canonical form, no blocker is open, the decision is
    [APPROVED], the digests given are the gate's, and the time is no later than
    the update plus the freshness window. *)
Theorem human_passed_exact h now artifact evidence blockers clock run scope wall :
  evaluate_human h now artifact evidence blockers clock run scope wall = Ok PASSED ↔
  ∃ t a current limit, human_now h now clock wall = Ok t ∧
    _canonical_scope <$> _safe (h_scope h) = Ok (Some a) ∧ _canonical_scope scope = Some a ∧ scope ≠ VNone ∧
    run = VStr (h_run h) ∧ blank (h_run h) = false ∧
    (match given blockers with None => Ok (h_blockers h) | Some b => frozen_blockers b end) = Ok current ∧
    (∀ b, b ∈ current → _open_blocker b = false) ∧ h_decision h = APPROVED ∧
    (artifact = VNone ∨ artifact = VStr (h_artifact_digest h)) ∧ (evidence = VNone ∨ evidence = VStr (h_evidence_digest h)) ∧
    plus_delta (MkDt (h_updated_at h) (Some 0%Z)) (h_freshness_window h) = Some limit ∧ (t ≤ dt_us limit)%Z.
Proof.
  unfold evaluate_human. split.
  - intros He. apply bind_ok in He as (t & Ht & He). apply bind_ok in He as (actual & Ha & He).
    destruct (_ || _ || _) eqn:Hg in He; [discriminate|]. bool_inv. apply bind_ok in He as (current & Hc & He).
    destruct (existsb _ _) eqn:Hb in He; [discriminate|]. destruct (h_decision h) eqn:Hd; try discriminate.
    destruct (negb _) eqn:Hart in He; [discriminate|]. destruct (negb (py_eqb (default _ (given evidence)) _)) eqn:Hev in He; [discriminate|].
    destruct (plus_delta _ _) as [limit|] eqn:Hl; [|discriminate]. destruct (_ <? _)%Z eqn:Hlt in He; [discriminate|]. bool_inv.
    destruct run as [| | | |r| | | | |]; try discriminate. bool_inv. subst r.
    destruct actual as [a|]; [|discriminate]. destruct (_canonical_scope scope) as [e|] eqn:Hs; [|discriminate]. bool_inv. subst e.
    exists t, a, current, limit. do 3 (split; [done|]). split; [by intros ->|]. do 3 (split; [done|]).
    split; [by apply existsb_false_iff|]. split; [done|]. split; [by apply given_eq|]. split; [by apply given_eq|]. done.
  - intros (t & a & current & limit & -> & -> & Hs & Hn & -> & Hb & Hc & Hnb & Hd & Hart & Hev & Hl & Ht). cbn [mbind res_bind].
    rewrite Hb, Hs, !bool_decide_true by done. assert (is_none scope = false) as -> by (by destruct scope). cbn [negb andb orb].
    rewrite Hc. cbn [mbind res_bind]. apply existsb_false_iff in Hnb. rewrite Hnb, Hd. apply given_eq in Hart, Hev. rewrite Hart, Hev, Hl. cbn [negb].
    assert ((dt_us limit <? t)%Z = false) as -> by (by apply Z.ltb_ge). done.
Qed.

(** ** Scopes up to order *)

Lemma canon_ok v s : _canonical_scope v = Some s ↔ ∃ w, _plain_json v = Ok w ∧ json_dumps (normalize w) = Ok s.
Proof.
  unfold _canonical_scope. destruct (_plain_json v) as [w|]; [|split; [done|by intros (w & ? & _)]].
  destruct (json_dumps (normalize w)) as [t|] eqn:E; split.
  - intros [= ->]. by exists w.
  - intros (w' & Hw & Hs). congruence.
  - done.
  - intros (w' & Hw & Hs). congruence.
Qed.

(** The text of a list is that of its sorted elements. *)
Lemma dumps_sorted_list l ss : Forall2 (λ v s, json_dumps (normalize v) = Ok s) l ss →
  json_dumps (normalize (VList l)) = Ok ("[" +:+ join "," (sort_strings ss) +:+ "]").
Proof.
  intros HF. cbn [normalize json_dumps].
  assert (mapM json_dumps (sort_by dumps_leb (map normalize l)) = Ok (sort_strings ss)) as ->; [|done].
  apply mapM_res_ok. apply (Forall2_sort_by dumps_leb String.leb (λ a b, json_dumps a = Ok b)); [|done|].
  - intros x x' y y' Hx Hx'. unfold dumps_leb. by rewrite (dumps_of _ _ Hx), (dumps_of _ _ Hx').
  - apply Forall2_fmap_l. exact HF.
Qed.
Lemma dumps_sorted_dict kvs ws : Forall2 (λ kv kw, kv.1 = VStr kw.1 ∧ json_dumps (normalize kv.2) = Ok kw.2) kvs ws →
  json_dumps (normalize (VDict kvs)) = Ok ("{" +:+ join "," (map (λ kw, json_str kw.1 +:+ ":" +:+ kw.2) (sort_by key_leb ws)) +:+ "}").
Proof.
  intros HF. cbn [normalize json_dumps].
  assert (mapM (λ kv : pyval * pyval, w ← json_dumps kv.2; match kv.1 with VStr k => Ok (k, w) | _ => Err JsonKey end)
    (sort_by kv_leb (map (λ kv, (kv.1, normalize kv.2)) kvs)) = Ok (sort_by key_leb ws)) as ->.
  - apply mapM_res_ok. apply (Forall2_sort_by kv_leb key_leb (λ kv kw, kv.1 = VStr kw.1 ∧ json_dumps kv.2 = Ok kw.2)).
    + intros [? ?] [? ?] [? ?] [? ?] [H1 _] [H2 _]. cbn in *. by subst.
    + intros [k v] [j w] [Hk Hv]. cbn in *. by rewrite Hv, Hk.
    + apply Forall2_fmap_l. exact HF.
  - cbn [mbind res_bind]. rewrite (sort_by_id key_leb (sort_by key_leb ws)); [done|].
    apply sort_by_sorted; intros; [apply leb_str_total|by eapply leb_str_trans].
Qed.

Lemma plain_list l w : _plain_json (VList l) = Ok w ↔ ∃ l', mapM _plain_json l = Ok l' ∧ w = VList l'.
Proof. change (_plain_json (VList l)) with (mapM _plain_json l ≫= λ l', Ok (VList l')). rewrite bind_ok. naive_solver. Qed.
Definition plain_entry (kv : pyval * pyval) : gres (pyval * pyval) :=
  if json_key kv.1 then w ← _plain_json kv.2; Ok (kv.1, w) else Err GateError.
Lemma plain_dict l w : _plain_json (VDict l) = Ok w ↔ ∃ l', mapM plain_entry l = Ok l' ∧ w = VDict l'.
Proof. change (_plain_json (VDict l)) with (mapM plain_entry l ≫= λ l', Ok (VDict l')). rewrite bind_ok. naive_solver. Qed.

Lemma plain_entry_ok kv kw : plain_entry kv = Ok kw ↔ json_key kv.1 = true ∧ kw.1 = kv.1 ∧ _plain_json kv.2 = Ok kw.2.
Proof.
  unfold plain_entry. destruct kv as [k v], kw as [k' w]. cbn. destruct (json_key k); [|naive_solver]. rewrite bind_ok. naive_solver.
Qed.

(** Plain data always has a text. *)
Lemma plain_text v w : _plain_json v = Ok w → ∃ s, json_dumps (normalize w) = Ok s.
Proof.
  revert w. induction v as [| | | f | |l IH|l IH|kvs IH| |] using pyval_ind'; intros w Hw.
  1-3,5: apply ok_inj in Hw; subst w; by eexists.
  1: cbn in Hw; destruct (is_finite f) eqn:Hf; [|discriminate]; apply ok_inj in Hw; subst w; cbn; rewrite Hf; by eexists.
  1-2: assert (∃ l', mapM _plain_json l = Ok l' ∧ w = VList l') as (l' & Hl & ->) by (by apply plain_list);
    assert (∃ ss, Forall2 (λ v s, json_dumps (normalize v) = Ok s) l' ss) as [ss Hss]; [|eexists; by apply dumps_sorted_list];
    apply mapM_res_ok in Hl; clear -IH Hl; induction Hl as [|v w l l' Hv Hl IHl]; [by exists []|]; apply Forall_cons in IH as [Hh IH];
    destruct (IHl IH) as [ss Hss]; destruct (Hh w Hv) as [s Hs]; exists (s :: ss); by constructor.
  1: apply plain_dict in Hw as (l' & Hl & ->);
    assert (∃ ws, Forall2 (λ kv kw, kv.1 = VStr kw.1 ∧ json_dumps (normalize kv.2) = Ok kw.2) l' ws) as [ws Hws]; [|eexists; by apply dumps_sorted_dict];
    apply mapM_res_ok in Hl; clear -IH Hl; induction Hl as [|kv kw l l' Hv Hl IHl]; [by exists []|]; apply Forall_cons in IH as [[_ Hh] IH];
    destruct (IHl IH) as [ws Hws]; apply plain_entry_ok in Hv as (Hk & Hk1 & Hv); destruct (Hh _ Hv) as [s Hs]; destruct kv as [k v];
    destruct k as [| | | |k| | | | |]; try discriminate Hk; exists ((k, s) :: ws); constructor; [by split; [rewrite Hk1|]|done].
  all: discriminate Hw.
Qed.

Lemma canon_some v : (∃ s, _canonical_scope v = Some s) ↔ ∃ w, _plain_json v = Ok w.
Proof.
  split; [intros (s & (w & Hw & _)%canon_ok); by exists w|]. intros [w Hw]. destruct (plain_text v w Hw) as [s Hs]. exists s. apply canon_ok. by exists w.
Qed.

Lemma canon_list l s : _canonical_scope (VList l) = Some s ↔
  ∃ ss, Forall2 (λ v t, _canonical_scope v = Some t) l ss ∧ s = "[" +:+ join "," (sort_strings ss) +:+ "]".
Proof.
  rewrite canon_ok. split.
  - intros (w & Hw & Hs). apply plain_list in Hw as (l' & Hl & ->). apply mapM_res_ok in Hl.
    assert (∃ ss, Forall2 (λ v t, _canonical_scope v = Some t) l ss ∧ Forall2 (λ v t, json_dumps (normalize v) = Ok t) l' ss) as (ss & H1 & H2).
    { clear Hs. induction Hl as [|v w l l' Hv Hl (ss & H1 & H2)]; [by exists []|]. destruct (plain_text v w Hv) as [t Ht].
      exists (t :: ss). split; constructor; [|done..]. apply canon_ok. by exists w. }
    exists ss. split; [done|]. rewrite (dumps_sorted_list _ _ H2) in Hs. congruence.
  - intros (ss & HF & ->).
    assert (∃ l', Forall2 (λ v w, _plain_json v = Ok w) l l' ∧ Forall2 (λ v t, json_dumps (normalize v) = Ok t) l' ss) as (l' & H1 & H2).
    { induction HF as [|v t l ss Hv HF (l' & H1 & H2)]; [by exists []|]. apply canon_ok in Hv as (w & Hw & Ht). exists (w :: l'). split; by constructor. }
    exists (VList l'). split; [apply plain_list; exists l'; split; [by apply mapM_res_ok|done]|]. by apply dumps_sorted_list.
Qed.

Definition entry_text (kv : pyval * pyval) (kw : string * string) : Prop :=
  json_key kv.1 = true ∧ kv.1 = VStr kw.1 ∧ _canonical_scope kv.2 = Some kw.2.
Lemma canon_dict l s : _canonical_scope (VDict l) = Some s ↔
  ∃ ws, Forall2 entry_text l ws ∧
    s = "{" +:+ join "," (map (λ kw, json_str kw.1 +:+ ":" +:+ kw.2) (sort_by key_leb ws)) +:+ "}".
Proof.
  rewrite canon_ok. split.
  - intros (w & Hw & Hs). apply plain_dict in Hw as (l' & Hl & ->). apply mapM_res_ok in Hl.
    assert (∃ ws, Forall2 entry_text l ws ∧ Forall2 (λ kv kw, kv.1 = VStr kw.1 ∧ json_dumps (normalize kv.2) = Ok kw.2) l' ws) as (ws & H1 & H2).
    { clear Hs. induction Hl as [|kv kw l l' Hv Hl (ws & H1 & H2)]; [by exists []|]. apply plain_entry_ok in Hv as (Hk & Hk1 & Hv).
      destruct (plain_text _ _ Hv) as [t Ht]. destruct kv as [k v]. cbn [fst snd] in *. destruct k as [| | | |k| | | | |]; try discriminate Hk.
      exists ((k, t) :: ws). split; constructor; [|done| |done]; (split; [done|]); [|done]. split; [done|]. apply canon_ok. by exists kw.2. }
    exists ws. split; [done|]. rewrite (dumps_sorted_dict _ _ H2) in Hs. congruence.
  - intros (ws & HF & ->).
    assert (∃ l', Forall2 (λ kv kw, plain_entry kv = Ok kw) l l' ∧ Forall2 (λ kv kw, kv.1 = VStr kw.1 ∧ json_dumps (normalize kv.2) = Ok kw.2) l' ws) as (l' & H1 & H2).
    { induction HF as [|kv kw l ws (Hk & Hk1 & Hv) HF (l' & H1 & H2)]; [by exists []|]. apply canon_ok in Hv as (w & Hw & Ht).
      exists ((kv.1, w) :: l'). split; constructor; try done. by apply plain_entry_ok. }
    exists (VDict l'). split; [apply plain_dict; exists l'; split; [by apply mapM_res_ok|done]|]. by apply dumps_sorted_dict.
Qed.

(** Two scopes that differ only in the order of lists and of the keys of
    dictionaries, or in a tuple where the other has a list, at any depth. *)
Inductive same_scope : pyval → pyval → Prop :=
| SameRefl v : same_scope v v
| SameSym v w : same_scope v w → same_scope w v
| SameTrans u v w : same_scope u v → same_scope v w → same_scope u w
| SameTuple l : same_scope (VTuple l) (VList l)
| SameOrder l l' : l ≡ₚ l' → same_scope (VList l) (VList l')
| SameItem l v w r : same_scope v w → same_scope (VList (l ++ v :: r)) (VList (l ++ w :: r))
| SameKeys kvs kvs' : NoDup (map fst kvs) → kvs ≡ₚ kvs' → same_scope (VDict kvs) (VDict kvs')
| SameEntry l k v w r : same_scope v w → same_scope (VDict (l ++ (k, v) :: r)) (VDict (l ++ (k, w) :: r)).

Lemma canon_tuple l : _canonical_scope (VTuple l) = _canonical_scope (VList l).
Proof. done. Qed.

Lemma entry_keys l ws : Forall2 entry_text l ws → map fst l = VStr <$> map fst ws.
Proof. induction 1 as [|kv kw l ws (_ & Hk & _) HF IH]; [done|]. cbn. by rewrite Hk, IH. Qed.

Lemma same_scope_text v w : same_scope v w → ∀ s, _canonical_scope v = Some s → _canonical_scope w = Some s.
Proof.
  intros Hs. assert (∀ s, _canonical_scope v = Some s ↔ _canonical_scope w = Some s) as Hgo; [|by intros s ?%Hgo].
  induction Hs as [v|v w _ IH|u v w _ IH1 _ IH2|l|l l' Hp|l v w r _ IH|kvs kvs' Hn Hp|l k v w r _ IH]; intros s.
  - done.
  - by rewrite IH.
  - by rewrite IH1.
  - done.
  - rewrite !canon_list. split; intros (ss & HF & ->);
      [destruct (Forall2_perm _ _ _ _ Hp HF) as (ss' & Hps & HF')|destruct (Forall2_perm _ _ _ _ (symmetry Hp) HF) as (ss' & Hps & HF')];
      exists ss'; (split; [done|]); by rewrite (perm_sorted _ _ Hps).
  - rewrite !canon_list. split; intros (ss & HF & ->); exists ss; (split; [|done]);
      apply Forall2_app_inv_l in HF as (k1 & k2 & H1 & H2 & ->); inversion H2 as [|? y ? k3 Hy H3]; subst;
      (apply Forall2_app; [done|]); (constructor; [|done]); by apply IH.
  - rewrite !canon_dict. split; intros (ws & HF & ->);
      [destruct (Forall2_perm _ _ _ _ Hp HF) as (ws' & Hps & HF')|destruct (Forall2_perm _ _ _ _ (symmetry Hp) HF) as (ws' & Hps & HF')];
      exists ws'; (split; [done|]); (rewrite (perm_sorted_keys ws ws'); [done| |done]).
    + apply (NoDup_fmap_1 VStr). by rewrite <- (entry_keys _ _ HF).
    + apply (NoDup_fmap_1 VStr). rewrite <- (entry_keys _ _ HF). by rewrite <- Hp.
  - rewrite !canon_dict. split; intros (ws & HF & ->); exists ws; (split; [|done]);
      apply Forall2_app_inv_l in HF as (k1 & k2 & H1 & H2 & ->); inversion H2 as [|? y ? k3 Hy H3]; subst;
      (apply Forall2_app; [done|]); (constructor; [|done]); destruct Hy as (? & ? & Hv); (split; [done|]); (split; [done|]); by apply IH.
Qed.

(** The scope of a human verification is compared without regard to order:
    the canonical text of a scope does not depend on the order of lists, on the
    order of the keys of dictionaries or on tuples standing for lists, at any
    depth, so the verdict of [evaluate] does not either. *)
Theorem scope_order_irrelevant h now artifact evidence blockers clock run scope scope' wall :
  same_scope scope scope' → scope ≠ VNone → scope' ≠ VNone →
  _canonical_scope scope = _canonical_scope scope' ∧
  evaluate_human h now artifact evidence blockers clock run scope wall = evaluate_human h now artifact evidence blockers clock run scope' wall.
Proof.
  intros Hs Hn Hn'. assert (_canonical_scope scope = _canonical_scope scope') as He.
  { destruct (_canonical_scope scope) as [s|] eqn:E; [by rewrite (same_scope_text _ _ Hs s E)|].
    destruct (_canonical_scope scope') as [s|] eqn:E'; [|done]. apply SameSym in Hs. by rewrite (same_scope_text _ _ Hs s E') in E. }
  split; [done|]. unfold evaluate_human. rewrite He.
  assert (is_none scope = is_none scope') as -> by (by destruct scope, scope'). done.
Qed.

(** ** Examples *)

Definition demo_gate : gres GateResult :=
  new_gate (VStr "g1") (VStr "review") (VStr "passed") (VStr " ana ") (VStr "ok") (VList []) (VList [VStr "e1"]) (VTuple [VDict [(VStr "ref", VStr "r1")]]) (VDict []).
Definition demo_gate_result : GateResult :=
  MkGate "g1" "review" PASSED (Some "ana") (Some "ok") [] [VStr "e1"] [VDict [(VStr "ref", VStr "r1")]] [].
Lemma demo_gate_reachable : gate_reachable demo_gate_result.
Proof. exact (ReachNew _ _ _ _ _ _ _ _ _ demo_gate_result (eq_refl : demo_gate = Ok demo_gate_result)). Qed.

Lemma gate_roundtrip_witness :
  to_dict demo_gate_result = Ok (VDict (gate_fields demo_gate_result)) ∧
  from_dict (inr (VDict (gate_fields demo_gate_result))) = Ok demo_gate_result ∧ from_dict (inl demo_gate_result) = Ok demo_gate_result.
Proof. exact (gate_roundtrip demo_gate_result demo_gate_reachable). Defined.

Definition lenient_policy : GatePolicy := MkPolicy [("review", [("owner", false); ("evidence", false)])] [].
Lemma policy_without_effect_witness :
  evaluate lenient_policy (inl demo_gate_result) = Ok (verdict demo_gate_result) ∧
  (verdict demo_gate_result = PASSED → _passes_gate_contract demo_gate_result = true).
Proof. exact (policy_without_effect lenient_policy demo_gate_result demo_gate_reachable). Defined.

Definition demo_sha : string := "0123456789abcdef0123456789abcdef0123456789abcdef0123456789abcdef".
Definition demo_human : HumanVerificationGate :=
  MkHuman "ana" "ana@host" APPROVED (VProxy [(VStr "paths", VTuple [VStr "a"; VStr "b"])]) "run" demo_sha demo_sha 0 1000000 3600000000 [] None.
Definition demo_scope1 : pyval := VDict [(VStr "paths", VList [VStr "a"; VStr "b"])].
Definition demo_scope2 : pyval := VDict [(VStr "paths", VList [VStr "b"; VStr "a"])].
Lemma demo_same_scope : same_scope demo_scope1 demo_scope2.
Proof. apply (SameEntry [] (VStr "paths") _ _ []), SameOrder. constructor. Qed.
Lemma scope_order_irrelevant_witness :
  evaluate_human demo_human (Some (ReadDatetime (MkDt 2000000 (Some 0%Z)))) VNone VNone VNone None (VStr "run") demo_scope1 0 = Ok PASSED ∧
  _canonical_scope demo_scope1 = _canonical_scope demo_scope2 ∧
  evaluate_human demo_human (Some (ReadDatetime (MkDt 2000000 (Some 0%Z)))) VNone VNone VNone None (VStr "run") demo_scope1 0 =
  evaluate_human demo_human (Some (ReadDatetime (MkDt 2000000 (Some 0%Z)))) VNone VNone VNone None (VStr "run") demo_scope2 0.
Proof.
  split; [vm_compute; reflexivity|].
  apply (scope_order_irrelevant demo_human (Some (ReadDatetime (MkDt 2000000 (Some 0%Z)))) VNone VNone VNone None (VStr "run") demo_scope1 demo_scope2 0
    demo_same_scope); discriminate.
Defined.
