(* ===== verification/Redaction.v ===== *)
(** * Redaction of text (scripts/pd_fleet/contracts.py)

    What [contracts.py] takes for a secret, an external URL, a path or a
    sensitive field name, and what it replaces them with.  The named groups of
    a pattern are numbered; group 0 is the whole match.  A text is cut into
    physical lines as [str.splitlines] does, and the block scalars of YAML are
    followed over the lines they own. *)

From S2P Require Import Prelude PyStr PyNum PyVal Regex.

Open Scope string_scope.

(** ** Patterns *)

Definition is_quote (c : ascii) : bool := Ascii.eqb c dquote || Ascii.eqb c "'".
Definition newline : ascii := ascii_of_nat 10.
(** [.] and [\d]. *)
Definition rdot : re := RChar (λ c, negb (Ascii.eqb c newline)).
Definition rdigit : re := RChar is_digit.
(** [[^\s...]] *)
Definition rnot_space (cs : string) : re := RChar (cneg (λ c, is_space c || one_of cs c)).
Definition key_gap : re := ropt (rchr "_ -").

Definition _SENSITIVE_KEYS : list string :=
  ["credential"; "secret"; "token"; "password"; "api_key"; "access_key"; "access_token"; "private_key"; "client_secret";
   "authorization"; "bearer"].

Definition _SECRET_VALUE : re :=
  let body := RChar (λ c, is_alnum c || one_of "_-" c) in
  ralt [rseq [rlit_ci "bearer"; rplus rspace; rplus rnonspace];
        rseq [rlit_ci "sk-"; rtimes 8 body; rstar body];
        rseq [rlit_ci "gh"; RChar (ci (one_of "pousr")); rlit "_"; rtimes 8 (RChar (λ c, is_alnum c || one_of "_" c));
              rstar (RChar (λ c, is_alnum c || one_of "_" c))];
        rseq [rlit_ci "akia"; rtimes 12 (RChar is_alnum); rstar (RChar is_alnum)]].

Definition _EXTERNAL_URL : re :=
  rseq [ralt [rseq [rlit_ci "http"; ropt (RChar (ci (Ascii.eqb "s")))]; rlit_ci "ftp";
              rseq [rlit_ci "ws"; ropt (RChar (ci (Ascii.eqb "s")))]];
        rlit "://"; rplus (RChar (cneg (λ c, is_space c || is_quote c || one_of "<>" c)))].

Definition _ASSIGNMENT : re :=
  RGroup 0 (rseq [RGroup 1 (rseq [RChar is_alpha; rbetween 1 80 (RChar (λ c, is_alnum c || one_of "_. -" c))]);
                  rstar rspace; rchr ":="; rstar rspace; RGroup 2 (rplus rnonspace)]).

(** The field names the scanners look for. *)
Definition label_words : re :=
  ralt [rlit_ci "credential"; rlit_ci "secret"; rlit_ci "token"; rlit_ci "password";
        rseq [rlit_ci "api"; key_gap; rlit_ci "key"];
        rseq [rlit_ci "access"; key_gap; ralt [rlit_ci "key"; rlit_ci "token"]];
        rseq [rlit_ci "private"; key_gap; rlit_ci "key"]; rseq [rlit_ci "client"; key_gap; rlit_ci "secret"];
        rlit_ci "authorization"; rlit_ci "bearer"].
Definition bare_value : re := rseq [ropt (rseq [rlit_ci "bearer"; rplus rspace]); rplus (rnot_space ",;}")].

(** Groups: 1 label_quote, 2 label, 3 separator, 4 quote, 5 quoted,
    6 quoted_tail, 7 unterminated, 8 tail, 9 bare. *)
Definition _SENSITIVE_ASSIGNMENT : re :=
  RGroup 0 (rseq [RNotAfter is_word; RGroup 1 (ropt (RChar is_quote)); RGroup 2 label_words; RWordBoundary; RBack 1;
    RGroup 3 (rseq [rstar rspace; rchr ":="; rstar rspace]);
    ralt [rseq [RGroup 4 (RChar is_quote);
                RGroup 5 (RStar false (ralt [rseq [rlit "\"; rdot]; rseq [RLookahead false (rlit "\3"); rdot]]));
                RBack 4; RGroup 6 (rstar rdot)];
          rseq [RGroup 7 (RChar is_quote); RGroup 8 (rstar rdot)];
          RGroup 9 bare_value]]).

Definition _CREDENTIAL_SHAPE : re :=
  let body := RChar (λ c, is_alnum c || one_of "_-" c) in
  ralt [rseq [RLookahead true (rseq [rtimes 8 rdot; rstar rdot; REnd]); rplus (RChar (λ c, is_alnum c || one_of "._-" c)); REnd];
        rseq [rstar (RChar is_alnum); RChar (λ c, is_digit c || one_of "_-" c); rstar body; REnd]].

(** Groups: 1 label, 2 value. *)
Definition _SENSITIVE_WHITESPACE : re :=
  RGroup 0 (rseq [RNotAfter is_word; RGroup 1 label_words; rplus rspace; RGroup 2 bare_value]).

Definition _PATH_ASSIGNMENT : re :=
  rseq [RNotAfter (λ c, is_alnum c || one_of "_" c); ralt [rlit_ci "source"; rlit_ci "path"]; rstar rspace; rchr ":=";
        rstar rspace; rplus (rnot_space ",;")].

Definition _BLOCK_SCALAR_HEADER : re :=
  let nonzero := RChar (λ c, is_digit c && negb (Ascii.eqb c "0")) in
  rseq [RStart; rchr "|>"; ralt [rseq [nonzero; ropt (rchr "+-")]; rseq [ropt (rchr "+-"); ropt nonzero]]; REnd].
Definition _BLOCK_SCALAR_TOKEN : re := rseq [RStart; rchr "|>"; rstar rnonspace; REnd].

Definition path_char (c : ascii) : bool :=
  negb (is_quote c || one_of "<>;, " c || between 9 13 c).
Definition _EMBEDDED_PATH : re :=
  rseq [RNotAfter (λ c, is_word c || one_of "." c);
        ralt [rseq [rchr "~"; rchr "\/"; rstar (RChar path_char)]; rseq [rchr "/"; rplus (RChar path_char)];
              rseq [RChar is_alpha; rchr ":"; rchr "\/"; rstar (RChar path_char)];
              rseq [rlit "\\"; rplus (RChar path_char)]]].

(** ** Sensitive field names *)

Definition _normalize_sensitive_key (label : string) : string :=
  let text := strip label in
  let text := sub (rseq [RGroup 1 (RChar (λ c, is_lower c || is_digit c)); RGroup 2 (RChar is_upper)])
                (λ m, group 1 m +:+ "_" +:+ group 2 m) text in
  let text := sub (rseq [RGroup 1 (rplus (RChar is_upper)); RGroup 2 (rseq [RChar is_upper; RChar is_lower])])
                (λ m, group 1 m +:+ "_" +:+ group 2 m) text in
  strip_by (one_of "_") (sub (rplus (RChar (λ c, negb (is_lower c || is_digit c)))) (λ _, "_") (lower text)).

(** [s.replace("_", "")] *)
Definition drop_underscores (s : string) : string := join "" (split_on "_" s).

Definition _is_sensitive_label (label : string) : bool :=
  let normalized := _normalize_sensitive_key label in
  let compact := drop_underscores normalized in
  existsb (λ key, bool_decide (normalized = key) || startswith normalized (key +:+ "_") || endswith normalized ("_" +:+ key))
    _SENSITIVE_KEYS ||
  existsb (λ part, bool_decide (part ∈ _SENSITIVE_KEYS)) (split_on "_" normalized) ||
  existsb (λ key, bool_decide (compact = drop_underscores key)) _SENSITIVE_KEYS.

(** ** Paths *)

Definition _redact_paths (text : string) : string := sub _EMBEDDED_PATH (λ _, "[PATH REDACTED]") text.

(** ** Lines *)

(** The line ends of [str.splitlines] below U+0100. *)
Definition is_line_break (c : ascii) : bool := between 10 13 c || between 28 30 c || (code c =? 133)%nat.
Definition is_crlf (c : ascii) : bool := Ascii.eqb c newline || (code c =? 13)%nat.

(** [text.splitlines(keepends=True)] *)
Fixpoint splitlines_keep (text : string) : list string :=
  match text with
  | "" => []
  | String c rest =>
      match rest with
      | String d rest' =>
          if (code c =? 13)%nat && Ascii.eqb d newline then String c (String d "") :: splitlines_keep rest'
          else if is_line_break c then String c "" :: splitlines_keep rest
          else match splitlines_keep rest with w :: ws => String c w :: ws | [] => [String c ""] end
      | "" => [String c ""]
      end
  end.
(** [text.splitlines()] *)
Definition splitlines (text : string) : list string := map (rstrip_by is_line_break) (splitlines_keep text).

Definition content_of (line : string) : string := rstrip_by is_crlf line.
Definition ending_of (line : string) : string := str_drop (String.length (content_of line)) line.
Definition is_indent (c : ascii) : bool := one_of " " c || (code c =? 9)%nat.
(** The characters [p] at the start of a text. *)
Definition leading (p : ascii → bool) (s : string) : string := str_take (String.length s - String.length (lstrip_by p s)) s.

(** ** Block scalars *)

Definition _parse_block_scalar_header (header : string) (key_indent : nat) : bool * nat :=
  if fullmatch _BLOCK_SCALAR_HEADER header then
    match List.find is_digit (String.list_ascii_of_string (str_drop 1 header)) with
    | Some d => (true, key_indent + Z.to_nat (digit_val d))%nat
    | None => (true, key_indent + 1)%nat
    end
  else (false, key_indent + 1)%nat.

Definition _block_scalar_owns_continuation (content : string) (key_indent declared_indent : nat) : bool :=
  if blank content then true else
  let indentation := leading is_indent content in
  if str_existsb (λ c, (code c =? 9)%nat) indentation then true
  else (key_indent <? String.length indentation)%nat.

Definition _redact_block_scalar_line (continuation : string) : string :=
  let content := content_of continuation in
  if blank content then continuation
  else leading is_indent content +:+ "[REDACTED]" +:+ ending_of continuation.

(** The number of lines a block scalar owns, of the [rest] of the text after
    its header ([_block_scalar_end] less the index of the next line). *)
Definition _block_scalar_end (rest : list string) (key_indent : nat) (header : string) : nat :=
  let declared_indent := (_parse_block_scalar_header header key_indent).2 in
  (fix count (lines : list string) : nat :=
     match lines with
     | [] => O
     | line :: lines' =>
         if _block_scalar_owns_continuation (content_of line) key_indent declared_indent then S (count lines') else O
     end) rest.

Definition _redact_block_scalar_lines (lines : list string) : list string := map _redact_block_scalar_line lines.

(** ** Sensitive text *)

(** The replacement of an assignment; [group 0] keeps it. *)
Definition replace (m : mstate) : string :=
  let label := group 2 m in
  let label_quote := group 1 m in
  let separator := group 3 m in
  let label_text := if nonempty label_quote then label_quote +:+ label +:+ label_quote else label in
  let redacted := label_text +:+ separator +:+ "[REDACTED]" in
  if took_part 7 m || took_part 4 m then redacted else
  let bare := strip (removeprefix (group 9 m) "Bearer ") in
  let collection_or_comment :=
    startswith bare "[" || startswith bare "{" || contains bare "]" || contains bare "}" || contains bare "#" ||
    startswith bare "|" || startswith bare ">" in
  if negb (fullmatch _CREDENTIAL_SHAPE bare) && negb (contains separator "=") && negb collection_or_comment
  then group 0 m else redacted.

(** One line with its assignment, if it has one: the line that replaces it,
    and the header of the block scalar that starts there. *)
Definition redact_line (line : string) : string * option string :=
  match search_from _SENSITIVE_ASSIGNMENT None line with
  | None => (line, None)
  | Some (start, m) =>
      let replacement := replace m in
      let before := str_take (String.length line - String.length start.(m_rest)) line in
      let line' := if bool_decide (replacement = group 0 m) then line
                   else before +:+ replacement +:+ ending_of line in
      let bare := strip (group 9 m) in
      (line', if fullmatch _BLOCK_SCALAR_TOKEN bare then Some bare else None)
  end.

(** [len(physical) - len(physical.lstrip(" "))] *)
Definition key_indent_of (line : string) : nat := String.length (leading (one_of " ") (content_of line)).

Fixpoint redact_lines (fuel : nat) (lines : list string) : list string :=
  match fuel, lines with
  | S fuel', line :: rest =>
      match redact_line line with
      | (line', Some header) =>
          let n := _block_scalar_end rest (key_indent_of line) header in
          line' :: _redact_block_scalar_lines (take n rest) ++ redact_lines fuel' (drop n rest)
      | (line', None) => line' :: redact_lines fuel' rest
      end
  | _, _ => []
  end.

Definition redact_whitespace (m : mstate) : string :=
  let value := strip (removeprefix (group 2 m) "Bearer ") in
  if fullmatch _CREDENTIAL_SHAPE value then group 1 m +:+ " [REDACTED]" else group 0 m.

Definition _redact_sensitive_text (text : string) : string :=
  let lines := splitlines_keep text in
  let text := join "" (redact_lines (length lines) lines) in
  let text := sub _SENSITIVE_WHITESPACE redact_whitespace text in
  sub _SECRET_VALUE (λ _, "[REDACTED]") text.

(** ** Error messages *)

Definition traceback_line : re := rlit_ci "traceback (most recent call last)".
Definition location_line : re :=
  ralt [rseq [RStart; rstar rspace; rlit_ci "file"; rplus rspace; RChar is_quote];
        rseq [RStart; rstar rspace; ropt (rseq [rlit_ci "at"; rplus rspace]);
              ralt [rchr "/"; rseq [RChar is_alpha; rchr ":"; rchr "\/"]]]].

(** The first line that says something. *)
Fixpoint first_line (lines : list string) : string :=
  match lines with
  | [] => ""
  | line :: lines' =>
      if search traceback_line line then ""
      else if search location_line line then first_line lines'
      else let line := sub _PATH_ASSIGNMENT (λ _, "") line in
           if blank line then first_line lines' else line
  end.

Definition agent_error : string := "erro do agente".
Definition _sanitize_error (value : pyval) : string :=
  let text := match value with VStr s => s | _ => agent_error end in
  let text := first_line (splitlines text) in
  let text := sub _EXTERNAL_URL (λ _, "[URL REDACTED]") text in
  let text := _redact_paths text in
  let text := sub _SECRET_VALUE (λ _, "[REDACTED]") text in
  let text := _redact_sensitive_text text in
  let text := sub _ASSIGNMENT
    (λ m, if _is_sensitive_label (group 1 m) then strip (group 1 m) +:+ "=[REDACTED]" else group 0 m) text in
  let text := str_take 2000 (strip (sub (rplus rspace) (λ _, " ") text)) in
  if nonempty text then text else agent_error.

(** ** On concrete texts *)

Definition lf : string := String newline "".
Definition quoted (s : string) : string := String dquote (s +:+ String dquote "").

Example label_ex : map _is_sensitive_label ["apiKey"; "API-Key-2"; "myTokenID"; "keyboard"; "author"; "HTTPPassword"; "a c c e s s k e y"; "Secretary"] =
  [true; true; true; false; false; true; true; false].
Proof. vm_compute. reflexivity. Qed.
Example paths_ex : _redact_paths "see /etc/passwd, C:\x\y and a/b ~/k" = "see [PATH REDACTED], [PATH REDACTED] and a/b [PATH REDACTED]".
Proof. vm_compute. reflexivity. Qed.
Example redact_ex1 : map _redact_sensitive_text
  ["token: policy"; "token=policy # x"; "password: hunter22 tail"; "x secret abc123"; "sk-abcdefgh1"; "Authorization: Bearer abcd"; "password: p@ssw0rd!"] =
  ["token: policy"; "token=[REDACTED]"; "password: [REDACTED]"; "x secret [REDACTED]"; "[REDACTED]"; "Authorization: [REDACTED]"; "password: p@ssw0rd!"].
Proof. vm_compute. reflexivity. Qed.
Example redact_ex2 : _redact_sensitive_text (quoted "token" +:+ ": " +:+ quoted "a b" +:+ ", 1" +:+ lf +:+ "end") =
  quoted "token" +:+ ": [REDACTED]" +:+ lf +:+ "end".
Proof. vm_compute. reflexivity. Qed.
Example redact_ex3 : _redact_sensitive_text ("a: 1" +:+ lf +:+ " secret: |2" +:+ lf +:+ "   x" +:+ lf +:+ lf +:+ "  y" +:+ lf +:+ " z: 2") =
  "a: 1" +:+ lf +:+ " secret: [REDACTED]" +:+ lf +:+ "   [REDACTED]" +:+ lf +:+ lf +:+ "  [REDACTED]" +:+ lf +:+ " z: 2".
Proof. vm_compute. reflexivity. Qed.
Example sanitize_ex : map (λ s, _sanitize_error (VStr s))
  ["File " +:+ quoted "x.py" +:+ lf +:+ "boom at https://a.b/c path=/x in /tmp/y"; "Traceback (most recent call last):" +:+ lf +:+ "x"; "db_password: zz  now"] =
  ["boom at [URL REDACTED] in [PATH REDACTED]"; "erro do agente"; "db_password=[REDACTED] now"].
Proof. vm_compute. reflexivity. Qed.

(** ** Lemmas *)

Lemma length_redact_lines fuel lines : (length lines ≤ fuel)%nat → length (redact_lines fuel lines) = length lines.
Proof.
  revert lines. induction fuel as [|fuel IH]; intros [|line rest] Hf; try done; cbn in Hf; [lia|]. cbn [redact_lines].
  destruct (redact_line line) as [line' [header|]]; cbn [length]; f_equal; [|apply IH; lia].
  rewrite length_app, IH by (rewrite length_drop; lia). unfold _redact_block_scalar_lines. rewrite length_map, length_take, length_drop. lia.
Qed.
Lemma redact_lines_fuel f1 f2 lines : (length lines ≤ f1)%nat → (length lines ≤ f2)%nat → redact_lines f1 lines = redact_lines f2 lines.
Proof.
  revert f2 lines. induction f1 as [|f1 IH]; intros [|f2] [|line rest] H1 H2; try done; cbn in H1, H2; try lia. cbn [redact_lines].
  destruct (redact_line line) as [line' [header|]]; f_equal; [f_equal|]; apply IH; rewrite ?length_drop; lia.
Qed.

(** The header of a block scalar is itself redacted. *)
Lemma block_header line line' header : redact_line line = (line', Some header) →
  ∃ start m, search_from _SENSITIVE_ASSIGNMENT None line = Some (start, m) ∧ header = strip (group 9 m) ∧
    fullmatch _BLOCK_SCALAR_TOKEN header = true.
Proof.
  unfold redact_line. destruct (search_from _ _ _) as [[start m]|]; [|done]. destruct (fullmatch _BLOCK_SCALAR_TOKEN _) eqn:Hf; [|done].
  intros [= _ <-]. by exists start, m.
Qed.

(** A line that a block scalar owns: blank, or indented past its key. *)
Definition owned (key_indent : nat) (line : string) : bool :=
  let indentation := leading is_indent (content_of line) in
  blank (content_of line) || str_existsb (λ c, (code c =? 9)%nat) indentation || (key_indent <? String.length indentation)%nat.

Lemma owned_eq key_indent declared line : _block_scalar_owns_continuation (content_of line) key_indent declared = owned key_indent line.
Proof. unfold _block_scalar_owns_continuation, owned. destruct (blank _), (str_existsb _ _); done. Qed.

Lemma block_scalar_end_eq key_indent header mine others : forallb (owned key_indent) mine = true →
  match others with [] => True | line :: _ => owned key_indent line = false end →
  _block_scalar_end (mine ++ others) key_indent header = length mine.
Proof.
  intros Hm Ho. unfold _block_scalar_end. generalize (_parse_block_scalar_header header key_indent).2. intros declared.
  induction mine as [|line mine IH].
  - destruct others as [|line others]; [done|]. cbn. by rewrite owned_eq, Ho.
  - cbn in Hm |- *. apply andb_true_iff in Hm as [Hl Hm]. rewrite owned_eq, Hl. f_equal. by apply IH.
Qed.

(** What becomes of a line that is not blank: its indentation and its ending. *)
Definition masked (line line' : string) : Prop :=
  (blank (content_of line) = true ∧ line' = line) ∨
  (blank (content_of line) = false ∧ line' = leading is_indent (content_of line) +:+ "[REDACTED]" +:+ ending_of line).

(** Nothing of a block scalar under a sensitive key survives: when the
    scanner finds the header of one in a line, the lines after it that are
    blank or indented past its key, up to the first that is not, keep their
    indentation and their line ending only, whatever indentation the header
    declares; redaction goes on after them.  The number of lines never changes. *)
Theorem block_scalar_masked line line' header mine others :
  redact_line line = (line', Some header) → forallb (owned (key_indent_of line)) mine = true →
  match others with [] => True | next :: _ => owned (key_indent_of line) next = false end →
  ∃ masks, redact_lines (length (line :: mine ++ others)) (line :: mine ++ others) =
      line' :: masks ++ redact_lines (length others) others ∧
    Forall2 masked mine masks ∧ length (redact_lines (length others) others) = length others.
Proof.
  intros Hl Hm Ho. exists (_redact_block_scalar_lines mine). split; [|split].
  - cbn [length redact_lines]. rewrite Hl, (block_scalar_end_eq _ _ _ _ Hm Ho), take_app_length, drop_app_length. do 2 f_equal.
    apply redact_lines_fuel; [rewrite length_app; lia|done].
  - unfold _redact_block_scalar_lines. clear Hm. induction mine as [|l mine IH]; cbn; constructor; [|exact IH].
    unfold _redact_block_scalar_line, masked. destruct (blank (content_of l)); [by left|by right].
  - by apply length_redact_lines.
Qed.

Definition demo_key : string := " secret: |2" +:+ lf.
Definition demo_body : list string := ["   x" +:+ lf; lf; "  y" +:+ lf].
Definition demo_next : list string := [" z: 2"].
Lemma block_scalar_masked_witness : ∃ masks,
  redact_lines (length (demo_key :: demo_body ++ demo_next)) (demo_key :: demo_body ++ demo_next) =
      (" secret: [REDACTED]" +:+ lf) :: masks ++ redact_lines (length demo_next) demo_next ∧
    Forall2 masked demo_body masks ∧ length (redact_lines (length demo_next) demo_next) = length demo_next.
Proof. exact (block_scalar_masked demo_key (" secret: [REDACTED]" +:+ lf) "|2" demo_body demo_next eq_refl eq_refl eq_refl). Defined.

(** White space other than the blank, which no error message keeps. *)
Definition plain_char (c : ascii) : bool := negb (is_space c) || Ascii.eqb c " ".

(** An error message is one bounded line: whatever the agent reports, what
    is kept is not empty, has at most 2000 characters and holds no white space
    other than the blank character. *)
Theorem error_bounded v :
  _sanitize_error v ≠ "" ∧ (String.length (_sanitize_error v) ≤ 2000)%nat ∧ str_forallb plain_char (_sanitize_error v) = true.
Proof.
  unfold _sanitize_error. cbv zeta. match goal with |- context [sub (rplus rspace) _ ?x] => generalize x end. intros t.
  unfold rspace. rewrite sub_class. set (u := str_take 2000 (strip _)).
  assert (String.length u ≤ 2000)%nat as Hl by apply str_take_length.
  assert (str_forallb plain_char u = true) as Hp.
  { apply str_take_forallb, strip_by_forallb, collapse_forallb; [done|]. intros c Hc. unfold plain_char. by rewrite Hc. }
  destruct (nonempty u) eqn:Hu; [split; [by apply nonempty_true|done]|]. split; [done|]. split; [|reflexivity].
  change (String.length agent_error) with 14%nat. lia.
Qed.

(** *** A slash at the end of a name *)

Lemma collapse_snoc p t c b s : p c = true → ∃ u, (u = "" ∨ u = t) ∧ collapse p t b (s +:+ String c "") = collapse p t b s +:+ u.
Proof.
  intros Hc. revert b. induction s as [|d s IH]; intros b.
  - change ("" +:+ String c "") with (String c ""). cbn [collapse]. rewrite Hc. destruct b; [exists ""|exists t]; cbn; rewrite ?app_nil_str; auto.
  - rewrite cons_app_str. cbn [collapse]. destruct (p d).
    + destruct (IH true) as (u & Hu & ->). exists u. by rewrite app_assoc_str.
    + destruct (IH false) as (u & Hu & ->). exists u. done.
Qed.

Lemma key_slash s : strip s = s → _normalize_sensitive_key (s +:+ "/") = _normalize_sensitive_key s.
Proof.
  intros Hs. unfold _normalize_sensitive_key. rewrite Hs. unfold strip in *. change "/" with (String slash "").
  rewrite (strip_snoc_keep is_space s slash eq_refl Hs). rewrite !sub_blind by (by repeat split).
  set (a := sub _ _ (sub _ _ s)). unfold lower. rewrite str_map_app. change (str_map lower_char (String slash "")) with (String slash "").
  rewrite !sub_class. destruct (collapse_snoc (λ c, negb (is_lower c || is_digit c)) "_" slash false (str_map lower_char a) eq_refl) as (u & [-> | ->] & ->).
  - by rewrite app_nil_str.
  - by apply strip_snoc.
Qed.
Lemma label_slash s : strip s = s → _is_sensitive_label (s +:+ "/") = _is_sensitive_label s.
Proof. intros Hs. unfold _is_sensitive_label. by rewrite key_slash. Qed.

(** ** The rewriting loop ends

    The loop as it runs: one iteration takes a line, or a line and the block
    scalar it starts. *)
Inductive rewrites : list string → list string → nat → Prop :=
| rewrites_end : rewrites [] [] 0
| rewrites_line line line' rest out n : redact_line line = (line', None) → rewrites rest out n → rewrites (line :: rest) (line' :: out) (S n)
| rewrites_block line line' header rest out n : redact_line line = (line', Some header) →
    rewrites (drop (_block_scalar_end rest (key_indent_of line) header) rest) out n →
    rewrites (line :: rest) (line' :: _redact_block_scalar_lines (take (_block_scalar_end rest (key_indent_of line) header) rest) ++ out)%list (S n).

Lemma rewrites_total n lines : (length lines ≤ n)%nat → ∃ out k, rewrites lines out k ∧ (k ≤ length lines)%nat ∧ length out = length lines.
Proof.
  revert lines. induction n as [|n IH]; intros [|line rest] Hn; try (exists [], O; split; [constructor|done]); [cbn in Hn; lia|]. cbn [length] in Hn.
  destruct (redact_line line) as [line' [header|]] eqn:E.
  - set (k := _block_scalar_end rest (key_indent_of line) header). destruct (IH (drop k rest)) as (out & i & Hr & Hi & Hl); [rewrite length_drop; lia|].
    exists (line' :: _redact_block_scalar_lines (take k rest) ++ out)%list, (S i). split; [by eapply rewrites_block|]. rewrite length_drop in Hi. cbn [length]. split; [lia|].
    unfold _redact_block_scalar_lines. rewrite length_app, length_map, length_take, Hl, length_drop. lia.
  - destruct (IH rest) as (out & i & Hr & Hi & Hl); [lia|]. exists (line' :: out), (S i). split; [by eapply rewrites_line|]. cbn [length]. split; lia.
Qed.
Lemma rewrites_unique lines out k : rewrites lines out k → ∀ out' k', rewrites lines out' k' → out' = out ∧ k' = k.
Proof.
  induction 1 as [|line line' rest out k E Hr IH|line line' header rest out k E Hr IH]; intros out' k' H'; inversion H' as [|? ? ? ? ? E' Hr'|? ? ? ? ? ? E' Hr']; subst; try congruence; [done| |].
  - destruct (IH _ _ Hr') as [-> ->]. split; congruence.
  - rewrite E in E'. injection E' as <- <-. by destruct (IH _ _ Hr') as [-> ->].
Qed.
Lemma rewrites_fuel lines out k : rewrites lines out k → ∀ fuel, (k ≤ fuel)%nat → redact_lines fuel lines = out.
Proof.
  induction 1 as [|line line' rest out k E Hr IH|line line' header rest out k E Hr IH]; intros [|fuel] Hf; try lia; [done..| |]; cbn [redact_lines]; rewrite E.
  - f_equal. apply IH. lia.
  - cbv zeta. do 2 f_equal. apply IH. lia.
Qed.

(** The rewriting loop terminates: on any lines it stops after at most as
    many iterations as there are lines, with one result, which has as many
    lines; any fuel from that number of iterations on computes it. *)
Theorem redaction_terminates lines : ∃ out k, rewrites lines out k ∧ (k ≤ length lines)%nat ∧ length out = length lines ∧
  (∀ out' k', rewrites lines out' k' → out' = out ∧ k' = k) ∧ ∀ fuel, (k ≤ fuel)%nat → redact_lines fuel lines = out.
Proof.
  destruct (rewrites_total (length lines) lines (le_n _)) as (out & k & Hr & Hk & Hl). exists out, k. split; [done|]. split; [done|]. split; [done|].
  split; [by eapply rewrites_unique|by eapply rewrites_fuel].
Qed.

(** ** Names of credentials, however they are spelled

    A name is squeezed to its letters and digits in lower case.  Whatever the
    case, the separators and the humps of a label, it is sensitive when it
    squeezes to the name of a credential. *)

Definition name_char (c : ascii) : bool := is_lower c || is_digit c.
Definition squeezed (label : string) : string := str_filter name_char (lower label).

Lemma squeezed_app a b : squeezed (a +:+ b) = squeezed a +:+ squeezed b.
Proof. unfold squeezed, lower. by rewrite str_map_app, str_filter_app. Qed.
Lemma str_filter_none p q s : (∀ c, p c = true → q c = false) → str_forallb p s = true → str_filter q s = "".
Proof. intros Hpq. induction s as [|c s IH]; [done|]. cbn. intros [Hc Hs]%andb_true_iff. by rewrite Hpq, IH. Qed.
Lemma str_filter_rstrip p q s : (∀ c, p c = true → q c = false) → str_filter q (rstrip_by p s) = str_filter q s.
Proof.
  intros H. induction s as [|c s IH]; [done|]. cbn [rstrip_by str_filter]. destruct (rstrip_by p s) eqn:E; cbn in IH.
  - destruct (p c) eqn:Hp; cbn; [by rewrite H|by rewrite <- IH].
  - cbn [str_filter]. cbn in IH. rewrite IH. done.
Qed.
Lemma str_filter_lstrip p q s : (∀ c, p c = true → q c = false) → str_filter q (lstrip_by p s) = str_filter q s.
Proof. intros H. induction s as [|c s IH]; [done|]. cbn [lstrip_by str_filter]. destruct (p c) eqn:Hp; [by rewrite H|done]. Qed.
Lemma str_filter_collapse p q t b s : (∀ c, p c = true → q c = false) → str_forallb (λ c, negb (q c)) t = true → str_filter q (collapse p t b s) = str_filter q s.
Proof.
  intros H Ht. assert (str_filter q t = "") as Hn by (apply (str_filter_none (λ c, negb (q c))); [by intros c ?%negb_true_iff|done]).
  revert b. induction s as [|c s IH]; intros b; [done|]. cbn [collapse str_filter]. destruct (p c) eqn:Hp.
  - rewrite str_filter_app, IH, (H c Hp). destruct b; [done|]. by rewrite Hn.
  - cbn [str_filter]. by rewrite IH.
Qed.

Definition is_underscore (c : ascii) : bool := one_of "_" c.
Lemma dropped_eq s : drop_underscores s = str_filter (λ c, negb (is_underscore c)) s.
Proof.
  unfold drop_underscores. assert (∀ l, join "" l = foldr String.append "" l) as Hj.
  { induction l as [|x l IH]; [done|]. destruct l; cbn; [by rewrite app_nil_str|]. cbn in IH. by rewrite IH. }
  rewrite Hj. induction s as [|c s IH]; [done|]. cbn [split_on str_filter].
  assert ((code c =? code "_")%nat = is_underscore c) as ->.
  { unfold is_underscore, one_of. cbn. destruct (Ascii.eqb_spec c "_") as [-> | Hne]; [done|]. cbn [negb andb]. apply Nat.eqb_neq. intros E. apply Hne.
    unfold code in E. by rewrite <- (ascii_nat_embedding c), E. }
  destruct (is_underscore c); cbn [negb foldr]; [exact IH|]. destruct (split_on "_" s) as [|w ws] eqn:E; [by apply split_on_nonempty in E|].
  cbn [foldr] in *. by rewrite <- IH, cons_app_str.
Qed.
(** What holds of every character, checked one by one. *)
Lemma char_cases (p : ascii → bool) : forallb p (map ascii_of_nat (seq 0 256)) = true → ∀ c, p c = true.
Proof.
  rewrite forallb_true_iff. intros H c. apply H. apply list_elem_of_In, in_map_iff. exists (nat_of_ascii c). split; [apply ascii_nat_embedding|].
  apply in_seq. pose proof (nat_ascii_bounded c). lia.
Qed.
Lemma char_implies (p q : ascii → bool) : forallb (λ c, implb (p c) (q c)) (map ascii_of_nat (seq 0 256)) = true → ∀ c, p c = true → q c = true.
Proof. intros H c Hp. pose proof (char_cases _ H c) as Hc. cbv beta in Hc. by rewrite Hp in Hc. Qed.

Lemma humps_keep a b s : uncaptured a = true → uncaptured b = true →
  squeezed (sub (rseq [RGroup 1 a; RGroup 2 b]) (λ m, group 1 m +:+ "_" +:+ group 2 m) s) = squeezed s.
Proof.
  intros Ha Hb. apply sub_keeps; [done|apply squeezed_app|]. intros st st' _ H. apply two_groups in H; [|done..].
  exists (group 1 st' +:+ group 2 st'). split; [by rewrite app_assoc_str|]. by rewrite !squeezed_app.
Qed.
Lemma space_not_name c : is_space c = true → name_char (lower_char c) = false.
Proof. intros H. apply negb_true_iff. revert c H. apply (char_implies is_space (λ c, negb (name_char (lower_char c)))). vm_compute. reflexivity. Qed.
Lemma underscore_not_name c : is_underscore c = true → name_char c = false.
Proof. intros H. apply negb_true_iff. revert c H. apply (char_implies is_underscore (λ c, negb (name_char c))). vm_compute. reflexivity. Qed.
Lemma squeeze_strip s : squeezed (strip s) = squeezed s.
Proof.
  unfold squeezed, lower, strip, strip_by.
  assert (∀ t, str_filter name_char (str_map lower_char t) = str_map lower_char (str_filter (λ c, name_char (lower_char c)) t)) as Hm.
  { induction t as [|c t IH]; [done|]. cbn. destruct (name_char (lower_char c)); cbn; by rewrite IH. }
  rewrite !Hm, str_filter_rstrip, str_filter_lstrip by apply space_not_name. done.
Qed.
Lemma squeezed_normal label : drop_underscores (_normalize_sensitive_key label) = squeezed label.
Proof.
  rewrite dropped_eq. unfold _normalize_sensitive_key. cbv zeta. set (t := sub _ _ (sub _ _ (strip label))).
  rewrite sub_class. fold name_char. set (u := strip_by _ _).
  assert (str_forallb (λ c, name_char c || is_underscore c) u = true) as Hu.
  { apply strip_by_forallb, collapse_forallb; [done|]. intros c Hc%negb_false_iff. change (name_char c = true) in Hc. by rewrite Hc. }
  assert (str_filter (λ c, negb (is_underscore c)) u = str_filter name_char u) as ->.
  { clearbody u. induction u as [|c u IH]; [done|]. cbn [str_forallb str_filter] in *. apply andb_true_iff in Hu as [Hc Hu].
    rewrite (IH Hu). destruct (is_underscore c) eqn:E; cbn [negb]; [by rewrite underscore_not_name|]. by rewrite orb_false_r in Hc; rewrite Hc. }
  unfold u, strip_by. rewrite str_filter_rstrip, str_filter_lstrip by apply underscore_not_name. rewrite str_filter_collapse; [|by intros c ?%negb_true_iff|done].
  change (squeezed t = squeezed label). unfold t. cbv zeta. rewrite !humps_keep by done. apply squeeze_strip.
Qed.
(** A label spelled like a credential, in whatever case and with whatever
    separators, is sensitive. *)
Lemma sensitive_spelling label key : key ∈ _SENSITIVE_KEYS → squeezed label = squeezed key → _is_sensitive_label label = true.
Proof.
  intros Hk Hs. unfold _is_sensitive_label. cbv zeta. apply orb_true_iff. right. apply existsb_true_iff. exists key. split; [done|].
  apply bool_decide_eq_true. rewrite squeezed_normal, Hs.
  assert (forallb (λ key, bool_decide (squeezed key = drop_underscores key)) _SENSITIVE_KEYS = true) as H by (vm_compute; reflexivity).
  rewrite forallb_true_iff in H. by apply H, bool_decide_eq_true in Hk.
Qed.

(** ** URLs and tokens, as a reader sees them

    Both are stated without the patterns: a scheme spelled in any case, [://]
    and a character that may be part of an address; a known mark of a token in
    any case, with as many characters of its alphabet as make it one. *)

Definition spelled (word w : string) : Prop := str_map lower_ascii w = word.
Definition url_char (c : ascii) : bool := negb (is_space c || is_quote c || one_of "<>" c).
Definition holds_url (s : string) : Prop := ∃ a scheme c b,
  s = a +:+ scheme +:+ "://" +:+ String c b ∧ (∃ word, word ∈ ["http"; "https"; "ftp"; "ws"; "wss"] ∧ spelled word scheme) ∧ url_char c = true.

Definition token_char (c : ascii) : bool := is_alnum c || one_of "_-" c.
Inductive token : string → Prop :=
| token_sk mark body : spelled "sk-" mark → String.length body = 8%nat → str_forallb token_char body = true → token (mark +:+ body)
| token_github word mark body : word ∈ ["ghp_"; "gho_"; "ghu_"; "ghs_"; "ghr_"] → spelled word mark → String.length body = 8%nat →
    str_forallb (λ c, is_alnum c || one_of "_" c) body = true → token (mark +:+ body)
| token_aws mark body : spelled "akia" mark → String.length body = 12%nat → str_forallb is_alnum body = true → token (mark +:+ body)
| token_bearer mark gap c : spelled "bearer" mark → nonempty gap = true → str_forallb is_space gap = true → is_space c = false →
    token (mark +:+ gap +:+ String c "").
Definition holds_token (s : string) : Prop := ∃ a w b, s = a +:+ w +:+ b ∧ token w.

Lemma spelled_cons d word w : spelled (String d word) w → ∃ c w', w = String c w' ∧ lower_ascii c = d ∧ spelled word w'.
Proof. destruct w as [|c w]; [done|]. intros [= <- <-]. by exists c, w. Qed.
Lemma accepts_alt_in l r u : r ∈ l → accepts r u → accepts (ralt l) u.
Proof.
  intros Hin Hu. induction l as [|r' l IH]; [by apply elem_of_nil in Hin|]. destruct l as [|r'' l].
  - by apply list_elem_of_singleton in Hin as ->.
  - apply elem_of_cons in Hin as [-> | Hin]; [by apply accepts_left|]. apply accepts_right. by apply IH.
Qed.

(** The pattern of a URL whose address consists of characters of [p]. *)
Lemma url_accepted p scheme c : (∃ word, word ∈ ["http"; "https"; "ftp"; "ws"; "wss"] ∧ spelled word scheme) → p c = true →
  accepts (rseq [ralt [rseq [rlit_ci "http"; ropt (rlit_ci "s")]; rlit_ci "ftp"; rseq [rlit_ci "ws"; ropt (rlit_ci "s")]]; rlit "://"; rplus (RChar p)])
    (scheme +:+ "://" +:+ String c "").
Proof.
  intros (word & Hword & Hs) Hc. apply (accepts_seq _ _ scheme ("://" +:+ String c "")).
  - assert (∀ base, spelled (base +:+ "s") scheme → accepts (rseq [rlit_ci base; ropt (rlit_ci "s")]) scheme) as Hopt.
    { intros base Hb. assert (∃ u x, scheme = u +:+ String x "" ∧ spelled base u ∧ lower_ascii x = "s"%char) as (u & x & -> & Hu & Hx).
      { clear Hs. revert base Hb. induction scheme as [|d t IH]; intros [|e base] Hb; try done.
        - destruct t; [|done]. injection Hb as Hb. exists "", d. done.
        - injection Hb as <- Hb. destruct (IH base Hb) as (u & x & -> & Hu & Hx). exists (String d u), x. split; [done|]. split; [|done]. unfold spelled. cbn. by rewrite Hu. }
      apply (accepts_seq _ _ u (String x "")); [by apply accepts_literal|]. apply accepts_left. constructor. unfold ci. by rewrite Hx, orb_true_r. }
    assert (∀ base, spelled base scheme → accepts (rseq [rlit_ci base; ropt (rlit_ci "s")]) scheme) as Hone.
    { intros base Hb. rewrite <- (app_nil_str scheme). apply (accepts_seq _ _ scheme ""); [by apply accepts_literal|]. apply accepts_right. constructor. }
    rewrite !elem_of_cons, elem_of_nil in Hword. destruct Hword as [-> | [-> | [-> | [-> | [-> | []]]]]].
    + apply accepts_left. by apply Hone.
    + apply accepts_left. by apply (Hopt "http").
    + apply accepts_right, accepts_left. by apply accepts_literal.
    + apply accepts_right, accepts_right. by apply Hone.
    + apply accepts_right, accepts_right. by apply (Hopt "ws").
  - apply (accepts_seq _ _ "://" (String c "")); [|apply accepts_plus; [done|cbn; by rewrite andb_true_r]].
    apply (accepts_seq _ _ ":" "//"); [by constructor|]. apply (accepts_seq _ _ "/" "/"); by constructor.
Qed.
Lemma url_found s : holds_url s → search _EXTERNAL_URL s = true.
Proof.
  intros (a & scheme & c & b & -> & Hword & Hc).
  replace (a +:+ scheme +:+ "://" +:+ String c b) with (a +:+ (scheme +:+ "://" +:+ String c "") +:+ b) by (by rewrite !app_assoc_str).
  apply search_holds. by apply url_accepted.
Qed.

(** At least [n] characters of a class. *)
Lemma accepts_atleast n p mark body r : accepts r mark → String.length body = n → str_forallb p body = true →
  accepts (rseq [r; rtimes n (RChar p); rstar (RChar p)]) (mark +:+ body).
Proof.
  intros Hr Hn Hp. apply (accepts_seq _ _ mark body Hr). rewrite <- (app_nil_str body). apply (accepts_seq _ _ body ""); [by apply accepts_times|constructor].
Qed.
Lemma token_found s : holds_token s → search _SECRET_VALUE s = true.
Proof.
  intros (a & w & b & -> & Hw). apply search_holds. unfold _SECRET_VALUE.
  destruct Hw as [mark body Hm Hl Hb|word mark body Hw Hm Hl Hb|mark body Hm Hl Hb|mark gap c Hm Hg Hs Hc].
  - eapply accepts_alt_in; [right; left|]. by apply (accepts_atleast 8 token_char mark body); [apply accepts_literal|..].
  - eapply accepts_alt_in; [right; right; left|]. cbn [rseq].
    assert (∃ x y z u, mark = String x (String y (String z (String u ""))) ∧ spelled "gh" (String x (String y "")) ∧ one_of "pousr" (lower_ascii z) = true ∧ u = "_"%char)
      as (x & y & z & u & -> & Hgh & Hz & ->).
    { rewrite !elem_of_cons, elem_of_nil in Hw. assert (∀ c, lower_ascii c = "_"%char → c = "_"%char) as Hlow by (intros c; destruct c as [[] [] [] [] [] [] [] []]; vm_compute; congruence).
      destruct Hw as [-> | [-> | [-> | [-> | [-> | []]]]]];
        apply spelled_cons in Hm as (x & ? & -> & Hx & Hm); apply spelled_cons in Hm as (y & ? & -> & Hy & Hm); apply spelled_cons in Hm as (z & ? & -> & Hz & Hm);
        apply spelled_cons in Hm as (u & v & -> & Hu%Hlow & Hm); (destruct v; [|done]); exists x, y, z, u; (split; [done|]); unfold spelled; cbn [str_map]; by rewrite Hx, Hy, Hz. }
    apply (accepts_seq _ _ (String x (String y "")) (String z "" +:+ "_" +:+ body)); [by apply accepts_literal|].
    apply (accepts_seq _ _ (String z "") ("_" +:+ body)); [constructor; unfold ci; by rewrite Hz, orb_true_r|].
    apply (accepts_atleast 8 _ "_" body); [by constructor|done..].
  - eapply accepts_alt_in; [right; right; right; left|]. by apply (accepts_atleast 12 is_alnum mark body); [apply accepts_literal|..].
  - eapply accepts_alt_in; [left|]. apply (accepts_seq _ _ mark (gap +:+ String c "")); [by apply accepts_literal|].
    apply (accepts_seq _ _ gap (String c "")); [by apply accepts_plus|]. apply accepts_plus; [done|]. cbn. unfold cneg. by rewrite Hc.
Qed.
