(* ===== verification/Canonical.v ===== *)
(** * The identity of a plan (scripts/pd_fleet/contracts.py)

    The canonical form of a V2 plan, the text that is hashed, and the
    reconciliation of the tokens of a run before work is dispatched.  Values
    are trees, so the guards against cyclic data never fire and are left out.
    [json.dumps] of a dictionary with a key that is not a string, which only
    the comparison of two spellings of one field meets, is taken to fail; the
    plan is rejected either way. *)

From S2P Require Import Prelude PyStr PyNum PyVal Regex Sha256 Redaction.

Open Scope string_scope.

Notation dict := (list (pyval * pyval)).

Inductive contract_error : Type :=
| ContractValidationError (message : string)
| ContractTypeError
| ContractOverflowError.
#[export] Instance contract_error_eq_dec : EqDecision contract_error.
Proof. solve_decision. Defined.

Notation cres := (res contract_error).

Definition _v2_error (code : string) : contract_error := ContractValidationError ("v2 contract rejected: " +:+ code).

(** ** Constants *)

Definition V2_SCHEMA_VERSION : string := "pd-fleet-plan:v2".
Definition V2_HASH_DOMAIN : string := "pd-fleet-plan:v2" +:+ String (ascii_of_nat 0) "".
Definition _RUNTIME_KEYS : list string :=
  ["timestamp"; "timestamps"; "created_at"; "updated_at"; "started_at"; "finished_at"; "completed_at"; "heartbeat_at";
   "expires_at"; "lease_expiry"; "runtime"; "wall_time"; "monotonic_time"].
Definition _V2_ALIASES : list (string * string) :=
  [("schemaVersion", "schema_version"); ("planHash", "plan_hash"); ("runId", "run_id"); ("taskId", "task_id");
   ("agentId", "agent_id"); ("maxParallel", "max_parallel"); ("eventSequence", "event_sequence");
   ("checkpointId", "checkpoint_id"); ("leaseId", "lease_id")].
Definition _V2_PLAN_FIELDS : list string :=
  ["schema_version"; "plan_hash"; "generation"; "run_id"; "owner"; "status"; "waves"; "tasks"; "dependencies"; "gates";
   "agents"; "capabilities"; "inputs"; "constraints"; "context"; "commands"; "validation_commands"; "max_parallel";
   "checkpoints"; "leases"; "attempts"; "reports"; "events"; "event_sequence"; "checkpoint_id"; "lease_id"; "audit";
   "metrics"; "project"; "name"; "description"; "path"; "source"; "cwd"; "task_id"; "agent_id"; "role"].
(** The collections whose order means nothing. *)
Definition set_like : list string := ["capabilities"; "dependencies"].

(** ** Canonical values *)

(** [_V2_ALIASES.get(key, key)] *)
Definition assoc {A} (k : string) (l : list (string * A)) : option A := snd <$> List.find (λ kv, bool_decide (kv.1 = k)) l.
Definition alias (key : string) : string := default key (assoc key _V2_ALIASES).

(** The entries of a mapping may carry more than the value ([raw]) that the
    comparison of two spellings looks at. *)
Definition add_alias {A} (raw : A → pyval) (result : list (string * A)) (entry : pyval * A) : cres (list (string * A)) :=
  match entry.1 with
  | VStr raw_key =>
      if negb (nonempty raw_key) then Err (_v2_error "invalid object key") else
      match assoc (alias raw_key) result with
      | Some old =>
          match json_dumps (raw old), json_dumps (raw entry.2) with
          | Ok a, Ok b => if bool_decide (a = b) then Ok result else Err (_v2_error "conflicting aliases")
          | _, _ => Err (_v2_error "invalid alias value")
          end
      | None => Ok (result ++ [(alias raw_key, entry.2)])%list
      end
  | _ => Err (_v2_error "invalid object key")
  end.
Definition _normalized_aliases {A} (raw : A → pyval) (entries : list (pyval * A)) : cres (list (string * A)) :=
  foldM (add_alias raw) [] entries.

(** A string: [None] when it holds a URL or, once redacted, a secret. *)
Definition canonical_text (s : string) : pyval :=
  if search _EXTERNAL_URL s then VNone else
  let t := _redact_sensitive_text (_redact_paths s) in
  if search _SECRET_VALUE t then VNone else VStr t.

Definition dropped (key : string) : bool := bool_decide (key ∈ _RUNTIME_KEYS) || _is_sensitive_label key.

(** [result[key] = sorted(result[key], key=json text)] when it is a list. *)
Definition sort_field (key : string) (result : dict) : dict :=
  match dget key result with
  | Some (VList l) => dset key (VList (sort_by dumps_leb l)) result
  | _ => result
  end.

(** One entry of a mapping: what it adds to the result. *)
Definition canonical_entry (strict : bool) (entry : string * (pyval * cres pyval)) : cres dict :=
  let '(key, (_, normalized)) := entry in
  if dropped key then Ok []
  else if strict && negb (bool_decide (key ∈ _V2_PLAN_FIELDS)) then Err (_v2_error "unknown field")
  else w ← normalized; Ok [(VStr key, w)].

Fixpoint _canonical_value (root : bool) (value : pyval) : cres pyval :=
  match value with
  | VNone | VBool _ | VInt _ => Ok value
  | VStr s => Ok (canonical_text s)
  | VFloat f => if is_finite f then Ok value else Err (_v2_error "non-finite number")
  | VDict kvs | VProxy kvs =>
      normalized_mapping ← _normalized_aliases fst (map (λ kv, (kv.1, (kv.2, _canonical_value false kv.2))) kvs);
      let has_schema := match assoc "schema_version" normalized_mapping with Some _ => true | None => false end in
      result ← mapM (canonical_entry (root && has_schema)) normalized_mapping;
      Ok (VDict (sort_field "dependencies" (sort_field "capabilities" (concat result))))
  | VList l | VTuple l => l' ← mapM (_canonical_value false) l; Ok (VList l')
  | VOther _ => Err (_v2_error "non-JSON value")
  end.

Definition canonicalize (value : pyval) : cres pyval :=
  match entries value with
  | None => Err (_v2_error "plan must be an object")
  | Some kvs =>
      normalized ← _normalized_aliases id kvs;
      match assoc "schema_version" normalized with
      | Some v => if py_eqb v (VStr V2_SCHEMA_VERSION)
                  then _canonical_value true (VDict (map (λ kv, (VStr kv.1, kv.2)) normalized))
                  else Err (_v2_error "unsupported schema version")
      | None => Err (_v2_error "unsupported schema version")
      end
  end.

(** The text; its bytes are its UTF-8 encoding. *)
Definition canonical_json_bytes (value : pyval) : cres string :=
  c ← canonicalize value; map_err (λ _, _v2_error "invalid JSON") (json_dumps c).

Definition plan_hash (value : pyval) : cres string := (λ text, sha256_hex (V2_HASH_DOMAIN +:+ text)) <$> canonical_json_bytes value.

(** ** Reconciliation *)

Record ReconciliationInput : Type := MkReconciliation {
  expected_plan_hash : pyval;
  actual_plan_hash : pyval;
  expected_generation : pyval;
  actual_generation : pyval;
  expected_run_id : pyval;
  actual_run_id : pyval;
  expected_checkpoint : pyval;
  actual_checkpoint : pyval;
  expected_lease : pyval;
  actual_lease : pyval;
  expected_event_sequence : pyval;
  actual_event_sequence : pyval }.

Record ReconciliationError : Type := MkRecError { err_code : string; err_message : string }.
Record ReconciliationResult : Type := MkRecResult { allowed : bool; errors : list ReconciliationError }.
Definition blocked (r : ReconciliationResult) : bool := negb r.(allowed).

Definition _TOKEN_HASH (s : string) : bool := is_sha256_hex s.
Definition _TOKEN_LEASE (s : string) : bool := ident is_alnum (λ c, is_alnum c || one_of "._:-" c) (Some 255%nat) s.

Definition _token_valid (name : string) (token : pyval) : bool :=
  if endswith name "_plan_hash" then match token with VStr s => _TOKEN_HASH s | _ => false end
  else if endswith name "_generation" || endswith name "_checkpoint" || endswith name "_event_sequence"
  then match token with VInt z => (0 <=? z)%Z | _ => false end
  else if endswith name "_run_id" then match token with VStr s => nonempty s | _ => false end
  else if endswith name "_lease" then match token with VStr s => _TOKEN_LEASE s | _ => false end
  else false.

Record token_pair : Type := MkPair { p_label : string; p_drift : string; p_expected : pyval; p_actual : pyval }.
Definition pairs (v : ReconciliationInput) : list token_pair :=
  [MkPair "plan_hash" "plan_hash_drift" v.(expected_plan_hash) v.(actual_plan_hash);
   MkPair "generation" "generation_drift" v.(expected_generation) v.(actual_generation);
   MkPair "run_id" "run_drift" v.(expected_run_id) v.(actual_run_id);
   MkPair "checkpoint" "checkpoint_drift" v.(expected_checkpoint) v.(actual_checkpoint);
   MkPair "lease" "lease_stale" v.(expected_lease) v.(actual_lease);
   MkPair "event_sequence" "event_sequence_drift" v.(expected_event_sequence) v.(actual_event_sequence)].

Definition check_pair (p : token_pair) : list ReconciliationError :=
  if bool_decide (p.(p_label) = "lease") && is_none p.(p_expected) && is_none p.(p_actual) then []
  else if negb (_token_valid ("expected_" +:+ p.(p_label)) p.(p_expected) && _token_valid ("actual_" +:+ p.(p_label)) p.(p_actual))
  then [MkRecError ("invalid_" +:+ p.(p_label)) "reconciliation blocked"]
  else if negb (py_eqb p.(p_expected) p.(p_actual)) then [MkRecError p.(p_drift) "reconciliation blocked"] else [].

Definition reconcile (value : ReconciliationInput) : ReconciliationResult :=
  let errors := flat_map check_pair (pairs value) in
  MkRecResult (match errors with [] => true | _ => false end) errors.

Example canonical_ex : canonical_json_bytes (VDict [(VStr "tasks", VTuple [VDict [(VStr "capabilities", VList [VStr "b"; VStr "a"]); (VStr "apiKey", VNone)]]);
    (VStr "schemaVersion", VStr "pd-fleet-plan:v2"); (VStr "updated_at", VInt 3); (VStr "context", VStr "see https://a.b")]) =
  Ok (String.concat (String dquote "") ["{"; "context"; ":null,"; "schema_version"; ":"; "pd-fleet-plan:v2"; ","; "tasks"; ":[{"; "capabilities"; ":["; "a"; ","; "b"; "]}]}"]).
Proof. vm_compute. reflexivity. Qed.

#[global] Arguments alias : simpl never.
#[global] Arguments dropped : simpl never.
#[global] Arguments canonical_text : simpl never.
#[global] Arguments search : simpl never.

(** ** Lemmas *)

Lemma foldM_app {E A B} (f : B → A → res E B) acc l k : foldM f acc (l ++ k) = (acc' ← foldM f acc l; foldM f acc' k).
Proof. revert acc. induction l as [|x l IH]; intros acc; [done|]. cbn [app foldM]. destruct (f acc x) as [a|]; cbn; [apply IH|done]. Qed.

Lemma assoc_some {A} k (l : list (string * A)) a : assoc k l = Some a → (k, a) ∈ l.
Proof.
  unfold assoc. induction l as [|[j b] l IH]; [done|]. cbn. case_bool_decide; cbn; [|by intros H'; right; apply IH].
  intros [= ->]. subst. by left.
Qed.
Lemma assoc_none {A} k (l : list (string * A)) : assoc k l = None ↔ k ∉ map fst l.
Proof.
  unfold assoc. induction l as [|[j b] l IH]; cbn; [set_solver|]. case_bool_decide as Hj; cbn; [set_solver|]. rewrite IH. set_solver.
Qed.

Lemma alias_alias k : alias (alias k) = alias k.
Proof.
  destruct (assoc k _V2_ALIASES) as [a|] eqn:E; [|assert (alias k = k) as -> by (unfold alias; by rewrite E); unfold alias; by rewrite E].
  assert (alias k = a) as -> by (unfold alias; by rewrite E).
  apply assoc_some in E. assert (Forall (λ kv : string * string, alias kv.2 = kv.2) _V2_ALIASES) as Hall by (repeat constructor).
  rewrite Forall_forall in Hall. exact (Hall _ E).
Qed.
Lemma alias_nonempty k : nonempty k = true → nonempty (alias k) = true.
Proof.
  intros Hk. unfold alias. destruct (assoc k _V2_ALIASES) as [a|] eqn:E; cbn; [|done]. apply assoc_some in E.
  assert (Forall (λ kv : string * string, nonempty kv.2 = true) _V2_ALIASES) as Hall by (repeat constructor).
  rewrite Forall_forall in Hall. exact (Hall _ E).
Qed.

Section aliases.
Context {A : Type} (raw : A → pyval).

(** The key an entry ends up under. *)
Definition key_text (v : pyval) : string := match v with VStr s => alias s | _ => "" end.
Definition key_ok (v : pyval) : bool := match v with VStr s => nonempty s | _ => false end.

Lemma add_alias_ok acc e r : add_alias raw acc e = Ok r →
  key_ok e.1 = true ∧ (r = acc ∨ (key_text e.1 ∉ map fst acc ∧ r = acc ++ [(key_text e.1, e.2)])%list).
Proof.
  destruct e as [k a]. cbn. destruct k as [| | | |k| | | | |]; try discriminate. unfold add_alias. cbn [fst snd].
  destruct (nonempty k) eqn:Hk; [|discriminate]. cbn [negb]. destruct (assoc (alias k) acc) as [old|] eqn:E.
  - destruct (json_dumps (raw old)), (json_dumps (raw a)); try discriminate. case_bool_decide; [|discriminate].
    intros [= <-]. cbn. by split; [|left].
  - intros [= <-]. cbn. split; [done|]. right. split; [by apply assoc_none|done].
Qed.

Lemma aliases_ok entries r : _normalized_aliases raw entries = Ok r →
  Forall (λ e, key_ok e.1 = true) entries ∧ NoDup (map fst r) ∧
  ∀ k a, (k, a) ∈ r → ∃ key, (key, a) ∈ entries ∧ key_text key = k ∧ key_ok key = true.
Proof.
  unfold _normalized_aliases. revert r. induction entries as [|e entries IH] using rev_ind; intros r.
  - intros [= <-]. split; [done|]. split; [constructor|]. by intros k a ?%elem_of_nil.
  - rewrite foldM_app. intros (acc & Hacc & H)%bind_ok. cbn [foldM] in H. apply bind_ok in H as (r' & H & [= <-]).
    destruct (IH _ Hacc) as (Hk & Hn & Hin). apply add_alias_ok in H as [Hke Hr]. split; [by apply Forall_app; split; [|constructor]|].
    destruct Hr as [-> | [Hnew ->]].
    + split; [done|]. intros k a Hka. destruct (Hin _ _ Hka) as (key & ? & ?). exists key. by split; [apply elem_of_app; left|].
    + split.
      * rewrite map_app. apply NoDup_app. split; [done|]. split; [|by apply NoDup_singleton].
        cbn. by intros x Hx ->%list_elem_of_singleton.
      * intros k a [Hka | Hka]%elem_of_app.
        -- destruct (Hin _ _ Hka) as (key & ? & ?). exists key. by split; [apply elem_of_app; left|].
        -- apply list_elem_of_singleton in Hka as [= -> ->]. exists e.1. split; [|done]. apply elem_of_app. right. destruct e. by left.
Qed.

Lemma aliases_distinct entries : Forall (λ e, key_ok e.1 = true) entries → NoDup (map (λ e, key_text e.1) entries) →
  _normalized_aliases raw entries = Ok (map (λ e, (key_text e.1, e.2)) entries).
Proof.
  unfold _normalized_aliases. induction entries as [|e entries IH] using rev_ind; [done|].
  intros [Hk He]%Forall_app Hn. rewrite map_app in Hn. apply NoDup_app in Hn as (Hn & Hd & _). rewrite Forall_singleton in He.
  rewrite foldM_app, IH by done. cbn [mbind res_bind foldM]. destruct e as [k a]. destruct k as [| | | |k| | | | |]; try discriminate. cbn in He.
  unfold add_alias. cbn [fst snd]. rewrite He. cbn [negb]. rewrite map_app.
  assert (assoc (alias k) (map (λ e : pyval * A, (key_text e.1, e.2)) entries) = None) as ->; [|done].
  apply assoc_none. rewrite map_map. intros Hin. apply (Hd _ Hin). by left.
Qed.
End aliases.

(** *** Canonical values are clean *)

Definition clean_key (k : pyval) : bool :=
  match k with VStr s => nonempty s && negb (dropped s) && bool_decide (alias s = s) | _ => false end.
Fixpoint clean (v : pyval) : bool :=
  match v with
  | VNone | VBool _ | VInt _ => true
  | VFloat f => is_finite f
  | VStr s => negb (search _SECRET_VALUE s)
  | VList l => forallb clean l
  | VDict kvs => forallb (λ kv, clean_key kv.1 && clean kv.2) kvs && bool_decide (NoDup (map key_str kvs))
  | VTuple _ | VProxy _ | VOther _ => false
  end.

Lemma clean_list l : clean (VList l) = true ↔ Forall (λ v, clean v = true) l.
Proof. cbn. rewrite forallb_true_iff, Forall_forall. done. Qed.
Lemma clean_dict d : clean (VDict d) = true ↔
  Forall (λ kv : pyval * pyval, clean_key kv.1 = true ∧ clean kv.2 = true) d ∧ NoDup (map key_str d).
Proof.
  cbn. rewrite andb_true_iff, bool_decide_eq_true, forallb_true_iff, Forall_forall. by setoid_rewrite andb_true_iff.
Qed.

(** Sorting one of the collections keeps the keys. *)
Lemma keys_dset k v d : is_Some (dget k d) → map key_str (dset k v d) = map key_str d.
Proof.
  induction d as [|[j w] d IH]; [by intros [? [=]]|]. cbn. destruct (key_is k j) eqn:E; intros H; cbn; [done|]. by rewrite IH.
Qed.
Lemma clean_dset k v d : clean (VDict d) = true → is_Some (dget k d) → clean v = true → clean (VDict (dset k v d)) = true.
Proof.
  rewrite !clean_dict. intros [HF Hn] Hk Hv. rewrite keys_dset by done. split; [|done]. rewrite Forall_forall in HF |- *.
  intros kv [-> | Hin]%elem_of_dset; [|by apply HF]. cbn [fst snd]. split; [|done].
  destruct Hk as [w Hw]. apply dget_elem_of in Hw. exact (proj1 (HF _ Hw)).
Qed.
Lemma sort_field_clean k d : clean (VDict d) = true → clean (VDict (sort_field k d)) = true.
Proof.
  intros Hd. unfold sort_field. destruct (dget k d) as [v|] eqn:E; [|done]. destruct v as [| | | | |l| | | |]; try done.
  apply clean_dset; [done|by eexists|]. apply clean_list. rewrite sort_by_perm. apply clean_list.
  apply dget_elem_of in E. apply clean_dict in Hd as [HF _]. rewrite Forall_forall in HF. exact (proj2 (HF _ E)).
Qed.
Lemma sort_field_keys k d : map key_str (sort_field k d) = map key_str d.
Proof.
  unfold sort_field. destruct (dget k d) as [v|] eqn:E; [|done]. destruct v as [| | | | |l| | | |]; try done. by apply keys_dset.
Qed.

(** What the entries of a mapping become. *)
Definition field_of (v : pyval) (strict : bool) (e : string * (pyval * cres pyval)) (kv : pyval * pyval) : Prop :=
  kv.1 = VStr e.1 ∧ dropped e.1 = false ∧ (strict = true → e.1 ∈ _V2_PLAN_FIELDS) ∧ e.2.2 = Ok kv.2.

Lemma canonical_entry_ok strict e l : canonical_entry strict e = Ok l →
  (dropped e.1 = true ∧ l = []) ∨
  (dropped e.1 = false ∧ (strict = true → e.1 ∈ _V2_PLAN_FIELDS) ∧ ∃ w, e.2.2 = Ok w ∧ l = [(VStr e.1, w)]).
Proof.
  destruct e as [key [r n]]. unfold canonical_entry. cbn [fst snd]. destruct (dropped key); [intros [= <-]; by left|].
  destruct strict; cbn [andb].
  - case_bool_decide; cbn [negb]; [|discriminate]. intros (w & -> & [= <-])%bind_ok. right. split; [done|]. split; [done|]. by exists w.
  - intros (w & -> & [= <-])%bind_ok. right. split; [done|]. split; [done|]. by exists w.
Qed.

Lemma entries_ok strict es ls : Forall2 (λ e l, canonical_entry strict e = Ok l) es ls →
  map fst (concat ls) = VStr <$> map fst (filter (λ e, dropped e.1 = false) es) ∧
  Forall (λ kv, ∃ e, e ∈ es ∧ kv.1 = VStr e.1 ∧ dropped e.1 = false ∧ (strict = true → e.1 ∈ _V2_PLAN_FIELDS) ∧ e.2.2 = Ok kv.2) (concat ls) ∧
  Forall (λ e, dropped e.1 = true ∨ ∃ u, e.2.2 = Ok u ∧ (VStr e.1, u) ∈ concat ls) es.
Proof.
  induction 1 as [|e l es ls He HF (IH1 & IH2 & IH3)]; [by split; [|split; constructor]|].
  assert (Forall (λ kv : pyval * pyval, ∃ e0, e0 ∈ e :: es ∧ kv.1 = VStr e0.1 ∧ dropped e0.1 = false ∧
    (strict = true → e0.1 ∈ _V2_PLAN_FIELDS) ∧ e0.2.2 = Ok kv.2) (concat ls)) as IH2'.
  { eapply Forall_impl; [exact IH2|]. intros kv (e0 & He0 & H). exists e0. by split; [right|]. }
  apply canonical_entry_ok in He as [[Hd ->] | (Hd & Hs & w & Hw & ->)]; cbn [concat app].
  - rewrite filter_cons, decide_False by congruence. split; [done|]. split; [done|]. constructor; [by left|done].
  - rewrite filter_cons, decide_True by done. cbn. split; [by rewrite IH1|]. split.
    + constructor; [|done]. exists e. split; [by left|]. done.
    + constructor; [right; exists w; by split; [|left]|]. eapply Forall_impl; [exact IH3|].
      intros e' [? | (u & ? & ?)]; [by left|]. right. exists u. by split; [|right].
Qed.

Lemma canonical_mapping root kvs w :
  (normalized ← _normalized_aliases fst (map (λ kv, (kv.1, (kv.2, _canonical_value false kv.2))) kvs);
   let has_schema := match assoc "schema_version" normalized with Some _ => true | None => false end in
   result ← mapM (canonical_entry (root && has_schema)) normalized;
   Ok (VDict (sort_field "dependencies" (sort_field "capabilities" (concat result))))) = Ok w →
  Forall (λ kv : pyval * pyval, ∀ u, _canonical_value false kv.2 = Ok u → clean u = true) kvs →
  clean w = true.
Proof.
  intros (nm & Hnm & H)%bind_ok HF. cbv zeta in H. apply bind_ok in H as (ls & Hls & [= <-]).
  apply sort_field_clean, sort_field_clean, clean_dict. apply mapM_res_ok, entries_ok in Hls as (Hk & He & _).
  destruct (aliases_ok _ _ _ Hnm) as (_ & Hn & Hin). split.
  - eapply Forall_impl; [exact He|]. intros [k v] ([key [r n]] & Hen & Hkey & Hd & _ & Hv). cbn in *. subst k n.
    destruct (Hin _ _ Hen) as (raw & Hraw & Hrk & Hok). apply list_elem_of_fmap in Hraw as ([k0 v0] & [= -> -> Hv0] & Hkv). split.
    + cbn. destruct k0 as [| | | |k0| | | | |]; try discriminate. cbn in Hrk, Hok. subst key.
      by rewrite (alias_nonempty _ Hok), Hd, bool_decide_true by apply alias_alias.
    + rewrite Forall_forall in HF. exact (HF _ Hkv _ (eq_sym Hv0)).
  - assert (map key_str (concat ls) = map fst (filter (λ e : string * (pyval * cres pyval), dropped e.1 = false) nm)) as ->.
    { transitivity (map (λ k, match k with VStr s => s | _ => "" end) (map fst (concat ls))); [by rewrite map_map|]. rewrite Hk.
      generalize (map fst (filter (λ e : string * (pyval * cres pyval), dropped e.1 = false) nm)). intros l. clear. induction l; cbn; by f_equal. }
    eapply sublist_NoDup; [exact Hn|]. apply map_filter_sublist.
Qed.

Lemma canonical_value_clean root v w : _canonical_value root v = Ok w → clean w = true.
Proof.
  revert root w. induction v as [| | |f|s|l IH|l IH|kvs IH|kvs IH|r] using pyval_ind'; intros root w H; cbn in H.
  1-3: apply ok_inj in H as <-; done.
  - destruct (is_finite f) eqn:E; [|discriminate]. apply ok_inj in H as <-. done.
  - apply ok_inj in H as <-. unfold canonical_text. destruct (search _EXTERNAL_URL s); [done|].
    cbv zeta. destruct (search _SECRET_VALUE _) eqn:E; [done|]. cbn [clean]. by rewrite E.
  - apply bind_ok in H as (l' & Hl & [= <-]). apply clean_list. apply mapM_res_ok in Hl. clear -IH Hl.
    induction Hl as [|v w l l' Hv Hl IHl]; [done|]. apply Forall_cons in IH as [Hh IH]. constructor; [by apply (Hh false)|by apply IHl].
  - apply bind_ok in H as (l' & Hl & [= <-]). apply clean_list. apply mapM_res_ok in Hl. clear -IH Hl.
    induction Hl as [|v w l l' Hv Hl IHl]; [done|]. apply Forall_cons in IH as [Hh IH]. constructor; [by apply (Hh false)|by apply IHl].
  - apply (canonical_mapping root kvs w H). eapply Forall_impl; [exact IH|]. intros kv [_ Hv] u. apply (Hv false).
  - apply (canonical_mapping root kvs w H). eapply Forall_impl; [exact IH|]. intros kv [_ Hv] u. apply (Hv false).
  - discriminate.
Qed.

(** Clean data has a text. *)
Lemma clean_dumps v : clean v = true → ∃ s, json_dumps v = Ok s.
Proof.
  induction v as [| | |f| |l IH| |kvs IH| |] using pyval_ind'; intros Hc; try discriminate; try by eexists.
  - cbn in Hc |- *. rewrite Hc. by eexists.
  - apply clean_list in Hc. assert (∃ ws, mapM json_dumps l = Ok ws) as [ws Hws]; [|cbn; rewrite Hws; by eexists].
    induction l as [|v l IHl]; [by eexists|]. apply Forall_cons in Hc as [Hv Hl], IH as [Hh IH].
    destruct (Hh Hv) as [s Hs], (IHl IH Hl) as [ws Hws]. cbn. rewrite Hs. cbn. rewrite Hws. by eexists.
  - apply clean_dict in Hc as [Hc _].
    assert (∃ ws, mapM (λ kv : pyval * pyval, w ← json_dumps kv.2; match kv.1 with VStr k => Ok (k, w) | _ => Err JsonKey end) kvs = Ok ws) as [ws Hws];
      [|cbn; rewrite Hws; by eexists].
    induction kvs as [|[k v] kvs IHl]; [by eexists|]. apply Forall_cons in Hc as [[Hk Hv] Hl], IH as [[_ Hh] IH].
    destruct (Hh Hv) as [s Hs], (IHl IH Hl) as [ws Hws]. cbn [fst snd] in *. destruct k as [| | | |k| | | | |]; try discriminate.
    cbn. rewrite Hs. cbn. rewrite Hws. by eexists.
Qed.

(** The root of a canonical plan. *)
Lemma canonicalize_parts v w : canonicalize v = Ok w →
  ∃ kvs normalized, entries v = Some kvs ∧ _normalized_aliases id kvs = Ok normalized ∧
    assoc "schema_version" normalized = Some (VStr V2_SCHEMA_VERSION) ∧
    _canonical_value true (VDict (map (λ kv, (VStr kv.1, kv.2)) normalized)) = Ok w.
Proof.
  unfold canonicalize. destruct (entries v) as [kvs|]; [|discriminate]. intros (nm & Hnm & H)%bind_ok.
  destruct (assoc "schema_version" nm) as [x|] eqn:E; [|discriminate]. destruct (py_eqb x (VStr V2_SCHEMA_VERSION)) eqn:Hx; [|discriminate].
  exists kvs, nm. destruct x; try discriminate. apply bool_decide_eq_true in Hx as ->. done.
Qed.

(** Normalising again changes nothing. *)
Lemma aliases_again {A B} (raw : A → pyval) (raw' : B → pyval) (f : A → B) entries r : _normalized_aliases raw entries = Ok r →
  _normalized_aliases raw' (map (λ kv, (VStr kv.1, f kv.2)) r) = Ok (map (λ kv, (kv.1, f kv.2)) r).
Proof.
  intros H. destruct (aliases_ok _ _ _ H) as (_ & Hn & Hin).
  assert (∀ kv, kv ∈ r → nonempty kv.1 = true ∧ alias kv.1 = kv.1) as Hk.
  { intros [k a] Hka. destruct (Hin _ _ Hka) as (key & _ & <- & Hok). cbn. destruct key as [| | | |s| | | | |]; try discriminate.
    split; [by apply alias_nonempty|apply alias_alias]. }
  rewrite aliases_distinct.
  - f_equal. rewrite map_map. apply map_ext_in. intros kv Hkv%list_elem_of_In. cbn. by rewrite (proj2 (Hk _ Hkv)).
  - apply Forall_fmap, Forall_forall. intros kv Hkv. exact (proj1 (Hk _ Hkv)).
  - rewrite map_map. cbn. rewrite (map_ext_in _ fst) by (intros kv Hkv%list_elem_of_In; exact (proj2 (Hk _ Hkv))). done.
Qed.

Lemma sort_field_get k j d : k ≠ j → dget k (sort_field j d) = dget k d.
Proof.
  intros Hne. unfold sort_field. destruct (dget j d) as [v|]; [|done]. destruct v; try done. by rewrite dget_dset, bool_decide_false by congruence.
Qed.
Lemma dget_unique k v d : NoDup (map key_str d) → Forall (λ kv : pyval * pyval, is_str kv.1 = true) d → (VStr k, v) ∈ d → dget k d = Some v.
Proof.
  induction d as [|[j w] d IH]; [by intros _ _ ?%elem_of_nil|]. intros [Hj Hn]%NoDup_cons [Hs HF]%Forall_cons Hin. cbn in Hs.
  destruct j as [| | | |j| | | | |]; try discriminate. cbn. apply elem_of_cons in Hin as [[= <- <-] | Hin]; [by rewrite bool_decide_true|].
  rewrite bool_decide_false; [by apply IH|]. intros ->. apply Hj. apply list_elem_of_fmap. by exists (VStr k, v).
Qed.

Lemma canonicalize_root v w : canonicalize v = Ok w → ∃ d, w = VDict d ∧ clean (VDict d) = true ∧
  dget "schema_version" d = Some (VStr V2_SCHEMA_VERSION) ∧ Forall (λ k, k ∈ _V2_PLAN_FIELDS) (map key_str d).
Proof.
  intros H. apply canonicalize_parts in H as (kvs & nm & _ & Hnm & Hsv & H). pose proof (canonical_value_clean _ _ _ H) as Hc.
  cbn [_canonical_value] in H. rewrite map_map in H. cbn [fst snd] in H.
  rewrite (aliases_again id fst (λ x, (x, _canonical_value false x)) _ _ Hnm) in H. cbn [mbind res_bind] in H. cbv zeta in H.
  set (nm' := map (λ kv : string * pyval, (kv.1, (kv.2, _canonical_value false kv.2))) nm) in *.
  assert (("schema_version", (VStr V2_SCHEMA_VERSION, _canonical_value false (VStr V2_SCHEMA_VERSION))) ∈ nm') as Hin.
  { apply list_elem_of_fmap. exists ("schema_version", VStr V2_SCHEMA_VERSION). split; [done|by apply assoc_some]. }
  destruct (assoc "schema_version" nm') as [x|] eqn:E.
  2:{ apply assoc_none in E. destruct E. apply list_elem_of_fmap. eexists. by split; [|exact Hin]. }
  cbn [andb] in H. apply bind_ok in H as (ls & Hls & [= <-]). exists (sort_field "dependencies" (sort_field "capabilities" (concat ls))).
  split; [done|]. split; [done|]. apply mapM_res_ok, entries_ok in Hls as (_ & He & Hi).
  apply clean_dict in Hc as [_ Hn]. rewrite !sort_field_keys in Hn |- *. split.
  - rewrite !sort_field_get by done. rewrite Forall_forall in Hi. destruct (Hi _ Hin) as [Hd | (u & Hu & Hinu)]; [vm_compute in Hd; discriminate|].
    assert (u = VStr V2_SCHEMA_VERSION) as -> by (vm_compute in Hu; apply ok_inj in Hu; by rewrite <- Hu).
    apply dget_unique; [done| |done]. eapply Forall_impl; [exact He|]. by intros kv (e & _ & -> & _).
  - apply Forall_fmap. eapply Forall_impl; [exact He|]. intros kv (e & _ & Hk & _ & Hf & _). unfold key_str, compose. cbn.
    rewrite Hk. by apply Hf.
Qed.

(** The canonical form of a plan is safe to store and to hash: at every
    depth, no string of it matches the pattern of a secret, no key of a mapping
    is a runtime field, names a credential or is an alias of another spelling,
    keys are distinct and numbers finite; at the root every key is a field of
    the V2 plan, the schema version among them.  So it always has a text, and
    a hash. *)
Theorem canonical_clean v w : canonicalize v = Ok w → ∃ d, w = VDict d ∧
  Forall (λ kv, clean_key kv.1 = true ∧ clean kv.2 = true) d ∧ NoDup (map key_str d) ∧
  dget "schema_version" d = Some (VStr V2_SCHEMA_VERSION) ∧ Forall (λ k, k ∈ _V2_PLAN_FIELDS) (map key_str d) ∧
  ∃ text, canonical_json_bytes v = Ok text ∧ plan_hash v = Ok (sha256_hex (V2_HASH_DOMAIN +:+ text)).
Proof.
  intros H. destruct (canonicalize_root _ _ H) as (d & -> & Hc & Hs & Hf). exists d. split; [done|].
  destruct (clean_dumps _ Hc) as [text Ht]. apply clean_dict in Hc as [Hc Hn]. do 4 (split; [done|]). exists text.
  assert (canonical_json_bytes v = Ok text) as Hb by (unfold canonical_json_bytes; rewrite H; cbn [mbind res_bind]; by rewrite Ht).
  split; [done|]. unfold plan_hash. by rewrite Hb.
Qed.

Definition demo_v2_fields : dict :=
  [(VStr "schemaVersion", VStr "pd-fleet-plan:v2"); (VStr "name", VStr "use sk-abcdefgh1 at https://a.b"); (VStr "updated_at", VNone);
   (VStr "tasks", VTuple [VDict [(VStr "apiKey", VStr "x"); (VStr "taskId", VStr "t1"); (VStr "cwd", VStr "in /srv/x")]])].
Definition demo_v2_canonical : dict :=
  [(VStr "schema_version", VStr "pd-fleet-plan:v2"); (VStr "name", VNone);
   (VStr "tasks", VList [VDict [(VStr "task_id", VStr "t1"); (VStr "cwd", VStr "in [PATH REDACTED]")]])].
Lemma demo_v2_ok : canonicalize (VDict demo_v2_fields) = Ok (VDict demo_v2_canonical).
Proof. vm_compute. reflexivity. Qed.
Lemma canonical_clean_witness : ∃ d, VDict demo_v2_canonical = VDict d ∧
  Forall (λ kv, clean_key kv.1 = true ∧ clean kv.2 = true) d ∧ NoDup (map key_str d) ∧
  dget "schema_version" d = Some (VStr V2_SCHEMA_VERSION) ∧ Forall (λ k, k ∈ _V2_PLAN_FIELDS) (map key_str d) ∧
  ∃ text, canonical_json_bytes (VDict demo_v2_fields) = Ok text ∧
    plan_hash (VDict demo_v2_fields) = Ok (sha256_hex (V2_HASH_DOMAIN +:+ text)).
Proof. exact (canonical_clean (VDict demo_v2_fields) (VDict demo_v2_canonical) demo_v2_ok). Defined.

(** *** Reconciliation *)

Lemma valid_token_shape n t : _token_valid n t = true → (∃ s, t = VStr s) ∨ ∃ z, t = VInt z.
Proof.
  unfold _token_valid. destruct (endswith n "_plan_hash"), (endswith n "_generation" || endswith n "_checkpoint" || endswith n "_event_sequence")%bool,
    (endswith n "_run_id"), (endswith n "_lease"); destruct t; try discriminate; eauto.
Qed.
Lemma token_eqb n m a b : _token_valid n a = true → _token_valid m b = true → py_eqb a b = true ↔ b = a.
Proof.
  intros [[s ->] | [z ->]]%valid_token_shape [[s' ->] | [z' ->]]%valid_token_shape; cbn -[num_eqb].
  - rewrite bool_decide_eq_true. naive_solver.
  - naive_solver.
  - naive_solver.
  - rewrite num_eqb_int, Z.eqb_eq. naive_solver.
Qed.

(** Both names of a pair check the same thing. *)
Lemma same_check v p t : p ∈ pairs v → _token_valid ("actual_" +:+ p.(p_label)) t = _token_valid ("expected_" +:+ p.(p_label)) t.
Proof. unfold pairs. rewrite !elem_of_cons, elem_of_nil. by intros [-> | [-> | [-> | [-> | [-> | [-> | []]]]]]]. Qed.

Definition absent (p : token_pair) : Prop := p.(p_label) = "lease" ∧ p.(p_expected) = VNone ∧ p.(p_actual) = VNone.
Definition both_valid (p : token_pair) : Prop :=
  _token_valid ("expected_" +:+ p.(p_label)) p.(p_expected) = true ∧ _token_valid ("expected_" +:+ p.(p_label)) p.(p_actual) = true.

Lemma is_none_true v : is_none v = true ↔ v = VNone.
Proof. by destruct v. Qed.

Lemma check_pair_codes v p c : p ∈ pairs v → c ∈ map err_code (check_pair p) ↔
  ¬ absent p ∧ ((¬ both_valid p ∧ c = "invalid_" +:+ p.(p_label)) ∨
                (both_valid p ∧ p.(p_actual) ≠ p.(p_expected) ∧ c = p.(p_drift))).
Proof.
  intros Hp. unfold check_pair, absent, both_valid. rewrite (same_check v p _ Hp).
  destruct (bool_decide (p_label p = "lease") && is_none (p_expected p) && is_none (p_actual p)) eqn:Ea.
  { apply andb_true_iff in Ea as [[Hl He]%andb_true_iff Hn]. apply bool_decide_eq_true in Hl. apply is_none_true in He, Hn.
    cbn [map]. rewrite elem_of_nil. tauto. }
  assert (¬ (p_label p = "lease" ∧ p_expected p = VNone ∧ p_actual p = VNone)) as Hna.
  { intros (Hl & He & Hn). by rewrite He, Hn, bool_decide_true in Ea. }
  destruct (_token_valid ("expected_" +:+ p_label p) (p_expected p)) eqn:E1, (_token_valid ("expected_" +:+ p_label p) (p_actual p)) eqn:E2; cbn [andb negb].
  - pose proof (token_eqb _ _ _ _ E1 E2) as Heq. destruct (py_eqb (p_expected p) (p_actual p)) eqn:E; cbn [negb map].
    + assert (p_actual p = p_expected p) by (by apply Heq). rewrite elem_of_nil. tauto.
    + assert (p_actual p ≠ p_expected p) by (intros He; by apply Heq in He). rewrite list_elem_of_singleton. cbn [err_code]. tauto.
  - cbn [map]. rewrite list_elem_of_singleton. cbn [err_code]. intuition congruence.
  - cbn [map]. rewrite list_elem_of_singleton. cbn [err_code]. intuition congruence.
  - cbn [map]. rewrite list_elem_of_singleton. cbn [err_code]. intuition congruence.
Qed.

Lemma check_pair_nil v p : p ∈ pairs v → check_pair p = [] ↔ absent p ∨ (both_valid p ∧ p.(p_actual) = p.(p_expected)).
Proof.
  intros Hp. unfold check_pair, absent, both_valid. rewrite (same_check v p _ Hp).
  destruct (bool_decide (p_label p = "lease") && is_none (p_expected p) && is_none (p_actual p)) eqn:Ea.
  { apply andb_true_iff in Ea as [[Hl He]%andb_true_iff Hn]. apply bool_decide_eq_true in Hl. apply is_none_true in He, Hn.
    split; [by left|done]. }
  assert (¬ (p_label p = "lease" ∧ p_expected p = VNone ∧ p_actual p = VNone)) as Hna.
  { intros (Hl & He & Hn). by rewrite He, Hn, bool_decide_true in Ea. }
  destruct (_token_valid ("expected_" +:+ p_label p) (p_expected p)) eqn:E1, (_token_valid ("expected_" +:+ p_label p) (p_actual p)) eqn:E2; cbn [andb negb].
  2-4: split; [done|]; intros [?|[[??]?]]; [done|congruence].
  pose proof (token_eqb _ _ _ _ E1 E2) as Heq. destruct (py_eqb (p_expected p) (p_actual p)) eqn:E; cbn [negb].
  - split; [|done]. intros _. right. split; [done|]. by apply Heq.
  - split; [done|]. intros [?|[_ H]]; [done|]. by apply Heq in H.
Qed.

(** Reconciliation allows work exactly when the expected and the current
    value of every token are well formed and equal, a lease missing on both
    sides counting as equal.  Otherwise it reports every token that fails:
    [invalid_...] when one of its two values is malformed, equal or not, the
    drift code of the token when both are well formed and differ. *)
Theorem reconcile_exact v :
  (allowed (reconcile v) = true ↔ ∀ p, p ∈ pairs v → absent p ∨ (both_valid p ∧ p.(p_actual) = p.(p_expected))) ∧
  (∀ c, c ∈ map err_code (errors (reconcile v)) ↔ ∃ p, p ∈ pairs v ∧ ¬ absent p ∧
     ((¬ both_valid p ∧ c = "invalid_" +:+ p.(p_label)) ∨ (both_valid p ∧ p.(p_actual) ≠ p.(p_expected) ∧ c = p.(p_drift)))).
Proof.
  assert (∀ c, c ∈ map err_code (errors (reconcile v)) ↔ ∃ p, p ∈ pairs v ∧ c ∈ map err_code (check_pair p)) as Hc.
  { intros c. unfold reconcile. cbn [errors]. rewrite list_elem_of_fmap. setoid_rewrite list_elem_of_In. setoid_rewrite in_flat_map.
    setoid_rewrite <- list_elem_of_In. setoid_rewrite list_elem_of_fmap. naive_solver. }
  split.
  - assert (allowed (reconcile v) = true ↔ ∀ c, c ∉ map err_code (errors (reconcile v))) as ->.
    { unfold reconcile. cbn [allowed errors]. generalize (flat_map check_pair (pairs v)).
      intros [|e l]; cbn [map]; [by split; [intros _ c ?%elem_of_nil|]|]. split; [done|]. intros H. destruct (H (err_code e)). by left. }
    setoid_rewrite Hc. split.
    + intros H p Hp. apply (check_pair_nil v p Hp). destruct (check_pair p) as [|x l] eqn:E; [done|].
      destruct (H (err_code x)). exists p. split; [done|]. rewrite E. by left.
    + intros H c (p & Hp & Hin). specialize (H p Hp). apply (check_pair_nil v p Hp) in H. rewrite H in Hin. by apply elem_of_nil in Hin.
  - intros c. rewrite Hc. split; intros (p & Hp & H); exists p; (split; [done|]); by apply (check_pair_codes v).
Qed.

(** *** The same plan, written differently *)

Definition kept (kv : pyval * pyval) : bool := negb (dropped (key_text kv.1)).
Definition distinct (kvs : dict) : Prop := NoDup (map (λ kv, key_text kv.1) kvs).

(** Plans that differ in the order of keys and of set-like collections, in
    aliases, in tuples or read-only mappings for lists and dictionaries, and in
    fields that are dropped, at any depth. *)
Inductive same_plan : pyval → pyval → Prop :=
| PlanRefl v : same_plan v v
| PlanSym v w : same_plan v w → same_plan w v
| PlanTrans u v w : same_plan u v → same_plan v w → same_plan u w
| PlanTuple l : same_plan (VTuple l) (VList l)
| PlanProxy d : same_plan (VProxy d) (VDict d)
| PlanItem l v w r : same_plan v w → same_plan (VList (l ++ v :: r)) (VList (l ++ w :: r))
| PlanKeys d d' : distinct d → d ≡ₚ d' → same_plan (VDict d) (VDict d')
| PlanAlias l k k' v r : nonempty k = true → nonempty k' = true → alias k = alias k' → distinct (l ++ (VStr k, v) :: r) →
    same_plan (VDict (l ++ (VStr k, v) :: r)) (VDict (l ++ (VStr k', v) :: r))
| PlanDropped l k v r : nonempty k = true → dropped (alias k) = true → distinct (l ++ (VStr k, v) :: r) →
    same_plan (VDict (l ++ (VStr k, v) :: r)) (VDict (l ++ r))
| PlanEntry l k v w r : (key_text k ∉ set_like ∨ (is_seq v = false ∧ is_seq w = false)) → distinct (l ++ (k, v) :: r) → same_plan v w →
    same_plan (VDict (l ++ (k, v) :: r)) (VDict (l ++ (k, w) :: r))
| PlanSetOrder l k xs ys r : key_text k ∈ set_like → distinct (l ++ (k, VList xs) :: r) → xs ≡ₚ ys →
    same_plan (VDict (l ++ (k, VList xs) :: r)) (VDict (l ++ (k, VList ys) :: r))
| PlanSetItem l k xs v w ys r : key_text k ∈ set_like → distinct (l ++ (k, VList (xs ++ v :: ys)) :: r) → same_plan v w →
    same_plan (VDict (l ++ (k, VList (xs ++ v :: ys)) :: r)) (VDict (l ++ (k, VList (xs ++ w :: ys)) :: r))
| PlanSetTuple l k xs r : distinct (l ++ (k, VTuple xs) :: r) →
    same_plan (VDict (l ++ (k, VTuple xs) :: r)) (VDict (l ++ (k, VList xs) :: r)).

(** The text a value contributes. *)
Definition plan_text (root : bool) (v : pyval) (s : string) : Prop := ∃ c, _canonical_value root v = Ok c ∧ json_dumps c = Ok s.

Definition sort_list (v : pyval) : pyval := match v with VList l => VList (sort_by dumps_leb l) | _ => v end.
Definition sort_entry (kv : pyval * pyval) : pyval * pyval :=
  (kv.1, if bool_decide (key_str kv ∈ set_like) then sort_list kv.2 else kv.2).

Lemma sort_field_map k d : NoDup (map key_str d) → Forall (λ kv : pyval * pyval, is_str kv.1 = true) d →
  sort_field k d = map (λ kv, (kv.1, if bool_decide (key_str kv = k) then sort_list kv.2 else kv.2)) d.
Proof.
  intros Hn HF. assert (∀ d, (∀ kv, kv ∈ d → key_str kv ≠ k) → map (λ kv, (kv.1, if bool_decide (key_str kv = k) then sort_list kv.2 else kv.2)) d = d) as Hout.
  { clear. intros d Hd. rewrite <- (map_id d) at 2. apply map_ext_in. intros [a b] Hin%list_elem_of_In. rewrite bool_decide_false; [done|]. by apply Hd. }
  induction d as [|[j w] d IH]; [done|]. apply NoDup_cons in Hn as [Hj Hn]. apply Forall_cons in HF as [Hs HF]. cbn in Hs.
  destruct j as [| | | |j| | | | |]; try discriminate. unfold sort_field in *. cbn [dget key_is fst]. cbn in Hj. destruct (decide (j = k)) as [->|Hne].
  - rewrite bool_decide_true by done. cbn [map fst snd]. unfold key_str at 1. cbn [fst]. rewrite bool_decide_true by done. rewrite Hout.
    2:{ intros kv Hin Hk. apply Hj. rewrite <- Hk. apply list_elem_of_fmap. by exists kv. }
    destruct w; try done. cbn. by rewrite bool_decide_true.
  - rewrite bool_decide_false by done. cbn [map fst snd]. unfold key_str at 1. cbn [fst]. rewrite bool_decide_false by done.
    rewrite <- IH by done. destruct (dget k d) as [v|]; [|done]. destruct v; try done. cbn. by rewrite bool_decide_false.
Qed.
Lemma sort_fields d : NoDup (map key_str d) → Forall (λ kv : pyval * pyval, is_str kv.1 = true) d →
  sort_field "dependencies" (sort_field "capabilities" d) = map sort_entry d.
Proof.
  intros Hn HF. rewrite (sort_field_map "dependencies"); [|by rewrite sort_field_keys|].
  - rewrite sort_field_map by done. rewrite map_map. apply map_ext. intros [k v]. unfold sort_entry, key_str, set_like. cbn [fst snd]. f_equal.
    destruct k as [| | | |k| | | | |]; try (by repeat rewrite bool_decide_false by set_solver). destruct (decide (k = "capabilities")) as [->|H1]; [done|].
    destruct (decide (k = "dependencies")) as [->|H2]; [done|]. rewrite !bool_decide_false by set_solver. done.
  - rewrite sort_field_map by done. apply Forall_fmap. eapply Forall_impl; [exact HF|]. done.
Qed.

Definition strict_ok (root : bool) (kvs : dict) : Prop := root = true → "schema_version" ∈ map (λ kv, key_text kv.1) kvs →
  ∀ kv, kv ∈ kvs → kept kv = true → key_text kv.1 ∈ _V2_PLAN_FIELDS.

Definition canonical_item (kv kw : pyval * pyval) : Prop := kw.1 = VStr (key_text kv.1) ∧ _canonical_value false kv.2 = Ok kw.2.

Lemma entries_iff strict kvs d :
  (∃ ls, mapM (canonical_entry strict) (map (λ kv, (key_text kv.1, (kv.2, _canonical_value false kv.2))) kvs) = Ok ls ∧ concat ls = d) ↔
  (strict = true → ∀ kv, kv ∈ kvs → kept kv = true → key_text kv.1 ∈ _V2_PLAN_FIELDS) ∧
  Forall2 canonical_item (filter (λ kv, kept kv = true) kvs) d.
Proof.
  revert d. induction kvs as [|[k v] kvs IH]; intros d; cbn [map].
  - split.
    + intros (ls & [= <-] & <-). split; [by intros _ kv ?%elem_of_nil|constructor].
    + intros [_ H]. inversion H; subst. by exists [].
  - rewrite filter_cons. destruct (kept (k, v)) eqn:Hk; unfold kept in Hk; cbn [fst] in Hk; bool_inv.
    + rewrite decide_True by done. split.
      * intros (ls & Hls & <-). cbn [mapM] in Hls. apply bind_ok in Hls as (l & Hl & Hls). apply bind_ok in Hls as (ls' & Hls & [= <-]).
        apply canonical_entry_ok in Hl as [[Hd _] | (_ & Hf & w & Hw & ->)]; cbn [fst snd] in *; [congruence|].
        destruct (proj1 (IH (concat ls')) (ex_intro _ ls' (conj Hls eq_refl))) as [Hs HF]. split.
        -- intros Hst kv [-> | Hin]%elem_of_cons; [by intros _; apply Hf|by apply Hs].
        -- cbn [concat app]. by constructor.
      * intros [Hs HF]. inversion HF as [|? [j w] ? d' [Hj Hw] HF']; subst. cbn [fst snd] in *. subst j.
        destruct (proj2 (IH d')) as (ls & Hls & Hc); [split; [intros Hst kv Hin; apply Hs; [done|by right]|done]|].
        exists ([(VStr (key_text k), w)] :: ls). split; [|by cbn; rewrite Hc]. cbn [mapM]. apply bind_ok. eexists. split; [|apply bind_ok; by exists ls].
        unfold canonical_entry. rewrite Hk, Hw. destruct strict; cbn [andb]; [|done].
        rewrite bool_decide_true; [done|]. apply (Hs eq_refl (k, v)); [by left|]. unfold kept. cbn [fst]. by rewrite Hk.
    + rewrite decide_False by done. split.
      * intros (ls & Hls & <-). cbn [mapM] in Hls. apply bind_ok in Hls as (l & Hl & Hls). apply bind_ok in Hls as (ls' & Hls & [= <-]).
        apply canonical_entry_ok in Hl as [[_ ->] | (Hd & _)]; cbn [fst snd] in *; [|congruence]. cbn [concat app].
        destruct (proj1 (IH (concat ls')) (ex_intro _ ls' (conj Hls eq_refl))) as [Hs HF]. split; [|done].
        intros Hst kv [-> | Hin]%elem_of_cons Hkept; [unfold kept in Hkept; cbn [fst] in Hkept; by rewrite Hk in Hkept|by apply Hs].
      * intros [Hs HF]. destruct (proj2 (IH d)) as (ls & Hls & Hc); [split; [intros Hst kv Hin; apply Hs; [done|by right]|done]|].
        exists ([] :: ls). split; [|done]. cbn [mapM]. apply bind_ok. exists []. split; [|apply bind_ok; by exists ls].
        unfold canonical_entry. cbn [fst snd]. by rewrite Hk.
Qed.

Lemma kept_keys (kvs d : dict) : Forall2 canonical_item kvs d → map key_str d = map (λ kv, key_text kv.1) kvs ∧ Forall (λ kv, is_str kv.1 = true) d.
Proof. induction 1 as [|[k v] [j w] kvs d [Hj _] HF [IH1 IH2]]; [done|]. cbn in *. subst j. cbn. split; [by rewrite IH1|by constructor]. Qed.

(** The canonical form of a mapping whose keys are distinct. *)
Lemma canonical_dict root kvs w : distinct kvs → _canonical_value root (VDict kvs) = Ok w ↔
  Forall (λ kv, key_ok kv.1 = true) kvs ∧ strict_ok root kvs ∧
  ∃ d, Forall2 canonical_item (filter (λ kv, kept kv = true) kvs) d ∧ w = VDict (map sort_entry d).
Proof.
  intros Hd. set (es := map (λ kv : pyval * pyval, (kv.1, (kv.2, _canonical_value false kv.2))) kvs).
  set (nm := map (λ kv : pyval * pyval, (key_text kv.1, (kv.2, _canonical_value false kv.2))) kvs).
  assert (_canonical_value root (VDict kvs) = (normalized_mapping ← _normalized_aliases fst es;
    let has_schema := match assoc "schema_version" normalized_mapping with Some _ => true | None => false end in
    result ← mapM (canonical_entry (root && has_schema)) normalized_mapping;
    Ok (VDict (sort_field "dependencies" (sort_field "capabilities" (concat result)))))) as -> by done.
  assert (Forall (λ kv, key_ok kv.1 = true) kvs ↔ Forall (λ e, key_ok e.1 = true) es) as Hko by (unfold es; by rewrite Forall_fmap).
  assert (Forall (λ kv, key_ok kv.1 = true) kvs → _normalized_aliases fst es = Ok nm) as Hnm.
  { intros Hk%Hko. rewrite aliases_distinct; [unfold es, nm; by rewrite map_map|done|]. unfold es. by rewrite map_map. }
  set (strict := root && match assoc "schema_version" nm with Some _ => true | None => false end).
  assert (strict_ok root kvs ↔ (strict = true → ∀ kv, kv ∈ kvs → kept kv = true → key_text kv.1 ∈ _V2_PLAN_FIELDS)) as ->.
  { unfold strict_ok, strict. assert (map (λ kv, key_text kv.1) kvs = map fst nm) as -> by (unfold nm; by rewrite map_map).
    destruct (assoc "schema_version" nm) eqn:E.
    - apply assoc_some in E. rewrite andb_true_r. split; [intros H Hr; apply H; [done|]|intros H Hr _; by apply H].
      apply list_elem_of_fmap. eexists. by split; [|exact E].
    - apply assoc_none in E. rewrite andb_false_r. split; [done|]. by intros _ _ ?. }
  assert (∀ d, Forall2 canonical_item (filter (λ kv, kept kv = true) kvs) d →
    sort_field "dependencies" (sort_field "capabilities" d) = map sort_entry d) as Hsf.
  { intros d HF. destruct (kept_keys _ _ HF) as [Hk Hs]. apply sort_fields; [|done]. rewrite Hk.
    eapply sublist_NoDup; [exact Hd|]. apply map_filter_sublist. }
  split.
  - intros (nm' & Hnm' & H)%bind_ok. cbv zeta in H. destruct (aliases_ok _ _ _ Hnm') as (Hk%Hko & _). rewrite (Hnm Hk) in Hnm'.
    apply ok_inj in Hnm'. subst nm'. split; [done|]. fold strict in H. apply bind_ok in H as (ls & Hls & [= <-]).
    destruct (proj1 (entries_iff strict kvs (concat ls)) (ex_intro _ ls (conj Hls eq_refl))) as [Hs HF]. split; [done|].
    exists (concat ls). split; [done|]. by rewrite Hsf.
  - intros (Hk & Hs & d & HF & ->). rewrite (Hnm Hk). cbn [mbind res_bind]. cbv zeta. fold strict.
    destruct (proj2 (entries_iff strict kvs d) (conj Hs HF)) as (ls & Hls & Hc). fold nm in Hls. rewrite Hls. cbn [mbind res_bind].
    by rewrite Hc, Hsf.
Qed.

(** *** Texts of canonical values *)

Definition list_text (ss : list string) : string := "[" +:+ join "," ss +:+ "]".
Definition dict_text (ws : list (string * string)) : string :=
  "{" +:+ join "," (map (λ kw, json_str kw.1 +:+ ":" +:+ kw.2) (sort_by key_leb ws)) +:+ "}".

(** A chain of two pointwise relations, and the middle list. *)
Lemma Forall2_chain {A B C} (R : A → B → Prop) (S : B → C → Prop) l m k : Forall2 R l m → Forall2 S m k → Forall2 (λ a c, ∃ b, R a b ∧ S b c) l k.
Proof. intros H. revert k. induction H; intros k Hk; inversion Hk; subst; constructor; eauto. Qed.
Lemma Forall2_unchain {A B C} (R : A → B → Prop) (S : B → C → Prop) l k : Forall2 (λ a c, ∃ b, R a b ∧ S b c) l k → ∃ m, Forall2 R l m ∧ Forall2 S m k.
Proof.
  induction 1 as [|a c l k (b & Hr & Hs) _ (m & IH1 & IH2)]; [by exists []|]. exists (b :: m). by split; constructor.
Qed.

Lemma dumps_list l s : json_dumps (VList l) = Ok s ↔ ∃ ss, Forall2 (λ v t, json_dumps v = Ok t) l ss ∧ s = list_text ss.
Proof.
  change (json_dumps (VList l)) with (ws ← mapM json_dumps l; Ok (list_text ws) : res json_error string). rewrite bind_ok. setoid_rewrite mapM_res_ok. naive_solver.
Qed.
Lemma dumps_dict d s : json_dumps (VDict d) = Ok s ↔
  ∃ ws, Forall2 (λ kv kw, kv.1 = VStr kw.1 ∧ json_dumps kv.2 = Ok kw.2) d ws ∧ s = dict_text ws.
Proof.
  change (json_dumps (VDict d)) with (ws ← mapM (λ kv, w ← json_dumps kv.2; match kv.1 with VStr k => Ok (k, w) | _ => Err JsonKey end) d;
    Ok (dict_text ws) : res json_error string).
  rewrite bind_ok. setoid_rewrite mapM_res_ok.
  assert (∀ (kv : pyval * pyval) (kw : string * string), (w ← json_dumps kv.2; match kv.1 with VStr k => Ok (k, w) | _ => Err JsonKey end) = Ok kw ↔
    kv.1 = VStr kw.1 ∧ json_dumps kv.2 = Ok kw.2) as He.
  { intros [k v] [j w]. cbn [fst snd]. rewrite bind_ok. destruct k; naive_solver. }
  split; intros (ws & HF & H); exists ws; (split; [|naive_solver]); eapply Forall2_impl; [exact HF|intros kv kw; apply He|exact HF|intros kv kw; apply He].
Qed.

Lemma text_list root l s : plan_text root (VList l) s ↔ ∃ ss, Forall2 (plan_text false) l ss ∧ s = list_text ss.
Proof.
  unfold plan_text. change (_canonical_value root (VList l)) with (l' ← mapM (_canonical_value false) l; Ok (VList l') : cres pyval).
  setoid_rewrite bind_ok. setoid_rewrite mapM_res_ok. split.
  - intros (c & (l' & Hl & [= <-]) & Hs). apply dumps_list in Hs as (ss & HF & ->). exists ss. split; [|done]. by eapply Forall2_chain.
  - intros (ss & HF & ->). apply Forall2_unchain in HF as (l' & H1 & H2). exists (VList l'). split; [by exists l'|]. apply dumps_list. by exists ss.
Qed.

(** A set-like collection contributes the sorted texts of its elements. *)
Definition set_text (v : pyval) (s : string) : Prop := ∃ c, _canonical_value false v = Ok c ∧ json_dumps (sort_list c) = Ok s.

Lemma sort_texts cs ss : Forall2 (λ v t, json_dumps v = Ok t) cs ss →
  Forall2 (λ v t, json_dumps v = Ok t) (sort_by dumps_leb cs) (sort_strings ss).
Proof.
  apply Forall2_sort_by; [|done]. intros x x' y y' Hx Hx'. unfold dumps_leb. by rewrite (dumps_of _ _ Hx), (dumps_of _ _ Hx').
Qed.
Lemma clean_texts cs : Forall (λ v, clean v = true) cs → ∃ ss, Forall2 (λ v t, json_dumps v = Ok t) cs ss.
Proof.
  induction 1 as [|v cs Hv HF [ss IH]]; [by exists []|]. destruct (clean_dumps v Hv) as [s Hs]. exists (s :: ss). by constructor.
Qed.
Lemma text_set l s : set_text (VList l) s ↔ ∃ ss, Forall2 (plan_text false) l ss ∧ s = list_text (sort_strings ss).
Proof.
  unfold set_text, plan_text. change (_canonical_value false (VList l)) with (l' ← mapM (_canonical_value false) l; Ok (VList l') : cres pyval).
  setoid_rewrite bind_ok. setoid_rewrite mapM_res_ok. split.
  - intros (c & (l' & Hl & [= <-]) & Hs). assert (Forall (λ v, clean v = true) l') as Hc.
    { clear -Hl. induction Hl; constructor; [by eapply canonical_value_clean|done]. }
    destruct (clean_texts _ Hc) as [ss HF]. exists ss. split; [by eapply Forall2_chain|].
    assert (json_dumps (sort_list (VList l')) = Ok (list_text (sort_strings ss))) as Hs'.
    { cbn [sort_list]. apply dumps_list. exists (sort_strings ss). split; [by apply sort_texts|done]. }
    congruence.
  - intros (ss & HF & ->). apply Forall2_unchain in HF as (l' & H1 & H2). exists (VList l'). split; [by exists l'|].
    cbn [sort_list]. apply dumps_list. exists (sort_strings ss). split; [by apply sort_texts|done].
Qed.

Lemma text_not_set v s : is_seq v = false → set_text v s ↔ plan_text false v s.
Proof.
  intros Hv. unfold set_text, plan_text. apply exist_proper. intros c.
  assert (_canonical_value false v = Ok c → sort_list c = c) as Hc; [|split; intros [H Ht]; split; [done|by rewrite (Hc H) in Ht|done|by rewrite (Hc H)]].
  destruct v as [| | |f|s'| | |d|d|r]; try discriminate; cbn; intros H; try (apply ok_inj in H as <-; done).
  - destruct (is_finite f); [by apply ok_inj in H as <-|discriminate].
  - apply ok_inj in H as <-. unfold canonical_text. destruct (search _ s'); [done|]. cbv zeta. by destruct (search _ _).
  - apply bind_ok in H as (nm & _ & H). cbv zeta in H. by apply bind_ok in H as (ls & _ & [= <-]).
  - apply bind_ok in H as (nm & _ & H). cbv zeta in H. by apply bind_ok in H as (ls & _ & [= <-]).
Qed.

Definition value_text (key : string) (v : pyval) (s : string) : Prop := if bool_decide (key ∈ set_like) then set_text v s else plan_text false v s.
Definition entry_text (kv : pyval * pyval) (kw : string * string) : Prop := kw.1 = key_text kv.1 ∧ value_text (key_text kv.1) kv.2 kw.2.

Lemma entry_text_iff kv kw : entry_text kv kw ↔ ∃ e, canonical_item kv e ∧ (sort_entry e).1 = VStr kw.1 ∧ json_dumps (sort_entry e).2 = Ok kw.2.
Proof.
  destruct kv as [k v], kw as [j w]. unfold entry_text, canonical_item, value_text, set_text, plan_text. cbn [fst snd]. split.
  - intros [-> H]. case_bool_decide as Hk; destruct H as (c & Hc & Ht); exists (VStr (key_text k), c); unfold sort_entry, key_str; cbn [fst snd].
    + by rewrite bool_decide_true.
    + by rewrite bool_decide_false.
  - intros ([e c] & [He Hc] & H1 & H2). cbn [fst snd] in *. subst e. unfold sort_entry, key_str in *. cbn [fst snd] in *.
    assert (j = key_text k) as -> by congruence. split; [done|]. case_bool_decide; by exists c.
Qed.

Lemma text_dict root kvs s : distinct kvs → plan_text root (VDict kvs) s ↔
  Forall (λ kv, key_ok kv.1 = true) kvs ∧ strict_ok root kvs ∧
  ∃ ws, Forall2 entry_text (filter (λ kv, kept kv = true) kvs) ws ∧ s = dict_text ws.
Proof.
  intros Hd. unfold plan_text. setoid_rewrite (canonical_dict root kvs _ Hd). split.
  - intros (c & (Hk & Hs & d & HF & ->) & Ht). split; [done|]. split; [done|]. apply dumps_dict in Ht as (ws & HF2 & ->). exists ws. split; [|done].
    apply Forall2_fmap_l in HF2. eapply Forall2_impl; [exact (Forall2_chain _ _ _ _ _ HF HF2)|]. intros kv kw H. by apply entry_text_iff.
  - intros (Hk & Hs & ws & HF & ->).
    assert (Forall2 (λ kv kw, ∃ e, canonical_item kv e ∧ ((sort_entry e).1 = VStr kw.1 ∧ json_dumps (sort_entry e).2 = Ok kw.2))
      (filter (λ kv, kept kv = true) kvs) ws) as HF'.
    { eapply Forall2_impl; [exact HF|]. intros kv kw H. by apply entry_text_iff. }
    apply Forall2_unchain in HF' as (d & H1 & H2). exists (VDict (map sort_entry d)). split; [split; [done|]; split; [done|]; by exists d|].
    apply dumps_dict. exists ws. split; [|done]. by apply Forall2_fmap_l.
Qed.

(** *** The text does not depend on how the plan is written *)

Definition version_ok (kvs : dict) : Prop := ∃ kv, kv ∈ kvs ∧ key_text kv.1 = "schema_version" ∧ kv.2 = VStr V2_SCHEMA_VERSION.

Lemma assoc_unique {A} k a (l : list (string * A)) : NoDup (map fst l) → (k, a) ∈ l → assoc k l = Some a.
Proof.
  intros Hn Hin. destruct (assoc k l) as [b|] eqn:E.
  - apply assoc_some in E. pose proof (NoDup_map_inj fst l _ _ Hn E Hin eq_refl). congruence.
  - apply assoc_none in E. destruct E. apply list_elem_of_fmap. by exists (k, a).
Qed.

Lemma canonicalize_dict kvs w : distinct kvs → canonicalize (VDict kvs) = Ok w ↔ version_ok kvs ∧ _canonical_value true (VDict kvs) = Ok w.
Proof.
  intros Hd.
  assert (∀ nm, _normalized_aliases id kvs = Ok nm →
    nm = map (λ kv, (key_text kv.1, kv.2)) kvs ∧ (assoc "schema_version" nm = Some (VStr V2_SCHEMA_VERSION) ↔ version_ok kvs) ∧
    _canonical_value true (VDict (map (λ kv, (VStr kv.1, kv.2)) nm)) = _canonical_value true (VDict kvs)) as Hgo.
  { intros nm Hnm. destruct (aliases_ok _ _ _ Hnm) as (Hk & Hn & _). pose proof (aliases_distinct id kvs Hk Hd) as Hnm'. rewrite Hnm in Hnm'.
    apply ok_inj in Hnm'. split; [done|]. split.
    - split.
      + intros Ha%assoc_some. rewrite Hnm' in Ha. apply list_elem_of_fmap in Ha as ([k v] & [= Hk1 Hv1] & Hin). by exists (k, v).
      + intros ([k v] & Hin & Hk1 & Hv). cbn in Hk1, Hv. subst v. apply assoc_unique; [done|]. rewrite Hnm'. apply list_elem_of_fmap.
        exists (k, VStr V2_SCHEMA_VERSION). cbn. by rewrite Hk1.
    - cbn [_canonical_value]. rewrite map_map. cbn [fst snd]. rewrite (aliases_again id fst (λ x, (x, _canonical_value false x)) _ _ Hnm).
      rewrite (aliases_distinct fst); [|by apply Forall_fmap|by rewrite map_map]. rewrite Hnm', !map_map. done. }
  split.
  - intros H. apply canonicalize_parts in H as (kvs' & nm & [= <-] & Hnm & Hs & H). destruct (Hgo _ Hnm) as (_ & Hv & Hc).
    rewrite <- Hc. split; [by apply Hv|done].
  - intros [Hv H]. pose proof H as H'. apply (canonical_dict true kvs w Hd) in H' as (Hk & _). unfold canonicalize. cbn [entries].
    pose proof (aliases_distinct id kvs Hk Hd) as Hnm. destruct (Hgo _ Hnm) as (_ & Hv' & Hc). rewrite Hnm. cbn [mbind res_bind].
    rewrite (proj2 Hv' Hv). rewrite Hc. done.
Qed.

Lemma bytes_text v s : canonical_json_bytes v = Ok s ↔ ∃ c, canonicalize v = Ok c ∧ json_dumps c = Ok s.
Proof.
  unfold canonical_json_bytes. rewrite bind_ok. split; intros (c & Hc & Hs); exists c; (split; [done|]); destruct (json_dumps c); cbn in *; congruence.
Qed.
Lemma bytes_dict kvs s : distinct kvs → canonical_json_bytes (VDict kvs) = Ok s ↔ version_ok kvs ∧ plan_text true (VDict kvs) s.
Proof.
  intros Hd. rewrite bytes_text. unfold plan_text. setoid_rewrite (canonicalize_dict kvs _ Hd). naive_solver.
Qed.

Definition same_text (v w : pyval) : Prop :=
  (∀ root s, plan_text root v s ↔ plan_text root w s) ∧ (∀ s, canonical_json_bytes v = Ok s ↔ canonical_json_bytes w = Ok s).

(** Dictionaries with the same texts. *)
Lemma same_dict d d' : distinct d → distinct d' → (version_ok d ↔ version_ok d') →
  (∀ root s, plan_text root (VDict d) s ↔ plan_text root (VDict d') s) → same_text (VDict d) (VDict d').
Proof. intros Hd Hd' Hv Ht. split; [done|]. intros s. rewrite !bytes_dict, Hv, Ht by done. done. Qed.

(** One entry written differently. *)
Lemma same_entry l x y r : distinct (l ++ x :: r) → key_text x.1 = key_text y.1 → key_ok x.1 = key_ok y.1 →
  (x.2 = VStr V2_SCHEMA_VERSION ↔ y.2 = VStr V2_SCHEMA_VERSION) →
  (∀ t, value_text (key_text x.1) x.2 t ↔ value_text (key_text x.1) y.2 t) →
  same_text (VDict (l ++ x :: r)) (VDict (l ++ y :: r)).
Proof.
  intros Hd Hk Hko Hv Ht.
  assert (distinct (l ++ y :: r)) as Hd' by (unfold distinct in *; rewrite map_app in *; cbn [map] in *; by rewrite <- Hk).
  assert (∀ P : pyval * pyval → Prop, (P x ↔ P y) → (∀ kv, kv ∈ (l ++ x :: r)%list → P kv) ↔ (∀ kv, kv ∈ (l ++ y :: r)%list → P kv)) as Hall.
  { intros P HP. setoid_rewrite elem_of_app. setoid_rewrite elem_of_cons. naive_solver. }
  apply same_dict; [done|done| |].
  - unfold version_ok. setoid_rewrite elem_of_app. setoid_rewrite elem_of_cons. split; intros (kv & [Hin | [-> | Hin]] & H1 & H2);
      [exists kv; auto|exists y; split; [auto|split; [congruence|by apply Hv]]|exists kv; auto
      |exists kv; auto|exists x; split; [auto|split; [congruence|by apply Hv]]|exists kv; auto].
  - intros root s. rewrite !text_dict by done.
    assert (Forall (λ kv, key_ok kv.1 = true) (l ++ x :: r) ↔ Forall (λ kv, key_ok kv.1 = true) (l ++ y :: r)) as ->.
    { rewrite !Forall_app, !Forall_cons, Hko. done. }
    assert (strict_ok root (l ++ x :: r) ↔ strict_ok root (l ++ y :: r)) as ->.
    { unfold strict_ok. rewrite (Hall (λ kv, kept kv = true → key_text kv.1 ∈ _V2_PLAN_FIELDS)) by (unfold kept; by rewrite Hk).
      rewrite !map_app. cbn [map]. by rewrite Hk. }
    do 2 f_equiv. apply exist_proper. intros ws. f_equiv. rewrite !filter_app, !filter_cons.
    assert (kept x = kept y) as Hkx by (unfold kept; by rewrite Hk). rewrite Hkx. destruct (decide (kept y = true)); [|done].
    assert (∀ kw, entry_text x kw ↔ entry_text y kw) as He by (intros kw; unfold entry_text; by rewrite <- Hk, Ht).
    split; intros (k1 & k2 & H1 & H2 & ->)%Forall2_app_inv_l; inversion H2 as [|? kw ? k3 Hkw H3]; subst;
      (apply Forall2_app; [done|]); (constructor; [|done]); by apply He.
Qed.

Lemma same_plan_str v w : same_plan v w → ∀ s, v = VStr s ↔ w = VStr s.
Proof.
  induction 1 as [v|v w _ IH|u v w _ IH1 _ IH2| | | | | | | | | |]; intros s; try (split; discriminate); [done|by rewrite IH|by rewrite IH1].
Qed.

Lemma perm_dict_text ws ws' : NoDup (map fst ws) → ws ≡ₚ ws' → dict_text ws = dict_text ws'.
Proof. intros Hn Hp. unfold dict_text. by rewrite (perm_sorted_keys ws ws'). Qed.
Lemma plan_entry_keys d ws : Forall2 entry_text d ws → map fst ws = map (λ kv, key_text kv.1) d.
Proof. induction 1 as [|kv kw d ws [Hk _] HF IH]; [done|]. cbn. by rewrite Hk, IH. Qed.

Lemma strict_perm root d d' : d ≡ₚ d' → strict_ok root d → strict_ok root d'.
Proof. intros Hp H Hr Hs kv Hin. apply H; [done| |by rewrite Hp]. by rewrite Hp. Qed.

Lemma text_perm root d d' s : distinct d → d ≡ₚ d' → plan_text root (VDict d) s → plan_text root (VDict d') s.
Proof.
  intros Hd Hp. assert (distinct d') as Hd' by (unfold distinct; by rewrite <- Hp). rewrite !text_dict by done.
  intros (Hk & Hs & ws & HF & ->). split; [by rewrite <- Hp|]. split; [by apply (strict_perm root d)|].
  destruct (Forall2_perm entry_text (filter (λ kv, kept kv = true) d) (filter (λ kv, kept kv = true) d') ws) as (ws' & Hws & HF'); [by rewrite Hp|done|].
  exists ws'. split; [done|]. apply perm_dict_text; [|done]. rewrite (plan_entry_keys _ _ HF). eapply sublist_NoDup; [exact Hd|]. apply map_filter_sublist.
Qed.

Lemma text_dropped root l x r s : distinct (l ++ x :: r) → key_ok x.1 = true → kept x = false →
  plan_text root (VDict (l ++ x :: r)) s ↔ plan_text root (VDict (l ++ r)) s.
Proof.
  intros Hd Hk Hx. assert (distinct (l ++ r)) as Hd'.
  { unfold distinct in *. rewrite map_app in *. cbn [map] in Hd. eapply sublist_NoDup; [exact Hd|]. by apply sublist_app; [|apply sublist_cons]. }
  assert (key_text x.1 ≠ "schema_version") as Hne. { intros He. unfold kept in Hx. rewrite He in Hx. vm_compute in Hx. discriminate. }
  rewrite !text_dict by done.
  assert (Forall (λ kv, key_ok kv.1 = true) (l ++ x :: r) ↔ Forall (λ kv, key_ok kv.1 = true) (l ++ r)) as ->.
  { rewrite !Forall_app, Forall_cons. naive_solver. }
  assert (strict_ok root (l ++ x :: r) ↔ strict_ok root (l ++ r)) as ->.
  { unfold strict_ok. rewrite !map_app. cbn [map]. setoid_rewrite elem_of_app. setoid_rewrite elem_of_cons. split.
    - intros H Hr Hs kv Hin. apply H; [done|naive_solver|naive_solver].
    - intros H Hr Hs kv [Hin | [-> | Hin]] Hkv; [apply H; auto; naive_solver|congruence|apply H; auto; naive_solver]. }
  do 2 f_equiv. apply exist_proper. intros ws. f_equiv. rewrite !filter_app, filter_cons, decide_False by congruence. done.
Qed.

Lemma same_plan_text v w : same_plan v w → same_text v w.
Proof.
  induction 1 as [v|v w _ [IH1 IH2]|u v w _ [IH1 IH2] _ [IH3 IH4]|l|d|l v w r _ [IH _]|d d' Hd Hp|l k k' v r Hk Hk' Ha Hd|l k v r Hk Hdr Hd
    |l k v w r Hk Hd Hs [IH _]|l k xs ys r Hk Hd Hp|l k xs v w ys r Hk Hd _ [IH _]|l k xs r Hd].
  - done.
  - split; intros; symmetry; auto.
  - split; [intros root s; by rewrite IH1|intros s; by rewrite IH2].
  - done.
  - done.
  - split; [|done]. intros root s. rewrite !text_list. apply exist_proper. intros ss. f_equiv.
    split; intros (k1 & k2 & H1 & H2 & ->)%Forall2_app_inv_l; inversion H2 as [|? kw ? k3 Hkw H3]; subst;
      (apply Forall2_app; [done|]); (constructor; [|done]); by apply IH.
  - assert (distinct d') as Hd' by (unfold distinct; by rewrite <- Hp). apply same_dict; [done|done| |].
    + unfold version_ok. by setoid_rewrite Hp.
    + intros root s. by split; apply text_perm.
  - apply same_entry; cbn [fst snd key_text key_ok]; [done|done|by rewrite Hk, Hk'|done|done].
  - apply same_dict; [done| | |].
    + unfold distinct in *. rewrite map_app in *. cbn [map] in Hd. eapply sublist_NoDup; [exact Hd|]. by apply sublist_app; [|apply sublist_cons].
    + unfold version_ok. setoid_rewrite elem_of_app. setoid_rewrite elem_of_cons. split; [|naive_solver].
      intros (kv & [Hin | [-> | Hin]] & H1 & H2); [naive_solver| |naive_solver]. cbn in H1. rewrite H1 in Hdr. vm_compute in Hdr. discriminate.
    + intros root s. apply text_dropped; [done|done|]. unfold kept. cbn. by rewrite Hdr.
  - apply same_entry; cbn [fst snd]; [done|done|done|by apply same_plan_str|]. intros t. unfold value_text.
    destruct Hk as [Hk | [Hv Hw]]; [by rewrite bool_decide_false|]. case_bool_decide; [|done]. by rewrite !text_not_set.
  - apply same_entry; cbn [fst snd]; [done|done|done|done|]. intros t. unfold value_text. rewrite bool_decide_true by done. rewrite !text_set.
    split; intros (ss & HF & ->);
      [destruct (Forall2_perm _ _ _ _ Hp HF) as (ss' & Hps & HF')|destruct (Forall2_perm _ _ _ _ (symmetry Hp) HF) as (ss' & Hps & HF')];
      exists ss'; (split; [done|]); by rewrite (perm_sorted _ _ Hps).
  - apply same_entry; cbn [fst snd]; [done|done|done|done|]. intros t. unfold value_text. rewrite bool_decide_true by done. rewrite !text_set.
    apply exist_proper. intros ss. f_equiv.
    split; intros (k1 & k2 & H1 & H2 & ->)%Forall2_app_inv_l; inversion H2 as [|? kw ? k3 Hkw H3]; subst;
      (apply Forall2_app; [done|]); (constructor; [|done]); by apply IH.
  - apply same_entry; cbn [fst snd]; [done|done|done|done|]. done.
Qed.

(** C12: A plan is what it says, not how it is written: reordering the keys of
    its mappings, the capabilities or the dependencies, using an alias of a
    field, tuples or read-only mappings for lists and dictionaries, and adding,
    changing or removing runtime fields and credentials, at any depth, never
    changes the hash of the plan, nor whether it has one. *)
Theorem plan_identity v w : same_plan v w → ∀ h, plan_hash v = Ok h ↔ plan_hash w = Ok h.
Proof.
  intros H h. destruct (same_plan_text _ _ H) as [_ Hb]. unfold plan_hash. rewrite !fmap_ok. by setoid_rewrite Hb.
Qed.

Definition demo_plan_a : pyval := VDict
  [(VStr "schemaVersion", VStr "pd-fleet-plan:v2"); (VStr "updated_at", VNone); (VStr "capabilities", VList [VStr "b"; VStr "a"]); (VStr "name", VStr "n")].
Definition demo_plan_b : pyval := VDict
  [(VStr "name", VStr "n"); (VStr "schema_version", VStr "pd-fleet-plan:v2"); (VStr "capabilities", VList [VStr "a"; VStr "b"])].
Lemma demo_same_plan : same_plan demo_plan_a demo_plan_b.
Proof.
  eapply PlanTrans. { apply (PlanAlias [] "schemaVersion" "schema_version"); try done. by apply (bool_decide_unpack _); vm_compute. }
  eapply PlanTrans. { apply (PlanDropped [_] "updated_at"); try done. by apply (bool_decide_unpack _); vm_compute. }
  eapply PlanTrans. { apply (PlanSetOrder [_] (VStr "capabilities") _ [VStr "a"; VStr "b"]); [set_solver| |apply Permutation_swap]. by apply (bool_decide_unpack _); vm_compute. }
  apply PlanKeys; [by apply (bool_decide_unpack _); vm_compute|]. cbn. apply (Permutation_app_comm [_; _] [_]).
Qed.
Lemma plan_identity_witness : canonical_json_bytes demo_plan_a = canonical_json_bytes demo_plan_b ∧ is_ok (canonical_json_bytes demo_plan_a) = true ∧
  ∀ h, plan_hash demo_plan_a = Ok h ↔ plan_hash demo_plan_b = Ok h.
Proof. split; [vm_compute; reflexivity|]. split; [vm_compute; reflexivity|]. exact (plan_identity demo_plan_a demo_plan_b demo_same_plan). Defined.

(** *** Canonicalising twice *)

(** Redaction leaves every string of a value as it is. *)
Fixpoint stable (v : pyval) : bool :=
  match v with
  | VStr s => match canonical_text s with VStr t => bool_decide (t = s) | _ => false end
  | VList l => forallb stable l
  | VDict d => forallb (λ kv, stable kv.2) d
  | _ => true
  end.

Inductive settled : pyval → Prop :=
| SettledAtom v : match v with VNone | VBool _ | VInt _ => True | VFloat f => is_finite f = true | _ => False end → settled v
| SettledStr s : canonical_text s = VStr s → settled (VStr s)
| SettledList l : Forall settled l → settled (VList l)
| SettledDict d : Forall (λ kv, clean_key kv.1 = true ∧ settled kv.2 ∧ (key_str kv ∈ set_like → sort_list kv.2 = kv.2)) d →
    NoDup (map key_str d) → settled (VDict d).

Lemma clean_key_ok k : clean_key k = true → key_ok k = true ∧ k = VStr (key_text k) ∧ dropped (key_text k) = false ∧
  ∀ v, key_str (k, v) = key_text k.
Proof.
  destruct k as [| | | |k| | | | |]; try discriminate. cbn. intros [[Hk Hd]%andb_true_iff Ha]%andb_true_iff. bool_inv.
  unfold key_str. cbn [fst]. by rewrite Ha.
Qed.

Lemma settled_fixed v : settled v → ∀ root,
  (root = true → ∀ d, v = VDict d → Forall (λ k, k ∈ _V2_PLAN_FIELDS) (map key_str d)) → _canonical_value root v = Ok v.
Proof.
  induction v as [| | |f|s|l IH|l IH|d IH|d IH|r] using pyval_ind'; intros Hset root Hroot; inversion Hset as [? Ha|? Hs|? Hl|? Hd Hn]; subst; try done; cbn in *.
  - by rewrite Ha.
  - by rewrite Hs.
  - change (mapM (_canonical_value false) l ≫= (λ l', Ok (VList l')) = Ok (VList l) :> cres pyval). apply bind_ok. exists l. split; [|done].
    apply mapM_res_ok. clear -IH Hl. induction l as [|v l IHl]; constructor; apply Forall_cons in IH as [Hv IH], Hl as [Hs Hl]; [by apply Hv|by apply IHl].
  - assert (map (λ kv : pyval * pyval, key_text kv.1) d = map key_str d) as Hkeys.
    { apply map_ext_in. intros [k v] Hin%list_elem_of_In. rewrite Forall_forall in Hd. destruct (Hd _ Hin) as [Hk _].
      symmetry. by apply clean_key_ok. }
    apply (canonical_dict root d (VDict d)); [unfold distinct; by rewrite Hkeys|]. split; [|split].
    + eapply Forall_impl; [exact Hd|]. intros [k v] [Hk _]. by apply clean_key_ok.
    + intros Hr _ kv Hin _. specialize (Hroot Hr d eq_refl). rewrite Forall_forall in Hroot. apply Hroot. rewrite <- Hkeys.
      apply list_elem_of_fmap. by exists kv.
    + exists d. rewrite filter_all.
      2:{ intros [k v] Hin. rewrite Forall_forall in Hd. destruct (Hd _ Hin) as [Hk _]. change (negb (dropped (key_text k)) = true).
          destruct (clean_key_ok k Hk) as (_ & _ & -> & _). done. }
      split.
      * clear -IH Hd. induction d as [|[k v] d IHd]; constructor; apply Forall_cons in IH as [[_ Hv] IH], Hd as [(Hk & Hs & _) Hd]; [|by apply IHd].
        split; cbn [fst snd] in *; [by apply clean_key_ok|]. by apply Hv.
      * f_equal. rewrite <- (map_id d) at 1. apply map_ext_in. intros [k v] Hin%list_elem_of_In. rewrite Forall_forall in Hd.
        destruct (Hd _ Hin) as (_ & _ & Hs). unfold sort_entry. cbn [fst snd] in *. case_bool_decide; [by rewrite Hs|done].
Qed.

Lemma sort_list_idem v : sort_list (sort_list v) = sort_list v.
Proof.
  destruct v; try done. cbn. f_equal. apply sort_by_id, sort_by_sorted; unfold dumps_leb; intros; [apply leb_str_total|by eapply leb_str_trans].
Qed.
Lemma stable_sort_list v : stable (sort_list v) = stable v.
Proof.
  destruct v; try done. cbn. apply eq_bool_prop_intro. rewrite !Is_true_true, !forallb_true_iff. by setoid_rewrite elem_of_sort_by.
Qed.
Lemma settled_sort_list v : settled v → settled (sort_list v).
Proof.
  destruct v; try done. inversion 1; subst; [done|]. cbn [sort_list]. apply SettledList. by rewrite sort_by_perm.
Qed.

Lemma settled_mapping root kvs w :
  (normalized ← _normalized_aliases fst (map (λ kv, (kv.1, (kv.2, _canonical_value false kv.2))) kvs);
   let has_schema := match assoc "schema_version" normalized with Some _ => true | None => false end in
   result ← mapM (canonical_entry (root && has_schema)) normalized;
   Ok (VDict (sort_field "dependencies" (sort_field "capabilities" (concat result))))) = Ok w →
  clean w = true → stable w = true →
  Forall (λ kv : pyval * pyval, ∀ u, _canonical_value false kv.2 = Ok u → stable u = true → settled u) kvs →
  settled w.
Proof.
  intros (nm & Hnm & H)%bind_ok Hc Hst HF. cbv zeta in H. apply bind_ok in H as (ls & Hls & [= <-]).
  apply mapM_res_ok, entries_ok in Hls as (_ & He & _). destruct (aliases_ok _ _ _ Hnm) as (_ & _ & Hin).
  apply clean_dict in Hc as [Hc Hn]. rewrite !sort_field_keys in Hn.
  assert (Forall (λ kv : pyval * pyval, is_str kv.1 = true) (concat ls)) as Hstr.
  { eapply Forall_impl; [exact He|]. by intros kv (e & _ & -> & _). }
  rewrite (sort_fields _ Hn Hstr) in *. apply SettledDict.
  - apply Forall_fmap. rewrite Forall_forall in He. apply Forall_forall. intros [k v] Hkv. destruct (He _ Hkv) as ([key [r n]] & Hen & Hk & _ & _ & Hv).
    rewrite Forall_forall in Hc. destruct (Hc (sort_entry (k, v))) as [Hck _]; [apply list_elem_of_fmap; by exists (k, v)|]. split; [done|].
    cbn [fst snd] in *. subst k n. destruct (Hin _ _ Hen) as (raw & Hraw & _ & _).
    apply list_elem_of_fmap in Hraw as ([k0 v0] & [= -> -> Hv0] & Hkv0). rewrite Forall_forall in HF. specialize (HF _ Hkv0 v (eq_sym Hv0)).
    cbn in Hst. rewrite forallb_true_iff in Hst. specialize (Hst (sort_entry (VStr key, v))).
    unfold compose, sort_entry, key_str in *. cbn [fst snd] in *. case_bool_decide as Hset.
    + rewrite stable_sort_list in Hst. split; [apply settled_sort_list, HF, Hst|intros _; apply sort_list_idem].
      apply list_elem_of_fmap. exists (VStr key, v). cbn [fst snd]. by rewrite bool_decide_true.
    + split; [|done]. apply HF, Hst. apply list_elem_of_fmap. exists (VStr key, v). cbn [fst snd]. by rewrite bool_decide_false.
  - rewrite map_map. rewrite (map_ext _ key_str); [done|]. by intros [k v].
Qed.

Lemma canonical_settled v root w : _canonical_value root v = Ok w → stable w = true → settled w.
Proof.
  revert root w. induction v as [| | |f|s|l IH|l IH|kvs IH|kvs IH|r] using pyval_ind'; intros root w H Hs; pose proof (canonical_value_clean _ _ _ H) as Hc; cbn in H.
  1-3: apply ok_inj in H as <-; by constructor.
  - destruct (is_finite f) eqn:E; [|discriminate]. apply ok_inj in H as <-. by constructor.
  - apply ok_inj in H as <-. destruct (canonical_text s) as [| | | |t| | | | |] eqn:E; unfold canonical_text in E;
      (destruct (search _ s); [discriminate || by constructor|]); cbv zeta in E; (destruct (search _ _); try discriminate; try by constructor).
    cbn in Hs. apply SettledStr. destruct (canonical_text t) as [| | | |t'| | | | |]; try discriminate. bool_inv. by subst.
  - apply bind_ok in H as (l' & Hl & [= <-]). apply SettledList. cbn in Hs. rewrite forallb_true_iff in Hs. apply mapM_res_ok in Hl. clear -IH Hl Hs.
    induction Hl as [|v w l l' Hv Hl IHl]; [done|]. apply Forall_cons in IH as [Hh IH]. constructor; [apply (Hh false); [done|apply Hs; by left]|].
    apply IHl; [done|]. intros x Hx. apply Hs. by right.
  - apply bind_ok in H as (l' & Hl & [= <-]). apply SettledList. cbn in Hs. rewrite forallb_true_iff in Hs. apply mapM_res_ok in Hl. clear -IH Hl Hs.
    induction Hl as [|v w l l' Hv Hl IHl]; [done|]. apply Forall_cons in IH as [Hh IH]. constructor; [apply (Hh false); [done|apply Hs; by left]|].
    apply IHl; [done|]. intros x Hx. apply Hs. by right.
  - apply (settled_mapping root kvs w H Hc Hs). eapply Forall_impl; [exact IH|]. intros kv [_ Hv] u. apply (Hv false).
  - apply (settled_mapping root kvs w H Hc Hs). eapply Forall_impl; [exact IH|]. intros kv [_ Hv] u. apply (Hv false).
  - discriminate.
Qed.

(** Reading a canonical value back from its text only sorts keys. *)
Lemma same_list l l' : Forall2 same_plan l l' → ∀ p, same_plan (VList (p ++ l)) (VList (p ++ l')).
Proof.
  induction 1 as [|v w l l' Hv HF IH]; intros p; [constructor|]. eapply PlanTrans; [by apply PlanItem|].
  specialize (IH (p ++ [w])%list). by rewrite <- !app_assoc in IH.
Qed.
Lemma distinct_value p (k v w : pyval) d : distinct (p ++ (k, v) :: d) → distinct (p ++ (k, w) :: d).
Proof. unfold distinct. by rewrite !map_app. Qed.
Lemma same_set_list l l' k p d : Forall2 same_plan l l' → key_text k ∈ set_like → ∀ pre, distinct (p ++ (k, VList (pre ++ l)) :: d) →
  same_plan (VDict (p ++ (k, VList (pre ++ l)) :: d)) (VDict (p ++ (k, VList (pre ++ l')) :: d)).
Proof.
  intros HF Hk. induction HF as [|v w l l' Hv HF IH]; intros pre Hd; [constructor|]. eapply PlanTrans; [by apply PlanSetItem|].
  specialize (IH (pre ++ [w])%list). rewrite <- !app_assoc in IH. apply IH. by eapply distinct_value.
Qed.
(** Every entry of a dictionary read back. *)
Lemma same_dict_reload d : (∀ k v, (k, v) ∈ d → same_plan v (reload v) ∧ (∀ l, v = VList l → Forall2 same_plan l (map reload l)) ∧
    match v with VTuple _ | VProxy _ => False | _ => True end) →
  ∀ p, distinct (p ++ d)%list → same_plan (VDict (p ++ d)) (VDict (p ++ map (λ kv, (kv.1, reload kv.2)) d)).
Proof.
  induction d as [|[k v] d IH]; intros Hd p Hp; [constructor|]. cbn [map fst snd].
  apply PlanTrans with (VDict (p ++ (k, reload v) :: d)).
  - destruct (Hd k v) as (Hs & Hl & Hv); [by left|]. destruct (is_seq v) eqn:Eq; [|apply PlanEntry; [right; split; [done|]|done|done]].
    + destruct v as [| | | | |l| | | |]; try done. destruct (decide (key_text k ∈ set_like)) as [Hk | Hk]; [|apply PlanEntry; [by left|done|done]].
      apply (same_set_list l (map reload l) k p d (Hl l eq_refl) Hk []). done.
    + by destruct v.
  - specialize (IH (λ k' v' Hin, Hd k' v' (list_elem_of_further _ _ _ Hin)) (p ++ [(k, reload v)])%list). rewrite <- !app_assoc in IH. apply IH.
    by eapply distinct_value.
Qed.

Lemma settled_keys d : Forall (λ kv : pyval * pyval, clean_key kv.1 = true) d → map (λ kv : pyval * pyval, key_text kv.1) d = map key_str d.
Proof.
  intros Hd. apply map_ext_in. intros [k v] Hin%list_elem_of_In. rewrite Forall_forall in Hd. symmetry. apply clean_key_ok. by apply (Hd (k, v)).
Qed.

Lemma settled_reload v : settled v → same_plan v (reload v) ∧ (∀ l, v = VList l → Forall2 same_plan l (map reload l)) ∧
  match v with VTuple _ | VProxy _ => False | _ => True end.
Proof.
  induction v as [| | |f|s|l IH|l IH|d IH|d IH|r] using pyval_ind'; intros Hset; try (split; [constructor|]; by split);
    inversion Hset as [? Ha|? Hs|? Hl|? Hd Hn]; subst; try done.
  - assert (Forall2 same_plan l (map reload l)) as HF.
    { clear Hset. induction l as [|v l IHl]; constructor; apply Forall_cons in IH as [Hv IH], Hl as [Hs Hl]; [by apply Hv|by apply IHl]. }
    split; [by apply (same_list _ _ HF [])|]. split; [by intros l' [= <-]|done].
  - split; [|by split]. rewrite reload_VDict. unfold reload_dict.
    assert (map (λ kv : pyval * pyval, key_text kv.1) d = map key_str d) as Hkeys.
    { apply settled_keys. eapply Forall_impl; [exact Hd|]. by intros kv [? _]. }
    apply PlanTrans with (VDict (map (λ kv, (kv.1, reload kv.2)) d)).
    + apply (same_dict_reload d) with (p := []); [|unfold distinct; cbn [app]; by rewrite Hkeys]. intros k v Hin. rewrite Forall_forall in IH, Hd.
      destruct (Hd _ Hin) as (_ & Hs & _). by apply (IH _ Hin).
    + apply PlanKeys; [|by rewrite sort_by_perm]. unfold distinct. rewrite map_map. cbn [fst]. by rewrite Hkeys.
Qed.

Lemma canonical_again v w : canonicalize v = Ok w → stable w = true → canonicalize w = Ok w ∧ same_plan w (reload w).
Proof.
  intros H Hs. destruct (canonicalize_root _ _ H) as (d & -> & Hc & Hv & Hf). apply canonicalize_parts in H as (kvs & nm & _ & _ & _ & H).
  pose proof (canonical_settled _ _ _ H Hs) as Hset. split; [|by apply settled_reload]. apply clean_dict in Hc as [Hc Hn].
  assert (map (λ kv : pyval * pyval, key_text kv.1) d = map key_str d) as Hkeys.
  { apply settled_keys. eapply Forall_impl; [exact Hc|]. by intros kv [? _]. }
  apply (canonicalize_dict d (VDict d)); [unfold distinct; by rewrite Hkeys|]. split.
  - exists (VStr "schema_version", VStr V2_SCHEMA_VERSION). split; [by apply dget_elem_of|done].
  - apply settled_fixed; [done|]. by intros _ d' [= <-].
Qed.

(** Canonicalising is final when redaction is: if every string of the
    canonical form is left alone by a second redaction, the canonical form is
    its own canonical form, and what is read back from its stored text has the
    hash of the plan.  Redaction is not final in general: a redacted secret
    followed by a slash turns into a path. *)
Theorem canonical_idempotent v w : canonicalize v = Ok w → stable w = true →
  canonicalize w = Ok w ∧ plan_hash (reload w) = plan_hash v ∧ is_ok (plan_hash v) = true.
Proof.
  intros H Hs. destruct (canonical_again v w H Hs) as [Hw Hr]. split; [done|].
  destruct (clean_dumps w) as [text Ht]. { destruct (canonicalize_root _ _ H) as (d & -> & Hc & _). done. }
  assert (canonical_json_bytes v = Ok text) as Hv by (apply bytes_text; by exists w).
  assert (canonical_json_bytes w = Ok text) as Hb by (apply bytes_text; by exists w).
  apply (same_plan_text _ _ Hr) in Hb. unfold plan_hash. by rewrite Hv, Hb.
Qed.
Lemma canonical_idempotent_witness :
  canonicalize (VDict demo_v2_canonical) = Ok (VDict demo_v2_canonical) ∧
  plan_hash (reload (VDict demo_v2_canonical)) = plan_hash (VDict demo_v2_fields) ∧ is_ok (plan_hash (VDict demo_v2_fields)) = true.
Proof. exact (canonical_idempotent (VDict demo_v2_fields) (VDict demo_v2_canonical) demo_v2_ok eq_refl). Defined.

(** A plan whose canonical form has another canonical form. *)
Definition unsettled_plan (text : string) : pyval := VDict [(VStr "schema_version", VStr "pd-fleet-plan:v2"); (VStr "name", VStr text)].
Lemma redaction_not_final :
  canonicalize (unsettled_plan "sk-abcdefgh/def") = Ok (unsettled_plan "[REDACTED]/def") ∧
  canonicalize (unsettled_plan "[REDACTED]/def") = Ok (unsettled_plan "[REDACTED][PATH REDACTED]").
Proof. split; vm_compute; reflexivity. Qed.
