(* ===== verification/Glob.v ===== *)
(** * Shell patterns: [fnmatch.fnmatchcase]

    A pattern is a list of tokens, [*] or a class of characters; brackets are
    read as the standard library reads them ([!] negates, ranges whose ends are
    out of order are empty, a bracket that is never closed is a character). *)

From S2P Require Import Prelude PyStr.

Open Scope string_scope.

Inductive glob_token : Type := GStar | GClass (p : ascii → bool).

(** [s.find(c, k)] *)
Fixpoint find_char (c : ascii) (k : nat) (s : string) : option nat :=
  match s with
  | "" => None
  | String d s' =>
      match k with
      | O => if Ascii.eqb d c then Some O else S <$> find_char c O s'
      | S k' => S <$> find_char c k' s'
      end
  end.

Definition starts (c : ascii) (s : string) : bool := match s with String d _ => Ascii.eqb d c | "" => false end.
Fixpoint last_char (s : string) : option ascii :=
  match s with "" => None | String c "" => Some c | String _ s' => last_char s' end.
Fixpoint init (s : string) : string := match s with "" | String _ "" => "" | String c s' => String c (init s') end.

(** The parts of a bracket between the hyphens that make ranges; [k] is where
    the search for the next hyphen starts. *)
Fixpoint cut_chunks (fuel k : nat) (s : string) : list string :=
  match fuel with
  | O => [s]
  | S fuel' =>
      match find_char "-" k s with
      | None => [s]
      | Some p =>
          match str_drop (S p) s with
          | "" => [str_take p s +:+ "-"]
          | rest => str_take p s :: cut_chunks fuel' 2 rest
          end
      end
  end.

(** Remove the ranges whose ends are out of order. *)
Definition merge_chunk (c : string) (rest : list string) : list string :=
  match rest with
  | d :: rest' =>
      match last_char c, String.get 0 d with
      | Some x, Some y => if (code y <? code x)%nat then (init c +:+ str_drop 1 d) :: rest' else c :: rest
      | _, _ => c :: rest
      end
  | [] => [c]
  end.

(** A hyphen with no chunk before it stands for itself. *)
Fixpoint in_chunks (chunks : list string) (c : ascii) : bool :=
  match chunks with
  | [] => false
  | a :: rest =>
      one_of a c || in_chunks rest c ||
      match rest with
      | b :: _ => match last_char a, String.get 0 b with
                  | Some x, Some y => (code x <=? code c)%nat && (code c <=? code y)%nat
                  | _, _ => Ascii.eqb c "-"
                  end
      | [] => false
      end
  end.

(** The class of the bracket [\[stuff\]]. *)
Definition bracket_class (stuff : string) : ascii → bool :=
  let chunks := if contains stuff "-"
                then foldr merge_chunk [] (cut_chunks (String.length stuff) (if starts "!" stuff then 2 else 1) stuff)
                else [stuff] in
  match chunks with
  | String c first :: rest =>
      if Ascii.eqb c "!" then λ d, negb (in_chunks (first :: rest) d) else in_chunks chunks
  | _ => in_chunks chunks
  end.

(** The index of the bracket that closes [s]. *)
Definition closing (s : string) : option nat :=
  let j := if starts "!" s then 1%nat else 0%nat in
  let j := if starts "]" (str_drop j s) then S j else j in
  find_char "]" j s.

Fixpoint glob_tokens (fuel : nat) (pat : string) : list glob_token :=
  match fuel, pat with
  | S fuel', String c rest =>
      if Ascii.eqb c "*" then GStar :: glob_tokens fuel' rest
      else if Ascii.eqb c "?" then GClass (λ _, true) :: glob_tokens fuel' rest
      else if Ascii.eqb c "[" then
        match closing rest with
        | Some j => GClass (bracket_class (str_take j rest)) :: glob_tokens fuel' (str_drop (S j) rest)
        | None => GClass (λ d, Ascii.eqb d "[") :: glob_tokens fuel' rest
        end
      else GClass (λ d, Ascii.eqb d c) :: glob_tokens fuel' rest
  | _, _ => []
  end.

Fixpoint glob_match (ts : list glob_token) (s : string) : bool :=
  match ts with
  | [] => negb (nonempty s)
  | GClass p :: ts' => match s with String c s' => p c && glob_match ts' s' | "" => false end
  | GStar :: ts' =>
      (fix any (s : string) : bool :=
         glob_match ts' s || match s with String _ s' => any s' | "" => false end) s
  end.

(** [fnmatch.fnmatchcase(name, pat)] *)
Definition fnmatchcase (name pat : string) : bool := glob_match (glob_tokens (String.length pat) pat) name.

Example glob_ex : map (λ p, fnmatchcase "src/a-b.py" p) ["src/*.py"; "*[!a-c].py"; "src/?-[a-c].py"; "src/[a"; "*"; "src/a[*-.]b.py"; "src/a[.-*]b.py"] =
  [true; false; true; false; true; true; false].
Proof. vm_compute. reflexivity. Qed.

(** ** Literal patterns *)

Definition glob_char (c : ascii) : bool := one_of "*?[" c.
Definition literal (s : string) : bool := str_forallb (λ c, negb (glob_char c)) s.

Lemma glob_literal pat fuel name : literal pat = true → (String.length pat ≤ fuel)%nat →
  glob_match (glob_tokens fuel pat) name = bool_decide (name = pat).
Proof.
  revert pat name. induction fuel as [|fuel IH]; intros [|c pat] name Hl Hf; cbn in Hf; try lia; cbn [glob_tokens glob_match].
  1-2: destruct name; [by rewrite bool_decide_true|by rewrite bool_decide_false].
  unfold literal in Hl. cbn [str_forallb] in Hl. apply andb_true_iff in Hl as [Hc Hl]. unfold glob_char, one_of in Hc.
  cbn [str_forallb] in Hc. rewrite negb_involutive in Hc. apply andb_true_iff in Hc as [H1 Hc]. apply andb_true_iff in Hc as [H2 Hc].
  apply andb_true_iff in Hc as [H3 _]. bool_inv. rewrite H1, H2, H3. cbn [glob_match]. destruct name as [|d name]; [by rewrite bool_decide_false|].
  rewrite (IH pat name Hl) by lia. destruct (Ascii.eqb_spec d c) as [->|Hne]; cbn [andb].
  - apply bool_decide_ext. naive_solver.
  - rewrite bool_decide_false; [done|]. congruence.
Qed.
Lemma fnmatch_literal name pat : literal pat = true → fnmatchcase name pat = bool_decide (name = pat).
Proof. intros Hl. by apply glob_literal. Qed.
