(* ===== verification/Contracts.v ===== *)
(** * Agent contracts and reports, V1 (scripts/pd_fleet/contracts.py)

    The retry policy, the contract handed to an agent and the report it gives
    back: the constructors that normalise and check every field
    ([__post_init__]), [from_dict] and [to_dict].  An argument that may be an
    instance of the class already is a sum, [inl] the instance.  Fields of any
    JSON type are values; what a constructor stores is its JSON-safe copy.  Sets
    are outside the model. *)

From S2P Require Import Prelude PyStr PyNum PyVal Regex Redaction Glob Canonical.

Open Scope string_scope.

Definition SCHEMA_VERSION : string := "1".
Definition MAX_RETRY_ATTEMPTS : Z := 100.

Definition refuse {A} (message : string) : cres A := Err (ContractValidationError message).
Definition require (b : bool) (message : string) : cres unit := ensure b (ContractValidationError message).

(** ** Fields *)

Definition _required (data : dict) (name : string) : cres pyval :=
  match dget_or VNone name data with
  | VNone => refuse (u8 "campo obrigatório ausente ou vazio: " +:+ name)
  | VStr s => if blank s then refuse (u8 "campo obrigatório ausente ou vazio: " +:+ name) else Ok (VStr s)
  | v => Ok v
  end.

Definition _text (value : pyval) (name : string) : cres string :=
  match value with
  | VStr s => if blank s then refuse (name +:+ u8 " deve ser uma string não vazia") else Ok (strip s)
  | _ => refuse (name +:+ u8 " deve ser uma string não vazia")
  end.

Definition _texts (value : pyval) (name : string) : cres (list string) :=
  match value with
  | VNone => Ok []
  | VList l | VTuple l => mapM (λ v, _text v name) l
  | _ => refuse (name +:+ " deve ser uma lista")
  end.

Definition json_key (k : pyval) : bool := match k with VStr s => nonempty s | _ => false end.
Fixpoint _json_safe (value : pyval) : cres pyval :=
  match value with
  | VNone | VStr _ | VBool _ | VInt _ => Ok value
  | VFloat f => if is_finite f then Ok value else refuse (u8 "payload contém número não finito")
  | VDict kvs | VProxy kvs =>
      l ← mapM (λ kv, if json_key kv.1 then w ← _json_safe kv.2; Ok (kv.1, w)
                      else refuse (u8 "payload contém chave JSON inválida")) kvs;
      Ok (VDict l)
  | VList l | VTuple l => l' ← mapM _json_safe l; Ok (VList l')
  | VOther _ => refuse (u8 "payload não é JSON-safe")
  end.

Fixpoint _check_secrets (value : pyval) : cres unit :=
  match value with
  | VDict kvs | VProxy kvs =>
      foldM (λ _ kv, if _is_sensitive_label (py_str kv.1) then refuse "credencial proibida no payload" else _check_secrets kv.2) () kvs
  | VList l | VTuple l => foldM (λ _ v, _check_secrets v) () l
  | VStr s =>
      if search _SECRET_VALUE s || search _EXTERNAL_URL s then refuse "segredo ou endpoint externo proibido no payload"
      else require (bool_decide (_redact_sensitive_text s = s)) "credencial proibida no payload"
  | _ => Ok ()
  end.

(** ** Paths *)

Definition backslash : ascii := ascii_of_nat 92.
Definition slashes (p : string) : string := replace_char backslash slash p.
Definition scheme : re := rseq [RChar is_alpha; rstar (RChar (λ c, is_alnum c || one_of "+.-" c)); rchr ":"].
Definition unsafe_path (path : string) : bool :=
  let normalized := slashes path in
  let parts := split_on slash normalized in
  contains path (String (ascii_of_nat 0) "") || startswith normalized "/" || startswith normalized "~" ||
  existsb (λ part, bool_decide (part = "." ∨ part = "..")) parts || existsb (λ part, negb (nonempty part)) (removelast parts).

Definition path_error (name path : string) : cres unit :=
  _ ← require (negb (unsafe_path path)) (name +:+ u8 " contém path inseguro");
  _ ← require (negb (match_prefix scheme (slashes path))) (name +:+ u8 " contém path externo");
  require (negb (_is_sensitive_label (slashes path))) (name +:+ u8 " contém path de credencial").

(** [p.replace("\\", "/").rstrip("/") or "."] *)
Definition trim_path (p : string) : string := rstrip_by (Ascii.eqb slash) (slashes p).
Definition normal_path (p : string) : string := if nonempty (trim_path p) then trim_path p else ".".

Definition _paths (value : pyval) (name : string) : cres (list string) :=
  values ← _texts value name;
  _ ← mapM (path_error name) values;
  Ok (map normal_path values).

(** [re.split(r"[*?\[]", p, maxsplit=1)[0]] *)
Fixpoint before_glob (p : string) : string :=
  match p with
  | "" => ""
  | String c p' => if glob_char c then "" else String c (before_glob p')
  end.
Definition glob_base (p : string) : string := rstrip_by (Ascii.eqb slash) (before_glob p).

Definition everything (p : string) : bool := bool_decide (p ∈ [""; "."; "*"; "**"]).
Definition overlap (left right : string) : bool :=
  let left := trim_path left in
  let right := trim_path right in
  everything left || everything right || fnmatchcase left right || fnmatchcase right left ||
  bool_decide (glob_base left = glob_base right) ||
  startswith (glob_base left) (glob_base right +:+ "/") || startswith (glob_base right) (glob_base left +:+ "/").
Definition _conflicts (allowed forbidden : list string) : bool := existsb (λ a, existsb (overlap a) forbidden) allowed.

(** ** The retry policy *)

Module Retry.

Record RetryPolicy : Type := MkRetry {
  max_attempts : Z;
  backoff_seconds : spec_float;
  retryable_errors : list string }.

Definition attempts_of (v : pyval) : cres Z :=
  match v with
  | VInt z => if (1 <=? z)%Z && (z <=? MAX_RETRY_ATTEMPTS)%Z then Ok z else refuse "max_attempts deve ser inteiro entre 1 e 100"
  | _ => refuse "max_attempts deve ser inteiro entre 1 e 100"
  end.

(** [type(x) in (int, float) and math.isfinite(float(x)) and ok(x)], then [float(x)]. *)
Definition finite_number (ok : pynum → bool) (v : pyval) (message : string) : cres spec_float :=
  match v with
  | VInt z => match float_of_Z z with
              | None => Err ContractOverflowError
              | Some f => if ok (NInt z) then Ok f else refuse message
              end
  | VFloat f => if is_finite f && ok (NFloat f) then Ok f else refuse message
  | _ => refuse message
  end.
Definition backoff_of (v : pyval) : cres spec_float :=
  finite_number (λ x, negb (num_ltb x (NInt 0))) v "backoff_seconds deve ser finito e >= 0".

(** [RetryPolicy(...)] *)
Definition new_retry (attempts backoff errors : pyval) : cres RetryPolicy :=
  a ← attempts_of attempts;
  b ← backoff_of backoff;
  e ← _texts errors "retryable_errors";
  Ok (MkRetry a b e).

Definition default_retry : RetryPolicy := MkRetry 1 (S754_zero false) [].

Definition to_dict (r : RetryPolicy) : dict :=
  [(VStr "max_attempts", VInt r.(max_attempts)); (VStr "backoff_seconds", VFloat r.(backoff_seconds));
   (VStr "retryable_errors", VList (map VStr r.(retryable_errors)))].

Definition from_mapping (value : dict) : cres RetryPolicy :=
  a ← attempts_of (dget_or (VInt 1) "max_attempts" value);
  b ← backoff_of (dget_or (VFloat (S754_zero false)) "backoff_seconds" value);
  e ← _texts (dget_or (dget_or VNone "retry_on" value) "retryable_errors" value) "retryable_errors";
  result ← new_retry (VInt a) (VFloat b) (VList (map VStr e));
  _ ← _check_secrets (VDict (to_dict result));
  Ok result.

Definition from_dict (value : RetryPolicy + pyval) : cres RetryPolicy :=
  match value with
  | inr VNone => Ok default_retry
  | inl r => from_mapping (to_dict r)
  | inr v => match entries v with Some d => from_mapping d | None => refuse "retry_policy deve ser um objeto" end
  end.
End Retry.

(** ** The contract *)

Module Contract.
Import Retry.

Record AgentContract : Type := MkContract {
  task_id : string;
  agent_id : string;
  role : string;
  capabilities : list string;
  context : pyval;
  constraints : pyval;
  allowed_paths : list string;
  forbidden_paths : list string;
  expected_outputs : pyval;
  validation_commands : list string;
  timeout_seconds : spec_float;
  retry_policy : RetryPolicy;
  schema_version : pyval }.

Definition strs (l : list string) : pyval := VList (map VStr l).

(** The dictionary of [to_dict], before its JSON-safe copy is made. *)
Definition fields (c : AgentContract) : dict :=
  [(VStr "schema_version", c.(schema_version)); (VStr "task_id", VStr c.(task_id)); (VStr "agent_id", VStr c.(agent_id));
   (VStr "role", VStr c.(role)); (VStr "capabilities", strs c.(capabilities)); (VStr "context", c.(context));
   (VStr "constraints", c.(constraints)); (VStr "allowed_paths", strs c.(allowed_paths));
   (VStr "forbidden_paths", strs c.(forbidden_paths)); (VStr "expected_outputs", c.(expected_outputs));
   (VStr "validation_commands", strs c.(validation_commands)); (VStr "timeout_seconds", VFloat c.(timeout_seconds));
   (VStr "retry_policy", VDict (to_dict c.(retry_policy)))].
Definition to_dict (c : AgentContract) : cres pyval := _json_safe (VDict (fields c)).

Definition timeout_of (v : pyval) : cres spec_float :=
  finite_number (λ x, num_ltb (NInt 0) x) v "timeout_seconds deve ser finito e > 0".

(** [AgentContract(...)] *)
Definition new_contract (task_id agent_id role capabilities context constraints allowed_paths forbidden_paths expected_outputs
    validation_commands timeout_seconds : pyval) (retry_policy : RetryPolicy + pyval) (schema_version : pyval) : cres AgentContract :=
  task_id ← _text task_id "task_id";
  agent_id ← _text agent_id "agent_id";
  role ← _text role "role";
  capabilities ← _texts capabilities "capabilities";
  allowed_paths ← _paths allowed_paths "allowed_paths";
  forbidden_paths ← _paths forbidden_paths "forbidden_paths";
  _ ← require (negb (_conflicts allowed_paths forbidden_paths)) "allowed_paths e forbidden_paths entram em conflito";
  timeout_seconds ← timeout_of timeout_seconds;
  retry_policy ← from_dict retry_policy;
  let payload := VDict [(VStr "context", context); (VStr "constraints", constraints); (VStr "expected_outputs", expected_outputs);
                        (VStr "validation_commands", validation_commands)] in
  _ ← _json_safe payload;
  _ ← _check_secrets payload;
  context ← _json_safe context;
  constraints ← _json_safe constraints;
  expected_outputs ← _json_safe expected_outputs;
  validation_commands ← _texts validation_commands "validation_commands";
  let c := MkContract task_id agent_id role capabilities context constraints allowed_paths forbidden_paths expected_outputs
             validation_commands timeout_seconds retry_policy schema_version in
  d ← to_dict c;
  _ ← _check_secrets d;
  _ ← require (py_eqb schema_version (VStr SCHEMA_VERSION)) (u8 "schema_version não suportada");
  Ok c.

Definition REQUIRED : list string := ["task_id"; "agent_id"; "role"].

Definition from_mapping (value : dict) : cres AgentContract :=
  _ ← mapM (_required value) REQUIRED;
  let get k := dget_or VNone k value in
  retry ← Retry.from_dict (inr (get "retry_policy"));
  new_contract (get "task_id") (get "agent_id") (get "role") (dget_or (VList []) "capabilities" value) (dget_or (VDict []) "context" value)
    (dget_or (VDict []) "constraints" value) (dget_or (VList []) "allowed_paths" value) (dget_or (VList []) "forbidden_paths" value)
    (dget_or (VList []) "expected_outputs" value) (dget_or (VList []) "validation_commands" value) (dget_or (VInt 300) "timeout_seconds" value)
    (inl retry) (dget_or (VStr SCHEMA_VERSION) "schema_version" value).

Definition from_dict (value : AgentContract + pyval) : cres AgentContract :=
  match value with
  | inl c => d ← to_dict c; match entries d with Some kvs => from_mapping kvs | None => refuse "contract deve ser um objeto" end
  | inr v => match entries v with Some kvs => from_mapping kvs | None => refuse "contract deve ser um objeto" end
  end.

Definition to_json (c : AgentContract) : cres string :=
  d ← to_dict c; map_err (λ _, ContractValidationError (u8 "contract não pode ser serializado como JSON")) (json_dumps d).
End Contract.

(** ** The report *)

(** Whether a value contains at least one meaningful scalar leaf. *)
Fixpoint _meaningful (v : pyval) : bool :=
  match v with
  | VNone => false
  | VBool b => b
  | VInt z => negb (z =? 0)%Z
  | VFloat f => match f with S754_zero _ => false | _ => true end
  | VStr s => negb (blank s)
  | VDict kvs | VProxy kvs => existsb (λ kv, _meaningful kv.2) kvs
  | VList l | VTuple l => existsb _meaningful l
  | VOther _ => true
  end.

Module Report.

Record AgentReport : Type := MkReport {
  task_id : string;
  agent_id : string;
  status : string;
  outputs : pyval;
  evidence : pyval;
  tests : pyval;
  blockers : pyval;
  assumptions : pyval;
  decisions : pyval;
  timestamps : pyval;
  error : option string;
  schema_version : pyval }.

Definition STATUSES : list string := ["pending"; "running"; "completed"; "failed"; "blocked"; "skipped"].

Definition payload_of (outputs evidence tests blockers assumptions decisions timestamps : pyval) : pyval :=
  VDict [(VStr "outputs", outputs); (VStr "evidence", evidence); (VStr "tests", tests); (VStr "blockers", blockers);
         (VStr "assumptions", assumptions); (VStr "decisions", decisions); (VStr "timestamps", timestamps)].

(** [AgentReport(...)] *)
Definition new_report (task_id agent_id status outputs evidence tests blockers assumptions decisions timestamps error schema_version : pyval) : cres AgentReport :=
  task_id ← _text task_id "task_id";
  agent_id ← _text agent_id "agent_id";
  status ← lower <$> _text status "status";
  _ ← require (bool_decide (status ∈ STATUSES)) (u8 "status inválido");
  _ ← require (negb (bool_decide (status = "completed")) || _meaningful evidence) "completed exige evidence meaningful";
  let payload := payload_of outputs evidence tests blockers assumptions decisions timestamps in
  _ ← _json_safe payload;
  _ ← _check_secrets payload;
  outputs ← _json_safe outputs;
  evidence ← _json_safe evidence;
  tests ← _json_safe tests;
  blockers ← _json_safe blockers;
  assumptions ← _json_safe assumptions;
  decisions ← _json_safe decisions;
  timestamps ← _json_safe timestamps;
  let error := match error with VNone => None | e => Some (_sanitize_error e) end in
  _ ← require (py_eqb schema_version (VStr SCHEMA_VERSION)) (u8 "schema_version não suportada");
  Ok (MkReport task_id agent_id status outputs evidence tests blockers assumptions decisions timestamps error schema_version).

Definition opt_str (o : option string) : pyval := match o with Some s => VStr s | None => VNone end.
Definition fields (r : AgentReport) : dict :=
  [(VStr "schema_version", r.(schema_version)); (VStr "task_id", VStr r.(task_id)); (VStr "agent_id", VStr r.(agent_id));
   (VStr "status", VStr r.(status)); (VStr "outputs", r.(outputs)); (VStr "evidence", r.(evidence)); (VStr "tests", r.(tests));
   (VStr "blockers", r.(blockers)); (VStr "assumptions", r.(assumptions)); (VStr "decisions", r.(decisions));
   (VStr "timestamps", r.(timestamps)); (VStr "error", opt_str r.(error))].
Definition to_dict (r : AgentReport) : cres pyval := _json_safe (VDict (fields r)).

Definition from_mapping (value : dict) : cres AgentReport :=
  _ ← mapM (_required value) ["task_id"; "agent_id"; "status"];
  let get k d := dget_or d k value in
  new_report (get "task_id" VNone) (get "agent_id" VNone) (get "status" VNone) (get "outputs" (VDict [])) (get "evidence" (VList []))
    (get "tests" (VList [])) (get "blockers" (VList [])) (get "assumptions" (VList [])) (get "decisions" (VList []))
    (get "timestamps" (VDict [])) (get "error" VNone) (get "schema_version" (VStr SCHEMA_VERSION)).

Definition from_dict (value : AgentReport + pyval) : cres AgentReport :=
  match value with
  | inl r => d ← to_dict r; match entries d with Some kvs => from_mapping kvs | None => refuse "report deve ser um objeto" end
  | inr v => match entries v with Some kvs => from_mapping kvs | None => refuse "report deve ser um objeto" end
  end.

Definition to_json (r : AgentReport) : cres string :=
  d ← to_dict r; map_err (λ _, ContractValidationError (u8 "report não pode ser serializado como JSON")) (json_dumps d).
End Report.

(** ** Lemmas *)

Lemma require_ok b m (u : unit) : require b m = Ok u ↔ b = true.
Proof. apply ensure_ok. Qed.
Lemma require_true m : require true m = Ok ().
Proof. done. Qed.

(** *** JSON-safe copies *)

Lemma json_safe_list l w : _json_safe (VList l) = Ok w ↔ ∃ l', Forall2 (λ v u, _json_safe v = Ok u) l l' ∧ w = VList l'.
Proof.
  change (_json_safe (VList l)) with (l' ← mapM _json_safe l; Ok (VList l') : cres pyval). rewrite bind_ok. setoid_rewrite mapM_res_ok. naive_solver.
Qed.
Definition safe_entry (kv kw : pyval * pyval) : Prop := json_key kv.1 = true ∧ kw.1 = kv.1 ∧ _json_safe kv.2 = Ok kw.2.
Lemma json_safe_dict d w : _json_safe (VDict d) = Ok w ↔ ∃ d', Forall2 safe_entry d d' ∧ w = VDict d'.
Proof.
  change (_json_safe (VDict d)) with (l ← mapM (λ kv, if json_key kv.1 then w ← _json_safe kv.2; Ok (kv.1, w)
    else refuse (u8 "payload contém chave JSON inválida")) d; Ok (VDict l) : cres pyval). rewrite bind_ok. setoid_rewrite mapM_res_ok.
  assert (∀ kv kw : pyval * pyval, (if json_key kv.1 then w ← _json_safe kv.2; Ok (kv.1, w) else refuse (u8 "payload contém chave JSON inválida")) = Ok kw
    ↔ safe_entry kv kw) as He.
  { intros [k v] [j u]. unfold safe_entry. cbn [fst snd]. destruct (json_key k); [|naive_solver]. rewrite bind_ok. naive_solver. }
  split; intros (d' & HF & H); exists d'; (split; [|naive_solver]); (eapply Forall2_impl; [exact HF|]); intros kv kw; apply He.
Qed.

(** A copy is its own copy, and holds the same secrets. *)
Fixpoint secret_free (v : pyval) : bool :=
  match v with
  | VStr s => negb (search _SECRET_VALUE s || search _EXTERNAL_URL s) && bool_decide (_redact_sensitive_text s = s)
  | VList l | VTuple l => forallb secret_free l
  | VDict d | VProxy d => forallb (λ kv, negb (_is_sensitive_label (py_str kv.1)) && secret_free kv.2) d
  | _ => true
  end.

Lemma copy_list l w : Forall (λ v, ∀ w, _json_safe v = Ok w → _json_safe w = Ok w ∧ secret_free w = secret_free v) l →
  _json_safe (VList l) = Ok w → _json_safe w = Ok w ∧ secret_free w = forallb secret_free l.
Proof.
  intros IH (l' & HF & ->)%json_safe_list. rewrite json_safe_list.
  assert (Forall2 (λ v u, _json_safe v = Ok u) l' l' ∧ forallb secret_free l' = forallb secret_free l) as [H1 H2]; [|split; [by exists l'|done]].
  induction HF as [|v w l l' Hv HF IHl]; [by split|]. apply Forall_cons in IH as [Hh IH]. destruct (IHl IH) as [H1 H2], (Hh w Hv) as [H3 H4].
  split; [by constructor|]. cbn. by rewrite H2, H4.
Qed.
Lemma copy_dict d w : Forall (λ kv : pyval * pyval, ∀ w, _json_safe kv.2 = Ok w → _json_safe w = Ok w ∧ secret_free w = secret_free kv.2) d →
  _json_safe (VDict d) = Ok w → _json_safe w = Ok w ∧ secret_free w = secret_free (VDict d).
Proof.
  intros IH (d' & HF & ->)%json_safe_dict. rewrite json_safe_dict.
  assert (Forall2 safe_entry d' d' ∧ secret_free (VDict d') = secret_free (VDict d)) as [H1 H2]; [|split; [by exists d'|done]].
  induction HF as [|[k v] [j w] d d' (Hk & Hj & Hv) HF IHl]; [by split|]. apply Forall_cons in IH as [Hh IH]. cbn [fst snd] in *. subst j.
  destruct (IHl IH) as [H1 H2], (Hh w Hv) as [H3 H4]. split; [by constructor|]. cbn in H2 |- *. by rewrite H2, H4.
Qed.
Lemma json_safe_copy v w : _json_safe v = Ok w → _json_safe w = Ok w ∧ secret_free w = secret_free v.
Proof.
  revert w. induction v as [| | |f|s|l IH|l IH|d IH|d IH|r] using pyval_ind'; intros w H; try (apply ok_inj in H as <-; done); try discriminate.
  - cbn in H. destruct (is_finite f) eqn:E; [|discriminate]. apply ok_inj in H as <-. cbn. by rewrite E.
  - by apply copy_list.
  - by apply copy_list.
  - apply copy_dict; [|done]. eapply Forall_impl; [exact IH|]. by intros kv [_ ?].
  - apply (copy_dict d); [|done]. eapply Forall_impl; [exact IH|]. by intros kv [_ ?].
Qed.

Lemma foldM_unit {E A} (f : A → res E unit) l u : foldM (λ _ x, f x) () l = Ok u ↔ Forall (λ x, f x = Ok ()) l.
Proof.
  destruct u. induction l as [|x l IH]; cbn [foldM]; [split; [constructor|done]|]. rewrite bind_ok, Forall_cons, <- IH.
  split; [intros ([] & ? & ?); done|intros [? ?]; by exists ()].
Qed.
Lemma check_secrets_ok v u : _check_secrets v = Ok u ↔ secret_free v = true.
Proof.
  destruct u. induction v as [| | |f|s|l IH|l IH|d IH|d IH|r] using pyval_ind'; try done.
  - cbn [_check_secrets secret_free]. destruct (search _SECRET_VALUE s || search _EXTERNAL_URL s); cbn [negb andb]; [done|]. apply require_ok.
  - change (_check_secrets (VList l)) with (foldM (λ (_ : unit) v, _check_secrets v) () l). rewrite foldM_unit. cbn. rewrite forallb_true_iff.
    rewrite Forall_forall in *. split; intros H x Hx; apply IH; auto.
  - change (_check_secrets (VTuple l)) with (foldM (λ (_ : unit) v, _check_secrets v) () l). rewrite foldM_unit. cbn. rewrite forallb_true_iff.
    rewrite Forall_forall in *. split; intros H x Hx; apply IH; auto.
  - change (_check_secrets (VDict d)) with (foldM (λ (_ : unit) kv, if _is_sensitive_label (py_str kv.1) then refuse "credencial proibida no payload" else _check_secrets kv.2) () d).
    rewrite foldM_unit. cbn [secret_free]. rewrite forallb_true_iff. rewrite Forall_forall in *. split; intros H x Hx; specialize (H x Hx); specialize (IH x Hx) as [_ Hv];
      destruct (_is_sensitive_label (py_str x.1)); try done; by apply Hv.
  - change (_check_secrets (VProxy d)) with (foldM (λ (_ : unit) kv, if _is_sensitive_label (py_str kv.1) then refuse "credencial proibida no payload" else _check_secrets kv.2) () d).
    rewrite foldM_unit. cbn [secret_free]. rewrite forallb_true_iff. rewrite Forall_forall in *. split; intros H x Hx; specialize (H x Hx); specialize (IH x Hx) as [_ Hv];
      destruct (_is_sensitive_label (py_str x.1)); try done; by apply Hv.
Qed.

(** *** Texts *)

Definition tidy (s : string) : Prop := blank s = false ∧ strip s = s.
Lemma text_ok v name s : _text v name = Ok s → ∃ t, v = VStr t ∧ s = strip t ∧ tidy s.
Proof.
  destruct v as [| | | |t| | | | |]; try discriminate. cbn [_text]. destruct (blank t) eqn:E; [discriminate|]. intros [= <-]. exists t.
  split; [done|]. split; [done|]. split; [by rewrite blank_strip|apply strip_idem].
Qed.
Lemma text_tidy s name : tidy s → _text (VStr s) name = Ok s.
Proof. intros [Hb Hs]. cbn [_text]. by rewrite Hb, Hs. Qed.
Lemma texts_ok v name l : _texts v name = Ok l → Forall tidy l.
Proof.
  intros H. assert (∃ vs, mapM (λ v, _text v name) vs = Ok l) as [vs Hvs].
  { destruct v; try discriminate; [|by eexists|by eexists]. by exists []. }
  apply mapM_res_ok in Hvs. clear H. induction Hvs as [|v' s vs l Hv HF IH]; [done|]. constructor; [|done]. by destruct (text_ok _ _ _ Hv) as (_ & _ & _ & ?).
Qed.
Lemma texts_tidy l name : Forall tidy l → _texts (VList (map VStr l)) name = Ok l.
Proof. intros H. cbn [_texts]. apply mapM_res_ok, Forall2_fmap_l. induction H; constructor; [by apply text_tidy|done]. Qed.

(** *** Paths *)

Lemma slashes_app a b : slashes (a +:+ b) = slashes a +:+ slashes b.
Proof. apply str_map_app. Qed.
Lemma slashes_idem s : slashes (slashes s) = slashes s.
Proof.
  induction s as [|c s IH]; [done|]. unfold slashes, replace_char in *. cbn [str_map]. rewrite IH. f_equal.
  by destruct (code c =? code backslash)%nat eqn:E; [|rewrite E].
Qed.
Lemma no_nul_slashes s : contains s (String (ascii_of_nat 0) "") = false → contains (slashes s) (String (ascii_of_nat 0) "") = false.
Proof.
  rewrite !contains_char. unfold str_existsb. rewrite !negb_false_iff. induction s as [|c s IH]; [done|]. unfold slashes, replace_char in *.
  cbn [str_map str_forallb]. rewrite !andb_true_iff. intros [Hc Hs]. split; [|by apply IH]. by destruct (code c =? code backslash)%nat.
Qed.
Lemma no_nul_app a b : contains (a +:+ b) (String (ascii_of_nat 0) "") = false → contains a (String (ascii_of_nat 0) "") = false.
Proof. rewrite !contains_char. unfold str_existsb. rewrite !negb_false_iff, str_forallb_app, andb_true_iff. by intros [? _]. Qed.

(** What is left of a path after its slashes are trimmed, and one that [_paths]
    accepts ends in one slash at most. *)
Lemma parts_unsafe p n : existsb (λ part, negb (nonempty part)) (removelast (split_on slash (p +:+ char_repeat (S (S n)) slash))) = true.
Proof.
  cbn [char_repeat]. rewrite split_on_app_slash. change (String slash (char_repeat n slash)) with ("" +:+ String slash (char_repeat n slash)).
  rewrite split_on_app_slash. pose proof (split_on_nonempty slash (char_repeat n slash)) as Hne.
  rewrite removelast_app by done. apply existsb_true_iff. exists "". split; [|done]. apply elem_of_app. right.
  change (split_on slash "") with [""]. cbn [app]. by destruct (split_on slash (char_repeat n slash)); [|left].
Qed.
Lemma trim_shape q : existsb (λ part, negb (nonempty part)) (removelast (split_on slash (slashes q))) = false →
  slashes q = trim_path q ∨ slashes q = trim_path q +:+ "/".
Proof.
  intros Hu. destruct (rstrip_eqb slash (slashes q)) as [[|[|n]] Hn]; fold (trim_path q) in Hn.
  - left. by rewrite Hn, app_nil_str at 1.
  - right. by rewrite Hn at 1.
  - rewrite Hn, parts_unsafe in Hu. discriminate.
Qed.

Lemma unsafe_false p : unsafe_path p = false ↔
  contains p (String (ascii_of_nat 0) "") = false ∧ startswith (slashes p) "/" = false ∧ startswith (slashes p) "~" = false ∧
  (∀ part, part ∈ split_on slash (slashes p) → part ≠ "." ∧ part ≠ "..") ∧
  existsb (λ part, negb (nonempty part)) (removelast (split_on slash (slashes p))) = false.
Proof.
  assert ((∀ part, part ∈ split_on slash (slashes p) → part ≠ "." ∧ part ≠ "..") ↔
    existsb (λ part, bool_decide (part = "." ∨ part = "..")) (split_on slash (slashes p)) = false) as ->; [|unfold unsafe_path; cbv zeta; rewrite !orb_false_iff; naive_solver].
  rewrite existsb_false_iff. split; intros H part Hp; specialize (H part Hp); [apply bool_decide_eq_false; naive_solver|apply bool_decide_eq_false in H; naive_solver].
Qed.

Lemma removelast_in {A} (x : A) l : x ∈ removelast l → x ∈ l.
Proof.
  induction l as [|y l IH]; [done|]. cbn. destruct l; [by intros ?%elem_of_nil|]. intros [-> | H]%elem_of_cons; [by left|right; by apply IH].
Qed.
(** A path that [_paths] stores passes it again, as it is. *)
Lemma path_again name q : path_error name q = Ok () → tidy q → strip (normal_path q) = normal_path q →
  path_error name (normal_path q) = Ok () ∧ normal_path (normal_path q) = normal_path q ∧ tidy (normal_path q) ∧ slashes (normal_path q) = normal_path q.
Proof.
  intros H [Hb Hs] Hp. unfold path_error in H. apply bind_ok in H as (u & H1%require_ok & H). apply bind_ok in H as (u' & H2%require_ok & H3%require_ok).
  apply negb_true_iff in H1, H2, H3. apply unsafe_false in H1 as (Hnul & Hroot & Hhome & Hdots & Hempty).
  set (t := trim_path q). assert (t ≠ "") as Ht.
  { intros E. destruct (trim_shape q Hempty) as [Hq | Hq]; fold t in Hq; rewrite E in Hq.
    - destruct q; [by rewrite strip_nil in *|discriminate].
    - by rewrite Hq in Hroot. }
  assert (normal_path q = t) as Hn by (unfold normal_path; fold t; by destruct t). rewrite Hn in *.
  assert (slashes t = t) as Hst.
  { pose proof (slashes_idem q) as Hi. destruct (trim_shape q Hempty) as [Hq | Hq]; fold t in Hq; rewrite Hq in Hi; [done|].
    rewrite slashes_app in Hi. apply app_str_inj in Hi as [Hi _]; [done|]. apply length_str_map. }
  assert (trim_path t = t) as Htt by (unfold trim_path; rewrite Hst; unfold t, trim_path; apply rstrip_by_idem).
  assert (tidy t) as Htidy. { split; [|done]. unfold blank. rewrite Hp. by destruct t. }
  split; [|split; [by unfold normal_path; rewrite Htt; destruct t|done]]. unfold path_error. rewrite Hst.
  assert (unsafe_path t = false ∧ match_prefix scheme t = false ∧ _is_sensitive_label t = false) as (-> & -> & ->); [|done].
  apply no_nul_slashes in Hnul. destruct (trim_shape q Hempty) as [Hq | Hq]; fold t in Hq; rewrite Hq in *.
  - split; [|by split]. apply unsafe_false. rewrite Hst. done.
  - change "/" with (String slash "") in *. split; [|split].
    + apply unsafe_false. rewrite Hst. rewrite split_on_app_slash in Hdots, Hempty. split; [by apply no_nul_app in Hnul|].
      rewrite startswith_head in Hroot, Hhome by done. do 2 (split; [done|]). split; [intros part Hpart; apply Hdots, elem_of_app; by left|].
      rewrite removelast_app in Hempty by done. change (split_on slash "") with [""] in Hempty. cbn [removelast] in Hempty. rewrite app_nil_r in Hempty.
      apply existsb_false_iff. rewrite existsb_false_iff in Hempty. intros part Hpart. apply Hempty. by apply removelast_in.
    + by rewrite match_prefix_blind in H2 by (by repeat split).
    + by rewrite label_slash in H3.
Qed.

Lemma paths_ok v name l : _paths v name = Ok l → ∃ qs, l = map normal_path qs ∧ Forall (λ q, tidy q ∧ path_error name q = Ok ()) qs.
Proof.
  unfold _paths. intros (qs & Hq & H)%bind_ok. apply bind_ok in H as (us & Hu & [= <-]). exists qs. split; [done|].
  apply texts_ok in Hq. apply mapM_res_ok in Hu. clear -Hq Hu. induction Hu as [|q [] qs us Hu HF IH]; [done|].
  apply Forall_cons in Hq as [Hq Hqs]. constructor; [done|by apply IH].
Qed.
Lemma paths_again v name l : _paths v name = Ok l → Forall (λ p, strip p = p) l → _paths (VList (map VStr l)) name = Ok l.
Proof.
  intros (qs & -> & HF)%paths_ok Hs. unfold _paths.
  assert (Forall (λ p, path_error name p = Ok () ∧ normal_path p = p ∧ tidy p) (map normal_path qs)) as Hall.
  { apply Forall_fmap in Hs. apply Forall_fmap. rewrite Forall_forall in *. intros q Hq. destruct (HF q Hq) as [Ht He].
    by destruct (path_again name q He Ht (Hs q Hq)) as (? & ? & ? & _). }
  generalize dependent (map normal_path qs). clear. intros l _ Hall. rewrite texts_tidy by (eapply Forall_impl; [exact Hall|by intros p (_ & _ & ?)]). cbn [mbind res_bind].
  assert (mapM (path_error name) l = Ok (map (λ _, ()) l)) as ->.
  { apply mapM_res_ok. induction Hall as [|p l [Hp _] _ IH]; constructor; [done|exact IH]. }
  cbn [mbind res_bind]. f_equal. rewrite <- (map_id l) at 2. apply map_ext_in. intros p Hp%list_elem_of_In. rewrite Forall_forall in Hall. by apply Hall.
Qed.

(** *** Dictionaries whose keys are known *)

Lemma secret_known keys d : map fst d = map VStr keys → forallb (λ k, negb (_is_sensitive_label k)) keys = true →
  secret_free (VDict d) = forallb (λ kv, secret_free kv.2) d.
Proof.
  cbn [secret_free]. revert keys. induction d as [|[k v] d IH]; intros [|key keys] Hk Hs; try done. injection Hk as -> Hk.
  cbn [forallb] in Hs |- *. apply andb_true_iff in Hs as [Hs1 Hs]. cbn [fst snd py_str]. rewrite Hs1, (IH keys Hk Hs). done.
Qed.
Lemma safe_known keys d : map fst d = map VStr keys → forallb nonempty keys = true → Forall (λ kv : pyval * pyval, _json_safe kv.2 = Ok kv.2) d →
  _json_safe (VDict d) = Ok (VDict d).
Proof.
  intros Hk Hn HF. apply json_safe_dict. exists d. split; [|done]. revert keys Hk Hn. induction HF as [|[k v] d Hv HF IH]; intros [|key keys] Hk Hn; try done.
  injection Hk as -> Hk. cbn in Hn. apply andb_true_iff in Hn as [Hn1 Hn]. constructor; [by split; [|split]|by apply (IH keys)].
Qed.
Lemma safe_strs l : _json_safe (VList (map VStr l)) = Ok (VList (map VStr l)).
Proof. apply json_safe_list. exists (map VStr l). split; [|done]. induction l; by constructor. Qed.

(** *** The retry policy *)

Section retry.
Import Retry.

Definition backoff_ok (f : spec_float) : Prop := backoff_of (VFloat f) = Ok f.
Record retry_ok (r : RetryPolicy) : Prop := {
  ro_attempts : (1 <= max_attempts r <= MAX_RETRY_ATTEMPTS)%Z;
  ro_backoff : is_finite (backoff_seconds r) = true ∧ num_ltb (NFloat (backoff_seconds r)) (NInt 0) = false;
  ro_errors : Forall tidy (retryable_errors r);
  ro_secrets : secret_free (VDict (to_dict r)) = true }.

Lemma attempts_ok v z : attempts_of v = Ok z → (1 <= z <= MAX_RETRY_ATTEMPTS)%Z.
Proof. destruct v; try discriminate. cbn [attempts_of]. destruct ((1 <=? z0)%Z && (z0 <=? MAX_RETRY_ATTEMPTS)%Z) eqn:E; [|discriminate]. intros [= <-]. bool_inv. lia. Qed.
Lemma attempts_again z : (1 <= z <= MAX_RETRY_ATTEMPTS)%Z → attempts_of (VInt z) = Ok z.
Proof. intros [H1 H2]. cbn [attempts_of]. by rewrite (proj2 (Z.leb_le _ _) H1), (proj2 (Z.leb_le _ _) H2). Qed.

Lemma finite_again ok f message : is_finite f = true → ok (NFloat f) = true → finite_number ok (VFloat f) message = Ok f.
Proof. intros Hf Ho. cbn [finite_number]. by rewrite Hf, Ho. Qed.
Lemma backoff_fine v f : backoff_of v = Ok f → is_finite f = true ∧ num_ltb (NFloat f) (NInt 0) = false.
Proof.
  unfold backoff_of, finite_number. destruct v as [| |z|f'| | | | | |]; try discriminate.
  - destruct (float_of_Z z) as [f'|] eqn:E; [|discriminate]. destruct (negb _) eqn:Hn; [|discriminate]. intros [= <-]. bool_inv. rewrite num_ltb_int in Hn. bool_inv.
    by destruct (float_of_Z_sign z f' Hn E) as (? & ? & _).
  - destruct (is_finite f') eqn:E; [|discriminate]. cbn [andb]. destruct (negb _) eqn:Hn; [|discriminate]. intros [= <-]. by bool_inv.
Qed.
Lemma backoff_again f : is_finite f = true → num_ltb (NFloat f) (NInt 0) = false → backoff_of (VFloat f) = Ok f.
Proof. intros H1 H2. apply finite_again; [done|]. by rewrite H2. Qed.

Lemma mapping_ok d r : from_mapping d = Ok r → retry_ok r.
Proof.
  unfold from_mapping. intros (a & Ha & H)%bind_ok. apply bind_ok in H as (b & Hb & H). apply bind_ok in H as (e & He & H).
  apply bind_ok in H as (r' & Hr & H). apply bind_ok in H as (u & Hs & [= <-]).
  unfold new_retry in Hr. apply bind_ok in Hr as (a' & Ha' & Hr). apply bind_ok in Hr as (b' & Hb' & Hr). apply bind_ok in Hr as (e' & He' & [= <-]).
  constructor; [exact (attempts_ok _ _ Ha')|exact (backoff_fine _ _ Hb')|exact (texts_ok _ _ _ He')|exact (proj1 (check_secrets_ok _ _) Hs)].
Qed.
Lemma retry_of_ok v r : from_dict v = Ok r → retry_ok r.
Proof.
  destruct v as [r'|v]; [apply mapping_ok|]. cbn [from_dict]. destruct v; try (intros H; discriminate || by apply mapping_ok in H).
  intros [= <-]. constructor; cbn; [unfold MAX_RETRY_ATTEMPTS; lia|done|done|vm_compute; reflexivity].
Qed.
Lemma retry_again r : retry_ok r → from_mapping (to_dict r) = Ok r.
Proof.
  intros [Ha [Hb1 Hb2] He Hs]. unfold from_mapping. change (dget_or (VInt 1) "max_attempts" (to_dict r)) with (VInt (max_attempts r)).
  change (dget_or (VFloat (S754_zero false)) "backoff_seconds" (to_dict r)) with (VFloat (backoff_seconds r)).
  change (dget_or (dget_or VNone "retry_on" (to_dict r)) "retryable_errors" (to_dict r)) with (VList (map VStr (retryable_errors r))).
  rewrite attempts_again, backoff_again, texts_tidy by done. cbn [mbind res_bind]. unfold new_retry. rewrite attempts_again, backoff_again, texts_tidy by done.
  cbn [mbind res_bind]. destruct r as [a b e]. cbn [max_attempts backoff_seconds retryable_errors]. by rewrite (proj2 (check_secrets_ok _ ()) Hs).
Qed.
End retry.

(** *** The contract *)

Section contract.
Import Contract.

Record contract_ok (c : AgentContract) : Prop := {
  co_ids : tidy (task_id c) ∧ tidy (agent_id c) ∧ tidy (role c);
  co_capabilities : Forall tidy (capabilities c);
  co_allowed : ∃ v, _paths v "allowed_paths" = Ok (allowed_paths c);
  co_forbidden : ∃ v, _paths v "forbidden_paths" = Ok (forbidden_paths c);
  co_conflicts : _conflicts (allowed_paths c) (forbidden_paths c) = false;
  co_timeout : is_finite (timeout_seconds c) = true ∧ num_ltb (NInt 0) (NFloat (timeout_seconds c)) = true;
  co_retry : retry_ok (retry_policy c);
  co_json : _json_safe (context c) = Ok (context c) ∧ _json_safe (constraints c) = Ok (constraints c) ∧
    _json_safe (expected_outputs c) = Ok (expected_outputs c);
  co_commands : Forall tidy (validation_commands c);
  co_schema : schema_version c = VStr SCHEMA_VERSION;
  co_secrets : secret_free (VDict (fields c)) = true }.

Definition contract_keys : list string :=
  ["schema_version"; "task_id"; "agent_id"; "role"; "capabilities"; "context"; "constraints"; "allowed_paths"; "forbidden_paths";
   "expected_outputs"; "validation_commands"; "timeout_seconds"; "retry_policy"].
Lemma contract_keys_plain : forallb (λ k, negb (_is_sensitive_label k)) contract_keys = true.
Proof. vm_compute. reflexivity. Qed.
Lemma payload_keys_plain : forallb (λ k, negb (_is_sensitive_label k)) ["context"; "constraints"; "expected_outputs"; "validation_commands"] = true.
Proof. vm_compute. reflexivity. Qed.

Lemma timeout_fine v f : timeout_of v = Ok f → is_finite f = true ∧ num_ltb (NInt 0) (NFloat f) = true.
Proof.
  unfold timeout_of, Retry.finite_number. destruct v as [| |z|f'| | | | | |]; try discriminate.
  - destruct (float_of_Z z) as [f'|] eqn:E; [|discriminate]. destruct (num_ltb _ _) eqn:Hn; [|discriminate]. intros [= <-]. rewrite num_ltb_int in Hn. bool_inv.
    destruct (float_of_Z_sign z f' (Z.lt_le_incl _ _ Hn) E) as (? & _ & Hp). split; [done|by apply Hp].
  - destruct (is_finite f') eqn:E; [|discriminate]. cbn [andb]. destruct (num_ltb _ _) eqn:Hn; [|discriminate]. by intros [= <-].
Qed.

Lemma version_eq v : py_eqb v (VStr SCHEMA_VERSION) = true → v = VStr SCHEMA_VERSION.
Proof. destruct v; try discriminate. cbn. intros H. bool_inv. by subst. Qed.

Lemma to_dict_ok c : retry_ok (retry_policy c) → is_finite (timeout_seconds c) = true → _json_safe (context c) = Ok (context c) →
  _json_safe (constraints c) = Ok (constraints c) → _json_safe (expected_outputs c) = Ok (expected_outputs c) → _json_safe (schema_version c) = Ok (schema_version c) →
  to_dict c = Ok (VDict (fields c)).
Proof.
  intros Hr Hf H1 H2 H3 H4. unfold to_dict. apply (safe_known contract_keys); [done|done|].
  repeat constructor; cbn [snd]; try done; try (by apply safe_strs).
  - cbn. by rewrite Hf.
  - apply (safe_known ["max_attempts"; "backoff_seconds"; "retryable_errors"]); [done|done|]. destruct Hr as [_ [Hb _] _ _].
    repeat constructor; cbn [snd]; [|by apply safe_strs]. cbn. by rewrite Hb.
Qed.

Lemma new_contract_ok a1 a2 a3 a4 a5 a6 a7 a8 a9 a10 a11 a12 a13 c :
  new_contract a1 a2 a3 a4 a5 a6 a7 a8 a9 a10 a11 a12 a13 = Ok c → contract_ok c.
Proof.
  unfold new_contract. intros (tid & Ht & H)%bind_ok. apply bind_ok in H as (aid & Ha & H). apply bind_ok in H as (ro & Hr & H).
  apply bind_ok in H as (caps & Hc & H). apply bind_ok in H as (al & Hal & H). apply bind_ok in H as (fo & Hfo & H).
  apply bind_ok in H as (u1 & Hconf%require_ok & H). apply negb_true_iff in Hconf. apply bind_ok in H as (tm & Htm & H).
  apply bind_ok in H as (rp & Hrp & H). apply bind_ok in H as (w0 & _ & H). apply bind_ok in H as (u2 & _ & H).
  apply bind_ok in H as (cx & Hcx & H). apply bind_ok in H as (cs & Hcs & H). apply bind_ok in H as (eo & Heo & H).
  apply bind_ok in H as (vc & Hvc & H). cbv zeta in H. apply bind_ok in H as (d & Hd & H). apply bind_ok in H as (u3 & Hs & H).
  apply bind_ok in H as (u4 & Hv%require_ok & [= <-]). apply version_eq in Hv. subst a13.
  apply text_ok in Ht as (_ & _ & _ & Ht). apply text_ok in Ha as (_ & _ & _ & Ha). apply text_ok in Hr as (_ & _ & _ & Hr).
  apply timeout_fine in Htm. apply retry_of_ok in Hrp. apply json_safe_copy in Hcx as [Hcx _], Hcs as [Hcs _], Heo as [Heo _].
  rewrite to_dict_ok in Hd by (done || by destruct Htm). apply ok_inj in Hd. subst d. apply check_secrets_ok in Hs.
  constructor; [exact (conj Ht (conj Ha Hr))|exact (texts_ok _ _ _ Hc)|exact (ex_intro _ _ Hal)|exact (ex_intro _ _ Hfo)|exact Hconf|exact Htm
    |exact Hrp|exact (conj Hcx (conj Hcs Heo))|exact (texts_ok _ _ _ Hvc)|exact eq_refl|exact Hs].
Qed.
End contract.

(** ** Properties *)

Section contract_properties.
Import Contract.

(** A contract that some arguments make. *)
Inductive made : AgentContract → Prop :=
| Made a1 a2 a3 a4 a5 a6 a7 a8 a9 a10 a11 a12 a13 c : new_contract a1 a2 a3 a4 a5 a6 a7 a8 a9 a10 a11 a12 a13 = Ok c → made c.
Lemma made_ok c : made c → contract_ok c.
Proof. destruct 1. by eapply new_contract_ok. Qed.

Lemma made_dict c : made c → to_dict c = Ok (VDict (fields c)).
Proof.
  intros [Hi Hca _ _ _ [Ht _] Hr (H1 & H2 & H3) Hcm Hs _]%made_ok. rewrite to_dict_ok; [reflexivity|assumption..|]. by rewrite Hs.
Qed.

Lemma required_tidy d k s : dget_or VNone k d = VStr s → tidy s → _required d k = Ok (VStr s).
Proof. intros Hg [Hb _]. unfold _required. by rewrite Hg, Hb. Qed.

Lemma contract_again c : contract_ok c → Forall (λ p, strip p = p) (allowed_paths c) → Forall (λ p, strip p = p) (forbidden_paths c) →
  to_dict c = Ok (VDict (fields c)) → from_mapping (fields c) = Ok c.
Proof.
  intros [(Ht & Ha & Hr) Hca [v1 Hal] [v2 Hfo] Hcf [Htm1 Htm2] Hrp (Hcx & Hcs & Heo) Hvc Hsv Hsec] Hpa Hpf Hd.
  unfold from_mapping. cbn [mapM REQUIRED].
  rewrite (required_tidy (fields c) "task_id" (task_id c) eq_refl Ht), (required_tidy (fields c) "agent_id" (agent_id c) eq_refl Ha),
    (required_tidy (fields c) "role" (role c) eq_refl Hr).
  cbn [mbind res_bind mret res_ret]. cbv zeta.
  change (dget_or VNone "retry_policy" (fields c)) with (VDict (Retry.to_dict (retry_policy c))). cbn [Retry.from_dict entries].
  rewrite (retry_again _ Hrp). cbn [mbind res_bind].
  change (dget_or VNone "task_id" (fields c)) with (VStr (task_id c)). change (dget_or VNone "agent_id" (fields c)) with (VStr (agent_id c)).
  change (dget_or VNone "role" (fields c)) with (VStr (role c)). change (dget_or (VList []) "capabilities" (fields c)) with (strs (capabilities c)).
  change (dget_or (VDict []) "context" (fields c)) with (context c). change (dget_or (VDict []) "constraints" (fields c)) with (constraints c).
  change (dget_or (VList []) "allowed_paths" (fields c)) with (strs (allowed_paths c)).
  change (dget_or (VList []) "forbidden_paths" (fields c)) with (strs (forbidden_paths c)).
  change (dget_or (VList []) "expected_outputs" (fields c)) with (expected_outputs c).
  change (dget_or (VList []) "validation_commands" (fields c)) with (strs (validation_commands c)).
  change (dget_or (VInt 300) "timeout_seconds" (fields c)) with (VFloat (timeout_seconds c)).
  change (dget_or (VStr SCHEMA_VERSION) "schema_version" (fields c)) with (schema_version c).
  unfold new_contract. rewrite !text_tidy by assumption. cbn [mbind res_bind]. unfold strs. rewrite texts_tidy by assumption. cbn [mbind res_bind].
  rewrite (paths_again _ _ _ Hal Hpa). cbn [mbind res_bind]. rewrite (paths_again _ _ _ Hfo Hpf). cbn [mbind res_bind].
  rewrite Hcf. cbn [negb]. rewrite require_true. cbn [mbind res_bind].
  assert (timeout_of (VFloat (timeout_seconds c)) = Ok (timeout_seconds c)) as -> by (by apply (finite_again _ _ _ Htm1 Htm2)). cbn [mbind res_bind].
  cbn [Retry.from_dict]. rewrite (retry_again _ Hrp). cbn [mbind res_bind]. cbv zeta.
  set (payload := VDict [(VStr "context", context c); (VStr "constraints", constraints c); (VStr "expected_outputs", expected_outputs c);
                         (VStr "validation_commands", VList (map VStr (validation_commands c)))]).
  assert (_json_safe payload = Ok payload) as ->.
  { apply (safe_known ["context"; "constraints"; "expected_outputs"; "validation_commands"]); [done|done|]. repeat constructor; cbn [snd]; [assumption..|apply safe_strs]. }
  cbn [mbind res_bind]. rewrite (secret_known contract_keys (fields c) eq_refl contract_keys_plain) in Hsec. pose proof Hsec as Hsec'. cbn [forallb fields snd strs] in Hsec.
  rewrite !andb_true_iff in Hsec. destruct Hsec as (_ & _ & _ & _ & _ & Hs1 & Hs2 & _ & _ & Hs3 & Hs4 & _).
  assert (_check_secrets payload = Ok ()) as ->.
  { apply check_secrets_ok. unfold payload; rewrite (secret_known ["context"; "constraints"; "expected_outputs"; "validation_commands"]
      [(VStr "context", context c); (VStr "constraints", constraints c); (VStr "expected_outputs", expected_outputs c);
       (VStr "validation_commands", VList (map VStr (validation_commands c)))] eq_refl payload_keys_plain). unfold strs in Hs4. cbn [forallb snd]. by rewrite Hs1, Hs2, Hs3, Hs4. }
  cbn [mbind res_bind]. rewrite Hcx, Hcs, Heo. cbn [mbind res_bind]. rewrite texts_tidy by assumption. cbn [mbind res_bind]. cbv zeta.
  assert (MkContract (task_id c) (agent_id c) (role c) (capabilities c) (context c) (constraints c) (allowed_paths c) (forbidden_paths c)
    (expected_outputs c) (validation_commands c) (timeout_seconds c) (retry_policy c) (schema_version c) = c) as -> by (by destruct c).
  rewrite Hd. cbn [mbind res_bind]. assert (_check_secrets (VDict (fields c)) = Ok ()) as ->.
  { apply check_secrets_ok. by rewrite (secret_known contract_keys (fields c) eq_refl contract_keys_plain). }
  cbn [mbind res_bind]. by rewrite Hsv.
Qed.

(** A contract survives its own dictionary: if no stored path ends in white
    space, reading back the dictionary of an accepted contract gives the same
    contract, and so does copying it.  (A path given as "a /" is stored as "a "
    and read back as "a", where it may conflict with a forbidden path.) *)
Theorem contract_roundtrip c : made c → Forall (λ p, strip p = p) (allowed_paths c) → Forall (λ p, strip p = p) (forbidden_paths c) →
  from_dict (inr (VDict (fields c))) = Ok c ∧ from_dict (inl c) = Ok c.
Proof.
  intros H Ha Hf. pose proof (made_dict c H) as Hd. pose proof (contract_again c (made_ok c H) Ha Hf Hd) as Hc.
  split; [exact Hc|]. unfold from_dict. rewrite Hd. exact Hc.
Qed.
End contract_properties.

(** *** Conflicts of literal paths *)

Lemma rstrip_forallb q p s : str_forallb q s = true → str_forallb q (rstrip_by p s) = true.
Proof.
  induction s as [|c s IH]; [done|]. cbn. intros [Hc Hs]%andb_true_iff. specialize (IH Hs).
  destruct (rstrip_by p s) eqn:E; [destruct (p c); cbn; by rewrite ?Hc|]. cbn in *. by rewrite Hc.
Qed.
Lemma before_literal p : literal p = true → before_glob p = p.
Proof.
  unfold literal. induction p as [|c p IH]; [done|]. cbn [str_forallb before_glob]. intros [Hc Hp]%andb_true_iff. apply negb_true_iff in Hc.
  by rewrite Hc, IH.
Qed.
Lemma trim_literal p : literal p = true → literal (trim_path p) = true.
Proof.
  intros H. apply rstrip_forallb. unfold slashes, replace_char, literal in *. induction p as [|c p IH]; [done|]. cbn [str_map str_forallb] in *.
  apply andb_true_iff in H as [Hc Hp]. rewrite (IH Hp), andb_true_r. destruct (Nat.eqb_spec (code c) (code backslash)) as [E|]; [done|exact Hc].
Qed.

(** Two paths overlap: one covers everything, or the components of one are the
    first components of the other. *)
Definition nested (a b : string) : Prop :=
  a ∈ [""; "."] ∨ b ∈ [""; "."] ∨ split_on slash a `prefix_of` split_on slash b ∨ split_on slash b `prefix_of` split_on slash a.

Lemma everything_literal p : literal p = true → everything p = true ↔ p ∈ [""; "."].
Proof.
  intros Hp. unfold everything. rewrite bool_decide_eq_true. split; [|set_solver].
  rewrite !elem_of_cons. intros [-> | [-> | [-> | [-> | []%elem_of_nil]]]]; [by left|by right; left|discriminate..].
Qed.
Lemma overlap_literal a b : literal a = true → literal b = true → overlap a b = true ↔ nested (trim_path a) (trim_path b).
Proof.
  intros Ha%trim_literal Hb%trim_literal. unfold overlap, nested. cbv zeta.
  assert (∀ p, literal (trim_path p) = true → glob_base (trim_path p) = trim_path p) as Hg.
  { intros p Hp. unfold glob_base. rewrite before_literal by done. unfold trim_path. apply rstrip_by_idem. }
  rewrite !Hg, !fnmatch_literal by done. rewrite !orb_true_iff, !everything_literal, !bool_decide_eq_true, !components_prefix by done.
  assert (trim_path b = trim_path a ↔ trim_path a = trim_path b) as -> by (by split). tauto.
Qed.

(** For paths without wildcards, the conflict check is containment of
    directories: allowed and forbidden paths conflict exactly when some allowed
    and some forbidden path overlap, component by component: never because the
    name of one merely starts with the name of the other. *)
Theorem conflicts_literal allowed forbidden : Forall (λ p, literal p = true) allowed → Forall (λ p, literal p = true) forbidden →
  _conflicts allowed forbidden = true ↔ ∃ a f, a ∈ allowed ∧ f ∈ forbidden ∧ nested (trim_path a) (trim_path f).
Proof.
  rewrite !Forall_forall. intros Ha Hf. unfold _conflicts. rewrite existsb_true_iff. setoid_rewrite existsb_true_iff. split.
  - intros (a & Hin & f & Hinf & H). exists a, f. do 2 (split; [done|]). by apply overlap_literal; [apply Ha|apply Hf|].
  - intros (a & f & Hin & Hinf & H). exists a. split; [done|]. exists f. split; [done|]. by apply overlap_literal; [apply Ha|apply Hf|].
Qed.
Lemma conflicts_literal_witness :
  _conflicts ["src/app"; "docs"] ["src/application"] = false ∧ _conflicts ["src"; "docs/a/"] ["docs"] = true ∧
  (_conflicts ["src/app"; "docs"] ["src/application"] = true ↔
    ∃ a f, a ∈ ["src/app"; "docs"] ∧ f ∈ ["src/application"] ∧ nested (trim_path a) (trim_path f)).
Proof.
  split; [vm_compute; reflexivity|]. split; [vm_compute; reflexivity|].
  apply (conflicts_literal ["src/app"; "docs"] ["src/application"]); repeat constructor.
Defined.

(** *** The paths of a contract *)

Section paths.
Open Scope string_scope.

(** A path below the root of the work tree: no empty, [.] or [..] component, so
    that it is neither absolute nor leaves the tree, no home, no NUL. *)
Definition relative (p : string) : Prop :=
  contains p (String (ascii_of_nat 0) "") = false ∧ startswith p "~" = false ∧ ∀ part, part ∈ split_on slash p → part ∉ [""; "."; ".."].

Lemma split_last t : rstrip_by (Ascii.eqb slash) t = t → t ≠ "" → last (split_on slash t) ≠ Some "".
Proof.
  induction t as [|c t IH]; [done|]. intros Hr _. cbn [rstrip_by] in Hr. destruct t as [|d t].
  - cbn in Hr. destruct (Ascii.eqb_spec slash c) as [<- | Hne]; [done|]. rewrite split_on_cons_ne by done. done.
  - assert (rstrip_by (Ascii.eqb slash) (String d t) = String d t) as Ht.
    { destruct (rstrip_by (Ascii.eqb slash) (String d t)) eqn:E; [by destruct (Ascii.eqb slash c)|by injection Hr as -> ->]. }
    specialize (IH Ht ltac:(done)). destruct (decide (c = slash)) as [-> | Hne].
    + rewrite split_on_cons_eq. pose proof (split_on_nonempty slash (String d t)). by destruct (split_on slash (String d t)).
    + rewrite split_on_cons_ne by done. destruct (split_on slash (String d t)) as [|w [|v ws]]; [done..|]. done.
Qed.
Lemma parts_nonempty (l : list string) : existsb (λ part, negb (nonempty part)) (removelast l) = false → last l ≠ Some "" → ∀ part, part ∈ l → part ≠ "".
Proof.
  rewrite existsb_false_iff. intros H Hl part Hin ->. induction l as [|x l IH]; [by apply elem_of_nil in Hin|]. destruct l as [|y l].
  - apply list_elem_of_singleton in Hin as <-. done.
  - apply elem_of_cons in Hin as [<- | Hin]; [by specialize (H "" ltac:(by left))|]. apply IH; [|done..].
    intros part' Hp. apply H. cbn [removelast]. by right.
Qed.
Lemma path_shape name q : path_error name q = Ok () → tidy q → relative (normal_path q) ∧ trim_path (normal_path q) = normal_path q.
Proof.
  intros H [Hb Hs]. unfold path_error in H. apply bind_ok in H as (u & H1%require_ok & _). apply negb_true_iff, unsafe_false in H1 as (Hnul & Hroot & Hhome & Hdots & Hempty).
  set (t := trim_path q). assert (t ≠ "") as Ht.
  { intros E. destruct (trim_shape q Hempty) as [Hq | Hq]; fold t in Hq; rewrite E in Hq.
    - destruct q; [by rewrite strip_nil in *|discriminate].
    - by rewrite Hq in Hroot. }
  assert (normal_path q = t) as -> by (unfold normal_path; fold t; by destruct t).
  assert (slashes t = t) as Hst.
  { pose proof (slashes_idem q) as Hi. destruct (trim_shape q Hempty) as [Hq | Hq]; fold t in Hq; rewrite Hq in Hi; [done|].
    rewrite slashes_app in Hi. apply app_str_inj in Hi as [Hi _]; [done|]. apply length_str_map. }
  assert (rstrip_by (Ascii.eqb slash) t = t) as Htr by apply rstrip_by_idem.
  split; [|unfold trim_path; by rewrite Hst]. apply no_nul_slashes in Hnul.
  assert (contains t (String (ascii_of_nat 0) "") = false ∧ startswith t "~" = false ∧ (∀ part, part ∈ split_on slash t → part ≠ "." ∧ part ≠ "..") ∧
    existsb (λ part, negb (nonempty part)) (removelast (split_on slash t)) = false) as (G1 & G2 & G3 & G4).
  { destruct (trim_shape q Hempty) as [Hq | Hq]; fold t in Hq; rewrite Hq in *; [done|]. change "/" with (String slash "") in *.
    split; [by apply no_nul_app in Hnul|]. split; [by rewrite startswith_head in Hhome|]. rewrite split_on_app_slash in Hdots, Hempty.
    split; [intros part Hpart; apply Hdots, elem_of_app; by left|]. rewrite removelast_app in Hempty by done. change (split_on slash "") with [""] in Hempty.
    cbn [removelast] in Hempty. rewrite app_nil_r in Hempty. rewrite existsb_false_iff in *. intros part Hpart. apply Hempty. by apply removelast_in. }
  split; [done|]. split; [done|]. intros part Hpart. pose proof (G3 part Hpart) as [? ?]. rewrite !not_elem_of_cons. split_and!; [|done..|by apply not_elem_of_nil].
  exact (parts_nonempty _ G4 (split_last t Htr Ht) part Hpart).
Qed.
Lemma stored_paths v name l : _paths v name = Ok l → Forall (λ p, relative p ∧ trim_path p = p) l.
Proof.
  intros (qs & -> & HF)%paths_ok. apply Forall_fmap. eapply Forall_impl; [exact HF|]. intros q [Hq He]. by eapply path_shape.
Qed.

(** What it takes that two paths do not conflict. *)
Definition disjoint (a f : string) : Prop :=
  fnmatchcase a f = false ∧ fnmatchcase f a = false ∧
  (literal a = true → literal f = true → ¬ split_on slash a `prefix_of` split_on slash f ∧ ¬ split_on slash f `prefix_of` split_on slash a).
Lemma conflicts_disjoint allowed forbidden : Forall (λ p, trim_path p = p) allowed → Forall (λ p, trim_path p = p) forbidden →
  _conflicts allowed forbidden = false → ∀ a f, a ∈ allowed → f ∈ forbidden → disjoint a f.
Proof.
  rewrite !Forall_forall. unfold _conflicts. rewrite existsb_false_iff. intros Ha Hf H a f Hin Hinf. specialize (H a Hin). rewrite existsb_false_iff in H. specialize (H f Hinf).
  split; [|split].
  1,2: unfold overlap in H; cbv zeta in H; rewrite (Ha a Hin), (Hf f Hinf), !orb_false_iff in H; naive_solver.
  intros Hla Hlf. apply not_true_iff_false in H. rewrite overlap_literal, (Ha a Hin), (Hf f Hinf) in H by done. unfold nested in H. tauto.
Qed.
End paths.

(** *** What a value says *)

(** The texts of a value and the keys of its mappings, at any depth. *)
Inductive has_text : pyval → string → Prop :=
| text_here s : has_text (VStr s) s
| text_list l v s : v ∈ l → has_text v s → has_text (VList l) s
| text_tuple l v s : v ∈ l → has_text v s → has_text (VTuple l) s
| text_dict d k v s : (k, v) ∈ d → has_text v s → has_text (VDict d) s
| text_proxy d k v s : (k, v) ∈ d → has_text v s → has_text (VProxy d) s.
Inductive has_key : pyval → string → Prop :=
| key_dict d k v : (VStr k, v) ∈ d → has_key (VDict d) k
| key_proxy d k v : (VStr k, v) ∈ d → has_key (VProxy d) k
| key_in_list l v k : v ∈ l → has_key v k → has_key (VList l) k
| key_in_tuple l v k : v ∈ l → has_key v k → has_key (VTuple l) k
| key_in_dict d j v k : (j, v) ∈ d → has_key v k → has_key (VDict d) k
| key_in_proxy d j v k : (j, v) ∈ d → has_key v k → has_key (VProxy d) k.

Lemma free_text v s : has_text v s → secret_free v = true → ¬ holds_url s ∧ ¬ holds_token s.
Proof.
  induction 1 as [s|l v s Hin H IH|l v s Hin H IH|d k v s Hin H IH|d k v s Hin H IH]; cbn [secret_free]; intros Hv.
  2,3: rewrite forallb_true_iff in Hv; apply IH; by apply Hv.
  2,3: rewrite forallb_true_iff in Hv; apply IH; specialize (Hv _ Hin); cbn [snd] in Hv; by apply andb_true_iff in Hv as [_ ?].
  apply andb_true_iff in Hv as [Hv _]. apply negb_true_iff, orb_false_iff in Hv as [Ht Hu].
  split; [intros Hs%url_found|intros Hs%token_found]; congruence.
Qed.
Lemma free_key v k : has_key v k → secret_free v = true → ∀ name, name ∈ _SENSITIVE_KEYS → squeezed k ≠ squeezed name.
Proof.
  induction 1 as [d k v Hin|d k v Hin|l v k Hin H IH|l v k Hin H IH|d j v k Hin H IH|d j v k Hin H IH]; cbn [secret_free]; intros Hv.
  3,4: rewrite forallb_true_iff in Hv; apply IH; by apply Hv.
  3,4: rewrite forallb_true_iff in Hv; apply IH; specialize (Hv _ Hin); cbn [snd] in Hv; by apply andb_true_iff in Hv as [_ ?].
  all: rewrite forallb_true_iff in Hv; specialize (Hv _ Hin); cbn [fst py_str] in Hv; apply andb_true_iff in Hv as [Hv%negb_true_iff _];
    intros name Hn E; rewrite (sensitive_spelling k name Hn E) in Hv; discriminate.
Qed.

Section contract_safety.
Import Contract.

(** C13: A contract that is accepted is safe to hand to an agent: its dictionary
    is plain JSON data; no text in it, at any depth, holds the address of an
    external service (an http, https, ftp, ws or wss URL in any case) or a token
    of a known form (bearer, [sk-], [gh?_], [AKIA]), and no key of it is the
    name of a credential, in whatever case and with whatever separators; every
    path stays below the root; an allowed and a forbidden path never match each
    other, and without wildcards neither lies below the other, component by
    component; it has between 1 and 100 attempts, a finite back-off that is not
    negative and a finite time limit above zero.  (Texts such as [password: x]
    are not covered: their detection is incomplete, [Redaction.redact_ex1].) *)
Theorem contract_safe c : made c →
  to_dict c = Ok (VDict (fields c)) ∧
  (∀ s, has_text (VDict (fields c)) s → ¬ holds_url s ∧ ¬ holds_token s) ∧
  (∀ k name, has_key (VDict (fields c)) k → name ∈ _SENSITIVE_KEYS → squeezed k ≠ squeezed name) ∧
  Forall relative (allowed_paths c) ∧ Forall relative (forbidden_paths c) ∧
  (∀ a f, a ∈ allowed_paths c → f ∈ forbidden_paths c → disjoint a f) ∧
  (1 <= Retry.max_attempts (retry_policy c) <= MAX_RETRY_ATTEMPTS)%Z ∧
  is_finite (Retry.backoff_seconds (retry_policy c)) = true ∧ num_ltb (NFloat (Retry.backoff_seconds (retry_policy c))) (NInt 0) = false ∧
  is_finite (timeout_seconds c) = true ∧ num_ltb (NInt 0) (NFloat (timeout_seconds c)) = true.
Proof.
  intros H. pose proof (made_dict c H) as Hd. apply made_ok in H as [_ _ [v1 Hal%stored_paths] [v2 Hfo%stored_paths] Hc [Ht1 Ht2] [Ha [Hb1 Hb2] _ _] _ _ _ Hs].
  apply Forall_and in Hal as [Hal1 Hal2], Hfo as [Hfo1 Hfo2]. split; [exact Hd|]. split; [intros s Htext; exact (free_text _ _ Htext Hs)|].
  split; [intros k name Hk; exact (free_key _ _ Hk Hs name)|]. split; [exact Hal1|]. split; [exact Hfo1|].
  split; [exact (conflicts_disjoint _ _ Hal2 Hfo2 Hc)|]. repeat (split; [assumption|]). assumption.
Qed.
End contract_safety.

(** *** Reports *)

Lemma meaningful_copy v w : _json_safe v = Ok w → _meaningful w = _meaningful v.
Proof.
  revert w. induction v as [| | |f|s|l IH|l IH|d IH|d IH|r] using pyval_ind'; intros w H; try (apply ok_inj in H as <-; done); try discriminate.
  - cbn in H. destruct (is_finite f) eqn:E; [|discriminate]. by apply ok_inj in H as <-.
  - apply json_safe_list in H as (l' & HF & ->). cbn. induction HF as [|v w l l' Hv HF IHl]; [done|]. apply Forall_cons in IH as [Hh IH].
    cbn. by rewrite (Hh w Hv), (IHl IH).
  - change (_json_safe (VTuple l)) with (_json_safe (VList l)) in H. apply json_safe_list in H as (l' & HF & ->). cbn.
    induction HF as [|v w l l' Hv HF IHl]; [done|]. apply Forall_cons in IH as [Hh IH]. cbn. by rewrite (Hh w Hv), (IHl IH).
  - apply json_safe_dict in H as (d' & HF & ->). cbn. induction HF as [|[k v] [j w] d d' (_ & _ & Hv) HF IHl]; [done|].
    apply Forall_cons in IH as [[_ Hh] IH]. cbn [fst snd existsb] in *. by rewrite (Hh w Hv), (IHl IH).
  - change (_json_safe (VProxy d)) with (_json_safe (VDict d)) in H. apply json_safe_dict in H as (d' & HF & ->). cbn.
    induction HF as [|[k v] [j w] d d' (_ & _ & Hv) HF IHl]; [done|].
    apply Forall_cons in IH as [[_ Hh] IH]. cbn [fst snd existsb] in *. by rewrite (Hh w Hv), (IHl IH).
Qed.

Section report_properties.
Import Report.

(** A report that some arguments make. *)
Inductive reported : AgentReport → Prop :=
| Reported a1 a2 a3 a4 a5 a6 a7 a8 a9 a10 a11 a12 r : new_report a1 a2 a3 a4 a5 a6 a7 a8 a9 a10 a11 a12 = Ok r → reported r.

Definition data (r : AgentReport) : list pyval := [outputs r; evidence r; tests r; blockers r; assumptions r; decisions r; timestamps r].
Record report_ok (r : AgentReport) : Prop := {
  po_ids : tidy (task_id r) ∧ tidy (agent_id r);
  po_status : status r ∈ STATUSES;
  po_evidence : status r = "completed" → _meaningful (evidence r) = true;
  po_json : Forall (λ v, _json_safe v = Ok v) (data r);
  po_secrets : Forall (λ v, secret_free v = true) (data r);
  po_schema : schema_version r = VStr SCHEMA_VERSION }.

Definition payload_keys : list string := ["outputs"; "evidence"; "tests"; "blockers"; "assumptions"; "decisions"; "timestamps"].
Lemma report_keys_plain : forallb (λ k, negb (_is_sensitive_label k)) payload_keys = true.
Proof. vm_compute. reflexivity. Qed.
Lemma payload_secrets a b c d e f g : secret_free (payload_of a b c d e f g) = forallb secret_free [a; b; c; d; e; f; g].
Proof. unfold payload_of. rewrite (secret_known payload_keys); [reflexivity|reflexivity|exact report_keys_plain]. Qed.
Lemma payload_safe a b c d e f g : Forall (λ v, _json_safe v = Ok v) [a; b; c; d; e; f; g] → _json_safe (payload_of a b c d e f g) = Ok (payload_of a b c d e f g).
Proof.
  intros H. apply (safe_known payload_keys); [done|done|]. repeat (apply Forall_cons in H as [? H]). by repeat (constructor; [assumption|]).
Qed.

Lemma new_report_ok a1 a2 a3 a4 a5 a6 a7 a8 a9 a10 a11 a12 r : new_report a1 a2 a3 a4 a5 a6 a7 a8 a9 a10 a11 a12 = Ok r →
  report_ok r ∧ error r = match a11 with VNone => None | e => Some (_sanitize_error e) end.
Proof.
  unfold new_report. intros (tid & Ht & H)%bind_ok. apply bind_ok in H as (aid & Ha & H). apply bind_ok in H as (st & Hst & H).
  apply bind_ok in H as (u1 & Hs%require_ok & H). apply bind_ok in H as (u2 & He%require_ok & H). cbv zeta in H.
  apply bind_ok in H as (w & _ & H). apply bind_ok in H as (u3 & Hsec%check_secrets_ok & H).
  apply bind_ok in H as (v1 & H1 & H). apply bind_ok in H as (v2 & H2 & H). apply bind_ok in H as (v3 & H3 & H). apply bind_ok in H as (v4 & H4 & H).
  apply bind_ok in H as (v5 & H5 & H). apply bind_ok in H as (v6 & H6 & H). apply bind_ok in H as (v7 & H7 & H).
  apply bind_ok in H as (u4 & Hv%require_ok & [= <-]). apply bool_decide_eq_true in Hs. split; [|done].
  rewrite payload_secrets in Hsec. cbn [forallb] in Hsec. rewrite !andb_true_iff in Hsec. destruct Hsec as (S1 & S2 & S3 & S4 & S5 & S6 & S7 & _).
  pose proof (meaningful_copy _ _ H2) as Hm. apply json_safe_copy in H1 as [H1 E1], H2 as [H2 E2], H3 as [H3 E3], H4 as [H4 E4], H5 as [H5 E5], H6 as [H6 E6], H7 as [H7 E7].
  constructor; unfold data; cbn [Report.task_id Report.agent_id Report.status Report.outputs Report.evidence Report.tests Report.blockers Report.assumptions
    Report.decisions Report.timestamps Report.schema_version].
  - apply text_ok in Ht as (_ & _ & _ & Ht), Ha as (_ & _ & _ & Ha). exact (conj Ht Ha).
  - exact Hs.
  - intros ->. rewrite bool_decide_true in He by reflexivity. cbn [negb orb] in He. by rewrite Hm.
  - repeat (constructor; [assumption|]). constructor.
  - repeat (constructor; [congruence|]). constructor.
  - by apply version_eq.
Qed.

Lemma status_text st name : st ∈ STATUSES → lower <$> _text (VStr st) name = Ok st.
Proof. unfold STATUSES. rewrite !elem_of_cons, elem_of_nil. by intros [-> | [-> | [-> | [-> | [-> | [-> | []]]]]]]. Qed.
Lemma status_tidy st : st ∈ STATUSES → tidy st.
Proof. unfold STATUSES. rewrite !elem_of_cons, elem_of_nil. by intros [-> | [-> | [-> | [-> | [-> | [-> | []]]]]]]. Qed.

(** A report that is accepted is one of the six statuses, has meaningful
    evidence when it says completed and holds no secret, and it survives its
    own dictionary: reading it back or copying it gives the same report,
    provided its error message, if any, is one that cleaning leaves alone. *)
Theorem report_roundtrip r : reported r →
  status r ∈ STATUSES ∧ (status r = "completed" → _meaningful (evidence r) = true) ∧ Forall (λ v, secret_free v = true) (data r) ∧
  to_dict r = Ok (VDict (fields r)) ∧
  ((∀ e, error r = Some e → _sanitize_error (VStr e) = e) → from_dict (inr (VDict (fields r))) = Ok r ∧ from_dict (inl r) = Ok r).
Proof.
  intros [a1 a2 a3 a4 a5 a6 a7 a8 a9 a10 a11 a12 r' H]. apply new_report_ok in H as [[[Ht Ha] Hst Hev Hj Hs Hv] _]. do 3 (split; [assumption|]).
  assert (to_dict r' = Ok (VDict (fields r'))) as Hd.
  { unfold to_dict. apply (safe_known (["schema_version"; "task_id"; "agent_id"; "status"] ++ payload_keys ++ ["error"])%list); [reflexivity|reflexivity|].
    unfold data in Hj. repeat (apply Forall_cons in Hj as [? Hj]). unfold fields. constructor; [cbn [snd]; by rewrite Hv|].
    do 3 (constructor; [reflexivity|]). do 7 (constructor; [assumption|]). constructor; [cbn [snd]; by destruct (error r')|constructor]. }
  split; [exact Hd|]. intros He. enough (from_mapping (fields r') = Ok r') as Hm by (split; [exact Hm|unfold from_dict; rewrite Hd; exact Hm]).
  unfold from_mapping. cbn [mapM].
  rewrite (required_tidy (fields r') "task_id" (task_id r') eq_refl Ht), (required_tidy (fields r') "agent_id" (agent_id r') eq_refl Ha),
    (required_tidy (fields r') "status" (status r') eq_refl (status_tidy _ Hst)). cbn [mbind res_bind mret res_ret]. cbv zeta.
  change (new_report (VStr (task_id r')) (VStr (agent_id r')) (VStr (status r')) (outputs r') (evidence r') (tests r') (blockers r') (assumptions r')
    (decisions r') (timestamps r') (opt_str (error r')) (schema_version r') = Ok r').
  unfold new_report. rewrite (text_tidy _ "task_id" Ht), (text_tidy _ "agent_id" Ha), (status_text _ "status" Hst). cbn [mbind res_bind].
  rewrite (bool_decide_true _ Hst), require_true. cbn [mbind res_bind].
  assert ((negb (bool_decide (status r' = "completed")) || _meaningful (evidence r'))%bool = true) as ->.
  { case_bool_decide as Hc; [by rewrite (Hev Hc)|done]. }
  rewrite require_true. cbn [mbind res_bind]. cbv zeta. rewrite (payload_safe _ _ _ _ _ _ _ Hj). cbn [mbind res_bind].
  assert (_check_secrets (payload_of (outputs r') (evidence r') (tests r') (blockers r') (assumptions r') (decisions r') (timestamps r')) = Ok ()) as ->.
  { apply check_secrets_ok. rewrite payload_secrets. apply forallb_true_iff. by apply Forall_forall. }
  unfold data in Hj. repeat (apply Forall_cons in Hj as [? Hj]). cbn [mbind res_bind].
  repeat match goal with H : _json_safe ?x = Ok ?x |- _ => rewrite H; clear H; cbn [mbind res_bind] end.
  assert (match opt_str (error r') with VNone => None | _ => Some (_sanitize_error (opt_str (error r'))) end = error r') as ->.
  { destruct (error r') as [e|]; [|done]. cbn [opt_str]. by rewrite (He e eq_refl). }
  rewrite Hv. cbv zeta. assert (py_eqb (VStr SCHEMA_VERSION) (VStr SCHEMA_VERSION) = true) as -> by reflexivity. rewrite require_true. cbn [mbind res_bind].
  destruct r'. cbn in Hv |- *. by subst.
Qed.
End report_properties.

(** ** Examples *)

Definition demo_contract_args : dict :=
  [(VStr "task_id", VStr " t1 "); (VStr "agent_id", VStr "a1"); (VStr "role", VStr "coder"); (VStr "allowed_paths", VTuple [VStr "src\app/"; VStr "docs"]);
   (VStr "forbidden_paths", VList [VStr "etc/*.env"]); (VStr "retry_policy", VDict [(VStr "max_attempts", VInt 3); (VStr "backoff_seconds", VInt 2)])].
Definition demo_contract : Contract.AgentContract :=
  Contract.MkContract "t1" "a1" "coder" [] (VDict []) (VDict []) ["src/app"; "docs"] ["etc/*.env"] (VList []) []
    (float_of_decimal 300 0) (Retry.MkRetry 3 (float_of_decimal 2 0) []) (VStr "1").
Lemma demo_contract_made : made demo_contract.
Proof.
  apply (Made (VStr " t1 ") (VStr "a1") (VStr "coder") (VList []) (VDict []) (VDict []) (VTuple [VStr "src\app/"; VStr "docs"]) (VList [VStr "etc/*.env"])
    (VList []) (VList []) (VInt 300) (inr (VDict [(VStr "max_attempts", VInt 3); (VStr "backoff_seconds", VInt 2)])) (VStr "1")).
  vm_compute. reflexivity.
Qed.
Lemma demo_contract_read : Contract.from_dict (inr (VDict demo_contract_args)) = Ok demo_contract.
Proof. vm_compute. reflexivity. Qed.
Lemma contract_safe_witness :
  Contract.to_dict demo_contract = Ok (VDict (Contract.fields demo_contract)) ∧
  (∀ s, has_text (VDict (Contract.fields demo_contract)) s → ¬ holds_url s ∧ ¬ holds_token s) ∧
  (∀ k name, has_key (VDict (Contract.fields demo_contract)) k → name ∈ _SENSITIVE_KEYS → squeezed k ≠ squeezed name) ∧
  Forall relative (Contract.allowed_paths demo_contract) ∧ Forall relative (Contract.forbidden_paths demo_contract) ∧
  (∀ a f, a ∈ Contract.allowed_paths demo_contract → f ∈ Contract.forbidden_paths demo_contract → disjoint a f) ∧
  (1 <= Retry.max_attempts (Contract.retry_policy demo_contract) <= MAX_RETRY_ATTEMPTS)%Z ∧
  is_finite (Retry.backoff_seconds (Contract.retry_policy demo_contract)) = true ∧
  num_ltb (NFloat (Retry.backoff_seconds (Contract.retry_policy demo_contract))) (NInt 0) = false ∧
  is_finite (Contract.timeout_seconds demo_contract) = true ∧ num_ltb (NInt 0) (NFloat (Contract.timeout_seconds demo_contract)) = true.
Proof. exact (contract_safe demo_contract demo_contract_made). Defined.
Lemma demo_paths_plain : Forall (λ p, strip p = p) (Contract.allowed_paths demo_contract) ∧ Forall (λ p, strip p = p) (Contract.forbidden_paths demo_contract).
Proof. split; repeat constructor. Qed.
Lemma contract_roundtrip_witness :
  Contract.from_dict (inr (VDict (Contract.fields demo_contract))) = Ok demo_contract ∧ Contract.from_dict (inl demo_contract) = Ok demo_contract.
Proof. exact (contract_roundtrip demo_contract demo_contract_made (proj1 demo_paths_plain) (proj2 demo_paths_plain)). Defined.

(** A path with a blank before its last slash changes when it is read back, and
    then conflicts. *)
Definition blank_path_args (allowed forbidden : string) : pyval :=
  VDict [(VStr "task_id", VStr "t"); (VStr "agent_id", VStr "a"); (VStr "role", VStr "r"); (VStr "allowed_paths", VList [VStr allowed]);
         (VStr "forbidden_paths", VList [VStr forbidden])].
Lemma blank_path_changes :
  Contract.allowed_paths <$> Contract.from_dict (inr (blank_path_args "a /" "b")) = Ok ["a "] ∧
  Contract.allowed_paths <$> (c ← Contract.from_dict (inr (blank_path_args "a /" "b")); Contract.from_dict (inl c)) = Ok ["a"] ∧
  is_ok (Contract.from_dict (inr (blank_path_args "a /" "a"))) = true ∧
  is_ok (c ← Contract.from_dict (inr (blank_path_args "a /" "a")); Contract.from_dict (inl c)) = false.
Proof. vm_compute. done. Qed.

Definition demo_report : Report.AgentReport :=
  Report.MkReport "t1" "a1" "completed" (VDict []) (VList [VStr "tests pass"]) (VList []) (VList []) (VList []) (VList []) (VDict []) (Some "boom in [PATH REDACTED]") (VStr "1").
Lemma demo_report_made : reported demo_report.
Proof.
  apply (Reported (VStr "t1") (VStr "a1 ") (VStr " Completed") (VDict []) (VTuple [VStr "tests pass"]) (VList []) (VList []) (VList []) (VList []) (VDict [])
    (VStr "boom in /tmp/x") (VStr "1")).
  vm_compute. reflexivity.
Qed.
Lemma report_roundtrip_witness :
  Report.status demo_report ∈ Report.STATUSES ∧ (Report.status demo_report = "completed" → _meaningful (Report.evidence demo_report) = true) ∧
  Forall (λ v, secret_free v = true) (data demo_report) ∧ Report.to_dict demo_report = Ok (VDict (Report.fields demo_report)) ∧
  ((∀ e, Report.error demo_report = Some e → _sanitize_error (VStr e) = e) →
   Report.from_dict (inr (VDict (Report.fields demo_report))) = Ok demo_report ∧ Report.from_dict (inl demo_report) = Ok demo_report).
Proof. exact (report_roundtrip demo_report demo_report_made). Defined.
