(* ===== verification/ReportV2.v ===== *)
(** * Agent reports, V2 (scripts/pd_fleet/contracts.py)

    The terminal report of an agent: [redact_report_value], the checks and the
    redaction of [AgentReportV2.__post_init__], [to_dict] and
    [parse_agent_report_v2].  The attributes [__post_init__] addresses by name
    ([payload_fields]) are kept as a list of names and values, [VNone] where
    the attribute is [None].  A set of unknown fields is taken in the order of
    the mapping; its order decides only which of several errors is raised. *)

From S2P Require Import Prelude PyStr PyNum PyVal Regex IsoTime Redaction Canonical Contracts.

Open Scope string_scope.

Definition AGENT_REPORT_V2_SCHEMA_VERSION : string := "pd-fleet-report:v2".
Definition MAX_REPORT_RETRY_ATTEMPTS : Z := MAX_RETRY_ATTEMPTS.
Definition _REPORT_V2_FIELDS : list string :=
  ["schema_version"; "task_id"; "attempt"; "agent_id"; "agent"; "role"; "capabilities"; "status"; "outputs"; "evidence"; "tests"; "validation";
   "decision"; "started_at"; "completed_at"; "timestamps"; "reason"; "error"; "blocker"; "diagnostics"; "retry"; "metadata"; "extensions"].
Definition _REPORT_V2_RETRY_FIELDS : list string := ["recommended"; "max_attempts"; "backoff_seconds"; "reason"].
Definition _REPORT_V2_TIMESTAMP_RE : re :=
  let dd := rtimes 2 rdigit in
  rseq [RStart; rtimes 4 rdigit; rchr "-"; dd; rchr "-"; dd; rchr "T"; dd; rchr ":"; dd; rchr ":"; dd; ropt (rseq [rchr "."; rplus rdigit]);
        ralt [rchr "Z"; rseq [rchr "+-"; dd; ropt (rchr ":"); dd]]; REnd].

Definition reject {A} (code : string) : cres A := Err (_v2_error code).
Definition check (b : bool) (code : string) : cres unit := ensure b (_v2_error code).

(** ** Values *)

Definition report_text (s : string) : string := _redact_sensitive_text (_redact_paths (sub _EXTERNAL_URL (λ _, "[URL REDACTED]") s)).
Definition report_key (k : pyval) : bool := match k with VStr s => nonempty s && negb (_is_sensitive_label s) | _ => false end.
Fixpoint redact_report_value (value : pyval) : cres pyval :=
  match value with
  | VNone | VBool _ | VInt _ => Ok value
  | VStr s => Ok (VStr (report_text s))
  | VFloat f => if is_finite f then Ok value else reject "non-finite number"
  | VDict kvs | VProxy kvs =>
      result ← mapM (λ kv, if report_key kv.1 then w ← redact_report_value kv.2; Ok (kv.1, w) else reject "invalid or sensitive nested field") kvs;
      Ok (VDict (sort_by kv_leb result))
  | VList l | VTuple l => l' ← mapM redact_report_value l; Ok (VList l')
  | VOther _ => reject "non-JSON value"
  end.

Fixpoint _report_meaningful (v : pyval) : bool :=
  match v with
  | VStr s => negb (blank s)
  | VDict kvs | VProxy kvs => existsb (λ kv, _report_meaningful kv.2) kvs
  | VList l | VTuple l => existsb _report_meaningful l
  | VNone | VBool false => false
  | _ => true
  end.

Definition _report_timestamp (value : pyval) (name : string) : cres string :=
  match value with
  | VStr s => if fullmatch _REPORT_V2_TIMESTAMP_RE (strip s) then Ok (strip s) else reject ("invalid " +:+ name)
  | _ => reject ("invalid " +:+ name)
  end.

(** [datetime.fromisoformat] of an offset text, refused when naive. *)
Definition aware (text name : string) : cres datetime :=
  match parse_z text with
  | Some t => match t.(dt_offset) with Some _ => Ok t | None => reject ("invalid " +:+ name) end
  | None => reject ("invalid " +:+ name)
  end.
Definition _report_instant (value : pyval) (name : string) : cres datetime := text ← _report_timestamp value name; aware text name.
(** What two aware datetimes are compared by. *)
Definition instant (t : datetime) : Z := (t.(dt_us) - default 0 t.(dt_offset))%Z.

Definition text_ok (v : pyval) : bool := match v with VStr s => negb (blank s) | _ => false end.
Definition retry_backoff (v : pyval) : cres unit :=
  match v with
  | VInt z => match float_of_Z z with None => Err ContractOverflowError | Some _ => check (0 <=? z)%Z "invalid retry backoff" end
  | VFloat f => check (is_finite f && negb (num_ltb (NFloat f) (NInt 0))) "invalid retry backoff"
  | _ => reject "invalid retry backoff"
  end.
Definition _validate_report_retry (value : pyval) : cres unit :=
  match value with
  | VNone => Ok ()
  | VDict d | VProxy d =>
      _ ← check (negb (has_unknown _REPORT_V2_RETRY_FIELDS d)) "invalid retry recommendation";
      _ ← match dget_or (VInt 1) "max_attempts" d with
          | VInt z => check ((1 <=? z)%Z && (z <=? MAX_REPORT_RETRY_ATTEMPTS)%Z) "retry recommendation out of bounds"
          | _ => reject "retry recommendation out of bounds"
          end;
      _ ← check (match dget "recommended" d with Some v => is_bool v | None => true end) "invalid retry recommendation";
      _ ← retry_backoff (dget_or (VFloat (S754_zero false)) "backoff_seconds" d);
      check (match dget "reason" d with Some v => text_ok v | None => true end) "invalid retry reason"
  | _ => reject "invalid retry recommendation"
  end.

(** ** The report *)

Definition payload_fields : list string :=
  ["outputs"; "evidence"; "tests"; "validation"; "decision"; "reason"; "error"; "blocker"; "diagnostics"; "retry"; "metadata"; "extensions"].

Record AgentReportV2 : Type := MkReportV2 {
  schema_version : pyval;
  task_id : pyval;
  attempt : pyval;
  agent_id : pyval;
  role : pyval;
  capabilities : pyval;
  status : pyval;
  started_at : pyval;
  completed_at : pyval;
  agent : pyval;
  payload : list (string * pyval) }.

Definition attr (key : string) (r : AgentReportV2) : pyval := default VNone (assoc key r.(payload)).

Definition TERMINAL : list string := ["completed"; "failed"; "blocked"].
Definition NEEDED : list string := ["outputs"; "evidence"; "tests"; "validation"; "decision"].
Definition REASONS : list string := ["reason"; "error"; "blocker"].

Definition stripped (v : pyval) : string := match v with VStr s => strip s | _ => "" end.
Definition agent_ok (agent agent_id : pyval) : bool :=
  match agent with VNone => true | VStr s => negb (blank s) && bool_decide (strip s = stripped agent_id) | _ => false end.
Definition attempt_ok (v : pyval) : bool := match v with VInt z => (1 <=? z)%Z | _ => false end.
Definition status_ok (v : pyval) : bool := match v with VStr s => bool_decide (s ∈ TERMINAL) | _ => false end.
Definition capabilities_ok (v : pyval) : bool := match v with VList l | VTuple l => forallb text_ok l | _ => false end.

(** The fields a terminal report needs, by its status. *)
Definition evidence_ok (get : string → pyval) (status : pyval) : bool :=
  if py_eqb status (VStr "completed") then forallb (λ key, _report_meaningful (get key)) NEEDED
  else existsb (λ key, _report_meaningful (get key)) REASONS && _report_meaningful (get "evidence").

Definition is_some_value (v : pyval) : bool := negb (is_none v).
Definition payload_dict (r : AgentReportV2) : dict :=
  map (λ kv, (VStr kv.1, kv.2)) (List.filter (λ kv, is_some_value kv.2) r.(payload)).

(** [error] is cleaned when it is there, [diagnostics] when it is a string. *)
Definition sanitize_field (kv : string * pyval) : string * pyval :=
  (kv.1, match kv.2 with
         | VNone => VNone
         | VStr s => if bool_decide (kv.1 = "error" ∨ kv.1 = "diagnostics") then VStr (_sanitize_error (VStr s)) else VStr s
         | v => if bool_decide (kv.1 = "error") then VStr (_sanitize_error v) else v
         end).
Definition redact_field (kv : string * pyval) : cres (string * pyval) := w ← redact_report_value kv.2; Ok (kv.1, w).
Definition as_tuple (v : pyval) : pyval := match v with VList l => VTuple l | _ => v end.

(** [AgentReportV2.__getattribute__]: the payload and the capabilities are read
    through a deep copy, and [copy.deepcopy] raises [TypeError] on a mapping
    view at any depth. *)
Definition detached (v : pyval) : cres pyval := if copyable v then Ok v else Err ContractTypeError.
Definition read_attr (key : string) (self : AgentReportV2) : cres pyval := detached (attr key self).

(** [all(_report_meaningful(getattr(self, key)) for key in keys)], and [any],
    reading attribute after attribute and no further than needed. *)
Fixpoint all_meaningful (keys : list string) (self : AgentReportV2) : cres bool :=
  match keys with
  | [] => Ok true
  | key :: keys => v ← read_attr key self; if _report_meaningful v then all_meaningful keys self else Ok false
  end.
Fixpoint any_meaningful (keys : list string) (self : AgentReportV2) : cres bool :=
  match keys with
  | [] => Ok false
  | key :: keys => v ← read_attr key self; if _report_meaningful v then Ok true else any_meaningful keys self
  end.
Definition evidence_read (self : AgentReportV2) : cres bool :=
  if py_eqb self.(status) (VStr "completed") then all_meaningful NEEDED self
  else
    found ← any_meaningful REASONS self;
    if found : bool then evidence ← read_attr "evidence" self; Ok (_report_meaningful evidence) else Ok false.

(** [AgentReportV2.__post_init__]: of the attributes as they were passed. *)
Definition __post_init__ (self : AgentReportV2) : cres AgentReportV2 :=
  _ ← check (py_eqb self.(schema_version) (VStr AGENT_REPORT_V2_SCHEMA_VERSION)) "unsupported schema version";
  _ ← check (text_ok self.(task_id) && text_ok self.(agent_id) && text_ok self.(role)) "invalid identity field";
  _ ← check (agent_ok self.(agent) self.(agent_id)) "conflicting identity aliases";
  _ ← check (attempt_ok self.(attempt)) "invalid attempt";
  _ ← check (status_ok self.(status)) "invalid terminal status";
  capabilities ← detached self.(capabilities);
  _ ← check (capabilities_ok capabilities) "invalid capabilities";
  started_instant ← _report_instant self.(started_at) "started_at";
  completed_instant ← _report_instant self.(completed_at) "completed_at";
  _ ← check (instant started_instant <=? instant completed_instant)%Z "completed_at before started_at";
  sufficient ← evidence_read self;
  _ ← check sufficient
        (if py_eqb self.(status) (VStr "completed") then "completed missing required field" else "terminal failure missing reason or diagnosis evidence");
  retry ← read_attr "retry" self;
  _ ← _validate_report_retry retry;
  _ ← mapM detached (map snd self.(payload));
  _ ← _json_safe (VDict (payload_dict self));
  _ ← _check_secrets (VDict (payload_dict self));
  stored ← mapM redact_field self.(payload);
  Ok (MkReportV2 self.(schema_version) self.(task_id) self.(attempt) self.(agent_id) self.(role) (as_tuple capabilities) self.(status)
        self.(started_at) self.(completed_at) self.(agent) (map sanitize_field stored)).

Definition as_list (v : pyval) : pyval := match v with VTuple l => VList l | _ => v end.
Definition report_fields (r : AgentReportV2) : dict :=
  ([(VStr "schema_version", r.(schema_version)); (VStr "task_id", r.(task_id)); (VStr "attempt", r.(attempt)); (VStr "agent_id", r.(agent_id));
    (VStr "role", r.(role)); (VStr "capabilities", as_list r.(capabilities)); (VStr "status", r.(status))] ++
   map (λ key, (VStr key, attr key r)) NEEDED ++
   [(VStr "started_at", r.(started_at)); (VStr "completed_at", r.(completed_at))] ++
   List.filter (λ kv, is_some_value kv.2)
     (map (λ key, (VStr key, attr key r)) ["reason"; "error"; "blocker"; "diagnostics"; "retry"; "metadata"; "extensions"]))%list.
Definition to_dict (r : AgentReportV2) : cres pyval := redact_report_value (VDict (report_fields r)).

(** ** Parsing *)

Definition unknown_fields (data : dict) : dict :=
  List.filter (λ kv, match kv.1 with VStr k => negb (bool_decide (k ∈ _REPORT_V2_FIELDS)) | _ => true end) data.
(** [{**existing, **unknown}] *)
Definition merge_dict (a b : dict) : dict := foldl (λ d kv, match kv.1 with VStr k => dset k kv.2 d | _ => d end) a b.

Definition with_extensions (data : dict) : cres dict :=
  match unknown_fields data with
  | [] => Ok data
  | unknown =>
      _ ← check (forallb (λ kv, report_key kv.1) unknown) "unknown field";
      existing_extensions ← match dget_or VNone "extensions" data with
                            | VNone => Ok []
                            | VDict e | VProxy e => Ok e
                            | _ => reject "invalid extensions"
                            end;
      Ok (dset "extensions" (VDict (merge_dict existing_extensions unknown)) data)
  end.

(** An instant, moved to UTC and printed. *)
Definition parse_instant (text name : string) : cres string :=
  t ← aware text name;
  match astimezone_utc t with Some u => Ok (zulu (isoformat u)) | None => reject ("invalid " +:+ name) end.

Definition identities (data : dict) : cres unit :=
  match dget "agent_id" data, dget "agent" data with
  | Some (VStr a), Some (VStr b) => check (bool_decide (strip a = strip b)) "conflicting identity aliases"
  | Some _, Some _ => reject "conflicting identity aliases"
  | _, _ => Ok ()
  end.

Definition TIMES : list string := ["started_at"; "completed_at"].
Definition nested_times (data : dict) : cres dict :=
  match dget_or VNone "timestamps" data with
  | VNone => Ok []
  | VDict t | VProxy t => _ ← check (negb (has_unknown TIMES t)) "unknown timestamp field"; Ok t
  | _ => reject "invalid timestamps"
  end.
Definition or_else (v w : pyval) : pyval := match v with VNone => w | _ => v end.

(** A time given twice must be the same instant. *)
Definition same_time (data nested : dict) (key : string) : cres unit :=
  match dget_or VNone key data, dget_or VNone key nested with
  | VNone, _ | _, VNone => Ok ()
  | top, nest =>
      a ← _report_timestamp top key; ta ← parse_instant a key;
      b ← _report_timestamp nest key; tb ← parse_instant b key;
      check (bool_decide (ta = tb)) "conflicting timestamps"
  end.

Definition known_field (kv : pyval * pyval) : bool :=
  match kv.1 with VStr k => bool_decide (k ∈ _REPORT_V2_FIELDS) && negb (bool_decide (k = "timestamps")) | _ => false end.

(** The redacted fields, the error messages cleaned. *)
Definition parsed_payload (data : dict) : cres dict :=
  redacted ← mapM (λ kv, w ← redact_report_value kv.2; Ok (kv.1, w)) (List.filter known_field data);
  Ok (map (λ kv, match kv.1 with VStr k => (kv.1, (sanitize_field (k, kv.2)).2) | _ => kv end) redacted).

Definition texts_of (v : pyval) : list string :=
  match v with VList l | VTuple l => omap as_str l | _ => [] end.

Definition parse_mapping (value : dict) (reject_unknown_fields : bool) : cres AgentReportV2 :=
  _ ← check (bool_decide (unknown_fields value = []) || negb reject_unknown_fields) "unknown field";
  data ← with_extensions value;
  let get key := dget_or VNone key data in
  _ ← check (py_eqb (get "schema_version") (VStr AGENT_REPORT_V2_SCHEMA_VERSION)) "unsupported schema version";
  _ ← check (status_ok (get "status")) "invalid terminal status";
  _ ← check (forallb (λ key, is_some_value (get key)) ["task_id"; "attempt"; "role"; "capabilities"]) "missing required field";
  let agent_id := dget_or (get "agent") "agent_id" data in
  _ ← identities data;
  _ ← check (text_ok (get "task_id") && text_ok agent_id && text_ok (get "role")) "invalid identity field";
  _ ← check (attempt_ok (get "attempt")) "invalid attempt";
  _ ← check (capabilities_ok (get "capabilities")) "invalid capabilities";
  nested ← nested_times data;
  let started := or_else (get "started_at") (dget_or VNone "started_at" nested) in
  let completed := or_else (get "completed_at") (dget_or VNone "completed_at" nested) in
  _ ← check (is_some_value started && is_some_value completed) "missing execution timestamps";
  started ← _report_timestamp started "started_at";
  completed ← _report_timestamp completed "completed_at";
  _ ← same_time data nested "started_at";
  _ ← same_time data nested "completed_at";
  started ← parse_instant started "started_at";
  completed ← parse_instant completed "completed_at";
  payload ← parsed_payload data;
  let field key := dget_or VNone key payload in
  _ ← check (evidence_ok field (get "status"))
        (if py_eqb (get "status") (VStr "completed")
         then "completed missing " +:+ default "" (List.find (λ key, negb (_report_meaningful (field key))) NEEDED)
         else "terminal failure missing reason or diagnosis evidence");
  _ ← _validate_report_retry (field "retry");
  __post_init__ (MkReportV2 (VStr AGENT_REPORT_V2_SCHEMA_VERSION) (VStr (stripped (get "task_id"))) (get "attempt") (VStr (stripped agent_id))
    (VStr (stripped (get "role"))) (VTuple (map VStr (sort_strings (texts_of (get "capabilities"))))) (get "status") (VStr started) (VStr completed)
    (get "agent") (map (λ key, (key, field key)) payload_fields)).

Definition parse_agent_report_v2 (value : AgentReportV2 + pyval) (reject_unknown_fields : bool) : cres AgentReportV2 :=
  value ← match value with inl r => to_dict r | inr v => Ok v end;
  match entries value with
  | Some data => parse_mapping data reject_unknown_fields
  | None => reject "report must be an object"
  end.

Definition demo_v2_report (extra : dict) : pyval := VDict
  ([(VStr "schema_version", VStr "pd-fleet-report:v2"); (VStr "task_id", VStr " t1 "); (VStr "attempt", VInt 1); (VStr "agent", VStr "a1");
    (VStr "role", VStr "coder"); (VStr "capabilities", VList [VStr "write"; VStr "read"]); (VStr "status", VStr "failed");
    (VStr "evidence", VList [VStr "log"]); (VStr "error", VStr "boom in /tmp/x");
    (VStr "timestamps", VDict [(VStr "started_at", VStr "2026-01-01T02:00:00+02:00"); (VStr "completed_at", VStr "2026-01-01T00:00:01.5Z")])] ++ extra)%list.
Example v2_ex1 : parse_agent_report_v2 (inr (demo_v2_report [(VStr "x", VInt 1)])) false = Ok (MkReportV2 (VStr "pd-fleet-report:v2") (VStr "t1") (VInt 1) (VStr "a1") (VStr "coder")
   (VTuple [VStr "read"; VStr "write"]) (VStr "failed") (VStr "2026-01-01T00:00:00Z") (VStr "2026-01-01T00:00:01.500000Z") (VStr "a1")
   [("outputs", VNone); ("evidence", VList [VStr "log"]); ("tests", VNone); ("validation", VNone); ("decision", VNone); ("reason", VNone);
    ("error", VStr "boom in [PATH REDACTED]"); ("blocker", VNone); ("diagnostics", VNone); ("retry", VNone); ("metadata", VNone);
    ("extensions", VDict [(VStr "x", VInt 1)])]).
Proof. vm_compute. reflexivity. Qed.

(** ** Lemmas *)

#[global] Arguments report_text : simpl never.
#[global] Arguments report_key : simpl never.
#[global] Arguments _is_sensitive_label : simpl never.

(** *** What redaction accepts, and what it makes of a value *)

Fixpoint redactable (v : pyval) : bool :=
  match v with
  | VFloat f => is_finite f
  | VDict d | VProxy d => forallb (λ kv, report_key kv.1 && redactable kv.2) d
  | VList l | VTuple l => forallb redactable l
  | VOther _ => false
  | _ => true
  end.
Fixpoint cleaned (v : pyval) : pyval :=
  match v with
  | VStr s => VStr (report_text s)
  | VDict d | VProxy d => VDict (sort_by kv_leb (map (λ kv, (kv.1, cleaned kv.2)) d))
  | VList l | VTuple l => VList (map cleaned l)
  | _ => v
  end.

Lemma redact_list l w : Forall (λ v, ∀ w, redact_report_value v = Ok w ↔ redactable v = true ∧ w = cleaned v) l →
  redact_report_value (VList l) = Ok w ↔ forallb redactable l = true ∧ w = VList (map cleaned l).
Proof.
  intros IH. change (redact_report_value (VList l)) with (l' ← mapM redact_report_value l; Ok (VList l') : cres pyval).
  assert (∀ l', mapM redact_report_value l = Ok l' ↔ forallb redactable l = true ∧ l' = map cleaned l) as He.
  { intros l'. rewrite mapM_res_ok. clear w. revert l'. induction IH as [|v l Hv IH IHl]; intros l'.
    - split; [intros HF; by inversion HF|by intros [_ ->]].
    - cbn [forallb map]. rewrite andb_true_iff. split.
      + inversion 1 as [|? u ? us Hu HF]; subst. apply Hv in Hu as [? ->]. by apply IHl in HF as [? ->].
      + intros [[H1 H2] ->]. constructor; [by apply Hv|by apply IHl]. }
  rewrite bind_ok. setoid_rewrite He. naive_solver.
Qed.
Definition redact_entry (kv : pyval * pyval) : cres (pyval * pyval) :=
  if report_key kv.1 then w ← redact_report_value kv.2; Ok (kv.1, w) else reject "invalid or sensitive nested field".
Lemma redact_dict d w : Forall (λ kv : pyval * pyval, ∀ w, redact_report_value kv.2 = Ok w ↔ redactable kv.2 = true ∧ w = cleaned kv.2) d →
  redact_report_value (VDict d) = Ok w ↔ redactable (VDict d) = true ∧ w = cleaned (VDict d).
Proof.
  intros IH. change (redact_report_value (VDict d)) with (result ← mapM redact_entry d; Ok (VDict (sort_by kv_leb result)) : cres pyval).
  assert (∀ d', mapM redact_entry d = Ok d' ↔ redactable (VDict d) = true ∧ d' = map (λ kv, (kv.1, cleaned kv.2)) d) as He.
  { intros d'. rewrite mapM_res_ok. clear w. cbn [redactable]. revert d'. induction IH as [|[k v] d Hv IH IHl]; intros d'.
    - split; [intros HF; by inversion HF|by intros [_ ->]].
    - cbn [forallb map fst snd] in *. rewrite !andb_true_iff.
      assert (∀ kw, redact_entry (k, v) = Ok kw ↔ (report_key k = true ∧ redactable v = true) ∧ kw = (k, cleaned v)) as Hk.
      { intros kw. unfold redact_entry. cbn [fst snd]. destruct (report_key k); [|naive_solver]. rewrite bind_ok. setoid_rewrite Hv. naive_solver. }
      split.
      + inversion 1 as [|? u ? us Hu HF]; subst. apply Hk in Hu as [? ->]. by apply IHl in HF as [? ->].
      + intros [[H1 H2] ->]. constructor; [by apply Hk|by apply IHl]. }
  rewrite bind_ok. setoid_rewrite He. cbn [cleaned]. naive_solver.
Qed.
Lemma redact_ok v w : redact_report_value v = Ok w ↔ redactable v = true ∧ w = cleaned v.
Proof.
  revert w. induction v as [| | |f|s|l IH|l IH|d IH|d IH|r] using pyval_ind'; intros w; try (split; [by intros <-%ok_inj|by intros [_ ->]]).
  - cbn. destruct (is_finite f); naive_solver.
  - by apply redact_list.
  - by apply redact_list.
  - apply redact_dict. eapply Forall_impl; [exact IH|]. by intros kv [_ ?].
  - apply (redact_dict d). eapply Forall_impl; [exact IH|]. by intros kv [_ ?].
  - split; [discriminate|by intros [? _]].
Qed.
Lemma redact_field_ok kv kw : redact_field kv = Ok kw ↔ redactable kv.2 = true ∧ kw = (kv.1, cleaned kv.2).
Proof. unfold redact_field. rewrite bind_ok. setoid_rewrite redact_ok. naive_solver. Qed.

(** Plain JSON data without secrets can be redacted. *)
Lemma safe_redactable v w : _json_safe v = Ok w → secret_free v = true → redactable v = true.
Proof.
  assert (∀ l l', Forall (λ v, ∀ w, _json_safe v = Ok w → secret_free v = true → redactable v = true) l →
    Forall2 (λ v u, _json_safe v = Ok u) l l' → forallb secret_free l = true → forallb redactable l = true) as Hl.
  { intros l l' IH HF. induction HF as [|x u l l' Hv HF IHl]; [done|]. apply Forall_cons in IH as [Hh IH]. cbn. rewrite !andb_true_iff. intros [H1 H2]. eauto. }
  assert (∀ d d', Forall (λ kv : pyval * pyval, ∀ w, _json_safe kv.2 = Ok w → secret_free kv.2 = true → redactable kv.2 = true) d →
    Forall2 safe_entry d d' → secret_free (VDict d) = true → redactable (VDict d) = true) as Hd.
  { intros d d' IH HF. induction HF as [|[k x] u d d' (Hk & _ & Hv) HF IHl]; [done|]. apply Forall_cons in IH as [Hh IH].
    cbn [secret_free redactable forallb fst snd] in *. rewrite !andb_true_iff, !negb_true_iff. intros [[H1 H2] H3]. split; [|by apply IHl]. split; [|by eapply Hh].
    destruct k; try discriminate Hk. unfold report_key. cbn [json_key py_str] in Hk, H1. by rewrite Hk, H1. }
  revert w. induction v as [| | |f|s|l IH|l IH|d IH|d IH|r] using pyval_ind'; intros w H Hs; try done.
  - cbn in H |- *. by destruct (is_finite f).
  - apply json_safe_list in H as (l' & HF & _). by apply (Hl l l').
  - change (_json_safe (VTuple l)) with (_json_safe (VList l)) in H. apply json_safe_list in H as (l' & HF & _). by apply (Hl l l').
  - apply json_safe_dict in H as (d' & HF & _). apply (Hd d d'); [|done..]. eapply Forall_impl; [exact IH|]. by intros kv [_ ?].
  - change (_json_safe (VProxy d)) with (_json_safe (VDict d)) in H. apply json_safe_dict in H as (d' & HF & _). apply (Hd d d'); [|done..].
    eapply Forall_impl; [exact IH|]. by intros kv [_ ?].
Qed.

(** *** The checks of the constructor *)

Lemma check_ok b m (u : unit) : check b m = Ok u ↔ b = true.
Proof. apply ensure_ok. Qed.

Definition filled (v : pyval) : Prop := ∃ s, v = VStr s ∧ blank s = false.
Lemma text_ok_spec v : text_ok v = true ↔ filled v.
Proof.
  split; [|by intros (s & -> & H); cbn [text_ok]; rewrite H]. destruct v; try discriminate. cbn [text_ok]. intros H%negb_true_iff. by eexists.
Qed.
Lemma capabilities_spec v : capabilities_ok v = true ↔ ∃ l, (v = VList l ∨ v = VTuple l) ∧ Forall filled l.
Proof.
  assert (∀ l, forallb text_ok l = true ↔ Forall filled l) as Hl.
  { intros l. rewrite forallb_true_iff, Forall_forall. by setoid_rewrite text_ok_spec. }
  split; [|by intros (l & [-> | ->] & H); apply Hl]. destruct v; try discriminate; intros H%Hl; eexists; eauto.
Qed.
Lemma attempt_spec v : attempt_ok v = true ↔ ∃ n, v = VInt n ∧ (1 <= n)%Z.
Proof. split; [|by intros (n & -> & H); apply Z.leb_le]. destruct v; try discriminate. intros H%Z.leb_le. by eexists. Qed.
Lemma status_spec v : status_ok v = true ↔ v = VStr "completed" ∨ v = VStr "failed" ∨ v = VStr "blocked".
Proof.
  split; [|by intros [-> | [-> | ->]]]. destruct v as [| | | |s| | | | |]; try discriminate. cbn [status_ok]. rewrite bool_decide_eq_true.
  unfold TERMINAL. rewrite !elem_of_cons, elem_of_nil. by intros [-> | [-> | [-> | []]]]; eauto.
Qed.
Lemma agent_spec v id : filled id → agent_ok v id = true ↔ v = VNone ∨ ∃ a b, v = VStr a ∧ id = VStr b ∧ strip a = strip b.
Proof.
  intros (b & -> & Hb). split.
  - destruct v; try discriminate; [by left|]. cbn [agent_ok stripped]. rewrite andb_true_iff, bool_decide_eq_true. intros [_ H]. right. eauto.
  - intros [-> | (a & b' & -> & [= <-] & H)]; [done|]. cbn [agent_ok stripped]. rewrite (bool_decide_true _ H). unfold blank in *. by rewrite H, Hb.
Qed.

Definition complete (get : string → pyval) : Prop := ∀ key, key ∈ NEEDED → _report_meaningful (get key) = true.
Definition diagnosed (get : string → pyval) : Prop :=
  (∃ key, key ∈ REASONS ∧ _report_meaningful (get key) = true) ∧ _report_meaningful (get "evidence") = true.
Definition justified (get : string → pyval) (status : pyval) : Prop :=
  (status = VStr "completed" ∧ complete get) ∨ ((status = VStr "failed" ∨ status = VStr "blocked") ∧ diagnosed get).
Lemma evidence_spec get status : status_ok status = true → evidence_ok get status = true ↔ justified get status.
Proof.
  intros Hst%status_spec. unfold evidence_ok, justified, complete, diagnosed.
  assert (forallb (λ key, _report_meaningful (get key)) NEEDED = true ↔ ∀ key, key ∈ NEEDED → _report_meaningful (get key) = true) as Hc by apply forallb_true_iff.
  assert (existsb (λ key, _report_meaningful (get key)) REASONS = true ↔ ∃ key, key ∈ REASONS ∧ _report_meaningful (get key) = true) as Hr by apply existsb_true_iff.
  destruct Hst as [-> | [-> | ->]].
  - change (py_eqb (VStr "completed") (VStr "completed")) with true. cbv iota. rewrite Hc. split; [by left|]. by intros [[_ ?] | [[? | ?] _]].
  - change (py_eqb (VStr "failed") (VStr "completed")) with false. cbv iota. rewrite andb_true_iff, Hr. split; [intros ?; right; split; [by left|done]|]. by intros [[? _] | [_ ?]].
  - change (py_eqb (VStr "blocked") (VStr "completed")) with false. cbv iota. rewrite andb_true_iff, Hr. split; [intros ?; right; split; [by right|done]|]. by intros [[? _] | [_ ?]].
Qed.

Lemma payload_redactable self w : _json_safe (VDict (payload_dict self)) = Ok w → secret_free (VDict (payload_dict self)) = true →
  Forall (λ kv, redactable kv.2 = true) self.(payload).
Proof.
  intros Hj Hs. apply (safe_redactable _ _ Hj) in Hs. cbn [redactable] in Hs. rewrite forallb_true_iff in Hs. apply Forall_forall. intros [k v] Hin. cbn [snd].
  destruct (is_some_value v) eqn:E; [|by destruct v].
  specialize (Hs (VStr k, v)). cbn [fst snd] in Hs. rewrite andb_true_iff in Hs. apply Hs. unfold payload_dict. apply list_elem_of_In, in_map_iff. exists (k, v). split; [done|].
  apply filter_In. split; [by apply list_elem_of_In|done].
Qed.

(** What is stored of the attributes that were passed. *)
Definition stored (self : AgentReportV2) : AgentReportV2 :=
  MkReportV2 self.(schema_version) self.(task_id) self.(attempt) self.(agent_id) self.(role) (as_tuple self.(capabilities)) self.(status)
    self.(started_at) self.(completed_at) self.(agent) (map (λ kv, sanitize_field (kv.1, cleaned kv.2)) self.(payload)).

Record accepted (self : AgentReportV2) : Prop := {
  ac_version : schema_version self = VStr AGENT_REPORT_V2_SCHEMA_VERSION;
  ac_ids : filled (task_id self) ∧ filled (agent_id self) ∧ filled (role self);
  ac_agent : agent self = VNone ∨ ∃ a b, agent self = VStr a ∧ agent_id self = VStr b ∧ strip a = strip b;
  ac_attempt : ∃ n, attempt self = VInt n ∧ (1 <= n)%Z;
  ac_capabilities : ∃ l, (capabilities self = VList l ∨ capabilities self = VTuple l) ∧ Forall filled l;
  ac_times : ∃ a b, _report_instant (started_at self) "started_at" = Ok a ∧ _report_instant (completed_at self) "completed_at" = Ok b ∧ (instant a <= instant b)%Z;
  ac_copyable : ∀ key v, (key, v) ∈ payload self → copyable v = true;
  ac_justified : justified (λ key, attr key self) (status self);
  ac_retry : _validate_report_retry (attr "retry" self) = Ok ();
  ac_json : ∃ w, _json_safe (VDict (payload_dict self)) = Ok w;
  ac_secrets : secret_free (VDict (payload_dict self)) = true }.

(** Attributes that can be copied are read as they are. *)
Lemma detached_ok v w : detached v = Ok w ↔ copyable v = true ∧ w = v.
Proof. unfold detached. destruct (copyable v); naive_solver. Qed.
Lemma detached_all l ws : mapM detached l = Ok ws ↔ Forall (λ v, copyable v = true) l ∧ ws = l.
Proof.
  rewrite mapM_res_ok. split.
  - induction 1 as [|v w l ws H%detached_ok HF [IH ->]]; [done|]. destruct H as [? ->]. by repeat constructor.
  - intros [HF ->]. induction HF; constructor; [by apply detached_ok|done].
Qed.
Lemma attr_copyable self key : (∀ key v, (key, v) ∈ payload self → copyable v = true) → copyable (attr key self) = true.
Proof.
  intros H. unfold attr, assoc. destruct (List.find _ (payload self)) as [[k v]|] eqn:E; [|done]. apply find_some in E as [E _]. cbn. apply (H k), list_elem_of_In, E.
Qed.
Lemma read_attr_ok self key w : read_attr key self = Ok w → w = attr key self.
Proof. by intros [_ ->]%detached_ok. Qed.
Lemma all_meaningful_ok keys self b : all_meaningful keys self = Ok b → b = forallb (λ key, _report_meaningful (attr key self)) keys.
Proof.
  induction keys as [|key keys IH]; cbn [all_meaningful forallb]; [by intros <-%ok_inj|]. intros (v & ->%read_attr_ok & H)%bind_ok.
  destruct (_report_meaningful _); [by apply IH|by apply ok_inj in H].
Qed.
Lemma any_meaningful_ok keys self b : any_meaningful keys self = Ok b → b = existsb (λ key, _report_meaningful (attr key self)) keys.
Proof.
  induction keys as [|key keys IH]; cbn [any_meaningful existsb]; [by intros <-%ok_inj|]. intros (v & ->%read_attr_ok & H)%bind_ok.
  destruct (_report_meaningful _); [by apply ok_inj in H|by apply IH].
Qed.
Lemma evidence_read_ok self b : evidence_read self = Ok b → b = evidence_ok (λ key, attr key self) (status self).
Proof.
  unfold evidence_read, evidence_ok. destruct (py_eqb _ _); [apply all_meaningful_ok|]. intros (found & ->%any_meaningful_ok & H)%bind_ok.
  destruct (existsb _ _); [|by apply ok_inj in H]. by apply bind_ok in H as (v & ->%read_attr_ok & <-%ok_inj).
Qed.
Section Detached.
  Context (self : AgentReportV2) (Hself : ∀ key v, (key, v) ∈ payload self → copyable v = true).
Lemma read_attr_total key : read_attr key self = Ok (attr key self).
  Proof using Hself. apply detached_ok. split; [by apply attr_copyable|done]. Qed.
Lemma all_meaningful_total keys : all_meaningful keys self = Ok (forallb (λ key, _report_meaningful (attr key self)) keys).
  Proof using Hself. induction keys as [|key keys IH]; [done|]. cbn [all_meaningful forallb]. rewrite read_attr_total. cbn [mbind res_bind]. by destruct (_report_meaningful _). Qed.
Lemma any_meaningful_total keys : any_meaningful keys self = Ok (existsb (λ key, _report_meaningful (attr key self)) keys).
  Proof using Hself. induction keys as [|key keys IH]; [done|]. cbn [any_meaningful existsb]. rewrite read_attr_total. cbn [mbind res_bind]. by destruct (_report_meaningful _). Qed.
Lemma evidence_read_total : evidence_read self = Ok (evidence_ok (λ key, attr key self) (status self)).
  Proof using Hself.
    unfold evidence_read, evidence_ok. rewrite all_meaningful_total, any_meaningful_total. destruct (py_eqb _ _); [done|]. cbn [mbind res_bind].
    destruct (existsb _ _); [|done]. by rewrite read_attr_total.
  Qed.
End Detached.
Lemma text_copyable l : Forall filled l → forallb copyable l = true.
Proof. intros H. apply forallb_true_iff. rewrite Forall_forall in H. intros x Hx. by destruct (H x Hx) as (s & -> & _). Qed.
Lemma capabilities_copyable v : (∃ l, (v = VList l ∨ v = VTuple l) ∧ Forall filled l) → detached v = Ok v.
Proof. intros (l & [-> | ->] & H%text_copyable); apply detached_ok; by split. Qed.

Lemma payload_copyable self : (∀ key v, (key, v) ∈ payload self → copyable v = true) → Forall (λ v, copyable v = true) (map snd (payload self)).
Proof. intros H. apply Forall_forall. intros v Hv. apply list_elem_of_In, in_map_iff in Hv as ([key v'] & <- & Hin). by apply (H key), list_elem_of_In. Qed.

Lemma version_v2 v : py_eqb v (VStr AGENT_REPORT_V2_SCHEMA_VERSION) = true ↔ v = VStr AGENT_REPORT_V2_SCHEMA_VERSION.
Proof. split; [|by intros ->]. destruct v; try discriminate. cbn. intros H. bool_inv. by subst. Qed.

Lemma post_init_accepts self r : __post_init__ self = Ok r → accepted self ∧ r = stored self.
Proof.
  unfold __post_init__. intros H. apply bind_ok in H as (u1 & Hv%check_ok%version_v2 & H). apply bind_ok in H as (u2 & Hi%check_ok & H). rewrite !andb_true_iff, !text_ok_spec in Hi.
  apply bind_ok in H as (u3 & Ha%check_ok & H). apply bind_ok in H as (u4 & Hn%check_ok%attempt_spec & H). apply bind_ok in H as (u5 & Hst%check_ok & H).
  apply bind_ok in H as (caps & [_ ->]%detached_ok & H).
  apply bind_ok in H as (u6 & Hc%check_ok%capabilities_spec & H). apply bind_ok in H as (a & Hsa & H). apply bind_ok in H as (b & Hcb & H).
  apply bind_ok in H as (u7 & Hle%check_ok%Z.leb_le & H). apply bind_ok in H as (sufficient & ->%evidence_read_ok & H).
  apply bind_ok in H as (u8 & He%check_ok & H). apply bind_ok in H as (retry & ->%read_attr_ok & H). apply bind_ok in H as ([] & Hr & H).
  apply bind_ok in H as (vs & [Hcopy _]%detached_all & H).
  apply bind_ok in H as (w & Hj & H). apply bind_ok in H as (u9 & Hs%check_secrets_ok & H). apply bind_ok in H as (p & Hp & H%ok_inj). split.
  - destruct Hi as [[Hi1 Hi2] Hi3]. constructor; try assumption; [by split|by apply agent_spec|by exists a, b| |by apply evidence_spec|by exists w].
    intros key v Hin. rewrite Forall_forall in Hcopy. apply Hcopy, list_elem_of_In, in_map_iff. exists (key, v). split; [done|by apply list_elem_of_In].
  - subst r. unfold stored. f_equal. apply mapM_res_ok in Hp. clear -Hp. induction Hp as [|kv kw l l' Hk HF IH]; [done|].
    apply redact_field_ok in Hk as [_ ->]. cbn [map]. by rewrite IH.
Qed.
Lemma accepted_post_init self : accepted self → __post_init__ self = Ok (stored self).
Proof.
  intros [Hv (Hi1 & Hi2 & Hi3) Ha Hn Hc (a & b & Hsa & Hcb & Hle) Hcopy He Hr [w Hj] Hs]. unfold __post_init__.
  rewrite (proj2 (version_v2 _) Hv), (proj2 (text_ok_spec _) Hi1), (proj2 (text_ok_spec _) Hi2), (proj2 (text_ok_spec _) Hi3).
  rewrite (proj2 (agent_spec _ _ Hi2) Ha), (proj2 (attempt_spec _) Hn). cbn [andb check ensure mbind res_bind].
  assert (status_ok (status self) = true) as Hst by (apply status_spec; destruct He as [[? _] | [[? | ?] _]]; auto).
  rewrite Hst, (capabilities_copyable _ Hc). cbn [check ensure mbind res_bind].
  rewrite (proj2 (capabilities_spec _) Hc), Hsa, Hcb. cbn [check ensure mbind res_bind]. rewrite (proj2 (Z.leb_le _ _) Hle). cbn [check ensure mbind res_bind].
  rewrite (evidence_read_total _ Hcopy), (read_attr_total _ Hcopy). cbn [mbind res_bind].
  rewrite (proj2 (evidence_spec _ _ Hst) He). cbn [check ensure mbind res_bind]. rewrite Hr. cbn [mbind res_bind].
  rewrite (proj2 (detached_all (map snd (payload self)) _) (conj (payload_copyable _ Hcopy) eq_refl)). cbn [mbind res_bind].
  rewrite Hj. cbn [mbind res_bind]. rewrite (proj2 (check_secrets_ok _ ()) Hs). cbn [mbind res_bind].
  assert (mapM redact_field (payload self) = Ok (map (λ kv, (kv.1, cleaned kv.2)) (payload self))) as ->.
  { apply mapM_res_ok. pose proof (payload_redactable self w Hj Hs) as HF. clear Hcopy. induction HF as [|kv l Hk HF IH]; constructor; [by apply redact_field_ok|done]. }
  cbn [mbind res_bind]. unfold stored. by rewrite map_map.
Qed.

(** ** Properties *)

(** C14: The V2 report constructor accepts exactly the attributes that satisfy
    its contract: the schema version, non-blank identities (an [agent] alias
    agreeing with the agent id up to blanks), a positive attempt, non-blank
    capabilities, aware timestamps in order, the fields its status demands
    (completed: all five; failed or blocked: a reason and evidence), a bounded
    retry recommendation, and a payload that is plain JSON data without a
    secret and can be copied (the attributes are read through [copy.deepcopy],
    so a mapping view in the payload raises); no later step, redaction
    included, refuses anything, and what is stored is the redacted payload,
    error messages cleaned. *)
Theorem report_v2_exact self r : __post_init__ self = Ok r ↔ accepted self ∧ r = stored self.
Proof. split; [apply post_init_accepts|]. intros [H ->]. by apply accepted_post_init. Qed.

(** A payload with a mapping view is refused, though it is plain data. *)
Example view_refused :
  let self := MkReportV2 (VStr "pd-fleet-report:v2") (VStr "t1") (VInt 1) (VStr "a1") (VStr "coder") (VTuple []) (VStr "failed")
    (VStr "2026-01-01T00:00:00Z") (VStr "2026-01-01T00:00:01Z") VNone [("evidence", VList [VStr "log"]); ("reason", VStr "why"); ("metadata", VProxy [])] in
  __post_init__ self = Err ContractTypeError ∧ is_ok (_json_safe (VDict (payload_dict self))) = true.
Proof. vm_compute. split; reflexivity. Qed.

(** *** Instants *)

Lemma instant_bounds t u : astimezone_utc t = Some u → u = utc_at (instant t) ∧ (0 <= instant t < max_us)%Z.
Proof.
  unfold astimezone_utc, instant, utc_at. destruct (dt_offset t) as [o|]; [|done]. destruct (_ && _) eqn:E; [|done]. intros [= <-]. cbn [default]. bool_inv. done.
Qed.
Lemma aware_ok text name t : aware text name = Ok t → parse_z text = Some t ∧ dt_offset t ≠ None.
Proof. unfold aware. destruct (parse_z text) as [t'|]; [|done]. destruct (dt_offset t') eqn:E; [|done]. intros [= <-]. by rewrite E. Qed.

Definition utc_text (us : Z) : string := zulu (isoformat (utc_at us)).
Lemma utc_text_inj us us' : (0 <= us < max_us)%Z → (0 <= us' < max_us)%Z → utc_text us = utc_text us' → us = us'.
Proof. intros H H' E. pose proof (parse_auto us H) as P. unfold utc_text in E. rewrite E, (parse_auto us' H') in P. by injection P. Qed.

(** A value that denotes an instant. *)
Definition denotes (v : pyval) (us : Z) : Prop :=
  ∃ s t, v = VStr s ∧ fullmatch _REPORT_V2_TIMESTAMP_RE (strip s) = true ∧ parse_z (strip s) = Some t ∧ dt_offset t ≠ None ∧ instant t = us.
Lemma timestamp_ok v name text : _report_timestamp v name = Ok text → ∃ s, v = VStr s ∧ fullmatch _REPORT_V2_TIMESTAMP_RE (strip s) = true ∧ text = strip s.
Proof. destruct v as [| | | |s| | | | |]; try discriminate. cbn [_report_timestamp]. destruct (fullmatch _ _) eqn:E; [|discriminate]. intros [= <-]. by exists s. Qed.
Lemma parse_instant_ok v name text name' z : _report_timestamp v name = Ok text → parse_instant text name' = Ok z →
  ∃ us, denotes v us ∧ (0 <= us < max_us)%Z ∧ z = utc_text us.
Proof.
  intros (s & -> & Hf & ->)%timestamp_ok. unfold parse_instant. intros (t & [Ht Ho]%aware_ok & H)%bind_ok. destruct (astimezone_utc t) as [u|] eqn:E; [|discriminate].
  injection H as <-. apply instant_bounds in E as [-> Hb]. exists (instant t). split; [by exists s, t|]. done.
Qed.
Lemma denotes_unique v us us' : denotes v us → denotes v us' → us = us'.
Proof. intros (s & t & -> & _ & H & _ & <-) (s' & t' & [= <-] & _ & H' & _ & <-). congruence. Qed.

(** Every time given under a key, at the top or nested, is that instant. *)
Definition given (d nested : dict) (key : string) (us : Z) : Prop :=
  (dget_or VNone key d ≠ VNone ∨ dget_or VNone key nested ≠ VNone) ∧
  (∀ v, v = dget_or VNone key d ∨ v = dget_or VNone key nested → v ≠ VNone → denotes v us).
Lemma same_time_ok d nested key : same_time d nested key = Ok () → dget_or VNone key d ≠ VNone → dget_or VNone key nested ≠ VNone →
  ∃ us, denotes (dget_or VNone key d) us ∧ denotes (dget_or VNone key nested) us.
Proof.
  unfold same_time. generalize (dget_or VNone key d), (dget_or VNone key nested). intros a b H Ha Hb.
  assert ((a1 ← _report_timestamp a key; ta ← parse_instant a1 key; b1 ← _report_timestamp b key; tb ← parse_instant b1 key;
    check (bool_decide (ta = tb)) "conflicting timestamps") = Ok ()) as H' by (by destruct a, b). clear H.
  apply bind_ok in H' as (a1 & H1 & H). apply bind_ok in H as (ta & H2 & H). apply bind_ok in H as (b1 & H3 & H). apply bind_ok in H as (tb & H4 & H%check_ok).
  apply bool_decide_eq_true in H as ->. destruct (parse_instant_ok _ _ _ _ _ H1 H2) as (us & Hd & Hu & ->), (parse_instant_ok _ _ _ _ _ H3 H4) as (us' & Hd' & Hu' & E).
  apply utc_text_inj in E as <-; [|done..]. by exists us.
Qed.
Lemma given_ok d nested key text z : _report_timestamp (or_else (dget_or VNone key d) (dget_or VNone key nested)) key = Ok text →
  parse_instant text key = Ok z → same_time d nested key = Ok () → ∃ us, given d nested key us ∧ (0 <= us < max_us)%Z ∧ z = utc_text us.
Proof.
  intros H1 H2 Hs. destruct (parse_instant_ok _ _ _ _ _ H1 H2) as (us & Hd & Hu & ->). exists us. split; [|done]. unfold given.
  pose proof (same_time_ok d nested key Hs) as Hst. revert Hd Hst. generalize (dget_or VNone key d), (dget_or VNone key nested). intros a b Hd Hst.
  assert ((a ≠ VNone ∧ denotes a us) ∨ (a = VNone ∧ denotes b us)) as [[Ha Hda] | [-> Hdb]] by (destruct a; [by right|by left..]).
  - split; [by left|]. intros v [-> | ->] Hv; [done|]. destruct (Hst Ha Hv) as (us' & H & H'). by rewrite (denotes_unique _ _ _ Hda H).
  - assert (b ≠ VNone) as Hb by (intros ->; by destruct Hdb as (? & ? & ? & _)). split; [by right|]. intros v [-> | ->] Hv; done.
Qed.

(** *** Fields *)

Lemma dget_keep (p : pyval * pyval → bool) k d : (∀ kv, key_is k kv.1 = true → p kv = true) → dget k (List.filter p d) = dget k d.
Proof.
  intros Hp. induction d as [|[j v] d IH]; [done|]. cbn [List.filter dget]. destruct (key_is k j) eqn:E.
  - rewrite (Hp (j, v) E). cbn [dget]. by rewrite E.
  - destruct (p (j, v)); [|done]. cbn [dget]. by rewrite E.
Qed.
Lemma dget_merge k v a b : NoDup (map fst b) → (VStr k, v) ∈ b → dget k (merge_dict a b) = Some v.
Proof.
  unfold merge_dict. revert a. induction b as [|[j w] b IH]; intros a Hn Hin; [by apply elem_of_nil in Hin|]. cbn [map fst] in Hn. apply NoDup_cons in Hn as [Hj Hn].
  cbn [foldl fst snd]. apply elem_of_cons in Hin as [[= <- <-] | Hin]; [|by apply IH].
  assert (∀ d, dget k d = Some v → dget k (foldl (λ d kv, match kv.1 with VStr k0 => dset k0 kv.2 d | _ => d end) d b) = Some v) as Hk; [|apply Hk, dget_dset_eq].
  clear IH Hn. induction b as [|[j w] b IH]; intros d Hd; [done|]. cbn [foldl fst snd]. cbn [map fst] in Hj. rewrite not_elem_of_cons in Hj. destruct Hj as [Hne Hj].
  apply IH; [done|]. destruct j; try done. rewrite dget_dset_ne; [done|]. congruence.
Qed.

Lemma extensions_ok value data : with_extensions value = Ok data →
  (∀ k, k ≠ "extensions" → dget k data = dget k value) ∧ Forall (λ kv, report_key kv.1 = true) (unknown_fields value) ∧
  (unknown_fields value ≠ [] → ∃ e, dget "extensions" data = Some (VDict (merge_dict e (unknown_fields value)))).
Proof.
  unfold with_extensions. destruct (unknown_fields value) as [|x u]; [by intros [= <-]|]. intros (u1 & Hk%check_ok & H)%bind_ok.
  rewrite forallb_true_iff in Hk. apply bind_ok in H as (e & _ & H%ok_inj). subst data. split; [|split].
  - intros k Hne. by rewrite dget_dset_ne.
  - by apply Forall_forall.
  - intros _. exists e. apply dget_dset_eq.
Qed.

Lemma parsed_field data p key : key ∈ payload_fields → parsed_payload data = Ok p →
  dget_or VNone key p = (sanitize_field (key, cleaned (dget_or VNone key data))).2.
Proof.
  intros Hkey. unfold parsed_payload. intros (red & Hr & [= <-])%bind_ok. apply mapM_res_ok in Hr.
  assert (red = map (λ kv, (kv.1, cleaned kv.2)) (List.filter known_field data)) as ->.
  { clear -Hr. induction Hr as [|kv kw l l' Hk HF IH]; [done|]. apply bind_ok in Hk as (w & [_ ->]%redact_ok & [= <-]). cbn [map]. by rewrite IH. }
  rewrite map_map. cbn [fst snd]. unfold dget_or.
  assert (∀ d, dget key (map (λ kv : pyval * pyval, match kv.1 with VStr k => (kv.1, (sanitize_field (k, cleaned kv.2)).2) | _ => (kv.1, cleaned kv.2) end) d) =
    (λ v, (sanitize_field (key, cleaned v)).2) <$> dget key d) as Hm.
  { induction d as [|[j v] d IH]; [done|]. cbn [map fst snd dget]. destruct j as [| | | |s| | | | |]; cbn [key_is dget]; try done. case_bool_decide; [|done]. by subst. }
  rewrite Hm, dget_keep; [by destruct (dget key data)|].
  intros [j v] Hj. unfold known_field. cbn [fst] in *. destruct j as [| | | |s| | | | |]; try discriminate Hj. apply bool_decide_eq_true in Hj as ->.
  unfold payload_fields in Hkey. rewrite !elem_of_cons, elem_of_nil in Hkey.
  repeat (destruct Hkey as [-> | Hkey]; [reflexivity|]). by destruct Hkey.
Qed.

(** *** The timestamps that are stored *)

Definition time_char (c : ascii) : bool := no_mark c && negb (is_space c).
Lemma pad_time k n : str_forallb time_char (pad_digits k n) = true.
Proof.
  apply (str_forallb_impl is_digit); [|apply pad_digits_digits]. intros c Hd. unfold time_char. rewrite digit_no_mark by done. cbn [andb].
  revert Hd. destruct c as [[] [] [] [] [] [] [] []]; vm_compute; done.
Qed.
Lemma utc_text_shape us : ∃ a, utc_text us = a +:+ "Z" ∧ str_forallb time_char a = true.
Proof.
  unfold utc_text, isoformat, iso_with, utc_at. cbn [dt_us dt_offset orb]. destruct (civil_of_day _) as [[y m] d].
  set (us' := (us mod day_us)%Z). set (frac := if negb (us' mod 1000000 =? 0)%Z then "." +:+ pad_digits 6 (us' mod 1000000) else "").
  set (a := pad_digits 4 y +:+ "-" +:+ pad_digits 2 m +:+ "-" +:+ pad_digits 2 d +:+ "T" +:+ pad_digits 2 (us' / 1000000 / 3600) +:+ ":" +:+
    pad_digits 2 (us' / 1000000 / 60 mod 60) +:+ ":" +:+ pad_digits 2 (us' / 1000000 mod 60) +:+ frac).
  exists a. change (iso_offset 0) with "+00:00". assert (str_forallb time_char a = true) as Ha.
  { unfold a. rewrite !str_forallb_app, !pad_time. unfold frac. destruct (negb _); [by rewrite str_forallb_app, pad_time|done]. }
  assert (str_forallb no_mark a = true) as Hm by (by apply (str_forallb_impl time_char); [intros c [? _]%andb_prop|]).
  split; [|done]. rewrite <- (zulu_text a Hm). f_equal.
Qed.
Lemma strip_solid s : str_forallb (λ c, negb (is_space c)) s = true → strip s = s.
Proof.
  assert (∀ s, str_forallb (λ c, negb (is_space c)) s = true → lstrip_by is_space s = s) as Hl.
  { intros [|c t]; [done|]. cbn. destruct (is_space c); [done|]. done. }
  intros Hs. unfold strip, strip_by. rewrite Hl by done. clear Hl. induction s as [|c s IH]; [done|]. cbn [str_forallb] in Hs. apply andb_true_iff in Hs as [Hc Hs].
  cbn [rstrip_by]. rewrite (IH Hs). destruct s; [|done]. by destruct (is_space c).
Qed.
Lemma strip_utc us : strip (utc_text us) = utc_text us.
Proof.
  destruct (utc_text_shape us) as (a & -> & Ha). apply strip_solid. rewrite str_forallb_app. apply andb_true_iff. split; [|done].
  by apply (str_forallb_impl time_char); [intros c [_ ?]%andb_prop|].
Qed.
Lemma denotes_utc us v : (0 <= us < max_us)%Z → denotes (VStr (utc_text us)) v → v = us.
Proof. intros Hu (s & t & [= <-] & _ & H & _ & <-). rewrite strip_utc in H. unfold utc_text in H. rewrite (parse_auto us Hu) in H. injection H as <-. unfold instant. cbn. lia. Qed.
Lemma report_instant_ok v name t : _report_instant v name = Ok t → denotes v (instant t).
Proof. unfold _report_instant. intros (text & (s & -> & Hf & ->)%timestamp_ok & [Hp Ho]%aware_ok)%bind_ok. by exists s, t. Qed.

(** *** What parsing hands to the constructor *)

Lemma attr_stored key self : attr key (stored self) = (sanitize_field (key, cleaned (attr key self))).2.
Proof.
  unfold attr, stored, assoc. cbn [payload]. induction (payload self) as [|[k v] l IH]; [done|]. cbn [map List.find].
  change ((sanitize_field ((k, v).1, cleaned (k, v).2)).1) with k. change ((k, v).1) with k.
  destruct (decide (k = key)) as [-> | Hne]; [by rewrite bool_decide_true|]. rewrite !(bool_decide_false _ Hne). exact IH.
Qed.
Lemma attr_listed (f : string → pyval) key : key ∈ payload_fields → default VNone (assoc key (map (λ key, (key, f key)) payload_fields)) = f key.
Proof.
  unfold assoc. induction payload_fields as [|k l IH]; [by intros ?%elem_of_nil|]. cbn [map List.find fst]. rewrite elem_of_cons.
  case_bool_decide as E; [by subst|]. intros [-> | H]; [done|by apply IH].
Qed.

Lemma unknown_in k v d : (VStr k, v) ∈ d → k ∉ _REPORT_V2_FIELDS → (VStr k, v) ∈ unknown_fields d.
Proof. intros Hin Hk. apply list_elem_of_In, filter_In. split; [by apply list_elem_of_In|]. cbn [fst]. by rewrite bool_decide_false. Qed.
Lemma unknown_nodup d : NoDup (map fst d) → NoDup (map fst (unknown_fields d)).
Proof.
  unfold unknown_fields. induction d as [|[k v] d IH]; [done|]. cbn [map fst List.filter]. rewrite NoDup_cons. intros [Hk Hn].
  match goal with |- context [if ?b then _ else _] => destruct b end; [|by apply IH]. cbn [map fst]. apply NoDup_cons. split; [|by apply IH].
  rewrite list_elem_of_In, in_map_iff. intros ([k' v'] & <- & [Hin _]%filter_In). apply Hk. apply list_elem_of_In, in_map_iff. by exists (k', v').
Qed.

Lemma listed_true (key : string) (l : list string) : bool_decide (key ∈ l) = true → key ∈ l.
Proof. apply bool_decide_eq_true. Qed.
(** The payload fields that are only redacted. *)
Definition PLAIN : list string := ["outputs"; "evidence"; "tests"; "validation"; "decision"; "reason"; "blocker"; "retry"; "metadata"].
Lemma PLAIN_spec key : key ∈ PLAIN → key ∈ payload_fields ∧ key ≠ "error" ∧ key ≠ "diagnostics" ∧ key ≠ "extensions".
Proof.
  assert (forallb (λ key, bool_decide (key ∈ payload_fields) && bool_decide (key ≠ "error") && bool_decide (key ≠ "diagnostics") && bool_decide (key ≠ "extensions")) PLAIN = true)
    as H by (vm_compute; reflexivity).
  rewrite forallb_true_iff in H. intros Hk. specialize (H key Hk). by bool_inv.
Qed.

Definition parsed_report (data : dict) (payload : dict) (started completed : string) : AgentReportV2 :=
  let get key := dget_or VNone key data in
  MkReportV2 (VStr AGENT_REPORT_V2_SCHEMA_VERSION) (VStr (stripped (get "task_id"))) (get "attempt") (VStr (stripped (dget_or (get "agent") "agent_id" data)))
    (VStr (stripped (get "role"))) (VTuple (map VStr (sort_strings (texts_of (get "capabilities"))))) (get "status") (VStr started) (VStr completed)
    (get "agent") (map (λ key, (key, dget_or VNone key payload)) payload_fields).
Lemma parse_ok value strict r : parse_mapping value strict = Ok r → ∃ data nested us us' payload,
  (strict = true → unknown_fields value = []) ∧ with_extensions value = Ok data ∧ nested_times data = Ok nested ∧
  given data nested "started_at" us ∧ given data nested "completed_at" us' ∧ (0 <= us < max_us)%Z ∧ (0 <= us' < max_us)%Z ∧
  parsed_payload data = Ok payload ∧ __post_init__ (parsed_report data payload (utc_text us) (utc_text us')) = Ok r.
Proof.
  unfold parse_mapping. intros (u1 & Hu%check_ok & H)%bind_ok. apply bind_ok in H as (data & Hd & H). cbv zeta in H.
  do 7 (apply bind_ok in H as (? & _ & H)).
  apply bind_ok in H as (nested & Hn & H). apply bind_ok in H as (? & _ & H).
  apply bind_ok in H as (t1 & H1 & H). apply bind_ok in H as (t2 & H2 & H). apply bind_ok in H as ([] & Hs1 & H). apply bind_ok in H as ([] & Hs2 & H).
  apply bind_ok in H as (z1 & Hz1 & H). apply bind_ok in H as (z2 & Hz2 & H). apply bind_ok in H as (p & Hp & H). do 2 (apply bind_ok in H as (? & _ & H)).
  destruct (given_ok _ _ _ _ _ H1 Hz1 Hs1) as (us & G1 & B1 & ->), (given_ok _ _ _ _ _ H2 Hz2 Hs2) as (us' & G2 & B2 & ->).
  exists data, nested, us, us', p. split; [|done]. intros ->. cbn [negb] in Hu. rewrite orb_false_r in Hu. by apply bool_decide_eq_true in Hu.
Qed.

(** A V2 report that is parsed keeps what was reported.  Unknown fields are
    refused unless they are allowed, and then every one of them is found,
    redacted, under [extensions], and none is a credential; every start and end
    time given, at the top or nested, denotes the same instant, which is stored
    in UTC, the start not after the end; the capabilities are the given ones in
    order; the rest of the payload is the redacted payload. *)
Theorem parse_v2_faithful value d strict r : entries value = Some d → NoDup (map fst d) → parse_agent_report_v2 (inr value) strict = Ok r →
  (strict = true → unknown_fields d = []) ∧
  (∀ k v, (VStr k, v) ∈ d → k ∉ _REPORT_V2_FIELDS → _is_sensitive_label k = false ∧ ∃ e, attr "extensions" r = VDict e ∧ dget k e = Some (cleaned (cleaned v))) ∧
  (∃ nested us us', nested_times d = Ok nested ∧ given d nested "started_at" us ∧ given d nested "completed_at" us' ∧ (0 <= us <= us')%Z ∧ (us' < max_us)%Z ∧
    started_at r = VStr (utc_text us) ∧ completed_at r = VStr (utc_text us')) ∧
  (∃ caps, capabilities r = VTuple (map VStr caps) ∧ caps ≡ₚ texts_of (dget_or VNone "capabilities" d) ∧ StronglySorted (λ a b, String.leb a b = true) caps) ∧
  (∀ key, key ∈ PLAIN →
    attr key r = cleaned (cleaned (dget_or VNone key d))).
Proof.
  intros He Hn H. unfold parse_agent_report_v2 in H. cbn [mbind res_bind] in H. rewrite He in H.
  apply parse_ok in H as (data & nested & us & us' & p & Hstrict & Hd & Hnest & G1 & G2 & B1 & B2 & Hp & H).
  apply post_init_accepts in H as [Hacc ->]. apply extensions_ok in Hd as (Hget & Hkeys & Hext).
  assert (∀ k, k ≠ "extensions" → dget_or VNone k data = dget_or VNone k d) as Hor by (intros k Hk; unfold dget_or; by rewrite Hget).
  assert (∀ key, key ∈ payload_fields → attr key (stored (parsed_report data p (utc_text us) (utc_text us'))) =
    (sanitize_field (key, cleaned (sanitize_field (key, cleaned (dget_or VNone key data))).2)).2) as Hattr.
  { intros key Hkey. rewrite attr_stored. unfold attr at 1, parsed_report. cbn [payload]. rewrite attr_listed by done. by rewrite (parsed_field data p key Hkey Hp). }
  assert (∀ key v, key ≠ "error" → key ≠ "diagnostics" → (sanitize_field (key, v)).2 = v) as Hsan.
  { intros key v H1 H2. unfold sanitize_field. cbn [fst snd]. destruct v; try done; rewrite bool_decide_false; try done. by intros [? | ?]. }
  split; [done|]. split; [|split; [|split]].
  - intros k v Hin Hk. pose proof (unknown_in k v d Hin Hk) as Hu. rewrite Forall_forall in Hkeys. pose proof (Hkeys _ Hu) as Hlab. split.
    { unfold report_key in Hlab. cbn [fst] in Hlab. apply andb_true_iff in Hlab as [_ Hlab]. by apply negb_true_iff in Hlab. }
    destruct Hext as [e Hex]; [by intros E; rewrite E in Hu; apply elem_of_nil in Hu|].
    rewrite (Hattr "extensions") by (by apply (listed_true "extensions" payload_fields)). rewrite !Hsan by done. unfold dget_or. rewrite Hex. cbn [default cleaned]. eexists. split; [reflexivity|].
    rewrite dget_sort_kv, dget_map_snd, dget_sort_kv, dget_map_snd, (dget_merge k v) by (by try apply unknown_nodup). done.
  - exists nested, us, us'. unfold nested_times in *. rewrite Hor in Hnest by done. split; [exact Hnest|].
    unfold given in *. rewrite Hor in G1, G2 by done. split; [exact G1|]. split; [exact G2|].
    destruct (ac_times _ Hacc) as (a & b & Ha & Hb & Hle). cbn [started_at completed_at parsed_report] in Ha, Hb.
    apply report_instant_ok, denotes_utc in Ha, Hb; [|done..]. rewrite <- Ha, <- Hb in *. split; [lia|]. split; [lia|]. done.
  - exists (sort_strings (texts_of (dget_or VNone "capabilities" d))). split; [by cbn; rewrite Hor|]. split; [by unfold sort_strings; rewrite sort_by_perm|]. apply sort_strings_sorted.
  - intros key Hkey. pose proof (PLAIN_spec key Hkey) as (H1 & H2 & H3 & H4).
    rewrite Hattr by done. rewrite !Hsan by done. by rewrite Hor.
Qed.

(** ** Examples *)

Definition demo_v2_self : AgentReportV2 := MkReportV2 (VStr "pd-fleet-report:v2") (VStr "t1") (VInt 1) (VStr "a1") (VStr "coder")
   (VTuple [VStr "read"; VStr "write"]) (VStr "failed") (VStr "2026-01-01T00:00:00Z") (VStr "2026-01-01T00:00:01.500000Z") (VStr "a1")
   [("outputs", VNone); ("evidence", VList [VStr "log"]); ("tests", VNone); ("validation", VNone); ("decision", VNone); ("reason", VNone);
    ("error", VStr "boom in [PATH REDACTED]"); ("blocker", VNone); ("diagnostics", VNone); ("retry", VNone); ("metadata", VNone);
    ("extensions", VDict [(VStr "x", VInt 1)])].
Definition demo_v2_dict : dict := Eval cbv in match demo_v2_report [(VStr "x", VInt 1)] with VDict d => d | _ => [] end.
Lemma demo_v2_nodup : NoDup (map fst demo_v2_dict).
Proof.
  assert (map fst demo_v2_dict = VStr <$> omap as_str (map fst demo_v2_dict)) as -> by reflexivity.
  apply NoDup_fmap_2; [by intros a b [= ->]|]. apply (bool_decide_unpack _). vm_compute. exact I.
Qed.
Lemma parse_v2_faithful_witness :
  (false = true → unknown_fields demo_v2_dict = []) ∧
  (∀ k v, (VStr k, v) ∈ demo_v2_dict → k ∉ _REPORT_V2_FIELDS →
    _is_sensitive_label k = false ∧ ∃ e, attr "extensions" demo_v2_self = VDict e ∧ dget k e = Some (cleaned (cleaned v))) ∧
  (∃ nested us us', nested_times demo_v2_dict = Ok nested ∧ given demo_v2_dict nested "started_at" us ∧ given demo_v2_dict nested "completed_at" us' ∧
    (0 <= us <= us')%Z ∧ (us' < max_us)%Z ∧ started_at demo_v2_self = VStr (utc_text us) ∧ completed_at demo_v2_self = VStr (utc_text us')) ∧
  (∃ caps, capabilities demo_v2_self = VTuple (map VStr caps) ∧ caps ≡ₚ texts_of (dget_or VNone "capabilities" demo_v2_dict) ∧
    StronglySorted (λ a b, String.leb a b = true) caps) ∧
  (∀ key, key ∈ PLAIN →
    attr key demo_v2_self = cleaned (cleaned (dget_or VNone key demo_v2_dict))).
Proof.
  refine (parse_v2_faithful (VDict demo_v2_dict) demo_v2_dict false demo_v2_self eq_refl demo_v2_nodup _). vm_compute. reflexivity.
Defined.
