(* ===== verification/PlanStore.v ===== *)
(** * Runs of V2 plans ([run_store.py] on [contracts.py])

    The store's interface to the plan contract, [PlanIdentity], implemented by
    the canonical form and the hash of [contracts.py], and what that says of
    the runs [create] makes. *)

From S2P Require Import Prelude PyStr PyNum PyVal Regex Sha256 IsoTime RunStore RunStoreFacts RunStoreSpec.
From S2P Require Redaction Canonical.

Open Scope string_scope.

Definition option_of {E A} (m : res E A) : option A := match m with Ok a => Some a | Err _ => None end.
Lemma option_of_some {E A} (m : res E A) a : option_of m = Some a ↔ m = Ok a.
Proof. destruct m; cbn; naive_solver. Qed.

(** [from .contracts import canonicalize, plan_hash] *)
#[export] Instance v2_identity : PlanIdentity.
Proof.
  refine {| canonicalize v := option_of (Canonical.canonicalize v); plan_hash v := option_of (Canonical.plan_hash v) |}.
  - intros v w Hw%option_of_some. destruct (Canonical.canonicalize_root _ _ Hw) as (d & -> & _). by exists d.
  - intros v. split.
    + intros [h Hh%option_of_some]. unfold Canonical.plan_hash in Hh. apply fmap_ok in Hh as (t & Ht%Canonical.bytes_text & _).
      destruct Ht as (c & Hc & _). exists c. by apply option_of_some.
    + intros [w Hw%option_of_some]. destruct (Canonical.canonicalize_root _ _ Hw) as (d & -> & Hc & _).
      destruct (Canonical.clean_dumps _ Hc) as [t Ht]. exists (sha256_hex (Canonical.V2_HASH_DOMAIN +:+ t)). apply option_of_some.
      unfold Canonical.plan_hash. apply fmap_ok. exists t. split; [|done]. apply Canonical.bytes_text. by exists (VDict d).
Defined.

(** The store of V2 plans: [create] and [load] with that identity. *)
Definition create_v2 (rid : string) (plan : pyval) (owner : string) (clk : pyval) (d : disk) : sres (disk * dict) := create rid plan owner None clk d.
Definition load_v2 (rid : string) (d : disk) : sres dict := load rid d.

(** C33: A run of a V2 plan is durable when redaction is final on it: if [create]
    returns for a plan whose canonical strings a second redaction leaves alone,
    the disk holds a sound run, at generation 0, and [load] returns the
    snapshot that [create] wrote. *)
Theorem v2_run_durable rid plan owner clk d d' s w :
  create_v2 rid plan owner clk d = Ok (d', s) → Canonical.canonicalize plan = Ok w → Canonical.stable w = true →
  run_ok rid d' ∧ load_v2 rid d' = Ok (reload_dict s) ∧ generation (reload_dict s) = 0%Z.
Proof.
  intros Hc Hw Hs. destruct (Canonical.canonicalize_root _ _ Hw) as (kvs & -> & _).
  destruct (Canonical.canonical_again _ _ Hw Hs) as [Hw' Hr].
  assert (∃ h, plan_hash plan = Some h ∧ plan_hash (reload (VDict kvs)) = Some h) as (h & Hh & Hh').
  { destruct (proj2 (plan_hash_some plan)) as [h Hh]; [exists (VDict kvs); by apply option_of_some|]. exists h. split; [done|].
    apply option_of_some. apply option_of_some in Hh. unfold Canonical.plan_hash in *. apply fmap_ok in Hh as (t & Ht & ->). apply fmap_ok.
    exists t. split; [|done]. apply (Canonical.same_plan_text _ _ Hr). apply Canonical.bytes_text in Ht as (c & Hc' & Ht).
    apply Canonical.bytes_text. exists c. split; [|done]. congruence. }
  destruct (created_run_ok rid plan owner clk d d' s kvs h Hc) as (Hok & Hcur & Hg & _); [by apply option_of_some|done|done|].
  split; [done|]. split; [by apply load_current|done].
Qed.
Definition v2_plan : pyval := VDict [(VStr "schemaVersion", VStr "pd-fleet-plan:v2"); (VStr "tasks", VList [VDict [(VStr "id", VStr "t1")]])].
Definition v2_created : sres (disk * dict) := create "run" v2_plan "owner" None demo_time demo_empty.
Definition v2_disk : disk := Eval vm_compute in disk_of v2_created.
Definition v2_sealed : dict := Eval vm_compute in value_of [] v2_created.
Lemma v2_created_ok : create "run" v2_plan "owner" None demo_time demo_empty = Ok (v2_disk, v2_sealed).
Proof. vm_compute. reflexivity. Qed.
Definition v2_canonical : pyval := VDict [(VStr "schema_version", VStr "pd-fleet-plan:v2"); (VStr "tasks", VList [VDict [(VStr "id", VStr "t1")]])].
Lemma v2_run_durable_witness : run_ok "run" v2_disk ∧ load_v2 "run" v2_disk = Ok (reload_dict v2_sealed) ∧ generation (reload_dict v2_sealed) = 0%Z.
Proof. exact (v2_run_durable "run" v2_plan "owner" demo_time demo_empty v2_disk v2_sealed v2_canonical v2_created_ok eq_refl eq_refl). Defined.

(** Otherwise a run can be lost as soon as it is made: for a plan whose
    name holds a redacted secret followed by a slash, [create] returns the
    snapshot and writes it, and every [load] of the run reports it corrupt,
    since the hash of the stored plan is not the stored hash. *)
Example v2_run_lost : ∃ d s,
  create_v2 "run" (Canonical.unsettled_plan "sk-abcdefgh/def") "owner" demo_time demo_empty = Ok (d, s) ∧
  d.(primary) = Json (reload (VDict s)) ∧ load_v2 "run" d = Err CorruptSnapshotError.
Proof.
  exists (disk_of (create "run" (Canonical.unsettled_plan "sk-abcdefgh/def") "owner" None demo_time demo_empty)).
  exists (value_of [] (create "run" (Canonical.unsettled_plan "sk-abcdefgh/def") "owner" None demo_time demo_empty)).
  vm_compute. done.
Qed.
