(* ===== verification/Lifecycle.v ===== *)
(** * Task lifecycle (scripts/pd_fleet/lifecycle.py)

    The state machine of one task and the gate policy that releases it.
    A [TaskLifecycle] object is a record; each method is a stateful
    computation [stm TaskLifecycle lc_error unit] that returns the mutated
    object and either its value or the exception, so a method that raises
    after an assignment leaves that assignment in place. *)

From S2P Require Import Prelude PyStr PyNum PyVal.

Inductive LifecycleState : Type :=
| PENDING | READY | RUNNING | BLOCKED | FAILED | COMPLETED | SKIPPED.
#[export] Instance LifecycleState_eq_dec : EqDecision LifecycleState.
Proof. solve_decision. Defined.

(** [state.value] *)
Definition state_value (s : LifecycleState) : string :=
  match s with
  | PENDING => "pending" | READY => "ready" | RUNNING => "running" | BLOCKED => "blocked"
  | FAILED => "failed" | COMPLETED => "completed" | SKIPPED => "skipped"
  end.
Definition all_states : list LifecycleState := [PENDING; READY; RUNNING; BLOCKED; FAILED; COMPLETED; SKIPPED].

(** [LifecycleState(s)]: [None] is [ValueError]. *)
Definition state_of_string (s : string) : option LifecycleState :=
  head (filter (λ st, state_value st = s) all_states).

Inductive lc_error : Type :=
| LifecycleErr (what : string)
| InvalidTransition (from : LifecycleState) (to : option LifecycleState)
| CompletionErr
| RetryExhausted
| OverflowErr.
#[export] Instance lc_error_eq_dec : EqDecision lc_error.
Proof. solve_decision. Defined.

Definition VALID_TRANSITIONS (s : LifecycleState) : list LifecycleState :=
  match s with
  | PENDING => [READY; SKIPPED; BLOCKED]
  | READY => [RUNNING; SKIPPED; BLOCKED]
  | RUNNING => [COMPLETED; FAILED; BLOCKED]
  | FAILED => [READY]
  | BLOCKED => []
  | COMPLETED => []
  | SKIPPED => []
  end.

(** [_state]: a member of the enumeration, or its value as an exact string. *)
Definition _state (value : LifecycleState + pyval) : res lc_error LifecycleState :=
  match value with
  | inl s => Ok s
  | inr (VStr s) => match state_of_string s with Some st => Ok st | None => Err (LifecycleErr "state") end
  | inr _ => Err (LifecycleErr "state")
  end.

(** [_has]: present and not empty. *)
Definition _has (v : pyval) : bool :=
  match v with
  | VNone => false
  | VStr s => nonempty s
  | VList [] | VTuple [] | VDict [] | VProxy [] => false
  | _ => true
  end.

(** What callers pass as [now]: a [datetime], read through [timestamp()], or a number. *)
Inductive instant : Type :=
| AtDatetime (timestamp : spec_float)
| AtNum (n : pynum).

Definition _seconds (now : instant) : res lc_error spec_float :=
  match now with
  | AtDatetime ts => Ok ts
  | AtNum (NFloat f) => Ok f
  | AtNum (NInt z) => match float_of_Z z with Some f => Ok f | None => Err OverflowErr end
  end.

Record history_entry : Type := HistoryEntry {
  h_from : LifecycleState;
  h_to : LifecycleState;
  h_reason : option string }.

Record TaskLifecycle : Type := MkLifecycle {
  task_id : string;
  state : LifecycleState;
  attempt : Z;
  max_attempts : Z;
  agent : option string;
  heartbeat : option spec_float;
  started_at : option spec_float;
  finished_at : option spec_float;
  outputs : pyval;
  evidence : pyval;
  reason : option string;
  error : option string;
  history : list history_entry;
  final_report : pyval;
  report_final : pyval;
  retryable : bool }.

Section setters.
  Context (l : TaskLifecycle).
Definition set_move (s : LifecycleState) (r : option string) : TaskLifecycle :=
    MkLifecycle l.(task_id) s l.(attempt) l.(max_attempts) l.(agent) l.(heartbeat) l.(started_at)
      l.(finished_at) l.(outputs) l.(evidence)
      (match r with Some _ => r | None => l.(reason) end) l.(error)
      (l.(history) ++ [HistoryEntry l.(state) s r]) l.(final_report) l.(report_final) l.(retryable).
Definition set_attempt (n : Z) : TaskLifecycle :=
    MkLifecycle l.(task_id) l.(state) n l.(max_attempts) l.(agent) l.(heartbeat) l.(started_at)
      l.(finished_at) l.(outputs) l.(evidence) l.(reason) l.(error) l.(history) l.(final_report)
      l.(report_final) l.(retryable).
Definition set_agent (a : string) : TaskLifecycle :=
    MkLifecycle l.(task_id) l.(state) l.(attempt) l.(max_attempts) (Some a) l.(heartbeat) l.(started_at)
      l.(finished_at) l.(outputs) l.(evidence) l.(reason) l.(error) l.(history) l.(final_report)
      l.(report_final) l.(retryable).
Definition set_times (hb st fin : option spec_float) : TaskLifecycle :=
    MkLifecycle l.(task_id) l.(state) l.(attempt) l.(max_attempts) l.(agent) hb st
      fin l.(outputs) l.(evidence) l.(reason) l.(error) l.(history) l.(final_report)
      l.(report_final) l.(retryable).
Definition set_results (o e : pyval) : TaskLifecycle :=
    MkLifecycle l.(task_id) l.(state) l.(attempt) l.(max_attempts) l.(agent) l.(heartbeat) l.(started_at)
      l.(finished_at) o e l.(reason) l.(error) l.(history) e e l.(retryable).
Definition set_error (e : option string) (r : bool) : TaskLifecycle :=
    MkLifecycle l.(task_id) l.(state) l.(attempt) l.(max_attempts) l.(agent) l.(heartbeat) l.(started_at)
      l.(finished_at) l.(outputs) l.(evidence) l.(reason) e l.(history) l.(final_report)
      l.(report_final) r.
End setters.

(** [__post_init__] on the fields given to the constructor, [st] being the [state] argument. *)
Definition __post_init__ (st : LifecycleState + pyval) (l : TaskLifecycle) : res lc_error TaskLifecycle :=
  s ← _state st;
  _ ← ensure (nonempty l.(task_id)) (LifecycleErr "task_id");
  _ ← ensure (1 <=? l.(max_attempts))%Z (LifecycleErr "max_attempts");
  _ ← ensure (negb ((l.(attempt) <? 0) || (l.(max_attempts) <? l.(attempt))))%Z (LifecycleErr "attempt");
  Ok (MkLifecycle l.(task_id) s l.(attempt) l.(max_attempts) l.(agent) l.(heartbeat) l.(started_at)
        l.(finished_at) l.(outputs) l.(evidence) l.(reason) l.(error) l.(history) l.(final_report)
        l.(report_final) l.(retryable)).

(** [TaskLifecycle(task_id, max_attempts=n)]: every other field at its default. *)
Definition fresh (tid : string) (n : Z) : TaskLifecycle :=
  MkLifecycle tid PENDING 0 n None None None None VNone VNone None None [] VNone VNone true.

(** ** Methods *)

Definition lc (A : Type) : Type := stm TaskLifecycle lc_error A.

Definition can_transition (target : LifecycleState) (l : TaskLifecycle) : bool :=
  bool_decide (target ∈ VALID_TRANSITIONS l.(state)).

Definition transition (target : LifecycleState + pyval) (r : option string) : lc unit :=
  t ← lift_res (_state target);
  l ← get_state;
  _ ← ensure_st (can_transition t l) (InvalidTransition l.(state) (Some t));
  modify (λ l, set_move l t r).

Definition mark_ready : lc unit := transition (inl READY) None.

Definition start (ag : string) (now : option instant) : lc unit :=
  _ ← ensure_st (nonempty ag) (LifecycleErr "agent");
  _ ← transition (inl RUNNING) None;
  _ ← modify (λ l, if (l.(attempt) =? 0)%Z then set_attempt l 1 else l);
  _ ← modify (λ l, set_agent l ag);
  match now with
  | None => mret ()
  | Some n => t ← lift_res (_seconds n);
              modify (λ l, set_times l (Some t) (Some t) l.(finished_at))
  end.

Definition beat (now : instant) : lc unit :=
  l ← get_state;
  _ ← ensure_st (bool_decide (l.(state) = RUNNING)) (InvalidTransition l.(state) None);
  t ← lift_res (_seconds now);
  modify (λ l, set_times l (Some t) l.(started_at) l.(finished_at)).

Definition set_finished (now : option instant) : lc unit :=
  match now with
  | None => mret ()
  | Some n => t ← lift_res (_seconds n);
              modify (λ l, set_times l l.(heartbeat) l.(started_at) (Some t))
  end.

Definition complete (outs evid : pyval) (now : option instant) : lc unit :=
  l ← get_state;
  if bool_decide (l.(state) = COMPLETED) then mret () else
  _ ← ensure_st (bool_decide (l.(state) = RUNNING)) (InvalidTransition l.(state) (Some COMPLETED));
  _ ← ensure_st (_has outs && _has evid) CompletionErr;
  _ ← modify (λ l, set_results l outs evid);
  _ ← set_finished now;
  transition (inl COMPLETED) None.

Definition fail (err : string) (retry_ok : bool) (now : option instant) : lc unit :=
  l ← get_state;
  _ ← ensure_st (bool_decide (l.(state) = RUNNING)) (InvalidTransition l.(state) (Some FAILED));
  _ ← modify (λ l, set_error l (Some err) retry_ok);
  _ ← set_finished now;
  transition (inl FAILED) (Some err).

Definition retry : lc unit :=
  l ← get_state;
  _ ← ensure_st (bool_decide (l.(state) = FAILED)) (InvalidTransition l.(state) None);
  _ ← ensure_st (l.(attempt) <? l.(max_attempts))%Z RetryExhausted;
  _ ← ensure_st l.(retryable) RetryExhausted;
  _ ← modify (λ l, set_error (set_attempt l (l.(attempt) + 1)) None l.(retryable));
  transition (inl READY) (Some "explicit_retry").

Definition block (why : string) : lc unit :=
  _ ← ensure_st (negb (blank why)) (LifecycleErr "blocked");
  transition (inl BLOCKED) (Some why).

Definition skip (why : string) : lc unit :=
  _ ← ensure_st (negb (blank why)) (LifecycleErr "skipped");
  transition (inl SKIPPED) (Some why).

Definition opt_or {A} (a b : option A) : option A := match a with Some _ => a | None => b end.

(** The test of [recover_orphan]: the elapsed time is a float subtraction,
    computed only when there are a report and a reference instant. *)
Definition orphan_expired (l : TaskLifecycle) (now : instant) (timeout : pynum) : res lc_error bool :=
  let report := match l.(final_report) with VNone => l.(report_final) | r => r end in
  match is_none report, opt_or l.(heartbeat) l.(started_at) with
  | false, Some ref => t ← _seconds now; Ok (num_leb timeout (NFloat (fsub t ref)))
  | _, _ => Ok true
  end.

(** [recover_orphan]: [True] when the task was failed as an orphan. *)
Definition recover_orphan (now : instant) (timeout : pynum) : lc bool :=
  l ← get_state;
  if negb (bool_decide (l.(state) = RUNNING)) then mret false else
  _ ← ensure_st (negb (num_ltb timeout (NInt 0))) (LifecycleErr "timeout_seconds");
  expired ← lift_res (orphan_expired l now timeout);
  if (expired : bool) then _ ← fail "orphaned_run" true (Some now); mret true else mret false.

(** ** Gate policy *)

(** A gate as the policy receives it: a mapping, or an object with attributes. *)
Inductive gate_view : Type :=
| GateMap (kvs : list (pyval * pyval))
| GateObj (attrs : list (pyval * pyval)).

Definition gate_fields (g : gate_view) : list (pyval * pyval) :=
  match g with GateMap kvs | GateObj kvs => kvs end.

Record GatePolicy : Type := MkGatePolicy {
  required : list string;
  allow_skipped_dependencies : bool }.

Definition gate_identity (g : gate_view) : pyval :=
  match g with
  | GateMap kvs => dget_or (dget_or VNone "gate_id" kvs) "id" kvs
  | GateObj attrs => dget_or VNone "id" attrs
  end.

Definition from_gates (gates : list gate_view) : GatePolicy :=
  MkGatePolicy (omap (λ g, let i := gate_identity g in if truthy i then Some (py_str i) else None) gates) true.

Definition present (g : gate_view) (name : string) : bool := dhas name (gate_fields g).
Definition field (g : gate_view) (name : string) : pyval := dget_or VNone name (gate_fields g).

Definition _passed (gate : option gate_view) : bool :=
  match gate with
  | None => false
  | Some g =>
      if negb (key_is "passed" (field g "status")) then false
      else if present g "evidence" && negb (_has (field g "evidence")) then false
      else if present g "owner" && negb (_has (field g "owner")) then false
      else if present g "decision" && negb (_has (field g "decision")) then false
      else if present g "blockers" && _has (field g "blockers") then false
      else true
  end.

(** The [gates] argument: a mapping from identifiers, or an iterable of gates
    indexed by their [id] or [gate_id] attribute (a mapping has neither, and is
    indexed by the empty string); later gates win. *)
Definition gates_arg : Type := list (string * gate_view) + list gate_view.

Definition object_key (g : gate_view) : string :=
  match g with
  | GateMap _ => ""
  | GateObj attrs => py_str (dget_or (dget_or (VStr "") "gate_id" attrs) "id" attrs)
  end.

Definition gate_values (gates : gates_arg) : gmap string gate_view :=
  match gates with
  | inl kvs => list_to_map (reverse kvs)
  | inr gs => list_to_map (reverse (map (λ g, (object_key g, g)) gs))
  end.

Definition allows (p : GatePolicy) (gates : gates_arg) : bool :=
  forallb (λ g, _passed (gate_values gates !! g)) p.(required).

Definition blocked_by (p : GatePolicy) (gates : gates_arg) : list string :=
  filter (λ g, _passed (gate_values gates !! g) = false) p.(required).

Definition require_ready (p : GatePolicy) (gates : gates_arg) : lc unit :=
  l ← get_state;
  if bool_decide (l.(state) = PENDING) then
    if allows p gates then mark_ready
    else block ("gate: " +:+ join ", " (blocked_by p gates))
  else mret ().

(** ** Sequences of operations *)

Inductive op : Type :=
| OpTransition (t : LifecycleState + pyval) (r : option string)
| OpMarkReady
| OpStart (ag : string) (now : option instant)
| OpBeat (now : instant)
| OpComplete (o e : pyval) (now : option instant)
| OpFail (err : string) (retry_ok : bool) (now : option instant)
| OpRetry
| OpBlock (why : string)
| OpSkip (why : string)
| OpRecover (now : instant) (timeout : pynum)
| OpRequireReady (p : GatePolicy) (gates : gates_arg).

Definition exec (o : op) : lc unit :=
  match o with
  | OpTransition t r => transition t r
  | OpMarkReady => mark_ready
  | OpStart a n => start a n
  | OpBeat n => beat n
  | OpComplete x y n => complete x y n
  | OpFail e b n => fail e b n
  | OpRetry => retry
  | OpBlock w => block w
  | OpSkip w => skip w
  | OpRecover n t => _ ← recover_orphan n t; mret ()
  | OpRequireReady p g => require_ready p g
  end.

(** The object after the operations, exceptions caught by the caller. *)
Definition run_ops (ops : list op) (l : TaskLifecycle) : TaskLifecycle :=
  foldl (λ l o, (exec o l).1) l ops.

(** The object after the operations when none raises. *)
Fixpoint run_ok (ops : list op) (l : TaskLifecycle) : option TaskLifecycle :=
  match ops with
  | [] => Some l
  | o :: ops => match exec o l with (l', Ok _) => run_ok ops l' | _ => None end
  end.

(** The number of [retry] calls that returned. *)
Fixpoint retries (ops : list op) (l : TaskLifecycle) : Z :=
  match ops with
  | [] => 0
  | o :: ops =>
      (match o, exec o l with OpRetry, (_, Ok _) => 1 | _, _ => 0 end + retries ops (exec o l).1)%Z
  end.

(** Follow a recorded history from a state, checking every edge. *)
Fixpoint replay (s : LifecycleState) (h : list history_entry) : option LifecycleState :=
  match h with
  | [] => Some s
  | e :: h => if bool_decide (h_from e = s) && bool_decide (h_to e ∈ VALID_TRANSITIONS s)
              then replay (h_to e) h else None
  end.

Definition terminal (s : LifecycleState) : bool := bool_decide (VALID_TRANSITIONS s = []).

Record lc_wf (l : TaskLifecycle) : Prop := {
  wf_max : (1 ≤ l.(max_attempts))%Z;
  wf_attempt : (0 ≤ l.(attempt) ≤ l.(max_attempts))%Z;
  wf_history : replay PENDING l.(history) = Some l.(state) }.

(** ** Lemmas *)

Lemma transition_eq t r l :
  transition (inl t) r l =
  if can_transition t l then (set_move l t r, Ok ()) else (l, Err (InvalidTransition l.(state) (Some t))).
Proof.
  unfold transition, mbind, stm_bind, lift_res, get_state, ensure_st, lift_res, ensure, modify.
  cbn -[can_transition]. by destruct (can_transition t l).
Qed.

Lemma transition_val_eq v r l :
  transition (inr v) r l =
  match _state (inr v) with Ok t => transition (inl t) r l | Err e => (l, Err e) end.
Proof. destruct v; reflexivity. Qed.

Lemma set_finished_eq now l :
  set_finished now l =
  match now with
  | None => (l, Ok ())
  | Some n => match _seconds n with
              | Ok t => (set_times l l.(heartbeat) l.(started_at) (Some t), Ok ())
              | Err e => (l, Err e)
              end
  end.
Proof. unfold set_finished. destruct now as [n|]; cbn; [|done]. by destruct (_seconds n). Qed.

Lemma seconds_err n e : _seconds n = Err e → e = OverflowErr.
Proof. destruct n as [|[z|]]; cbn; try done. destruct (float_of_Z z); congruence. Qed.

Lemma replay_app s h e s' :
  replay s h = Some s' →
  replay s (h ++ [e]) =
    if bool_decide (h_from e = s') && bool_decide (h_to e ∈ VALID_TRANSITIONS s') then Some (h_to e) else None.
Proof.
  revert s. induction h as [|x h IH]; intros s; cbn; [by intros [= ->]|].
  destruct (bool_decide (h_from x = s) && _); [apply IH|done].
Qed.

Lemma blank_cons c s : is_space c = false → blank (String c s) = false.
Proof.
  intros Hc. unfold blank, strip, strip_by. cbn [lstrip_by]. rewrite Hc. cbn [rstrip_by].
  destruct (rstrip_by is_space s); cbn; by rewrite ?Hc.
Qed.

(** Run the monadic code of every method down to its branches. *)
Ltac lc_step :=
  repeat first
    [ rewrite transition_eq | rewrite transition_val_eq | rewrite set_finished_eq
    | progress cbn -[_state can_transition _seconds transition set_finished num_ltb num_leb _has blank
                     allows blocked_by join fsub] in * ].
Ltac lc_unfold :=
  unfold exec, mark_ready, start, beat, complete, fail, retry, block, skip, recover_orphan,
    require_ready, ensure_st, lift_res, get_state, modify, ensure, mbind, mret, stm_bind, stm_ret.
Ltac lc_cases :=
  lc_unfold; lc_step; repeat (case_match; simplify_eq/=; lc_step).

Lemma set_move_wf l t r : lc_wf l → can_transition t l = true → lc_wf (set_move l t r).
Proof.
  intros [Hm Ha Hh] Hc. split; cbn; [done..|].
  unfold can_transition in Hc. rewrite (replay_app _ _ _ _ Hh). cbn.
  by rewrite bool_decide_true, Hc by done.
Qed.

Lemma set_attempt_wf l n : (0 ≤ n ≤ l.(max_attempts))%Z → lc_wf l → lc_wf (set_attempt l n).
Proof. intros Hn [? ? ?]; by split. Qed.
Lemma set_agent_wf l a : lc_wf l → lc_wf (set_agent l a).
Proof. intros [? ? ?]; by split. Qed.
Lemma set_times_wf l a b c : lc_wf l → lc_wf (set_times l a b c).
Proof. intros [? ? ?]; by split. Qed.
Lemma set_results_wf l a b : lc_wf l → lc_wf (set_results l a b).
Proof. intros [? ? ?]; by split. Qed.
Lemma set_error_wf l a b : lc_wf l → lc_wf (set_error l a b).
Proof. intros [? ? ?]; by split. Qed.

Create HintDb lifecycle.
#[export] Hint Resolve set_move_wf set_attempt_wf set_agent_wf set_times_wf set_results_wf
  set_error_wf : lifecycle.

(** What [fail] does to a running task. *)
Lemma fail_eq err ok now l :
  l.(state) = RUNNING →
  fail err ok now l =
  match set_finished now (set_error l (Some err) ok) with
  | (l', Ok _) => (set_move l' FAILED (Some err), Ok ())
  | (l', Err e) => (l', Err e)
  end.
Proof.
  intros Hr. lc_unfold. rewrite Hr. cbn -[transition set_finished].
  rewrite set_finished_eq. destruct now as [n|]; cbn -[transition]; [destruct (_seconds n)|];
    cbn -[transition]; rewrite ?transition_eq; unfold can_transition; cbn; by rewrite ?Hr.
Qed.

Lemma set_finished_wf now l : lc_wf l → lc_wf (set_finished now l).1.
Proof.
  intros. rewrite set_finished_eq. destruct now as [n|]; [|done].
  destruct (_seconds n); cbn; eauto with lifecycle.
Qed.

Lemma set_finished_state now l : state (set_finished now l).1 = state l.
Proof. rewrite set_finished_eq. destruct now as [n|]; [|done]. by destruct (_seconds n). Qed.

Lemma transition_wf t r l : lc_wf l → lc_wf (transition t r l).1.
Proof.
  intros Hl. destruct t as [t|v].
  - rewrite transition_eq. destruct (can_transition t l) eqn:?; cbn; eauto with lifecycle.
  - rewrite transition_val_eq. destruct (_state (inr v)) as [t|]; [|done].
    rewrite transition_eq. destruct (can_transition t l) eqn:?; cbn; eauto with lifecycle.
Qed.

Lemma fail_wf err ok now l : lc_wf l → lc_wf (fail err ok now l).1.
Proof.
  intros Hl. destruct (decide (l.(state) = RUNNING)) as [Hr|Hr].
  - rewrite fail_eq by done. pose proof (set_finished_wf now (set_error l (Some err) ok)) as Hf.
    pose proof (set_finished_state now (set_error l (Some err) ok)) as Hs.
    destruct (set_finished now _) as [l' [u|e]]; cbn in *; [|eauto with lifecycle].
    apply set_move_wf; [eauto with lifecycle|]. unfold can_transition. by rewrite Hs, Hr.
  - lc_unfold. by rewrite bool_decide_false by done.
Qed.

(** [recover_orphan] either leaves the object alone or is a [fail] call. *)
Lemma recover_orphan_shape now timeout l :
  (recover_orphan now timeout l).1 = l ∨
  (recover_orphan now timeout l).1 = (fail "orphaned_run" true (Some now) l).1.
Proof.
  lc_unfold. destruct (negb (bool_decide (l.(state) = RUNNING))) eqn:Hr; [by left|].
  destruct (negb (num_ltb timeout (NInt 0))); [|by left].
  destruct (orphan_expired l now timeout) as [[]|]; [|by left..]. right.
  change (((let '(s', r) := fail "orphaned_run" true (Some now) l in
    match r with Ok _ => (s', Ok true) | Err e => (s', Err e) end) : TaskLifecycle * res lc_error bool).1 = (fail "orphaned_run" true (Some now) l).1).
  by destruct (fail _ _ _ l) as [? []].
Qed.

Lemma block_wf why l : lc_wf l → lc_wf (block why l).1.
Proof. intros. lc_unfold. destruct (negb (blank why)); [by apply transition_wf|done]. Qed.

Lemma start_wf ag now l : lc_wf l → lc_wf (start ag now l).1.
Proof.
  intros Hl. pose proof (transition_wf (inl RUNNING) None l Hl) as Ht. revert Ht.
  lc_unfold. destruct (nonempty ag); [|done]. cbn -[transition].
  rewrite transition_eq. destruct (can_transition RUNNING l) eqn:?; [|done]. cbn. intros Ht.
  destruct Ht as [Hm Ha Hh]. cbn in *.
  destruct now as [n|]; cbn; [destruct (_seconds n)|]; cbn;
    destruct (l.(attempt) =? 0)%Z; cbn; split; cbn; try done; lia.
Qed.

Lemma exec_wf o l : lc_wf l → lc_wf (exec o l).1.
Proof.
  intros Hl. destruct o; unfold exec; try by eauto using transition_wf, start_wf, fail_wf, block_wf.
  - unfold beat. lc_unfold. destruct (bool_decide _); [|done]. cbn.
    destruct (_seconds now); cbn; eauto with lifecycle.
  - lc_unfold. destruct (bool_decide (l.(state) = COMPLETED)); [done|].
    destruct (bool_decide _); [|done]. destruct (_has o && _has e); [|done]. cbn -[transition set_finished].
    pose proof (set_finished_wf now (set_results l o e)) as Hf.
    destruct (set_finished now _) as [l' [u|x]]; cbn -[transition] in *; eauto using transition_wf with lifecycle.
  - lc_unfold. destruct (bool_decide _); [|done]. destruct (_ <? _)%Z eqn:Hlt; [|done].
    destruct (l.(retryable)); [|done]. cbn -[transition]. apply transition_wf, set_error_wf, set_attempt_wf; [|done].
    destruct Hl. apply Z.ltb_lt in Hlt. lia.
  - lc_unfold. destruct (negb (blank why)); [by apply transition_wf|done].
  - unfold mbind, stm_bind. destruct (recover_orphan_shape now timeout l) as [H|H];
      destruct (recover_orphan now timeout l) as [l' [b|e]]; cbn in *; subst; eauto using fail_wf.
  - unfold require_ready, mbind, stm_bind, get_state. destruct (bool_decide _); [|done].
    destruct (allows p gates); [by apply transition_wf|by apply block_wf].
Qed.

Lemma fresh_wf tid n : (1 ≤ n)%Z → lc_wf (fresh tid n).
Proof. split; cbn; [done|lia|done]. Qed.

Lemma run_ops_wf ops l : lc_wf l → lc_wf (run_ops ops l).
Proof. revert l. induction ops; cbn; eauto using exec_wf. Qed.
#[export] Hint Resolve exec_wf fresh_wf run_ops_wf : lifecycle.

Lemma run_ok_run_ops ops l l' : run_ok ops l = Some l' → l' = run_ops ops l.
Proof.
  revert l. induction ops as [|o ops IH]; intros l; cbn; [congruence|].
  destruct (exec o l) as [l1 [u|e]] eqn:He; [|done]. intros H. cbn. by apply IH.
Qed.

Lemma run_ok_snoc ops o l l' :
  run_ok ops l = Some l' →
  run_ok (ops ++ [o]) l = match exec o l' with (l2, Ok _) => Some l2 | _ => None end.
Proof.
  revert l. induction ops as [|x ops IH]; intros l; cbn.
  - intros [= ->]. by destruct (exec o l') as [? [|]].
  - destruct (exec x l) as [l1 [u|e]]; [apply IH|done].
Qed.

(** Rule induction over the operations that returned. *)
Lemma run_ok_inv (P : TaskLifecycle → Prop) ops l l' :
  (∀ o l l', P l → exec o l = (l', Ok ()) → P l') →
  P l → run_ok ops l = Some l' → P l'.
Proof.
  intros Hstep. revert l. induction ops as [|o ops IH]; intros l Hl; cbn; [congruence|].
  destruct (exec o l) as [l1 [[]|e]] eqn:He; [|done]. eauto.
Qed.

(** An exception leaves the object as it was, up to the conversion of [now]. *)
Lemma transition_err t r l l' e : transition t r l = (l', Err e) → l' = l.
Proof.
  destruct t as [t|v]; [|rewrite transition_val_eq; destruct (_state (inr v)) as [t|]; [|congruence]];
    rewrite transition_eq; destruct (can_transition t l); congruence.
Qed.

Lemma fail_err err ok now l l' e : fail err ok now l = (l', Err e) → e = OverflowErr ∨ l' = l.
Proof.
  destruct (decide (l.(state) = RUNNING)) as [Hr|Hr].
  - rewrite fail_eq, set_finished_eq by done. destruct now as [n|]; [|discriminate].
    destruct (_seconds n) eqn:Hs; [discriminate|]. intros [= <- <-]. left. by eapply seconds_err.
  - lc_unfold. rewrite bool_decide_false by done. cbn. naive_solver.
Qed.

Lemma retry_err l l' e : retry l = (l', Err e) → l' = l.
Proof.
  unfold retry, mbind, stm_bind, get_state, ensure_st, lift_res, ensure, modify.
  destruct (bool_decide _) eqn:Hr; [|naive_solver]. destruct (_ <? _)%Z; [|naive_solver].
  destruct (l.(retryable)); [|naive_solver]. rewrite transition_eq. unfold can_transition.
  bool_inv. cbn. by rewrite Hr.
Qed.

Lemma recover_orphan_err now timeout l l' e :
  recover_orphan now timeout l = (l', Err e) → e = OverflowErr ∨ l' = l.
Proof.
  unfold recover_orphan, ensure_st, lift_res, get_state, ensure, mbind, mret, stm_bind, stm_ret.
  destruct (negb (bool_decide _)); [discriminate|].
  destruct (negb (num_ltb _ _)); [|naive_solver].
  destruct (orphan_expired l now timeout) as [[]|]; [|discriminate|naive_solver].
  destruct (fail _ _ _ l) as [l1 [u|x]] eqn:Hf; [discriminate|].
  intros [= <- <-]. by eapply fail_err.
Qed.

Lemma block_err why l l' e : block why l = (l', Err e) → l' = l.
Proof. lc_unfold. destruct (negb (blank why)); [apply transition_err|naive_solver]. Qed.

Lemma exec_err o l l' e : exec o l = (l', Err e) → e = OverflowErr ∨ l' = l.
Proof.
  destruct o; unfold exec;
    try by eauto using transition_err, fail_err, block_err, retry_err.
  - lc_unfold. destruct (nonempty ag); [|naive_solver]. cbn -[transition].
    rewrite transition_eq. destruct (can_transition RUNNING l); [|naive_solver]. cbn.
    destruct now as [n|]; [|naive_solver]. cbn. destruct (_seconds n) eqn:Hs; [naive_solver|].
    intros [= <- <-]. left. by eapply seconds_err.
  - lc_unfold. destruct (bool_decide _); [|naive_solver]. destruct (_seconds now); naive_solver.
  - lc_unfold. destruct (bool_decide (l.(state) = COMPLETED)); [discriminate|].
    destruct (bool_decide _) eqn:Hr; [|naive_solver]. destruct (_has o && _has e0); [|naive_solver].
    rewrite set_finished_eq. bool_inv. destruct now as [n|]; [destruct (_seconds n) eqn:Hs|];
      rewrite ?transition_eq; unfold can_transition; cbn; rewrite ?Hr; cbn; try discriminate.
    intros [= <- <-]. left. by eapply seconds_err.
  - lc_unfold. destruct (negb (blank why)); [|naive_solver]. intros H. right. by eapply transition_err.
  - unfold mbind, stm_bind. destruct (recover_orphan now timeout l) as [l1 [b|x]] eqn:Hf; [discriminate|].
    intros [= <- <-]. by eapply recover_orphan_err.
  - unfold require_ready, mbind, stm_bind, get_state. destruct (bool_decide _); [|discriminate].
    destruct (allows p gates); intros H; right; [by eapply transition_err|by eapply block_err].
Qed.

(** No edge leaves a terminal state. *)
Lemma transition_terminal t r l : terminal l.(state) = true → (transition t r l).1 = l.
Proof.
  intros Ht. unfold terminal in Ht. bool_inv. assert (∀ s, can_transition s l = false) as Hc.
  { intros s. unfold can_transition. rewrite Ht. by apply bool_decide_false, not_elem_of_nil. }
  destruct t as [t|v]; [|rewrite transition_val_eq; destruct (_state (inr v)) as [t|]; [|done]];
    by rewrite transition_eq, Hc.
Qed.

Lemma exec_terminal o l : terminal l.(state) = true → (exec o l).1 = l.
Proof.
  intros Ht. pose proof (λ t r, transition_terminal t r l Ht) as Htr.
  assert (l.(state) ≠ RUNNING ∧ l.(state) ≠ FAILED ∧ l.(state) ≠ PENDING) as (Hr & Hf & Hp).
  { unfold terminal in Ht. bool_inv. repeat split; intros Hs; rewrite Hs in Ht; discriminate. }
  destruct o; unfold exec; try by apply Htr.
  - unfold start, mbind, stm_bind, ensure_st, lift_res, ensure. destruct (nonempty ag); [|done].
    specialize (Htr (inl RUNNING) None). rewrite transition_eq in *.
    destruct (can_transition RUNNING l) eqn:Hc; [|done]. cbn in Htr.
    by rewrite <- Htr in Hr.
  - lc_unfold. by rewrite bool_decide_false by done.
  - lc_unfold. destruct (bool_decide (l.(state) = COMPLETED)); [done|].
    by rewrite bool_decide_false by done.
  - lc_unfold. by rewrite bool_decide_false by done.
  - lc_unfold. by rewrite bool_decide_false by done.
  - lc_unfold. destruct (negb (blank why)); [apply Htr|done].
  - lc_unfold. destruct (negb (blank why)); [apply Htr|done].
  - unfold mbind, stm_bind, recover_orphan, mbind, stm_bind, get_state.
    by rewrite bool_decide_false by done.
  - unfold require_ready, mbind, stm_bind, get_state. by rewrite bool_decide_false by done.
Qed.

(** The attempt counter never decreases, and the limit never changes. *)
Lemma set_finished_counts now l :
  attempt (set_finished now l).1 = attempt l ∧ max_attempts (set_finished now l).1 = max_attempts l.
Proof. rewrite set_finished_eq. destruct now as [n|]; [|done]. by destruct (_seconds n). Qed.

Lemma transition_counts t r l :
  attempt (transition t r l).1 = attempt l ∧ max_attempts (transition t r l).1 = max_attempts l.
Proof.
  destruct t as [t|v]; [|rewrite transition_val_eq; destruct (_state (inr v)) as [t|]; [|done]];
    rewrite transition_eq; by destruct (can_transition t l).
Qed.

Lemma fail_counts err ok now l :
  attempt (fail err ok now l).1 = attempt l ∧ max_attempts (fail err ok now l).1 = max_attempts l.
Proof.
  destruct (decide (l.(state) = RUNNING)) as [Hr|Hr].
  - rewrite fail_eq by done. pose proof (set_finished_counts now (set_error l (Some err) ok)).
    by destruct (set_finished now _) as [l' [|]].
  - lc_unfold. by rewrite bool_decide_false by done.
Qed.

Lemma block_counts why l :
  attempt (block why l).1 = attempt l ∧ max_attempts (block why l).1 = max_attempts l.
Proof. lc_unfold. destruct (negb (blank why)); [apply transition_counts|done]. Qed.

Lemma retry_ok l l' :
  retry l = (l', Ok ()) →
  state l = FAILED ∧ retryable l = true ∧ state l' = READY ∧ max_attempts l' = max_attempts l ∧
  attempt l' = (attempt l + 1)%Z ∧ (attempt l < max_attempts l)%Z.
Proof.
  unfold retry, mbind, stm_bind, get_state, ensure_st, lift_res, ensure, modify.
  destruct (bool_decide _) eqn:Hs; [|discriminate]. destruct (_ <? _)%Z eqn:Hlt; [|discriminate].
  destruct (retryable l); [|discriminate]. bool_inv. rewrite transition_eq. unfold can_transition. cbn.
  rewrite Hs. cbn. intros [= <-]. by cbn.
Qed.

Lemma exec_counts o l :
  (attempt l ≤ attempt (exec o l).1)%Z ∧ max_attempts (exec o l).1 = max_attempts l.
Proof.
  destruct o; unfold exec, mark_ready;
    try match goal with |- context [transition ?t ?r l] => destruct (transition_counts t r l); split; [lia|done] end;
    try match goal with |- context [fail ?t ?r ?n l] => destruct (fail_counts t r n l); split; [lia|done] end.
  - unfold start, mbind, stm_bind, ensure_st, lift_res, ensure. destruct (nonempty ag); [|done].
    rewrite transition_eq. destruct (can_transition RUNNING l); [|done]. cbn.
    destruct (attempt l =? 0)%Z eqn:Ha; bool_inv; (destruct now as [n|]; [cbn; destruct (_seconds n)|]); cbn;
      split; (done || lia).
  - lc_unfold. destruct (bool_decide _); [|done]. cbn. by destruct (_seconds now).
  - lc_unfold. destruct (bool_decide (l.(state) = COMPLETED)); [done|].
    destruct (bool_decide _); [|done]. destruct (_has o && _has e); [|done].
    pose proof (set_finished_counts now (set_results l o e)) as [Ha Hm].
    destruct (set_finished now _) as [l' [u|x]]; cbn -[transition] in *;
      [destruct (transition_counts (inl COMPLETED) None l')|]; split; (lia || congruence).
  - destruct (retry l) as [l' [[]|e]] eqn:Hr.
    + apply retry_ok in Hr as (? & ? & ? & ? & ? & ?). cbn. split; [lia|done].
    + apply retry_err in Hr. by subst.
  - destruct (block_counts why l). split; [lia|done].
  - lc_unfold. destruct (negb (blank why)); [|done].
    destruct (transition_counts (inl SKIPPED) (Some why) l). split; [lia|done].
  - unfold mbind, stm_bind. destruct (recover_orphan_shape now timeout l) as [H|H];
      destruct (recover_orphan now timeout l) as [l' [b|e]]; cbn in *; subst; try done;
      destruct (fail_counts "orphaned_run" true (Some now) l); split; (lia || done).
  - unfold require_ready, mbind, stm_bind, get_state. destruct (bool_decide _); [|done].
    destruct (allows p gates); [destruct (transition_counts (inl READY) None l)|
      match goal with |- context [block ?w l] => destruct (block_counts w l) end]; split; (done || (unfold mark_ready; lia)).
Qed.

Lemma run_ops_terminal ops l : terminal l.(state) = true → run_ops ops l = l.
Proof. intros Ht. induction ops as [|o ops IH]; cbn; [done|]. by rewrite exec_terminal. Qed.

Lemma run_ops_max ops l : max_attempts (run_ops ops l) = max_attempts l.
Proof.
  revert l. induction ops as [|o ops IH]; intros l; cbn; [done|].
  change (max_attempts (run_ops ops (exec o l).1) = max_attempts l). rewrite IH. apply exec_counts.
Qed.

Lemma retries_budget ops l : lc_wf l → (retries ops l ≤ max_attempts l - attempt l)%Z.
Proof.
  revert l. induction ops as [|o ops IH]; intros l Hl; cbn [retries]; [destruct Hl; lia|].
  specialize (IH (exec o l).1 (exec_wf o l Hl)). destruct (exec_counts o l) as [Ha Hm].
  rewrite Hm in IH. destruct o; try lia. destruct (exec OpRetry l) as [l' [[]|e]] eqn:He; [|lia].
  apply retry_ok in He. cbn in *. lia.
Qed.

(** The objects that the named methods (everything but the raw [transition])
    maintain: a task that ran has an agent and a counted attempt, and a
    completed one carries its outputs and evidence, which are its report. *)
Definition not_raw (o : op) : Prop := match o with OpTransition _ _ => False | _ => True end.

Definition ran (l : TaskLifecycle) : Prop :=
  (state l ∈ [RUNNING; COMPLETED; FAILED] →
     (1 ≤ attempt l)%Z ∧ ∃ a, agent l = Some a ∧ nonempty a = true) ∧
  (state l = COMPLETED →
     _has (outputs l) = true ∧ _has (evidence l) = true ∧
     final_report l = evidence l ∧ report_final l = evidence l).

Lemma ran_leaves t r l :
  t ∉ [RUNNING; COMPLETED; FAILED] → ran l → ran (transition (inl t) r l).1.
Proof.
  intros Ht Hl. rewrite transition_eq. destruct (can_transition t l); [|done]. unfold ran; cbn.
  split; [done|]. intros ->. destruct Ht. set_solver.
Qed.

Lemma set_finished_ran now l : ran l → ran (set_finished now l).1.
Proof. rewrite set_finished_eq. destruct now as [n|]; [|done]. by destruct (_seconds n). Qed.

Lemma fail_ran err ok now l : ran l → ran (fail err ok now l).1.
Proof.
  intros Hl. destruct (decide (l.(state) = RUNNING)) as [Hr|Hr].
  - rewrite fail_eq by done. pose proof (set_finished_ran now (set_error l (Some err) ok) Hl) as [Hf _].
    pose proof (set_finished_state now (set_error l (Some err) ok)) as Hs.
    destruct (set_finished now _) as [l' [u|e]]; cbn in *.
    + split; [intros _; apply Hf; rewrite Hs, Hr; set_solver|done].
    + split; [done|]. rewrite Hs, Hr. done.
  - lc_unfold. by rewrite bool_decide_false by done.
Qed.

Lemma start_ran ag now l : lc_wf l → ran l → ran (start ag now l).1.
Proof.
  intros [_ Hw _] Hl. unfold start, mbind, stm_bind, ensure_st, lift_res, ensure.
  destruct (nonempty ag) eqn:Hag; [|done].
  rewrite transition_eq. destruct (can_transition RUNNING l) eqn:Hc; [|done]. cbn.
  destruct (attempt l =? 0)%Z eqn:Ha; bool_inv; (destruct now as [n|]; [cbn; destruct (_seconds n)|]); cbn.
  all: split; cbn; [intros _; split; [lia|by eauto]|discriminate].
Qed.

Lemma complete_ran o e now l : ran l → ran (complete o e now l).1.
Proof.
  intros Hl. unfold complete, mbind, stm_bind, get_state, ensure_st, lift_res, ensure, modify.
  destruct (bool_decide (l.(state) = COMPLETED)); [done|].
  destruct (bool_decide (l.(state) = RUNNING)) eqn:Hr; [|done]. bool_inv.
  destruct (_has o && _has e) eqn:Hh; [|done]. bool_inv. destruct Hl as [Hl _].
  rewrite Hr in Hl. assert (RUNNING ∈ [RUNNING; COMPLETED; FAILED]) as Hin by set_solver.
  rewrite set_finished_eq. destruct now as [n|]; [destruct (_seconds n)|];
    rewrite ?transition_eq; unfold can_transition; cbn; rewrite ?Hr; split; cbn; auto; by rewrite Hr.
Qed.

Lemma exec_ran o l : not_raw o → lc_wf l → ran l → ran (exec o l).1.
Proof.
  intros Ho Hw Hl. destruct o; unfold exec; try by eauto using fail_ran, start_ran, complete_ran.
  - apply ran_leaves; [set_solver|done].
  - lc_unfold. destruct (bool_decide _); [|done]. cbn. by destruct (_seconds now).
  - unfold retry, mbind, stm_bind, get_state, ensure_st, lift_res, ensure, modify.
    destruct (bool_decide _) eqn:Hs; [|done]. destruct (_ <? _)%Z; [|done]. destruct (retryable l); [|done].
    bool_inv. rewrite transition_eq. unfold can_transition. cbn. rewrite Hs. split; cbn; [set_solver|done].
  - lc_unfold. destruct (negb (blank why)); [apply ran_leaves; [set_solver|done]|done].
  - lc_unfold. destruct (negb (blank why)); [apply ran_leaves; [set_solver|done]|done].
  - unfold mbind, stm_bind. destruct (recover_orphan_shape now timeout l) as [H|H];
      destruct (recover_orphan now timeout l) as [l' [b|e]]; cbn in *; subst; eauto using fail_ran.
  - unfold require_ready, mbind, stm_bind, get_state. destruct (bool_decide _); [|done].
    destruct (allows p gates); [apply ran_leaves; [set_solver|done]|].
    lc_unfold. destruct (negb (blank _)); [apply ran_leaves; [set_solver|done]|done].
Qed.

Lemma run_ops_ran ops l : Forall not_raw ops → lc_wf l → ran l → ran (run_ops ops l).
Proof. intros Ho. revert l. induction Ho as [|o ops Ho _ IH]; intros l Hw Hl; [done|].
  cbn. apply IH; [by apply exec_wf|by apply exec_ran]. Qed.

(** Without an exception, only a completed object has a report. *)
Definition no_report (l : TaskLifecycle) : Prop :=
  state l ≠ COMPLETED → final_report l = VNone ∧ report_final l = VNone.

Lemma transition_keeps t r l l' :
  transition t r l = (l', Ok ()) → state l ≠ COMPLETED ∧
  final_report l' = final_report l ∧ report_final l' = report_final l.
Proof.
  intros H. assert (l' = (transition t r l).1) as -> by by rewrite H. split.
  - intros Hs. destruct t as [t|v]; [|rewrite transition_val_eq in H; destruct (_state (inr v)) as [t|]; [|done]];
      rewrite transition_eq in H; unfold can_transition in H; by rewrite Hs in H.
  - destruct t as [t|v]; [|rewrite transition_val_eq; destruct (_state (inr v)) as [t|]; [|done]];
      rewrite transition_eq; by destruct (can_transition t l).
Qed.

Lemma transition_no_report t r l l' : no_report l → transition t r l = (l', Ok ()) → no_report l'.
Proof. intros Hl H. apply transition_keeps in H as (Hs & Hf & Hr). intros _. rewrite Hf, Hr. auto. Qed.

Lemma fail_no_report err ok now l l' : no_report l → fail err ok now l = (l', Ok ()) → no_report l'.
Proof.
  intros Hl. destruct (decide (l.(state) = RUNNING)) as [Hr|Hr].
  - rewrite fail_eq, set_finished_eq by done. destruct now as [n|]; [destruct (_seconds n)|]; intros [= <-];
      intros _; apply Hl; congruence.
  - lc_unfold. by rewrite bool_decide_false by done.
Qed.

Lemma exec_no_report o l l' : no_report l → exec o l = (l', Ok ()) → no_report l'.
Proof.
  intros Hl. destruct o; unfold exec; try by eauto using transition_no_report, fail_no_report.
  - unfold start, mbind, stm_bind, ensure_st, lift_res, ensure. destruct (nonempty ag); [|done].
    destruct (transition (inl RUNNING) None l) as [l1 [[]|]] eqn:Ht; [|done].
    apply (transition_no_report _ _ _ _ Hl) in Ht. unfold no_report in Ht. cbn.
    destruct (attempt l1 =? 0)%Z; (destruct now as [n|]; [cbn; destruct (_seconds n)|]); cbn; intros [= <-]; exact Ht.
  - lc_unfold. destruct (bool_decide _); [|done]. destruct (_seconds now); [|done]. intros [= <-]. exact Hl.
  - unfold complete, mbind, stm_bind, get_state, ensure_st, lift_res, ensure, modify.
    destruct (bool_decide (l.(state) = COMPLETED)); [by intros [= <-]|].
    destruct (bool_decide (l.(state) = RUNNING)) eqn:Hr; [|done]. bool_inv.
    destruct (_has o && _has e) eqn:Hh; [|done].
    rewrite set_finished_eq. destruct now as [n|]; [destruct (_seconds n); [|discriminate]|];
      rewrite ?transition_eq; unfold can_transition; cbn; rewrite ?Hr; cbn; by intros [= <-].
  - destruct (retry l) as [l1 [[]|e]] eqn:Hr; [|done]. intros [= <-].
    revert Hr. unfold retry, mbind, stm_bind, get_state, ensure_st, lift_res, ensure, modify.
    destruct (bool_decide _) eqn:Hs; [|done]. destruct (_ <? _)%Z; [|done]. destruct (retryable l); [|done].
    apply transition_no_report. exact Hl.
  - lc_unfold. destruct (negb (blank why)); [by apply transition_no_report|done].
  - lc_unfold. destruct (negb (blank why)); [by apply transition_no_report|done].
  - unfold recover_orphan, mbind, stm_bind, get_state, ensure_st, lift_res, ensure, mret, stm_ret.
    destruct (negb (bool_decide _)); [by intros [= <-]|].
    destruct (negb (num_ltb _ _)); [|done]. destruct (orphan_expired l now timeout) as [[]|]; [|by intros [= <-]|done].
    destruct (fail _ _ _ l) as [l1 [[]|]] eqn:Hf; [|done]. intros [= <-]. by eapply fail_no_report.
  - unfold require_ready, mbind, stm_bind, get_state. destruct (bool_decide _); [|by intros [= <-]].
    destruct (allows p gates); [by apply transition_no_report|].
    lc_unfold. destruct (negb (blank _)); [by apply transition_no_report|done].
Qed.

(** One start and failure of a task that is pending or failed, without [retry]. *)
Definition cycle_ops (ag err : string) : list op := [OpMarkReady; OpStart ag None; OpFail err false None].

Definition cycle (ag err : string) (l : TaskLifecycle) : TaskLifecycle :=
  let l1 := set_move (set_move l READY None) RUNNING None in
  set_move (set_error (set_agent (if (attempt l =? 0)%Z then set_attempt l1 1 else l1) ag) (Some err) false)
    FAILED (Some err).

Lemma cycle_run ag err ops l :
  nonempty ag = true → state l ∈ [PENDING; FAILED] →
  run_ok (cycle_ops ag err ++ ops) l = run_ok ops (cycle ag err l).
Proof.
  intros Hag Hs. cbn [cycle_ops app run_ok].
  assert (exec OpMarkReady l = (set_move l READY None, Ok ())) as ->.
  { unfold exec, mark_ready. rewrite transition_eq. unfold can_transition.
    rewrite bool_decide_true; [done|].
    assert (state l = PENDING ∨ state l = FAILED) as [-> | ->] by set_solver; cbn; set_solver. }
  assert (exec (OpStart ag None) (set_move l READY None) =
    (let l1 := set_move (set_move l READY None) RUNNING None in
     set_agent (if (attempt l =? 0)%Z then set_attempt l1 1 else l1) ag, Ok ())) as ->.
  { unfold exec, start, mbind, stm_bind, ensure_st, lift_res, ensure. rewrite Hag.
    rewrite transition_eq. reflexivity. }
  unfold exec at 1. rewrite fail_eq, set_finished_eq; [done|].
  cbn. by destruct (attempt l =? 0)%Z.
Qed.

Lemma cycles_run ag err k l :
  nonempty ag = true → state l ∈ [PENDING; FAILED] → (0 ≤ attempt l ≤ 1)%Z →
  ∃ l', run_ok (concat (replicate k (cycle_ops ag err))) l = Some l' ∧
    length (history l') = (length (history l) + 3 * k)%nat ∧ (0 ≤ attempt l' ≤ 1)%Z ∧
    max_attempts l' = max_attempts l ∧ (k ≠ 0%nat → state l' = FAILED ∧ retryable l' = false).
Proof.
  intros Hag. revert l. induction k as [|k IH]; intros l Hs Ha; [exists l; split_and!; cbn; (done || lia)|].
  cbn [replicate concat]. rewrite cycle_run by done.
  destruct (IH (cycle ag err l)) as (l' & Hr & Hh & Ha' & Hm & Hk);
    [set_solver|cbn; destruct (_ =? _)%Z; cbn; lia|].
  exists l'. rewrite Hr, Hh, Hm. unfold cycle. cbn.
  split_and!; [done| |lia|lia|by destruct (_ =? _)%Z|].
  - destruct (_ =? _)%Z; cbn; rewrite !length_app; cbn; lia.
  - intros _. destruct k; [|by apply Hk]. cbn in Hr. injection Hr as <-. done.
Qed.

(** A run of one task, used by the witnesses. *)
Definition demo_ops : list op :=
  [OpMarkReady; OpStart "worker" None; OpFail "boom" true None; OpRetry; OpSkip " ";
   OpStart "worker" None; OpComplete (VList [VStr "out"]) (VList [VStr "log"]) None; OpBlock "late"].

(** ** Properties *)

(** C39: whatever methods are called on a task built by the constructor, in any
    order and with exceptions caught, its attempt counter stays between 0 and
    the configured limit, and its history is a path of VALID_TRANSITIONS from
    pending to the current state. *)
Theorem reachable_invariant (tid : string) (n : Z) (ops : list op) :
  (1 ≤ n)%Z →
  let l := run_ops ops (fresh tid n) in
  max_attempts l = n ∧ (0 ≤ attempt l ≤ n)%Z ∧ replay PENDING (history l) = Some (state l).
Proof.
  intros Hn l. destruct (run_ops_wf ops (fresh tid n) (fresh_wf tid n Hn)) as [_ Ha Hh].
  subst l. rewrite run_ops_max in *. done.
Qed.
Lemma reachable_invariant_witness :
  let l := run_ops demo_ops (fresh "t1" 2) in
  (1 ≤ 2)%Z ∧ max_attempts l = 2%Z ∧ (0 ≤ attempt l ≤ 2)%Z ∧ replay PENDING (history l) = Some (state l).
Proof. split; [lia|]. apply (reachable_invariant "t1" 2 demo_ops). lia. Defined.

(** completed, skipped and blocked tasks never change again: no sequence of
    method calls alters any field of the object. *)
Theorem terminal_frozen (ops : list op) (l : TaskLifecycle) :
  VALID_TRANSITIONS (state l) = [] → run_ops ops l = l.
Proof. intros H. apply run_ops_terminal. by apply bool_decide_eq_true. Qed.
Lemma terminal_frozen_witness :
  let l := run_ops demo_ops (fresh "t1" 2) in
  state l = COMPLETED ∧ run_ops [OpRetry; OpMarkReady; OpBlock "x"] l = l.
Proof. split; [vm_compute; reflexivity|]. apply terminal_frozen. vm_compute. reflexivity. Defined.

(** the methods other than the raw [transition] never mark a task completed
    without evidence: a completed task has non-empty outputs and evidence, its
    report is that evidence, it was attempted, and it names its agent. *)
Theorem completed_has_evidence (tid : string) (n : Z) (ops : list op) :
  (1 ≤ n)%Z → Forall not_raw ops →
  let l := run_ops ops (fresh tid n) in
  state l = COMPLETED →
  _has (outputs l) = true ∧ _has (evidence l) = true ∧
  final_report l = evidence l ∧ report_final l = evidence l ∧
  (1 ≤ attempt l)%Z ∧ ∃ a, agent l = Some a ∧ nonempty a = true.
Proof.
  intros Hn Ho l Hs. assert (ran l) as [Ha Hc].
  { apply run_ops_ran; [done|by apply fresh_wf|]. split; [set_solver|done]. }
  destruct (Hc Hs) as (?&?&?&?). rewrite Hs in Ha. split_and!; try done; apply Ha; set_solver.
Qed.
Lemma completed_has_evidence_witness :
  let l := run_ops demo_ops (fresh "t1" 2) in
  state l = COMPLETED ∧ _has (evidence l) = true ∧ final_report l = evidence l.
Proof.
  destruct (completed_has_evidence "t1" 2 demo_ops) as (?&?&?&?);
    [lia|repeat constructor|vm_compute; reflexivity|]. split; [vm_compute; reflexivity|]. by split.
Defined.

(** a method that raises leaves the object exactly as it was, unless the
    exception is the conversion of the [now] argument to a float. *)
Theorem exception_atomic (o : op) (l l' : TaskLifecycle) (e : lc_error) :
  exec o l = (l', Err e) → e ≠ OverflowErr → l' = l.
Proof. intros H He. by destruct (exec_err _ _ _ _ H). Qed.
Lemma exception_atomic_witness :
  let l := run_ops [OpMarkReady; OpStart "worker" None] (fresh "t1" 1) in
  (exec (OpComplete VNone VNone None) l).2 = Err CompletionErr ∧
  (exec (OpComplete VNone VNone None) l).1 = l.
Proof.
  split; [vm_compute; reflexivity|].
  apply (exception_atomic (OpComplete VNone VNone None) _ _ CompletionErr); [vm_compute; reflexivity|discriminate].
Defined.

(** the explicit [retry] calls that return never exceed the attempts that
    the task has left. *)
Theorem retry_budget (tid : string) (n : Z) (ops more : list op) :
  (1 ≤ n)%Z →
  let l := run_ops ops (fresh tid n) in
  (retries more l ≤ n - attempt l)%Z.
Proof.
  intros Hn l. pose proof (retries_budget more l (run_ops_wf ops _ (fresh_wf tid n Hn))) as H.
  subst l. by rewrite run_ops_max in H.
Qed.
Lemma retry_budget_witness :
  let l := run_ops [OpMarkReady; OpStart "worker" None; OpFail "boom" true None] (fresh "t1" 2) in
  let more := [OpRetry; OpStart "worker" None; OpFail "boom" true None; OpRetry] in
  retries more l = 1%Z ∧ (retries more l ≤ 2 - attempt l)%Z.
Proof.
  split; [vm_compute; reflexivity|].
  apply (retry_budget "t1" 2 [OpMarkReady; OpStart "worker" None; OpFail "boom" true None]). lia.
Defined.

(** the retry limit binds [retry] only.  [mark_ready] also leaves the failed
    state, so a task with one permitted attempt can be started and failed any
    number of times without one call of [retry]. *)
Theorem mark_ready_bypasses_limit (tid ag err : string) (k : nat) :
  nonempty ag = true →
  ∃ l, run_ok (concat (replicate k (cycle_ops ag err))) (fresh tid 1) = Some l ∧
       length (history l) = (3 * k)%nat ∧ (0 ≤ attempt l ≤ 1)%Z ∧ max_attempts l = 1%Z ∧
       (k ≠ 0%nat → state l = FAILED ∧ retryable l = false).
Proof.
  intros Hag. destruct (cycles_run ag err k (fresh tid 1)) as (l & Hl); [done|cbn; set_solver|cbn; lia|].
  exists l. by cbn in Hl.
Qed.
Lemma mark_ready_bypasses_limit_witness :
  nonempty "worker" = true ∧
  ∃ l, run_ok (concat (replicate 5 (cycle_ops "worker" "e"))) (fresh "t1" 1) = Some l ∧
       length (history l) = (3 * 5)%nat ∧ (0 ≤ attempt l ≤ 1)%Z ∧ max_attempts l = 1%Z ∧
       (5%nat ≠ 0%nat → state l = FAILED ∧ retryable l = false).
Proof. split; [reflexivity|exact (mark_ready_bypasses_limit "t1" "worker" "e" 5 eq_refl)]. Defined.

(** [recover_orphan] has no liveness test of its own on the objects the
    methods build.  Only a completed task has a report, so every running task
    reached without an exception is failed as an orphan, whatever its last
    heartbeat, and the failure is retryable. *)
Theorem recover_orphan_ignores_heartbeat
    (tid : string) (n : Z) (ops : list op) (l : TaskLifecycle) (now : instant) (t : spec_float) (timeout : pynum) :
  run_ok ops (fresh tid n) = Some l → state l = RUNNING →
  num_ltb timeout (NInt 0) = false → _seconds now = Ok t →
  ∃ l', recover_orphan now timeout l = (l', Ok true) ∧ state l' = FAILED ∧
        error l' = Some "orphaned_run" ∧ retryable l' = true ∧ finished_at l' = Some t.
Proof.
  intros Hrun Hs Ht Hn. assert (no_report l) as Hrep.
  { eapply (run_ok_inv no_report _ (fresh tid n)); [|by intros _|exact Hrun]. intros. by eapply exec_no_report. }
  destruct (Hrep ltac:(congruence)) as [Hf Hr].
  unfold recover_orphan, mbind, stm_bind, get_state, ensure_st, lift_res, ensure, mret, stm_ret.
  rewrite Hs, Ht. cbn -[fail]. unfold orphan_expired. rewrite Hf, Hr. cbn -[fail].
  rewrite bool_decide_true by done. cbn -[fail]. rewrite fail_eq, set_finished_eq, Hn by done. by eexists.
Qed.
Lemma recover_orphan_ignores_heartbeat_witness :
  let ops := [OpMarkReady; OpStart "worker" (Some (AtNum (NInt 100)));
              OpBeat (AtNum (NInt 200))] in
  ∃ l, run_ok ops (fresh "t1" 3) = Some l ∧ state l = RUNNING ∧
  ∃ l', recover_orphan (AtNum (NInt 200)) (NInt 300) l = (l', Ok true) ∧ state l' = FAILED ∧
        error l' = Some "orphaned_run" ∧ retryable l' = true ∧
        finished_at l' = float_of_Z 200.
Proof.
  eexists. split; [vm_compute; reflexivity|]. split; [reflexivity|].
  apply (recover_orphan_ignores_heartbeat "t1" 3
    [OpMarkReady; OpStart "worker" (Some (AtNum (NInt 100))); OpBeat (AtNum (NInt 200))]
    _ (AtNum (NInt 200)) _ (NInt 300)); vm_compute; reflexivity.
Defined.

Lemma allows_blocked_by p gates : allows p gates = true ↔ blocked_by p gates = [].
Proof.
  unfold allows, blocked_by. rewrite forallb_true_iff. induction (required p) as [|g gs IH].
  { split; [done|]. intros _ x Hx. set_solver. }
  rewrite filter_cons. case_decide as Hd; split; intros H; try discriminate.
  - specialize (H g ltac:(set_solver)). congruence.
  - apply IH. set_solver.
  - intros x [-> | Hx]%elem_of_cons; [by destruct (_passed _)|]. by apply IH.
Qed.

Lemma gate_reason_not_blank s : blank ("gate: " +:+ s) = false.
Proof. by apply blank_cons. Qed.

(** [require_ready] on a pending task never raises: the task becomes ready
    exactly when every required gate is present and passed, and otherwise it is
    blocked with a reason that lists the failing gates; on a task in any other
    state the call does nothing. *)
Theorem require_ready_spec (p : GatePolicy) (gates : gates_arg) (l : TaskLifecycle) :
  let l' := (require_ready p gates l).1 in
  (require_ready p gates l).2 = Ok () ∧
  (state l ≠ PENDING → l' = l) ∧
  (state l = PENDING →
     (state l' = READY ∧ blocked_by p gates = [] ∧
        ∀ g, g ∈ required p → ∃ v, gate_values gates !! g = Some v ∧ _passed (Some v) = true) ∨
     (state l' = BLOCKED ∧ blocked_by p gates ≠ [] ∧
        (∀ g, g ∈ blocked_by p gates ↔ g ∈ required p ∧ _passed (gate_values gates !! g) = false) ∧
        reason l' = Some ("gate: " +:+ join ", " (blocked_by p gates)))).
Proof.
  unfold require_ready, mbind, stm_bind, get_state.
  destruct (bool_decide _) eqn:Hs; bool_inv; [|by split_and!].
  pose proof (allows_blocked_by p gates) as Hab. destruct (allows p gates) eqn:Ha.
  - unfold mark_ready. rewrite transition_eq. unfold can_transition. rewrite Hs.
    split_and!; [reflexivity|congruence|]. intros _. left. split_and!; [done|by apply Hab|].
    intros g Hg. unfold allows in Ha. rewrite forallb_true_iff in Ha. specialize (Ha g Hg). cbn in Ha.
    destruct (gate_values gates !! g); [by eexists|discriminate].
  - unfold block, mbind, stm_bind, ensure_st, lift_res, ensure. rewrite gate_reason_not_blank. cbn [negb].
    rewrite transition_eq. unfold can_transition. rewrite Hs.
    split_and!; [reflexivity|congruence|]. intros _. right. split_and!; [done|by intros H%Hab| |done].
    intros g. unfold blocked_by. rewrite list_elem_of_filter. tauto.
Qed.
Lemma require_ready_spec_witness :
  let p := from_gates [GateMap [(VStr "id", VStr "g1")]; GateMap [(VStr "gate_id", VStr "g2")]] in
  let gates : gates_arg := inl [("g1", GateMap [(VStr "status", VStr "passed")])] in
  let l' := (require_ready p gates (fresh "t1" 1)).1 in
  state l' = BLOCKED ∧ reason l' = Some "gate: g2" ∧ (require_ready p gates (fresh "t1" 1)).2 = Ok ().
Proof.
  intros p gates l'. split; [vm_compute; reflexivity|]. split; [vm_compute; reflexivity|].
  apply (require_ready_spec p gates (fresh "t1" 1)).
Defined.
