(* ===== verification/GatewaySubscription.v ===== *)
(** * Gateway subscriptions (scripts/pd_fleet/gateway_subscription.py)

    The single-writer store of subscription v1: the event history with its
    retention floor, the subscriptions with their cursors, the outbox of
    delivered and not yet acknowledged sequences, and the tombstones.  Every
    method runs under the store's lock, so it is one function from the store to
    the store and its answer; the audit log is part of the store.  Time is
    binary64, sequences are unbounded integers. *)

From S2P Require Import Prelude PyStr PyNum.

Definition HEARTBEAT_S : Z := 30.
Definition IDLE_TTL_S : Z := 90.
Definition GRACE_S : Z := 60.
Definition CURSOR_TTL_S : Z := 900.

(** The canonical codes. *)
Inductive code_ : Type :=
| INVALID_REQUEST | ASSOCIATION_REQUIRED | ASSOCIATION_STALE | CURSOR_STALE | CURSOR_EXPIRED
| REPLAY_GAP | NO_NEW_EVENTS | INVALID_PROVENANCE | OUTCOME_OK.
#[export] Instance code_eq_dec : EqDecision code_.
Proof. solve_decision. Defined.

Inductive sub_state : Type := OBSERVING | RECONNECTING | STALE | DETACHED.
#[export] Instance sub_state_eq_dec : EqDecision sub_state.
Proof. solve_decision. Defined.

Record EventRecord : Type := MkEvent { sequence : Z; event_id : string }.

Record Subscription : Type := MkSub {
  subscriber_ref : string;
  association_ref : string;
  stream_epoch : string;
  boundary_ref : string;
  snapshot_sequence : Z;
  cursor_seq : Z;
  cursor_issued_at : spec_float;
  last_heartbeat_at : spec_float;
  last_heartbeat_seq : Z;
  delivered_upto : Z;
  sub_st : sub_state }.

Record ReadResult : Type := MkRead {
  outcome : code_;
  events : list EventRecord;
  resync_required : bool }.

Record GatewaySubscriptionStore : Type := MkStore {
  _history : list EventRecord;
  _event_ids : gmap string Z;
  _ingestion_cursor : Z;
  _retention_floor : Z;
  _subscriptions : gmap string Subscription;
  _outbox : gmap string (list Z);
  _tombstones : gset string;
  _audit : list (string * code_) }.

Definition init : GatewaySubscriptionStore := MkStore [] ∅ 0 0 ∅ ∅ ∅ [].

Definition set_log (s : GatewaySubscriptionStore) (h : list EventRecord) (ids : gmap string Z) (c f : Z) :=
  MkStore h ids c f s.(_subscriptions) s.(_outbox) s.(_tombstones) s.(_audit).
Definition set_subs (s : GatewaySubscriptionStore) (m : gmap string Subscription) :=
  MkStore s.(_history) s.(_event_ids) s.(_ingestion_cursor) s.(_retention_floor) m s.(_outbox)
    s.(_tombstones) s.(_audit).
Definition set_outbox (s : GatewaySubscriptionStore) (m : gmap string (list Z)) :=
  MkStore s.(_history) s.(_event_ids) s.(_ingestion_cursor) s.(_retention_floor) s.(_subscriptions) m
    s.(_tombstones) s.(_audit).
Definition set_tombs (s : GatewaySubscriptionStore) (t : gset string) :=
  MkStore s.(_history) s.(_event_ids) s.(_ingestion_cursor) s.(_retention_floor) s.(_subscriptions)
    s.(_outbox) t s.(_audit).
Definition log_audit (s : GatewaySubscriptionStore) (r : string) (c : code_) :=
  MkStore s.(_history) s.(_event_ids) s.(_ingestion_cursor) s.(_retention_floor) s.(_subscriptions)
    s.(_outbox) s.(_tombstones) (s.(_audit) ++ [(r, c)]).

Definition set_state (u : Subscription) (st : sub_state) : Subscription :=
  MkSub u.(subscriber_ref) u.(association_ref) u.(stream_epoch) u.(boundary_ref) u.(snapshot_sequence)
    u.(cursor_seq) u.(cursor_issued_at) u.(last_heartbeat_at) u.(last_heartbeat_seq) u.(delivered_upto) st.
Definition set_heartbeat (u : Subscription) (n : Z) (now : spec_float) : Subscription :=
  MkSub u.(subscriber_ref) u.(association_ref) u.(stream_epoch) u.(boundary_ref) u.(snapshot_sequence)
    u.(cursor_seq) u.(cursor_issued_at) now n u.(delivered_upto) u.(sub_st).
Definition set_cursor (u : Subscription) (c d : Z) : Subscription :=
  MkSub u.(subscriber_ref) u.(association_ref) u.(stream_epoch) u.(boundary_ref) u.(snapshot_sequence)
    c u.(cursor_issued_at) u.(last_heartbeat_at) u.(last_heartbeat_seq) d u.(sub_st).

(** ** Operations *)

Definition subscribe (r assoc epoch boundary : string) (snapshot : Z) (now : spec_float)
    (s : GatewaySubscriptionStore) : GatewaySubscriptionStore * option Subscription :=
  if negb (nonempty r) || negb (nonempty assoc) || negb (nonempty epoch) || negb (nonempty boundary)
  then (s, None)
  else if bool_decide (r ∈ s.(_tombstones)) then (s, None)
  else
    let u := MkSub r assoc epoch boundary snapshot snapshot now now 0 0 OBSERVING in
    (set_outbox (set_subs s (<[r := u]> s.(_subscriptions))) (<[r := []]> s.(_outbox)), Some u).

Definition append (n : Z) (id : string) (s : GatewaySubscriptionStore) : GatewaySubscriptionStore * bool :=
  if negb (n =? s.(_ingestion_cursor) + 1)%Z then (s, false)
  else if (n <=? s.(_retention_floor))%Z then (s, false)
  else if bool_decide (is_Some (s.(_event_ids) !! id)) then (log_audit s id INVALID_PROVENANCE, false)
  else (set_log s (s.(_history) ++ [MkEvent n id]) (<[id := n]> s.(_event_ids)) n s.(_retention_floor), true).

Definition prune (n : Z) (s : GatewaySubscriptionStore) : GatewaySubscriptionStore :=
  let f := Z.max s.(_retention_floor) n in
  set_log s (filter (λ e, (f < e.(sequence))%Z) s.(_history)) s.(_event_ids) s.(_ingestion_cursor) f.

Definition _derive_state (u : Subscription) (now : spec_float) : Subscription :=
  let idle := fsub now u.(last_heartbeat_at) in
  let u1 := if bool_decide (u.(sub_st) = OBSERVING) && fgtZ idle IDLE_TTL_S
            then set_state u RECONNECTING else u in
  if bool_decide (u1.(sub_st) = RECONNECTING) && fgtZ idle (IDLE_TTL_S + GRACE_S)
  then set_state u1 STALE else u1.

(** The subscription of a reference that is not detached. *)
Definition live_sub (r : string) (s : GatewaySubscriptionStore) : option Subscription :=
  if bool_decide (r ∈ s.(_tombstones)) then None else s.(_subscriptions) !! r.

Definition heartbeat (r : string) (n : Z) (now : spec_float) (s : GatewaySubscriptionStore)
    : GatewaySubscriptionStore * bool :=
  match live_sub r s with
  | None => (log_audit s r ASSOCIATION_REQUIRED, false)
  | Some u0 =>
      let u := _derive_state u0 now in
      let s := set_subs s (<[r := u]> s.(_subscriptions)) in
      if negb (bool_decide (u.(sub_st) ∈ [OBSERVING; RECONNECTING]))
      then (log_audit s r ASSOCIATION_STALE, false)
      else if (n <=? u.(last_heartbeat_seq))%Z then (log_audit s r INVALID_REQUEST, false)
      else
        let u := set_heartbeat u n now in
        let u := if bool_decide (u.(sub_st) = RECONNECTING) then set_state u OBSERVING else u in
        (set_subs s (<[r := u]> s.(_subscriptions)), true)
  end.

Definition evaluate (r : string) (now : spec_float) (s : GatewaySubscriptionStore)
    : GatewaySubscriptionStore * option sub_state :=
  match s.(_subscriptions) !! r with
  | None => (s, None)
  | Some u0 => let u := _derive_state u0 now in
               (set_subs s (<[r := u]> s.(_subscriptions)), Some u.(sub_st))
  end.

Definition deny (r : string) (c : code_) (resync : bool) (s : GatewaySubscriptionStore)
    : GatewaySubscriptionStore * ReadResult :=
  (log_audit s r c, MkRead c [] resync).

(** [for event in events: if event.sequence not in outbox: outbox.append(event.sequence)] *)
Definition enqueue (box : list Z) (evs : list EventRecord) : list Z :=
  foldl (λ b e, if bool_decide (e.(sequence) ∈ b) then b else b ++ [e.(sequence)]) box evs.

Definition read (r epoch : string) (now : spec_float) (s : GatewaySubscriptionStore)
    : GatewaySubscriptionStore * ReadResult :=
  match live_sub r s with
  | None => deny r ASSOCIATION_REQUIRED false s
  | Some u0 =>
      if negb (bool_decide (epoch = u0.(stream_epoch))) then deny r CURSOR_STALE true s else
      let u := _derive_state u0 now in
      let s := set_subs s (<[r := u]> s.(_subscriptions)) in
      if bool_decide (u.(sub_st) = STALE) then deny r ASSOCIATION_STALE false s
      else if fgtZ (fsub now u.(cursor_issued_at)) CURSOR_TTL_S then deny r CURSOR_EXPIRED true s
      else if (u.(cursor_seq) <? s.(_retention_floor))%Z then deny r REPLAY_GAP true s
      else
        let evs := filter (λ e, (u.(cursor_seq) < e.(sequence))%Z) s.(_history) in
        match last evs with
        | None => (s, MkRead NO_NEW_EVENTS [] false)
        | Some e =>
            let box := enqueue (default [] (s.(_outbox) !! r)) evs in
            let u := set_cursor u u.(cursor_seq) (Z.max u.(delivered_upto) e.(sequence)) in
            (set_subs (set_outbox s (<[r := box]> s.(_outbox))) (<[r := u]> s.(_subscriptions)),
             MkRead OUTCOME_OK evs false)
        end
  end.

(** [list.remove]: the first occurrence. *)
Fixpoint remove_first (x : Z) (l : list Z) : list Z :=
  match l with
  | [] => []
  | y :: l' => if (x =? y)%Z then l' else y :: remove_first x l'
  end.

(** The contiguous advance of the cursor; the loop runs at most
    [delivered - cursor] times. *)
Fixpoint advance (fuel : nat) (box : list Z) (delivered c : Z) : Z :=
  match fuel with
  | O => c
  | S fuel' =>
      if (c <? delivered)%Z && negb (bool_decide ((c + 1)%Z ∈ box))
      then advance fuel' box delivered (c + 1) else c
  end.

Definition ack (r : string) (n : Z) (s : GatewaySubscriptionStore) : GatewaySubscriptionStore * bool :=
  match live_sub r s, s.(_outbox) !! r with
  | Some u, Some box =>
      if negb (bool_decide (n ∈ box)) then (log_audit s r INVALID_REQUEST, false)
      else
        let box := remove_first n box in
        let c := advance (Z.to_nat (u.(delivered_upto) - u.(cursor_seq))) box u.(delivered_upto) u.(cursor_seq) in
        (set_subs (set_outbox s (<[r := box]> s.(_outbox)))
           (<[r := set_cursor u c u.(delivered_upto)]> s.(_subscriptions)), true)
  | _, _ => (log_audit s r ASSOCIATION_REQUIRED, false)
  end.

Definition pending (r : string) (s : GatewaySubscriptionStore) : list Z := default [] (s.(_outbox) !! r).

Definition detach (r : string) (s : GatewaySubscriptionStore) : GatewaySubscriptionStore * bool :=
  match s.(_subscriptions) !! r with
  | None => (s, false)
  | Some u =>
      (set_outbox
         (set_subs (set_tombs s ({[r]} ∪ s.(_tombstones))) (<[r := set_state u DETACHED]> s.(_subscriptions)))
         (<[r := []]> s.(_outbox)), true)
  end.

(** ** Traces *)

Inductive op : Type :=
| OpSubscribe (r assoc epoch boundary : string) (snapshot : Z) (now : spec_float)
| OpAppend (n : Z) (id : string)
| OpPrune (n : Z)
| OpHeartbeat (r : string) (n : Z) (now : spec_float)
| OpEvaluate (r : string) (now : spec_float)
| OpRead (r epoch : string) (now : spec_float)
| OpAck (r : string) (n : Z)
| OpDetach (r : string).

Definition step (s : GatewaySubscriptionStore) (o : op) : GatewaySubscriptionStore :=
  match o with
  | OpSubscribe r a e b n now => (subscribe r a e b n now s).1
  | OpAppend n id => (append n id s).1
  | OpPrune n => prune n s
  | OpHeartbeat r n now => (heartbeat r n now s).1
  | OpEvaluate r now => (evaluate r now s).1
  | OpRead r e now => (read r e now s).1
  | OpAck r n => (ack r n s).1
  | OpDetach r => (detach r s).1
  end.
Definition run (ops : list op) : GatewaySubscriptionStore := foldl step init ops.

(** The abstract log: the identifiers accepted by [append], in order. *)
Definition accepted (s : GatewaySubscriptionStore) (o : op) : list string :=
  match o with OpAppend n id => if (append n id s).2 then [id] else [] | _ => [] end.

(** The sequences acknowledged for [r] since its last subscription. *)
Definition acked_step (r : string) (s : GatewaySubscriptionStore) (o : op) (acked : list Z) : list Z :=
  match o with
  | OpSubscribe r' a e b n now =>
      match (subscribe r' a e b n now s).2 with
      | Some _ => if bool_decide (r' = r) then [] else acked
      | None => acked
      end
  | OpAck r' n => if bool_decide (r' = r) && (ack r' n s).2 then n :: acked else acked
  | _ => acked
  end.

(** A run that records both. *)
Record ghost : Type := MkGhost { g_store : GatewaySubscriptionStore; g_log : list string; g_acked : list Z }.
Definition gstep (r : string) (g : ghost) (o : op) : ghost :=
  MkGhost (step g.(g_store) o) (g.(g_log) ++ accepted g.(g_store) o) (acked_step r g.(g_store) o g.(g_acked)).
Definition grun (r : string) (ops : list op) : ghost := foldl (gstep r) (MkGhost init [] []) ops.

(** The events of a log, numbered from [n + 1]. *)
Fixpoint number (n : Z) (ids : list string) : list EventRecord :=
  match ids with [] => [] | id :: ids => MkEvent (n + 1) id :: number (n + 1) ids end.

(** ** Lemmas: the numbered log *)

Lemma length_number n ids : length (number n ids) = length ids.
Proof. revert n. induction ids; intros n; cbn; auto. Qed.

Lemma number_app n ids ids' : number n (ids ++ ids') = number n ids ++ number (n + Z.of_nat (length ids)) ids'.
Proof.
  revert n. induction ids as [|id ids IH]; intros n; cbn; [by rewrite Z.add_0_r|].
  rewrite IH. do 3 f_equal. lia.
Qed.

Lemma number_lookup n ids i : number n ids !! i = (λ id, MkEvent (n + 1 + Z.of_nat i) id) <$> ids !! i.
Proof.
  revert n i. induction ids as [|id ids IH]; intros n [|i]; cbn; try done.
  - by rewrite Z.add_0_r.
  - rewrite IH. destruct (ids !! i); cbn; [|done]. do 2 f_equal. lia.
Qed.

Lemma elem_of_number n ids e :
  e ∈ number n ids → (n < e.(sequence) ≤ n + Z.of_nat (length ids))%Z ∧ e.(event_id) ∈ ids.
Proof.
  intros [i Hi]%list_elem_of_lookup. rewrite number_lookup in Hi.
  destruct (ids !! i) as [id|] eqn:E; [|done]. injection Hi as <-. cbn.
  apply lookup_lt_Some in E as ?. split; [lia|]. by eapply list_elem_of_lookup_2.
Qed.

(** Keeping the sequences above [c] drops the first [c] entries. *)
Lemma filter_number c n ids :
  (n ≤ c)%Z → filter (λ e, (c < e.(sequence))%Z) (number n ids) = drop (Z.to_nat (c - n)) (number n ids).
Proof.
  revert n. induction ids as [|id ids IH]; intros n Hc; [cbn [number]; by rewrite drop_nil|].
  cbn [number]. rewrite filter_cons. destruct (decide (c = n)) as [->|].
  - rewrite Z.sub_diag, decide_True by (cbn; lia). change (Z.to_nat 0) with 0%nat. cbn [drop]. f_equal.
    clear IH Hc. assert (∀ k, (n ≤ k)%Z → filter (λ e, (n < e.(sequence))%Z) (number k ids) = number k ids) as H.
    { induction ids as [|id' ids IH]; intros k Hk; [done|]. cbn [number]. rewrite filter_cons.
      rewrite decide_True by (cbn; lia). f_equal. apply IH. lia. }
    apply H. lia.
  - rewrite decide_False by (cbn; lia). rewrite IH by lia.
    replace (Z.to_nat (c - n)) with (S (Z.to_nat (c - (n + 1)))) by lia. done.
Qed.

Lemma filter_filter_above c f (l : list EventRecord) :
  (f ≤ c)%Z →
  filter (λ e, (c < e.(sequence))%Z) (filter (λ e, (f < e.(sequence))%Z) l) = filter (λ e, (c < e.(sequence))%Z) l.
Proof. intros Hf. rewrite list_filter_filter. apply list_filter_iff. intros e. cbn. lia. Qed.

Lemma sequence_in_drop ids c m :
  (0 ≤ c)%Z →
  m ∈ map sequence (drop (Z.to_nat c) (number 0 ids)) ↔ (c < m ≤ Z.of_nat (length ids))%Z.
Proof.
  intros Hc. rewrite list_elem_of_fmap. split.
  - intros (e & -> & He). rewrite <- (Z.sub_0_r c), <- filter_number in He by done.
    apply list_elem_of_filter in He as [? He]. apply elem_of_number in He. lia.
  - intros Hm. destruct (lookup_lt_is_Some_2 ids (Z.to_nat (m - 1))) as [id Hid]; [lia|].
    exists (MkEvent m id). split; [done|].
    rewrite <- (Z.sub_0_r c), <- filter_number by done. apply list_elem_of_filter. split; [cbn; lia|].
    apply list_elem_of_lookup. exists (Z.to_nat (m - 1)). rewrite number_lookup, Hid. cbn.
    do 2 f_equal. lia.
Qed.

(** ** Lemmas: the outbox *)

Lemma remove_first_subset x y l : y ∈ remove_first x l → y ∈ l.
Proof.
  induction l as [|z l IH]; cbn; [done|]. destruct (x =? z)%Z; set_solver.
Qed.
Lemma remove_first_other x y l : y ≠ x → y ∈ l → y ∈ remove_first x l.
Proof.
  intros Hne. induction l as [|z l IH]; cbn; [done|]. destruct (Z.eqb_spec x z); set_solver.
Qed.
Lemma remove_first_NoDup x l : NoDup l → NoDup (remove_first x l) ∧ x ∉ remove_first x l.
Proof.
  induction 1 as [|z l Hz Hl [IH1 IH2]]; cbn; [split; [constructor|set_solver]|].
  destruct (Z.eqb_spec x z) as [->|]; [done|]. split; [|set_solver].
  constructor; [|done]. by intros ?%remove_first_subset.
Qed.

Lemma enqueue_spec evs box :
  (NoDup box → NoDup (enqueue box evs)) ∧ (∀ m, m ∈ enqueue box evs ↔ m ∈ box ∨ m ∈ map sequence evs).
Proof.
  unfold enqueue. revert box. induction evs as [|e evs IH]; intros box; cbn; [set_solver|].
  case_bool_decide as He.
  - destruct (IH box) as [IH1 IH2]. split; [done|]. intros m. rewrite IH2. set_solver.
  - destruct (IH (box ++ [sequence e])) as [IH1 IH2]. split.
    + intros Hn. apply IH1. apply NoDup_app. split_and!; [done|set_solver|apply NoDup_singleton].
    + intros m. rewrite IH2. set_solver.
Qed.

(** [advance] stops at the first pending sequence above the cursor. *)
Lemma advance_spec fuel box d c :
  (Z.to_nat (d - c) ≤ fuel)%nat →
  let c' := advance fuel box d c in
  (c ≤ c')%Z ∧ (c' ≤ Z.max c d)%Z ∧ (∀ m, (c < m ≤ c')%Z → m ∉ box) ∧ ((c' < d)%Z → (c' + 1)%Z ∈ box).
Proof.
  revert c. induction fuel as [|fuel IH]; intros c Hf; cbn; [repeat split; intros; lia|].
  destruct (c <? d)%Z eqn:Hlt; bool_inv; cbn [andb]; [|repeat split; intros; lia].
  case_bool_decide as Hin; cbn; [repeat split; solve [lia|done|intros; lia]|].
  destruct (IH (c + 1)%Z) as (H1 & H2 & H3 & H4); [lia|]. repeat split; try lia; try done.
  intros m Hm. destruct (decide (m = c + 1)%Z) as [->|]; [done|]. apply H3. lia.
Qed.

Lemma derive_fields u now :
  let u' := _derive_state u now in
  cursor_seq u' = cursor_seq u ∧ delivered_upto u' = delivered_upto u ∧
  snapshot_sequence u' = snapshot_sequence u ∧ stream_epoch u' = stream_epoch u ∧
  cursor_issued_at u' = cursor_issued_at u ∧ last_heartbeat_seq u' = last_heartbeat_seq u.
Proof.
  unfold _derive_state. cbv zeta. repeat case_match; by cbn.
Qed.

Lemma derive_detached u now : sub_st u = DETACHED → sub_st (_derive_state u now) = DETACHED.
Proof. destruct u. cbn. intros ->. reflexivity. Qed.

(** ** The invariant *)

(** What holds of the window of one subscription: [acked] are its acknowledgements. *)
Record window (ingestion : Z) (u : Subscription) (box acked : list Z) : Prop := {
  w_nodup : NoDup box;
  w_box : ∀ m, m ∈ box → (cursor_seq u < m ≤ delivered_upto u)%Z;
  w_delivered : (delivered_upto u ≤ ingestion)%Z;
  w_snapshot : (snapshot_sequence u ≤ cursor_seq u)%Z;
  w_tight : (0 ≤ cursor_seq u < delivered_upto u)%Z → (cursor_seq u + 1)%Z ∈ box;
  w_sent : ∀ m, (0 < m)%Z → (snapshot_sequence u < m ≤ delivered_upto u)%Z → m ∈ box ∨ m ∈ acked;
  w_acked : ∀ m, (0 < m)%Z → (snapshot_sequence u < m ≤ cursor_seq u)%Z → m ∈ acked }.

Record inv (r : string) (g : ghost) : Prop := {
  i_ingestion : _ingestion_cursor (g_store g) = Z.of_nat (length (g_log g));
  i_floor : (0 ≤ _retention_floor (g_store g))%Z;
  i_nodup : NoDup (g_log g);
  i_history : _history (g_store g) =
    filter (λ e, (_retention_floor (g_store g) < e.(sequence))%Z) (number 0 (g_log g));
  i_ids : ∀ id n, _event_ids (g_store g) !! id = Some n ↔ MkEvent n id ∈ number 0 (g_log g);
  i_live : ∀ u, live_sub r (g_store g) = Some u →
    ∃ box, _outbox (g_store g) !! r = Some box ∧
           window (_ingestion_cursor (g_store g)) u box (g_acked g);
  i_dead : r ∈ _tombstones (g_store g) → pending r (g_store g) = [] ∧
    ∃ u, _subscriptions (g_store g) !! r = Some u ∧ sub_st u = DETACHED }.

Lemma inv_init r : inv r (MkGhost init [] []).
Proof.
  split; cbn; try done.
  - constructor.
  - intros id n. rewrite lookup_empty. split; [done|]. intros H. by apply elem_of_nil in H.
Qed.

Lemma window_derive ing u now box acked :
  window ing u box acked → window ing (_derive_state u now) box acked.
Proof.
  destruct (derive_fields u now) as (Hc & Hd & Hs & _). intros [? ? ? ? ? ? ?].
  split; rewrite ?Hc, ?Hd, ?Hs; done.
Qed.

Lemma window_state ing u st box acked : window ing u box acked → window ing (set_state u st) box acked.
Proof. intros [? ? ? ? ? ? ?]. by split. Qed.
Lemma window_heartbeat ing u n now box acked :
  window ing u box acked → window ing (set_heartbeat u n now) box acked.
Proof. intros [? ? ? ? ? ? ?]. by split. Qed.
Lemma window_ingestion ing ing' u box acked :
  (ing ≤ ing')%Z → window ing u box acked → window ing' u box acked.
Proof. intros Hi [? ? ? ? ? ? ?]. split; try done. lia. Qed.
#[export] Hint Resolve window_derive window_state window_heartbeat : subscription.

(** The part of the store that [r]'s window depends on. *)
Definition same_view (r : string) (s s' : GatewaySubscriptionStore) : Prop :=
  _subscriptions s' !! r = _subscriptions s !! r ∧ _outbox s' !! r = _outbox s !! r ∧
  (r ∈ _tombstones s' ↔ r ∈ _tombstones s).

Definition same_log (s s' : GatewaySubscriptionStore) : Prop :=
  _history s' = _history s ∧ _event_ids s' = _event_ids s ∧
  _ingestion_cursor s' = _ingestion_cursor s ∧ _retention_floor s' = _retention_floor s.

Lemma same_view_live r s s' : same_view r s s' → live_sub r s' = live_sub r s.
Proof.
  intros (Hs & _ & Ht). unfold live_sub. rewrite Hs. by rewrite (bool_decide_ext _ _ Ht).
Qed.

Lemma inv_same r s s' lg ak :
  same_log s s' → same_view r s s' → inv r (MkGhost s lg ak) → inv r (MkGhost s' lg ak).
Proof.
  intros (Hh & He & Hi & Hf) Hv [H1 H2 H3 H4 H5 H6 H7]. destruct Hv as (Hs & Ho & Ht) eqn:E.
  split; cbn in *; rewrite ?Hh, ?He, ?Hi, ?Hf, ?Hs; auto.
  - by rewrite (same_view_live _ _ _ Hv), Ho.
  - unfold pending. rewrite Ho. intros Hr%Ht. auto.
Qed.

(** Replace the subscription of [r] by one with the same window. *)
Lemma inv_update r s u u' lg ak :
  live_sub r s = Some u →
  (∀ ing box, window ing u box ak → window ing u' box ak) →
  inv r (MkGhost s lg ak) → inv r (MkGhost (set_subs s (<[r := u']> (_subscriptions s))) lg ak).
Proof.
  intros Hu Hw [H1 H2 H3 H4 H5 H6 H7].
  assert (r ∉ _tombstones s) as Ht by (unfold live_sub in Hu; by case_bool_decide).
  split; cbn in *; auto; [|done].
  intros v. unfold live_sub. cbn. rewrite bool_decide_false, lookup_insert_eq by done. intros [= <-].
  destruct (H6 u Hu) as (box & Hb & Hbox). eauto.
Qed.

Lemma audit_same r s x c : same_log s (log_audit s x c) ∧ same_view r s (log_audit s x c).
Proof. by repeat split. Qed.

Lemma other_view r r' s u :
  r ≠ r' → same_log s (set_subs s (<[r' := u]> (_subscriptions s))) ∧
           same_view r s (set_subs s (<[r' := u]> (_subscriptions s))).
Proof. intros Hne. repeat split; cbn; try done. by rewrite lookup_insert_ne by done. Qed.

Lemma inv_audit r s x c lg ak : inv r (MkGhost s lg ak) → inv r (MkGhost (log_audit s x c) lg ak).
Proof. apply inv_same; apply (audit_same r). Qed.

Lemma inv_other r r' s u lg ak :
  r ≠ r' → inv r (MkGhost s lg ak) → inv r (MkGhost (set_subs s (<[r' := u]> (_subscriptions s))) lg ak).
Proof. intros Hne. apply inv_same; by apply (other_view r). Qed.

Lemma live_lookup r s u : live_sub r s = Some u → _subscriptions s !! r = Some u ∧ r ∉ _tombstones s.
Proof. unfold live_sub. by case_bool_decide. Qed.

Lemma live_set r s u :
  r ∉ _tombstones s → live_sub r (set_subs s (<[r := u]> (_subscriptions s))) = Some u.
Proof. intros H. unfold live_sub. cbn. by rewrite bool_decide_false, lookup_insert_eq. Qed.

(** A write of the subscription of [r'] by one with the same window. *)
Lemma inv_rewrite r r' s u u' lg ak :
  live_sub r' s = Some u →
  (∀ ing box acked, window ing u box acked → window ing u' box acked) →
  inv r (MkGhost s lg ak) → inv r (MkGhost (set_subs s (<[r' := u']> (_subscriptions s))) lg ak).
Proof.
  intros Hu Hw. destruct (decide (r = r')) as [->|]; [|by apply inv_other].
  apply (inv_update _ _ u); [done|]. intros. by apply Hw.
Qed.

Lemma inv_subscribe r g r' a e b n now :
  inv r g → inv r (gstep r g (OpSubscribe r' a e b n now)).
Proof.
  destruct g as [s lg ak]. unfold gstep; cbn [g_store g_log g_acked accepted step acked_step].
  rewrite app_nil_r. unfold subscribe. destruct (_ || _); [done|].
  case_bool_decide as Ht; [done|]. cbn. intros H.
  destruct (decide (r' = r)) as [->|Hne].
  - rewrite bool_decide_true by done. destruct H as [H1 H2 H3 H4 H5 H6 H7].
    split; cbn in *; auto; [|done]. intros u. unfold live_sub. cbn.
    rewrite bool_decide_false, !lookup_insert_eq by done. intros [= <-]. exists []. split; [done|].
    split; cbn; intros; try lia; [constructor|by apply elem_of_nil in H].
  - rewrite bool_decide_false by done. revert H. apply inv_same; [done|].
    repeat split; cbn; try done; by rewrite lookup_insert_ne by done.
Qed.

Lemma inv_append r g n id : inv r g → inv r (gstep r g (OpAppend n id)).
Proof.
  destruct g as [s lg ak]. unfold gstep; cbn [g_store g_log g_acked accepted step acked_step].
  unfold append. intros H. destruct (negb _) eqn:Hn; cbn; [by rewrite app_nil_r|]. bool_inv.
  destruct (_ <=? _)%Z eqn:Hf; cbn; [by rewrite app_nil_r|]. bool_inv.
  case_bool_decide as Hid; cbn; [rewrite app_nil_r; by apply inv_audit|].
  destruct H as [H1 H2 H3 H4 H5 H6 H7]. cbn in *.
  assert (id ∉ lg) as Hfresh.
  { intros [i Hi]%list_elem_of_lookup. apply Hid. exists (0 + 1 + Z.of_nat i)%Z. apply H5.
    apply list_elem_of_lookup. exists i. by rewrite number_lookup, Hi. }
  split; cbn; try done.
  - rewrite length_app. cbn. lia.
  - apply NoDup_app. split_and!; [done|set_solver|apply NoDup_singleton].
  - rewrite number_app, filter_app, H4. cbn [number]. rewrite filter_cons, decide_True by (cbn; lia).
    change (filter _ []) with (@nil EventRecord). do 3 f_equal. lia.
  - intros id' n'. rewrite number_app, elem_of_app. cbn. rewrite list_elem_of_singleton.
    destruct (decide (id' = id)) as [->|Hne].
    + rewrite lookup_insert_eq. split; [intros [= <-]; right; f_equal; lia|].
      intros [He%elem_of_number|[= ->]]; [cbn in He; tauto|]. f_equal. lia.
    + rewrite lookup_insert_ne, H5 by done. split; [by left|]. intros [?|[= ->]]; done.
  - intros u Hu. destruct (H6 u Hu) as (box & Hb & Hw). exists box. split; [done|].
    eapply window_ingestion; [|done]. lia.
Qed.

Lemma inv_prune r g n : inv r g → inv r (gstep r g (OpPrune n)).
Proof.
  destruct g as [s lg ak]. unfold gstep; cbn [g_store g_log g_acked accepted step acked_step].
  rewrite app_nil_r. intros [H1 H2 H3 H4 H5 H6 H7]. unfold prune. split; cbn in *; try done; [lia|].
  rewrite H4. apply filter_filter_above. lia.
Qed.

Lemma inv_heartbeat r g r' n now : inv r g → inv r (gstep r g (OpHeartbeat r' n now)).
Proof.
  destruct g as [s lg ak]. unfold gstep; cbn [g_store g_log g_acked accepted step acked_step].
  rewrite app_nil_r. unfold heartbeat. intros H.
  destruct (live_sub r' s) as [u|] eqn:Hu; [|by apply inv_audit].
  assert (inv r (MkGhost (set_subs s (<[r' := _derive_state u now]> (_subscriptions s))) lg ak)) as H'.
  { apply (inv_rewrite _ _ _ u); auto with subscription. }
  destruct (negb _); [by apply inv_audit|]. destruct (_ <=? _)%Z; [by apply inv_audit|].
  apply (inv_rewrite _ _ _ (_derive_state u now)); [apply live_set; by destruct (live_lookup _ _ _ Hu)| |done].
  intros. case_bool_decide; auto with subscription.
Qed.

Lemma inv_evaluate r g r' now : inv r g → inv r (gstep r g (OpEvaluate r' now)).
Proof.
  destruct g as [s lg ak]. unfold gstep; cbn [g_store g_log g_acked accepted step acked_step].
  rewrite app_nil_r. unfold evaluate. intros H.
  destruct (_subscriptions s !! r') as [u|] eqn:Hu; [|done]. cbn.
  destruct (decide (r = r')) as [->|]; [|by apply inv_other].
  destruct (decide (r' ∈ _tombstones s)) as [Ht|Ht].
  - destruct H as [H1 H2 H3 H4 H5 H6 H7]. split; cbn in *; try done.
    + intros v. unfold live_sub. cbn. by rewrite bool_decide_true.
    + intros _. destruct (H7 Ht) as (Hp & v & Hv & Hd). split; [done|]. eexists.
      rewrite lookup_insert_eq. split; [done|]. rewrite Hu in Hv. injection Hv as <-.
      by apply derive_detached.
  - apply (inv_rewrite _ _ _ u); auto with subscription. unfold live_sub. by rewrite bool_decide_false.
Qed.

(** What [read] returns when it does not deny, on a store with the invariant. *)
Lemma read_events r s lg ak u :
  inv r (MkGhost s lg ak) → (_retention_floor s ≤ cursor_seq u)%Z →
  filter (λ e, (cursor_seq u < e.(sequence))%Z) (_history s) =
  drop (Z.to_nat (cursor_seq u)) (number 0 lg).
Proof.
  intros [_ H2 _ H4 _ _ _] Hf. cbn in *. rewrite H4, filter_filter_above by done.
  rewrite filter_number by lia. by rewrite Z.sub_0_r.
Qed.

Lemma last_drop_number c lg e :
  (0 ≤ c)%Z → last (drop (Z.to_nat c) (number 0 lg)) = Some e →
  sequence e = Z.of_nat (length lg) ∧ (c < Z.of_nat (length lg))%Z.
Proof.
  intros Hc. rewrite last_lookup, length_drop, lookup_drop, number_lookup, length_number.
  destruct (lg !! _) as [id|] eqn:Hid; [|done]. intros [= <-]. cbn.
  assert (Z.to_nat c < length lg)%nat.
  { destruct (decide (Z.to_nat c < length lg)%nat); [done|].
    rewrite lookup_ge_None_2 in Hid by lia. done. }
  lia.
Qed.

Lemma inv_read r g r' ep now : inv r g → inv r (gstep r g (OpRead r' ep now)).
Proof.
  destruct g as [s lg ak]. unfold gstep; cbn [g_store g_log g_acked accepted step acked_step].
  rewrite app_nil_r. unfold read, deny. intros H.
  destruct (live_sub r' s) as [u0|] eqn:Hu; [|by apply inv_audit].
  destruct (negb _); [by apply inv_audit|]. cbv zeta.
  set (u := _derive_state u0 now). set (s1 := set_subs s _).
  assert (inv r (MkGhost s1 lg ak)) as H'. { apply (inv_rewrite _ _ _ u0); subst u; auto with subscription. }
  case_bool_decide; [by apply inv_audit|]. destruct (fgtZ _ _); [by apply inv_audit|].
  destruct (_ <? _)%Z eqn:Hf; [by apply inv_audit|]. bool_inv.
  destruct (last _) as [e|] eqn:Hl; [|done]. cbn [fst].
  destruct (decide (r = r')) as [->|Hne].
  2: { revert H'. apply inv_same; [done|]. repeat split; cbn; try done; by rewrite lookup_insert_ne by done. }
  rewrite (read_events r' _ _ _ u H' Hf) in *. destruct H' as [H1 H2 H3 H4 H5 H6 H7].
  apply live_lookup in Hu as [Hu Ht]. cbn in H1, H2, H6.
  apply last_drop_number in Hl as [Hl Hc]; [|cbn in Hf |- *; lia].
  split; cbn; try done. intros v. unfold live_sub. cbn. rewrite bool_decide_false, !lookup_insert_eq by done.
  intros [= <-]. eexists. split; [done|].
  destruct (H6 u) as (box & Hb & [W1 W2 W3 W4 W5 W6 W7]).
  { unfold live_sub. cbn. by rewrite bool_decide_false, lookup_insert_eq. }
  cbn in Hb. rewrite Hb. cbn [default]. destruct (enqueue_spec (drop (Z.to_nat (cursor_seq u)) (number 0 lg)) box) as [E1 E2].
  assert (0 ≤ cursor_seq u)%Z as Hc0 by (cbn in Hf; lia).
  split; cbn; rewrite ?Hl; auto.
  - intros m [Hm|Hm]%E2; [apply W2 in Hm; lia|]. apply sequence_in_drop in Hm; lia.
  - lia.
  - intros _. apply E2. right. apply sequence_in_drop; lia.
  - intros m Hm0 Hm. rewrite E2, sequence_in_drop by done.
    destruct (decide (cursor_seq u < m)%Z); [left; right; lia|right; apply W7; (done || lia)].
Qed.

Lemma inv_ack r g r' n : inv r g → inv r (gstep r g (OpAck r' n)).
Proof.
  destruct g as [s lg ak]. unfold gstep; cbn [g_store g_log g_acked accepted step acked_step].
  rewrite app_nil_r. unfold ack. intros H.
  destruct (live_sub r' s) as [u|] eqn:Hu; [|cbn; rewrite andb_false_r; by apply inv_audit].
  destruct (_outbox s !! r') as [box0|] eqn:Hb0; [|cbn; rewrite andb_false_r; by apply inv_audit].
  case_bool_decide as Hin; cbn [negb snd fst]; [|rewrite andb_false_r; by apply inv_audit].
  rewrite andb_true_r. destruct (decide (r' = r)) as [->|Hne].
  2: { rewrite bool_decide_false by done. revert H.
       apply inv_same; [done|]. repeat split; cbn; try done; by rewrite lookup_insert_ne by done. }
  rewrite bool_decide_true by done. destruct H as [H1 H2 H3 H4 H5 H6 H7].
  apply live_lookup in Hu as Hu'. destruct Hu' as [_ Ht]. cbn in *.
  split; cbn; try done. intros v. unfold live_sub. cbn. rewrite bool_decide_false, !lookup_insert_eq by done.
  intros [= <-]. eexists. split; [done|].
  destruct (H6 u Hu) as (box & Hb & [W1 W2 W3 W4 W5 W6 W7]). rewrite Hb0 in Hb. injection Hb as ->.
  destruct (remove_first_NoDup n box W1) as [R1 R2].
  destruct (advance_spec (Z.to_nat (delivered_upto u - cursor_seq u)) (remove_first n box)
    (delivered_upto u) (cursor_seq u)) as (A1 & A2 & A3 & A4); [lia|].
  set (c := advance _ _ _ _) in *.
  assert (∀ m, (0 < m)%Z → (snapshot_sequence u < m ≤ delivered_upto u)%Z →
    m ∈ remove_first n box ∨ m ∈ n :: ak) as Hsent.
  { intros m Hm0 Hm. destruct (W6 m Hm0 Hm) as [Hm'|Hm']; [|right; by right].
    destruct (decide (m = n)) as [->|]; [right; by left|]. left. by apply remove_first_other. }
  pose proof (W2 n Hin) as Hnw.
  split; cbn; auto; try lia; [|intros; apply A4; lia|].
  - intros m Hm. split; [|apply remove_first_subset in Hm; apply W2 in Hm; lia].
    apply remove_first_subset in Hm as Hm'. apply W2 in Hm'.
    destruct (decide (c < m)%Z); [done|]. exfalso. apply (A3 m); [lia|done].
  - intros m Hm0 Hm. destruct (Hsent m Hm0) as [Hm'|]; [lia| |done].
    apply remove_first_subset in Hm' as Hm2. apply W2 in Hm2.
    exfalso. apply (A3 m); [lia|done].
Qed.

Lemma inv_detach r g r' : inv r g → inv r (gstep r g (OpDetach r')).
Proof.
  destruct g as [s lg ak]. unfold gstep; cbn [g_store g_log g_acked accepted step acked_step].
  rewrite app_nil_r. unfold detach. intros H.
  destruct (_subscriptions s !! r') as [u|] eqn:Hu; [|done]. cbn.
  destruct (decide (r = r')) as [->|Hne].
  - destruct H as [H1 H2 H3 H4 H5 H6 H7]. split; cbn in *; try done.
    + intros v. unfold live_sub. cbn. by rewrite bool_decide_true by set_solver.
    + intros _. unfold pending. cbn. rewrite !lookup_insert_eq. split; [done|]. by eexists.
  - revert H. apply inv_same; [done|]. repeat split; cbn; rewrite ?lookup_insert_ne by done; try done; set_solver.
Qed.

Lemma inv_step r g o : inv r g → inv r (gstep r g o).
Proof.
  destruct o; eauto using inv_subscribe, inv_append, inv_prune, inv_heartbeat, inv_evaluate, inv_read,
    inv_ack, inv_detach.
Qed.

Lemma inv_grun r ops : inv r (grun r ops).
Proof.
  unfold grun. generalize (inv_init r). generalize (MkGhost init [] []).
  induction ops as [|o ops IH]; intros g Hg; cbn; [done|]. by apply IH, inv_step.
Qed.

Lemma grun_store r ops : g_store (grun r ops) = run ops.
Proof.
  unfold grun, run. change init with (g_store (MkGhost init [] [])) at 2.
  generalize (MkGhost init [] []). induction ops as [|o ops IH]; intros g; [done|]. exact (IH (gstep r g o)).
Qed.
#[export] Hint Resolve inv_grun : subscription.

Lemma tombs_step s o : _tombstones s ⊆ _tombstones (step s o).
Proof.
  destruct o; cbn; unfold subscribe, append, prune, heartbeat, evaluate, read, ack, detach, deny;
    repeat (case_match; cbn); set_solver.
Qed.

Lemma tombs_foldl ops s r : r ∈ _tombstones s → r ∈ _tombstones (foldl step s ops).
Proof.
  revert s. induction ops as [|o ops IH]; intros s H; cbn; [done|]. apply IH. by apply tombs_step.
Qed.

Lemma run_app ops more : run (ops ++ more) = foldl step (run ops) more.
Proof. apply foldl_app. Qed.

Lemma detach_tombs r s : (detach r s).2 = true → r ∈ _tombstones (detach r s).1.
Proof. unfold detach. destruct (_ !! r); [set_solver|done]. Qed.

(** Only [append] and [prune] touch the log. *)
Lemma floor_step s o :
  (_ingestion_cursor s < _retention_floor s)%Z →
  (_ingestion_cursor (step s o) < _retention_floor (step s o))%Z ∧
  _ingestion_cursor (step s o) = _ingestion_cursor s.
Proof.
  intros H. destruct o; cbn; unfold subscribe, append, prune, heartbeat, evaluate, read, ack, detach, deny;
    repeat (case_match; cbn); bool_inv; cbn in *; lia.
Qed.

Lemma floor_foldl ops s :
  (_ingestion_cursor s < _retention_floor s)%Z →
  (_ingestion_cursor (foldl step s ops) < _retention_floor (foldl step s ops))%Z.
Proof.
  revert s. induction ops as [|o ops IH]; intros s H; cbn; [done|]. apply IH. by apply floor_step.
Qed.

(** The cursor of one subscription across a step that does not subscribe it again. *)
Definition resubscribes (r : string) (o : op) : bool :=
  match o with OpSubscribe r' _ _ _ _ _ => bool_decide (r' = r) | _ => false end.

Lemma cursor_step r s o u :
  resubscribes r o = false → _subscriptions s !! r = Some u →
  ∃ u', _subscriptions (step s o) !! r = Some u' ∧ (cursor_seq u ≤ cursor_seq u')%Z ∧
        snapshot_sequence u' = snapshot_sequence u ∧ (last_heartbeat_seq u ≤ last_heartbeat_seq u')%Z.
Proof.
  intros Ho Hu.
  assert (∀ r' v (m : gmap string Subscription), (r' = r → cursor_seq u ≤ cursor_seq v ∧ snapshot_sequence v = snapshot_sequence u ∧
      last_heartbeat_seq u ≤ last_heartbeat_seq v)%Z →
    m !! r = Some u → ∃ u', <[r' := v]> m !! r = Some u' ∧ (cursor_seq u ≤ cursor_seq u')%Z ∧
        snapshot_sequence u' = snapshot_sequence u ∧ (last_heartbeat_seq u ≤ last_heartbeat_seq u')%Z) as Hins.
  { intros r' v m Hv Hm. destruct (decide (r' = r)) as [->|Hne].
    - rewrite lookup_insert_eq. destruct Hv as (?&?&?); [done|]. eauto.
    - rewrite lookup_insert_ne by done. exists u. repeat split; (done || lia). }
  destruct o; cbn in *; unfold subscribe, append, prune, heartbeat, evaluate, read, ack, detach, deny.
  - bool_inv. destruct (_ || _); [by eauto with lia|]. case_bool_decide; [by eauto with lia|]. cbn.
    by apply Hins.
  - repeat (case_match; cbn); eauto with lia.
  - eauto with lia.
  - destruct (live_sub r0 s) as [v|] eqn:Hv; [|cbn; by eauto with lia]. apply live_lookup in Hv as [Hv _].
    destruct (derive_fields v now) as (Hc & Hd & Hs & He & Hi & Hq). cbv zeta.
    destruct (negb _); cbn; [apply Hins; [|done]; intros ->; simplify_eq; rewrite ?Hc, ?Hs, ?Hq; repeat split; (done || lia)|].
    destruct (_ <=? _)%Z eqn:Hn; bool_inv; cbn;
      [apply Hins; [|done]; intros ->; simplify_eq; rewrite ?Hc, ?Hs, ?Hq; repeat split; (done || lia)|].
    rewrite insert_insert_eq. apply Hins; [|done]. intros ->. simplify_eq.
    case_bool_decide; cbn in *; rewrite ?Hc, ?Hs, ?Hq in *; repeat split; (done || lia).
  - destruct (_subscriptions s !! r0) as [v|] eqn:Hv; cbn; [|by eauto with lia].
    destruct (derive_fields v now) as (Hc & Hd & Hs & He & Hi & Hq).
    apply Hins; [|done]; intros ->; simplify_eq; rewrite ?Hc, ?Hs, ?Hq; repeat split; (done || lia).
  - destruct (live_sub r0 s) as [v|] eqn:Hv; [|cbn; by eauto with lia]. apply live_lookup in Hv as [Hv _].
    destruct (derive_fields v now) as (Hc & Hd & Hs & He & Hi & Hq).
    destruct (negb _); cbn; [by eauto with lia|].
    assert (∃ u' : Subscription, <[r0:=_derive_state v now]> (_subscriptions s) !! r = Some u' ∧ (cursor_seq u ≤ cursor_seq u')%Z ∧
        snapshot_sequence u' = snapshot_sequence u ∧ (last_heartbeat_seq u ≤ last_heartbeat_seq u')%Z) as Hd'.
    { apply Hins; [|done]; intros ->; simplify_eq; rewrite ?Hc, ?Hs, ?Hq; repeat split; (done || lia). }
    case_bool_decide; [done|]. destruct (fgtZ _ _); [done|]. destruct (_ <? _)%Z; [done|].
    destruct (last _); [|done]. cbn. rewrite insert_insert_eq.
    apply Hins; [|done]; intros ->; simplify_eq; cbn; rewrite ?Hc, ?Hs, ?Hq; repeat split; (done || lia).
  - destruct (live_sub r0 s) as [v|] eqn:Hv; [|cbn; by eauto with lia]. apply live_lookup in Hv as [Hv _].
    destruct (_outbox s !! r0) as [box|]; [|cbn; by eauto with lia].
    destruct (negb _); cbn; [by eauto with lia|].
    apply Hins; [|done]; intros ->; simplify_eq; cbn; repeat split; try (done || lia).
    match goal with |- context [advance ?f ?b ?d ?c] => destruct (advance_spec f b d c) as (H1 & _); lia end.
  - destruct (_subscriptions s !! r0) as [v|] eqn:Hv; cbn; [|by eauto with lia].
    apply Hins; [|done]; intros ->; simplify_eq; cbn; repeat split; (done || lia).
Qed.

(** ** Properties *)

(** A run used by the witnesses: two events, delivery, an acknowledgement out of order. *)
Definition demo : list op :=
  [OpSubscribe "sub" "assoc" "e1" "b" 0 (S754_zero false); OpAppend 1 "ev1"; OpAppend 2 "ev2"; OpAppend 3 "ev3";
   OpRead "sub" "e1" (S754_zero false); OpAck "sub" 2; OpAck "sub" 1; OpAppend 5 "gap"; OpAppend 4 "ev1"].

(** C35: [read] implements the abstract log.  In every reachable store an answer
    with an outcome "ok" or "no new events" carries exactly the entries that
    [append] accepted after the subscription's cursor, in order and numbered
    contiguously, and asks for no resynchronisation; any other answer carries
    no event and leaves its code in the audit log. *)
Theorem read_refines_log (ops : list op) (r epoch : string) (now : spec_float) :
  let s := run ops in
  let '(s', a) := read r epoch now s in
  (outcome a ∈ [OUTCOME_OK; NO_NEW_EVENTS] ∧ resync_required a = false ∧
     ∃ u, live_sub r s = Some u ∧ (_retention_floor s ≤ cursor_seq u)%Z ∧
          events a = drop (Z.to_nat (cursor_seq u)) (number 0 (g_log (grun r ops))) ∧
          (outcome a = NO_NEW_EVENTS ↔ events a = [])) ∨
  (outcome a ∉ [OUTCOME_OK; NO_NEW_EVENTS] ∧ events a = [] ∧
     _audit s' = _audit s ++ [(r, outcome a)]).
Proof.
  cbv zeta. pose proof (inv_grun r ops) as Hi. rewrite <- (grun_store r ops). destruct (grun r ops) as [s lg ak].
  cbn in *. unfold read, deny. destruct (live_sub r s) as [u0|] eqn:Hu; [|right; by split_and!; [set_solver|..]].
  destruct (negb _); [right; by split_and!; [set_solver|..]|].
  destruct (derive_fields u0 now) as (Hc & _). set (u := _derive_state u0 now) in *.
  case_bool_decide; [right; by split_and!; [set_solver|..]|]. destruct (fgtZ _ _); [right; by split_and!; [set_solver|..]|].
  destruct (_ <? _)%Z eqn:Hf; [right; by split_and!; [set_solver|..]|]. bool_inv. cbn in Hf.
  cbn [_history set_subs]. rewrite (read_events r s lg ak u Hi Hf), Hc in *.
  destruct (last _) as [e|] eqn:Hl; left.
  - split; [set_solver|]. split; [done|]. exists u0. split_and!; try done. split; [done|]. cbn. intros Hn. by rewrite Hn in Hl.
  - apply last_None in Hl. split; [set_solver|]. split; [done|]. exists u0. by rewrite Hl.
Qed.

(** C36: no event is lost silently.  In every reachable store, a live
    subscription's cursor has passed only sequences that were acknowledged
    since it subscribed, every delivered sequence is acknowledged or still in
    the outbox, and the outbox has no duplicate, holds only delivered sequences
    above the cursor, and blocks the cursor exactly at its first element. *)
Theorem no_silent_loss (ops : list op) (r : string) (u : Subscription) :
  live_sub r (run ops) = Some u →
  let acked := g_acked (grun r ops) in
  let box := pending r (run ops) in
  (∀ m, (0 < m)%Z → (snapshot_sequence u < m ≤ cursor_seq u)%Z → m ∈ acked) ∧
  (∀ m, (0 < m)%Z → (snapshot_sequence u < m ≤ delivered_upto u)%Z → m ∈ box ∨ m ∈ acked) ∧
  NoDup box ∧ (∀ m, m ∈ box → (cursor_seq u < m ≤ delivered_upto u)%Z) ∧
  ((0 ≤ cursor_seq u < delivered_upto u)%Z → (cursor_seq u + 1)%Z ∈ box) ∧
  (delivered_upto u ≤ Z.of_nat (length (g_log (grun r ops))))%Z.
Proof.
  intros Hu. cbv zeta. pose proof (inv_grun r ops) as [H1 _ _ _ _ H6 _]. rewrite <- (grun_store r ops) in *.
  destruct (H6 u Hu) as (box & Hb & [W1 W2 W3 W4 W5 W6 W7]). unfold pending. rewrite Hb. cbn.
  rewrite H1 in W3. by split_and!.
Qed.
Lemma no_silent_loss_witness :
  ∃ u, live_sub "sub" (run demo) = Some u ∧ cursor_seq u = 2%Z ∧ pending "sub" (run demo) = [3%Z] ∧
    (∀ m, (0 < m)%Z → (snapshot_sequence u < m ≤ cursor_seq u)%Z → m ∈ g_acked (grun "sub" demo)).
Proof.
  eexists. split; [vm_compute; reflexivity|]. split; [reflexivity|]. split; [vm_compute; reflexivity|].
  apply (no_silent_loss demo "sub"). vm_compute. reflexivity.
Defined.

(** event identifiers and sequences are in bijection: the accepted log has no
    duplicate identifier, its length is the ingestion cursor, the identifier
    table maps each accepted identifier to its position, and the history is
    the contiguous tail of the log above the retention floor. *)
Theorem history_bijection (ops : list op) :
  let s := run ops in let log := g_log (grun "" ops) in
  NoDup log ∧ _ingestion_cursor s = Z.of_nat (length log) ∧ (0 ≤ _retention_floor s)%Z ∧
  (∀ id n, _event_ids s !! id = Some n ↔ log !! Z.to_nat (n - 1) = Some id ∧ (1 ≤ n)%Z) ∧
  _history s = drop (Z.to_nat (_retention_floor s)) (number 0 log).
Proof.
  cbv zeta. pose proof (inv_grun "" ops) as [H1 H2 H3 H4 H5 _ _]. rewrite <- (grun_store "" ops) in *.
  split_and!; try done.
  - intros id n. rewrite H5. split.
    + intros [i Hi]%list_elem_of_lookup. rewrite number_lookup in Hi.
      destruct (_ !! i) as [id'|] eqn:E; [|done]. injection Hi as <- <-.
      replace (Z.to_nat _) with i by lia. split; [done|lia].
    + intros [Hl Hn]. apply list_elem_of_lookup. exists (Z.to_nat (n - 1)). rewrite number_lookup, Hl. cbn.
      do 2 f_equal. lia.
  - rewrite H4, filter_number by lia. by rewrite Z.sub_0_r.
Qed.

(** the cursor and the heartbeat sequence of a subscription never move
    backwards, and its snapshot never changes, as long as the reference does
    not subscribe again. *)
Theorem cursor_monotone (ops more : list op) (r : string) (u : Subscription) :
  _subscriptions (run ops) !! r = Some u → Forall (λ o, resubscribes r o = false) more →
  ∃ u', _subscriptions (run (ops ++ more)) !! r = Some u' ∧ (cursor_seq u ≤ cursor_seq u')%Z ∧
        (last_heartbeat_seq u ≤ last_heartbeat_seq u')%Z ∧ snapshot_sequence u' = snapshot_sequence u.
Proof.
  rewrite run_app. generalize (run ops). intros s Hu Hm. revert s u Hu.
  induction Hm as [|o more Ho Hm IH]; intros s u Hu; [exists u; repeat split; (done || lia)|].
  destruct (cursor_step r s o u Ho Hu) as (u1 & Hu1 & Hc & Hs & Hh).
  destruct (IH (step s o) u1 Hu1) as (u2 & Hu2 & Hc2 & Hh2 & Hs2).
  exists u2. split_and!; [done|lia|lia|congruence].
Qed.
Lemma cursor_monotone_witness :
  ∃ u', _subscriptions (run (demo ++ [OpAck "sub" 3])) !! "sub" = Some u' ∧ (2 ≤ cursor_seq u')%Z.
Proof.
  destruct (cursor_monotone demo [OpAck "sub" 3] "sub" (default (MkSub "" "" "" "" 0 0 S754_nan S754_nan 0 0 STALE)
    (_subscriptions (run demo) !! "sub"))) as (u' & H & Hc & _); [vm_compute; reflexivity|repeat constructor|].
  exists u'. split; [exact H|]. exact Hc.
Defined.

(** [detach] is irreversible.  After it returned, whatever is called next,
    the reference cannot subscribe, read, acknowledge or send a heartbeat, its
    outbox is empty and its state is detached. *)
Theorem detach_irreversible (ops more : list op) (r : string) :
  (detach r (run ops)).2 = true →
  let s := run (ops ++ [OpDetach r] ++ more) in
  (∀ a e b n now, (subscribe r a e b n now s).2 = None) ∧
  (∀ epoch now, (read r epoch now s).2 = MkRead ASSOCIATION_REQUIRED [] false) ∧
  (∀ n, (ack r n s).2 = false) ∧ (∀ n now, (heartbeat r n now s).2 = false) ∧
  pending r s = [] ∧ ∀ now, (evaluate r now s).2 = Some DETACHED.
Proof.
  intros Hd s. assert (r ∈ _tombstones s) as Ht.
  { subst s. rewrite !run_app. cbn. apply tombs_foldl. by apply detach_tombs. }
  assert (live_sub r s = None) as Hl by (unfold live_sub; by rewrite bool_decide_true).
  pose proof (inv_grun r (ops ++ [OpDetach r] ++ more)) as [_ _ _ _ _ _ H7]. rewrite grun_store in H7.
  fold s in H7. destruct (H7 Ht) as (Hp & u & Hu & Hst). split_and!.
  - intros. unfold subscribe. destruct (_ || _); [done|]. by rewrite bool_decide_true.
  - intros. unfold read. by rewrite Hl.
  - intros. unfold ack. by rewrite Hl.
  - intros. unfold heartbeat. by rewrite Hl.
  - done.
  - intros now. unfold evaluate. rewrite Hu. cbn. by rewrite derive_detached.
Qed.
Lemma detach_irreversible_witness :
  (detach "sub" (run demo)).2 = true ∧
  pending "sub" (run (demo ++ [OpDetach "sub"] ++ [OpSubscribe "sub" "a" "e2" "b" 0 S754_nan; OpAppend 4 "ev4"])) = [].
Proof.
  split; [vm_compute; reflexivity|].
  apply (detach_irreversible demo [OpSubscribe "sub" "a" "e2" "b" 0 S754_nan; OpAppend 4 "ev4"] "sub").
  vm_compute. reflexivity.
Defined.

(** a retention purge above the ingestion cursor stops the store for good:
    afterwards no [append] ever succeeds, whatever is called. *)
Theorem prune_ahead_wedges (ops more : list op) (n : Z) :
  (_ingestion_cursor (run ops) < n)%Z →
  ∀ k id, (append k id (run (ops ++ [OpPrune n] ++ more))).2 = false.
Proof.
  intros Hn k id. rewrite !run_app. cbn [foldl app]. set (s := step (run ops) (OpPrune n)).
  assert (_ingestion_cursor s < _retention_floor s)%Z as Hs by (subst s; cbn -[Z.max run]; lia).
  apply (floor_foldl more) in Hs. unfold append. repeat case_match; bool_inv; cbn; try done. lia.
Qed.
Lemma prune_ahead_wedges_witness :
  _ingestion_cursor (run demo) = 3%Z ∧ (append 4 "ev4" (run demo)).2 = true ∧
  (append 4 "ev4" (run (demo ++ [OpPrune 4] ++ []))).2 = false.
Proof.
  split; [vm_compute; reflexivity|]. split; [vm_compute; reflexivity|].
  apply (prune_ahead_wedges demo [] 4). vm_compute. reflexivity.
Defined.
