(* ===== verification/GatewayAuth.v ===== *)
(** * Gateway activation tickets and associations (scripts/pd_fleet/gateway_auth.py)

    The single-writer store of tickets, associations, idempotency records and
    the audit log, and the service over it.  Each method runs under the lock
    and is one function of the store.  The random tokens of [secrets] are
    arguments of [issue_ticket]. *)

From S2P Require Import Prelude PyStr PyNum.
From S2P Require GatewaySubscription.

Definition ACTIVATION_TTL_S : Z := 300.
Definition IDLE_TTL_S : Z := 90.
Definition GRACE_S : Z := 60.
Definition PURPOSE : string := "pd_observation".
Definition OWNERSHIP_MODE : string := "user_owned_session".
Definition ACTIVATION_INVALID : string := "activation_invalid".

Inductive TicketStatus : Type := ISSUED | CONSUMED | EXPIRED | REVOKED.
#[export] Instance TicketStatus_eq_dec : EqDecision TicketStatus.
Proof. solve_decision. Defined.

Inductive AssociationState : Type :=
| PENDING_ACTIVATION | OBSERVING | RECONNECTING | STALE | ENDED | DETACHED | REJECTED.
#[export] Instance AssociationState_eq_dec : EqDecision AssociationState.
Proof. solve_decision. Defined.

Definition state_value (s : AssociationState) : string :=
  match s with
  | PENDING_ACTIVATION => "pending_activation" | OBSERVING => "observing" | RECONNECTING => "reconnecting"
  | STALE => "stale" | ENDED => "ended" | DETACHED => "detached" | REJECTED => "rejected"
  end.

Definition _TRANSITIONS (s : AssociationState) : list AssociationState :=
  match s with
  | PENDING_ACTIVATION => [OBSERVING; REJECTED]
  | OBSERVING => [RECONNECTING; ENDED; DETACHED]
  | RECONNECTING => [STALE; DETACHED]
  | STALE => [PENDING_ACTIVATION]
  | ENDED | DETACHED | REJECTED => []
  end.

Definition op_key : Type := string * string * string * string.

Record Ticket : Type := MkTicket {
  activation_ref : string;
  observer_ref : string;
  owner_ref : string;
  profile_ref : string;
  workspace_ref : string;
  session_ref : string;
  association_ref : string;
  provenance_ref : string;
  issued_at : spec_float;
  expires_at : spec_float;
  nonce_ref : string;
  ownership_mode : string;
  purpose : string;
  status : TicketStatus;
  consumed_at : option spec_float;
  revoked_at : option spec_float;
  consumed_op_key : option op_key }.

Record Presentation : Type := MkPresentation {
  p_activation : string;
  p_observer : string;
  p_owner : string;
  p_profile : string;
  p_workspace : string;
  p_session : string;
  p_association : string;
  p_purpose : string }.

Record BoundedResult : Type := MkBounded {
  b_association : string;
  b_ownership : string;
  b_status : string }.

Record Association : Type := MkAssociation {
  a_ref : string;
  a_state : AssociationState;
  created_at : spec_float;
  a_heartbeat_at : spec_float }.

(** [external] is the value of its only key, "outcome". *)
Record ConsumeResult : Type := MkConsume {
  external : string;
  audit_reason : option string;
  result : option BoundedResult;
  delivered : bool }.

Record TicketStore : Type := MkStore {
  _tickets : gmap string Ticket;
  _associations : gmap string Association;
  _idempotency : gmap op_key BoundedResult;
  _audit : list (string * string) }.

Definition init : TicketStore := MkStore ∅ ∅ ∅ [].

Definition set_tickets (s : TicketStore) (m : gmap string Ticket) : TicketStore :=
  MkStore m s.(_associations) s.(_idempotency) s.(_audit).
Definition set_associations (s : TicketStore) (m : gmap string Association) : TicketStore :=
  MkStore s.(_tickets) m s.(_idempotency) s.(_audit).
Definition log_audit (s : TicketStore) (r c : string) : TicketStore :=
  MkStore s.(_tickets) s.(_associations) s.(_idempotency) (s.(_audit) ++ [(r, c)]).

Definition set_status (t : Ticket) (st : TicketStatus) (c r : option spec_float) (k : option op_key) : Ticket :=
  MkTicket t.(activation_ref) t.(observer_ref) t.(owner_ref) t.(profile_ref) t.(workspace_ref)
    t.(session_ref) t.(association_ref) t.(provenance_ref) t.(issued_at) t.(expires_at) t.(nonce_ref)
    t.(ownership_mode) t.(purpose) st c r k.
Definition set_a_state (a : Association) (st : AssociationState) : Association :=
  MkAssociation a.(a_ref) st a.(created_at) a.(a_heartbeat_at).

(** ** Associations *)

(** [Association.transition]: [None] is [AssociationTransitionError]. *)
Definition transition (target : AssociationState) (a : Association) : option Association :=
  if bool_decide (target ∈ _TRANSITIONS a.(a_state)) then Some (set_a_state a target) else None.

Definition touch (now : spec_float) (a : Association) : Association :=
  if bool_decide (a.(a_state) ∈ [OBSERVING; RECONNECTING])
  then MkAssociation a.(a_ref) a.(a_state) a.(created_at) now else a.

Definition evaluate (now : spec_float) (a : Association) : Association :=
  let idle := fsub now a.(a_heartbeat_at) in
  if bool_decide (a.(a_state) = OBSERVING) && fgtZ idle IDLE_TTL_S then set_a_state a RECONNECTING
  else if bool_decide (a.(a_state) = RECONNECTING) && fgtZ idle (IDLE_TTL_S + GRACE_S)
  then set_a_state a STALE else a.

(** ** The store *)

Definition put_ticket (t : Ticket) (s : TicketStore) : TicketStore :=
  set_tickets s (<[t.(activation_ref) := t]> s.(_tickets)).

Definition revoke_ticket (r : string) (now : spec_float) (s : TicketStore) : TicketStore * bool :=
  match s.(_tickets) !! r with
  | None => (s, false)
  | Some t =>
      if negb (bool_decide (t.(status) = ISSUED)) then (s, false)
      else (set_tickets s (<[r := set_status t REVOKED t.(consumed_at) (Some now) t.(consumed_op_key)]> s.(_tickets)), true)
  end.

Definition on_association (r : string) (f : Association → option Association) (s : TicketStore)
    : TicketStore * res unit (option AssociationState) :=
  match s.(_associations) !! r with
  | None => (s, Ok None)
  | Some a => match f a with
              | Some a' => (set_associations s (<[r := a']> s.(_associations)), Ok (Some a'.(a_state)))
              | None => (s, Err ())
              end
  end.
Definition touch_association (r : string) (now : spec_float) := on_association r (Some ∘ touch now).
Definition evaluate_association (r : string) (now : spec_float) := on_association r (Some ∘ evaluate now).
Definition reassociate (r : string) := on_association r (transition PENDING_ACTIVATION).

Definition deny (t : Ticket) (reason : string) (s : TicketStore) : TicketStore * ConsumeResult :=
  (log_audit s t.(activation_ref) reason, MkConsume ACTIVATION_INVALID (Some reason) None false).

Definition consume_transaction (p : Presentation) (k : op_key) (now : spec_float) (s : TicketStore)
    : TicketStore * ConsumeResult :=
  match s.(_tickets) !! p.(p_activation) with
  | None => (log_audit s p.(p_activation) ACTIVATION_INVALID, MkConsume ACTIVATION_INVALID None None false)
  | Some t =>
      if negb (bool_decide (t.(purpose) = p.(p_purpose))) then deny t "capability_denied" s
      else if bool_decide (t.(status) = REVOKED) then deny t ACTIVATION_INVALID s
      else if bool_decide (t.(status) = EXPIRED) ||
              (bool_decide (t.(status) = ISSUED) && fltb t.(expires_at) now) then
        deny t "activation_expired"
          (if bool_decide (t.(status) = ISSUED)
           then set_tickets s (<[p.(p_activation) := set_status t EXPIRED t.(consumed_at) t.(revoked_at) t.(consumed_op_key)]> s.(_tickets))
           else s)
      else if negb (bool_decide (t.(observer_ref) = p.(p_observer))) then deny t "foreign_owner" s
      else if negb (bool_decide (t.(owner_ref) = p.(p_owner))) ||
              negb (bool_decide (t.(profile_ref) = p.(p_profile))) ||
              negb (bool_decide (t.(workspace_ref) = p.(p_workspace))) ||
              negb (bool_decide (t.(session_ref) = p.(p_session))) ||
              negb (bool_decide (t.(association_ref) = p.(p_association)))
           then deny t "activation_binding_mismatch" s
      else if bool_decide (t.(status) = CONSUMED) then
        match (if bool_decide (t.(consumed_op_key) = Some k) then s.(_idempotency) !! k else None) with
        | Some stored => (s, MkConsume "activated" None (Some stored) true)
        | None => deny t "activation_replayed" s
        end
      else
        let a := MkAssociation t.(association_ref) OBSERVING now now in
        let b := MkBounded a.(a_ref) t.(ownership_mode) (state_value a.(a_state)) in
        (MkStore (<[p.(p_activation) := set_status t CONSUMED (Some now) t.(revoked_at) (Some k)]> s.(_tickets))
           (<[a.(a_ref) := a]> s.(_associations)) (<[k := b]> s.(_idempotency)) s.(_audit),
         MkConsume "activated" None (Some b) true)
  end.

(** ** The service *)

(** [issue_ticket]: [None] when [now + ttl_s] overflows the conversion of [ttl_s]. *)
Definition issue_ticket (token nonce observer owner profile workspace session association provenance : string)
    (now : spec_float) (ttl_s : Z) (s : TicketStore) : TicketStore * option Ticket :=
  match float_of_Z ttl_s with
  | None => (s, None)
  | Some ttl =>
      let t := MkTicket ("act-" +:+ token) observer owner profile workspace session association provenance
                 now (fadd now ttl) nonce OWNERSHIP_MODE PURPOSE ISSUED None None None in
      (put_ticket t s, Some t)
  end.

Definition key_of (p : Presentation) : op_key :=
  (p.(p_activation), p.(p_observer), p.(p_association), p.(p_purpose)).
Definition consume (p : Presentation) (now : spec_float) : TicketStore → TicketStore * ConsumeResult :=
  consume_transaction p (key_of p) now.

(** ** Traces of the service *)

Inductive op : Type :=
| OpIssue (token nonce observer owner profile workspace session association provenance : string)
    (now : spec_float) (ttl : Z)
| OpRevoke (r : string) (now : spec_float)
| OpTouch (r : string) (now : spec_float)
| OpEvaluate (r : string) (now : spec_float)
| OpReassociate (r : string)
| OpConsume (p : Presentation) (now : spec_float).

Definition step (s : TicketStore) (o : op) : TicketStore :=
  match o with
  | OpIssue tk no ob ow pr wo se a pv now ttl => (issue_ticket tk no ob ow pr wo se a pv now ttl s).1
  | OpRevoke r now => (revoke_ticket r now s).1
  | OpTouch r now => (touch_association r now s).1
  | OpEvaluate r now => (evaluate_association r now s).1
  | OpReassociate r => (reassociate r s).1
  | OpConsume p now => (consume p now s).1
  end.
Definition run (ops : list op) : TicketStore := foldl step init ops.

(** The operation issues a ticket under the activation reference [a]. *)
Definition issues (a : string) (o : op) : bool :=
  match o with OpIssue tk _ _ _ _ _ _ _ _ _ _ => bool_decide ("act-" +:+ tk = a) | _ => false end.

(** The presentation carries the ticket's bindings. *)
Definition bound (t : Ticket) (p : Presentation) : Prop :=
  purpose t = p_purpose p ∧ observer_ref t = p_observer p ∧ owner_ref t = p_owner p ∧
  profile_ref t = p_profile p ∧ workspace_ref t = p_workspace p ∧ session_ref t = p_session p ∧
  association_ref t = p_association p.

Definition bounded_of (t : Ticket) : BoundedResult :=
  MkBounded (association_ref t) (ownership_mode t) "observing".
Definition key_of_ticket (t : Ticket) : op_key :=
  (activation_ref t, observer_ref t, association_ref t, purpose t).

Record ticket_ok (s : TicketStore) (a : string) (t : Ticket) : Prop := {
  t_ref : activation_ref t = a;
  t_consumed : status t = CONSUMED →
    consumed_op_key t = Some (key_of_ticket t) ∧
    _idempotency s !! key_of_ticket t = Some (bounded_of t) }.
Definition store_ok (s : TicketStore) : Prop := map_Forall (ticket_ok s) (_tickets s).

(** ** Lemmas *)

Lemma bound_key t p : bound t p → activation_ref t = p_activation p → key_of p = key_of_ticket t.
Proof. intros (?&?&_&_&_&_&?) ?. unfold key_of, key_of_ticket. congruence. Qed.

(** The branches of [consume], one constructor per return statement. *)
Inductive consume_case (p : Presentation) (now : spec_float) (s : TicketStore) : TicketStore → ConsumeResult → Prop :=
| CaseUnknown :
    _tickets s !! p_activation p = None →
    consume_case p now s (log_audit s (p_activation p) ACTIVATION_INVALID)
      (MkConsume ACTIVATION_INVALID None None false)
| CaseDeny t reason :
    _tickets s !! p_activation p = Some t →
    (¬ bound t p ∨ status t = REVOKED ∨ status t = EXPIRED ∨
       status t = CONSUMED ∧ (consumed_op_key t ≠ Some (key_of p) ∨ _idempotency s !! key_of p = None)) →
    consume_case p now s (log_audit s (activation_ref t) reason) (MkConsume ACTIVATION_INVALID (Some reason) None false)
| CaseExpire t :
    _tickets s !! p_activation p = Some t → status t = ISSUED → fltb (expires_at t) now = true →
    consume_case p now s
      (log_audit (set_tickets s (<[p_activation p := set_status t EXPIRED (consumed_at t) (revoked_at t) (consumed_op_key t)]> (_tickets s)))
         (activation_ref t) "activation_expired")
      (MkConsume ACTIVATION_INVALID (Some "activation_expired") None false)
| CaseReplay t stored :
    _tickets s !! p_activation p = Some t → bound t p → status t = CONSUMED →
    consumed_op_key t = Some (key_of p) → _idempotency s !! key_of p = Some stored →
    consume_case p now s s (MkConsume "activated" None (Some stored) true)
| CaseCommit t :
    _tickets s !! p_activation p = Some t → bound t p → status t = ISSUED → fltb (expires_at t) now = false →
    consume_case p now s
      (MkStore (<[p_activation p := set_status t CONSUMED (Some now) (revoked_at t) (Some (key_of p))]> (_tickets s))
         (<[association_ref t := MkAssociation (association_ref t) OBSERVING now now]> (_associations s))
         (<[key_of p := bounded_of t]> (_idempotency s)) (_audit s))
      (MkConsume "activated" None (Some (bounded_of t)) true).

Lemma consume_cases p now s : consume_case p now s (consume p now s).1 (consume p now s).2.
Proof.
  unfold consume, consume_transaction, deny. destruct (_tickets s !! p_activation p) as [t|] eqn:Ht; [|by apply CaseUnknown].
  destruct (negb (bool_decide (purpose t = _))) eqn:Hp; bool_inv; cbn [fst snd].
  { eapply CaseDeny; [done|]. left. by intros (?&_). }
  case_bool_decide as Hr; [eapply CaseDeny; eauto|].
  case_bool_decide as He; cbn [orb].
  { rewrite bool_decide_false by congruence. eapply CaseDeny; eauto. }
  case_bool_decide as Hi; cbn [andb].
  { destruct (fltb (expires_at t) now) eqn:Hx; [by eapply CaseExpire|].
    rewrite (bool_decide_false (status t = CONSUMED)) by congruence.
    destruct (negb (bool_decide (observer_ref t = _))) eqn:Ho; bool_inv; cbn [fst snd].
    { eapply CaseDeny; [done|]. left. by intros (_&?&_). }
    destruct (_ || _) eqn:Hb; bool_inv; cbn [fst snd].
    { eapply CaseDeny; [done|]. left. intros (_&_&H1&H2&H3&H4&H5). rewrite !bool_decide_true in Hb by done. done. }
    eapply CaseCommit; eauto. by repeat split. }
  destruct (negb (bool_decide (observer_ref t = _))) eqn:Ho; bool_inv; cbn [fst snd].
  { eapply CaseDeny; [done|]. left. by intros (_&?&_). }
  destruct (_ || _) eqn:Hb; bool_inv; cbn [fst snd].
  { eapply CaseDeny; [done|]. left. intros (_&_&H1&H2&H3&H4&H5). rewrite !bool_decide_true in Hb by done. done. }
  assert (status t = CONSUMED) as Hc by (destruct (status t); done).
  rewrite (bool_decide_true (status t = CONSUMED)) by done.
  destruct (if bool_decide (consumed_op_key t = Some (key_of p)) then _ else None) as [stored|] eqn:Hst; cbn [fst snd].
  - case_bool_decide; [|done]. eapply CaseReplay; eauto. by repeat split.
  - eapply CaseDeny; [done|]. right; right; right. split; [done|]. case_bool_decide; auto.
Qed.

Lemma store_ok_tickets s m :
  store_ok s →
  map_Forall (λ a t, activation_ref t = a ∧ (status t = CONSUMED → _tickets s !! a = Some t)) m →
  store_ok (set_tickets s m).
Proof.
  intros Hs Hm a t Ht. destruct (Hm a t Ht) as [Ha Hc]. split; [done|]. intros Hst.
  exact (t_consumed _ _ _ (Hs a t (Hc Hst)) Hst).
Qed.

Lemma store_ok_insert s a t :
  store_ok s → activation_ref t = a → (status t = CONSUMED → _tickets s !! a = Some t) →
  store_ok (set_tickets s (<[a := t]> (_tickets s))).
Proof.
  intros Hs Ha Hc. apply store_ok_tickets; [done|]. intros b u Hu.
  apply lookup_insert_Some in Hu as [[<- <-]|[_ Hu]]; [done|]. split; [|done].
  by apply (t_ref s b u), Hs.
Qed.

Lemma store_ok_same s s' :
  _tickets s' = _tickets s → _idempotency s' = _idempotency s → store_ok s → store_ok s'.
Proof. intros Ht Hi Hs a t Hat. rewrite Ht in Hat. destruct (Hs a t Hat) as [H1 H2]. split; [done|]. by rewrite Hi. Qed.

Lemma consume_ok p now s : store_ok s → store_ok (consume p now s).1.
Proof.
  intros Hs. destruct (consume_cases p now s) as [H|t reason Ht _|t Ht Hi Hx|t st Ht Hb Hc Hk Hst|t Ht Hb Hi Hx].
  - by apply (store_ok_same s).
  - by apply (store_ok_same s).
  - apply (store_ok_same (set_tickets s (<[p_activation p := set_status t EXPIRED (consumed_at t) (revoked_at t) (consumed_op_key t)]> (_tickets s)))); [done..|].
    apply store_ok_insert; [done| |done]. by apply (t_ref s _ t), Hs.
  - done.
  - pose proof (t_ref _ _ _ (Hs _ _ Ht)) as Ha. pose proof (bound_key t p Hb Ha) as Hk.
    intros b u Hu. cbn in Hu. apply lookup_insert_Some in Hu as [[<- <-]|[Hne Hu]].
    + split; [done|]. intros _. cbn. rewrite Hk. split; [done|]. by rewrite lookup_insert_eq.
    + destruct (Hs b u Hu) as [Hb' Hc]. split; [done|]. intros Hst. destruct (Hc Hst) as [? Hid].
      split; [done|]. cbn. rewrite lookup_insert_ne; [done|]. rewrite Hk. unfold key_of_ticket. congruence.
Qed.

Lemma on_association_same r f s :
  _tickets (on_association r f s).1 = _tickets s ∧ _idempotency (on_association r f s).1 = _idempotency s.
Proof. unfold on_association. destruct (_associations s !! r) as [a|]; [|done]. by destruct (f a). Qed.

Lemma step_ok s o : store_ok s → store_ok (step s o).
Proof.
  intros Hs. destruct o; cbn [step].
  - unfold issue_ticket, put_ticket. destruct (float_of_Z ttl); [|done]. by apply store_ok_insert.
  - unfold revoke_ticket. destruct (_tickets s !! r) as [t|] eqn:Ht; [|done]. destruct (negb _); [done|].
    apply store_ok_insert; [done| |done]. by apply (t_ref s _ t), Hs.
  - destruct (on_association_same r (Some ∘ touch now) s). by eapply store_ok_same.
  - destruct (on_association_same r (Some ∘ evaluate now) s). by eapply store_ok_same.
  - destruct (on_association_same r (transition PENDING_ACTIVATION) s). by eapply store_ok_same.
  - by apply consume_ok.
Qed.

Lemma foldl_ok ops s : store_ok s → store_ok (foldl step s ops).
Proof. revert s. induction ops; cbn; eauto using step_ok. Qed.

Lemma run_ok ops : store_ok (run ops).
Proof. apply foldl_ok, map_Forall_empty. Qed.

(** A ticket that is no longer issued is never written again. *)
Lemma frozen_step s o a t :
  store_ok s → issues a o = false → _tickets s !! a = Some t → status t ≠ ISSUED →
  _tickets (step s o) !! a = Some t.
Proof.
  intros Hok Ho Ht Hst. destruct o; cbn [step]; unfold touch_association, evaluate_association, reassociate.
  - cbn in Ho. bool_inv. unfold issue_ticket, put_ticket. destruct (float_of_Z ttl); [|done]. cbn.
    by rewrite lookup_insert_ne.
  - unfold revoke_ticket. destruct (_tickets s !! r) as [u|] eqn:Hu; [|done].
    case_bool_decide as Hi; [|done]. cbn. rewrite lookup_insert_ne; [done|]. intros ->. congruence.
  - by destruct (on_association_same r (Some ∘ touch now) s) as [-> _].
  - by destruct (on_association_same r (Some ∘ evaluate now) s) as [-> _].
  - by destruct (on_association_same r (transition PENDING_ACTIVATION) s) as [-> _].
  - destruct (consume_cases p now s) as [H|u reason Hu _|u Hu Hi Hx|u st Hu Hb Hc Hk Hs|u Hu Hb Hi Hx]; cbn; try done;
      rewrite lookup_insert_ne; try done; intros Heq; rewrite Heq in Hu; congruence.
Qed.

Lemma frozen_foldl ops s a t :
  store_ok s → Forall (λ o, issues a o = false) ops → _tickets s !! a = Some t → status t ≠ ISSUED →
  _tickets (foldl step s ops) !! a = Some t.
Proof.
  intros Hok Hops. revert s Hok. induction Hops as [|o ops Ho _ IH]; intros s Hok Ht Hst; cbn; [done|].
  apply IH; [by apply step_ok| |done]. by apply frozen_step.
Qed.

(** After an activation the ticket is consumed, and stays as it is until it is issued again. *)
Lemma activated_ticket ops p now r mid : (consume p now (run ops)).2 = r → external r = "activated" → Forall (λ o, issues (p_activation p) o = false) mid →
  ∃ t, _tickets (run (ops ++ [OpConsume p now] ++ mid)) !! p_activation p = Some t ∧ activation_ref t = p_activation p ∧ status t = CONSUMED ∧ bound t p ∧
    consumed_op_key t = Some (key_of p) ∧ r = MkConsume "activated" None (Some (bounded_of t)) true.
Proof.
  intros Hr Hact Hm. assert (∃ t, _tickets (run (ops ++ [OpConsume p now])) !! p_activation p = Some t ∧
    status t = CONSUMED ∧ bound t p ∧ r = MkConsume "activated" None (Some (bounded_of t)) true) as (t & Ht & Hc & Hb & Hrt).
  { unfold run. rewrite foldl_app. cbn. fold (run ops). pose proof (run_ok ops) as Hok. revert Hr.
    destruct (consume_cases p now (run ops)) as [H|t reason Ht Hd|t Ht Hi Hx|t st Ht Hb Hc Hk Hs|t Ht Hb Hi Hx]; cbn;
      intros <-; try discriminate.
    - exists t. split_and!; try done. destruct (Hok _ _ Ht) as [Ha Hcon]. destruct (Hcon Hc) as [_ Hid].
      rewrite (bound_key t p Hb Ha) in Hs. congruence.
    - eexists. rewrite lookup_insert_eq. by split_and!. }
  exists t. assert (_tickets (run (ops ++ [OpConsume p now] ++ mid)) !! p_activation p = Some t) as Hs.
  { rewrite app_assoc. unfold run. rewrite foldl_app. apply frozen_foldl; [apply run_ok|done|done|congruence]. }
  destruct (run_ok _ _ _ Hs) as [Ha Hcon]. destruct (Hcon Hc) as [Hk _]. rewrite (bound_key t p Hb Ha). by split_and!.
Qed.

(** ** Properties *)

Definition demo_presentation : Presentation :=
  MkPresentation "act-00" "obs" "owner" "prof" "ws" "sess" "assoc" PURPOSE.
Definition demo : list op :=
  [OpIssue "00" "n" "obs" "owner" "prof" "ws" "sess" "assoc" "prov" (S754_zero false) ACTIVATION_TTL_S].

(** [consume] activates exactly the presentations that carry every binding
    of a known ticket which is either issued and not expired, or already
    consumed by the same operation; the answer is the result bound to that
    ticket.  Every other presentation gets the one uniform failure, and then
    neither an association nor an idempotency record changes. *)
Theorem consume_spec (ops : list op) (p : Presentation) (now : spec_float) :
  let s := run ops in
  let '(s', r) := consume p now s in
  (external r = "activated" ∧ audit_reason r = None ∧ delivered r = true ∧
     ∃ t, _tickets s !! p_activation p = Some t ∧ bound t p ∧ result r = Some (bounded_of t) ∧
          (status t = ISSUED ∧ fltb (expires_at t) now = false ∨ status t = CONSUMED ∧ s' = s)) ∨
  (external r = ACTIVATION_INVALID ∧ result r = None ∧ delivered r = false ∧
     _associations s' = _associations s ∧ _idempotency s' = _idempotency s ∧
     ∀ t, _tickets s !! p_activation p = Some t → bound t p →
          status t = REVOKED ∨ status t = EXPIRED ∨ status t = ISSUED ∧ fltb (expires_at t) now = true).
Proof.
  cbv zeta. set (s := run ops). pose proof (run_ok ops) as Hok. fold s in Hok.
  rewrite (surjective_pairing (consume p now s)).
  destruct (consume_cases p now s) as [H|t reason Ht Hd|t Ht Hi Hx|t st Ht Hb Hc Hk Hs|t Ht Hb Hi Hx]; cbn.
  - right. split_and!; try done. intros t Ht. congruence.
  - right. split_and!; try done. intros u Hu Hb. assert (u = t) as -> by congruence.
    destruct Hd as [Hd|[Hd|[Hd|[Hc Hd]]]]; auto; [done|]. exfalso.
    destruct (Hok _ _ Ht) as [Ha Hcon]. destruct (Hcon Hc) as [Hk Hid].
    rewrite (bound_key t p Hb Ha) in Hd. destruct Hd; congruence.
  - right. split_and!; try done. intros u Hu _. assert (u = t) as -> by congruence. auto.
  - left. split_and!; try done. exists t. split_and!; try done; [|by right].
    destruct (Hok _ _ Ht) as [Ha Hcon]. destruct (Hcon Hc) as [_ Hid].
    rewrite (bound_key t p Hb Ha) in Hs. congruence.
  - left. split_and!; try done. exists t. split_and!; try done. by left.
Qed.

(** C38: a ticket is used at most once.  Once a [consume] of it was activated,
    then until its reference is issued again, whatever happens in between, any
    further [consume] of it, at any time and with any presentation, writes
    nothing but the audit log: tickets, associations and idempotency records
    stay as they are.  It is answered as activated only for the operation that
    used the ticket, with the result of that use, and otherwise fails without
    one. *)
Theorem ticket_one_use (ops mid : list op) (p p' : Presentation) (now now' : spec_float) :
  external (consume p now (run ops)).2 = "activated" → p_activation p' = p_activation p → Forall (λ o, issues (p_activation p) o = false) mid →
  let s := run (ops ++ [OpConsume p now] ++ mid) in
  let '(s', r') := consume p' now' s in
  _tickets s' = _tickets s ∧ _associations s' = _associations s ∧ _idempotency s' = _idempotency s ∧
  (external r' = "activated" → key_of p' = key_of p ∧ r' = (consume p now (run ops)).2 ∧ s' = s) ∧
  (external r' ≠ "activated" → external r' = ACTIVATION_INVALID ∧ result r' = None ∧ delivered r' = false).
Proof.
  intros Hact Hp Hm s. destruct (activated_ticket ops p now _ mid eq_refl Hact Hm) as (t & Ht & Ha & Hc & Hb & Hk & Hr). fold s in Ht. rewrite <- Hp in Ht. rewrite (surjective_pairing (consume p' now' s)).
  pose proof (run_ok (ops ++ [OpConsume p now] ++ mid)) as Hok. fold s in Hok. destruct (Hok _ _ Ht) as [_ Hcon]. destruct (Hcon Hc) as [_ Hid].
  destruct (consume_cases p' now' s) as [H|u reason Hu Hd|u Hu Hi Hx|u st Hu Hb' Hc' Hk' Hs'|u Hu Hb' Hi Hx]; try congruence; cbn; split_and!; try done.
  intros _. assert (u = t) as -> by congruence. assert (key_of p' = key_of p) as He by congruence. split_and!; [done| |done]. rewrite Hr. do 2 f_equal.
  rewrite (bound_key t p' Hb' ltac:(congruence)) in Hs'. congruence.
Qed.
Lemma ticket_one_use_witness :
  external (consume demo_presentation (S754_zero false) (run demo)).2 = "activated" ∧
  let s := run (demo ++ [OpConsume demo_presentation (S754_zero false)] ++ [OpRevoke "act-00" (S754_zero false)]) in
  _tickets (consume demo_presentation (float_of_decimal 9 9) s).1 = _tickets s.
Proof.
  split; [vm_compute; reflexivity|]. intros s.
  pose proof (ticket_one_use demo [OpRevoke "act-00" (S754_zero false)] demo_presentation demo_presentation (S754_zero false) (float_of_decimal 9 9)
    ltac:(vm_compute; reflexivity) eq_refl ltac:(repeat constructor)) as H. cbv zeta in H. fold s in H. rewrite (surjective_pairing (consume _ _ s)) in H. exact (proj1 H).
Defined.

(** an activation can be replayed.  Once a presentation was activated, the
    same presentation gets the same result at any later time, whatever
    happened in between short of issuing its reference again, and the replay
    changes nothing in the store. *)
Theorem replay_idempotent (ops more : list op) (p : Presentation) (now now' : spec_float) (r : ConsumeResult) :
  (consume p now (run ops)).2 = r → external r = "activated" →
  Forall (λ o, issues (p_activation p) o = false) more →
  let s := run (ops ++ [OpConsume p now] ++ more) in
  consume p now' s = (s, r).
Proof.
  intros Hr Hact Hm s. destruct (activated_ticket ops p now r more Hr Hact Hm) as (t & Hs & _ & Hc & Hb & _ & Hrt). fold s in Hs.
  pose proof (run_ok (ops ++ [OpConsume p now] ++ more)) as Hok. fold s in Hok.
  destruct (Hok _ _ Hs) as [Ha Hcon]. destruct (Hcon Hc) as [Hk Hid].
  rewrite (surjective_pairing (consume p now' s)). subst r.
  destruct (consume_cases p now' s) as [H|u reason Hu Hd|u Hu Hi Hx|u st Hu Hb' Hc' Hk' Hs'|u Hu Hb' Hi Hx]; try congruence.
  assert (u = t) as -> by congruence. exfalso. rewrite (bound_key t p Hb Ha) in Hd.
  destruct Hd as [Hd|[Hd|[Hd|[_ [Hd|Hd]]]]]; congruence.
Qed.
Lemma replay_idempotent_witness :
  let p := demo_presentation in let t0 := S754_zero false in let t9 := float_of_decimal 9 9 in
  let s := run (demo ++ [OpConsume p t0] ++ [OpRevoke "act-00" t9; OpEvaluate "assoc" t9]) in
  external (consume p t9 s).2 = "activated" ∧ (consume p t9 s).1 = s.
Proof.
  intros p t0 t9 s. pose proof (replay_idempotent demo [OpRevoke "act-00" t9; OpEvaluate "assoc" t9] p t0 t9
    (consume p t0 (run demo)).2 eq_refl ltac:(vm_compute; reflexivity) ltac:(repeat constructor)) as H.
  fold s in H. rewrite H. split; [vm_compute; reflexivity|reflexivity].
Defined.

(** consumed, expired and revoked are final: a ticket that left the issued
    state is never written again, unless its reference is issued again. *)
Theorem ticket_final (ops more : list op) (a : string) (t : Ticket) :
  _tickets (run ops) !! a = Some t → status t ≠ ISSUED → Forall (λ o, issues a o = false) more →
  _tickets (run (ops ++ more)) !! a = Some t.
Proof. intros Ht Hst Hm. unfold run. rewrite foldl_app. apply frozen_foldl; auto using run_ok. Qed.
Lemma ticket_final_witness :
  let s := run (demo ++ [OpRevoke "act-00" (S754_zero false)]) in
  ∃ t, _tickets s !! "act-00" = Some t ∧ status t = REVOKED ∧
       _tickets (run ((demo ++ [OpRevoke "act-00" (S754_zero false)]) ++ [OpConsume demo_presentation S754_nan])) !! "act-00" = Some t.
Proof.
  eexists. split; [vm_compute; reflexivity|]. split; [reflexivity|].
  apply (ticket_final (demo ++ [OpRevoke "act-00" (S754_zero false)]) [OpConsume demo_presentation S754_nan]);
    [vm_compute; reflexivity|discriminate|repeat constructor].
Defined.

Lemma touch_state now a : a_state (touch now a) = a_state a.
Proof. unfold touch. by case_bool_decide. Qed.
Lemma evaluate_state now a :
  a_state (evaluate now a) = a_state a ∨ a_state (evaluate now a) ∈ _TRANSITIONS (a_state a).
Proof.
  unfold evaluate. cbv zeta. destruct (_ && _) eqn:H1; bool_inv.
  - right. cbn. rewrite H. set_solver.
  - destruct (bool_decide (a_state a = RECONNECTING) && _) eqn:H2; bool_inv; [|by left]. right. cbn. rewrite H. set_solver.
Qed.

(** an association is never lost and moves only along the edges of
    _TRANSITIONS, except that the commit of a ticket creates its association
    anew as observing. *)
Theorem association_edges (s : TicketStore) (o : op) (r : string) (a : Association) :
  _associations s !! r = Some a →
  ∃ a', _associations (step s o) !! r = Some a' ∧
    (a_state a' = a_state a ∨ a_state a' ∈ _TRANSITIONS (a_state a) ∨
     ∃ p now t, o = OpConsume p now ∧ _tickets s !! p_activation p = Some t ∧ status t = ISSUED ∧
                association_ref t = r ∧ a' = MkAssociation r OBSERVING now now).
Proof.
  intros Ha.
  assert (∀ r' f, (∀ b, f a = Some b → a_state b = a_state a ∨ a_state b ∈ _TRANSITIONS (a_state a)) →
    ∃ a', _associations (on_association r' f s).1 !! r = Some a' ∧
      (a_state a' = a_state a ∨ a_state a' ∈ _TRANSITIONS (a_state a))) as Hon.
  { intros r' f Hf. unfold on_association. destruct (_associations s !! r') as [b|] eqn:Hb; [|by eauto].
    destruct (f b) as [b'|] eqn:Hfb; cbn; [|by eauto]. destruct (decide (r' = r)) as [->|];
      [rewrite lookup_insert_eq|rewrite lookup_insert_ne by done; by eauto].
    assert (b = a) as -> by congruence. eauto. }
  destruct o; cbn [step]; unfold touch_association, evaluate_association, reassociate.
  - unfold issue_ticket. destruct (float_of_Z ttl); cbn; eauto.
  - unfold revoke_ticket. repeat case_match; cbn; eauto.
  - destruct (Hon r0 (Some ∘ touch now)) as (a' & H & Hst); [|by naive_solver].
    intros b [= <-]. left. apply touch_state.
  - destruct (Hon r0 (Some ∘ evaluate now)) as (a' & H & Hst); [|by naive_solver].
    intros b [= <-]. apply evaluate_state.
  - destruct (Hon r0 (transition PENDING_ACTIVATION)) as (a' & H & Hst); [|by naive_solver].
    unfold transition. intros b. case_bool_decide; [|done]. intros [= <-]. by right.
  - destruct (consume_cases p now s) as [H|u reason Hu _|u Hu Hi Hx|u st Hu Hb Hc Hk Hs|u Hu Hb Hi Hx]; cbn; eauto.
    destruct (decide (association_ref u = r)) as [<-|]; [rewrite lookup_insert_eq|rewrite lookup_insert_ne by done; by eauto].
    eexists. split; [done|]. right; right. eauto 10.
Qed.
Lemma association_edges_witness :
  let s := run (demo ++ [OpConsume demo_presentation (S754_zero false)]) in
  let a := MkAssociation "assoc" OBSERVING (S754_zero false) (S754_zero false) in
  _associations s !! "assoc" = Some a ∧
  ∃ a', _associations (step s (OpEvaluate "assoc" (float_of_decimal 91 0))) !! "assoc" = Some a' ∧
    (a_state a' = a_state a ∨ a_state a' ∈ _TRANSITIONS (a_state a) ∨
     ∃ p now t, OpEvaluate "assoc" (float_of_decimal 91 0) = OpConsume p now ∧ _tickets s !! p_activation p = Some t ∧ status t = ISSUED ∧
                association_ref t = "assoc" ∧ a' = MkAssociation "assoc" OBSERVING now now).
Proof.
  intros s a. split; [vm_compute; reflexivity|].
  apply (association_edges s (OpEvaluate "assoc" (float_of_decimal 91 0)) "assoc" a). vm_compute. reflexivity.
Defined.

(** The liveness states the two modules share. *)
Definition to_sub_state (s : AssociationState) : option GatewaySubscription.sub_state :=
  match s with
  | OBSERVING => Some GatewaySubscription.OBSERVING
  | RECONNECTING => Some GatewaySubscription.RECONNECTING
  | STALE => Some GatewaySubscription.STALE
  | DETACHED => Some GatewaySubscription.DETACHED
  | _ => None
  end.

(** One evaluation as a function of the two timeouts. *)
Definition live_next (idle grace : bool) (s : AssociationState) : AssociationState :=
  match s with
  | OBSERVING => if idle then RECONNECTING else OBSERVING
  | RECONNECTING => if grace then STALE else RECONNECTING
  | _ => s
  end.

Lemma evaluate_eq now a :
  evaluate now a =
  let idle := fsub now (a_heartbeat_at a) in set_a_state a (live_next (fgtZ idle 90) (fgtZ idle 150) (a_state a)).
Proof.
  destruct a as [ar st cr hb]. unfold evaluate, set_a_state, IDLE_TTL_S, GRACE_S. cbn -[fgtZ fsub].
  change (90 + 60)%Z with 150%Z.
  destruct st; cbv -[fgtZ fsub]; try reflexivity; by destruct (fgtZ _ _).
Qed.

Lemma derive_state_eq u now :
  GatewaySubscription.sub_st (GatewaySubscription._derive_state u now) =
  let idle := fsub now (GatewaySubscription.last_heartbeat_at u) in
  match GatewaySubscription.sub_st u with
  | GatewaySubscription.OBSERVING =>
      if fgtZ idle 90 then (if fgtZ idle 150 then GatewaySubscription.STALE else GatewaySubscription.RECONNECTING)
      else GatewaySubscription.OBSERVING
  | GatewaySubscription.RECONNECTING =>
      if fgtZ idle 150 then GatewaySubscription.STALE else GatewaySubscription.RECONNECTING
  | st => st
  end.
Proof.
  destruct u as [? ? ? ? ? ? ? hb ? ? st]. unfold GatewaySubscription._derive_state, GatewaySubscription.set_state,
    GatewaySubscription.IDLE_TTL_S, GatewaySubscription.GRACE_S. cbn -[fgtZ fsub].
  change (90 + 60)%Z with 150%Z.
  destruct st; cbv -[fgtZ fsub]; try reflexivity;
    [destruct (fgtZ _ 90); [|reflexivity]|]; by destruct (fgtZ _ 150).
Qed.

(** the two liveness clocks agree.  An association evaluated twice at an
    instant is in the state that a subscription with the same last heartbeat
    derives in one step at that instant, and evaluating it again changes
    nothing. *)
Theorem liveness_agrees (a : Association) (u : GatewaySubscription.Subscription) (now : spec_float) :
  a_heartbeat_at a = GatewaySubscription.last_heartbeat_at u →
  to_sub_state (a_state a) = Some (GatewaySubscription.sub_st u) →
  to_sub_state (a_state (evaluate now (evaluate now a))) =
    Some (GatewaySubscription.sub_st (GatewaySubscription._derive_state u now)) ∧
  evaluate now (evaluate now (evaluate now a)) = evaluate now (evaluate now a).
Proof.
  intros Hb Hs. rewrite derive_state_eq, <- Hb. rewrite !evaluate_eq. cbn.
  set (b1 := fgtZ _ 90). set (b2 := fgtZ _ 150).
  destruct (a_state a), b1, b2; cbn in Hs |- *; try discriminate; injection Hs as <-; by split.
Qed.
Lemma liveness_agrees_witness :
  let a := MkAssociation "assoc" OBSERVING (S754_zero false) (S754_zero false) in
  let u := GatewaySubscription.MkSub "sub" "assoc" "e1" "b" 0 0 (S754_zero false) (S754_zero false) 0 0
             GatewaySubscription.OBSERVING in
  let now := float_of_decimal 151 0 in
  GatewaySubscription.sub_st (GatewaySubscription._derive_state u now) = GatewaySubscription.STALE ∧
  to_sub_state (a_state (evaluate now (evaluate now a))) =
    Some (GatewaySubscription.sub_st (GatewaySubscription._derive_state u now)).
Proof.
  intros a u now. split; [vm_compute; reflexivity|]. apply (liveness_agrees a u now); reflexivity.
Defined.
