(* ===== verification/SafeRendering.v ===== *)
(** * Rendering of untrusted values (scripts/pd_fleet/safe_rendering.py)

    Diagnostics show exact strings only, with every character outside printable
    ASCII, newline and tab escaped, cut to a limit. *)

From S2P Require Import Prelude PyStr PyNum PyVal.

Definition UNSUPPORTED_TYPE : string := "[UNSUPPORTED TYPE]".

Definition hex_digit (d : nat) : ascii := ascii_of_nat (if (d <? 10)%nat then 48 + d else 87 + d).

(** [char if 32 <= ord(char) < 127 or char in "\n\t" else f"\\x{ord(char):02x}"] *)
Definition safe_char (c : ascii) : string :=
  let n := code c in
  if between 32 126 c || (n =? 10)%nat || (n =? 9)%nat then String c ""
  else "\x" +:+ String (hex_digit (n / 16)) (String (hex_digit (n mod 16)) "").

Fixpoint escape (s : string) : string :=
  match s with "" => "" | String c s' => safe_char c +:+ escape s' end.

(** [limit = None] keeps the whole text. *)
Definition safe_text (value : pyval) (marker : string) (limit : option nat) : string :=
  match value with
  | VStr s => match limit with Some n => str_take n (escape s) | None => escape s end
  | _ => marker
  end.

Definition safe_repr (value : pyval) (marker : string) (limit : nat) : string :=
  "'" +:+ safe_text value marker (Some limit) +:+ "'".

(** What a [for] loop over a value yields: [None] is [TypeError]. *)
Definition iterate (v : pyval) : option (list pyval) :=
  match v with
  | VList l | VTuple l => Some l
  | VDict kvs | VProxy kvs => Some (map fst kvs)
  | VStr s => Some (map (λ c, VStr (String c "")) (String.list_ascii_of_string s))
  | _ => None
  end.

Definition safe_repr_list (values : pyval) (marker : string) (limit : nat) : string :=
  match iterate values with
  | Some l => "[" +:+ join ", " (map (λ v, safe_repr v marker limit) l) +:+ "]"
  | None => marker
  end.

(** [safe_repr(s)] of a string, at its defaults. *)
Definition safe_repr_str (s : string) : string := safe_repr (VStr s) UNSUPPORTED_TYPE 128.

(** ** Lemmas *)

(** A character that a terminal cannot interpret. *)
Definition printable (c : ascii) : bool := between 32 126 c || (code c =? 10)%nat || (code c =? 9)%nat.


Lemma safe_char_printable c : str_forallb printable (safe_char c) = true.
Proof.
  destruct c as [[] [] [] [] [] [] [] []]; reflexivity.
Qed.

Lemma escape_printable s : str_forallb printable (escape s) = true.
Proof.
  induction s as [|c s IH]; [done|]. cbn [escape]. by rewrite str_forallb_app, safe_char_printable, IH.
Qed.

(** ** Properties *)

(** whatever the value, a rendered diagnostic contains only printable ASCII,
    newlines and tabs, and a value that is not an exact string contributes only
    the marker; within quotes the text is at most the limit long. *)
Theorem safe_repr_printable (v : pyval) (limit : nat) :
  let t := safe_text v UNSUPPORTED_TYPE (Some limit) in
  safe_repr v UNSUPPORTED_TYPE limit = "'" +:+ t +:+ "'" ∧
  str_forallb printable t = true ∧
  (is_str v = false → t = UNSUPPORTED_TYPE) ∧
  (is_str v = true → (String.length t ≤ limit)%nat).
Proof.
  cbv zeta. split; [done|]. destruct v; cbn; split_and!; try done.
  - intros. apply str_take_forallb, escape_printable.
  - intros. apply str_take_length.
Qed.
