(* ===== verification/GatewayRedaction.v ===== *)
(** * Validation of bridge events (scripts/pd_fleet/gateway_redaction.py)

    The closed schema for the events of the gateway bridge: depth, flattening
    with its path collisions, the envelope fields in the order they are
    checked, the size and the schema of the payload.  A verdict is [Ok ()] or
    [Err (Rejected reason)]; the exceptions that escape [validate_event] are
    the other errors.  Objects of other types are taken to be hashable. *)

From S2P Require Import Prelude PyStr PyNum PyVal Regex IsoTime.

Open Scope string_scope.

Definition WIRE_SCHEMA : string := "pd-fleet-gateway-bridge:v1".
Definition REF_MAX : nat := 128.
Definition STRING_MAX : nat := 512.
Definition PAYLOAD_MAX_BYTES : nat := 4096.
Definition DEPTH_MAX : nat := 8.
Definition CARDINALITY_MAX : nat := 32.
Definition TTL_MS_MAX : Z := 300000.

Definition RUNTIME_SURFACES : list string := ["cli"; "gateway"; "api"; "tui"].
Definition STATUSES : list string := ["active"; "idle"; "stale"; "ended"].
Definition REASON_CODES : list string := ["none"; "timeout"; "detached"; "error"; "closed"].
Definition TERMINAL_STATES : list string := ["ended"; "error"].
Definition CHANGED_FIELDS : list string := ["status"; "metadata_version"].
Definition EVENT_ORIGINS : list string := ["gateway_native"; "fleet_reconciled"].
Definition EVENT_TYPES : list string :=
  ["session.registered"; "session.status_changed"; "session.heartbeat"; "session.metadata_changed"; "session.detached"; "session.ended"].
Definition OWNERSHIP_MODE : string := "user_owned_session".
Definition SOURCE_SYSTEM : string := "hermes-gateway".
Definition TRANSPORT : string := "gateway-event-stream".

Definition ref_char (c : ascii) : bool := is_alnum c || one_of "._-" c.
Definition _REF_RE : re := rseq [RStart; rplus (RChar ref_char); REnd].

Definition ENVELOPE_FIELDS : list string :=
  ["schema_version"; "event_id"; "event_type"; "occurred_at"; "source.system"; "source.instance_ref"; "event_origin"; "session.session_ref";
   "session.association_ref"; "session.ownership_mode"; "stream_epoch"; "sequence"; "payload"; "provenance.transport"; "provenance.correlation_id"].

Inductive rule : Type := REnum (allowed : list string) | RInt (limit : option Z) | RTs | RListEnum (allowed : list string).
Definition PAYLOAD_SCHEMA : list (string * list (string * rule)) :=
  [("session.registered", [("runtime_surface", REnum RUNTIME_SURFACES); ("metadata_version", RInt None)]);
   ("session.status_changed", [("status", REnum STATUSES); ("reason_code", REnum REASON_CODES); ("metadata_version", RInt None)]);
   ("session.heartbeat", [("heartbeat_sequence", RInt None); ("observed_at", RTs); ("ttl_ms", RInt (Some TTL_MS_MAX))]);
   ("session.metadata_changed", [("metadata_version", RInt None); ("changed_fields", RListEnum CHANGED_FIELDS)]);
   ("session.detached", [("reason_code", REnum REASON_CODES); ("metadata_version", RInt None)]);
   ("session.ended", [("terminal_state", REnum TERMINAL_STATES); ("reason_code", REnum REASON_CODES); ("metadata_version", RInt None)])].

Inductive refusal : Type := Rejected (reason : string) | TypeError | KeyError.
Notation vres := (res refusal).
Definition unless (b : bool) (reason : string) : vres unit := ensure b (Rejected reason).

Notation dict := (list (pyval * pyval)).

(** [isinstance(v, int) and not isinstance(v, bool)] *)
Definition _is_int (v : pyval) : bool := is_exact_int v.

Fixpoint _depth (v : pyval) : nat :=
  match v with
  | VDict kvs | VProxy kvs => S (list_max (map (λ kv, _depth kv.2) kvs))
  | VList l => S (list_max (map _depth l))
  | _ => 0
  end.

(** [_flatten]: [None] is [_PathCollision].  The paths come in order. *)
Definition join_flat (flat : option (list (string * pyval))) (new : option (list (string * pyval))) : option (list (string * pyval)) :=
  match flat, new with
  | Some flat, Some new => if existsb (λ kv, bool_decide (kv.1 ∈ map fst flat)) new then None else Some (flat ++ new)%list
  | _, _ => None
  end.
Fixpoint flatten_entry (prefix : string) (key child : pyval) : option (list (string * pyval)) :=
  let path := prefix +:+ py_str key in
  match child with
  | VDict kvs | VProxy kvs => foldl (λ flat kv, join_flat flat (flatten_entry (path +:+ ".") kv.1 kv.2)) (Some []) kvs
  | _ => Some [(path, child)]
  end.
Definition _flatten (kvs : dict) (prefix : string) : option (list (string * pyval)) :=
  foldl (λ flat kv, join_flat flat (flatten_entry prefix kv.1 kv.2)) (Some []) kvs.

Definition _valid_ts (v : pyval) : bool :=
  match v with
  | VStr s => (String.length s <=? STRING_MAX)%nat && endswith s "Z" && match parse_z s with Some _ => true | None => false end
  | _ => false
  end.
Definition _valid_ref (v : pyval) : bool :=
  match v with VStr s => (String.length s <=? REF_MAX)%nat && match_prefix _REF_RE s | _ => false end.

(** [v in names] *)
Definition member (v : pyval) (names : list string) : vres bool :=
  if hashable v then Ok (match v with VStr s => bool_decide (s ∈ names) | _ => false end) else Err TypeError.

(** ** The size of the payload: [json.dumps(payload, default=str)] *)

Definition json_float (f : spec_float) : string :=
  match f with
  | S754_nan => "NaN"
  | S754_infinity false => "Infinity"
  | S754_infinity true => "-Infinity"
  | _ => float_repr f
  end.
Definition key_text (k : pyval) : option string :=
  match k with
  | VStr s => Some s
  | VInt z => Some (str_of_Z z)
  | VFloat f => Some (json_float f)
  | VBool b => Some (if b then "true" else "false")
  | VNone => Some "null"
  | _ => None
  end.
(** [None] is the [TypeError] of a key that is not a scalar. *)
Fixpoint dumps_default (v : pyval) : option string :=
  match v with
  | VNone => Some "null"
  | VBool b => Some (if b then "true" else "false")
  | VInt z => Some (str_of_Z z)
  | VFloat f => Some (json_float f)
  | VStr s => Some (ascii_str s)
  | VList l | VTuple l => ws ← mapM dumps_default l; Some ("[" +:+ join ", " ws +:+ "]")
  | VDict kvs =>
      ws ← mapM (λ kv, k ← key_text kv.1; w ← dumps_default kv.2; Some (ascii_str k +:+ ": " +:+ w)) kvs;
      Some ("{" +:+ join ", " ws +:+ "}")
  | VProxy _ | VOther _ => Some (ascii_str (py_str v))
  end.

(** ** [validate_event] *)

Definition check_rule (value : pyval) (r : rule) : vres unit :=
  match r with
  | REnum allowed => unless (match value with VStr s => bool_decide (s ∈ allowed) | _ => false end) "unknown_enum"
  | RInt limit =>
      match value with
      | VInt z => _ ← unless (0 <=? z)%Z "invalid_field"; unless (match limit with Some m => (z <=? m)%Z | None => true end) "invalid_field"
      | _ => Err (Rejected "invalid_field")
      end
  | RTs => unless (_valid_ts value) "invalid_field"
  | RListEnum allowed =>
      match value with
      | VList l => _ ← unless (length l <=? CARDINALITY_MAX)%nat "invalid_field";
                   unless (forallb (λ v, match v with VStr s => bool_decide (s ∈ allowed) | _ => false end) l) "unknown_enum"
      | _ => Err (Rejected "invalid_field")
      end
  end.

Definition same_keys (fields : list string) (kvs : dict) : bool :=
  negb (has_unknown fields kvs) && forallb (λ k, dhas k kvs) fields.

(** The payload against the schema of the event's type. *)
Definition validate_payload (event_type : option pyval) (payload : pyval) : vres unit :=
  match entries payload with
  | None => Err (Rejected "invalid_field")
  | Some kvs =>
      size ← match dumps_default payload with Some t => Ok (String.length t) | None => Err (Rejected "invalid_field") end;
      _ ← unless (size <=? PAYLOAD_MAX_BYTES)%nat "oversized_payload";
      match event_type with
      | Some (VStr t) =>
          match List.find (λ e, bool_decide (e.1 = t)) PAYLOAD_SCHEMA with
          | Some (_, schema) =>
              _ ← unless (same_keys (map fst schema) kvs) "unknown_field";
              foldM (λ _ fr, check_rule (dget_or VNone fr.1 kvs) fr.2) () schema
          | None => Err KeyError
          end
      | _ => Err KeyError
      end
  end.

(** The envelope, field by field. *)
Inductive field_rule : Type := FRef | FTs | FIs (text reason : string) | FOneOf (names : list string) | FSeq.
Definition FIELD_RULES : list (string * field_rule) :=
  [("event_id", FRef); ("event_type", FOneOf EVENT_TYPES); ("occurred_at", FTs); ("source.system", FIs SOURCE_SYSTEM "malformed_provenance");
   ("source.instance_ref", FRef); ("event_origin", FOneOf EVENT_ORIGINS); ("session.session_ref", FRef); ("session.association_ref", FRef);
   ("session.ownership_mode", FIs OWNERSHIP_MODE "unknown_enum"); ("stream_epoch", FRef); ("sequence", FSeq);
   ("provenance.transport", FIs TRANSPORT "malformed_provenance"); ("provenance.correlation_id", FRef)].
Definition check_field (value : pyval) (r : field_rule) : vres unit :=
  match r with
  | FRef => unless (_valid_ref value) "invalid_field"
  | FTs => unless (_valid_ts value) "invalid_field"
  | FIs text reason => unless (py_eqb value (VStr text)) reason
  | FOneOf names => b ← member value names; unless b "unknown_enum"
  | FSeq => unless (match value with VInt z => (0 <=? z)%Z | _ => false end) "invalid_field"
  end.
Definition flat_get (path : string) (flat : list (string * pyval)) : pyval := default VNone (snd <$> List.find (λ kv, bool_decide (kv.1 = path)) flat).

Definition not_payload (kv : pyval * pyval) : bool := negb (key_is "payload" kv.1).
Definition validate_event (event : pyval) : vres unit :=
  match entries event with
  | None => Err (Rejected "malformed_envelope")
  | Some d =>
      _ ← unless (py_eqb (dget_or VNone "schema_version" d) (VStr WIRE_SCHEMA)) "unsupported_schema";
      _ ← unless (_depth event <=? DEPTH_MAX)%nat "nested_beyond_depth";
      flat ← match _flatten (List.filter not_payload d) "" with Some flat => Ok flat | None => Err (Rejected "duplicate_path") end;
      _ ← unless (forallb (λ kv, bool_decide (kv.1 ∈ ENVELOPE_FIELDS)) flat) "unknown_field";
      _ ← unless (forallb (λ path, bool_decide (path = "payload" ∨ path ∈ map fst flat)) ENVELOPE_FIELDS) "malformed_envelope";
      _ ← foldM (λ _ fr, check_field (flat_get fr.1 flat) fr.2) () FIELD_RULES;
      validate_payload (dget "event_type" d) (dget_or VNone "payload" d)
  end.

Definition demo_event (extra : dict) : pyval := VDict
  ([(VStr "schema_version", VStr WIRE_SCHEMA); (VStr "event_id", VStr "e-1"); (VStr "event_type", VStr "session.heartbeat");
    (VStr "occurred_at", VStr "2026-01-01T00:00:00Z"); (VStr "source", VDict [(VStr "system", VStr "hermes-gateway"); (VStr "instance_ref", VStr "i1")]);
    (VStr "event_origin", VStr "gateway_native"); (VStr "session", VDict [(VStr "session_ref", VStr "s"); (VStr "association_ref", VStr "a")]);
    (VStr "session.ownership_mode", VStr "user_owned_session"); (VStr "stream_epoch", VStr "ep"); (VStr "sequence", VInt 0);
    (VStr "payload", VDict [(VStr "heartbeat_sequence", VInt 0); (VStr "observed_at", VStr "2026-01-01T00:00:00Z"); (VStr "ttl_ms", VInt 300000)]);
    (VStr "provenance", VDict [(VStr "transport", VStr TRANSPORT); (VStr "correlation_id", VStr "c")])] ++ extra)%list.
Example event_ex1 : validate_event (demo_event []) = Ok ().
Proof. vm_compute. reflexivity. Qed.
Example event_ex2 : map (λ e, validate_event (demo_event [e])) [(VStr "x", VInt 1); (VStr "source.system", VStr "hermes-gateway"); (VStr "token=sk-abcdefgh1", VDict [])] =
  [Err (Rejected "unknown_field"); Err (Rejected "duplicate_path"); Ok ()].
Proof. vm_compute. reflexivity. Qed.

(** ** Flattening *)

Fixpoint leaves_of (prefix : string) (key child : pyval) : list (string * pyval) :=
  match child with
  | VDict kvs | VProxy kvs => flat_map (λ kv, leaves_of ((prefix +:+ py_str key) +:+ ".") kv.1 kv.2) kvs
  | _ => [(prefix +:+ py_str key, child)]
  end.
(** The paths of an event and the values found there. *)
Definition leaves (d : dict) : list (string * pyval) := flat_map (λ kv, leaves_of "" kv.1 kv.2) (List.filter not_payload d).
Definition paths (flat : list (string * pyval)) : list string := map fst flat.

Lemma join_some acc new f : NoDup (paths acc) → NoDup (paths new) →
  join_flat (Some acc) (Some new) = Some f ↔ f = (acc ++ new)%list ∧ NoDup (paths (acc ++ new)).
Proof.
  intros Ha Hn. unfold join_flat, paths in *. rewrite map_app, NoDup_app. destruct (existsb _ new) eqn:E.
  - apply existsb_true_iff in E as (kv & Hin & H%bool_decide_eq_true). split; [done|]. intros (_ & _ & Hd & _). exfalso. apply (Hd kv.1 H). by apply list_elem_of_fmap_2.
  - rewrite existsb_false_iff in E. split; [|by intros [-> _]]. intros [= <-]. split; [done|]. split; [done|]. split; [|done].
    intros x Hx (kv & -> & Hkv)%list_elem_of_fmap. specialize (E kv Hkv). by apply bool_decide_eq_false in E.
Qed.
Lemma fold_none {A} (F : A → option (list (string * pyval))) l : foldl (λ flat x, join_flat flat (F x)) None l = None.
Proof. by induction l. Qed.
Lemma fold_flat {A} (F : A → option (list (string * pyval))) (L : A → list (string * pyval)) l acc f :
  Forall (λ x, ∀ f, F x = Some f ↔ f = L x ∧ NoDup (paths (L x))) l → NoDup (paths acc) →
  foldl (λ flat x, join_flat flat (F x)) (Some acc) l = Some f ↔ f = (acc ++ flat_map L l)%list ∧ NoDup (paths (acc ++ flat_map L l)).
Proof.
  intros HF. revert acc. induction HF as [|x l Hx HF IH]; intros acc Ha; cbn [foldl flat_map].
  - rewrite app_nil_r. naive_solver.
  - destruct (F x) as [new|] eqn:E.
    + destruct (proj1 (Hx new) eq_refl) as [-> Hn]. destruct (join_flat (Some acc) (Some (L x))) as [j|] eqn:Ej.
      * apply join_some in Ej as [-> Hj]; [|done..]. rewrite IH by done. by rewrite app_assoc.
      * rewrite fold_none. split; [done|]. intros [_ H]. rewrite app_assoc in H. unfold paths in H. rewrite map_app in H. apply NoDup_app in H as [H _].
        assert (@None (list (string * pyval)) = Some (acc ++ L x)%list); [|done]. rewrite <- Ej. by apply join_some.
    + change (join_flat (Some acc) None) with (@None (list (string * pyval))). rewrite fold_none. split; [done|]. intros [_ H]. unfold paths in H. rewrite !map_app in H.
      apply NoDup_app in H as (_ & _ & H). apply NoDup_app in H as [H _]. assert (@None (list (string * pyval)) = Some (L x)); [|done]. apply Hx. by split.
Qed.
Lemma flatten_entry_ok prefix key child f : flatten_entry prefix key child = Some f ↔ f = leaves_of prefix key child ∧ NoDup (paths (leaves_of prefix key child)).
Proof.
  revert prefix key f. assert (∀ path kvs f, Forall (λ kv : pyval * pyval, ∀ prefix key f, flatten_entry prefix key kv.2 = Some f ↔
      f = leaves_of prefix key kv.2 ∧ NoDup (paths (leaves_of prefix key kv.2))) kvs →
    foldl (λ flat kv, join_flat flat (flatten_entry path kv.1 kv.2)) (Some []) kvs = Some f ↔
    f = flat_map (λ kv, leaves_of path kv.1 kv.2) kvs ∧ NoDup (paths (flat_map (λ kv, leaves_of path kv.1 kv.2) kvs))) as Hm.
  { intros path kvs f HF. apply (fold_flat (λ kv, flatten_entry path kv.1 kv.2) (λ kv, leaves_of path kv.1 kv.2)); [|constructor].
    eapply Forall_impl; [exact HF|]. intros kv H. apply H. }
  induction child as [| | |x|s|l IH|l IH|d IH|d IH|r] using pyval_ind'; intros prefix key f;
    try (cbn [flatten_entry leaves_of]; split; [intros [= <-]; split; [done|apply NoDup_singleton]|by intros [-> _]]).
  - apply Hm. eapply Forall_impl; [exact IH|]. by intros kv [_ ?].
  - apply Hm. eapply Forall_impl; [exact IH|]. by intros kv [_ ?].
Qed.
Lemma flatten_ok d f : _flatten (List.filter not_payload d) "" = Some f ↔ f = leaves d ∧ NoDup (paths (leaves d)).
Proof.
  apply (fold_flat (λ kv, flatten_entry "" kv.1 kv.2) (λ kv, leaves_of "" kv.1 kv.2)); [|constructor].
  apply Forall_forall. intros kv _ g. apply flatten_entry_ok.
Qed.

Lemma flat_get_leaf path v flat : NoDup (paths flat) → (path, v) ∈ flat → flat_get path flat = v.
Proof.
  unfold flat_get, paths. induction flat as [|[p w] flat IH]; [by intros _ ?%elem_of_nil|]. cbn [map fst List.find]. rewrite NoDup_cons, elem_of_cons. intros [Hp Hn] [[= -> ->] | Hin].
  - by rewrite bool_decide_true.
  - rewrite bool_decide_false; [by apply IH|]. intros ->. apply Hp. by apply (list_elem_of_fmap_2' fst _ (path, v)).
Qed.

(** ** What is accepted *)

Definition ref_text (s : string) : Prop :=
  (String.length s <= REF_MAX)%nat ∧ ∃ w e, s = w +:+ e ∧ nonempty w = true ∧ str_forallb ref_char w = true ∧ at_end e.
Definition time_text (s : string) : Prop := (String.length s <= STRING_MAX)%nat ∧ endswith s "Z" = true ∧ ∃ t, parse_z s = Some t.
Definition field_ok (v : pyval) (r : field_rule) : Prop :=
  match r with
  | FRef => ∃ s, v = VStr s ∧ ref_text s
  | FTs => ∃ s, v = VStr s ∧ time_text s
  | FIs text _ => v = VStr text
  | FOneOf names => ∃ s, v = VStr s ∧ s ∈ names
  | FSeq => ∃ z, v = VInt z ∧ (0 <= z)%Z
  end.
Definition rule_ok (v : pyval) (r : rule) : Prop :=
  match r with
  | REnum allowed => ∃ s, v = VStr s ∧ s ∈ allowed
  | RInt limit => ∃ z, v = VInt z ∧ (0 <= z)%Z ∧ (∀ m, limit = Some m → (z <= m)%Z)
  | RTs => ∃ s, v = VStr s ∧ time_text s
  | RListEnum allowed => ∃ l, v = VList l ∧ (length l <= CARDINALITY_MAX)%nat ∧ Forall (λ x, ∃ s, x = VStr s ∧ s ∈ allowed) l
  end.
Record payload_ok (event_type payload : option pyval) : Prop := {
  po_fits : ∃ t schema p kvs text, event_type = Some (VStr t) ∧ (t, schema) ∈ PAYLOAD_SCHEMA ∧ payload = Some p ∧ entries p = Some kvs ∧
    dumps_default p = Some text ∧ (String.length text <= PAYLOAD_MAX_BYTES)%nat ∧
    (∀ kv, kv ∈ kvs → ∃ k, kv.1 = VStr k ∧ k ∈ map fst schema) ∧ (∀ k r, (k, r) ∈ schema → ∃ v, dget k kvs = Some v ∧ rule_ok v r) }.
Record event_ok (event : pyval) (d : dict) : Prop := {
  eo_entries : entries event = Some d;
  eo_schema : dget "schema_version" d = Some (VStr WIRE_SCHEMA);
  eo_depth : (_depth event <= DEPTH_MAX)%nat;
  eo_distinct : NoDup (paths (leaves d));
  eo_closed : ∀ path v, (path, v) ∈ leaves d → path ∈ ENVELOPE_FIELDS;
  eo_fields : ∀ path r, (path, r) ∈ FIELD_RULES → ∃ v, (path, v) ∈ leaves d ∧ field_ok v r;
  eo_payload : payload_ok (dget "event_type" d) (dget "payload" d) }.

Lemma unless_ok b reason (u : unit) : unless b reason = Ok u ↔ b = true.
Proof. apply ensure_ok. Qed.
Lemma valid_ref_ok v : _valid_ref v = true ↔ ∃ s, v = VStr s ∧ ref_text s.
Proof.
  unfold ref_text. split.
  - destruct v as [| | | |s| | | | |]; try discriminate. cbn [_valid_ref]. rewrite andb_true_iff. intros [Hl%Nat.leb_le Hm]. exists s. split; [done|]. split; [done|].
    by apply match_class_end.
  - intros (s & -> & Hl & Hm). cbn [_valid_ref]. rewrite (proj2 (Nat.leb_le _ _) Hl). by apply match_class_end.
Qed.
Lemma valid_ts_ok v : _valid_ts v = true ↔ ∃ s, v = VStr s ∧ time_text s.
Proof.
  unfold time_text. split.
  - destruct v as [| | | |s| | | | |]; try discriminate. cbn [_valid_ts]. rewrite !andb_true_iff. intros [[Hl%Nat.leb_le He] Hp]. exists s. split; [done|].
    split; [done|]. split; [done|]. destruct (parse_z s) as [t|]; [by exists t|discriminate].
  - intros (s & -> & Hl & He & t & Ht). cbn [_valid_ts]. by rewrite (proj2 (Nat.leb_le _ _) Hl), He, Ht.
Qed.
Lemma str_eqb_val v text : py_eqb v (VStr text) = true ↔ v = VStr text.
Proof. split; [|intros ->; cbn; by apply bool_decide_eq_true]. destruct v; try discriminate. cbn. intros H%bool_decide_eq_true. by subst. Qed.
Lemma seq_ok v : (match v with VInt z => (0 <=? z)%Z | _ => false end) = true ↔ ∃ z, v = VInt z ∧ (0 <= z)%Z.
Proof. split; [|by intros (z & -> & H); apply Z.leb_le]. destruct v; try discriminate. intros H%Z.leb_le. by eexists. Qed.
Definition in_names (names : list string) (v : pyval) : bool := match v with VStr s => bool_decide (s ∈ names) | _ => false end.
Lemma in_names_ok names v : in_names names v = true ↔ ∃ s, v = VStr s ∧ s ∈ names.
Proof. split; [|by intros (s & -> & H); apply bool_decide_eq_true]. destruct v; try discriminate. intros H%bool_decide_eq_true. by eexists. Qed.
Lemma check_field_ok v r : check_field v r = Ok () ↔ field_ok v r.
Proof.
  destruct r as [| |text reason|names|]; cbn [check_field field_ok].
  - rewrite unless_ok. apply valid_ref_ok.
  - rewrite unless_ok. apply valid_ts_ok.
  - rewrite unless_ok. apply str_eqb_val.
  - rewrite <- in_names_ok. unfold member. fold (in_names names v). destruct (hashable v) eqn:E.
    + cbn [mbind res_bind]. apply unless_ok.
    + split; [done|]. rewrite in_names_ok. intros (s & -> & _). done.
  - rewrite unless_ok. apply seq_ok.
Qed.
Lemma check_rule_ok v r : check_rule v r = Ok () ↔ rule_ok v r.
Proof.
  destruct r as [allowed|limit| |allowed]; cbn [check_rule rule_ok].
  - rewrite unless_ok. fold (in_names allowed v). apply in_names_ok.
  - split.
    + destruct v as [| |z| | | | | | |]; try discriminate. rewrite bind_ok. intros (u & H1%unless_ok%Z.leb_le & H2%unless_ok). exists z. split; [done|]. split; [done|].
      intros m ->. by apply Z.leb_le.
    + intros (z & -> & H1 & H2). rewrite (proj2 (Z.leb_le _ _) H1). cbn [unless ensure mbind res_bind]. apply unless_ok. destruct limit as [m|]; [|done]. apply Z.leb_le, (H2 m eq_refl).
  - rewrite unless_ok. apply valid_ts_ok.
  - split.
    + destruct v as [| | | | |l| | | |]; try discriminate. rewrite bind_ok. intros (u & H1%unless_ok%Nat.leb_le & H2%unless_ok). exists l. split; [done|]. split; [done|].
      rewrite Forall_forall. intros x Hx. apply in_names_ok. rewrite forallb_true_iff in H2. by apply (H2 x).
    + intros (l & -> & H1 & H2). rewrite (proj2 (Nat.leb_le _ _) H1). cbn [unless ensure mbind res_bind]. apply unless_ok. apply forallb_true_iff. intros x Hx.
      rewrite Forall_forall in H2. apply in_names_ok. by apply H2.
Qed.

Lemma foldM_checks {A} (f : A → vres unit) l : foldM (λ _ x, f x) () l = Ok () ↔ ∀ x, x ∈ l → f x = Ok ().
Proof.
  induction l as [|x l IH]; cbn [foldM]; [split; [intros _ x []%elem_of_nil|done]|]. rewrite bind_ok. setoid_rewrite elem_of_cons. split.
  - intros ([] & Hx & Hl) y [-> | Hy]; [done|by apply IH].
  - intros H. exists (). split; [apply H; by left|]. apply IH. intros y Hy. apply H. by right.
Qed.
Lemma same_keys_ok fields kvs : same_keys fields kvs = true ↔
  (∀ kv, kv ∈ kvs → ∃ k, kv.1 = VStr k ∧ k ∈ fields) ∧ (∀ k, k ∈ fields → is_Some (dget k kvs)).
Proof.
  unfold same_keys. rewrite andb_true_iff, negb_true_iff, has_unknown_false, forallb_true_iff. by setoid_rewrite dhas_true.
Qed.

Lemma schema_found t schema : List.find (λ e, bool_decide (e.1 = t)) PAYLOAD_SCHEMA = Some (t, schema) ↔ (t, schema) ∈ PAYLOAD_SCHEMA.
Proof.
  split; [intros [H _]%find_some; by apply list_elem_of_In|].
  assert (NoDup (map fst PAYLOAD_SCHEMA)) as Hn by (apply (bool_decide_unpack _); vm_compute; exact I).
  revert Hn. generalize PAYLOAD_SCHEMA. intros l. induction l as [|[t' x] l IH]; [by intros _ ?%elem_of_nil|]. cbn [map fst List.find].
  rewrite NoDup_cons, elem_of_cons. intros [Ht Hn] [[= -> ->] | Hin]; [by rewrite bool_decide_true|]. rewrite bool_decide_false; [by apply IH|].
  intros ->. apply Ht. by apply (list_elem_of_fmap_2' fst _ (t, schema)).
Qed.
Lemma find_schema t e : List.find (λ e, bool_decide (e.1 = t)) PAYLOAD_SCHEMA = Some e → e.1 = t.
Proof. intros [_ H]%find_some. by apply bool_decide_eq_true in H. Qed.

Lemma payload_accepted event_type payload : validate_payload event_type (default VNone payload) = Ok () ↔ payload_ok event_type payload.
Proof.
  split.
  - intros H. constructor. unfold validate_payload in H. destruct payload as [p|]; [|discriminate H]. change (default VNone (Some p)) with p in H. destruct (entries p) as [kvs|] eqn:Ep; [|discriminate H].
    destruct (dumps_default p) as [text|] eqn:Et; [|discriminate H]. cbn [mbind res_bind] in H. apply bind_ok in H as (u & Hs%unless_ok%Nat.leb_le & H).
    destruct event_type as [[| | | |t| | | | |]|]; try discriminate. destruct (List.find _ _) as [[t' schema]|] eqn:Ef; [|discriminate].
    pose proof (find_schema _ _ Ef) as E. cbn [fst] in E. subst t'. apply schema_found in Ef. apply bind_ok in H as (u' & Hk%unless_ok%same_keys_ok & H). destruct Hk as [Hk1 Hk2].
    rewrite foldM_checks in H. exists t, schema, p, kvs, text. repeat (split; [done|]). intros k r Hin. pose proof (H _ Hin) as Hr. cbn [fst snd] in Hr.
    destruct (Hk2 k) as [v Hv]; [by apply (list_elem_of_fmap_2' fst _ (k, r))|]. exists v. split; [done|]. unfold dget_or in Hr. rewrite Hv in Hr. by apply check_rule_ok.
  - intros [(t & schema & p & kvs & text & -> & Hs & -> & Hp & Ht & Hl & Hk & Hr)]. unfold validate_payload. change (default VNone (Some p)) with p. rewrite Hp, Ht. cbn [mbind res_bind].
    rewrite (proj2 (Nat.leb_le _ _) Hl). cbn [unless ensure mbind res_bind]. rewrite (proj2 (schema_found _ _) Hs).
    assert (same_keys (map fst schema) kvs = true) as ->.
    { apply same_keys_ok. split; [done|]. intros k ([k' r] & -> & Hin)%list_elem_of_fmap. destruct (Hr _ _ Hin) as (v & Hv & _). by exists v. }
    cbn [unless ensure mbind res_bind]. apply foldM_checks. intros [k r] Hin. destruct (Hr _ _ Hin) as (v & Hv & Hok). cbn [fst snd]. unfold dget_or. rewrite Hv. by apply check_rule_ok.
Qed.

Lemma envelope_covered : Forall (λ path, path = "payload" ∨ path = "schema_version" ∨ path ∈ map fst FIELD_RULES) ENVELOPE_FIELDS.
Proof. apply (bool_decide_unpack _). vm_compute. exact I. Qed.
Lemma rules_in_envelope : Forall (λ path, path ∈ ENVELOPE_FIELDS ∧ path ≠ "payload") (map fst FIELD_RULES).
Proof. apply (bool_decide_unpack _). vm_compute. exact I. Qed.
Lemma top_leaf key s d : key ≠ "payload" → dget key d = Some (VStr s) → (key, VStr s) ∈ leaves d.
Proof.
  intros Hk Hd%dget_elem_of. unfold leaves. apply list_elem_of_In, in_flat_map. exists (VStr key, VStr s). split; [|by left].
  apply filter_In. split; [by apply list_elem_of_In|]. unfold not_payload. cbn [fst key_is]. by rewrite bool_decide_false.
Qed.

Lemma validate_event_exact event : validate_event event = Ok () ↔ ∃ d, event_ok event d.
Proof.
  unfold validate_event. split.
  - destruct (entries event) as [d|] eqn:Ed; [|done]. intros (u1 & Hs%unless_ok%str_eqb_val & H)%bind_ok. apply bind_ok in H as (u2 & Hd%unless_ok%Nat.leb_le & H).
    apply bind_ok in H as (flat & Hf & H). destruct (_flatten _ _) as [flat'|] eqn:Ef; [|discriminate]. injection Hf as ->. apply flatten_ok in Ef as [-> Hn].
    apply bind_ok in H as (u3 & Hc%unless_ok & H). rewrite forallb_true_iff in Hc. apply bind_ok in H as (u4 & Ha%unless_ok & H). rewrite forallb_true_iff in Ha.
    apply bind_ok in H as ([] & Hr & H). rewrite foldM_checks in Hr. apply payload_accepted in H. exists d. constructor; try done.
    + unfold dget_or in Hs. by destruct (dget "schema_version" d) as [v|]; [cbn in Hs; subst v|discriminate].
    + intros path v Hin. specialize (Hc _ Hin). by apply bool_decide_eq_true in Hc.
    + intros path r Hin. assert (path ∈ map fst FIELD_RULES) as Hp by (by apply (list_elem_of_fmap_2' fst _ (path, r))).
      pose proof rules_in_envelope as He. rewrite Forall_forall in He. destruct (He _ Hp) as [He1 He2]. specialize (Ha _ He1). apply bool_decide_eq_true in Ha as [? | Ha]; [done|].
      apply list_elem_of_fmap in Ha as ([path' v] & -> & Hv). exists v. split; [done|]. specialize (Hr _ Hin). cbn [fst snd] in Hr. rewrite (flat_get_leaf path' v) in Hr by done.
      by apply check_field_ok.
  - intros (d & [Hd Hs Hdep Hn Hc Hf Hp]). rewrite Hd. assert (dget_or VNone "schema_version" d = VStr WIRE_SCHEMA) as -> by (unfold dget_or; by rewrite Hs). rewrite (proj2 (str_eqb_val _ _) eq_refl). cbn [unless ensure mbind res_bind].
    rewrite (proj2 (Nat.leb_le _ _) Hdep). cbn [unless ensure mbind res_bind]. rewrite (proj2 (flatten_ok _ _) (conj eq_refl Hn)). cbn [mbind res_bind].
    assert (forallb (λ kv, bool_decide (kv.1 ∈ ENVELOPE_FIELDS)) (leaves d) = true) as ->.
    { apply forallb_true_iff. intros [path v] Hin. apply bool_decide_eq_true. by apply (Hc path v). }
    assert (forallb (λ path, bool_decide (path = "payload" ∨ path ∈ map fst (leaves d))) ENVELOPE_FIELDS = true) as ->.
    { apply forallb_true_iff. intros path Hin. apply bool_decide_eq_true. pose proof envelope_covered as He. rewrite Forall_forall in He.
      destruct (He _ Hin) as [-> | [-> | ([path' r] & -> & Hr)%list_elem_of_fmap]]; [by left| |]; right.
      - by apply (list_elem_of_fmap_2' fst _ ("schema_version", VStr WIRE_SCHEMA)); [apply top_leaf|].
      - destruct (Hf _ _ Hr) as (v & Hv & _). by apply (list_elem_of_fmap_2' fst _ (path', v)). }
    cbn [unless ensure mbind res_bind]. rewrite (proj2 (foldM_checks (λ fr, check_field (flat_get fr.1 (leaves d)) fr.2) FIELD_RULES)).
    + cbn [mbind res_bind]. by apply payload_accepted.
    + intros [path r] Hin. destruct (Hf _ _ Hin) as (v & Hv & Hok). cbn [fst snd]. rewrite (flat_get_leaf path v) by done. by apply check_field_ok.
Qed.

(** *** Fields without a leaf *)

Lemma app_paths d name : name ≠ "payload" → leaves (d ++ [(VStr name, VDict [])]) = leaves d.
Proof.
  intros Hn. unfold leaves. rewrite List.filter_app, flat_map_app. unfold not_payload at 2. cbn [List.filter fst key_is]. rewrite (bool_decide_false (name = "payload")) by done.
  cbn. by rewrite app_nil_r.
Qed.
Lemma dget_app_other k d name v : k ≠ name → dget k (d ++ [(VStr name, v)]) = dget k d.
Proof.
  intros Hn. induction d as [|[j w] d IH]; cbn [app dget]; [|by rewrite IH]. cbn [key_is]. by rewrite bool_decide_false.
Qed.
(** A field of any new name passes, when its value is an empty mapping. *)
Lemma empty_field_passes d name : event_ok (VDict d) d → name ∉ ["schema_version"; "event_type"; "payload"] →
  event_ok (VDict (d ++ [(VStr name, VDict [])])) (d ++ [(VStr name, VDict [])])%list.
Proof.
  rewrite !not_elem_of_cons. intros [_ Hs Hdep Hn Hc Hf Hp] (N1 & N2 & N3 & _). assert (leaves (d ++ [(VStr name, VDict [])]) = leaves d) as El by (by apply app_paths).
  constructor; rewrite ?El, ?dget_app_other by done; try done.
  cbn [_depth] in *. rewrite map_app, list_max_app. cbn [map list_max _depth]. assert (3 <= DEPTH_MAX)%nat by (vm_compute; lia). cbn. lia.
Qed.

Lemma leaf_path prefix key child path v : (path, v) ∈ leaves_of prefix key child → path = prefix +:+ py_str key ∨ startswith path ((prefix +:+ py_str key) +:+ ".") = true.
Proof.
  revert prefix key. assert (∀ prefix key kvs, Forall (λ kv : pyval * pyval, ∀ prefix key, (path, v) ∈ leaves_of prefix key kv.2 →
      path = prefix +:+ py_str key ∨ startswith path ((prefix +:+ py_str key) +:+ ".") = true) kvs →
    (path, v) ∈ flat_map (λ kv, leaves_of ((prefix +:+ py_str key) +:+ ".") kv.1 kv.2) kvs → startswith path ((prefix +:+ py_str key) +:+ ".") = true) as Hm.
  { intros prefix key kvs HF (kv & Hkv & Hin)%list_elem_of_In%in_flat_map. rewrite Forall_forall in HF. apply list_elem_of_In in Hin, Hkv.
    destruct (HF kv Hkv _ _ Hin) as [-> | (t & ->)%startswith_spec]; [apply startswith_app|]. rewrite !app_assoc_str. rewrite <- !app_assoc_str. rewrite (app_assoc_str _ (py_str kv.1)), app_assoc_str.
    apply startswith_app. }
  induction child as [| | |x|s|l IH|l IH|d IH|d IH|r] using pyval_ind'; intros prefix key; cbn [leaves_of];
    try (intros [= E _]%list_elem_of_singleton; by left).
  - intros H. right. eapply Hm; [|exact H]. eapply Forall_impl; [exact IH|]. by intros kv [_ ?].
  - intros H. right. eapply Hm; [|exact H]. eapply Forall_impl; [exact IH|]. by intros kv [_ ?].
Qed.
(** A field that has a leaf is known. *)
Lemma leafy_field_known event d name v : event_ok event d → (VStr name, v) ∈ d → leaves_of "" (VStr name) v ≠ [] →
  ∃ path, path ∈ ENVELOPE_FIELDS ∧ (path = name ∨ startswith path (name +:+ ".") = true).
Proof.
  intros [_ _ _ _ Hc _ _] Hin Hl. destruct (decide (name = "payload")) as [-> | Hn].
  { exists "payload". split; [apply (bool_decide_unpack _); vm_compute; exact I|by left]. }
  destruct (leaves_of "" (VStr name) v) as [|[path x] l] eqn:E; [done|]. exists path.
  assert ((path, x) ∈ leaves_of "" (VStr name) v) as Hp by (rewrite E; by left). split; [|by apply leaf_path in Hp]. apply (Hc path x).
  apply list_elem_of_In, in_flat_map. exists (VStr name, v). split; [|by apply list_elem_of_In]. apply filter_In. split; [by apply list_elem_of_In|].
  unfold not_payload. cbn [fst key_is]. by rewrite bool_decide_false.
Qed.

(** C24: [validate_event] accepts exactly the events whose leaves fit the closed
    schema: no two values share a path and every value sits at an envelope path;
    the depth is bounded; every envelope field is there and is a reference, a
    time, a constant, a name of its enumeration or a non-negative integer; and
    the payload has the fields of its event type and no others, each within its
    enumeration or bound, in at most 4096 bytes.  A field of an accepted event
    that holds anything but empty mappings is a known one.  The module's doc says
    that unknown fields are never passed through; that holds of those fields
    only: an accepted event stays accepted with a field of any other name that
    holds an empty mapping. *)
Theorem event_accepted event :
  (validate_event event = Ok () ↔ ∃ d, event_ok event d) ∧
  (∀ d name v, validate_event event = Ok () → entries event = Some d → (VStr name, v) ∈ d → leaves_of "" (VStr name) v ≠ [] →
    ∃ path, path ∈ ENVELOPE_FIELDS ∧ (path = name ∨ startswith path (name +:+ ".") = true)) ∧
  (∀ d name, event = VDict d → validate_event event = Ok () → name ∉ ["schema_version"; "event_type"; "payload"] →
    validate_event (VDict (d ++ [(VStr name, VDict [])])) = Ok ()).
Proof.
  split; [apply validate_event_exact|]. split.
  - intros d name v (d' & Hok)%validate_event_exact Hd. assert (d' = d) as -> by (pose proof (eo_entries _ _ Hok); congruence). by eapply leafy_field_known.
  - intros d name -> (d' & Hok)%validate_event_exact Hn. assert (d' = d) as -> by (pose proof (eo_entries _ _ Hok); cbn in *; congruence).
    apply validate_event_exact. eexists. by apply empty_field_passes.
Qed.

(** What the schema does not close: a field whose value is an empty mapping has
    no leaf, so its name can be anything; a reference may end in a newline; and
    an event type that cannot be hashed raises instead of being refused. *)
Lemma empty_field_unseen name : name ≠ "payload" → leaves [(VStr name, VDict [])] = [].
Proof. intros Hn. unfold leaves, not_payload. cbn. by rewrite bool_decide_false. Qed.
Lemma newline_reference : _valid_ref (VStr ("e1" +:+ String (ascii_of_nat 10) "")) = true.
Proof. vm_compute. reflexivity. Qed.
Lemma unhashable_type : check_field (VList []) (FOneOf EVENT_TYPES) = Err TypeError.
Proof. reflexivity. Qed.
