(* ===== verification/Models.v ===== *)
(** * Fleet plans (scripts/pd_fleet/models.py)

    The V1 plan: its records, the [from_dict] constructors that normalise and
    check a JSON-shaped value, and [to_dict].  An argument that may already be
    an instance of the class is a sum: [inl] the instance, [inr] any other
    value.  Lists inside a mapping hold plain values. *)

From S2P Require Import Prelude PyStr PyNum PyVal.

Definition SCHEMA_VERSION : string := "1".

(** [FleetPlanError(message, code)]; [Overflow] is the [OverflowError] of
    [float(backoff)]. *)
Inductive plan_error : Type :=
| FleetPlanError (message : string) (code : option string)
| Overflow.
#[export] Instance plan_error_eq_dec : EqDecision plan_error.
Proof. solve_decision. Defined.

Notation pres := (res plan_error).
Definition reject {A} (message : string) : pres A := Err (FleetPlanError message None).

Definition _reject_unknown (value : list (pyval * pyval)) (allowed : list string) : pres unit :=
  ensure (negb (has_unknown allowed value))
    (FleetPlanError "fleet plan rejected: unknown field" (Some "unknown_field")).

Definition _required (data : list (pyval * pyval)) (name : string) : pres pyval :=
  match dget_or VNone name data with
  | VNone => reject (u8 "campo obrigatório ausente ou vazio: " +:+ name)
  | VStr s => if blank s then reject (u8 "campo obrigatório ausente ou vazio: " +:+ name) else Ok (VStr s)
  | v => Ok v
  end.

Definition _string (value : pyval) (name : string) (required : bool) : pres string :=
  match value with
  | VStr s =>
      if required && blank s then reject (name +:+ u8 " deve ser uma string não vazio")
      else Ok (if required then strip s else s)
  | _ => reject (name +:+ " deve ser uma string" +:+ (if required then u8 " não vazio" else ""))
  end.

Definition _list (value : pyval) (name : string) : pres (list pyval) :=
  match value with
  | VNone => Ok []
  | VList l | VTuple l => Ok l
  | _ => reject (name +:+ " deve ser uma lista")
  end.

Definition _string_list (value : pyval) (name : string) : pres (list string) :=
  items ← _list value name;
  match mapM as_str items with
  | None => reject (name +:+ " deve conter apenas strings")
  | Some ss =>
      let normalized := map strip ss in
      if existsb (λ s, negb (nonempty s)) normalized
      then reject (name +:+ u8 " deve conter strings não vazias") else Ok normalized
  end.

Definition _id (value : pyval) (name : string) : pres string :=
  match value with
  | VStr s => if blank s then reject (name +:+ u8 " deve ser um identificador string não vazio") else Ok (strip s)
  | _ => reject (name +:+ u8 " deve ser um identificador string não vazio")
  end.

Definition _conflicting_alias {A} : pres A :=
  Err (FleetPlanError "fleet plan rejected: conflicting alias" (Some "conflicting_alias")).

(** ** Records *)

Record AgentSpec : Type := MkAgent {
  ag_id : string;
  ag_role : string;
  ag_capabilities : list string;
  ag_status : string }.

Record OutputSpec : Type := MkOutput {
  o_name : string;
  o_description : option string;
  o_required : bool }.

Record RetryPolicy : Type := MkRetry {
  max_attempts : Z;
  backoff_seconds : pynum;
  retryable_errors : list string }.

Record TaskSpec : Type := MkTask {
  t_id : string;
  t_wave : pyval;
  t_role : string;
  t_objective : string;
  t_title : option string;
  t_capabilities : list string;
  t_depends_on : list string;
  t_parallel_group : option string;
  t_allowed_paths : list string;
  t_forbidden_paths : list string;
  t_inputs : pyval;
  t_outputs : list OutputSpec;
  t_acceptance_criteria : list string;
  t_validation_commands : list string;
  t_blocked_when : list string;
  t_retry_policy : RetryPolicy;
  t_owner : option string;
  t_status : string }.

Record WaveSpec : Type := MkWave {
  w_id : string;
  w_tasks : list string;
  w_status : string;
  w_gates : list string }.

Record GateSpec : Type := MkGate {
  g_id : string;
  g_kind : string;
  g_scope : string;
  g_owner : option string;
  g_status : string;
  g_required_evidence : list string }.

Record FleetPlan : Type := MkPlan {
  schema_version : string;
  agents : list AgentSpec;
  waves : list WaveSpec;
  tasks : list TaskSpec;
  gates : list GateSpec }.

(** ** Constructors *)

(** [f(value[k]) if value.get(k) is not None else None] *)
Definition optional {A} (f : pyval → pres A) (k : string) (value : list (pyval * pyval)) : pres (option A) :=
  match dget_or VNone k value with VNone => Ok None | v => Some <$> f v end.

Module Agent.
Definition from_dict (value : AgentSpec + pyval) : pres AgentSpec :=
    match value with
    | inl a => Ok a
    | inr v =>
        match entries v with
        | None => reject "agent deve ser um objeto"
        | Some d =>
            _ ← _reject_unknown d ["id"; "role"; "capabilities"; "status"];
            i ← (v ← _required d "id"; _id v "id");
            r ← (v ← _required d "role"; _string v "role" true);
            c ← _string_list (dget_or VNone "capabilities" d) "capabilities";
            s ← _string (dget_or (VStr "available") "status" d) "status" true;
            Ok (MkAgent i r c s)
        end
    end.
End Agent.

Module Output.
Definition name_of (d : list (pyval * pyval)) : pres string :=
    match dget "name" d, dget "id" d with
    | Some n, Some i =>
        name ← _id n "output name";
        legacy ← _id i "output name";
        if bool_decide (name = legacy) then Ok name else _conflicting_alias
    | Some n, None => _id n "output name"
    | None, Some i => _id i "output name"
    | None, None => _ ← _required [(VStr "name", VNone)] "name"; Ok ""
    end.

Definition from_dict (value : OutputSpec + pyval) : pres OutputSpec :=
    match value with
    | inl o => Ok o
    | inr (VStr s) => n ← _id (VStr s) "output name"; Ok (MkOutput n None true)
    | inr v =>
        match entries v with
        | None => reject "output deve ser string ou objeto"
        | Some d =>
            _ ← _reject_unknown d ["name"; "id"; "description"; "required"];
            n ← name_of d;
            desc ← optional (λ v, _string v "description" false) "description" d;
            match dget_or (VBool true) "required" d with
            | VBool b => Ok (MkOutput n desc b)
            | _ => reject "required deve ser booleano"
            end
        end
    end.
End Output.

Module Retry.
Definition default : RetryPolicy := MkRetry 1 (NInt 0) [].

(** [float(backoff)] *)
Definition to_float (n : pynum) : pres spec_float :=
    match n with
    | NFloat f => Ok f
    | NInt z => match float_of_Z z with Some f => Ok f | None => Err Overflow end
    end.

Definition errors_of (d : list (pyval * pyval)) : pres (list string) :=
    match dget "retryable_errors" d, dget "retry_on" d with
    | Some e, Some l =>
        errors ← _string_list e "retryable_errors";
        legacy ← _string_list l "retryable_errors";
        if bool_decide (errors = legacy) then Ok errors else _conflicting_alias
    | Some e, None => _string_list e "retryable_errors"
    | None, _ => _string_list (dget_or VNone "retry_on" d) "retryable_errors"
    end.

Definition from_mapping (d : list (pyval * pyval)) : pres RetryPolicy :=
    _ ← _reject_unknown d ["max_attempts"; "backoff_seconds"; "retryable_errors"; "retry_on"];
    attempts ← match dget_or (VInt 1) "max_attempts" d with
               | VInt z => Ok z
               | _ => reject "max_attempts deve ser inteiro"
               end;
    _ ← ensure (1 <=? attempts)%Z (FleetPlanError "max_attempts deve ser >= 1" None);
    backoff ← match dget_or (VInt 0) "backoff_seconds" d with
              | VInt z => to_float (NInt z)
              | VFloat f => Ok f
              | _ => reject (u8 "backoff_seconds deve ser numérico")
              end;
    _ ← ensure (is_finite backoff) (FleetPlanError "backoff_seconds deve ser finito" None);
    _ ← ensure (negb (num_ltb (NFloat backoff) (NInt 0))) (FleetPlanError "backoff_seconds deve ser >= 0" None);
    errors ← errors_of d;
    errors' ← _string_list (VList (map VStr errors)) "retryable_errors";
    Ok (MkRetry attempts (NFloat backoff) errors').

Definition from_dict (value : RetryPolicy + pyval) : pres RetryPolicy :=
    match value with
    | inr VNone => Ok default
    | inl r => Ok r
    | inr v => match entries v with
               | None => reject "retry_policy deve ser um objeto"
               | Some d => from_mapping d
               end
    end.
End Retry.

Module Task.
Definition keys : list string :=
    ["id"; "wave"; "role"; "objective"; "title"; "capabilities"; "depends_on";
     "parallel_group"; "allowed_paths"; "forbidden_paths"; "inputs"; "outputs";
     "acceptance_criteria"; "validation_commands"; "blocked_when"; "retry_policy";
     "owner"; "status"].
Definition REQUIRED : list string := ["id"; "wave"; "role"; "objective"].

(** [_string_list(value.get(k), k)] *)
Definition strings (k : string) (d : list (pyval * pyval)) : pres (list string) := _string_list (dget_or VNone k d) k.

Definition from_mapping (d : list (pyval * pyval)) : pres TaskSpec :=
    _ ← _reject_unknown d keys;
    _ ← mapM (_required d) REQUIRED;
    i ← _id (dget_or VNone "id" d) "id";
    let wave := dget_or VNone "wave" d in
    role ← _string (dget_or VNone "role" d) "role" true;
    objective ← _string (dget_or VNone "objective" d) "objective" true;
    title ← optional (λ v, _string v "title" false) "title" d;
    capabilities ← strings "capabilities" d;
    depends_on ← strings "depends_on" d;
    group ← optional (λ v, _string v "parallel_group" false) "parallel_group" d;
    allowed ← strings "allowed_paths" d;
    forbidden ← strings "forbidden_paths" d;
    let inputs := dget_or (VDict []) "inputs" d in
    outs ← _list (dget_or VNone "outputs" d) "outputs";
    outputs ← mapM (λ v, Output.from_dict (inr v)) outs;
    criteria ← strings "acceptance_criteria" d;
    commands ← strings "validation_commands" d;
    blocked ← strings "blocked_when" d;
    retry ← Retry.from_dict (inr (dget_or VNone "retry_policy" d));
    owner ← optional (λ v, _string v "owner" true) "owner" d;
    status ← _string (dget_or (VStr "pending") "status" d) "status" true;
    Ok (MkTask i wave role objective title capabilities depends_on group allowed forbidden inputs outputs
          criteria commands blocked retry owner status).

Definition from_dict (value : TaskSpec + pyval) : pres TaskSpec :=
    match value with
    | inl t => Ok t
    | inr v => match entries v with
               | None => reject "task deve ser um objeto"
               | Some d => from_mapping d
               end
    end.
End Task.

Module Wave.
Definition from_dict (value : WaveSpec + pyval) : pres WaveSpec :=
    match value with
    | inl w => Ok w
    | inr v =>
        match entries v with
        | None => reject "wave deve ser um objeto"
        | Some d =>
            _ ← _reject_unknown d ["id"; "tasks"; "status"; "gates"];
            i ← (v ← _required d "id"; _id v "id");
            ts ← _string_list (dget_or VNone "tasks" d) "wave.tasks";
            s ← _string (dget_or (VStr "pending") "status" d) "status" true;
            gs ← _string_list (dget_or VNone "gates" d) "wave.gates";
            Ok (MkWave i ts s gs)
        end
    end.
End Wave.

Module Gate.
Definition from_dict (value : GateSpec + pyval) : pres GateSpec :=
    match value with
    | inl g => Ok g
    | inr v =>
        match entries v with
        | None => reject "gate deve ser um objeto"
        | Some d =>
            _ ← _reject_unknown d ["id"; "kind"; "scope"; "owner"; "status"; "required_evidence"];
            owner ← optional (λ v, _string v "owner" false) "owner" d;
            i ← (v ← _required d "id"; _id v "id");
            k ← _string (dget_or (VStr "validation") "kind" d) "kind" true;
            sc ← _string (dget_or (VStr "plan") "scope" d) "scope" true;
            s ← _string (dget_or (VStr "pending") "status" d) "status" true;
            ev ← _string_list (dget_or VNone "required_evidence" d) "required_evidence";
            Ok (MkGate i k sc owner s ev)
        end
    end.
End Gate.

(** [_unique]: the identifiers of one collection are distinct. *)
Definition _unique (ids : list string) (label : string) : pres unit :=
  ensure (bool_decide (NoDup ids)) (FleetPlanError ("IDs duplicados em " +:+ label) None).

Definition from_dict (value : FleetPlan + pyval) : pres FleetPlan :=
  match value with
  | inl p => Ok p
  | inr v =>
      match entries v with
      | None => reject "fleet plan deve ser um objeto"
      | Some d =>
          _ ← _reject_unknown d ["schema_version"; "agents"; "waves"; "tasks"; "gates"];
          version ← match dget_or (VStr SCHEMA_VERSION) "schema_version" d with
                    | VStr s => if bool_decide (s = SCHEMA_VERSION) then Ok s
                                else reject (u8 "schema_version não suportada")
                    | _ => reject (u8 "schema_version não suportada")
                    end;
          ags ← (l ← _list (dget_or VNone "agents" d) "agents"; mapM (λ x, Agent.from_dict (inr x)) l);
          wvs ← (l ← _list (dget_or VNone "waves" d) "waves"; mapM (λ x, Wave.from_dict (inr x)) l);
          tks ← (l ← _list (dget_or VNone "tasks" d) "tasks"; mapM (λ x, Task.from_dict (inr x)) l);
          gts ← (l ← _list (dget_or VNone "gates" d) "gates"; mapM (λ x, Gate.from_dict (inr x)) l);
          _ ← _unique (map ag_id ags) "agents";
          _ ← _unique (map w_id wvs) "waves";
          _ ← _unique (map t_id tks) "tasks";
          _ ← _unique (map g_id gts) "gates";
          Ok (MkPlan version ags wvs tks gts)
      end
  end.

(** ** [to_dict]: [dataclasses.asdict] *)

Definition obj (kvs : list (string * pyval)) : pyval := VDict (map (λ kv, (VStr kv.1, kv.2)) kvs).
Definition strs (l : list string) : pyval := VList (map VStr l).
Definition opt_str (o : option string) : pyval := match o with Some s => VStr s | None => VNone end.
Definition of_num (n : pynum) : pyval := match n with NInt z => VInt z | NFloat f => VFloat f end.

(** A read-only mapping cannot be deep-copied, at any depth: [TypeError]. *)
Fixpoint has_proxy (v : pyval) : bool :=
  match v with
  | VProxy _ => true
  | VList l | VTuple l => existsb has_proxy l
  | VDict kvs => existsb (λ kv, has_proxy kv.1 || has_proxy kv.2) kvs
  | _ => false
  end.

Definition agent_dict (a : AgentSpec) : pyval :=
  obj [("id", VStr (ag_id a)); ("role", VStr (ag_role a)); ("capabilities", strs (ag_capabilities a));
       ("status", VStr (ag_status a))].
Definition output_dict (o : OutputSpec) : pyval :=
  obj [("name", VStr (o_name o)); ("description", opt_str (o_description o)); ("required", VBool (o_required o))].
Definition retry_dict (r : RetryPolicy) : pyval :=
  obj [("max_attempts", VInt (max_attempts r)); ("backoff_seconds", of_num (backoff_seconds r));
       ("retryable_errors", strs (retryable_errors r))].
Definition task_dict (t : TaskSpec) : pyval :=
  obj [("id", VStr (t_id t)); ("wave", t_wave t); ("role", VStr (t_role t)); ("objective", VStr (t_objective t));
       ("title", opt_str (t_title t)); ("capabilities", strs (t_capabilities t));
       ("depends_on", strs (t_depends_on t)); ("parallel_group", opt_str (t_parallel_group t));
       ("allowed_paths", strs (t_allowed_paths t)); ("forbidden_paths", strs (t_forbidden_paths t));
       ("inputs", t_inputs t); ("outputs", VList (map output_dict (t_outputs t)));
       ("acceptance_criteria", strs (t_acceptance_criteria t));
       ("validation_commands", strs (t_validation_commands t)); ("blocked_when", strs (t_blocked_when t));
       ("retry_policy", retry_dict (t_retry_policy t)); ("owner", opt_str (t_owner t));
       ("status", VStr (t_status t))].
Definition wave_dict (w : WaveSpec) : pyval :=
  obj [("id", VStr (w_id w)); ("tasks", strs (w_tasks w)); ("status", VStr (w_status w)); ("gates", strs (w_gates w))].
Definition gate_dict (g : GateSpec) : pyval :=
  obj [("id", VStr (g_id g)); ("kind", VStr (g_kind g)); ("scope", VStr (g_scope g)); ("owner", opt_str (g_owner g));
       ("status", VStr (g_status g)); ("required_evidence", strs (g_required_evidence g))].

(** [None] is the [TypeError] of [copy.deepcopy]. *)
Definition to_dict (p : FleetPlan) : option pyval :=
  if existsb (λ t, has_proxy (t_wave t) || has_proxy (t_inputs t)) (tasks p) then None
  else Some (obj [("schema_version", VStr (schema_version p)); ("agents", VList (map agent_dict (agents p)));
                  ("waves", VList (map wave_dict (waves p))); ("tasks", VList (map task_dict (tasks p)));
                  ("gates", VList (map gate_dict (gates p)))]).

(** ** Well-formed plans: what [from_dict] establishes *)

(** A stripped string with a visible character. *)
Definition norm (s : string) : Prop := strip s = s ∧ nonempty s = true.

Record retry_wf (r : RetryPolicy) : Prop := {
  rw_attempts : (1 ≤ max_attempts r)%Z;
  rw_backoff : num_finite (backoff_seconds r) = true ∧ num_ltb (backoff_seconds r) (NInt 0) = false ∧
    (backoff_seconds r = NInt 0 ∨ ∃ f, backoff_seconds r = NFloat f);
  rw_errors : Forall norm (retryable_errors r) }.

Record task_wf (t : TaskSpec) : Prop := {
  tw_id : norm (t_id t);
  tw_wave : match t_wave t with VNone => False | VStr s => blank s = false | _ => True end;
  tw_role : norm (t_role t);
  tw_objective : norm (t_objective t);
  tw_owner : ∀ s, t_owner t = Some s → norm s;
  tw_status : norm (t_status t);
  tw_lists : Forall (Forall norm) [t_capabilities t; t_depends_on t; t_allowed_paths t; t_forbidden_paths t;
               t_acceptance_criteria t; t_validation_commands t; t_blocked_when t];
  tw_outputs : Forall (λ o, norm (o_name o)) (t_outputs t);
  tw_retry : retry_wf (t_retry_policy t) }.

Record plan_wf (p : FleetPlan) : Prop := {
  pw_version : schema_version p = SCHEMA_VERSION;
  pw_agents : NoDup (map ag_id (agents p)) ∧
    Forall (λ a, norm (ag_id a) ∧ norm (ag_role a) ∧ norm (ag_status a) ∧ Forall norm (ag_capabilities a)) (agents p);
  pw_waves : NoDup (map w_id (waves p)) ∧
    Forall (λ w, norm (w_id w) ∧ norm (w_status w) ∧ Forall norm (w_tasks w) ∧ Forall norm (w_gates w)) (waves p);
  pw_tasks : NoDup (map t_id (tasks p)) ∧ Forall task_wf (tasks p);
  pw_gates : NoDup (map g_id (gates p)) ∧
    Forall (λ g, norm (g_id g) ∧ norm (g_kind g) ∧ norm (g_scope g) ∧ norm (g_status g) ∧
                 Forall norm (g_required_evidence g)) (gates p) }.

(** ** Lemmas *)

Lemma strip_norm s : blank s = false → norm (strip s).
Proof.
  intros Hb. split; [apply strip_idem|]. unfold blank in Hb. by apply negb_false_iff in Hb.
Qed.

Lemma norm_blank s : norm s → blank s = false.
Proof. intros [H1 H2]. unfold blank. by rewrite H1, H2. Qed.

Lemma string_ok v n b s : _string v n b = Ok s → ∃ s0, v = VStr s0 ∧ (if b then s = strip s0 ∧ norm s else s = s0).
Proof.
  unfold _string. destruct v as [| | | |s0| | | | |]; try discriminate.
  destruct b; cbn; [|intros [= ->]; eauto]. destruct (blank s0) eqn:Hb; [discriminate|].
  intros [= <-]. exists s0. split_and!; try done; apply strip_norm, Hb.
Qed.
Lemma string_norm v n s : _string v n true = Ok s → norm s.
Proof. intros (s0 & _ & _ & H)%string_ok. exact H. Qed.

Lemma id_norm v n s : _id v n = Ok s → norm s.
Proof.
  unfold _id. destruct v as [| | | |s0| | | | |]; try discriminate.
  destruct (blank s0) eqn:Hb; [discriminate|]. intros [= <-]. by apply strip_norm.
Qed.

Lemma required_ok d k v :
  _required d k = Ok v → v = dget_or VNone k d ∧ match v with VNone => False | VStr s => blank s = false | _ => True end.
Proof.
  unfold _required. destruct (dget_or VNone k d) as [| | | |s0| | | | |]; try discriminate; try (by intros [= <-]).
  destruct (blank s0) eqn:Hb; [discriminate|]. intros [= <-]. done.
Qed.

Lemma string_list_norm v n l : _string_list v n = Ok l → Forall norm l.
Proof.
  unfold _string_list. intros (items & _ & H)%bind_ok. destruct (mapM as_str items) as [ss|]; [|discriminate].
  destruct (existsb _ _) eqn:He; [discriminate|]. injection H as <-. apply Forall_forall. intros s Hs.
  rewrite existsb_false_iff in He. specialize (He s Hs). apply negb_false_iff in He.
  apply list_elem_of_fmap in Hs as (s0 & -> & _). split; [apply strip_idem|done].
Qed.

Lemma strings_norm k d l : Task.strings k d = Ok l → Forall norm l.
Proof. apply string_list_norm. Qed.

Lemma optional_norm k d o s : optional (λ v, _string v k true) k d = Ok o → o = Some s → norm s.
Proof.
  unfold optional. destruct (dget_or VNone k d); try (intros [= <-]; discriminate);
    intros (x & Hx & ->)%fmap_ok [= ->]; by eapply string_norm.
Qed.

Lemma finite_num f : is_finite f = true → num_finite (NFloat f) = true.
Proof. by destruct f. Qed.

Lemma retry_norm v r : Retry.from_dict (inr v) = Ok r → retry_wf r.
Proof.
  assert (retry_wf Retry.default) as Hd.
  { split; cbn; [lia| |constructor]. split_and!; [done|done|by left]. }
  unfold Retry.from_dict. assert (∀ d, Retry.from_mapping d = Ok r → retry_wf r) as Hm.
  { intros d. unfold Retry.from_mapping. intros H. res_inv. subst. bool_inv.
    split; cbn; [lia| |by eapply string_list_norm].
    split_and!; [by apply finite_num|done|by eauto]. }
  intros H. destruct v; cbn [entries] in H; first [apply (Hm _ H) | injection H as <-; exact Hd | discriminate H].
Qed.

Lemma output_norm v o : Output.from_dict (inr v) = Ok o → norm (o_name o).
Proof.
  assert (∀ d n, Output.name_of d = Ok n → norm n) as Hname.
  { intros d n. unfold Output.name_of. destruct (dget "name" d), (dget "id" d).
    - intros H. res_inv. case_bool_decide; [|discriminate]. res_inv. by eapply id_norm.
    - apply id_norm.
    - apply id_norm.
    - intros H. res_inv. discriminate. }
  unfold Output.from_dict. intros H. destruct v; cbn [entries] in H; try discriminate H; res_inv; subst;
    cbn [o_name]; try (by eapply id_norm);
    (destruct (dget_or _ "required" _); try discriminate; res_inv; subst; cbn; by eapply Hname).
Qed.

Ltac norm_of :=
  match goal with
  | H : _id _ _ = Ok ?x |- norm ?x => exact (id_norm _ _ _ H)
  | H : _string _ _ true = Ok ?x |- norm ?x => exact (string_norm _ _ _ H)
  | H : _string_list _ _ = Ok ?x |- Forall norm ?x => exact (string_list_norm _ _ _ H)
  | H : Task.strings _ _ = Ok ?x |- Forall norm ?x => exact (strings_norm _ _ _ H)
  | H : Retry.from_dict (inr _) = Ok ?x |- retry_wf ?x => exact (retry_norm _ _ H)
  end.

Lemma task_norm v t : Task.from_dict (inr v) = Ok t → task_wf t.
Proof.
  unfold Task.from_dict. destruct (entries v) as [d|]; [|discriminate]. unfold Task.from_mapping. intros H. res_inv. subst.
  match goal with H : mapM (_required d) Task.REQUIRED = Ok _ |- _ => apply mapM_res_ok in H; rename H into Hreq end.
  split; cbn [t_id t_wave t_role t_objective t_owner t_status t_outputs t_retry_policy t_capabilities t_depends_on
    t_allowed_paths t_forbidden_paths t_acceptance_criteria t_validation_commands t_blocked_when].
  - norm_of.
  - unfold Task.REQUIRED in Hreq. inversion Hreq as [|? ? ? ? _ Hreq']; subst. inversion Hreq' as [|? ? ? ? Hw _]; subst.
    apply required_ok in Hw as [-> Hw]. exact Hw.
  - norm_of.
  - norm_of.
  - match goal with H : optional _ "owner" _ = Ok _ |- _ => intros s ->; exact (optional_norm _ _ _ _ H eq_refl) end.
  - norm_of.
  - repeat (apply Forall_cons_2; [norm_of|]). constructor.
  - match goal with H : mapM (λ v, Output.from_dict (inr v)) _ = Ok _ |- _ => apply mapM_res_ok in H; rename H into Ho end.
    clear -Ho. induction Ho; constructor; eauto using output_norm.
  - norm_of.
Qed.

Lemma mapM_forall {A B} (f : A → pres B) (P : B → Prop) l l' :
  (∀ a b, f a = Ok b → P b) → mapM f l = Ok l' → Forall P l'.
Proof. intros Hf H%mapM_res_ok. induction H; constructor; eauto. Qed.

Lemma unique_ok ids l u : _unique ids l = Ok u → NoDup ids.
Proof. unfold _unique. intros H. res_inv. by bool_inv. Qed.

Lemma agent_norm v a :
  Agent.from_dict (inr v) = Ok a → norm (ag_id a) ∧ norm (ag_role a) ∧ norm (ag_status a) ∧ Forall norm (ag_capabilities a).
Proof.
  unfold Agent.from_dict. destruct (entries v); [|discriminate]. intros H. res_inv. subst. cbn [ag_id ag_role ag_status ag_capabilities w_id w_status w_tasks w_gates]. split_and!; norm_of.
Qed.
Lemma wave_norm v w :
  Wave.from_dict (inr v) = Ok w → norm (w_id w) ∧ norm (w_status w) ∧ Forall norm (w_tasks w) ∧ Forall norm (w_gates w).
Proof.
  unfold Wave.from_dict. destruct (entries v); [|discriminate]. intros H. res_inv. subst. cbn [ag_id ag_role ag_status ag_capabilities w_id w_status w_tasks w_gates]. split_and!; norm_of.
Qed.
Lemma gate_norm v g :
  Gate.from_dict (inr v) = Ok g → norm (g_id g) ∧ norm (g_kind g) ∧ norm (g_scope g) ∧ norm (g_status g) ∧
    Forall norm (g_required_evidence g).
Proof.
  unfold Gate.from_dict. destruct (entries v); [|discriminate]. intros H. res_inv. subst. cbn [g_id g_kind g_scope g_status g_required_evidence]. split_and!; norm_of.
Qed.

Lemma from_dict_wf v p : from_dict (inr v) = Ok p → plan_wf p.
Proof.
  unfold from_dict. destruct (entries v) as [d|]; [|discriminate]. intros H. res_inv. subst.
  split; cbn [schema_version agents waves tasks gates].
  - destruct (dget_or _ "schema_version" d); try discriminate. case_bool_decide; [|discriminate]. congruence.
  - split; [by eapply unique_ok|]. by eapply mapM_forall; [apply agent_norm|].
  - split; [by eapply unique_ok|]. by eapply mapM_forall; [apply wave_norm|].
  - split; [by eapply unique_ok|]. by eapply mapM_forall; [apply task_norm|].
  - split; [by eapply unique_ok|]. by eapply mapM_forall; [apply gate_norm|].
Qed.

(** *** Reading back the dictionaries of [to_dict] *)

Fixpoint sassoc (k : string) (kvs : list (string * pyval)) : option pyval :=
  match kvs with [] => None | (k', v) :: rest => if String.eqb k' k then Some v else sassoc k rest end.

Lemma dget_obj k kvs : dget k (map (λ kv, (VStr kv.1, kv.2)) kvs) = sassoc k kvs.
Proof.
  induction kvs as [|[k' v] kvs IH]; [done|]. cbn. rewrite IH.
  destruct (String.eqb_spec k' k); [by rewrite bool_decide_true|by rewrite bool_decide_false].
Qed.

Lemma unknown_obj allowed (kvs : list (string * pyval)) :
  forallb (λ kv, existsb (String.eqb kv.1) allowed) kvs = true →
  _reject_unknown (map (λ kv, (VStr kv.1, kv.2)) kvs) allowed = Ok ().
Proof.
  intros H. unfold _reject_unknown. replace (has_unknown _ _) with false; [done|]. symmetry.
  apply has_unknown_false. intros kv (kv' & -> & Hkv)%list_elem_of_fmap. exists kv'.1. split; [done|].
  rewrite forallb_true_iff in H. specialize (H kv' Hkv). apply existsb_true_iff in H as (s & Hs & Heq).
  apply String.eqb_eq in Heq. by subst.
Qed.

Lemma id_back s n : norm s → _id (VStr s) n = Ok s.
Proof. intros H. unfold _id. rewrite (norm_blank _ H). by destruct H as [-> _]. Qed.
Lemma string_back s n b : (b = true → norm s) → _string (VStr s) n b = Ok s.
Proof.
  intros H. unfold _string. destruct b; [|done]. specialize (H eq_refl). rewrite (norm_blank _ H). cbn.
  by destruct H as [-> _].
Qed.
Lemma string_list_back l n : Forall norm l → _string_list (strs l) n = Ok l.
Proof.
  intros H. unfold _string_list, strs, _list. cbn. replace (mapM as_str (map VStr l)) with (Some l).
  - assert (map strip l = l) as -> by (induction H as [|s l [Hs _] _ IH]; cbn; congruence).
    replace (existsb _ l) with false; [done|]. symmetry. apply existsb_false_iff. intros s Hs.
    rewrite Forall_forall in H. by destruct (H s Hs) as [_ ->].
  - clear H. induction l as [|s l IH]; [done|]. cbn. by rewrite <- IH.
Qed.

Lemma optional_back k kvs o b :
  sassoc k kvs = Some (opt_str o) → (b = true → ∀ s, o = Some s → norm s) →
  optional (λ v, _string v k b) k (map (λ kv, (VStr kv.1, kv.2)) kvs) = Ok o.
Proof.
  intros Hk Ho. unfold optional, dget_or. rewrite dget_obj, Hk. destruct o as [s|]; cbn [opt_str from_option id]; [|done].
  rewrite string_back; [done|]. intros Hb. by apply Ho.
Qed.

Lemma required_back k kvs v :
  sassoc k kvs = Some v → match v with VNone => False | VStr s => blank s = false | _ => True end →
  _required (map (λ kv, (VStr kv.1, kv.2)) kvs) k = Ok v.
Proof.
  intros Hk Hv. unfold _required, dget_or. rewrite dget_obj, Hk. cbn [from_option id]. destruct v; try done. by rewrite Hv.
Qed.

Ltac req_back := erewrite required_back; [|reflexivity|first [exact Logic.I|assumption|by apply norm_blank]].

(** Evaluate the lookups of a literal dictionary. *)
Ltac obj_lookup := unfold dget_or; rewrite ?dget_obj; cbn [sassoc String.eqb Ascii.eqb Bool.eqb from_option id].

(** The numbers of a plan that went through [float]. *)
Definition float_backoff (r : RetryPolicy) : RetryPolicy :=
  MkRetry (max_attempts r) (match backoff_seconds r with NInt 0 => NFloat (S754_zero false) | n => n end) (retryable_errors r).
Definition float_task (t : TaskSpec) : TaskSpec :=
  MkTask (t_id t) (t_wave t) (t_role t) (t_objective t) (t_title t) (t_capabilities t) (t_depends_on t)
    (t_parallel_group t) (t_allowed_paths t) (t_forbidden_paths t) (t_inputs t) (t_outputs t)
    (t_acceptance_criteria t) (t_validation_commands t) (t_blocked_when t) (float_backoff (t_retry_policy t))
    (t_owner t) (t_status t).
Definition float_plan (p : FleetPlan) : FleetPlan :=
  MkPlan (schema_version p) (agents p) (waves p) (map float_task (tasks p)) (gates p).

Lemma agent_back a :
  norm (ag_id a) → norm (ag_role a) → norm (ag_status a) → Forall norm (ag_capabilities a) →
  Agent.from_dict (inr (agent_dict a)) = Ok a.
Proof.
  intros Hi Hr Hs Hc. unfold Agent.from_dict, agent_dict, obj. cbn [entries].
  rewrite unknown_obj by reflexivity. cbn [mbind res_bind].
  repeat (req_back; cbn [mbind res_bind]). cbn [mbind res_bind].
  rewrite id_back by done. cbn [mbind res_bind]. rewrite string_back by done. cbn [mbind res_bind].
  obj_lookup. rewrite string_list_back by done. cbn [mbind res_bind]. rewrite string_back by done. by destruct a.
Qed.

Lemma wave_back w :
  norm (w_id w) → norm (w_status w) → Forall norm (w_tasks w) → Forall norm (w_gates w) →
  Wave.from_dict (inr (wave_dict w)) = Ok w.
Proof.
  intros Hi Hs Ht Hg. unfold Wave.from_dict, wave_dict, obj. cbn [entries].
  rewrite unknown_obj by reflexivity. cbn [mbind res_bind].
  repeat (req_back; cbn [mbind res_bind]). cbn [mbind res_bind].
  rewrite id_back by done. cbn [mbind res_bind]. obj_lookup.
  rewrite string_list_back by done. cbn [mbind res_bind]. rewrite string_back by done. cbn [mbind res_bind].
  rewrite string_list_back by done. by destruct w.
Qed.

Lemma gate_back g :
  norm (g_id g) → norm (g_kind g) → norm (g_scope g) → norm (g_status g) → Forall norm (g_required_evidence g) →
  Gate.from_dict (inr (gate_dict g)) = Ok g.
Proof.
  intros Hi Hk Hc Hs He. unfold Gate.from_dict, gate_dict, obj. cbn [entries].
  rewrite unknown_obj by reflexivity. cbn [mbind res_bind].
  rewrite (optional_back "owner" _ (g_owner g) false); [|reflexivity|done]. cbn [mbind res_bind].
  repeat (req_back; cbn [mbind res_bind]). cbn [mbind res_bind].
  rewrite id_back by done. cbn [mbind res_bind]. obj_lookup.
  rewrite string_back by done. cbn [mbind res_bind]. rewrite string_back by done. cbn [mbind res_bind].
  rewrite string_back by done. cbn [mbind res_bind].
  rewrite string_list_back by done. by destruct g.
Qed.

Lemma output_back o : norm (o_name o) → Output.from_dict (inr (output_dict o)) = Ok o.
Proof.
  intros Hn. unfold Output.from_dict, output_dict, obj. cbn [entries].
  rewrite unknown_obj by reflexivity. cbn [mbind res_bind]. unfold Output.name_of. obj_lookup.
  rewrite id_back by done. cbn [mbind res_bind].
  rewrite (optional_back "description" _ (o_description o) false); [|reflexivity|done]. cbn [mbind res_bind].
  by destruct o.
Qed.

Lemma retry_back r : retry_wf r → Retry.from_dict (inr (retry_dict r)) = Ok (float_backoff r).
Proof.
  intros [Ha [Hf [Hb Hshape]] He]. unfold Retry.from_dict, retry_dict, obj. cbn [entries].
  unfold Retry.from_mapping. rewrite unknown_obj by reflexivity. cbn [mbind res_bind]. unfold Retry.errors_of. obj_lookup.
  cbn [mbind res_bind]. unfold ensure at 1. replace (1 <=? max_attempts r)%Z with true by (symmetry; by apply Z.leb_le).
  cbn [mbind res_bind]. rewrite string_list_back by done.
  destruct Hshape as [Hz|[f Hz]]; unfold float_backoff; rewrite Hz in *; cbn [of_num].
  - cbn [mbind res_bind ensure is_finite negb Retry.to_float]. change (float_of_Z 0) with (Some (S754_zero false)).
    cbn [mbind res_bind ensure is_finite negb]. change (num_ltb (NFloat (S754_zero false)) (NInt 0)) with false.
    cbn [negb ensure mbind res_bind]. change (VList (map VStr (retryable_errors r))) with (strs (retryable_errors r)).
    by rewrite string_list_back.
  - cbn [mbind res_bind]. assert (is_finite f = true) as -> by (by destruct f). cbn [ensure mbind res_bind].
    rewrite Hb. cbn [negb ensure mbind res_bind].
    change (VList (map VStr (retryable_errors r))) with (strs (retryable_errors r)). by rewrite string_list_back.
Qed.

Lemma mapM_back {A} (f : pyval → pres A) (g : A → pyval) (h : A → A) l :
  (∀ a, a ∈ l → f (g a) = Ok (h a)) → mapM f (map g l) = Ok (map h l).
Proof.
  induction l as [|a l IH]; intros H; [done|]. cbn. rewrite H by set_solver. cbn. rewrite IH by set_solver. done.
Qed.

Lemma strings_back k kvs l :
  sassoc k kvs = Some (strs l) → Forall norm l → Task.strings k (map (λ kv, (VStr kv.1, kv.2)) kvs) = Ok l.
Proof. intros Hk Hl. unfold Task.strings, dget_or. rewrite dget_obj, Hk. cbn [from_option id]. by apply string_list_back. Qed.

Lemma task_back t : task_wf t → Task.from_dict (inr (task_dict t)) = Ok (float_task t).
Proof.
  intros [Hi Hw Hr Ho How Hs Hl Hout Hret]. repeat (apply Forall_cons in Hl as [? Hl]).
  unfold Task.from_dict, task_dict, obj. cbn [entries]. unfold Task.from_mapping, Task.REQUIRED.
  rewrite unknown_obj by reflexivity. cbn [mbind res_bind mapM].
  repeat (req_back; cbn [mbind res_bind]). cbn [mbind res_bind mret res_ret].
  rewrite (optional_back "title" _ (t_title t) false); [|reflexivity|done].
  rewrite (optional_back "parallel_group" _ (t_parallel_group t) false); [|reflexivity|done].
  rewrite (optional_back "owner" _ (t_owner t) true); [|reflexivity|done].
  rewrite (strings_back "capabilities" _ (t_capabilities t)); [|reflexivity|done].
  rewrite (strings_back "depends_on" _ (t_depends_on t)); [|reflexivity|done].
  rewrite (strings_back "allowed_paths" _ (t_allowed_paths t)); [|reflexivity|done].
  rewrite (strings_back "forbidden_paths" _ (t_forbidden_paths t)); [|reflexivity|done].
  rewrite (strings_back "acceptance_criteria" _ (t_acceptance_criteria t)); [|reflexivity|done].
  rewrite (strings_back "validation_commands" _ (t_validation_commands t)); [|reflexivity|done].
  rewrite (strings_back "blocked_when" _ (t_blocked_when t)); [|reflexivity|done].
  obj_lookup. rewrite id_back by done. cbn [mbind res_bind]. rewrite string_back by done. cbn [mbind res_bind].
  rewrite string_back by done. cbn [mbind res_bind _list].
  rewrite (mapM_back _ output_dict id); [|intros o Hin; apply output_back; rewrite Forall_forall in Hout; by apply Hout].
  cbn [mbind res_bind]. rewrite retry_back by done. cbn [mbind res_bind]. rewrite string_back by done.
  cbn [mbind res_bind]. unfold float_task. by rewrite map_id.
Qed.

Lemma unique_back ids l : NoDup ids → _unique ids l = Ok ().
Proof. intros H. unfold _unique. by rewrite bool_decide_true. Qed.

Lemma plan_back p d : plan_wf p → to_dict p = Some d → from_dict (inr d) = Ok (float_plan p).
Proof.
  intros [Hv [Ha1 Ha2] [Hw1 Hw2] [Ht1 Ht2] [Hg1 Hg2]] Hd. unfold to_dict in Hd.
  destruct (existsb _ _); [discriminate|]. injection Hd as <-. rewrite Forall_forall in Ha2. rewrite Forall_forall in Hw2. rewrite Forall_forall in Ht2. rewrite Forall_forall in Hg2.
  unfold from_dict, obj. cbn [entries]. rewrite unknown_obj by reflexivity. cbn [mbind res_bind]. obj_lookup.
  rewrite Hv, bool_decide_true by done. cbn [mbind res_bind _list].
  rewrite (mapM_back _ agent_dict id) by (intros a (?&?&?&?)%Ha2; by apply agent_back). cbn [mbind res_bind].
  rewrite (mapM_back _ wave_dict id) by (intros a (?&?&?&?)%Hw2; by apply wave_back). cbn [mbind res_bind].
  rewrite (mapM_back _ task_dict float_task) by (intros a ?%Ht2; by apply task_back). cbn [mbind res_bind].
  rewrite (mapM_back _ gate_dict id) by (intros a (?&?&?&?&?)%Hg2; by apply gate_back). cbn [mbind res_bind].
  rewrite !map_id. assert (map t_id (map float_task (tasks p)) = map t_id (tasks p)) as Hids by (by rewrite map_map).
  rewrite Hids. rewrite !unique_back by assumption. cbn [mbind res_bind]. unfold float_plan. by rewrite Hv.
Qed.

Lemma float_backoff_idem r : float_backoff (float_backoff r) = float_backoff r.
Proof. destruct r as [n b e]. unfold float_backoff. cbn. by destruct b as [[]|]. Qed.
Lemma float_plan_idem p : float_plan (float_plan p) = float_plan p.
Proof.
  unfold float_plan. cbn. f_equal. rewrite map_map. apply map_ext. intros t.
  unfold float_task. cbn. by rewrite float_backoff_idem.
Qed.

(** ** Properties *)

(** A plan document used by the witnesses. *)
Definition demo_task (i : string) (deps : list string) : pyval :=
  obj [("id", VStr i); ("wave", VInt 1); ("role", VStr " dev "); ("objective", VStr "o");
       ("depends_on", strs deps); ("outputs", VList [VStr "out"; obj [("id", VStr "x"); ("required", VBool false)]]);
       ("acceptance_criteria", strs ["c"]); ("validation_commands", strs ["v"])].
Definition demo_doc : pyval :=
  obj [("agents", VList [obj [("id", VStr "a1"); ("role", VStr "dev")]]);
       ("waves", VList [obj [("id", VStr "wave-1"); ("tasks", strs ["t1"; "t2"])]]);
       ("tasks", VList [demo_task " t1" []; demo_task "t2" ["t1 "]])].

(** a plan that [from_dict] accepts is normalised: its schema version is the
    supported one, the identifiers of each collection are distinct, every
    identifier, role, status and list entry is a stripped non-blank string,
    every task names its wave, and every retry policy has at least one attempt
    and a finite non-negative backoff. *)
Theorem from_dict_normalizes (v : pyval) (p : FleetPlan) :
  from_dict (inr v) = Ok p → plan_wf p.
Proof. apply from_dict_wf. Qed.
Lemma from_dict_normalizes_witness :
  ∃ p, from_dict (inr demo_doc) = Ok p ∧ map t_id (tasks p) = ["t1"; "t2"] ∧ plan_wf p.
Proof.
  eexists. split; [vm_compute; reflexivity|]. split; [reflexivity|].
  apply (from_dict_normalizes demo_doc). vm_compute. reflexivity.
Defined.

(** C40: reading back the dictionary of an accepted plan gives the plan itself,
    up to the default backoff, which is the integer 0 and comes back as a
    float; a second trip is the identity. *)
Theorem plan_roundtrip (v d : pyval) (p : FleetPlan) :
  from_dict (inr v) = Ok p → to_dict p = Some d →
  from_dict (inr d) = Ok (float_plan p) ∧
  (∀ d', to_dict (float_plan p) = Some d' → from_dict (inr d') = Ok (float_plan p)).
Proof.
  intros Hv Hd. pose proof (plan_back p d (from_dict_wf v p Hv) Hd) as H. split; [done|].
  intros d' Hd'. rewrite (plan_back (float_plan p) d' (from_dict_wf d _ H) Hd'). by rewrite float_plan_idem.
Qed.
Lemma plan_roundtrip_witness :
  ∃ p d, from_dict (inr demo_doc) = Ok p ∧ to_dict p = Some d ∧ from_dict (inr d) = Ok (float_plan p) ∧ float_plan p ≠ p.
Proof.
  eexists _, _. split; [vm_compute; reflexivity|]. split; [vm_compute; reflexivity|]. split.
  - apply (plan_roundtrip demo_doc); vm_compute; reflexivity.
  - discriminate.
Defined.
