(* ===== verification/Validation.v ===== *)
(** * Plan validation and readiness (scripts/pd_fleet/validation.py)

    Pure checks of a plan: references and cycles of the dependency graph, the
    gates of the waves, the contract of each task, path ownership of tasks that
    may run in parallel, and the set of tasks that can start.  The recursive
    searches carry fuel; the theorems show that the fuel the entry points give
    is enough. *)

From stdpp Require Import relations.
From S2P Require Import Prelude PyStr PyNum PyVal SafeRendering Models.

(** [{task.id: task for task in plan.tasks}]: a later task wins. *)
Definition by_id_of (ts : list TaskSpec) : gmap string TaskSpec := foldl (λ m t, <[t_id t := t]> m) ∅ ts.

(** [sorted(set(l))] *)
Definition sorted_set (l : list string) : list string := sort_strings (remove_dups l).

Definition sort_tasks (ts : list TaskSpec) : list TaskSpec := sort_by (λ a b, String.leb (t_id a) (t_id b)) ts.

Definition strip_slashes (s : string) : string := strip_by (λ c, (code c =? 47)%nat) s.

Definition _path_overlap (left right : string) : bool :=
  let a := strip_slashes left in
  let b := strip_slashes right in
  bool_decide (a = b) || startswith a (b +:+ "/") || startswith b (a +:+ "/").

(** ** Reachability between tasks *)

Section graph.
Context (by_id : gmap string TaskSpec).

(** [reaches]: the answer and the updated [seen]. [any] stops at the first success. *)
Fixpoint reaches (fuel : nat) (start target : string) (seen : gset string) : bool * gset string :=
  match fuel with
  | O => (false, seen)
  | S fuel' =>
      if bool_decide (start ∈ seen) then (false, seen)
      else
        let seen := {[start]} ∪ seen in
        if bool_decide (start = target) then (true, seen)
        else
          match by_id !! start with
          | None => (false, seen)
          | Some current =>
              (fix any_reaches (deps : list string) (seen : gset string) : bool * gset string :=
                 match deps with
                 | [] => (false, seen)
                 | d :: deps =>
                     let '(r, seen) := reaches fuel' d target seen in
                     if r : bool then (true, seen) else any_reaches deps seen
                 end) (t_depends_on current) seen
          end
  end.

Definition reaches_from (start target : string) : bool := (reaches (S (size by_id)) start target ∅).1.

Definition _parallel (a b : TaskSpec) : bool :=
  if negb (py_eqb (t_wave a) (t_wave b)) then false
  else negb (reaches_from (t_id a) (t_id b)) && negb (reaches_from (t_id b) (t_id a)).

(** ** Depth-first search for cycles *)

Record dfs : Type := MkDfs {
  color : gmap string nat;
  stack : list string;
  cycles : list (list string) }.

(** Order of tuples of strings. *)
Fixpoint tuple_leb (a b : list string) : bool :=
  match a, b with
  | [], _ => true
  | _ :: _, [] => false
  | x :: a, y :: b => if String.eqb x y then tuple_leb a b else String.leb x y
  end.

Fixpoint min_tuple (m : list string) (l : list (list string)) : list string :=
  match l with [] => m | x :: l => min_tuple (if tuple_leb m x then m else x) l end.

(** [cycle[i:-1] + cycle[:i] + (cycle[i],)] *)
Definition rotation (cycle : list string) (i : nat) : list string :=
  drop i (take (length cycle - 1) cycle) ++ take i cycle ++ match cycle !! i with Some c => [c] | None => [] end.

Definition canonical_cycle (cycle : list string) : list string :=
  match map (rotation cycle) (seq 0 (length cycle - 1)) with
  | [] => cycle
  | r :: rs => min_tuple r rs
  end.

(** [stack[stack.index(dep):]] *)
Fixpoint from_first (x : string) (l : list string) : list string :=
  match l with [] => [] | y :: l' => if String.eqb x y then l else from_first x l' end.

Definition add_cycle (dep : string) (s : dfs) : dfs :=
  let c := canonical_cycle (from_first dep s.(stack) ++ [dep]) in
  MkDfs s.(color) s.(stack) (if bool_decide (c ∈ s.(cycles)) then s.(cycles) else s.(cycles) ++ [c]).

Definition deps_of (node : string) : list string :=
  match by_id !! node with Some t => sort_strings (t_depends_on t) | None => [] end.

Fixpoint visit (fuel : nat) (node : string) (s : dfs) : dfs :=
  match fuel with
  | O => s
  | S fuel' =>
      let s := MkDfs (<[node := 1%nat]> s.(color)) (s.(stack) ++ [node]) s.(cycles) in
      let s := foldl (λ s dep,
        if negb (bool_decide (is_Some (by_id !! dep))) then s
        else match default 0%nat (s.(color) !! dep) with
             | 0%nat => visit fuel' dep s
             | 1%nat => add_cycle dep s
             | _ => s
             end) s (deps_of node) in
      MkDfs (<[node := 2%nat]> s.(color)) (take (length s.(stack) - 1) s.(stack)) s.(cycles)
  end.

Definition find_cycles (ids : list string) : list (list string) :=
  cycles (foldl (λ s i, match default 0%nat (s.(color) !! i) with
                        | 0%nat => visit (size by_id) i s
                        | _ => s
                        end) (MkDfs ∅ [] []) ids).
End graph.

(** ** The checks *)

Definition validate_task_contract (t : TaskSpec) : list string :=
  (if blank (t_id t) then [u8 "task sem id: informe um identificador não vazio"] else []) ++
  (if blank (t_role t) then ["task " +:+ t_id t +:+ u8 ": role obrigatório"] else []) ++
  (if blank (t_objective t) then ["task " +:+ t_id t +:+ u8 ": objective obrigatório"] else []) ++
  (if bool_decide (t_acceptance_criteria t = []) then ["task " +:+ t_id t +:+ ": contrato incompleto; informe acceptance_criteria"] else []) ++
  (match t_outputs t with [] => ["task " +:+ t_id t +:+ ": contrato incompleto; informe outputs"] | _ => [] end) ++
  (if bool_decide (t_validation_commands t = []) then ["task " +:+ t_id t +:+ ": contrato incompleto; informe validation_commands"] else []).

Definition missing_dependencies (p : FleetPlan) : list string :=
  flat_map (λ t, flat_map (λ dep,
      if bool_decide (is_Some (by_id_of (tasks p) !! dep)) then []
      else ["task " +:+ t_id t +:+ u8 ": dependência inexistente " +:+ safe_repr_str dep +:+ "; crie-a ou remova-a"])
    (sorted_set (t_depends_on t))) (sort_tasks (tasks p)).

Definition plan_cycles (p : FleetPlan) : list (list string) :=
  find_cycles (by_id_of (tasks p)) (sorted_set (map t_id (tasks p))).

Definition validate_dag (p : FleetPlan) : list string :=
  sort_strings (missing_dependencies p ++
    map (λ c : list string, "ciclo no DAG: " +:+ join " -> " c) (sort_by tuple_leb (plan_cycles p))).

Definition validate_wave_gates (p : FleetPlan) : list string :=
  sort_strings (flat_map (λ w, flat_map (λ g,
      if bool_decide (g ∈ map g_id (gates p)) then []
      else ["wave " +:+ w_id w +:+ ": gate inexistente " +:+ safe_repr_str g +:+ "; " +:+
            "adicione-o a FleetPlan.gates ou remova-o de wave.gates"])
    (sorted_set (w_gates w))) (sort_by (λ a b, String.leb (w_id a) (w_id b)) (waves p))).

(** The [(path, path)] pairs of two sorted sets that overlap. *)
Definition overlaps (l r : list string) : list (string * string) :=
  flat_map (λ a, flat_map (λ b, if _path_overlap a b then [(a, b)] else []) (sorted_set r)) (sorted_set l).

Definition own_conflicts (t : TaskSpec) : list string :=
  map (λ ab, "task " +:+ t_id t +:+ ": allowed_path " +:+ safe_repr_str ab.1 +:+ " conflita com forbidden_path " +:+
             safe_repr_str ab.2 +:+ "; ajuste um dos paths")
    (overlaps (t_allowed_paths t) (t_forbidden_paths t)).

Definition pair_conflicts (by_id : gmap string TaskSpec) (l r : TaskSpec) : list string :=
  if negb (_parallel by_id l r) then []
  else map (λ ab, "ownership conflitante: tasks " +:+ t_id l +:+ " e " +:+ t_id r +:+
                  u8 " podem rodar em paralelo e sobrepõem " +:+ safe_repr_str ab.1 +:+ "/" +:+ safe_repr_str ab.2 +:+
                  "; serialize ou separe os paths")
         (overlaps (t_allowed_paths l) (t_allowed_paths r)).

(** [for index, left in enumerate(tasks): for right in tasks[index + 1:]] *)
Fixpoint all_pair_conflicts (by_id : gmap string TaskSpec) (ts : list TaskSpec) : list string :=
  match ts with
  | [] => []
  | l :: rest => flat_map (pair_conflicts by_id l) rest ++ all_pair_conflicts by_id rest
  end.

Definition validate_ownership (p : FleetPlan) : list string :=
  let ts := sort_tasks (tasks p) in
  sort_strings (flat_map own_conflicts ts ++ all_pair_conflicts (by_id_of (tasks p)) ts).

(** [FleetValidationError.errors], or the exception of [from_dict]. *)
Inductive validation_error : Type :=
| FleetValidationError (errors : list string)
| NotAPlan (e : plan_error).

Definition all_errors (p : FleetPlan) : list string :=
  validate_dag p ++ validate_wave_gates p ++ flat_map validate_task_contract (sort_tasks (tasks p)) ++
  validate_ownership p.

Definition normalized (plan : FleetPlan + pyval) : res validation_error FleetPlan := map_err NotAPlan (from_dict plan).

(** [validate_plan]: the task identifiers of the report. *)
Definition validate_plan (plan : FleetPlan + pyval) : res validation_error (list string) :=
  p ← normalized plan;
  match all_errors p with
  | [] => Ok (sort_strings (map t_id (tasks p)))
  | errors => Err (FleetValidationError (sorted_set errors))
  end.

(** ** Readiness *)

Definition canonical_wave_id (value : pyval) : string :=
  let text := lower (strip (py_str value)) in
  let candidate := removeprefix text "wave-" in
  match int_of_str candidate with
  | Some n => "wave-" +:+ str_of_Z n
  | None => "wave-" +:+ candidate
  end.

(** The sort key [(0, int)] or [(1, str)]. *)
Definition wave_key (value : string) : Z + string :=
  match int_of_str (removeprefix value "wave-") with Some n => inl n | None => inr value end.
Definition key_leb (a b : Z + string) : bool :=
  match a, b with
  | inl x, inl y => (x <=? y)%Z
  | inl _, inr _ => true
  | inr _, inl _ => false
  | inr x, inr y => String.leb x y
  end.

Definition wave_values (ts : list TaskSpec) : list string :=
  sort_by (λ a b, key_leb (wave_key a) (wave_key b)) (remove_dups (map (λ t, canonical_wave_id (t_wave t)) ts)).

Fixpoint index_of (x : string) (l : list string) : nat :=
  match l with [] => 0 | y :: l' => if String.eqb x y then 0 else S (index_of x l') end.

Definition required_gates (p : FleetPlan) (t : TaskSpec) : list string :=
  flat_map (λ w, if bool_decide (canonical_wave_id (VStr (w_id w)) = canonical_wave_id (t_wave t)) then w_gates w else [])
    (waves p).

Definition terminal_ids (p : FleetPlan) (completed skipped : list string) : list string :=
  completed ++ skipped ++
  flat_map (λ t, if bool_decide (t_status t ∈ ["completed"; "skipped"]) then [t_id t] else []) (tasks p).

Definition is_ready (p : FleetPlan) (terminal passed : list string) (t : TaskSpec) : bool :=
  let wave_index := λ u, index_of (canonical_wave_id (t_wave u)) (wave_values (tasks p)) in
  if negb (bool_decide (t_status t ∈ ["pending"; "ready"])) ||
     negb (forallb (λ d, bool_decide (d ∈ terminal)) (t_depends_on t)) then false
  else if existsb (λ o, (wave_index o <? wave_index t)%nat && negb (bool_decide (t_id o ∈ terminal))) (tasks p) then false
  else forallb (λ g, bool_decide (g ∈ passed)) (required_gates p t).

Definition compute_ready_tasks (plan : FleetPlan + pyval) (completed skipped gates_passed : list string)
    : res validation_error (list string) :=
  p ← normalized plan;
  _ ← validate_plan (inl p);
  Ok (map t_id (filter (λ t, is_ready p (terminal_ids p completed skipped) gates_passed t = true)
                  (sort_tasks (tasks p)))).

(** ** The dependency graph *)

(** [b] is a dependency that task [a] names. *)
Definition depends (by_id : gmap string TaskSpec) (a b : string) : Prop :=
  ∃ t, by_id !! a = Some t ∧ b ∈ t_depends_on t.
(** ... and that exists. *)
Definition edge (by_id : gmap string TaskSpec) (a b : string) : Prop :=
  depends by_id a b ∧ is_Some (by_id !! b).

Definition acyclic (by_id : gmap string TaskSpec) : Prop := ∀ n, ¬ tc (edge by_id) n n.

Lemma elem_of_sorted_set x l : x ∈ sorted_set l ↔ x ∈ l.
Proof. unfold sorted_set, sort_strings. by rewrite elem_of_sort_by, elem_of_remove_dups. Qed.

Lemma elem_of_sort_tasks t ts : t ∈ sort_tasks ts ↔ t ∈ ts.
Proof. apply elem_of_sort_by. Qed.

Lemma by_id_dom ts i : is_Some (by_id_of ts !! i) ↔ i ∈ map t_id ts.
Proof.
  unfold by_id_of. induction ts as [|t ts IH] using rev_ind.
  - cbn [foldl]. rewrite lookup_empty. split; [intros [? ?]; done|]. intros H. by apply elem_of_nil in H.
  - rewrite foldl_app, map_app, elem_of_app. cbn. rewrite list_elem_of_singleton.
    destruct (decide (t_id t = i)) as [->|Hne].
    + rewrite lookup_insert_eq. split; [by right|by eauto].
    + rewrite lookup_insert_ne, IH by done. split; [by left|]. by intros [?| ->].
Qed.

Lemma by_id_in ts i t : by_id_of ts !! i = Some t → t ∈ ts ∧ t_id t = i.
Proof.
  unfold by_id_of. induction ts as [|u ts IH] using rev_ind; [cbn [foldl]; by rewrite lookup_empty|].
  rewrite foldl_app, elem_of_app. cbn. rewrite list_elem_of_singleton.
  destruct (decide (t_id u = i)) as [<-|Hne].
  - rewrite lookup_insert_eq. intros [= ->]. by split; [right|].
  - rewrite lookup_insert_ne by done. intros [? ?]%IH. by split; [left|].
Qed.

Lemma by_id_NoDup ts t : NoDup (map t_id ts) → t ∈ ts → by_id_of ts !! t_id t = Some t.
Proof.
  intros Hn Ht. assert (is_Some (by_id_of ts !! t_id t)) as [u Hu].
  { apply by_id_dom. apply list_elem_of_fmap. by exists t. }
  rewrite Hu. f_equal. apply by_id_in in Hu as [Hu Hid]. revert Hn Ht Hu. induction ts as [|x ts IH]; [set_solver|].
  cbn. rewrite NoDup_cons, !elem_of_cons. intros [Hx Hn] Ht Hu.
  assert (∀ y, y ∈ ts → t_id x ≠ t_id y) as Hfresh.
  { intros y Hy Heq. apply Hx. rewrite Heq. apply list_elem_of_fmap. by exists y. }
  destruct Ht as [->|Ht], Hu as [->|Hu]; auto; exfalso; eapply Hfresh; eauto.
Qed.

(** *** [reaches] is reachability *)

(** What one call with [seen] establishes: the added nodes are not the target
    and their dependencies were all seen. *)
Definition closed_upto (by_id : gmap string TaskSpec) (target : string) (seen seen' : gset string) : Prop :=
  seen ⊆ seen' ∧ ∀ x, x ∈ seen' → x ∉ seen → x ≠ target ∧ ∀ d, depends by_id x d → d ∈ seen'.

Lemma closed_trans by_id target s1 s2 s3 :
  closed_upto by_id target s1 s2 → closed_upto by_id target s2 s3 → closed_upto by_id target s1 s3.
Proof.
  intros [H1 H2] [H3 H4]. split; [set_solver|]. intros x Hx Hn.
  destruct (decide (x ∈ s2)) as [Hx2|Hx2]; [|by apply H4]. destruct (H2 x Hx2 Hn) as [? Hd]. set_solver.
Qed.

Lemma reaches_sound by_id fuel start target seen :
  (reaches by_id fuel start target seen).1 = true → rtc (depends by_id) start target.
Proof.
  revert start seen. induction fuel as [|fuel IH]; intros start seen; [done|]. cbn [reaches].
  case_bool_decide; [done|]. case_bool_decide as Ht; [intros _; subst; apply rtc_refl|].
  destruct (by_id !! start) as [t|] eqn:Hs; [|done].
  assert (∀ d, d ∈ t_depends_on t → depends by_id start d) as Hdep by (intros d Hd; by exists t).
  revert Hdep. generalize ({[start]} ∪ seen). induction (t_depends_on t) as [|d ds IHds]; intros seen' Hdep; [done|].
  destruct (reaches by_id fuel d target seen') as [[] seen2] eqn:Hr.
  - intros _. eapply rtc_l; [apply Hdep; by left|]. apply (IH d seen'). by rewrite Hr.
  - apply IHds. set_solver.
Qed.

Lemma reaches_false by_id fuel start target seen seen' :
  (size (dom by_id ∖ seen) < fuel)%nat →
  reaches by_id fuel start target seen = (false, seen') →
  closed_upto by_id target seen seen' ∧ start ∈ seen'.
Proof.
  revert start seen seen'. induction fuel as [|fuel IH]; intros start seen seen' Hf; [lia|]. cbn [reaches].
  case_bool_decide as Hin; [intros [= <-]; split; [|done]; split; [done|set_solver]|].
  case_bool_decide as Ht; [done|].
  destruct (by_id !! start) as [t|] eqn:Hs.
  2: { intros [= <-]. split; [|set_solver]. split; [set_solver|]. intros x Hx Hn.
       assert (x = start) as -> by set_solver. split; [done|]. intros d (t & Hd & _). congruence. }
  intros Hr.
  assert (size (dom by_id ∖ ({[start]} ∪ seen)) < fuel)%nat as Hf'.
  { enough (size (dom by_id ∖ ({[start]} ∪ seen)) < size (dom by_id ∖ seen))%nat by lia.
    apply subset_size. assert (start ∈ dom by_id) by (by apply elem_of_dom_2 in Hs). set_solver. }
  assert (∀ ds s1 s2, ({[start]} ∪ seen) ⊆ s1 →
    (fix any_reaches (deps : list string) (seen : gset string) : bool * gset string :=
       match deps with
       | [] => (false, seen)
       | d :: deps => let '(r, seen) := reaches by_id fuel d target seen in
                      if r : bool then (true, seen) else any_reaches deps seen
       end) ds s1 = (false, s2) →
    closed_upto by_id target s1 s2 ∧ ∀ d, d ∈ ds → d ∈ s2) as Hany.
  { induction ds as [|d ds IHds]; intros s1 s2 Hsub; [intros [= <-]; split; [split; [done|set_solver]|set_solver]|].
    destruct (reaches by_id fuel d target s1) as [[] s3] eqn:Hd; [done|]. intros Hrest.
    destruct (IH d s1 s3) as [Hc1 Hd1]; [|done|].
    { eapply Nat.le_lt_trans; [|exact Hf']. apply subseteq_size. set_solver. }
    destruct (IHds s3 s2) as [Hc2 Hd2]; [destruct Hc1; set_solver|done|]. split; [by eapply closed_trans|].
    destruct Hc2 as [Hc2 _]. set_solver. }
  apply Hany in Hr as [[Hsub Hcl] Hds]; [|done]. split; [|set_solver]. split; [set_solver|].
  intros x Hx Hn. destruct (decide (x = start)) as [->|Hne].
  - split; [done|]. intros d (t' & Ht' & Hd). rewrite Hs in Ht'. injection Ht' as <-. by apply Hds.
  - apply Hcl; set_solver.
Qed.

Lemma reaches_from_spec by_id a b : reaches_from by_id a b = true ↔ rtc (depends by_id) a b.
Proof.
  unfold reaches_from. split; [apply reaches_sound|].
  intros Hab. destruct (reaches by_id (S (size by_id)) a b ∅) as [[] seen'] eqn:Hr; [reflexivity|]. exfalso.
  apply reaches_false in Hr as [[_ Hcl] Ha].
  2: { replace (dom by_id ∖ ∅) with (dom by_id) by set_solver. rewrite size_dom. lia. }
  assert (b ∈ seen') as Hb.
  { revert Hab. apply (rtc_ind_r (λ y, y ∈ seen') a); [done|].
    intros y z _ Hyz Hy. destruct (Hcl y Hy ltac:(set_solver)). auto. }
  by destruct (Hcl b Hb ltac:(set_solver)).
Qed.

(** *** The search finds exactly the cycles *)

Section search.
Context (by_id : gmap string TaskSpec).
Implicit Types s : dfs.

(** Consecutive elements of the stack are edges. *)
Fixpoint chain (l : list string) : Prop :=
  match l with a :: ((b :: _) as t) => edge by_id a b ∧ chain t | _ => True end.

Lemma chain_snoc l a b : chain (l ++ [a]) → edge by_id a b → chain (l ++ [a; b]).
Proof.
  intros Hc He. induction l as [|x l IH]; [by split|]. destruct l as [|y l]; cbn in *; [by destruct Hc|].
  destruct Hc as [Hxy Hc]. split; [done|]. by apply IH.
Qed.

Lemma chain_rtc l z x : chain (l ++ [z]) → x ∈ l ++ [z] → rtc (edge by_id) x z.
Proof.
  revert x. induction l as [|y l IH]; intros x; cbn.
  - intros _ ->%list_elem_of_singleton. done.
  - intros Hc Hx. assert (rtc (edge by_id) y z ∧ (x ∈ l ++ [z] → rtc (edge by_id) x z)) as [Hy Hl].
    { destruct l as [|w l]; cbn in *.
      - destruct Hc as [Hyz _]. split; [by apply rtc_once|]. intros ->%list_elem_of_singleton. done.
      - destruct Hc as [Hyw Hc]. split; [|auto]. eapply rtc_l; [done|]. apply IH; [done|by left]. }
    apply elem_of_cons in Hx as [->|Hx]; auto.
Qed.

Lemma deps_edge node d : d ∈ deps_of by_id node → is_Some (by_id !! d) → edge by_id node d.
Proof.
  unfold deps_of. destruct (by_id !! node) as [t|] eqn:Ht; [|set_solver].
  unfold sort_strings. rewrite elem_of_sort_by. intros Hd Hs. split; [by exists t|done].
Qed.
Lemma edge_deps node d : edge by_id node d → d ∈ deps_of by_id node ∧ is_Some (by_id !! d).
Proof.
  intros [(t & Ht & Hd) Hs]. split; [|done]. unfold deps_of. rewrite Ht. unfold sort_strings. by rewrite elem_of_sort_by.
Qed.

(** The state of the search: grey nodes are on the stack, black nodes are in
    the order [fin] in which their visits ended; as long as no cycle was
    recorded, the edges of a black node lead to earlier ones. *)
Record search_inv (s : dfs) (fin : list string) : Prop := {
  si_grey : ∀ n, color s !! n = Some 1%nat ↔ n ∈ stack s;
  si_black : ∀ n, color s !! n = Some 2%nat ↔ n ∈ fin;
  si_range : ∀ n c, color s !! n = Some c → c = 1%nat ∨ c = 2%nat;
  si_stack : NoDup (stack s) ∧ ∀ n, n ∈ stack s → is_Some (by_id !! n);
  si_chain : chain (stack s);
  si_sound : cycles s ≠ [] → ∃ n, tc (edge by_id) n n;
  si_topo : cycles s = [] → ∀ n m i, fin !! i = Some n → edge by_id n m → ∃ j, (j < i)%nat ∧ fin !! j = Some m }.

Definition extends (s s' : dfs) (fin fin' : list string) : Prop :=
  stack s' = stack s ∧ fin `prefix_of` fin' ∧ (cycles s' = [] → cycles s = []).

Lemma add_cycle_nonempty d s : cycles (add_cycle d s) ≠ [].
Proof.
  unfold add_cycle. cbn. case_bool_decide as H; [|by destruct (cycles s)]. intros Hn. rewrite Hn in H. by apply elem_of_nil in H.
Qed.

(** A dependency that is on the stack closes a cycle. *)
Lemma add_cycle_inv s fin stk node d :
  search_inv s fin → stack s = stk ++ [node] → edge by_id node d → d ∈ stack s → search_inv (add_cycle d s) fin.
Proof.
  intros [H1 H2 H3 H4 H5 H6 H7] Hst He Hd. split; cbn [color stack add_cycle]; try done.
  - intros _. exists d. rewrite Hst in *. eapply tc_rtc_l; [by eapply chain_rtc|]. by apply tc_once.
  - intros Hn. by destruct (add_cycle_nonempty d s).
Qed.

Lemma push_inv s fin node :
  search_inv s fin → color s !! node = None → is_Some (by_id !! node) →
  (∀ stk a, stack s = stk ++ [a] → edge by_id a node) →
  search_inv (MkDfs (<[node:=1%nat]> (color s)) (stack s ++ [node]) (cycles s)) fin.
Proof.
  intros [H1 H2 H3 [H4 H4'] H5 H6 H7] Hw Hd He. split; cbn; try done.
  - intros n. rewrite elem_of_app, list_elem_of_singleton. destruct (decide (n = node)) as [->|Hne].
    + rewrite lookup_insert_eq. split; [by right|done].
    + rewrite lookup_insert_ne, H1 by done. split; [by left|]. by intros [?|?].
  - intros n. destruct (decide (n = node)) as [->|Hne].
    + rewrite lookup_insert_eq, <- H2. rewrite Hw. split; discriminate.
    + by rewrite lookup_insert_ne.
  - intros n c. destruct (decide (n = node)) as [->|Hne].
    + rewrite lookup_insert_eq. intros [= <-]. by left.
    + rewrite lookup_insert_ne by done. apply H3.
  - split.
    + apply NoDup_app. split_and!; [done| |apply NoDup_singleton].
      intros x Hx ->%list_elem_of_singleton. apply H1 in Hx. congruence.
    + intros n [Hn| ->%list_elem_of_singleton]%elem_of_app; auto.
  - destruct (stack s) as [|a l] eqn:Hst using rev_ind; [done|]. clear IHl. rewrite <- app_assoc. apply chain_snoc; [done|].
    by eapply He.
Qed.

Lemma pop_inv s fin stk node :
  search_inv s fin → stack s = stk ++ [node] →
  (cycles s = [] → ∀ m, edge by_id node m → m ∈ fin) →
  search_inv (MkDfs (<[node:=2%nat]> (color s)) stk (cycles s)) (fin ++ [node]).
Proof.
  intros [H1 H2 H3 [H4 H4'] H5 H6 H7] Hst Hdone. rewrite Hst in *.
  apply NoDup_app in H4 as (Hnd & Hdis & _).
  split; cbn; try done.
  - intros n. destruct (decide (n = node)) as [->|Hne].
    + rewrite lookup_insert_eq. split; [done|]. intros Hn. destruct (Hdis node Hn). by left.
    + rewrite lookup_insert_ne, H1, elem_of_app, list_elem_of_singleton by done. naive_solver.
  - intros n. rewrite elem_of_app, list_elem_of_singleton. destruct (decide (n = node)) as [->|Hne].
    + rewrite lookup_insert_eq. split; [by right|done].
    + rewrite lookup_insert_ne, H2 by done. naive_solver.
  - intros n c. destruct (decide (n = node)) as [->|Hne].
    + rewrite lookup_insert_eq. intros [= <-]. by right.
    + rewrite lookup_insert_ne by done. apply H3.
  - split; [done|]. intros n Hn. apply H4'. set_solver.
  - destruct stk as [|a l] using rev_ind; [done|]. clear IHl Hdone Hst H1 H4' Hdis Hnd.
    revert H5. generalize (l ++ [a]). clear. intros l. induction l as [|x l IH]; [done|]. cbn.
    destruct l as [|y l]; cbn in *; [done|]. intros [? ?]. split; [done|]. by apply IH.
  - intros Hc n m i Hi He. specialize (H7 Hc). specialize (Hdone Hc).
    apply lookup_app_Some in Hi as [Hi|[Hlen Hi]].
    + destruct (H7 n m i Hi He) as (j & Hj & Hjm). exists j. split; [done|]. by apply lookup_app_l_Some.
    + apply list_lookup_singleton_Some in Hi as [Hi <-].
      destruct (proj1 (list_elem_of_lookup _ _) (Hdone m He)) as [j Hj].
      apply lookup_lt_Some in Hj as Hlt. exists j. split; [lia|]. by apply lookup_app_l_Some.
Qed.

Lemma stack_length s fin node :
  search_inv s fin → color s !! node = None → is_Some (by_id !! node) → (length (stack s) < size by_id)%nat.
Proof.
  intros [H1 _ _ [H4 H4'] _ _ _] Hw Hd.
  assert (NoDup (node :: stack s)) as Hn.
  { constructor; [|done]. rewrite <- H1. congruence. }
  rewrite <- size_dom. rewrite <- (size_list_to_set (C := gset string) (stack s)) by done.
  apply subset_size. split.
  - intros x Hx%elem_of_list_to_set. apply elem_of_dom. auto.
  - intros Hsub. assert (node ∈ (list_to_set (stack s) : gset string)) as Hin by (apply Hsub, elem_of_dom; done).
    apply elem_of_list_to_set, H1 in Hin. congruence.
Qed.

(** One call: with enough fuel, the node is finished, the stack is restored. *)
Lemma visit_spec fuel node s fin :
  (size by_id ≤ length (stack s) + fuel)%nat →
  search_inv s fin → color s !! node = None → is_Some (by_id !! node) →
  (∀ stk a, stack s = stk ++ [a] → edge by_id a node) →
  ∃ fin', search_inv (visit by_id fuel node s) fin' ∧ extends s (visit by_id fuel node s) fin fin' ∧ node ∈ fin'.
Proof.
  revert node s fin. induction fuel as [|fuel IH]; intros node s fin Hfuel Hinv Hw Hd He.
  { pose proof (stack_length s fin node Hinv Hw Hd). lia. }
  cbn [visit]. cbv zeta.
  pose proof (push_inv s fin node Hinv Hw Hd He) as Hpush.
  set (s1 := MkDfs (<[node:=1%nat]> (color s)) (stack s ++ [node]) (cycles s)) in *.
  set (body := λ s dep, _).
  assert (∀ ds s2 fin2, (∀ d, d ∈ ds → d ∈ deps_of by_id node) → search_inv s2 fin2 → stack s2 = stack s ++ [node] →
    ∃ fin3, search_inv (foldl body s2 ds) fin3 ∧ extends s2 (foldl body s2 ds) fin2 fin3 ∧
      (cycles (foldl body s2 ds) = [] → ∀ d, d ∈ ds → is_Some (by_id !! d) → d ∈ fin3)) as Hloop.
  { induction ds as [|d ds IHds]; intros s2 fin2 Hds Hinv2 Hst2.
    - exists fin2. split_and!; try done. set_solver.
    - assert (∃ fin3, search_inv (body s2 d) fin3 ∧ extends s2 (body s2 d) fin2 fin3 ∧
        (cycles (body s2 d) = [] → is_Some (by_id !! d) → d ∈ fin3)) as (fin3 & Hi3 & (Hst3 & Hpre3 & Hcy3) & Hd3).
      { unfold body. case_bool_decide as Hdom; cbn [negb]; [|by exists fin2].
        assert (edge by_id node d) as Hedge by (apply deps_edge; [apply Hds; by left|done]).
        destruct (color s2 !! d) as [c|] eqn:Hc; cbn [default].
        - pose proof Hinv2 as [Hgrey Hblack Hrange _ _ _ _]. destruct (Hrange d c Hc) as [-> | ->]; cbn.
          + exists fin2. split_and!.
            * eapply add_cycle_inv; [done|done|done|]. by apply Hgrey.
            * split_and!; [done|done|]. intros Hn. by destruct (add_cycle_nonempty d s2).
            * intros Hn. by destruct (add_cycle_nonempty d s2).
          + exists fin2. split_and!; try done. intros _ _. by apply Hblack.
        - destruct (IH d s2 fin2) as (fin3 & ? & ? & ?); [|done..| |by exists fin3].
          + rewrite Hst2, length_app. cbn. lia.
          + intros stk a Hst. rewrite Hst2 in Hst. apply app_inj_tail in Hst as [_ <-]. done. }
      destruct (IHds (body s2 d) fin3) as (fin4 & Hi4 & (Hst4 & Hpre4 & Hcy4) & Hd4);
        [intros; apply Hds; by right|done|congruence|].
      exists fin4. split_and!; [done| |].
      + split_and!; [cbn; congruence|by etrans|auto].
      + intros Hn d' [->|Hd']%elem_of_cons Hs; [|by apply Hd4].
        eapply elem_of_prefix; [|done]. auto. }
  destruct (Hloop (deps_of by_id node) s1 fin) as (fin2 & Hi2 & (Hst2 & Hpre2 & Hcy2) & Hd2); [done|done|done|].
  set (s2 := foldl body s1 (deps_of by_id node)) in *.
  exists (fin2 ++ [node]). replace (take (length (stack s2) - 1) (stack s2)) with (stack s).
  - split_and!; [| |set_solver].
    + apply pop_inv; [done|done|]. intros Hn m Hm. apply edge_deps in Hm as [? ?]. by apply Hd2.
    + split_and!; [done|by apply prefix_app_r|done].
  - rewrite Hst2. cbn [stack s1]. rewrite length_app. cbn [length].
    by rewrite Nat.add_sub, take_app_length.
Qed.
End search.

Lemma init_inv by_id : search_inv by_id (MkDfs ∅ [] []) [].
Proof.
  split; cbn; try done.
  - intros n. rewrite lookup_empty. split; [done|]. by intros ?%elem_of_nil.
  - intros n. rewrite lookup_empty. split; [done|]. by intros ?%elem_of_nil.
  - split; [constructor|]. by intros n ?%elem_of_nil.
Qed.

Lemma find_cycles_inv by_id ids :
  (∀ i, i ∈ ids → is_Some (by_id !! i)) →
  ∃ s fin, search_inv by_id s fin ∧ stack s = [] ∧ cycles s = find_cycles by_id ids ∧
           ∀ i, i ∈ ids → i ∈ fin.
Proof.
  intros Hids. unfold find_cycles. set (body := λ s i, _).
  assert (∀ ids s fin, (∀ i, i ∈ ids → is_Some (by_id !! i)) → search_inv by_id s fin → stack s = [] →
    ∃ fin', search_inv by_id (foldl body s ids) fin' ∧ stack (foldl body s ids) = [] ∧
      fin `prefix_of` fin' ∧ ∀ i, i ∈ ids → i ∈ fin') as Hloop.
  { clear ids Hids. induction ids as [|i ids IH]; intros s fin Hids Hinv Hst.
    - exists fin. split_and!; try done. by intros i ?%elem_of_nil.
    - assert (∃ fin', search_inv by_id (body s i) fin' ∧ stack (body s i) = [] ∧ fin `prefix_of` fin' ∧ i ∈ fin')
        as (fin' & Hi' & Hst' & Hpre & Hin).
      { unfold body. destruct (color s !! i) as [c|] eqn:Hc; cbn [default].
        - pose proof Hinv as [Hgrey Hblack Hrange _ _ _ _]. destruct (Hrange i c Hc) as [-> | ->]; cbn.
          + apply Hgrey in Hc. rewrite Hst in Hc. by apply elem_of_nil in Hc.
          + exists fin. split_and!; try done. by apply Hblack.
        - destruct (visit_spec by_id (size by_id) i s fin) as (fin' & Hi' & (Hst' & Hpre & _) & Hin);
            [rewrite Hst; cbn; lia|done|done|apply Hids; by left| |].
          + rewrite Hst. intros stk a Hnil. by destruct stk.
          + exists fin'. cbn. split_and!; try done. congruence. }
      destruct (IH (body s i) fin') as (fin2 & Hi2 & Hst2 & Hpre2 & Hin2); [intros; apply Hids; by right|done|done|].
      exists fin2. cbn. split_and!; [done|done|by etrans|]. intros j [->|Hj]%elem_of_cons; [|auto].
      by eapply elem_of_prefix. }
  destruct (Hloop ids _ _ Hids (init_inv by_id) eq_refl) as (fin & Hi & Hst & _ & Hin). eauto 10.
Qed.

Lemma topo_acyclic by_id (fin : list string) :
  (∀ n, is_Some (by_id !! n) → n ∈ fin) →
  (∀ n m i, fin !! i = Some n → edge by_id n m → ∃ j, (j < i)%nat ∧ fin !! j = Some m) →
  acyclic by_id.
Proof.
  intros Hall Htopo n Hn.
  assert (∀ i a b, fin !! i = Some a → tc (edge by_id) a b → ∃ j, (j < i)%nat ∧ fin !! j = Some b) as Htc.
  { intros i a b Hi Hab. revert i Hi. induction Hab as [a b Hab|a b c Hab _ IH]; intros i Hi; [by eapply Htopo|].
    destruct (Htopo _ _ _ Hi Hab) as (j & Hj & Hjb). destruct (IH j Hjb) as (k & ? & ?). exists k. split; [lia|done]. }
  assert (∀ i, fin !! i ≠ Some n) as Hno.
  { intros i. induction (lt_wf i) as [i _ IH]. intros Hi. destruct (Htc i n n Hi Hn) as (j & Hj & Hjn). by eapply IH. }
  assert (is_Some (by_id !! n)) as Hd.
  { assert (∃ m, edge by_id n m) as (m & (t & Ht & _) & _) by (inversion Hn; subst; eauto). by exists t. }
  apply Hall, list_elem_of_lookup in Hd as [i Hi]. by destruct (Hno i).
Qed.

Lemma find_cycles_spec by_id ids :
  (∀ i, i ∈ ids ↔ is_Some (by_id !! i)) → find_cycles by_id ids = [] ↔ acyclic by_id.
Proof.
  intros Hids. destruct (find_cycles_inv by_id ids) as (s & fin & [_ _ _ _ _ Hs Ht] & _ & <- & Hin);
    [intros; by apply Hids|]. split.
  - intros Hnil. apply (topo_acyclic by_id fin); [intros n Hn; by apply Hin, Hids|by apply Ht].
  - intros Hac. destruct (cycles s) as [|c cs]; [done|]. destruct Hs as [n Hn]; [done|]. by destruct (Hac n).
Qed.

(** *** Lists of messages are empty exactly when the condition holds *)

Lemma sort_by_nil {A} (leb : A → A → bool) l : sort_by leb l = [] ↔ l = [].
Proof.
  split; [|by intros ->]. intros H. apply Permutation_nil_r. by rewrite <- H, sort_by_perm.
Qed.

Lemma flat_map_nil {A B} (f : A → list B) l : flat_map f l = [] ↔ ∀ x, x ∈ l → f x = [].
Proof.
  induction l as [|x l IH]; cbn; [set_solver|]. split.
  - intros [Hx Hl]%app_eq_nil y [->|Hy]%elem_of_cons; [done|]. by apply IH.
  - intros H. rewrite (H x) by (by left). apply IH. intros y Hy. apply H. by right.
Qed.

Lemma map_nil {A B} (f : A → B) l : map f l = [] ↔ l = [].
Proof. destruct l; cbn; split; congruence. Qed.

Lemma overlaps_nil l r : overlaps l r = [] ↔ ∀ a b, a ∈ l → b ∈ r → _path_overlap a b = false.
Proof.
  unfold overlaps. rewrite flat_map_nil. split.
  - intros H a b Ha Hb. specialize (H a). rewrite elem_of_sorted_set, flat_map_nil in H.
    specialize (H Ha b). rewrite elem_of_sorted_set in H. specialize (H Hb). by destruct (_path_overlap a b).
  - intros H a Ha. rewrite elem_of_sorted_set in Ha. apply flat_map_nil. intros b Hb. rewrite elem_of_sorted_set in Hb.
    by rewrite H.
Qed.

Lemma path_overlap_sym a b : _path_overlap a b = _path_overlap b a.
Proof.
  unfold _path_overlap. rewrite (bool_decide_ext (strip_slashes a = _) (strip_slashes b = strip_slashes a)) by (by split).
  rewrite <- !orb_assoc. f_equal. apply orb_comm.
Qed.

(** Two tasks of a wave that no dependency orders. *)
Definition unordered (by_id : gmap string TaskSpec) (a b : TaskSpec) : Prop :=
  py_eqb (t_wave a) (t_wave b) = true ∧ ¬ rtc (depends by_id) (t_id a) (t_id b) ∧ ¬ rtc (depends by_id) (t_id b) (t_id a).

Lemma parallel_spec by_id a b : _parallel by_id a b = true ↔ unordered by_id a b.
Proof.
  unfold _parallel, unordered. destruct (py_eqb _ _); cbn; [|naive_solver].
  rewrite andb_true_iff, !negb_true_iff, <- !not_true_iff_false, !reaches_from_spec. naive_solver.
Qed.

Lemma all_pairs_nil by_id ts :
  all_pair_conflicts by_id ts = [] ↔
  ∀ i j a b, (i < j)%nat → ts !! i = Some a → ts !! j = Some b → pair_conflicts by_id a b = [].
Proof.
  induction ts as [|t ts IH]; [split; [intros _ i j a b _ Hi; by rewrite lookup_nil in Hi|done]|].
  cbn [all_pair_conflicts]. split.
  - intros [H1 H2]%app_eq_nil [|i] [|j] a b Hij Hi Hj; try lia; cbn in *.
    + injection Hi as <-. rewrite flat_map_nil in H1. apply H1. by eapply list_elem_of_lookup_2.
    + rewrite IH in H2. apply (H2 i j); (done || lia).
  - intros H. rewrite (proj2 (flat_map_nil _ _)), (proj2 IH); [done| |].
    + intros i j a b Hij Hi Hj. apply (H (S i) (S j)); (done || lia).
    + intros x [j Hj]%list_elem_of_lookup. apply (H 0%nat (S j)); (done || lia).
Qed.

Lemma pair_conflicts_nil by_id a b :
  pair_conflicts by_id a b = [] ↔
  (unordered by_id a b → ∀ x y, x ∈ t_allowed_paths a → y ∈ t_allowed_paths b → _path_overlap x y = false).
Proof.
  unfold pair_conflicts. pose proof (parallel_spec by_id a b) as Hp. destruct (_parallel by_id a b); cbn [negb].
  - rewrite map_nil, overlaps_nil. intuition.
  - split; [|done]. intros _ Hu. apply Hp in Hu. discriminate.
Qed.

Lemma sort_tasks_sorted ts : StronglySorted (λ a b, String.leb (t_id a) (t_id b) = true) (sort_tasks ts).
Proof.
  unfold sort_tasks. apply (sort_by_sorted (λ a b, String.leb (t_id a) (t_id b))).
  - intros a b. apply leb_str_total.
  - intros a b c. apply leb_str_trans.
Qed.

Lemma sorted_lookup {A} (R : A → A → Prop) l i j a b :
  StronglySorted R l → (i < j)%nat → l !! i = Some a → l !! j = Some b → R a b.
Proof.
  intros Hs. revert i j. induction Hs as [|x l Hs IH Hx]; intros [|i] [|j] Hij Hi Hj; try lia; try done; cbn in *.
  - injection Hi as <-. rewrite Forall_forall in Hx. apply Hx. by eapply list_elem_of_lookup_2.
  - apply (IH i j); (done || lia).
Qed.

Lemma ownership_pairs ts by_id :
  NoDup (map t_id ts) →
  (∀ i j a b, (i < j)%nat → sort_tasks ts !! i = Some a → sort_tasks ts !! j = Some b → pair_conflicts by_id a b = []) ↔
  (∀ a b, a ∈ ts → b ∈ ts → String.leb (t_id a) (t_id b) = true → t_id a ≠ t_id b → pair_conflicts by_id a b = []).
Proof.
  intros Hnd. split.
  - intros H a b Ha Hb Hle Hne. rewrite <- elem_of_sort_tasks in Ha, Hb.
    apply list_elem_of_lookup in Ha as [i Hi]. apply list_elem_of_lookup in Hb as [j Hj].
    destruct (lt_eq_lt_dec i j) as [[Hij| ->]|Hji]; [by eapply H| |].
    + congruence.
    + pose proof (sorted_lookup _ _ _ _ _ _ (sort_tasks_sorted ts) Hji Hj Hi) as Hle'. cbn in Hle'.
      destruct Hne. by apply leb_str_antisym.
  - intros H i j a b Hij Hi Hj. apply H.
    + apply elem_of_sort_tasks. by eapply list_elem_of_lookup_2.
    + apply elem_of_sort_tasks. by eapply list_elem_of_lookup_2.
    + exact (sorted_lookup _ _ _ _ _ _ (sort_tasks_sorted ts) Hij Hi Hj).
    + intros Heq. assert (NoDup (map t_id (sort_tasks ts))) as Hnd'.
      { unfold sort_tasks. rewrite sort_by_perm. done. }
      enough (i = j) by lia. eapply (NoDup_lookup (map t_id (sort_tasks ts)) i j (t_id a)); [done|..].
      * rewrite list_lookup_fmap, Hi. done.
      * rewrite list_lookup_fmap, Hj. cbn. congruence.
Qed.

(** ** The specification of [validate_plan] *)

(** A plan that can be executed. *)
Record valid_plan (p : FleetPlan) : Prop := {
  vp_refs : ∀ t d, t ∈ tasks p → d ∈ t_depends_on t → d ∈ map t_id (tasks p);
  vp_acyclic : acyclic (by_id_of (tasks p));
  vp_gates : ∀ w g, w ∈ waves p → g ∈ w_gates w → g ∈ map g_id (gates p);
  vp_contract : ∀ t, t ∈ tasks p → blank (t_id t) = false ∧ blank (t_role t) = false ∧ blank (t_objective t) = false ∧
    t_acceptance_criteria t ≠ [] ∧ t_outputs t ≠ [] ∧ t_validation_commands t ≠ [];
  vp_own : ∀ t a f, t ∈ tasks p → a ∈ t_allowed_paths t → f ∈ t_forbidden_paths t → _path_overlap a f = false;
  vp_parallel : ∀ a b x y, a ∈ tasks p → b ∈ tasks p → String.leb (t_id a) (t_id b) = true → t_id a ≠ t_id b →
    unordered (by_id_of (tasks p)) a b → x ∈ t_allowed_paths a → y ∈ t_allowed_paths b → _path_overlap x y = false }.

Lemma missing_nil p :
  missing_dependencies p = [] ↔ ∀ t d, t ∈ tasks p → d ∈ t_depends_on t → d ∈ map t_id (tasks p).
Proof.
  unfold missing_dependencies. rewrite flat_map_nil. split.
  - intros H t d Ht Hd. rewrite <- elem_of_sort_tasks in Ht. specialize (H t Ht). rewrite flat_map_nil in H.
    specialize (H d). rewrite elem_of_sorted_set in H. specialize (H Hd).
    case_bool_decide as Hs; [by apply by_id_dom|done].
  - intros H t Ht. rewrite elem_of_sort_tasks in Ht. apply flat_map_nil. intros d Hd. rewrite elem_of_sorted_set in Hd.
    rewrite bool_decide_true; [done|]. apply by_id_dom. by eapply H.
Qed.

Lemma plan_cycles_nil p : plan_cycles p = [] ↔ acyclic (by_id_of (tasks p)).
Proof. apply find_cycles_spec. intros i. by rewrite elem_of_sorted_set, by_id_dom. Qed.

Lemma app_nil_iff {A} (l1 l2 : list A) : l1 ++ l2 = [] ↔ l1 = [] ∧ l2 = [].
Proof. split; [apply app_eq_nil|by intros [-> ->]]. Qed.

Lemma validate_dag_nil p :
  validate_dag p = [] ↔
  (∀ t d, t ∈ tasks p → d ∈ t_depends_on t → d ∈ map t_id (tasks p)) ∧ acyclic (by_id_of (tasks p)).
Proof.
  unfold validate_dag, sort_strings. by rewrite sort_by_nil, app_nil_iff, map_nil, sort_by_nil, missing_nil, plan_cycles_nil.
Qed.

Lemma wave_gates_nil p :
  validate_wave_gates p = [] ↔ ∀ w g, w ∈ waves p → g ∈ w_gates w → g ∈ map g_id (gates p).
Proof.
  unfold validate_wave_gates, sort_strings. rewrite sort_by_nil, flat_map_nil. setoid_rewrite elem_of_sort_by. split.
  - intros H w g Hw Hg. specialize (H w Hw). rewrite flat_map_nil in H. specialize (H g).
    rewrite elem_of_sorted_set in H. specialize (H Hg). by case_bool_decide.
  - intros H w Hw. apply flat_map_nil. intros g Hg. rewrite elem_of_sorted_set in Hg.
    rewrite bool_decide_true; [done|]. by eapply H.
Qed.

Lemma contract_nil t :
  validate_task_contract t = [] ↔
  blank (t_id t) = false ∧ blank (t_role t) = false ∧ blank (t_objective t) = false ∧
  t_acceptance_criteria t ≠ [] ∧ t_outputs t ≠ [] ∧ t_validation_commands t ≠ [].
Proof.
  unfold validate_task_contract. rewrite !app_nil_iff.
  destruct (blank (t_id t)), (blank (t_role t)), (blank (t_objective t)), (t_acceptance_criteria t), (t_outputs t),
    (t_validation_commands t); cbn; intuition discriminate.
Qed.

Lemma ownership_nil p :
  NoDup (map t_id (tasks p)) →
  validate_ownership p = [] ↔
  (∀ t a f, t ∈ tasks p → a ∈ t_allowed_paths t → f ∈ t_forbidden_paths t → _path_overlap a f = false) ∧
  (∀ a b x y, a ∈ tasks p → b ∈ tasks p → String.leb (t_id a) (t_id b) = true → t_id a ≠ t_id b →
    unordered (by_id_of (tasks p)) a b → x ∈ t_allowed_paths a → y ∈ t_allowed_paths b → _path_overlap x y = false).
Proof.
  intros Hnd. unfold validate_ownership, sort_strings. rewrite sort_by_nil, app_nil_iff, flat_map_nil, all_pairs_nil,
    (ownership_pairs _ _ Hnd). split; intros [H1 H2]; split.
  - intros t a f Ht. rewrite <- elem_of_sort_tasks in Ht. specialize (H1 t Ht). unfold own_conflicts in H1.
    rewrite map_nil, overlaps_nil in H1. apply H1.
  - intros a b x y Ha Hb Hle Hne Hu. specialize (H2 a b Ha Hb Hle Hne). rewrite pair_conflicts_nil in H2. by apply H2.
  - intros t Ht. rewrite elem_of_sort_tasks in Ht. unfold own_conflicts. rewrite map_nil, overlaps_nil.
    intros a f Ha Hf. by eapply H1.
  - intros a b Ha Hb Hle Hne. apply pair_conflicts_nil. intros Hu x y Hx Hy. by eapply (H2 a b).
Qed.

Lemma all_errors_nil p : NoDup (map t_id (tasks p)) → all_errors p = [] ↔ valid_plan p.
Proof.
  intros Hnd. unfold all_errors.
  rewrite !app_nil_iff, validate_dag_nil, wave_gates_nil, ownership_nil, flat_map_nil by done.
  setoid_rewrite elem_of_sort_tasks. setoid_rewrite contract_nil. split.
  - intros ([? ?] & ? & ? & [? ?]). by split.
  - intros [? ? ? ? ? ?]. done.
Qed.

Lemma from_dict_ids v p : from_dict (inr v) = Ok p → NoDup (map t_id (tasks p)).
Proof. intros H. apply from_dict_wf in H. by destruct H as [_ _ _ [? _] _]. Qed.

(** *** Waves *)

Definition no_space (s : string) : bool := str_forallb (λ c, negb (is_space c)) s.

Lemma strip_no_space s : no_space s = true → strip s = s.
Proof.
  intros H. assert (∀ p s, str_forallb (λ c, negb (p c)) s = true → rstrip_by p s = s) as Hr.
  { clear. intros p s. induction s as [|c s IH]; cbn; [done|]. intros [Hc Hs]%andb_true_iff. rewrite (IH Hs).
    apply negb_true_iff in Hc. destruct s; [by rewrite Hc|done]. }
  unfold strip, strip_by. replace (lstrip_by is_space s) with s; [by apply Hr|].
  destruct s as [|c s]; [done|]. cbn in *. apply andb_true_iff in H as [Hc _]. apply negb_true_iff in Hc. by rewrite Hc.
Qed.

Lemma pretty_N_char_digit x :
  (x < 10)%N → is_digit (pretty_N_char x) = true ∧ digit_val (pretty_N_char x) = Z.of_N x ∧ is_space (pretty_N_char x) = false.
Proof.
  intros H. assert (forallb (λ n, is_digit (pretty_N_char n) && (digit_val (pretty_N_char n) =? Z.of_N n)%Z &&
    negb (is_space (pretty_N_char n))) (map N.of_nat (seq 0 10)) = true) as Hall by reflexivity.
  rewrite forallb_true_iff in Hall. specialize (Hall x).
  assert (x ∈ map N.of_nat (seq 0 10)) as Hx.
  { apply list_elem_of_fmap. exists (N.to_nat x). rewrite N2Nat.id. split; [done|]. apply elem_of_seq. lia. }
  specialize (Hall Hx). by bool_inv.
Qed.

Lemma int_digits_pretty x s :
  (0 < x)%N → ∃ k, (0 < k)%Z ∧ ∀ acc prev, int_digits acc prev (pretty_N_go x s) = int_digits (acc * k + Z.of_N x) true s.
Proof.
  revert s. induction (N.lt_wf_0 x) as [x _ IH]. intros s Hx. rewrite pretty_N_go_step by done.
  destruct (pretty_N_char_digit (x mod 10)) as (Hd & Hv & _); [apply N.mod_lt; lia|].
  destruct (decide (x / 10 = 0)%N) as [Hz|Hz].
  - rewrite Hz, pretty_N_go_0. exists 10%Z. split; [lia|]. intros acc prev. cbn [int_digits]. rewrite Hd, Hv. f_equal.
    pose proof (N.div_mod x 10). lia.
  - destruct (IH (x / 10)%N) with (s := String (pretty_N_char (x mod 10)) s) as (k & Hk & Hgo);
      [apply N.div_lt; lia|by apply N.neq_0_lt_0|].
    exists (10 * k)%Z. split; [lia|]. intros acc prev. rewrite Hgo. cbn [int_digits]. rewrite Hd, Hv. f_equal.
    pose proof (N.div_mod x 10). nia.
Qed.

Lemma no_space_pretty x s : no_space s = true → no_space (pretty_N_go x s) = true.
Proof.
  revert s. induction (N.lt_wf_0 x) as [x _ IH]. intros s Hs. destruct (decide (x = 0)%N) as [->|Hx]; [done|].
  rewrite pretty_N_go_step by lia. apply IH; [apply N.div_lt; lia|]. unfold no_space. cbn.
  destruct (pretty_N_char_digit (x mod 10)) as (_ & _ & ->); [apply N.mod_lt; lia|]. done.
Qed.

Lemma head_digit x s : (0 < x)%N → ∃ c t, pretty_N_go x s = String c t ∧ is_digit c = true.
Proof.
  revert s. induction (N.lt_wf_0 x) as [x _ IH]. intros s Hx. rewrite pretty_N_go_step by done.
  destruct (pretty_N_char_digit (x mod 10)) as (Hd & _); [apply N.mod_lt; lia|].
  destruct (decide (x / 10 = 0)%N) as [Hz|Hz]; [rewrite Hz, pretty_N_go_0; eauto|].
  apply IH; [apply N.div_lt; lia|by apply N.neq_0_lt_0].
Qed.

Lemma int_of_str_of_Z z : int_of_str (str_of_Z z) = Some z.
Proof.
  assert (∀ p, let s := pretty_N_go (Npos p) "" in strip s = s ∧ int_digits 0 false s = Some (Zpos p) ∧
    ∃ c t, s = String c t ∧ is_digit c = true) as Hp.
  { intros p s. split; [by apply strip_no_space, no_space_pretty|]. split; [|by apply head_digit].
    destruct (int_digits_pretty (Npos p) "") as (k & _ & Hk); [lia|]. subst s. rewrite Hk. done. }
  destruct z as [|p|p]; [reflexivity| |].
  - destruct (Hp p) as (Hs & Hi & c & t & Hc & Hd). unfold int_of_str.
    change (str_of_Z (Zpos p)) with (pretty_N_go (Npos p) ""). rewrite Hs. rewrite Hc in *.
    replace (code c =? 43)%nat with false; [replace (code c =? 45)%nat with false; [done|]|];
      symmetry; apply Nat.eqb_neq; intros He; unfold is_digit, between in Hd; rewrite He in Hd; discriminate.
  - destruct (Hp p) as (Hs & Hi & c & t & Hc & Hd). unfold int_of_str.
    change (str_of_Z (Zneg p)) with (String "-"%char (pretty_N_go (Npos p) "")).
    assert (strip (String "-"%char (pretty_N_go (Npos p) "")) = String "-"%char (pretty_N_go (Npos p) "")) as ->.
    { apply strip_no_space. change (no_space (pretty_N_go (Npos p) "") = true). by apply no_space_pretty. }
    cbn -[pretty_N_go int_digits]. by rewrite Hi.
Qed.

Lemma str_drop_app p s : str_drop (String.length p) (p +:+ s) = s.
Proof. induction p as [|c p IH]; [by destruct s|exact IH]. Qed.
Lemma removeprefix_app p s : removeprefix (p +:+ s) p = s.
Proof. unfold removeprefix. by rewrite startswith_app, str_drop_app. Qed.

(** The candidate of a canonical wave identifier. *)
Lemma canonical_wave_cases v :
  ∃ c, canonical_wave_id v = "wave-" +:+ c ∧
    wave_key (canonical_wave_id v) = (match int_of_str c with Some n => inl n | None => inr ("wave-" +:+ c) end) ∧
    (∀ n, int_of_str c = Some n → c = str_of_Z n).
Proof.
  unfold canonical_wave_id. cbv zeta. destruct (int_of_str (removeprefix _ _)) as [n|] eqn:Hn.
  - exists (str_of_Z n). split; [done|]. unfold wave_key. rewrite removeprefix_app. split; [done|].
    rewrite int_of_str_of_Z. by intros m [= ->].
  - eexists. split; [done|]. unfold wave_key. rewrite removeprefix_app. split; [done|]. rewrite Hn. done.
Qed.

Lemma wave_key_inj v w :
  wave_key (canonical_wave_id v) = wave_key (canonical_wave_id w) → canonical_wave_id v = canonical_wave_id w.
Proof.
  destruct (canonical_wave_cases v) as (c & Hv & Kv & Hc), (canonical_wave_cases w) as (d & Hw & Kw & Hd).
  rewrite Kv, Kw, Hv, Hw.
  destruct (int_of_str c) as [n|] eqn:En, (int_of_str d) as [m|] eqn:Em; try discriminate.
  - intros [= ->]. by rewrite (Hc m), (Hd m).
  - intros H. exact (f_equal (λ k : Z + string, match k with inr s => s | inl _ => c end) H).
Qed.

Lemma key_leb_total a b : key_leb a b = true ∨ key_leb b a = true.
Proof. destruct a as [x|x], b as [y|y]; cbn; auto using leb_str_total. destruct (Z.leb_spec x y); [by left|]. right. apply Z.leb_le. lia. Qed.
Lemma key_leb_trans a b c : key_leb a b = true → key_leb b c = true → key_leb a c = true.
Proof.
  destruct a as [x|x], b as [y|y], c as [z|z]; cbn; try done; [|apply leb_str_trans].
  rewrite !Z.leb_le. lia.
Qed.
Lemma key_leb_antisym a b : key_leb a b = true → key_leb b a = true → a = b.
Proof.
  destruct a as [x|x], b as [y|y]; cbn; try done; [rewrite !Z.leb_le; intros; f_equal; lia|].
  intros. f_equal. by apply leb_str_antisym.
Qed.

(** Wave [a] comes strictly before wave [b]: numbered waves by their number,
    then the others by name. *)
Definition wave_before (a b : TaskSpec) : Prop :=
  let ka := wave_key (canonical_wave_id (t_wave a)) in
  let kb := wave_key (canonical_wave_id (t_wave b)) in
  key_leb ka kb = true ∧ ka ≠ kb.

Lemma index_of_lookup x l : x ∈ l → l !! index_of x l = Some x.
Proof.
  induction l as [|y l IH]; [by intros ?%elem_of_nil|]. cbn. destruct (String.eqb_spec x y) as [->|Hne]; [done|].
  intros [->|H]%elem_of_cons; [done|]. by apply IH.
Qed.

Lemma wave_index_spec ts a b :
  a ∈ ts → b ∈ ts →
  (index_of (canonical_wave_id (t_wave a)) (wave_values ts) < index_of (canonical_wave_id (t_wave b)) (wave_values ts))%nat ↔
  wave_before a b.
Proof.
  intros Ha Hb. set (wa := canonical_wave_id (t_wave a)). set (wb := canonical_wave_id (t_wave b)).
  assert (∀ t, t ∈ ts → canonical_wave_id (t_wave t) ∈ wave_values ts) as Hin.
  { intros t Ht. unfold wave_values. rewrite elem_of_sort_by, elem_of_remove_dups. apply list_elem_of_fmap. by exists t. }
  pose proof (index_of_lookup _ _ (Hin a Ha)) as Hla. pose proof (index_of_lookup _ _ (Hin b Hb)) as Hlb.
  fold wa in Hla. fold wb in Hlb.
  assert (StronglySorted (λ x y, key_leb (wave_key x) (wave_key y) = true) (wave_values ts)) as Hs.
  { apply (sort_by_sorted (λ x y, key_leb (wave_key x) (wave_key y))); intros; eauto using key_leb_total, key_leb_trans. }
  unfold wave_before. fold wa wb. split.
  - intros Hlt. split; [exact (sorted_lookup _ _ _ _ _ _ Hs Hlt Hla Hlb)|]. intros Heq. apply wave_key_inj in Heq.
    fold wa wb in Heq. rewrite Heq in Hlt. lia.
  - intros [Hle Hne]. destruct (lt_eq_lt_dec (index_of wa (wave_values ts)) (index_of wb (wave_values ts))) as [[?|He]|Hgt]; [done| |].
    + exfalso. apply Hne. rewrite He in Hla. congruence.
    + exfalso. apply Hne. apply key_leb_antisym; [done|]. exact (sorted_lookup _ _ _ _ _ _ Hs Hgt Hlb Hla).
Qed.

(** A task that can start. *)
Record ready (p : FleetPlan) (terminal passed : list string) (t : TaskSpec) : Prop := {
  r_status : t_status t ∈ ["pending"; "ready"];
  r_deps : ∀ d, d ∈ t_depends_on t → d ∈ terminal;
  r_barrier : ∀ o, o ∈ tasks p → wave_before o t → t_id o ∈ terminal;
  r_gates : ∀ w g, w ∈ waves p → canonical_wave_id (VStr (w_id w)) = canonical_wave_id (t_wave t) → g ∈ w_gates w → g ∈ passed }.

Lemma is_ready_spec p terminal passed t :
  t ∈ tasks p → is_ready p terminal passed t = true ↔ ready p terminal passed t.
Proof.
  intros Ht. unfold is_ready. split.
  - destruct (negb _ || negb _) eqn:H1; [done|]. bool_inv. destruct (existsb _ (tasks p)) eqn:H2; [done|]. intros H3.
    rewrite forallb_true_iff in H0, H3. rewrite existsb_false_iff in H2. split; [done| | |].
    + intros d Hd. specialize (H0 d Hd). by bool_inv.
    + intros o Ho Hb. specialize (H2 o Ho). rewrite <- (wave_index_spec (tasks p)) in Hb by done. cbv beta zeta in H2.
      rewrite (proj2 (Nat.ltb_lt _ _) Hb) in H2. cbn [andb] in H2. by bool_inv.
    + intros w g Hw Heq Hg. assert (g ∈ required_gates p t) as Hr; [|specialize (H3 g Hr); by bool_inv].
      unfold required_gates. apply list_elem_of_In, in_flat_map. exists w.
      split; [by apply list_elem_of_In|]. rewrite bool_decide_true by done. by apply list_elem_of_In.
  - intros [H1 H2 H3 H4]. rewrite bool_decide_true by done.
    rewrite (proj2 (forallb_true_iff _ (t_depends_on t))) by (intros d Hd; apply bool_decide_eq_true_2; auto). cbn [negb orb].
    rewrite (proj2 (existsb_false_iff _ (tasks p))).
    + apply forallb_true_iff. intros g Hg. apply bool_decide_eq_true_2. unfold required_gates in Hg.
      apply list_elem_of_In, in_flat_map in Hg as (w & Hw & Hg). apply list_elem_of_In in Hw.
      case_bool_decide; [|by apply in_nil in Hg]. apply list_elem_of_In in Hg. by eapply H4.
    + intros o Ho. destruct (_ <? _)%nat eqn:Hlt; [|done]. apply Nat.ltb_lt in Hlt.
      apply wave_index_spec in Hlt; [|done..]. rewrite bool_decide_true; [done|]. by apply H3.
Qed.

Lemma elem_of_terminal p completed skipped i :
  i ∈ terminal_ids p completed skipped ↔
  i ∈ completed ∨ i ∈ skipped ∨ ∃ t, t ∈ tasks p ∧ t_id t = i ∧ t_status t ∈ ["completed"; "skipped"].
Proof.
  unfold terminal_ids. rewrite !elem_of_app. do 2 f_equiv. rewrite list_elem_of_In, in_flat_map. split.
  - intros (t & Ht & Hi). apply list_elem_of_In in Ht. case_bool_decide; [|by apply in_nil in Hi].
    apply list_elem_of_In, list_elem_of_singleton in Hi as ->. eauto.
  - intros (t & Ht & <- & Hs). exists t. split; [by apply list_elem_of_In|]. rewrite bool_decide_true by done. by left.
Qed.

(** ** Properties *)

(** A plan with a cycle and one with none. *)
Definition cyclic_doc : pyval :=
  obj [("tasks", VList [demo_task "a" ["b"]; demo_task "b" ["c"]; demo_task "c" ["a"]; demo_task "d" ["ghost"]])].
Definition plan_of (v : pyval) : FleetPlan :=
  match from_dict (inr v) with Ok p => p | Err _ => MkPlan "" [] [] [] [] end.

(** C3: the graph checks are exact.  [validate_dag] reports nothing if and only
    if every dependency of every task exists and the dependency graph has no
    cycle; its depth-first search always ends within the given fuel. *)
Theorem validate_dag_exact (p : FleetPlan) :
  validate_dag p = [] ↔
  (∀ t d, t ∈ tasks p → d ∈ t_depends_on t → d ∈ map t_id (tasks p)) ∧ acyclic (by_id_of (tasks p)).
Proof. apply validate_dag_nil. Qed.
Example validate_dag_demo :
  validate_dag (plan_of cyclic_doc) =
  ["ciclo no DAG: a -> b -> c -> a"; u8 "task d: dependência inexistente 'ghost'; crie-a ou remova-a"].
Proof. vm_compute. reflexivity. Qed.

(** C1: [validate_plan] accepts a document if and only if it parses to a plan
    that is valid: dependencies exist and are acyclic, waves use declared
    gates, every task has a complete contract, no task allows what it forbids,
    and no two tasks of a wave that dependencies leave unordered may write
    overlapping paths; the report is the sorted task identifiers. *)
Theorem validate_plan_exact (v : pyval) (ids : list string) :
  validate_plan (inr v) = Ok ids ↔
  ∃ p, from_dict (inr v) = Ok p ∧ valid_plan p ∧ ids = sort_strings (map t_id (tasks p)).
Proof.
  unfold validate_plan, normalized. destruct (from_dict (inr v)) as [p|e] eqn:Hp; cbn.
  - pose proof (all_errors_nil p (from_dict_ids v p Hp)) as Hn. split.
    + destruct (all_errors p); [|discriminate]. intros [= <-]. exists p. split_and!; [done|by apply Hn|done].
    + intros (q & [= <-] & Hvalid & ->). apply Hn in Hvalid. by rewrite Hvalid.
  - split; [discriminate|]. intros (p & ? & _). discriminate.
Qed.

(** the [reaches] search behind [_parallel], with its shared visited set and
    early exit, decides reachability: two tasks of one wave are parallel
    exactly when neither depends on the other, directly or transitively. *)
Theorem parallel_exact (p : FleetPlan) (a b : TaskSpec) :
  _parallel (by_id_of (tasks p)) a b = true ↔
  py_eqb (t_wave a) (t_wave b) = true ∧
  ¬ rtc (depends (by_id_of (tasks p))) (t_id a) (t_id b) ∧
  ¬ rtc (depends (by_id_of (tasks p))) (t_id b) (t_id a).
Proof. apply parallel_spec. Qed.

(** two paths overlap exactly when the components of one are the first
    components of the other, so that "foo" and "foobar" do not. *)
Theorem path_overlap_components (a b : string) :
  let ca := split_on slash (strip_slashes a) in
  let cb := split_on slash (strip_slashes b) in
  _path_overlap a b = true ↔ ca `prefix_of` cb ∨ cb `prefix_of` ca.
Proof.
  cbv zeta. rewrite !components_prefix. unfold _path_overlap. cbv zeta.
  rewrite !orb_true_iff, bool_decide_eq_true. naive_solver.
Qed.

(** C2: [compute_ready_tasks] fails exactly when validation does, and otherwise
    returns, sorted, the identifiers of the tasks that can start: pending or
    ready, with every dependency finished, every task of every earlier wave
    finished, and every gate of their wave passed. *)
Theorem compute_ready_exact (p : FleetPlan) (completed skipped passed : list string) :
  match compute_ready_tasks (inl p) completed skipped passed with
  | Err e => validate_plan (inl p) = Err e
  | Ok ids =>
      is_ok (validate_plan (inl p)) = true ∧
      (∀ i, i ∈ ids ↔ ∃ t, t ∈ tasks p ∧ t_id t = i ∧ ready p (terminal_ids p completed skipped) passed t) ∧
      StronglySorted (λ x y, String.leb x y = true) ids
  end.
Proof.
  unfold compute_ready_tasks. cbn [normalized map_err from_dict mbind res_bind].
  destruct (validate_plan (inl p)) as [ids|e]; cbn [mbind res_bind]; [|done]. split; [done|]. split.
  - intros i. rewrite list_elem_of_fmap. split.
    + intros (t & -> & Ht). apply list_elem_of_filter in Ht as [Hr Ht]. rewrite elem_of_sort_tasks in Ht.
      exists t. split_and!; [done..|]. by apply is_ready_spec.
    + intros (t & Ht & <- & Hr). exists t. split; [done|]. apply list_elem_of_filter.
      split; [by apply is_ready_spec|by apply elem_of_sort_tasks].
  - pose proof (sort_tasks_sorted (tasks p)) as Hs. revert Hs. generalize (sort_tasks (tasks p)).
    induction 1 as [|t l Hl IH Ht]; [constructor|]. rewrite filter_cons. case_decide; [|done]. cbn. constructor; [done|].
    apply Forall_forall. intros y Hy. apply list_elem_of_fmap in Hy as (u & -> & Hu). apply list_elem_of_filter in Hu as [_ Hu].
    rewrite Forall_forall in Ht. by apply Ht.
Qed.
Example compute_ready_demo :
  compute_ready_tasks (inr demo_doc) [] [] [] = Ok ["t1"] ∧ compute_ready_tasks (inr demo_doc) ["t1"] [] [] = Ok ["t1"; "t2"].
Proof. split; vm_compute; reflexivity. Qed.
