(* ===== verification/FleetState.v ===== *)
(** * The versioned fleet block of STATE (scripts/pd_fleet/state.py)

    [default_fleet_state], [normalize_fleet_state], [validate_fleet_state] and
    [migrate_fleet_state].  Values are not shared, so [deepcopy] is the
    identity, except that it raises [TypeError] on a read-only mapping view;
    objects of other types are taken to be copyable. *)

From S2P Require Import Prelude PyStr PyNum PyVal.

Open Scope string_scope.

Notation dict := (list (pyval * pyval)).

Definition FLEET_STATE_SCHEMA_VERSION : Z := 1.
Definition _COLLECTION_FIELDS : list string := ["agents"; "waves"; "tasks"; "gates"; "reports"; "attempts"; "blockers"; "evidence"].
Definition FLEET_STATE_FIELDS : list string := ("schema_version" :: _COLLECTION_FIELDS ++ ["updated_at"])%list.

Inductive state_error : Type := TypeError.
Notation fres := (res state_error).

(** [deepcopy(v)] *)
Definition deepcopy (v : pyval) : fres pyval := if copyable v then Ok v else Err TypeError.

Definition default_fleet_state (updated_at : string) : dict :=
  ((VStr "schema_version", VInt FLEET_STATE_SCHEMA_VERSION) :: map (λ name, (VStr name, VList [])) _COLLECTION_FIELDS ++ [(VStr "updated_at", VStr updated_at)])%list.

(** [isinstance(v, (int, str)) and not isinstance(v, bool)] *)
Definition version_like (v : pyval) : bool := match v with VInt _ | VStr _ => true | _ => false end.
Definition fix_version (result : dict) : dict :=
  let result := dsetdefault "schema_version" (VInt FLEET_STATE_SCHEMA_VERSION) result in
  if version_like (dget_or VNone "schema_version" result) then result else dset "schema_version" (VInt FLEET_STATE_SCHEMA_VERSION) result.
Definition listed (v : pyval) : pyval := match v with VList l | VTuple l => VList l | _ => VList [] end.
Definition fix_collection (result : dict) (name : string) : dict := dset name (listed (dget_or VNone name result)) result.
Definition fix_updated (result : dict) : dict :=
  match dget_or VNone "updated_at" result with
  | VNone => dset "updated_at" (VStr "") result
  | VStr _ => result
  | v => dset "updated_at" (VStr (py_str v)) result
  end.
Definition normalize_fleet_state (value : pyval) : fres dict :=
  let source := default [] (entries value) in
  _ ← deepcopy (VDict source);
  Ok (fix_updated (foldl fix_collection (fix_version source) _COLLECTION_FIELDS)).

Definition collection_errors (value : dict) (name : string) : list string :=
  match dget name value with
  | Some v => if is_seq v then [] else ["fleet_state." +:+ name +:+ " deve ser uma lista"]
  | None => []
  end.
Definition validate_fleet_state (value : pyval) : list string :=
  match entries value with
  | None => ["fleet_state deve ser um objeto"]
  | Some d =>
      ((if version_like (dget_or (VInt FLEET_STATE_SCHEMA_VERSION) "schema_version" d) then [] else ["fleet_state.schema_version deve ser inteiro ou string"]) ++
       flat_map (collection_errors d) _COLLECTION_FIELDS ++
       match dget "updated_at" d with
       | None | Some VNone | Some (VStr _) => []
       | Some _ => ["fleet_state.updated_at deve ser uma string"]
       end)%list
  end.

Definition migrate_fleet_state (root : dict) : fres dict :=
  _ ← deepcopy (VDict root);
  state ← normalize_fleet_state (dget_or VNone "fleet_state" root);
  Ok (dset "fleet_state" (VDict state) root).

Example state_ex : normalize_fleet_state (VDict [(VStr "x", VInt 1); (VStr "schema_version", VBool true); (VStr "tasks", VTuple [VStr "t"]); (VStr "gates", VInt 3)]) =
  Ok [(VStr "x", VInt 1); (VStr "schema_version", VInt 1); (VStr "tasks", VList [VStr "t"]); (VStr "gates", VList []); (VStr "agents", VList []);
      (VStr "waves", VList []); (VStr "reports", VList []); (VStr "attempts", VList []); (VStr "blockers", VList []); (VStr "evidence", VList []);
      (VStr "updated_at", VStr "")].
Proof. vm_compute. reflexivity. Qed.

(** ** Lemmas *)

Lemma dset_same k v d : dget k d = Some v → dset k v d = d.
Proof.
  induction d as [|[j w] d IH]; [done|]. cbn [dget dset]. destruct (key_is k j); [by intros [= ->]|]. intros H. by rewrite IH.
Qed.
Lemma fold_other k names d : k ∉ names → dget k (foldl fix_collection d names) = dget k d.
Proof.
  revert d. induction names as [|n names IH]; intros d Hk; [done|]. rewrite not_elem_of_cons in Hk. destruct Hk as [Hn Hk]. cbn [foldl]. rewrite IH by done.
  unfold fix_collection. by rewrite dget_dset_ne.
Qed.
Lemma listed_idem v : listed (listed v) = listed v.
Proof. by destruct v. Qed.
Lemma fold_listed k names d : k ∈ names → ∃ v, dget k (foldl fix_collection d names) = Some (listed v).
Proof.
  revert d. induction names as [|n names IH]; intros d; [by intros ?%elem_of_nil|]. cbn [foldl].
  destruct (decide (k ∈ names)) as [Hk | Hk]; [intros _; by apply IH|]. rewrite elem_of_cons. intros [-> | ?]; [|done]. rewrite fold_other by done.
  unfold fix_collection. rewrite dget_dset_eq. by eexists.
Qed.
Lemma fold_settled names d : Forall (λ k, ∃ v, dget k d = Some (listed v)) names → foldl fix_collection d names = d.
Proof.
  induction names as [|n names IH]; [done|]. rewrite Forall_cons. intros [[v Hv] HF]. cbn [foldl].
  assert (fix_collection d n = d) as ->; [|by apply IH]. unfold fix_collection, dget_or. rewrite Hv. change (default VNone (Some (listed v))) with (listed v). apply dset_same. by rewrite Hv, listed_idem.
Qed.

(** What normalisation establishes. *)
Record normal (d : dict) : Prop := {
  no_version : ∃ v, dget "schema_version" d = Some v ∧ version_like v = true;
  no_collections : Forall (λ k, ∃ v, dget k d = Some (listed v)) _COLLECTION_FIELDS;
  no_updated : ∃ s, dget "updated_at" d = Some (VStr s) }.

Lemma version_fixed d : ∃ v, dget "schema_version" (fix_version d) = Some v ∧ version_like v = true.
Proof.
  unfold fix_version. destruct (version_like (dget_or VNone "schema_version" (dsetdefault "schema_version" (VInt FLEET_STATE_SCHEMA_VERSION) d))) eqn:E.
  - unfold dget_or in E. destruct (dget "schema_version" (dsetdefault _ _ d)) as [v|]; [by exists v|discriminate].
  - exists (VInt 1). by rewrite dget_dset_eq.
Qed.
Lemma fix_version_other k d : k ≠ "schema_version" → dget k (fix_version d) = dget k d.
Proof.
  intros Hk. assert (dget k (dsetdefault "schema_version" (VInt FLEET_STATE_SCHEMA_VERSION) d) = dget k d) as Hs.
  { unfold dsetdefault. destruct (dhas _ d); [done|]. by apply dget_dset_ne. }
  unfold fix_version. destruct (version_like _); [done|]. by rewrite dget_dset_ne.
Qed.
Lemma updated_fixed d : ∃ s, dget "updated_at" (fix_updated d) = Some (VStr s).
Proof.
  unfold fix_updated, dget_or. destruct (dget "updated_at" d) as [v|] eqn:E; [|eexists; apply dget_dset_eq].
  change (default VNone (Some v)) with v. destruct v; eexists; first [apply dget_dset_eq|exact E].
Qed.
Lemma fix_updated_other k d : k ≠ "updated_at" → dget k (fix_updated d) = dget k d.
Proof. intros Hk. unfold fix_updated. destruct (dget_or VNone "updated_at" d); first [done|by rewrite dget_dset_ne]. Qed.

Lemma field_names : NoDup FLEET_STATE_FIELDS.
Proof. apply (bool_decide_unpack _). vm_compute. exact I. Qed.
Lemma normalize_normal v d : normalize_fleet_state v = Ok d → normal d.
Proof.
  unfold normalize_fleet_state. intros (u & _ & <-%ok_inj)%bind_ok. constructor.
  - rewrite fix_updated_other, fold_other by (try done; apply (bool_decide_unpack _); vm_compute; exact I). apply version_fixed.
  - apply Forall_forall. intros k Hk. rewrite fix_updated_other; [by apply fold_listed|]. intros ->. revert Hk. apply (bool_decide_unpack _). vm_compute. exact I.
  - apply updated_fixed.
Qed.
Lemma normal_fixed d : normal d → copyable (VDict d) = true → normalize_fleet_state (VDict d) = Ok d.
Proof.
  intros [(v & Hv & Hl) Hc (s & Hs)] Hcp. unfold normalize_fleet_state, deepcopy. change (default [] (entries (VDict d))) with d. rewrite Hcp. cbn [mbind res_bind]. f_equal.
  assert (fix_version d = d) as ->.
  { unfold fix_version. assert (dsetdefault "schema_version" (VInt FLEET_STATE_SCHEMA_VERSION) d = d) as ->.
    { unfold dsetdefault, dhas. by rewrite Hv. }
    unfold dget_or. rewrite Hv. change (default VNone (Some v)) with v. by rewrite Hl. }
  rewrite fold_settled by done. unfold fix_updated, dget_or. by rewrite Hs.
Qed.
Lemma normal_valid d : normal d → validate_fleet_state (VDict d) = [].
Proof.
  intros [(v & Hv & Hl) Hc (s & Hs)]. unfold validate_fleet_state. cbn [entries]. unfold dget_or. rewrite Hv, Hs. change (default (VInt FLEET_STATE_SCHEMA_VERSION) (Some v)) with v.
  rewrite Hl. cbn [app]. rewrite app_nil_r. induction Hc as [|k names [w Hw] HF IH]; [done|]. cbn [flat_map]. unfold collection_errors at 1. rewrite Hw.
  assert (is_seq (listed w) = true) as -> by (by destruct w). by rewrite IH.
Qed.

Lemma copyable_dset k v d : copyable (VDict d) = true → copyable v = true → copyable (VDict (dset k v d)) = true.
Proof.
  cbn [copyable]. rewrite !forallb_true_iff. intros Hd Hv kv [-> | Hin]%elem_of_dset; [by cbn [fst snd]; rewrite Hv|by apply Hd].
Qed.
Lemma copyable_get k d : copyable (VDict d) = true → copyable (dget_or VNone k d) = true.
Proof.
  cbn [copyable]. rewrite forallb_true_iff. intros Hd. unfold dget_or. destruct (dget k d) as [v|] eqn:E; [|done]. apply dget_elem_of, Hd in E. by apply andb_true_iff in E as [_ ?].
Qed.
Lemma normalize_copyable v d : normalize_fleet_state v = Ok d → copyable (VDict d) = true.
Proof.
  unfold normalize_fleet_state, deepcopy. destruct (copyable _) eqn:Hc; [|discriminate]. cbn [mbind res_bind]. intros <-%ok_inj.
  assert (∀ d, copyable (VDict d) = true → copyable (VDict (fix_updated d)) = true) as Hu.
  { intros d H. unfold fix_updated. destruct (dget_or VNone "updated_at" d); first [done|by apply copyable_dset]. }
  apply Hu. assert (copyable (VDict (fix_version (default [] (entries v)))) = true) as Hv.
  { unfold fix_version, dsetdefault. destruct (dhas _ _), (version_like _); repeat apply copyable_dset; done. }
  revert Hv. generalize (fix_version (default [] (entries v))). induction _COLLECTION_FIELDS as [|k names IH]; intros d Hd; [done|]. cbn [foldl]. apply IH.
  unfold fix_collection. apply copyable_dset; [done|]. apply (copyable_get k) in Hd. by destruct (dget_or VNone k d).
Qed.

(** ** Properties *)

(** Normalising a fleet block gives a valid block with every field in
    place, is idempotent, keeps every unknown field as it was and every list of
    a known field; it fails only on a value that cannot be copied. *)
Theorem normalize_sound v :
  (copyable (VDict (default [] (entries v))) = true ↔ ∃ d, normalize_fleet_state v = Ok d) ∧
  ∀ d, normalize_fleet_state v = Ok d →
    validate_fleet_state (VDict d) = [] ∧ normalize_fleet_state (VDict d) = Ok d ∧ Forall (λ k, is_Some (dget k d)) FLEET_STATE_FIELDS ∧
    (∀ k, k ∉ FLEET_STATE_FIELDS → dget k d = dget k (default [] (entries v))) ∧
    (∀ k l, k ∈ _COLLECTION_FIELDS → dget k (default [] (entries v)) = Some (VList l) → dget k d = Some (VList l)).
Proof.
  split.
  - unfold normalize_fleet_state, deepcopy. destruct (copyable _); [|naive_solver]. split; [intros _; by eexists|done].
  - intros d H. pose proof (normalize_normal v d H) as Hn. split; [by apply normal_valid|]. split; [apply normal_fixed; [done|by eapply normalize_copyable]|].
    split; [|split].
    + destruct Hn as [(w & Hw & _) Hc (s & Hs)]. unfold FLEET_STATE_FIELDS. apply Forall_cons. split; [by exists w|]. apply Forall_app. split; [|constructor; [by exists (VStr s)|done]].
      eapply Forall_impl; [exact Hc|]. intros k [x Hx]. by exists (listed x).
    + intros k Hk. unfold normalize_fleet_state in H. apply bind_ok in H as (u & _ & <-%ok_inj).
      unfold FLEET_STATE_FIELDS in Hk. rewrite not_elem_of_cons, not_elem_of_app, list_elem_of_singleton in Hk. destruct Hk as (H1 & H2 & H3).
      by rewrite fix_updated_other, fold_other, fix_version_other.
    + intros k l Hk Hl. unfold normalize_fleet_state in H. apply bind_ok in H as (u & _ & <-%ok_inj).
      pose proof field_names as Hf. unfold FLEET_STATE_FIELDS in Hf. apply NoDup_cons in Hf as [Hv Hf]. apply NoDup_app in Hf as (Hf & Hd & _).
      assert (k ≠ "updated_at") as Hu by (intros ->; apply (Hd _ Hk); by left). assert (k ≠ "schema_version") as Hs by (intros ->; apply Hv; apply elem_of_app; by left).
      rewrite fix_updated_other by done. rewrite <- (fix_version_other k _ Hs) in Hl. revert Hl Hk Hf. generalize (fix_version (default [] (entries v))). clear.
      induction _COLLECTION_FIELDS as [|n names IH]; intros d Hl Hk Hf; [by apply elem_of_nil in Hk|]. cbn [foldl]. apply NoDup_cons in Hf as [Hn Hf].
      destruct (decide (k = n)) as [-> | Hne].
      * rewrite fold_other by done. unfold fix_collection, dget_or. rewrite dget_dset_eq, Hl. done.
      * apply elem_of_cons in Hk as [? | Hk]; [done|]. apply IH; [|done..]. unfold fix_collection. by rewrite dget_dset_ne.
Qed.

(** Migrating a root state changes nothing but its fleet block; the legacy list
    of tasks stays as it is. *)
Theorem migrate_frame root d : migrate_fleet_state root = Ok d →
  (∀ k, k ≠ "fleet_state" → dget k d = dget k root) ∧ ∃ s, dget "fleet_state" d = Some (VDict s) ∧ validate_fleet_state (VDict s) = [].
Proof.
  unfold migrate_fleet_state. intros (u & _ & H)%bind_ok. apply bind_ok in H as (s & Hs & [= <-]). split; [intros k Hk; by apply dget_dset_ne|].
  exists s. split; [apply dget_dset_eq|]. by eapply normal_valid, normalize_normal.
Qed.
