(* ===== verification/GatewayDeny.v ===== *)
(** * The composite deny gates (scripts/pd_fleet/gateway_deny.py)

    [evaluate_gates]: all eight gates must pass on every use.  The argument is
    a mapping from names to gates, [None] for anything that is not a mapping;
    an entry that is not a [GateValue] is [NotAGate]. *)

From S2P Require Import Prelude PyStr PyNum PyVal.

Open Scope string_scope.

Definition GATE_IDS : list string := ["B1"; "B2"; "B3"; "B4"; "B5"; "B6"; "B7"; "B8"].
Definition CAPABILITIES_V1 : list string := ["observation"].

Record GateValue : Type := MkGate { present : bool; valid : bool; capability : pyval }.
Inductive gate_entry : Type := AGate (g : GateValue) | NotAGate.
Record GateDecision : Type := MkDecision { allowed : bool; denied_by : list string }.

Definition find_gate (gate_id : string) (gates : list (string * gate_entry)) : option gate_entry :=
  snd <$> List.find (λ kv, bool_decide (kv.1 = gate_id)) gates.
Definition gate_passes (gates : list (string * gate_entry)) (gate_id : string) : bool :=
  match find_gate gate_id gates with
  | Some (AGate value) =>
      value.(present) && value.(valid) &&
      (negb (bool_decide (gate_id = "B7")) || match value.(capability) with VStr c => bool_decide (c ∈ CAPABILITIES_V1) | _ => false end)
  | _ => false
  end.
Definition evaluate_gates (gates : option (list (string * gate_entry))) : GateDecision :=
  match gates with
  | None => MkDecision false GATE_IDS
  | Some gates =>
      let denied := List.filter (λ gate_id, negb (gate_passes gates gate_id)) GATE_IDS in
      MkDecision (match denied with [] => true | _ => false end) denied
  end.

(** A gate that is supplied and passes; the seventh names the capability. *)
Definition passing (gates : list (string * gate_entry)) (gate_id : string) : Prop :=
  ∃ g, find_gate gate_id gates = Some (AGate g) ∧ present g = true ∧ valid g = true ∧ (gate_id = "B7" → capability g = VStr "observation").
Lemma gate_passes_ok gates gate_id : gate_passes gates gate_id = true ↔ passing gates gate_id.
Proof.
  unfold gate_passes, passing. destruct (find_gate gate_id gates) as [[g|]|]; [|split; [done|by intros (g & ? & _)]..]. rewrite !andb_true_iff, orb_true_iff. split.
  - intros [[Hp Hv] Hc]. exists g. repeat (split; [done|]). intros E. destruct Hc as [Hc | Hc]; [by rewrite bool_decide_true in Hc|].
    destruct (capability g); try discriminate. apply bool_decide_eq_true in Hc. apply list_elem_of_singleton in Hc. by subst.
  - intros (g' & [= <-] & Hp & Hv & Hc). split; [by split|]. destruct (decide (gate_id = "B7")) as [E | E]; [right; by rewrite (Hc E)|left; by rewrite bool_decide_false].
Qed.

(** A capability is granted exactly when all eight gates are supplied,
    present and valid and the seventh names observation, and the decision
    lists exactly the gates that do not pass, in order. *)
Theorem deny_exact gates :
  (allowed (evaluate_gates gates) = true ↔ ∃ g, gates = Some g ∧ ∀ gate_id, gate_id ∈ GATE_IDS → passing g gate_id) ∧
  (∀ gate_id, gate_id ∈ denied_by (evaluate_gates gates) ↔ gate_id ∈ GATE_IDS ∧ ∀ g, gates = Some g → ¬ passing g gate_id) ∧
  denied_by (evaluate_gates gates) `sublist_of` GATE_IDS.
Proof.
  destruct gates as [g|]; cbn [evaluate_gates]; [|split; [split; [discriminate|intros (g & ? & _); discriminate]|split; [|reflexivity]]; intros id; cbn [denied_by]; split; [by split|by intros [? _]]].
  cbv zeta. cbn [allowed denied_by]. set (denied := List.filter _ GATE_IDS).
  assert (∀ id, id ∈ denied ↔ id ∈ GATE_IDS ∧ ¬ passing g id) as Hd.
  { intros id. unfold denied. rewrite list_elem_of_In, filter_In, <- list_elem_of_In, negb_true_iff, <- gate_passes_ok, not_true_iff_false. done. }
  split; [|split].
  - split.
    + intros H. exists g. split; [done|]. intros id Hid. destruct denied as [|x l]; [|done]. apply gate_passes_ok. destruct (gate_passes g id) eqn:E; [done|].
      assert (id ∈ []) as []%elem_of_nil. apply Hd. split; [done|]. rewrite <- gate_passes_ok. congruence.
    + intros (g' & [= <-] & H). destruct denied as [|x l]; [done|]. destruct (proj1 (Hd x)) as [Hx Hn]; [by left|]. by destruct (Hn (H x Hx)).
  - intros id. rewrite Hd. naive_solver.
  - unfold denied. clear. induction GATE_IDS as [|x l IH]; [done|]. cbn. destruct (negb _); [by apply sublist_skip|by apply sublist_cons].
Qed.
