(* ===== verification/Handoff.v ===== *)
(** * Handoff artifacts and their store (scripts/pd_fleet/handoff.py)

    The text and identifier checks, lineages, artifacts, [create_handoff], the
    ownership checks, and the store.  The store's run directory is a map from
    handoff ids to the decoded content of their files; the lock, the temporary
    file, directories and symbolic links are not modelled.  [MappingProxyType]
    is [VProxy]; an iterable argument is a list, a tuple or a dictionary. *)

From S2P Require Import Prelude PyStr PyNum PyVal Regex Sha256 Redaction.

Open Scope string_scope.

Notation dict := (list (pyval * pyval)).

Definition MAX_ITEMS : nat := 32.
Definition MAX_TEXT : nat := 2000.
Definition MAX_ID : nat := 200.

Definition word_ci (s : string) : re := rseq [RWordBoundary; rlit_ci s; RWordBoundary].
Definition rhex : re := RChar (λ c, is_digit c || between 97 102 (lower_ascii c)).
Definition _PROMPT_LIKE : re :=
  ralt [rseq [rlit_ci "ignore"; rplus rspace; ropt (rseq [rlit_ci "all"; rplus rspace]); rlit_ci "previous"; rplus rspace; rlit_ci "instructions"];
        rseq [rlit_ci "system"; rplus rspace; rlit_ci "prompt"];
        rseq [rlit_ci "chain"; rchr "- _"; rlit_ci "of"; rchr "- "; rlit_ci "thought"];
        rseq [rlit_ci "full"; rplus rspace; rlit_ci "prompt"];
        rseq [rlit_ci "developer"; rplus rspace; rlit_ci "message"];
        rseq [word_ci "prompt"; rstar rspace; rchr ":="]].
Definition _OPERATIONAL_HANDLE : re :=
  ralt [rseq [ralt [word_ci "pid"; rseq [rlit_ci "process"; rplus rspace; rlit_ci "id"]; rseq [rlit_ci "native"; ropt (rchr "_ -"); rlit_ci "handle"]; word_ci "handle"];
              rstar rspace; ropt (rchr ":=#"); rstar rspace; ralt [rseq [rlit_ci "0x"; rplus rhex]; rplus rdigit]];
        rseq [RWordBoundary; rlit_ci "0x"; rtimes 8 rhex; rstar rhex; RWordBoundary]].
Definition _SECRET_ASSIGNMENT : re :=
  rseq [RWordBoundary; ralt [rseq [rlit_ci "api"; ropt (rchr "_ -"); rlit_ci "key"]; rlit_ci "secret"; rlit_ci "token"; rlit_ci "password"; rlit_ci "credential"];
        rstar rspace; rchr ":="].

(** [str.isalpha] below U+0100. *)
Definition is_letter (c : ascii) : bool :=
  is_alpha c || (code c =? 170)%nat || (code c =? 181)%nat || (code c =? 186)%nat || (between 192 255 c && negb (code c =? 215)%nat && negb (code c =? 247)%nat).
Definition rooted : re := rseq [ralt [RStart; RChar (λ c, one_of "=" c || is_space c)]; rchr "/"; rplus rnonspace].
Definition has_backslash (s : string) : bool := contains s (String (ascii_of_nat 92) "").
Definition drive_like (s : string) : bool := match s with String c (String d _) => Ascii.eqb d ":" && is_letter c | _ => false end.
Definition _unsafe_identifier (value : string) : bool :=
  search _EXTERNAL_URL value || search _PROMPT_LIKE value || search _OPERATIONAL_HANDLE value || search _SECRET_ASSIGNMENT value ||
  existsb (startswith value) ["/"; String (ascii_of_nat 92) ""; "~"; "[PATH"; "[URL"] || drive_like value || has_backslash value || search rooted value.

Inductive handoff_error : Type := ValueError | TypeError.
#[export] Instance handoff_error_eq_dec : EqDecision handoff_error.
Proof. solve_decision. Defined.
Notation hres := (res handoff_error).
Definition require (b : bool) : hres unit := ensure b ValueError.

Definition HandoffReason : list string := ["retry"; "fallback"; "handoff"; "replan"; "human_intervention"].
Definition _LEGACY_REASONS : list (string * string) := [("worker_lost", "fallback"); ("context_exhausted", "handoff"); ("phase_boundary", "handoff")].

(** ** Text *)

Definition bounded (limit : nat) (v : pyval) : hres string :=
  match v with
  | VStr s => if negb (blank s) && (String.length s <=? limit)%nat then Ok s else Err ValueError
  | _ => Err ValueError
  end.
Definition redact_urls (s : string) : string := sub _EXTERNAL_URL (λ _, "[URL REDACTED]") s.
Definition _sanitize_text (v : pyval) : hres string :=
  value ← bounded MAX_TEXT v;
  _ ← require (str_forallb (λ c, negb (is_control c) || Ascii.eqb c newline || (code c =? 9)%nat) value);
  _ ← require (negb (search _PROMPT_LIKE value || search _OPERATIONAL_HANDLE value));
  let value := strip (_redact_sensitive_text (_redact_paths (redact_urls value))) in
  _ ← require (nonempty value);
  Ok value.

Definition _bounded_id (v : pyval) : hres string :=
  value ← bounded MAX_ID v;
  _ ← require (str_forallb (λ c, negb (is_control c)) value);
  let value := strip value in
  _ ← require (negb (_unsafe_identifier value));
  Ok value.

Definition _reason (v : pyval) : hres string :=
  match v with
  | VStr s => let s := default s (snd <$> List.find (λ kv, bool_decide (kv.1 = s)) _LEGACY_REASONS) in
              if bool_decide (s ∈ HandoffReason) then Ok s else Err ValueError
  | v => Err (if hashable v then ValueError else TypeError)
  end.

(** The elements of an iterable that is not a string. *)
Definition iter_of (v : pyval) : hres (list pyval) :=
  match v with
  | VStr _ => Err ValueError
  | VList l | VTuple l => Ok l
  | VDict d | VProxy d => Ok (map fst d)
  | _ => Err TypeError
  end.
Definition push_item (f : pyval → hres string) (result : list string) (value : pyval) : hres (list string) :=
  s ← f value;
  _ ← require (length result <? MAX_ITEMS)%nat;
  Ok (result ++ [s])%list.
Definition bounded_items (f : pyval → hres string) (values : pyval) : hres (list string) :=
  l ← iter_of values; foldM (push_item f) [] l.
Definition _items (values : pyval) : hres (list string) := bounded_items _sanitize_text values.

(** [PurePath(value).is_absolute()] is a leading slash. *)
Definition _ref (v : pyval) : hres string :=
  value ← _sanitize_text v;
  _ ← require (negb (search _EXTERNAL_URL value || startswith value "/" || startswith value "~" ||
               startswith value "[PATH REDACTED]" || startswith value "[URL REDACTED]"));
  Ok value.
Definition _bounded_refs (values : pyval) : hres (list string) := bounded_items _ref values.

(** ** Safety metadata: a traversal that counts the values it visits *)

Definition secret_key : re :=
  rseq [ralt [rlit_ci "secret"; rlit_ci "secrets"; rlit_ci "token"; rlit_ci "password"; rlit_ci "credential"; rseq [rlit_ci "api"; ropt (rchr "_ -"); rlit_ci "key"]]].
Definition metadata_key (k : pyval) : option string :=
  match k with
  | VStr s => if negb (blank s) && (String.length s <=? MAX_ID)%nat && negb (_unsafe_identifier s) && negb (fullmatch secret_key (strip s)) then Some (strip s) else None
  | _ => None
  end.
Definition int_finite (z : Z) : bool := match float_of_Z z with Some _ => true | None => false end.
Fixpoint _safe_metadata (value : pyval) (depth count : nat) : hres (pyval * nat) :=
  _ ← require (depth <=? 4)%nat;
  let count := S count in
  _ ← require (count <=? MAX_ITEMS)%nat;
  match value with
  | VDict kvs | VProxy kvs =>
      _ ← require (length kvs <=? MAX_ITEMS)%nat;
      acc ← foldM (λ acc kv, match metadata_key kv.1 with
                             | Some k => wn ← _safe_metadata kv.2 (S depth) acc.2; Ok (dset k wn.1 acc.1, wn.2)
                             | None => Err ValueError
                             end) ([], count) kvs;
      Ok (VProxy acc.1, acc.2)
  | VList l | VTuple l =>
      _ ← require (length l <=? MAX_ITEMS)%nat;
      acc ← foldM (λ acc v, wn ← _safe_metadata v (S depth) acc.2; Ok ((acc.1 ++ [wn.1])%list, wn.2)) ([], count) l;
      Ok (VTuple acc.1, acc.2)
  | VStr s => t ← _sanitize_text (VStr s); Ok (VStr t, count)
  | VBool _ | VNone => Ok (value, count)
  | VInt z => if int_finite z then Ok (value, count) else Err ValueError
  | VFloat f => if is_finite f then Ok (value, count) else Err ValueError
  | VOther _ => Err ValueError
  end.

Fixpoint _thaw (v : pyval) : pyval :=
  match v with
  | VDict kvs | VProxy kvs => VDict (map (λ kv, (kv.1, _thaw kv.2)) kvs)
  | VList l | VTuple l => VList (map _thaw l)
  | _ => v
  end.

(** ** Lineages and artifacts *)

Record HandoffLineage : Type := MkLineage {
  mission_id : string; mission_run_id : string; task_id : string; source_lane_id : string;
  attempt_id : string; session_id : string; target_role : string; owner_epoch : Z }.
#[export] Instance lineage_eq_dec : EqDecision HandoffLineage.
Proof. solve_decision. Defined.

Definition epoch_of (v : pyval) : hres Z := match v with VInt z => if (0 <=? z)%Z then Ok z else Err ValueError | _ => Err ValueError end.
Definition new_lineage (mission_id mission_run_id task_id source_lane_id attempt_id session_id target_role owner_epoch : pyval) : hres HandoffLineage :=
  a ← _bounded_id mission_id; b ← _bounded_id mission_run_id; c ← _bounded_id task_id; d ← _bounded_id source_lane_id;
  e ← _bounded_id attempt_id; f ← _bounded_id session_id; g ← _bounded_id target_role; n ← epoch_of owner_epoch;
  Ok (MkLineage a b c d e f g n).
Definition lineage_dict (l : HandoffLineage) : dict :=
  [(VStr "mission_id", VStr l.(mission_id)); (VStr "mission_run_id", VStr l.(mission_run_id)); (VStr "task_id", VStr l.(task_id));
   (VStr "source_lane_id", VStr l.(source_lane_id)); (VStr "attempt_id", VStr l.(attempt_id)); (VStr "session_id", VStr l.(session_id));
   (VStr "target_role", VStr l.(target_role)); (VStr "owner_epoch", VInt l.(owner_epoch))].

Record HandoffArtifact : Type := MkArtifact {
  handoff_id : string; reason : string; summary : string;
  completed : list string; remaining : list string; decisions : list string; risks : list string;
  evidence_refs : list string; next_action : string; lineage : HandoffLineage; safety : pyval }.

(** [HandoffArtifact(...)] *)
Definition new_artifact (handoff_id reason summary completed remaining decisions risks evidence_refs next_action : pyval)
    (lineage : HandoffLineage) (safety : pyval) : hres HandoffArtifact :=
  handoff_id ← _bounded_id handoff_id;
  reason ← _reason reason;
  summary ← _sanitize_text summary;
  next_action ← _sanitize_text next_action;
  completed ← _items completed;
  remaining ← _items remaining;
  decisions ← _items decisions;
  risks ← _items risks;
  evidence_refs ← _bounded_refs evidence_refs;
  _ ← require (is_mapping safety);
  metadata ← _safe_metadata safety 0 0;
  Ok (MkArtifact handoff_id reason summary completed remaining decisions risks evidence_refs next_action lineage metadata.1).

Definition strs (l : list string) : pyval := VList (map VStr l).
Definition artifact_dict (a : HandoffArtifact) : dict :=
  [(VStr "handoff_id", VStr a.(handoff_id)); (VStr "reason", VStr a.(reason)); (VStr "summary", VStr a.(summary));
   (VStr "completed", strs a.(completed)); (VStr "remaining", strs a.(remaining)); (VStr "decisions", strs a.(decisions));
   (VStr "risks", strs a.(risks)); (VStr "evidence_refs", strs a.(evidence_refs)); (VStr "next_action", VStr a.(next_action));
   (VStr "lineage", VDict (lineage_dict a.(lineage))); (VStr "safety", _thaw a.(safety))].

(** [json.dumps({**lineage, "reason": reason}, sort_keys=True, separators=(",", ":"))] *)
Definition identity_text (l : HandoffLineage) (reason : string) : string :=
  let field k v := ascii_str k +:+ ":" +:+ v in
  "{" +:+ join "," [field "attempt_id" (ascii_str l.(attempt_id)); field "mission_id" (ascii_str l.(mission_id));
    field "mission_run_id" (ascii_str l.(mission_run_id)); field "owner_epoch" (str_of_Z l.(owner_epoch)); field "reason" (ascii_str reason);
    field "session_id" (ascii_str l.(session_id)); field "source_lane_id" (ascii_str l.(source_lane_id));
    field "target_role" (ascii_str l.(target_role)); field "task_id" (ascii_str l.(task_id))] +:+ "}".
Definition safety_claims : pyval :=
  VDict (map (λ k, (VStr k, VBool false)) ["external_dispatch"; "secrets_included"; "native_handles_included"; "distributed_lease_or_cas"]).

Definition create_handoff (mission_id mission_run_id task_id source_lane_id attempt_id session_id target_role owner_epoch reason summary
    completed remaining decisions risks evidence_refs next_action : pyval) : hres HandoffArtifact :=
  lineage ← new_lineage mission_id mission_run_id task_id source_lane_id attempt_id session_id target_role owner_epoch;
  reason ← _reason reason;
  refs ← _bounded_refs evidence_refs;
  _ ← require (match refs with [] => false | _ => true end);
  let handoff_id := "handoff:" +:+ sha256_hex (identity_text lineage reason) in
  completed ← _items completed;
  remaining ← _items remaining;
  decisions ← _items decisions;
  risks ← _items risks;
  new_artifact (VStr handoff_id) (VStr reason) summary (strs completed) (strs remaining) (strs decisions) (strs risks) (strs refs) next_action
    lineage safety_claims.

Definition validate_handoff_epoch (a : HandoffArtifact) (active_owner_epoch : pyval) : hres bool :=
  e ← epoch_of active_owner_epoch; Ok (a.(lineage).(owner_epoch) =? e)%Z.
Definition validate_handoff_ownership (a : HandoffArtifact) (mission_id mission_run_id task_id source_lane_id attempt_id session_id owner_epoch : pyval) : hres bool :=
  expected ← new_lineage mission_id mission_run_id task_id source_lane_id attempt_id session_id (VStr a.(lineage).(target_role)) owner_epoch;
  _ ← require (bool_decide (a.(lineage) = expected));
  Ok true.

Example unsafe_ex : map _unsafe_identifier ["task-1"; "C:x"; "see /etc"; "a/b"; "token: x"; "pid 12"; "[PATH"] = [false; true; true; false; true; true; true].
Proof. vm_compute. reflexivity. Qed.
Example handoff_sanitize_ex : map (λ s, _sanitize_text (VStr s)) [" ok "; "see /tmp/x"; "prompt: x"; "https://a.b c"; " "] =
  [Ok "ok"; Ok "see [PATH REDACTED]"; Err ValueError; Ok "[URL REDACTED] c"; Err ValueError].
Proof. vm_compute. reflexivity. Qed.

(** ** The store *)

Definition HANDOFF_SCHEMA_VERSION : Z := 1.
Definition segment_char (c : ascii) : bool := is_alnum c || one_of "_.:-" c.
Definition _safe_segment (v : pyval) : hres string :=
  match v with
  | VStr s => if negb (bool_decide (s ∈ ["."; ".."])) && ident is_alnum segment_char (Some 199%nat) s then Ok s else Err ValueError
  | _ => Err ValueError
  end.
Definition _canonical_json (v : pyval) : hres string := map_err (λ _, ValueError) (json_dumps v).

Record HandoffEnvelope : Type := MkEnvelope {
  artifact : HandoffArtifact; envelope_status : string; envelope_refs : list string; checksum : string }.

Record HandoffStore : Type := MkStore { run_id : string; store_epoch : option Z; expected_lineage : option HandoffLineage }.
Definition new_store (run : pyval) (epoch : pyval) (expected : option HandoffLineage) : hres HandoffStore :=
  run ← _safe_segment run;
  epoch ← match epoch with VNone => Ok None | v => Some <$> epoch_of v end;
  _ ← require (match expected with Some l => bool_decide (l.(mission_run_id) = run) | None => true end);
  _ ← require (match epoch, expected with Some e, Some l => (e =? l.(owner_epoch))%Z | _, _ => true end);
  Ok (MkStore run epoch expected).

Definition owns (s : HandoffStore) (l : HandoffLineage) : bool :=
  bool_decide (l.(mission_run_id) = s.(run_id)) &&
  match s.(store_epoch) with Some e => (l.(owner_epoch) =? e)%Z | None => true end &&
  match s.(expected_lineage) with Some x => bool_decide (l = x) | None => true end.
Definition _check_owner (s : HandoffStore) (a : HandoffArtifact) : hres unit := require (owns s a.(lineage)).

Definition _payload (a : HandoffArtifact) (status : string) (refs : list string) : dict :=
  [(VStr "schema_version", VInt HANDOFF_SCHEMA_VERSION); (VStr "handoff_id", VStr a.(handoff_id)); (VStr "artifact", VDict (artifact_dict a));
   (VStr "status", VStr status); (VStr "evidence_refs", strs refs)].

Definition same_keys (fields : list string) (kvs : dict) : bool := negb (has_unknown fields kvs) && forallb (λ k, dhas k kvs) fields.
Definition ENVELOPE_KEYS : list string := ["schema_version"; "handoff_id"; "artifact"; "status"; "evidence_refs"; "checksum"].
Definition ARTIFACT_KEYS : list string :=
  ["handoff_id"; "reason"; "summary"; "completed"; "remaining"; "decisions"; "risks"; "evidence_refs"; "next_action"; "lineage"; "safety"].
Definition LINEAGE_KEYS : list string :=
  ["mission_id"; "mission_run_id"; "task_id"; "source_lane_id"; "attempt_id"; "session_id"; "target_role"; "owner_epoch"].
Definition dict_of (v : pyval) : hres dict := match v with VDict d => Ok d | _ => Err ValueError end.
Definition is_dict_list (v : pyval) : bool := match v with VList _ => true | _ => false end.

Definition lineage_of (d : dict) : hres HandoffLineage :=
  _ ← ensure (same_keys LINEAGE_KEYS d) TypeError;
  let get k := dget_or VNone k d in
  new_lineage (get "mission_id") (get "mission_run_id") (get "task_id") (get "source_lane_id") (get "attempt_id") (get "session_id")
    (get "target_role") (get "owner_epoch").
Definition artifact_of (v : pyval) (requested_id : string) : hres HandoffArtifact :=
  d ← dict_of v;
  _ ← require (same_keys ARTIFACT_KEYS d);
  let get k := dget_or VNone k d in
  _ ← require (py_eqb (get "handoff_id") (VStr requested_id));
  _ ← require (forallb (λ k, is_dict_list (get k)) ["completed"; "remaining"; "decisions"; "risks"; "evidence_refs"]);
  l ← dict_of (get "lineage");
  _ ← dict_of (get "safety");
  lineage ← lineage_of l;
  new_artifact (get "handoff_id") (get "reason") (get "summary") (get "completed") (get "remaining") (get "decisions") (get "risks")
    (get "evidence_refs") (get "next_action") lineage (get "safety").

(** [_decode]: of decoded JSON, [None] when the file is not JSON. *)
Definition decode_payload (raw : option pyval) (requested_id : string) : hres HandoffEnvelope :=
  v ← match raw with Some v => Ok v | None => Err ValueError end;
  d ← dict_of v;
  _ ← require (same_keys ENVELOPE_KEYS d);
  let payload := dpop "checksum" d in
  text ← _canonical_json (VDict payload);
  _ ← require (py_eqb (dget_or VNone "checksum" d) (VStr (sha256_hex text)));
  let get k := dget_or VNone k payload in
  _ ← require (match get "schema_version" with VInt n => (n =? HANDOFF_SCHEMA_VERSION)%Z | _ => false end);
  _ ← require (match get "handoff_id" with VStr s => bool_decide (s = requested_id) | _ => false end);
  refs ← match get "evidence_refs" with VList l => if (length l <=? MAX_ITEMS)%nat then Ok l else Err ValueError | _ => Err ValueError end;
  a ← artifact_of (get "artifact") requested_id;
  status ← _sanitize_text (get "status");
  refs ← mapM _ref refs;
  Ok (MkEnvelope a status refs (sha256_hex text)).
Definition _decode (raw : option pyval) (requested_id : string) : hres HandoffEnvelope := map_err (λ _, ValueError) (decode_payload raw requested_id).

(** The files of the run directory. *)
Notation files := (gmap string (option pyval)).

Definition load (s : HandoffStore) (fs : files) (id : pyval) : hres HandoffEnvelope :=
  id ← _safe_segment id;
  raw ← match fs !! id with Some raw => Ok raw | None => Err ValueError end;
  e ← _decode raw id;
  _ ← _check_owner s e.(artifact);
  Ok e.

(** [existing == envelope]: the metadata compares as mappings do. *)
Definition same_artifact (a b : HandoffArtifact) : bool :=
  bool_decide (a.(handoff_id) = b.(handoff_id) ∧ a.(reason) = b.(reason) ∧ a.(summary) = b.(summary) ∧ a.(completed) = b.(completed) ∧
    a.(remaining) = b.(remaining) ∧ a.(decisions) = b.(decisions) ∧ a.(risks) = b.(risks) ∧ a.(evidence_refs) = b.(evidence_refs) ∧
    a.(next_action) = b.(next_action) ∧ a.(lineage) = b.(lineage)) && py_eqb a.(safety) b.(safety).
Definition same_envelope (x y : HandoffEnvelope) : bool :=
  same_artifact x.(artifact) y.(artifact) && bool_decide (x.(envelope_status) = y.(envelope_status) ∧ x.(envelope_refs) = y.(envelope_refs) ∧ x.(checksum) = y.(checksum)).

Definition save (s : HandoffStore) (fs : files) (a : HandoffArtifact) (status evidence_refs : pyval) : hres (files * HandoffEnvelope) :=
  _ ← _check_owner s a;
  status ← _sanitize_text status;
  refs ← _bounded_refs evidence_refs;
  text ← _canonical_json (VDict (_payload a status refs));
  let envelope := MkEnvelope a status refs (sha256_hex text) in
  id ← _safe_segment (VStr a.(handoff_id));
  match fs !! id with
  | Some _ =>
      existing ← load s fs (VStr a.(handoff_id));
      if same_envelope existing envelope then Ok (fs, existing) else Err ValueError
  | None =>
      let content := (_payload a status refs ++ [(VStr "checksum", VStr (sha256_hex text))])%list in
      Ok (<[id := Some (reload (VDict content))]> fs, envelope)
  end.

Definition demo_create (summary : string) : hres HandoffArtifact :=
  create_handoff (VStr "m1") (VStr "run-1") (VStr "t1") (VStr "lane") (VStr "a1") (VStr "s1") (VStr "coder") (VInt 2) (VStr "worker_lost") (VStr summary)
    (VList [VStr "one"]) (VList []) (VList []) (VTuple [VStr "slow"]) (VList [VStr "report:1"]) (VStr "retry it").
Definition demo_store : HandoffStore := MkStore "run-1" (Some 2%Z) None.
Definition demo_saves (summary : string) : hres (bool * bool) :=
  a ← demo_create summary;
  fe ← save demo_store ∅ a (VStr "open") (VList [VStr "report:1"]);
  e ← load demo_store fe.1 (VStr a.(handoff_id));
  Ok (same_envelope e fe.2, is_ok (save demo_store fe.1 a (VStr "open") (VList [VStr "report:1"]))).
(** A summary whose redaction is not final is read back as another one, and the
    same artifact cannot be saved twice. *)
Example store_unsettled : demo_saves "sk-abcdefgh/def" = Ok (false, false).
Proof. vm_compute. reflexivity. Qed.

(** ** Lemmas *)

Lemma handoff_require_ok b (u : unit) : require b = Ok u ↔ b = true.
Proof. apply ensure_ok. Qed.
Lemma length_rstrip_by p s : (String.length (rstrip_by p s) <= String.length s)%nat.
Proof. induction s as [|c s IH]; [done|]. cbn [rstrip_by String.length]. destruct (rstrip_by p s); [destruct (p c); cbn; lia|cbn in *; lia]. Qed.
Lemma length_strip s : (String.length (strip s) <= String.length s)%nat.
Proof. unfold strip, strip_by. pose proof (length_rstrip_by is_space (lstrip_by is_space s)). pose proof (length_lstrip_by is_space s). lia. Qed.

Lemma bounded_ok limit v s : bounded limit v = Ok s ↔ v = VStr s ∧ blank s = false ∧ (String.length s <= limit)%nat.
Proof.
  split.
  - destruct v as [| | | |t| | | | |]; try discriminate. cbn [bounded]. destruct (_ && _) eqn:E; [|discriminate]. intros [= <-]. apply andb_true_iff in E as [E1%negb_true_iff E2%Nat.leb_le]. done.
  - intros (-> & Hb & Hl). cbn [bounded]. by rewrite Hb, (proj2 (Nat.leb_le _ _) Hl).
Qed.

(** An identifier that is safe to pass around. *)
Record safe_id (s : string) : Prop := {
  si_tidy : blank s = false ∧ strip s = s;
  si_bounded : (String.length s <= MAX_ID)%nat;
  si_printable : str_forallb (λ c, negb (is_control c)) s = true;
  si_safe : _unsafe_identifier s = false }.
Lemma bounded_id_ok v s : _bounded_id v = Ok s → safe_id s.
Proof.
  unfold _bounded_id. intros (t & (-> & Hb & Hl)%bounded_ok & H)%bind_ok. apply bind_ok in H as (u1 & Hc%handoff_require_ok & H). apply bind_ok in H as (u2 & Hu%handoff_require_ok%negb_true_iff & <-%ok_inj).
  constructor; [split; [by rewrite blank_strip|apply strip_idem]|pose proof (length_strip t); lia|by apply strip_by_forallb|done].
Qed.
Lemma safe_id_again s : safe_id s → _bounded_id (VStr s) = Ok s.
Proof.
  intros [[Hb Hs] Hl Hc Hu]. unfold _bounded_id. rewrite (proj2 (bounded_ok MAX_ID (VStr s) s)) by done. cbn [mbind res_bind]. rewrite Hc. cbn [require ensure mbind res_bind]. cbv zeta.
  by rewrite Hs, Hu.
Qed.

Lemma push_items f acc l r : foldM (push_item f) acc l = Ok r ↔
  ∃ ss, Forall2 (λ v s, f v = Ok s) l ss ∧ r = (acc ++ ss)%list ∧ (ss = [] ∨ (length r <= MAX_ITEMS)%nat).
Proof.
  revert acc. induction l as [|v l IH]; intros acc; cbn [foldM].
  - split; [intros <-%ok_inj; exists []; rewrite app_nil_r; split; [done|split; [done|by left]]|]. intros (ss & HF & -> & _). apply Forall2_nil_inv_l in HF as ->. by rewrite app_nil_r.
  - rewrite bind_ok. unfold push_item at 1. split.
    + intros (acc' & (s & Hs & H)%bind_ok & HF). apply bind_ok in H as (u & Hl%handoff_require_ok%Nat.ltb_lt & <-%ok_inj). apply IH in HF as (ss & HF & -> & Hb).
      exists (s :: ss). split; [by constructor|]. rewrite <- app_assoc. split; [done|]. right. destruct Hb as [-> | Hb]; [|by rewrite <- app_assoc in Hb].
      rewrite length_app. cbn. lia.
    + intros (ss & HF & -> & Hb). apply Forall2_cons_inv_l in HF as (s & ss' & Hs & HF & ->). destruct Hb as [? | Hb]; [done|]. exists (acc ++ [s])%list. split.
      * apply bind_ok. exists s. split; [done|]. apply bind_ok. exists (). split; [|done]. apply handoff_require_ok, Nat.ltb_lt. rewrite length_app in Hb. cbn in Hb. lia.
      * apply IH. exists ss'. split; [done|]. split; [by rewrite <- app_assoc|]. right. done.
Qed.
Lemma items_ok f v l : bounded_items f v = Ok l → (length l <= MAX_ITEMS)%nat ∧ Forall (λ s, ∃ v, f v = Ok s) l.
Proof.
  unfold bounded_items. intros (vs & _ & (ss & HF & -> & Hb)%push_items)%bind_ok. cbn [app] in *. split; [destruct Hb as [-> | ?]; [cbn; lia|done]|].
  induction HF as [|v' s vs ss Hv HF IH]; [done|]. constructor; [by exists v'|]. apply IH. destruct Hb as [? | Hb]; [done|]. right. cbn in Hb. lia.
Qed.
Lemma items_again (f : pyval → hres string) l : Forall (λ s, f (VStr s) = Ok s) l → (length l <= MAX_ITEMS)%nat → bounded_items f (strs l) = Ok l.
Proof.
  intros HF Hl. unfold bounded_items, strs. cbn [iter_of mbind res_bind]. apply push_items. exists l. split; [|split; [done|by right]].
  apply Forall2_fmap_l. clear Hl. induction HF; by constructor.
Qed.

Lemma reason_ok v r : _reason v = Ok r → r ∈ HandoffReason.
Proof. destruct v as [| | | |s| | | | |]; try (cbn; by destruct (hashable _)); try discriminate. cbn [_reason]. case_bool_decide; [by intros [= <-]|discriminate]. Qed.
Lemma reason_again r : r ∈ HandoffReason → _reason (VStr r) = Ok r.
Proof. unfold HandoffReason. rewrite !elem_of_cons, elem_of_nil. by intros [-> | [-> | [-> | [-> | [-> | []]]]]]. Qed.

Lemma epoch_ok v n : epoch_of v = Ok n → (0 <= n)%Z.
Proof. destruct v; try discriminate. cbn [epoch_of]. destruct (0 <=? z)%Z eqn:E; [|discriminate]. intros [= <-]. by apply Z.leb_le. Qed.
Record lineage_ok (l : HandoffLineage) : Prop := {
  li_ids : Forall safe_id [mission_id l; mission_run_id l; task_id l; source_lane_id l; attempt_id l; session_id l; target_role l];
  li_epoch : (0 <= owner_epoch l)%Z }.
Lemma new_lineage_ok a b c d e f g n l : new_lineage a b c d e f g n = Ok l → lineage_ok l.
Proof.
  unfold new_lineage. intros (x1 & H1%bounded_id_ok & H)%bind_ok. apply bind_ok in H as (x2 & H2%bounded_id_ok & H). apply bind_ok in H as (x3 & H3%bounded_id_ok & H).
  apply bind_ok in H as (x4 & H4%bounded_id_ok & H). apply bind_ok in H as (x5 & H5%bounded_id_ok & H). apply bind_ok in H as (x6 & H6%bounded_id_ok & H).
  apply bind_ok in H as (x7 & H7%bounded_id_ok & H). apply bind_ok in H as (n' & Hn%epoch_ok & <-%ok_inj). constructor; [|done]. repeat (constructor; [done|]). constructor.
Qed.
Lemma lineage_again l : lineage_ok l → new_lineage (VStr (mission_id l)) (VStr (mission_run_id l)) (VStr (task_id l)) (VStr (source_lane_id l)) (VStr (attempt_id l))
  (VStr (session_id l)) (VStr (target_role l)) (VInt (owner_epoch l)) = Ok l.
Proof.
  intros [HF Hn]. repeat (apply Forall_cons in HF as [? HF]). unfold new_lineage. rewrite !safe_id_again by done. cbn [mbind res_bind epoch_of].
  rewrite (proj2 (Z.leb_le _ _) Hn). by destruct l.
Qed.

(** *** What [create_handoff] makes *)

Definition claims : dict := map (λ k, (VStr k, VBool false)) ["external_dispatch"; "secrets_included"; "native_handles_included"; "distributed_lease_or_cas"].
Lemma claims_kept : _safe_metadata safety_claims 0 0 = Ok (VProxy claims, 5%nat).
Proof. vm_compute. reflexivity. Qed.

Definition local_ref (s : string) : Prop :=
  search _EXTERNAL_URL s = false ∧ startswith s "/" = false ∧ startswith s "~" = false ∧ startswith s "[PATH REDACTED]" = false ∧ startswith s "[URL REDACTED]" = false.
Lemma ref_local v s : _ref v = Ok s → local_ref s.
Proof.
  unfold _ref. intros (t & _ & H)%bind_ok. apply bind_ok in H as (u & Hu%handoff_require_ok%negb_true_iff & <-%ok_inj). rewrite !orb_false_iff in Hu. unfold local_ref. tauto.
Qed.
Record artifact_ok (a : HandoffArtifact) : Prop := {
  ar_id : safe_id (handoff_id a);
  ar_reason : reason a ∈ HandoffReason;
  ar_items : Forall (λ l, (length l <= MAX_ITEMS)%nat) [completed a; remaining a; decisions a; risks a; evidence_refs a];
  ar_refs : evidence_refs a ≠ [] ∧ Forall local_ref (evidence_refs a);
  ar_lineage : lineage_ok (lineage a);
  ar_safety : safety a = VProxy claims;
  ar_named : handoff_id a = strip ("handoff:" +:+ sha256_hex (identity_text (lineage a) (reason a))) }.

(** An artifact that some arguments create. *)
Inductive created : HandoffArtifact → Prop :=
| Created a1 a2 a3 a4 a5 a6 a7 a8 a9 a10 a11 a12 a13 a14 a15 a16 a :
    create_handoff a1 a2 a3 a4 a5 a6 a7 a8 a9 a10 a11 a12 a13 a14 a15 a16 = Ok a → created a.

Lemma bounded_id_val v s : _bounded_id v = Ok s → ∃ t, v = VStr t ∧ s = strip t.
Proof.
  unfold _bounded_id. intros (t & (-> & _)%bounded_ok & H)%bind_ok. apply bind_ok in H as (u1 & _ & H). apply bind_ok in H as (u2 & _ & <-%ok_inj). by exists t.
Qed.
Lemma bounded_refs_length v l : _bounded_refs v = Ok l → ∃ vs, iter_of v = Ok vs ∧ length vs = length l.
Proof. unfold _bounded_refs, bounded_items. intros (vs & Hv & (ss & HF & -> & _)%push_items)%bind_ok. exists vs. split; [done|]. cbn [app]. by apply Forall2_length in HF. Qed.

Lemma created_ok a : created a → artifact_ok a.
Proof.
  intros [a1 a2 a3 a4 a5 a6 a7 a8 a9 a10 a11 a12 a13 a14 a15 a16 a' H]. unfold create_handoff in H.
  apply bind_ok in H as (l & Hl%new_lineage_ok & H). apply bind_ok in H as (r & Hr%reason_ok & H). apply bind_ok in H as (refs & Hrefs & H).
  apply bind_ok in H as (u & Hne%handoff_require_ok & H). cbv zeta in H.
  apply bind_ok in H as (c1 & _ & H). apply bind_ok in H as (c2 & _ & H). apply bind_ok in H as (c3 & _ & H). apply bind_ok in H as (c4 & _ & H).
  unfold new_artifact in H. apply bind_ok in H as (id & Hid & H). rewrite (reason_again _ Hr) in H. cbn [mbind res_bind] in H.
  apply bind_ok in H as (s & _ & H). apply bind_ok in H as (n & _ & H).
  apply bind_ok in H as (d1 & [H1 _]%items_ok & H). apply bind_ok in H as (d2 & [H2 _]%items_ok & H). apply bind_ok in H as (d3 & [H3 _]%items_ok & H).
  apply bind_ok in H as (d4 & [H4 _]%items_ok & H). apply bind_ok in H as (d5 & H5 & H).
  rewrite claims_kept in H. change (is_mapping safety_claims) with true in H. cbn [require ensure mbind res_bind] in H. apply ok_inj in H as <-.
  pose proof (bounded_refs_length _ _ H5) as (vs & [= <-] & Hlen). rewrite length_map in Hlen. apply items_ok in H5 as [H5 H6].
  constructor; cbn [handoff_id reason completed remaining decisions risks evidence_refs lineage safety].
  - by eapply bounded_id_ok.
  - done.
  - by repeat (constructor; [assumption|]).
  - split; [intros ->; by destruct refs|]. eapply Forall_impl; [exact H6|]. intros x [v Hv]. by eapply ref_local.
  - done.
  - done.
  - by apply bounded_id_val in Hid as (t & [= <-] & ->).
Qed.

(** *** Reading back what was written *)

Lemma get_reload k d : dget_or VNone k (reload_dict d) = reload (dget_or VNone k d).
Proof. unfold dget_or. rewrite dget_reload. by destruct (dget k d). Qed.
Lemma keys_read fields d : same_keys fields (reload_dict d) = same_keys fields d.
Proof.
  unfold same_keys. rewrite has_unknown_reload. f_equal. induction fields as [|k fields IH]; [done|]. cbn [forallb]. by rewrite dhas_reload, IH.
Qed.
Lemma strs_read l : reload (strs l) = strs l.
Proof. unfold strs. cbn [reload]. f_equal. rewrite map_map. by apply map_ext. Qed.

(** An artifact whose texts a second pass leaves alone. *)
Record settled (a : HandoffArtifact) : Prop := {
  se_texts : Forall (λ t, _sanitize_text (VStr t) = Ok t) ([summary a; next_action a] ++ completed a ++ remaining a ++ decisions a ++ risks a)%list;
  se_refs : Forall (λ r, _ref (VStr r) = Ok r) (evidence_refs a) }.

(** The metadata of a created artifact, as it is read back. *)
Definition claims_read : pyval := VProxy (sort_by kv_leb claims).
Lemma claims_again : _safe_metadata (reload (_thaw (VProxy claims))) 0 0 = Ok (claims_read, 5%nat).
Proof. vm_compute. reflexivity. Qed.
Definition read_artifact (a : HandoffArtifact) : HandoffArtifact :=
  MkArtifact (handoff_id a) (reason a) (summary a) (completed a) (remaining a) (decisions a) (risks a) (evidence_refs a) (next_action a) (lineage a) claims_read.
Lemma read_same a : artifact_ok a → same_artifact (read_artifact a) a = true.
Proof.
  intros Ha. unfold same_artifact, read_artifact. cbn [handoff_id reason summary completed remaining decisions risks evidence_refs next_action lineage safety].
  rewrite bool_decide_true by (by repeat split). rewrite (ar_safety a Ha). vm_compute. reflexivity.
Qed.

Lemma lineage_read l : lineage_ok l → lineage_of (reload_dict (lineage_dict l)) = Ok l.
Proof.
  intros Hl. unfold lineage_of. rewrite keys_read. assert (same_keys LINEAGE_KEYS (lineage_dict l) = true) as -> by reflexivity. cbn [ensure mbind res_bind]. cbv zeta.
  rewrite !get_reload. exact (lineage_again l Hl).
Qed.
Lemma new_artifact_again a id : artifact_ok a → settled a → id = handoff_id a →
  new_artifact (VStr id) (VStr (reason a)) (VStr (summary a)) (strs (completed a)) (strs (remaining a)) (strs (decisions a)) (strs (risks a)) (strs (evidence_refs a))
    (VStr (next_action a)) (lineage a) (reload (_thaw (safety a))) = Ok (read_artifact a).
Proof.
  intros [Hid Hr Hi [_ Hloc] Hl Hs _] [Ht Hrf] ->. rewrite Hs. unfold new_artifact. rewrite (safe_id_again _ Hid), (reason_again _ Hr). cbn [mbind res_bind].
  cbn [app] in Ht. apply Forall_cons in Ht as [H1 Ht]. apply Forall_cons in Ht as [H2 Ht]. apply Forall_app in Ht as [Hc Ht]. apply Forall_app in Ht as [Hre Ht]. apply Forall_app in Ht as [Hd Hri].
  repeat (apply Forall_cons in Hi as [? Hi]). rewrite H1. cbn [mbind res_bind]. rewrite H2. cbn [mbind res_bind]. unfold _items, _bounded_refs.
  rewrite !items_again by done. cbn [mbind res_bind].
  rewrite claims_again. change (is_mapping (reload (_thaw (VProxy claims)))) with true. reflexivity.
Qed.
Lemma artifact_read a : artifact_ok a → settled a → artifact_of (reload (VDict (artifact_dict a))) (handoff_id a) = Ok (read_artifact a).
Proof.
  intros Ha Hs. rewrite reload_VDict. unfold artifact_of. cbn [dict_of mbind res_bind]. rewrite keys_read.
  assert (same_keys ARTIFACT_KEYS (artifact_dict a) = true) as -> by reflexivity. cbn [require ensure mbind res_bind]. cbv zeta. rewrite !get_reload.
  change (dget_or VNone "handoff_id" (artifact_dict a)) with (VStr (handoff_id a)). change (dget_or VNone "reason" (artifact_dict a)) with (VStr (reason a)).
  change (dget_or VNone "summary" (artifact_dict a)) with (VStr (summary a)). change (dget_or VNone "next_action" (artifact_dict a)) with (VStr (next_action a)).
  change (dget_or VNone "completed" (artifact_dict a)) with (strs (completed a)). change (dget_or VNone "remaining" (artifact_dict a)) with (strs (remaining a)).
  change (dget_or VNone "decisions" (artifact_dict a)) with (strs (decisions a)). change (dget_or VNone "risks" (artifact_dict a)) with (strs (risks a)).
  change (dget_or VNone "evidence_refs" (artifact_dict a)) with (strs (evidence_refs a)).
  change (dget_or VNone "lineage" (artifact_dict a)) with (VDict (lineage_dict (lineage a))). change (dget_or VNone "safety" (artifact_dict a)) with (_thaw (safety a)).
  assert (∀ s, py_eqb (reload (VStr s)) (VStr s) = true) as Heq by (intros s; cbn; by apply bool_decide_eq_true). rewrite Heq, !strs_read, reload_VDict.
  assert (forallb (λ k, is_dict_list (dget_or VNone k (reload_dict (artifact_dict a)))) ["completed"; "remaining"; "decisions"; "risks"; "evidence_refs"] = true) as -> by reflexivity.
  cbn [require ensure mbind res_bind dict_of].
  rewrite (ar_safety a Ha). change (dict_of (reload (_thaw (VProxy claims)))) with (Ok (reload_dict claims) : hres dict). cbn [mbind res_bind].
  rewrite (lineage_read _ (ar_lineage a Ha)). cbn [mbind res_bind]. rewrite <- (ar_safety a Ha). by apply new_artifact_again.
Qed.

Definition content_of_save (a : HandoffArtifact) (status : string) (refs : list string) (text : string) : dict :=
  (_payload a status refs ++ [(VStr "checksum", VStr (sha256_hex text))])%list.
Lemma decode_written a status refs text : artifact_ok a → settled a → _canonical_json (VDict (_payload a status refs)) = Ok text →
  _sanitize_text (VStr status) = Ok status → Forall (λ r, _ref (VStr r) = Ok r) refs → (length refs <= MAX_ITEMS)%nat →
  _decode (Some (reload (VDict (content_of_save a status refs text)))) (handoff_id a) = Ok (MkEnvelope (read_artifact a) status refs (sha256_hex text)).
Proof.
  intros Ha Hs Ht Hst Hr Hl. unfold _decode. enough (decode_payload (Some (reload (VDict (content_of_save a status refs text)))) (handoff_id a) =
    Ok (MkEnvelope (read_artifact a) status refs (sha256_hex text))) as -> by done.
  rewrite reload_VDict. unfold decode_payload. cbn [dict_of mbind res_bind]. rewrite keys_read.
  assert (same_keys ENVELOPE_KEYS (content_of_save a status refs text) = true) as -> by reflexivity. cbn [require ensure mbind res_bind]. cbv zeta.
  rewrite dpop_reload. assert (dpop "checksum" (content_of_save a status refs text) = _payload a status refs) as -> by reflexivity. rewrite !get_reload.
  rewrite <- reload_VDict. assert (_canonical_json (reload (VDict (_payload a status refs))) = Ok text) as ->.
  { unfold _canonical_json in *. destruct (json_dumps (VDict (_payload a status refs))) as [t|e] eqn:E; [|discriminate]. injection Ht as ->. by rewrite (dumps_reload _ _ E). }
  cbn [mbind res_bind]. change (dget_or VNone "checksum" (content_of_save a status refs text)) with (VStr (sha256_hex text)).
  assert (∀ s, py_eqb (reload (VStr s)) (VStr s) = true) as Heq by (intros s; cbn; by apply bool_decide_eq_true). rewrite Heq.
  change (dget_or VNone "schema_version" (_payload a status refs)) with (VInt HANDOFF_SCHEMA_VERSION). change (dget_or VNone "handoff_id" (_payload a status refs)) with (VStr (handoff_id a)).
  change (dget_or VNone "evidence_refs" (_payload a status refs)) with (strs refs). change (dget_or VNone "artifact" (_payload a status refs)) with (VDict (artifact_dict a)).
  change (dget_or VNone "status" (_payload a status refs)) with (VStr status). rewrite strs_read, artifact_read by done.
  change (reload (VStr (handoff_id a))) with (VStr (handoff_id a)). change (reload (VStr status)) with (VStr status).
  change (reload (VInt HANDOFF_SCHEMA_VERSION)) with (VInt HANDOFF_SCHEMA_VERSION). cbv iota beta. rewrite Z.eqb_refl. cbn [require ensure mbind res_bind].
  rewrite bool_decide_true by done. cbn [require ensure mbind res_bind strs]. rewrite length_map, (proj2 (Nat.leb_le _ _) Hl). cbn [mbind res_bind].
  rewrite Hst. cbn [mbind res_bind]. assert (mapM _ref (map VStr refs) = Ok refs) as ->; [|done].
  apply mapM_res_ok, Forall2_fmap_l. clear -Hr. induction Hr; by constructor.
Qed.

(** ** Properties *)

(** Every handoff artifact that is created is bounded and safe: its lineage
    is made of printable identifiers that hold no URL, path, prompt, handle or
    secret assignment, its reason is one of the five, it has at most 32 items
    of each kind and between 1 and 32 evidence references, none of them
    absolute or external, its metadata is the fixed list of negative claims,
    and its id is determined by its lineage and reason alone. *)
Theorem handoff_sound a : created a → artifact_ok a.
Proof. apply created_ok. Qed.

Lemma load_stored s (fs : files) a id raw env : _safe_segment (VStr (handoff_id a)) = Ok id → fs !! id = Some raw → _decode raw id = Ok env →
  owns s (lineage (artifact env)) = true → load s fs (VStr (handoff_id a)) = Ok env.
Proof.
  intros Hid Hf Hd Ho. unfold load. rewrite Hid. cbn [mbind res_bind]. rewrite Hf. cbn [mbind res_bind]. rewrite Hd. cbn [mbind res_bind]. unfold _check_owner. by rewrite Ho.
Qed.
Lemma segment_ok v id : _safe_segment v = Ok id → v = VStr id.
Proof. destruct v as [| | | |s| | | | |]; try discriminate. cbn [_safe_segment]. destruct (_ && _); [by intros [= ->]|discriminate]. Qed.
Lemma save_new s (fs fs' : files) a status refs env : save s fs a status refs = Ok (fs', env) → fs !! handoff_id a = None → ∃ st rs text,
  owns s (lineage a) = true ∧ _sanitize_text status = Ok st ∧ _bounded_refs refs = Ok rs ∧ _canonical_json (VDict (_payload a st rs)) = Ok text ∧
  _safe_segment (VStr (handoff_id a)) = Ok (handoff_id a) ∧ env = MkEnvelope a st rs (sha256_hex text) ∧
  fs' = <[handoff_id a := Some (reload (VDict (content_of_save a st rs text)))]> fs.
Proof.
  unfold save. intros ([] & Ho%handoff_require_ok & H)%bind_ok Hf. apply bind_ok in H as (st & Hst & H). apply bind_ok in H as (rs & Hrs & H). apply bind_ok in H as (text & Ht & H).
  cbv zeta in H. apply bind_ok in H as (id & Hid & H). pose proof (segment_ok _ _ Hid) as E. injection E as E. rewrite <- E in *. rewrite Hf in H.
  apply ok_inj in H. injection H as <- <-. by exists st, rs, text.
Qed.

(** A handoff that is saved is durable when redaction is final on it: it
    loads with the same content, and saving it again is accepted and changes
    nothing. *)
Theorem handoff_durable s (fs fs' : files) a status refs env : created a → settled a → fs !! handoff_id a = None → save s fs a status refs = Ok (fs', env) →
  _sanitize_text (VStr (envelope_status env)) = Ok (envelope_status env) → Forall (λ r, _ref (VStr r) = Ok r) (envelope_refs env) →
  ∃ env', load s fs' (VStr (handoff_id a)) = Ok env' ∧ same_envelope env' env = true ∧ save s fs' a status refs = Ok (fs', env').
Proof.
  intros Ha%created_ok Hs Hf H Hst Hr. destruct (save_new _ _ _ _ _ _ _ H Hf) as (st & rs & text & Ho & Hstat & Hrs & Ht & Hid & -> & ->). cbn [envelope_status envelope_refs] in *.
  pose proof (items_ok _ _ _ Hrs) as [Hl _]. pose proof (decode_written a st rs text Ha Hs Ht Hst Hr Hl) as Hd.
  set (env' := MkEnvelope (read_artifact a) st rs (sha256_hex text)) in *.
  set (fs' := <[handoff_id a := Some (reload (VDict (content_of_save a st rs text)))]> fs).
  assert (load s fs' (VStr (handoff_id a)) = Ok env') as Hload by (eapply load_stored; [exact Hid|apply lookup_insert_eq|exact Hd|exact Ho]).
  assert (same_envelope env' (MkEnvelope a st rs (sha256_hex text)) = true) as Hsame.
  { unfold same_envelope. cbn [artifact envelope_status envelope_refs checksum env']. rewrite (read_same a Ha), bool_decide_true by done. done. }
  exists env'. split; [done|]. split; [done|]. unfold save, _check_owner. rewrite Ho. cbn [require ensure mbind res_bind]. rewrite Hstat. cbn [mbind res_bind]. rewrite Hrs. cbn [mbind res_bind].
  rewrite Ht. cbn [mbind res_bind]. cbv zeta. rewrite Hid. cbn [mbind res_bind]. unfold fs' at 1. rewrite lookup_insert_eq. rewrite Hload. cbn [mbind res_bind]. by rewrite Hsame.
Qed.

Definition stripped_id (v : pyval) : string := match v with VStr s => s | _ => "" end.

(** The store is fenced and write-once: what loads belongs to the run, the
    epoch and the lineage of the store and its stored text has the stored
    checksum; a save never changes or removes a record that is there. *)
Theorem handoff_fenced s (fs : files) :
  (∀ id env, load s fs id = Ok env → owns s (lineage (artifact env)) = true ∧ ∃ d text, fs !! stripped_id id = Some (Some (VDict d)) ∧
     _canonical_json (VDict (dpop "checksum" d)) = Ok text ∧ checksum env = sha256_hex text ∧ dget_or VNone "checksum" d = VStr (sha256_hex text)) ∧
  (∀ a status refs fs' env, save s fs a status refs = Ok (fs', env) → owns s (lineage a) = true ∧ ∀ id r, fs !! id = Some r → fs' !! id = Some r).
Proof.
  split.
  - intros id env. unfold load. intros (i & Hi & H)%bind_ok. apply bind_ok in H as (raw & Hraw & H). apply bind_ok in H as (e & He & H).
    apply bind_ok in H as ([] & Ho%handoff_require_ok & <-%ok_inj). split; [done|]. apply segment_ok in Hi as ->. cbn [stripped_id].
    destruct (fs !! i) as [raw'|] eqn:Ef; [|discriminate]. injection Hraw as ->. unfold _decode in He. destruct (decode_payload raw i) as [e'|] eqn:Ed; [|discriminate]. injection He as ->.
    unfold decode_payload in Ed. apply bind_ok in Ed as (v & Hv & Ed). destruct raw as [v'|]; [|discriminate]. injection Hv as ->.
    apply bind_ok in Ed as (d & Hd & Ed). destruct v as [| | | | | | |d'| |]; try discriminate. injection Hd as ->. apply bind_ok in Ed as (u1 & _ & Ed). cbv zeta in Ed.
    apply bind_ok in Ed as (text & Ht & Ed). apply bind_ok in Ed as (u2 & Hc%handoff_require_ok & Ed). exists d, text. do 2 (split; [done|]).
    do 2 (apply bind_ok in Ed as (? & _ & Ed)). apply bind_ok in Ed as (rs & _ & Ed). apply bind_ok in Ed as (a & _ & Ed). apply bind_ok in Ed as (st & _ & Ed).
    apply bind_ok in Ed as (rs' & _ & <-%ok_inj). split; [done|]. destruct (dget_or VNone "checksum" d); try discriminate. apply bool_decide_eq_true in Hc. by subst.
  - intros a status refs fs' env. unfold save. intros ([] & Ho%handoff_require_ok & H)%bind_ok. split; [done|]. intros id r Hr. apply bind_ok in H as (st & _ & H).
    apply bind_ok in H as (rs & _ & H). apply bind_ok in H as (text & _ & H). cbv zeta in H. apply bind_ok in H as (i & _ & H). destruct (fs !! i) as [raw|] eqn:Ef.
    + apply bind_ok in H as (e & _ & H). destruct (same_envelope _ _); [|discriminate]. apply ok_inj in H. by injection H as <- _.
    + apply ok_inj in H. injection H as <- _. rewrite lookup_insert_ne; [done|]. intros ->. congruence.
Qed.

(** ** A concrete handoff *)

Definition blank_lineage : HandoffLineage := MkLineage "" "" "" "" "" "" "" 0.
Definition demo_artifact : HandoffArtifact := Eval vm_compute in
  match demo_create "half done" with Ok a => a | Err _ => MkArtifact "" "" "" [] [] [] [] [] "" blank_lineage VNone end.
Lemma demo_handoff_created : created demo_artifact.
Proof.
  apply (Created (VStr "m1") (VStr "run-1") (VStr "t1") (VStr "lane") (VStr "a1") (VStr "s1") (VStr "coder") (VInt 2) (VStr "worker_lost") (VStr "half done")
    (VList [VStr "one"]) (VList []) (VList []) (VTuple [VStr "slow"]) (VList [VStr "report:1"]) (VStr "retry it")).
  vm_compute. reflexivity.
Qed.
Lemma handoff_sound_witness : artifact_ok demo_artifact.
Proof. exact (handoff_sound demo_artifact demo_handoff_created). Defined.
Lemma demo_settled : settled demo_artifact.
Proof.
  assert (forallb (λ t, bool_decide (_sanitize_text (VStr t) = Ok t)) ["half done"; "retry it"; "one"; "slow"] = true) as H by (vm_compute; reflexivity).
  rewrite forallb_true_iff in H. constructor.
  - apply Forall_forall. intros t Ht. exact (bool_decide_eq_true_1 _ (H t Ht)).
  - constructor; [vm_compute; reflexivity|constructor].
Qed.
Definition demo_saved : files * HandoffEnvelope := Eval vm_compute in
  match save demo_store ∅ demo_artifact (VStr "open") (VList [VStr "report:1"]) with Ok r => r | Err _ => (∅, MkEnvelope demo_artifact "" [] "") end.
Lemma demo_save : save demo_store ∅ demo_artifact (VStr "open") (VList [VStr "report:1"]) = Ok (demo_saved.1, demo_saved.2).
Proof. vm_compute. reflexivity. Qed.
Lemma demo_refs : Forall (λ r, _ref (VStr r) = Ok r) (envelope_refs demo_saved.2).
Proof. constructor; [vm_compute; reflexivity|constructor]. Qed.
Lemma demo_status : _sanitize_text (VStr (envelope_status demo_saved.2)) = Ok (envelope_status demo_saved.2).
Proof. vm_compute. reflexivity. Qed.
Lemma handoff_durable_witness : ∃ env', load demo_store demo_saved.1 (VStr (handoff_id demo_artifact)) = Ok env' ∧ same_envelope env' demo_saved.2 = true ∧
  save demo_store demo_saved.1 demo_artifact (VStr "open") (VList [VStr "report:1"]) = Ok (demo_saved.1, env').
Proof.
  exact (handoff_durable demo_store ∅ demo_saved.1 demo_artifact (VStr "open") (VList [VStr "report:1"]) demo_saved.2 demo_handoff_created demo_settled eq_refl demo_save demo_status demo_refs).
Defined.
