(* ===== verification/Supervision.v ===== *)
(** * Health signals, diagnoses and supervisor reports
      (scripts/pd_fleet/supervision.py, supervisor.py)

    Signals and snapshots with their checks, intervention proposals, diagnoses,
    [diagnose_snapshot], [reconcile_snapshot], and the report that
    [FleetSupervisor.observe] builds.  The delegating methods of
    [FleetSupervisor] are the functions they call. *)

From S2P Require Import Prelude PyStr PyNum PyVal Regex Handoff.

Open Scope string_scope.

Inductive sv_error : Type := SupervisionError | BadValue | BadType | OverflowError.
#[export] Instance sv_error_eq_dec : EqDecision sv_error.
Proof. solve_decision. Defined.
Notation vres := (res sv_error).
Definition of_handoff (e : handoff_error) : sv_error := match e with ValueError => BadValue | TypeError => BadType end.
Definition demand (b : bool) : vres unit := ensure b SupervisionError.

Definition _ALLOWED : list (string * list string) :=
  [("liveness", ["alive"; "missing"; "unknown"]); ("readiness", ["ready"; "not_ready"; "unknown"]);
   ("progress", ["advanced"; "stalled"; "unknown"]); ("health", ["healthy"; "degraded"; "failed"; "unknown"])].
Definition MAX_AGE_SECONDS : Z := 2592000.
Definition HEARTBEAT_SUSPECT_SECONDS : Z := 60.
Definition HEARTBEAT_HUMAN_SECONDS : Z := 300.
Definition PROGRESS_SLOW_SECONDS : Z := 300.
Definition _DIAGNOSIS_STATUSES : list string := ["healthy"; "slow"; "suspected"; "blocked"; "degraded"; "failed"; "needs_human_intervention"].

Definition allowed_of (name : string) : list string := default [] (snd <$> List.find (λ kv, bool_decide (kv.1 = name)) _ALLOWED).
Definition _signal (name : string) (v : pyval) : vres string :=
  match v with VStr s => if bool_decide (s ∈ allowed_of name) then Ok s else Err SupervisionError | _ => Err SupervisionError end.
(** The identifier check of this module differs from the handoff's only in its exception. *)
Definition bounded_id (v : pyval) : vres string := map_err (λ _, SupervisionError) (_bounded_id v).

Record HealthSignal : Type := MkSignal { liveness : string; readiness : string; progress : string; health : string }.
Definition new_signal (liveness readiness progress health : pyval) : vres HealthSignal :=
  a ← _signal "liveness" liveness; b ← _signal "readiness" readiness; c ← _signal "progress" progress; d ← _signal "health" health;
  Ok (MkSignal a b c d).

Record HealthSnapshot : Type := MkSnapshot {
  mission_run_id : string; task_id : string; lane_id : string; owner_epoch : Z; signal : HealthSignal;
  mission_id : string; attempt_id : string; session_id : string;
  last_heartbeat_age_seconds : option pynum; last_progress_age_seconds : option pynum }.

(** An integer that no float can hold makes [math.isfinite] raise. *)
Definition age_of (v : pyval) : vres (option pynum) :=
  let in_range x := if negb (num_ltb x (NInt 0)) && negb (num_ltb (NInt MAX_AGE_SECONDS) x) then Ok (Some x) else Err SupervisionError in
  match v with
  | VNone => Ok None
  | VInt z => match float_of_Z z with Some _ => in_range (NInt z) | None => Err OverflowError end
  | VFloat f => if is_finite f then in_range (NFloat f) else Err SupervisionError
  | _ => Err SupervisionError
  end.
Definition new_snapshot (mission_run_id task_id lane_id owner_epoch : pyval) (signal : HealthSignal)
    (mission_id attempt_id session_id heartbeat progress : pyval) : vres HealthSnapshot :=
  run ← bounded_id mission_run_id; task ← bounded_id task_id; lane ← bounded_id lane_id;
  mission ← bounded_id mission_id; attempt ← bounded_id attempt_id; session ← bounded_id session_id;
  epoch ← map_err (λ _, SupervisionError) (epoch_of owner_epoch);
  h ← age_of heartbeat; p ← age_of progress;
  Ok (MkSnapshot run task lane epoch signal mission attempt session h p).

(** ** Proposals and diagnoses *)

Record InterventionProposal : Type := MkProposal {
  action : string; p_reason : string; target : string; p_refs : list string; human_gate_required : bool }.
Definition new_proposal (action reason target evidence_refs human : pyval) : vres InterventionProposal :=
  action ← map_err of_handoff (_sanitize_text action);
  target ← bounded_id target;
  reason ← match reason with
           | VStr s => if bool_decide (s ∈ HandoffReason) then Ok s else Err SupervisionError
           | v => Err (if hashable v then SupervisionError else BadType)
           end;
  l ← match evidence_refs with VStr _ => Err SupervisionError | v => map_err of_handoff (iter_of v) end;
  refs ← map_err of_handoff (mapM _ref l);
  _ ← demand (match refs with [] => false | _ => true end && (length refs <=? 32)%nat);
  match human with
  | VBool b => Ok (MkProposal action reason target refs b)
  | _ => Err SupervisionError
  end.

Record SupervisorDiagnosis : Type := MkDiagnosis { d_status : string; d_reasons : list string; d_proposals : list InterventionProposal }.
Definition PROPOSAL_KEYS : list string := ["action"; "reason"; "target"; "evidence_refs"; "human_gate_required"].
(** A proposal, or the mapping that [InterventionProposal( **item )] is made from. *)
Definition proposal_of (item : InterventionProposal + pyval) : vres InterventionProposal :=
  match item with
  | inl p => Ok p
  | inr v => match entries v with
             | Some d => _ ← ensure (same_keys PROPOSAL_KEYS d) BadType;
                         let get k := dget_or VNone k d in
                         new_proposal (get "action") (get "reason") (get "target") (get "evidence_refs") (get "human_gate_required")
             | None => Err SupervisionError
             end
  end.
Definition new_diagnosis (status : pyval) (reasons : pyval) (proposals : list (InterventionProposal + pyval)) : vres SupervisorDiagnosis :=
  status ← match status with VStr s => if bool_decide (s ∈ _DIAGNOSIS_STATUSES) then Ok s else Err SupervisionError | _ => Err SupervisionError end;
  reasons ← map_err (λ _, SupervisionError) (l ← iter_of reasons; mapM _sanitize_text l);
  _ ← demand ((length reasons <=? 32)%nat && (list_sum (map String.length reasons) <=? 16000)%nat);
  _ ← demand (length proposals <=? 32)%nat;
  proposals ← mapM proposal_of proposals;
  Ok (MkDiagnosis status reasons proposals).

Definition snapshot_ref (s : HealthSnapshot) : string := "snapshot:" +:+ s.(mission_run_id) +:+ ":" +:+ s.(task_id).
Definition _proposal (action reason : string) (s : HealthSnapshot) (human : bool) : vres InterventionProposal :=
  new_proposal (VStr action) (VStr reason) (VStr s.(task_id)) (VTuple [VStr (snapshot_ref s)]) (VBool human).

(** [SupervisorDiagnosis(status, reasons)], and with one proposal. *)
Definition plain_diagnosis (status : string) (reasons : list string) : vres SupervisorDiagnosis := new_diagnosis (VStr status) (VTuple (map VStr reasons)) [].
Definition with_proposal (status : string) (reasons : list string) (reason : string) (s : HealthSnapshot) (human : bool) : vres SupervisorDiagnosis :=
  p ← _proposal "inspect" reason s human; new_diagnosis (VStr status) (VTuple (map VStr reasons)) [inl p].

Definition at_least (age : option pynum) (seconds : Z) : bool := match age with Some x => negb (num_ltb x (NInt seconds)) | None => false end.
Definition diagnose_snapshot (s : HealthSnapshot) : vres SupervisorDiagnosis :=
  let g := s.(signal) in
  let heartbeat := s.(last_heartbeat_age_seconds) in
  if bool_decide (g.(health) = "failed") then with_proposal "failed" ["worker_reported_failed"] "human_intervention" s true
  else if bool_decide (g.(liveness) = "missing") then
    if at_least heartbeat HEARTBEAT_HUMAN_SECONDS
    then with_proposal "needs_human_intervention" ["heartbeat_missing_too_long"] "human_intervention" s true
    else plain_diagnosis "suspected" ["heartbeat_missing"]
  else if bool_decide (g.(readiness) = "not_ready") then with_proposal "blocked" ["worker_not_ready"] "fallback" s false
  else if bool_decide (g.(progress) = "stalled") then
    if at_least s.(last_progress_age_seconds) PROGRESS_SLOW_SECONDS
    then with_proposal "slow" ["progress_stalled"; "progress_age_exceeded_slow_threshold"] "retry" s false
    else plain_diagnosis "suspected" ["progress_stalled"]
  else if bool_decide (g.(health) = "degraded") then with_proposal "degraded" ["health_degraded"] "fallback" s false
  else if bool_decide ("unknown" ∈ [g.(liveness); g.(readiness); g.(progress); g.(health)]) then plain_diagnosis "suspected" ["incomplete_health_signal"]
  else if at_least heartbeat HEARTBEAT_SUSPECT_SECONDS then plain_diagnosis "suspected" ["heartbeat_age_exceeded_suspect_threshold"]
  else plain_diagnosis "healthy" [].

Definition DESIRED : list string := ["running"; "paused"; "completed"; "cancelled"].
Definition reconcile_snapshot (s : HealthSnapshot) (desired_state : string) (active_owner_epoch : pyval) : vres SupervisorDiagnosis :=
  _ ← demand (bool_decide (desired_state ∈ DESIRED));
  active ← match active_owner_epoch with VNone => Ok None | v => Some <$> map_err (λ _, SupervisionError) (epoch_of v) end;
  if match active with Some e => negb (s.(owner_epoch) =? e)%Z | None => false end then plain_diagnosis "blocked" ["stale_owner_epoch"]
  else if bool_decide (desired_state = "running") then diagnose_snapshot s
  else if bool_decide (desired_state = "paused") && bool_decide (s.(signal).(liveness) = "alive") then plain_diagnosis "degraded" ["pause_not_observed"]
  else if bool_decide (desired_state ∈ ["completed"; "cancelled"]) && negb (bool_decide (s.(signal).(progress) = "advanced"))
  then plain_diagnosis "blocked" ["terminal_state_not_ready"]
  else plain_diagnosis "healthy" [].

(** ** The supervisor's report *)

Record lineage_view : Type := MkView {
  lv_mission : string; lv_run : string; lv_task : string; lv_lane : string; lv_attempt : string; lv_session : string; lv_epoch : Z }.
Record SupervisorReport : Type := MkReport { diagnosis : SupervisorDiagnosis; interventions : list InterventionProposal; report_lineage : option lineage_view }.
(** [SupervisorReport(...)] of a lineage that a snapshot wrote. *)
Definition new_report (d : SupervisorDiagnosis) (interventions : list InterventionProposal) (l : lineage_view) : vres SupervisorReport :=
  _ ← ensure (length interventions <=? 32)%nat BadValue;
  _ ← mapM (λ id, bounded_id (VStr id)) [l.(lv_mission); l.(lv_run); l.(lv_task); l.(lv_lane); l.(lv_attempt); l.(lv_session)];
  _ ← ensure (0 <=? l.(lv_epoch))%Z BadValue;
  Ok (MkReport d interventions (Some l)).
Definition lineage_to_dict (s : HealthSnapshot) : lineage_view :=
  MkView s.(mission_id) s.(mission_run_id) s.(task_id) s.(lane_id) s.(attempt_id) s.(session_id) s.(owner_epoch).
Definition observe (s : HealthSnapshot) (desired_state : string) (active_owner_epoch : pyval) : vres SupervisorReport :=
  d ← reconcile_snapshot s desired_state active_owner_epoch;
  new_report d d.(d_proposals) (lineage_to_dict s).

Definition demo_snapshot (run liveness health : string) (age : Z) : HealthSnapshot :=
  MkSnapshot run "t1" "lane" 2 (MkSignal liveness "ready" "advanced" health) "m" "a" "s" (Some (NInt age)) None.
Example diagnose_ex : map (λ s, d_status <$> diagnose_snapshot s)
  [demo_snapshot "r" "alive" "healthy" 59; demo_snapshot "r" "alive" "healthy" 60; demo_snapshot "r" "missing" "healthy" 300; demo_snapshot "r" "alive" "failed" 0] =
  [Ok "healthy"; Ok "suspected"; Ok "needs_human_intervention"; Ok "failed"].
Proof. vm_compute. reflexivity. Qed.

(** ** Lemmas *)

(** A snapshot that some arguments make. *)
Inductive observed : HealthSnapshot → Prop :=
| Observed l r p h g a1 a2 a3 a4 a5 a6 a7 a8 a9 s : new_signal l r p h = Ok g → new_snapshot a1 a2 a3 a4 g a5 a6 a7 a8 a9 = Ok s → observed s.
Record snapshot_ok (s : HealthSnapshot) : Prop := {
  sn_ids : Forall safe_id [mission_run_id s; task_id s; lane_id s; mission_id s; attempt_id s; session_id s];
  sn_epoch : (0 <= owner_epoch s)%Z;
  sn_signal : liveness (signal s) ∈ allowed_of "liveness" ∧ readiness (signal s) ∈ allowed_of "readiness" ∧
    progress (signal s) ∈ allowed_of "progress" ∧ health (signal s) ∈ allowed_of "health" }.

Lemma map_err_ok {E F A} (f : E → F) (m : res E A) a : map_err f m = Ok a ↔ m = Ok a.
Proof. destruct m; cbn; naive_solver. Qed.
Lemma bounded_safe v s : bounded_id v = Ok s → safe_id s.
Proof. intros H%map_err_ok. by eapply bounded_id_ok. Qed.
Lemma bounded_again s : safe_id s → bounded_id (VStr s) = Ok s.
Proof. intros H. apply map_err_ok. by apply safe_id_again. Qed.
Lemma signal_ok name v s : _signal name v = Ok s → s ∈ allowed_of name.
Proof. destruct v; try discriminate. cbn [_signal]. case_bool_decide; [by intros [= <-]|discriminate]. Qed.
Lemma observed_ok s : observed s → snapshot_ok s.
Proof.
  intros [l r p h g a1 a2 a3 a4 a5 a6 a7 a8 a9 s' Hg Hs]. unfold new_signal in Hg. apply bind_ok in Hg as (x1 & G1%signal_ok & Hg). apply bind_ok in Hg as (x2 & G2%signal_ok & Hg).
  apply bind_ok in Hg as (x3 & G3%signal_ok & Hg). apply bind_ok in Hg as (x4 & G4%signal_ok & <-%ok_inj).
  unfold new_snapshot in Hs. apply bind_ok in Hs as (y1 & H1%bounded_safe & Hs). apply bind_ok in Hs as (y2 & H2%bounded_safe & Hs). apply bind_ok in Hs as (y3 & H3%bounded_safe & Hs).
  apply bind_ok in Hs as (y4 & H4%bounded_safe & Hs). apply bind_ok in Hs as (y5 & H5%bounded_safe & Hs). apply bind_ok in Hs as (y6 & H6%bounded_safe & Hs).
  apply bind_ok in Hs as (n & Hn%map_err_ok%epoch_ok & Hs). apply bind_ok in Hs as (y7 & _ & Hs). apply bind_ok in Hs as (y8 & _ & <-%ok_inj).
  constructor; [repeat (constructor; [assumption|]); constructor|exact Hn|repeat split; assumption].
Qed.

(** The evidence of a proposal is a reference built from two identifiers; it
    has to be an acceptable reference itself. *)
Definition referable (s : HealthSnapshot) : Prop := ∃ r, _ref (VStr (snapshot_ref s)) = Ok r.

Definition fine_text (t : string) : bool := bool_decide (_sanitize_text (VStr t) = Ok t).
Lemma plain_ok status reasons : bool_decide (status ∈ _DIAGNOSIS_STATUSES) = true → forallb fine_text reasons = true →
  (length reasons <=? 32)%nat && (list_sum (map String.length reasons) <=? 16000)%nat = true → plain_diagnosis status reasons = Ok (MkDiagnosis status reasons []).
Proof.
  intros Hs Hr Hl. unfold plain_diagnosis, new_diagnosis. rewrite Hs. cbn [mbind res_bind].
  assert (mapM _sanitize_text (map VStr reasons) = Ok reasons) as E.
  { apply mapM_res_ok, Forall2_fmap_l. clear -Hr. induction reasons as [|t l IH]; [constructor|]. cbn in Hr. apply andb_true_iff in Hr as [H1 H2].
    constructor; [by apply bool_decide_eq_true in H1|by apply IH]. }
  cbn [iter_of mbind res_bind map_err]. rewrite E. cbn [map_err mbind res_bind]. rewrite Hl. done.
Qed.
Lemma inspect_text : _sanitize_text (VStr "inspect") = Ok "inspect".
Proof. vm_compute. reflexivity. Qed.
Lemma proposal_ok status reasons reason s human d : bool_decide (status ∈ _DIAGNOSIS_STATUSES) = true → forallb fine_text reasons = true →
  (length reasons <=? 32)%nat && (list_sum (map String.length reasons) <=? 16000)%nat = true → safe_id (task_id s) →
  bool_decide (reason ∈ HandoffReason) = true →
  with_proposal status reasons reason s human = Ok d ↔
  ∃ r, _ref (VStr (snapshot_ref s)) = Ok r ∧ d = MkDiagnosis status reasons [MkProposal "inspect" reason (task_id s) [r] human].
Proof.
  intros Hs Hr Hl Ht Hrs. unfold with_proposal, _proposal, new_proposal. rewrite inspect_text. cbn [map_err mbind res_bind]. rewrite (bounded_again _ Ht). cbn [mbind res_bind].
  rewrite Hrs. cbn [iter_of map_err mbind res_bind mapM]. destruct (_ref (VStr (snapshot_ref s))) as [r|e]; [|split; [discriminate|by intros (r & ? & _)]].
  cbn [mbind res_bind map_err mret res_ret demand ensure length Nat.leb andb].
  pose proof (plain_ok status reasons Hs Hr Hl) as Hp. unfold plain_diagnosis, new_diagnosis in Hp |- *. rewrite Hs in *. cbn [mbind res_bind] in *.
  destruct (map_err _ _) as [rs|e]; [|discriminate]. cbn [mbind res_bind] in *. destruct (demand (_ && _)) as [[]|e]; [|discriminate]. cbn [mbind res_bind length Nat.leb demand ensure mapM proposal_of] in *.
  apply ok_inj in Hp. injection Hp as ->. cbn [mbind res_bind mret res_ret]. naive_solver.
Qed.

Definition urgent (s : HealthSnapshot) : Prop :=
  health (signal s) = "failed" ∨ (liveness (signal s) = "missing" ∧ at_least (last_heartbeat_age_seconds s) HEARTBEAT_HUMAN_SECONDS = true).
Definition well (s : HealthSnapshot) : Prop :=
  signal s = MkSignal "alive" "ready" "advanced" "healthy" ∧ at_least (last_heartbeat_age_seconds s) HEARTBEAT_SUSPECT_SECONDS = false.

(** The states in which something is to be done: urgent ones, and short of them
    a worker that is not ready, has stalled for long, or is degraded. *)
Definition actionable (s : HealthSnapshot) : Prop :=
  urgent s ∨
  (health (signal s) ≠ "failed" ∧ liveness (signal s) ≠ "missing" ∧
   (readiness (signal s) = "not_ready" ∨
    (progress (signal s) = "stalled" ∧ at_least (last_progress_age_seconds s) PROGRESS_SLOW_SECONDS = true) ∨
    (progress (signal s) ≠ "stalled" ∧ health (signal s) = "degraded"))).

(** What a diagnosis of a snapshot says and proposes. *)
Definition describes (s : HealthSnapshot) (m : vres SupervisorDiagnosis) : Prop :=
  ((∃ d, m = Ok d) ↔ (actionable s → referable s)) ∧
  ∀ d, m = Ok d → (d_status d = "healthy" ↔ well s) ∧ ((∃ p, p ∈ d_proposals d ∧ human_gate_required p = true) ↔ urgent s) ∧
    (d_proposals d ≠ [] ↔ actionable s) ∧
    Forall (λ p, action p = "inspect" ∧ target p = task_id s) (d_proposals d).
Definition sound_texts (status : string) (reasons : list string) : bool :=
  bool_decide (status ∈ _DIAGNOSIS_STATUSES) && forallb fine_text reasons && ((length reasons <=? 32)%nat && (list_sum (map String.length reasons) <=? 16000)%nat).
Lemma describes_plain s status reasons : sound_texts status reasons = true → (status = "healthy" ↔ well s) → ¬ actionable s → describes s (plain_diagnosis status reasons).
Proof.
  unfold sound_texts. rewrite !(andb_true_iff (_ && _)), (andb_true_iff (bool_decide _)). intros [[H1 H2] H3] Hw Hu. rewrite plain_ok by done. split; [split; [done|by eexists]|].
  intros d [= <-]. cbn [d_status d_proposals]. split; [done|]. split; [|split; [|constructor]]; [split; [by intros (p & []%elem_of_nil & _)|intros H; destruct Hu; by left]|by split].
Qed.
Lemma describes_proposal s status reasons reason human : sound_texts status reasons = true → bool_decide (reason ∈ HandoffReason) = true → safe_id (task_id s) →
  bool_decide (status = "healthy") = false → ¬ well s → actionable s → (human = true ↔ urgent s) → describes s (with_proposal status reasons reason s human).
Proof.
  unfold sound_texts. rewrite !(andb_true_iff (_ && _)), (andb_true_iff (bool_decide _)). intros [[H1 H2] H3] Hr Ht Hs%bool_decide_eq_false Hw Hact Hu. split; [split|].
  - intros [d H]. apply proposal_ok in H as (r & Hok & _); [|done..]. intros _. by exists r.
  - intros Href. destruct (Href Hact) as [r Hok]. exists (MkDiagnosis status reasons [MkProposal "inspect" reason (task_id s) [r] human]). apply proposal_ok; eauto.
  - intros d H. apply proposal_ok in H as (r & _ & ->); [|done..]. cbn [d_status d_proposals]. split; [by split|]. split; [|split; [by split|by repeat constructor]].
    rewrite <- Hu. split; [by intros (p & ->%list_elem_of_singleton & Hp)|]. intros ->. eexists. split; [by apply list_elem_of_singleton|done].
Qed.

Lemma diagnose_describes s : snapshot_ok s → describes s (diagnose_snapshot s).
Proof.
  intros [Hids _ (Hl & Hr & Hp & Hh)]. assert (safe_id (task_id s)) as Ht by (by apply Forall_cons in Hids as [_ [? _]%Forall_cons]).
  unfold diagnose_snapshot. cbv zeta.
  case_bool_decide as E1.
  { apply describes_proposal; [vm_compute; reflexivity..|done|vm_compute; reflexivity| |by left; left|by split; [left|]]. intros [E _]. by rewrite E in E1. }
  case_bool_decide as E2.
  { assert (¬ well s) as Hw by (intros [E _]; by rewrite E in E2). destruct (at_least _ HEARTBEAT_HUMAN_SECONDS) eqn:Ea.
    - assert (urgent s) as Hu by (right; by split). apply describes_proposal; [vm_compute; reflexivity..|done|vm_compute; reflexivity|done|by left|by split].
    - apply describes_plain; [vm_compute; reflexivity|by split|]. intros [[? | [_ ?]] | (_ & ? & _)]; [done|congruence|done]. }
  assert (¬ urgent s) as Hu by (unfold urgent; intros [? | [? _]]; done).
  case_bool_decide as E3.
  { apply describes_proposal; [vm_compute; reflexivity..|done|vm_compute; reflexivity| |right; auto|by split]. intros [E _]. by rewrite E in E3. }
  case_bool_decide as E4.
  { assert (¬ well s) as Hw by (intros [E _]; by rewrite E in E4). destruct (at_least _ PROGRESS_SLOW_SECONDS) eqn:Ea.
    - apply describes_proposal; [vm_compute; reflexivity..|done|vm_compute; reflexivity|done|right; split_and!; [done..|right; left; by split]|by split].
    - apply describes_plain; [vm_compute; reflexivity|by split|]. intros [? | (_ & _ & [? | [[_ ?] | [? _]]])]; [done..|congruence|done]. }
  case_bool_decide as E5.
  { apply describes_proposal; [vm_compute; reflexivity..|done|vm_compute; reflexivity| |right; split_and!; [done..|right; right; by split]|by split]. intros [E _]. by rewrite E in E5. }
  assert (¬ actionable s) as Hna by (intros [? | (_ & _ & [? | [[? _] | [_ ?]]])]; done).
  case_bool_decide as E6.
  { apply describes_plain; [vm_compute; reflexivity| |done]. split; [done|]. intros [E _]. rewrite E in E6. rewrite !elem_of_cons, elem_of_nil in E6; cbn [liveness readiness progress health] in E6; destruct E6 as [?|[?|[?|[?|[]]]]]; discriminate. }
  assert (signal s = MkSignal "alive" "ready" "advanced" "healthy") as Hsig.
  { destruct (signal s) as [l r p h]. cbn [liveness readiness progress health] in *. rewrite !not_elem_of_cons in E6. destruct E6 as (N1 & N2 & N3 & N4 & _).
    change (allowed_of "liveness") with ["alive"; "missing"; "unknown"] in Hl. change (allowed_of "readiness") with ["ready"; "not_ready"; "unknown"] in Hr.
    change (allowed_of "progress") with ["advanced"; "stalled"; "unknown"] in Hp. change (allowed_of "health") with ["healthy"; "degraded"; "failed"; "unknown"] in Hh.
    rewrite !elem_of_cons, elem_of_nil in Hl. rewrite !elem_of_cons, elem_of_nil in Hr. rewrite !elem_of_cons, elem_of_nil in Hp. rewrite !elem_of_cons, elem_of_nil in Hh.
    clear -Hl Hr Hp Hh E1 E2 E3 E4 E5 N1 N2 N3 N4. f_equal; [clear -Hl E2 N1|clear -Hr E3 N2|clear -Hp E4 N3|clear -Hh E1 E5 N4]; intuition congruence. }
  destruct (at_least _ HEARTBEAT_SUSPECT_SECONDS) eqn:Ea; (apply describes_plain; [vm_compute; reflexivity| |exact Hna]); unfold well; rewrite Ea; naive_solver.
Qed.

(** ** Properties *)

(** C22: A diagnosis is healthy exactly when every signal is good and the last
    heartbeat is under a minute old; it asks for a human exactly when the
    worker failed or has been missing for five minutes; it proposes something
    exactly when something is to be done (that, or a worker that is not ready,
    has stalled for long or is degraded), and then it is to inspect the task.
    When nothing is to be done there is always a diagnosis; when something is,
    there is one exactly when [_ref] accepts the reference built from the run
    and task ids, which it need not ([unreferable_run]). *)
Theorem diagnosis_exact s : observed s →
  ((∃ d, diagnose_snapshot s = Ok d) ↔ (actionable s → referable s)) ∧
  ∀ d, diagnose_snapshot s = Ok d → (d_status d = "healthy" ↔ well s) ∧ ((∃ p, p ∈ d_proposals d ∧ human_gate_required p = true) ↔ urgent s) ∧
    (d_proposals d ≠ [] ↔ actionable s) ∧ Forall (λ p, action p = "inspect" ∧ target p = task_id s) (d_proposals d).
Proof. intros Hs%observed_ok. exact (diagnose_describes s Hs). Qed.

Lemma demo_observed : observed (demo_snapshot "r" "alive" "failed" 0).
Proof.
  apply (Observed (VStr "alive") (VStr "ready") (VStr "advanced") (VStr "failed") (MkSignal "alive" "ready" "advanced" "failed")
    (VStr "r") (VStr "t1 ") (VStr "lane") (VInt 2) (VStr "m") (VStr "a") (VStr "s") (VInt 0) VNone); vm_compute; reflexivity.
Qed.
Lemma diagnosis_exact_witness :
  let s := demo_snapshot "r" "alive" "failed" 0 in
  ((∃ d, diagnose_snapshot s = Ok d) ↔ (actionable s → referable s)) ∧
  ∀ d, diagnose_snapshot s = Ok d → (d_status d = "healthy" ↔ well s) ∧ ((∃ p, p ∈ d_proposals d ∧ human_gate_required p = true) ↔ urgent s) ∧
    (d_proposals d ≠ [] ↔ actionable s) ∧ Forall (λ p, action p = "inspect" ∧ target p = task_id s) (d_proposals d).
Proof. exact (diagnosis_exact (demo_snapshot "r" "alive" "failed" 0) demo_observed). Defined.

(** The reference of an admissible run id need not be acceptable: the failure of
    a worker of the run "prompt" raises instead of being diagnosed. *)
Lemma unreferable_run : bounded_id (VStr "prompt") = Ok "prompt" ∧ diagnose_snapshot (demo_snapshot "prompt" "alive" "failed" 0) = Err BadValue.
Proof. vm_compute. done. Qed.

(** A report fences stale owners: when the active epoch is another one, whatever
    the signals, the diagnosis is that the owner is stale and nothing is
    proposed. *)
Lemma stale_owner s desired e : observed s → desired ∈ DESIRED → (0 <= e)%Z → e ≠ owner_epoch s →
  observe s desired (VInt e) = Ok (MkReport (MkDiagnosis "blocked" ["stale_owner_epoch"] []) [] (Some (lineage_to_dict s))).
Proof.
  intros [Hids Hep _]%observed_ok Hd He Hne. unfold observe, reconcile_snapshot. rewrite (bool_decide_true _ Hd). cbn [demand ensure mbind res_bind].
  cbn [epoch_of map_err fmap res_fmap]. rewrite (proj2 (Z.leb_le _ _) He). cbn [map_err fmap res_fmap mbind res_bind].
  rewrite (proj2 (Z.eqb_neq _ _)) by congruence. cbn [negb]. rewrite plain_ok by (vm_compute; reflexivity). cbn [mbind res_bind d_proposals]. unfold new_report.
  cbn [length Nat.leb ensure mbind res_bind]. repeat (apply Forall_cons in Hids as [? Hids]).
  cbn [mapM lineage_to_dict lv_mission lv_run lv_task lv_lane lv_attempt lv_session lv_epoch]. rewrite !bounded_again by done. cbn [mbind res_bind mret res_ret].
  by rewrite (proj2 (Z.leb_le _ _) Hep).
Qed.
