(* ===== verification/Events.v ===== *)
(** * The event log (scripts/pd_fleet/events.py)

    The event envelope with its text, number, timestamp and payload checks, and
    the append-only log of a run.  A log file is a list of lines; a line keeps
    its size in bytes, whether it ends with a newline, and the JSON value it
    decodes to ([None] when it is not JSON).  The lock makes an append atomic;
    directories, symbolic links and operating system failures are not modelled.
    The reading of the clock that an event without a timestamp draws is an
    argument. *)

From S2P Require Import Prelude PyStr PyNum PyVal Regex Sha256 IsoTime SafeRendering.

Open Scope string_scope.

Notation dict := (list (pyval * pyval)).

Inductive event_error : Type := EventError | EvValueError | EvTypeError | EvOverflowError.
#[export] Instance event_error_eq_dec : EqDecision event_error.
Proof. solve_decision. Defined.
Notation eres := (res event_error).
Definition check (b : bool) : eres unit := ensure b EventError.

Definition SCHEMA_VERSION : Z := 1.
Definition MAX_STRING : nat := 256.
Definition MAX_COLLECTION : nat := 256.
Definition MAX_DEPTH : nat := 8.
Definition MAX_PAYLOAD_BYTES : Z := 65536.
Definition MAX_EVENTS : Z := 10000.
Definition MAX_QUERY : Z := 1000.
Definition MAX_LOG_BYTES : Z := 4194304.
Definition MAX_LOG_LINE_BYTES : Z := MAX_PAYLOAD_BYTES + 1024.

(** ** Patterns *)

Definition rdot : re := RChar (λ c, negb (code c =? 10)%nat).
Definition rdigits (n : nat) : re := rtimes n (RChar is_digit).
Definition word_ci (s : string) : re := rseq [RWordBoundary; rlit_ci s; RWordBoundary].
Definition id_char (c : ascii) : bool := is_alnum c || one_of "_.:-" c.
Definition _ID (s : string) : bool := ident is_alnum id_char (Some 127%nat) s.
Definition control_char (c : ascii) : bool := is_control c || (code c =? 127)%nat.
Definition has_control (s : string) : bool := negb (str_forallb (λ c, negb (control_char c)) s).
Definition _URL : re := ralt [rseq [rlit_ci "http"; ropt (rlit_ci "s"); rlit "://"]; rlit_ci "ftp://"; rlit_ci "www."].
Definition _ABSOLUTE : re := ralt [rchr "/"; rseq [RChar is_alpha; rchr ":"; rchr "/\"]; rlit "\\"].
Definition chain_of_thought : re := rseq [rlit_ci "chain"; ropt rdot; rlit_ci "of"; ropt rdot; rlit_ci "thought"].
Definition process_id : re := rseq [rlit_ci "process"; ropt (rchr "_-"); rlit_ci "id"].
Definition api_key : re := rseq [rlit_ci "api"; ropt (rchr "_-"); rlit_ci "key"].
Definition _SENSITIVE : re :=
  ralt [rlit_ci "secret"; rlit_ci "token"; rlit_ci "password"; rlit_ci "passwd"; api_key; rlit_ci "authorization"; rlit_ci "credential"; rlit_ci "prompt";
        rlit_ci "cot"; chain_of_thought; rlit_ci "pid"; process_id; rlit_ci "handle"; rlit_ci "native"; rlit_ci "socket"; rlit_ci "url"; rlit_ci "uri"; rlit_ci "path"].
Definition _SENSITIVE_VALUE : re := ralt [rlit_ci "secret"; rlit_ci "password"; api_key; rlit_ci "authorization"; chain_of_thought; word_ci "cot"].
Definition _SENSITIVE_FIELD : re :=
  ralt [word_ci "token"; word_ci "password"; word_ci "passwd"; word_ci "credential"; word_ci "authorization"; word_ci "prompt"; chain_of_thought; word_ci "cot";
        word_ci "pid"; process_id; rseq [rlit_ci "native"; ropt (rchr "_-"); rlit_ci "handle"]; word_ci "handle"].
Definition _TIMESTAMP : re :=
  rseq [rdigits 4; rchr "-"; rdigits 2; rchr "-"; rdigits 2; rchr "T"; rdigits 2; rchr ":"; rdigits 2; rchr ":"; rdigits 2;
        ropt (rseq [rchr "."; rplus (RChar is_digit)]); ralt [rchr "Z"; rseq [rchr "+-"; rdigits 2; rchr ":"; rdigits 2]]].

(** ** Fields *)

(** [_string(value, name)]; only [created_at] may hold a timestamp. *)
Definition _string (identifier timestamp : bool) (v : pyval) : eres string :=
  match v with
  | VStr s =>
      _ ← check (nonempty s && (String.length s <=? MAX_STRING)%nat && negb (has_control s));
      _ ← check (negb identifier || (_ID s && negb (bool_decide (s ∈ ["."; ".."]))));
      _ ← check (negb (search _URL s) && negb (match_prefix _ABSOLUTE s));
      _ ← check (negb (search _SENSITIVE_FIELD s) && (negb (contains s ":" || contains s "=") || (timestamp && fullmatch _TIMESTAMP s)));
      Ok s
  | _ => Err EventError
  end.

(** [math.isfinite] raises on an integer that no float can hold. *)
Definition _number (v : pyval) : eres pynum :=
  match v with
  | VInt z => match float_of_Z z with None => Err EvOverflowError | Some _ => if (0 <=? z)%Z then Ok (NInt z) else Err EventError end
  | VFloat f => if is_finite f && negb (num_ltb (NFloat f) (NInt 0)) then Ok (NFloat f) else Err EventError
  | _ => Err EventError
  end.

(** [s[-i:-j]] and [s[-i:]] *)
Definition tail_slice (i j : nat) (s : string) : string :=
  let n := String.length s in str_drop (n - i) (str_take (n - j) s).
Definition int_or_raise (s : string) : eres Z := match int_of_str s with Some z => Ok z | None => Err EvValueError end.
Definition _created_at (v : pyval) : eres string :=
  s ← _string false true v;
  _ ← (if endswith s "Z" then Ok ()
       else h ← int_or_raise (tail_slice 6 3 s); m ← int_or_raise (tail_slice 2 0 s); check ((Z.abs h <=? 23)%Z && (m <=? 59)%Z));
  _ ← check (match parse_z s with Some _ => true | None => false end);
  Ok s.

(** ** Payloads *)

Definition bad_text (s : string) : bool :=
  negb (String.length s <=? MAX_STRING)%nat || has_control s || search _URL s || match_prefix _ABSOLUTE s || search _SENSITIVE_VALUE s.
Definition key_fine (k : pyval) : bool :=
  match k with VStr s => (String.length s <=? MAX_STRING)%nat && negb (has_control s) && negb (search _SENSITIVE s) | _ => false end.
Fixpoint _freeze (v : pyval) (depth : nat) : eres pyval :=
  _ ← check (depth <=? MAX_DEPTH)%nat;
  match v with
  | VStr s => _ ← check (negb (bad_text s)); Ok v
  | VNone | VBool _ | VInt _ => Ok v
  | VFloat f => _ ← check (is_finite f); Ok v
  | VDict kvs | VProxy kvs =>
      _ ← check (length kvs <=? MAX_COLLECTION)%nat;
      l ← mapM (λ kv, _ ← check (key_fine kv.1); w ← _freeze kv.2 (S depth); Ok (kv.1, w)) kvs;
      Ok (VProxy l)
  | VList l | VTuple l =>
      _ ← check (length l <=? MAX_COLLECTION)%nat;
      l' ← mapM (λ w, _freeze w (S depth)) l;
      Ok (VTuple l')
  | VOther _ => Err EventError
  end.
Definition text_key (k : pyval) : pyval := match k with VStr _ => k | _ => VStr UNSUPPORTED_TYPE end.
Fixpoint _thaw (v : pyval) : pyval :=
  match v with
  | VDict kvs | VProxy kvs => VDict (map (λ kv, (text_key kv.1, _thaw kv.2)) kvs)
  | VTuple l => VList (map _thaw l)
  | _ => v
  end.

Definition _canonical (d : dict) : eres string := map_err (λ _, EventError) (json_dumps (VDict d)).
Definition bytes_of (s : string) : Z := Z.of_nat (length (utf8 s)).

(** ** Events *)

Record FleetEvent : Type := MkEvent {
  schema_version : pynum; event_id : string; run_id : string; task_id : option string; kind : string; ordering_key : string;
  sequence : pynum; owner_epoch : option pynum; payload : pyval; created_at : string }.

Definition of_num (x : pynum) : pyval := match x with NInt z => VInt z | NFloat f => VFloat f end.
Definition of_opt {A} (f : A → pyval) (o : option A) : pyval := match o with Some a => f a | None => VNone end.
Definition to_opt {A} (f : pyval → eres A) (v : pyval) : eres (option A) := match v with VNone => Ok None | v => Some <$> f v end.

Definition to_dict (e : FleetEvent) : dict :=
  [(VStr "schema_version", of_num e.(schema_version)); (VStr "event_id", VStr e.(event_id)); (VStr "run_id", VStr e.(run_id));
   (VStr "task_id", of_opt VStr e.(task_id)); (VStr "kind", VStr e.(kind)); (VStr "ordering_key", VStr e.(ordering_key));
   (VStr "sequence", of_num e.(sequence)); (VStr "owner_epoch", of_opt of_num e.(owner_epoch)); (VStr "payload", _thaw e.(payload));
   (VStr "created_at", VStr e.(created_at))].

(** [value != SCHEMA_VERSION or isinstance(value, bool)] raises. *)
Definition version_of (v : pyval) : eres pynum :=
  match v with
  | VInt z => if (z =? SCHEMA_VERSION)%Z then Ok (NInt z) else Err EventError
  | VFloat f => if num_eqb (NFloat f) (NInt SCHEMA_VERSION) then Ok (NFloat f) else Err EventError
  | _ => Err EventError
  end.

(** [FleetEvent(...)]; [now] is what the clock would return. *)
Definition new_event (now : clock_reading)
    (schema_version event_id run_id task_id kind ordering_key sequence owner_epoch payload created_at : pyval) : eres FleetEvent :=
  schema_version ← version_of schema_version;
  event_id ← _string true false event_id;
  run_id ← _string true false run_id;
  kind ← _string false false kind;
  ordering_key ← _string false false ordering_key;
  task_id ← to_opt (_string true false) task_id;
  sequence ← _number sequence;
  owner_epoch ← to_opt _number owner_epoch;
  created ← (if truthy created_at then Ok created_at else VStr <$> map_err (λ _, EvValueError) (clock_iso now));
  created_at ← _created_at created;
  payload ← _freeze payload 0;
  let e := MkEvent schema_version event_id run_id task_id kind ordering_key sequence owner_epoch payload created_at in
  text ← _canonical (to_dict e);
  _ ← check (bytes_of text <=? MAX_PAYLOAD_BYTES)%Z;
  Ok e.

Definition FIELDS : list string :=
  ["schema_version"; "event_id"; "run_id"; "task_id"; "kind"; "ordering_key"; "sequence"; "owner_epoch"; "payload"; "created_at"].
Definition DEFAULTS : dict :=
  [(VStr "schema_version", VInt SCHEMA_VERSION); (VStr "event_id", VStr ""); (VStr "run_id", VStr ""); (VStr "task_id", VNone); (VStr "kind", VStr "");
   (VStr "ordering_key", VStr ""); (VStr "sequence", VInt 0); (VStr "owner_epoch", VNone); (VStr "payload", VDict []); (VStr "created_at", VStr "")].
(** [FleetEvent( **values )] *)
Definition event_of (now : clock_reading) (values : dict) : eres FleetEvent :=
  _ ← ensure (negb (has_unknown FIELDS values)) EvTypeError;
  let get k := dget_or (dget_or VNone k DEFAULTS) k values in
  new_event now (get "schema_version") (get "event_id") (get "run_id") (get "task_id") (get "kind") (get "ordering_key") (get "sequence")
    (get "owner_epoch") (get "payload") (get "created_at").
Definition exact_fields (fields : list string) (d : dict) : bool := negb (has_unknown fields d) && forallb (λ k, dhas k d) fields.
Definition from_dict (now : clock_reading) (v : pyval) : eres FleetEvent :=
  match entries v with
  | Some d => _ ← check ((length d <=? MAX_COLLECTION)%nat && exact_fields FIELDS d); event_of now d
  | None => Err EventError
  end.

(** ** The log *)

Record EventLog : Type := MkLog { log_run : string; log_epoch : option pynum }.
Definition new_log (run owner_epoch : pyval) : eres EventLog :=
  run ← _string true false run; epoch ← to_opt _number owner_epoch; Ok (MkLog run epoch).
Definition create_event (log : EventLog) (now : clock_reading) (values : dict) : eres FleetEvent :=
  let values := dsetdefault "run_id" (VStr log.(log_run)) values in
  let values := match log.(log_epoch) with Some x => dsetdefault "owner_epoch" (of_num x) values | None => values end in
  event_of now values.

Record log_line : Type := MkLine { line_size : Z; line_complete : bool; line_json : option pyval }.
(** [None] is a file that does not exist. *)
Notation log_file := (option (list log_line)).
Definition lines_of (f : log_file) : list log_line := default [] f.
Definition file_size (f : log_file) : Z := foldr (λ l n, line_size l + n)%Z 0%Z (lines_of f).

Definition RECORD_FIELDS : list string := (FIELDS ++ ["checksum"])%list.
Definition read_record (now : clock_reading) (v : option pyval) : eres (FleetEvent * string) :=
  match v with
  | Some (VDict record) =>
      _ ← check (exact_fields RECORD_FIELDS record);
      let checksum := dget_or VNone "checksum" record in
      let record := dpop "checksum" record in
      canonical ← _canonical record;
      _ ← check (match checksum with VStr c => bool_decide (sha256_hex canonical = c) | _ => false end);
      e ← map_err (λ e, if bool_decide (e = EvTypeError) then EventError else e) (from_dict now (VDict record));
      Ok (e, canonical)
  | _ => Err EventError
  end.
(** [budget] lines are read at most; reaching the end of the file needs one more. *)
Fixpoint read_lines (now : clock_reading) (budget : nat) (consumed : Z) (lines : list log_line) : eres (list (FleetEvent * string)) :=
  match budget with
  | O => Err EventError
  | S budget =>
      match lines with
      | [] => Ok []
      | l :: lines =>
          let consumed := (consumed + line_size l)%Z in
          _ ← check ((consumed <=? MAX_LOG_BYTES)%Z && (line_size l <=? MAX_LOG_LINE_BYTES)%Z && line_complete l);
          r ← read_record now (line_json l);
          rs ← read_lines now budget consumed lines;
          Ok (r :: rs)
      end
  end.
Definition _records (now : clock_reading) (f : log_file) : eres (list (FleetEvent * string)) :=
  match f with
  | None => Ok []
  | Some lines => _ ← check (file_size f <=? MAX_LOG_BYTES)%Z; read_lines now (Z.to_nat (MAX_EVENTS + 1)) 0 lines
  end.

(** The scan of [append] over the records: an event to return instead. *)
Fixpoint find_existing (e : FleetEvent) (canonical : string) (records : list (FleetEvent * string)) : eres (option FleetEvent) :=
  match records with
  | [] => Ok None
  | (existing, existing_bytes) :: records =>
      if bool_decide (existing.(event_id) = e.(event_id)) then
        if bool_decide (existing_bytes = canonical) then Ok (Some existing) else Err EventError
      else if num_eqb existing.(sequence) e.(sequence) then Err EventError
      else find_existing e canonical records
  end.
Definition owns (log : EventLog) (e : FleetEvent) : bool :=
  bool_decide (e.(run_id) = log.(log_run)) &&
  match log.(log_epoch) with Some x => match e.(owner_epoch) with Some y => num_eqb y x | None => false end | None => true end.
Definition monotonic (records : list (FleetEvent * string)) (e : FleetEvent) : bool :=
  match last records with Some r => negb (num_leb e.(sequence) r.1.(sequence)) | None => true end.
(** The record of an event: its JSON with a checksum. *)
Definition record_of (e : FleetEvent) (canonical : string) : dict := dset "checksum" (VStr (sha256_hex canonical)) (reload_dict (to_dict e)).

Definition append (log : EventLog) (now : clock_reading) (f : log_file) (e : FleetEvent) : eres (log_file * FleetEvent) :=
  _ ← check (owns log e);
  canonical ← _canonical (to_dict e);
  records ← _records now f;
  existing ← find_existing e canonical records;
  match existing with
  | Some x => Ok (f, x)
  | None =>
      _ ← check (monotonic records e);
      text ← _canonical (record_of e canonical);
      let size := (bytes_of text + 1)%Z in
      _ ← check ((Z.of_nat (length records) <? MAX_EVENTS)%Z && (size <=? MAX_LOG_LINE_BYTES)%Z);
      Ok (Some (lines_of f ++ [MkLine size true (Some (reload (VDict (record_of e canonical))))])%list, e)
  end.

Definition _check_limit (limit : pyval) : eres Z :=
  match limit with VInt n => if (1 <=? n)%Z && (n <=? MAX_QUERY)%Z then Ok n else Err EventError | _ => Err EventError end.
Definition replay (now : clock_reading) (f : log_file) (limit : pyval) : eres (list FleetEvent) :=
  n ← _check_limit limit; rs ← _records now f; Ok (map fst (take (Z.to_nat n) rs)).

Definition event_leb (x y : FleetEvent) : bool :=
  negb (if bool_decide (y.(ordering_key) = x.(ordering_key)) then num_ltb y.(sequence) x.(sequence) else negb (String.leb x.(ordering_key) y.(ordering_key))).
Definition selects (key task : option string) (e : FleetEvent) : bool :=
  match key with Some k => bool_decide (e.(ordering_key) = k) | None => true end &&
  match task with Some t => bool_decide (e.(task_id) = Some t) | None => true end.
Definition query (now : clock_reading) (f : log_file) (ordering_key task_id limit : pyval) : eres (list FleetEvent) :=
  n ← _check_limit limit;
  key ← to_opt (_string false false) ordering_key;
  task ← to_opt (_string true false) task_id;
  rs ← _records now f;
  Ok (take (Z.to_nat n) (sort_by event_leb (List.filter (selects key task) (map fst rs)))).

Definition at_noon : clock_reading := ReadValue (VStr "2026-01-01T12:00:00Z").
Definition demo_fields (id : string) (n : Z) : dict :=
  [(VStr "event_id", VStr id); (VStr "task_id", VStr "t1"); (VStr "kind", VStr "lifecycle.transition"); (VStr "ordering_key", VStr "t1");
   (VStr "sequence", VInt n); (VStr "payload", VDict [(VStr "to", VStr "running"); (VStr "from", VStr "ready")])].
Definition demo_log : EventLog := MkLog "run-1" (Some (NInt 3)).
Definition put (id : string) (n : Z) (f : log_file) : eres log_file :=
  e ← create_event demo_log at_noon (demo_fields id n); fst <$> append demo_log at_noon f e.
Example log_ex : (f ← put "e1" 1 None; f ← put "e2" 5 f; rs ← replay at_noon f (VInt 10); Ok (map (λ e, (event_id e, sequence e, created_at e)) rs)) =
  Ok [("e1", NInt 1, "2026-01-01T12:00:00+00:00"); ("e2", NInt 5, "2026-01-01T12:00:00+00:00")].
Proof. vm_compute. reflexivity. Qed.
Example log_conflicts : (f ← put "e1" 2 None; Ok (map (λ p, is_ok (put p.1 p.2 f)) [("e1", 2); ("e1", 3); ("e2", 2); ("e2", 1); ("e2", 3)]%Z)) =
  Ok [true; false; false; false; true].
Proof. vm_compute. reflexivity. Qed.
(** A timestamp without a colon gets past the text checks, and the conversion of its last characters raises the wrong exception. *)
Example timestamp_errors : map (λ s, _created_at (VStr s)) ["2026-01-01T00:00:00Z"; "2026-02-30T00:00:00Z"; "2026-01-01T00:00:00+24:00"; "2026-01-01"; "yesterday"] =
  [Ok "2026-01-01T00:00:00Z"; Err EventError; Err EventError; Ok "2026-01-01"; Err EvValueError].
Proof. vm_compute. reflexivity. Qed.
(** A sequence that no float can hold raises another exception yet. *)
Example sequence_overflow : _number (VInt (10 ^ 400)) = Err EvOverflowError ∧ _number (VInt (-1)) = Err EventError.
Proof. vm_compute. done. Qed.

(** ** Lemmas *)

Lemma event_check_ok b (u : unit) : check b = Ok u ↔ b = true.
Proof. apply ensure_ok. Qed.

(** *** Payloads: what is read back freezes again *)

Fixpoint settle (v : pyval) : pyval :=
  match v with
  | VProxy kvs => VProxy (sort_by kv_leb (map (λ kv, (kv.1, settle kv.2)) kvs))
  | VTuple l => VTuple (map settle l)
  | _ => v
  end.
Definition again (depth : nat) (p : pyval) : Prop := _freeze (reload (_thaw p)) depth = Ok (settle p) ∧ _thaw (settle p) = reload (_thaw p).

Lemma freeze_head v depth p : _freeze v depth = Ok p → (depth <=? MAX_DEPTH)%nat = true.
Proof. destruct v; cbn [_freeze]; by intros (u & H%event_check_ok & _)%bind_ok. Qed.
Lemma key_text k : key_fine k = true → text_key k = k.
Proof. by destruct k. Qed.
Lemma thaw_entries l : Forall (λ kv : pyval * pyval, key_fine kv.1 = true) l →
  reload (_thaw (VProxy l)) = VDict (sort_by kv_leb (map (λ kv, (kv.1, reload (_thaw kv.2))) l)).
Proof.
  intros Hl. cbn [_thaw reload]. f_equal. f_equal. rewrite map_map. apply map_ext_Forall. eapply Forall_impl; [exact Hl|].
  intros kv Hk. cbn [fst snd]. by rewrite key_text.
Qed.
Lemma frozen_mapping depth l : (depth <=? MAX_DEPTH)%nat = true → (length l <=? MAX_COLLECTION)%nat = true →
  Forall (λ kv : pyval * pyval, key_fine kv.1 = true ∧ again (S depth) kv.2) l → again depth (VProxy l).
Proof.
  intros Hd Hn Hl. assert (Forall (λ kv : pyval * pyval, key_fine kv.1 = true) l) as Hk by (eapply Forall_impl; [exact Hl|]; by intros ? []).
  unfold again. rewrite thaw_entries by done. split.
  - cbn [_freeze]. rewrite Hd. cbn [check ensure mbind res_bind]. rewrite length_sort_by, length_map, Hn. cbn [check ensure mbind res_bind settle].
    apply bind_ok. exists (sort_by kv_leb (map (λ kv, (kv.1, settle kv.2)) l)). split; [|done]. apply mapM_res_ok.
    apply (Forall2_sort_by kv_leb kv_leb (λ kv kw, kv.1 = kw.1 ∧ key_fine kv.1 = true ∧ _freeze kv.2 (S depth) = Ok kw.2)).
    + intros [k1 v1] [k2 v2] [j1 w1] [j2 w2] [H1 _] [H2 _]. cbn in H1, H2. by subst.
    + intros [k v] [j w] (H1 & H2 & H3). cbn [fst snd] in *. rewrite H2. cbn [check ensure mbind res_bind]. rewrite H3. cbn [mbind res_bind]. by subst.
    + apply Forall2_fmap. apply Forall_Forall2_diag. eapply Forall_impl; [exact Hl|]. intros [k v] [H1 [H2 _]]. done.
  - cbn [settle _thaw]. f_equal. trans (map (λ kv : pyval * pyval, (kv.1, _thaw kv.2)) (sort_by kv_leb (map (λ kv, (kv.1, settle kv.2)) l))).
    { apply map_ext_Forall. rewrite sort_by_perm. apply Forall_fmap. eapply Forall_impl; [exact Hk|]. intros kv H. cbn. by rewrite key_text. }
    rewrite <- (sort_by_map kv_leb kv_leb) by done. f_equal. rewrite map_map. apply map_ext_Forall. eapply Forall_impl; [exact Hl|].
    intros [k v] [_ [_ H]]. cbn [fst snd] in *. by rewrite H.
Qed.
Lemma frozen_sequence depth l : (depth <=? MAX_DEPTH)%nat = true → (length l <=? MAX_COLLECTION)%nat = true → Forall (again (S depth)) l → again depth (VTuple l).
Proof.
  intros Hd Hn Hl. split.
  - cbn [_thaw reload _freeze settle]. rewrite Hd. cbn [check ensure mbind res_bind]. rewrite !length_map, Hn. cbn [check ensure mbind res_bind].
    apply bind_ok. exists (map settle l). split; [|done]. apply mapM_res_ok. rewrite map_map. apply Forall2_fmap, Forall_Forall2_diag. eapply Forall_impl; [exact Hl|]. by intros ? [].
  - cbn [_thaw reload settle]. f_equal. rewrite !map_map. apply map_ext_Forall. eapply Forall_impl; [exact Hl|]. by intros ? [].
Qed.
Lemma freeze_again v depth p : _freeze v depth = Ok p → again depth p.
Proof.
  assert (∀ depth kvs, Forall (λ kv : pyval * pyval, (∀ d q, _freeze kv.1 d = Ok q → again d q) ∧ ∀ d q, _freeze kv.2 d = Ok q → again d q) kvs →
    ∀ p, (_ ← check (depth <=? MAX_DEPTH)%nat; _ ← check (length kvs <=? MAX_COLLECTION)%nat;
      l ← mapM (λ kv, _ ← check (key_fine kv.1); w ← _freeze kv.2 (S depth); Ok (kv.1, w)) kvs; Ok (VProxy l)) = Ok p → again depth p) as Hmap.
  { clear. intros depth kvs IH p (u & Hd%event_check_ok & H)%bind_ok. apply bind_ok in H as (u' & Hn%event_check_ok & H). apply bind_ok in H as (l & Hl%mapM_res_ok & <-%ok_inj).
    apply frozen_mapping; [done|by rewrite <- (Forall2_length _ _ _ Hl)|]. clear Hn. induction Hl as [|[k v] kw kvs l H HF IHl]; [constructor|].
    apply Forall_cons in IH as [[_ IH1] IH2]. constructor; [|by apply IHl]. cbn [fst snd] in *. apply bind_ok in H as (u2 & Hk%event_check_ok & H). apply bind_ok in H as (w & Hw & <-%ok_inj).
    cbn [fst snd]. split; [done|by apply IH1]. }
  assert (∀ depth l, Forall (λ v, ∀ d q, _freeze v d = Ok q → again d q) l →
    ∀ p, (_ ← check (depth <=? MAX_DEPTH)%nat; _ ← check (length l <=? MAX_COLLECTION)%nat; l' ← mapM (λ w, _freeze w (S depth)) l; Ok (VTuple l')) = Ok p → again depth p) as Hseq.
  { clear. intros depth vs IH p (u & Hd%event_check_ok & H)%bind_ok. apply bind_ok in H as (u' & Hn%event_check_ok & H). apply bind_ok in H as (l & Hl%mapM_res_ok & <-%ok_inj).
    apply frozen_sequence; [done|by rewrite <- (Forall2_length _ _ _ Hl)|]. clear Hn. induction Hl as [|v w vs l H HF IHl]; [constructor|].
    apply Forall_cons in IH as [IH1 IH2]. constructor; [by apply IH1|by apply IHl]. }
  revert depth p. induction v as [|b|z|f|s|l IH|l IH|kvs IH|kvs IH|r] using pyval_ind'; intros depth p H; pose proof (freeze_head _ _ _ H) as Hd; cbn [_freeze] in H.
  - rewrite Hd in H. apply ok_inj in H as <-. split; [cbn [_thaw reload _freeze]; by rewrite Hd|done].
  - rewrite Hd in H. apply ok_inj in H as <-. split; [cbn [_thaw reload _freeze]; by rewrite Hd|done].
  - rewrite Hd in H. apply ok_inj in H as <-. split; [cbn [_thaw reload _freeze]; by rewrite Hd|done].
  - apply bind_ok in H as (u & _ & H). apply bind_ok in H as (u' & Hf%event_check_ok & <-%ok_inj). split; [cbn [_thaw reload _freeze]; by rewrite Hd, Hf|done].
  - apply bind_ok in H as (u & _ & H). apply bind_ok in H as (u' & Hf%event_check_ok & <-%ok_inj). split; [cbn [_thaw reload _freeze]; by rewrite Hd, Hf|done].
  - by eapply Hseq.
  - by eapply Hseq.
  - by eapply Hmap.
  - by eapply Hmap.
  - by apply bind_ok in H as (u & _ & H).
Qed.

(** *** Events: what is read back is the same event *)

(** An event that some arguments make. *)
Inductive made : FleetEvent → Prop :=
| Made now a b c d e f g h p t ev : new_event now a b c d e f g h p t = Ok ev → made ev.
Definition settled (e : FleetEvent) : FleetEvent :=
  MkEvent e.(schema_version) e.(event_id) e.(run_id) e.(task_id) e.(kind) e.(ordering_key) e.(sequence) e.(owner_epoch) (settle e.(payload)) e.(created_at).

Lemma string_again i t v s : _string i t v = Ok s → v = VStr s ∧ nonempty s = true.
Proof.
  destruct v as [| | | |s'| | | | |]; try discriminate. cbn [_string]. intros (u & H%event_check_ok & Hr)%bind_ok. do 3 (apply bind_ok in Hr as (? & _ & Hr)). apply ok_inj in Hr as <-.
  split; [done|]. by apply andb_true_iff in H as [[? _]%andb_true_iff _].
Qed.
Lemma string_fix i t v s : _string i t v = Ok s → _string i t (VStr s) = Ok s.
Proof. intros H. by destruct (string_again _ _ _ _ H) as [-> _]. Qed.
Lemma number_fix v x : _number v = Ok x → v = of_num x.
Proof.
  destruct v; try discriminate; cbn [_number]; [destruct (float_of_Z z); [|discriminate]; destruct (0 <=? z)%Z|destruct (_ && _)]; try discriminate; by intros [= <-].
Qed.
Lemma version_fix v x : version_of v = Ok x → v = of_num x.
Proof. destruct v; try discriminate; cbn [version_of]; [destruct (z =? _)%Z|destruct (num_eqb _ _)]; try discriminate; by intros [= <-]. Qed.
Lemma opt_fix {A} (f : pyval → eres A) (g : A → pyval) v o : (∀ v a, f v = Ok a → v = g a) → to_opt f v = Ok o → v = of_opt g o.
Proof.
  intros Hf. unfold to_opt. assert (∀ m : eres A, Some <$> m = Ok o → ∃ a, m = Ok a ∧ o = Some a) as Hm by (intros m (a & ? & ->)%fmap_ok; by exists a).
  destruct v; try (intros (a & H & ->)%Hm; by rewrite (Hf _ _ H)). by intros <-%ok_inj.
Qed.

Record parts (e : FleetEvent) : Prop := {
  pt_version : version_of (of_num e.(schema_version)) = Ok e.(schema_version);
  pt_strings : _string true false (VStr e.(event_id)) = Ok e.(event_id) ∧ _string true false (VStr e.(run_id)) = Ok e.(run_id) ∧
    _string false false (VStr e.(kind)) = Ok e.(kind) ∧ _string false false (VStr e.(ordering_key)) = Ok e.(ordering_key);
  pt_task : to_opt (_string true false) (of_opt VStr e.(task_id)) = Ok e.(task_id);
  pt_sequence : _number (of_num e.(sequence)) = Ok e.(sequence);
  pt_epoch : to_opt _number (of_opt of_num e.(owner_epoch)) = Ok e.(owner_epoch);
  pt_created : _created_at (VStr e.(created_at)) = Ok e.(created_at) ∧ nonempty e.(created_at) = true;
  pt_payload : again 0 e.(payload);
  pt_text : ∃ text, _canonical (to_dict e) = Ok text ∧ (bytes_of text <= MAX_PAYLOAD_BYTES)%Z }.
Lemma created_fix v s : _created_at v = Ok s → _created_at (VStr s) = Ok s ∧ nonempty s = true.
Proof.
  intros H. pose proof H as H'. unfold _created_at in H'. apply bind_ok in H' as (s' & Hs & H'). apply bind_ok in H' as (u & _ & H'). apply bind_ok in H' as (u' & _ & <-%ok_inj).
  apply string_again in Hs as [-> Hn]. by split.
Qed.
Lemma made_parts e : made e → parts e.
Proof.
  intros [now a b c d f g h i p t ev H]. unfold new_event in H.
  apply bind_ok in H as (x1 & H1 & H). apply bind_ok in H as (x2 & H2 & H). apply bind_ok in H as (x3 & H3 & H). apply bind_ok in H as (x4 & H4 & H).
  apply bind_ok in H as (x5 & H5 & H). apply bind_ok in H as (x6 & H6 & H). apply bind_ok in H as (x7 & H7 & H). apply bind_ok in H as (x8 & H8 & H).
  apply bind_ok in H as (x9 & _ & H). apply bind_ok in H as (x10 & H10%created_fix & H). apply bind_ok in H as (x11 & H11 & H). cbv zeta in H.
  apply bind_ok in H as (text & Ht & H). apply bind_ok in H as (u & Hb%event_check_ok%Z.leb_le & <-%ok_inj).
  constructor; cbn [schema_version event_id run_id task_id kind ordering_key sequence owner_epoch payload created_at].
  - by rewrite <- (version_fix _ _ H1).
  - repeat split; by eapply string_fix.
  - rewrite <- (opt_fix _ VStr _ _ (λ v a Ha, proj1 (string_again _ _ _ _ Ha)) H6). done.
  - by rewrite <- (number_fix _ _ H7).
  - by rewrite <- (opt_fix _ of_num _ _ number_fix H8).
  - done.
  - by eapply freeze_again.
  - by exists text.
Qed.

Lemma dumps_entries d d' t : Forall2 (λ kv kw : pyval * pyval, kv.1 = kw.1 ∧ ∀ w, json_dumps kv.2 = Ok w → json_dumps kw.2 = Ok w) d d' →
  json_dumps (VDict d) = Ok t → json_dumps (VDict d') = Ok t.
Proof.
  intros HF. cbn [json_dumps]. intros (ws & Hws%mapM_res_ok & Ht)%bind_ok. apply bind_ok. exists ws. split; [|done]. apply mapM_res_ok. clear Ht.
  revert ws Hws. induction HF as [|kv kw d d' [H1 H2] HF IH]; intros ws Hws; inversion Hws as [|? w ? ws' Hw Hws']; subst; [constructor|]. constructor; [|by apply IH].
  apply bind_ok in Hw as (x & Hx & Hw). apply bind_ok. exists x. split; [by apply H2|]. by rewrite <- H1.
Qed.
Lemma canonical_dumps d t : _canonical d = Ok t ↔ json_dumps (VDict d) = Ok t.
Proof. unfold _canonical. destruct (json_dumps (VDict d)); cbn; naive_solver. Qed.

Lemma settled_text e text : made e → _canonical (to_dict e) = Ok text → _canonical (to_dict (settled e)) = Ok text.
Proof.
  intros He%made_parts Ht%canonical_dumps. apply canonical_dumps. revert Ht. apply dumps_entries. unfold to_dict, settled.
  cbn [schema_version event_id run_id task_id kind ordering_key sequence owner_epoch payload created_at].
  repeat (apply Forall2_cons_2; [cbn [fst snd]; split; [done|try done]|]); [|constructor].
  destruct (pt_payload e He) as [_ ->]. intros w. apply dumps_reload.
Qed.

Lemma get_of k d d' : dget k d' = dget k d → dget_or VNone k d' = dget_or VNone k d.
Proof. unfold dget_or. by intros ->. Qed.
Lemma reload_scalar x : (∀ s, x ≠ VDict s) → (∀ l, x ≠ VList l) → (∀ l, x ≠ VTuple l) → reload x = x.
Proof. destruct x; naive_solver. Qed.
Lemma reload_num x : reload (of_num x) = of_num x.
Proof. by destruct x. Qed.
Lemma reload_opt {A} (f : A → pyval) o : (∀ a, reload (f a) = f a) → reload (of_opt f o) = of_opt f o.
Proof. destruct o; [by intros H; apply H|done]. Qed.

(** Reading the envelope back. *)
Lemma event_again now e text : made e → _canonical (to_dict e) = Ok text → from_dict now (VDict (reload_dict (to_dict e))) = Ok (settled e).
Proof.
  intros He Ht. pose proof (settled_text e text He Ht) as Hst. pose proof (made_parts e He) as [Hv (H1 & H2 & H3 & H4) H5 H6 H7 [H8 H8'] [H9 H9'] (text' & Ht' & Hb)].
  assert (text' = text) as -> by congruence. unfold from_dict. cbn [entries].
  assert (length (reload_dict (to_dict e)) = 10%nat) as -> by (unfold reload_dict; by rewrite length_sort_by, length_map).
  unfold exact_fields. rewrite has_unknown_reload. assert (has_unknown FIELDS (to_dict e) = false) as Hu by reflexivity. rewrite Hu.
  assert (forallb (λ k, dhas k (reload_dict (to_dict e))) FIELDS = true) as -> by (unfold FIELDS; cbn [forallb]; by rewrite !dhas_reload).
  cbn [negb Nat.leb andb MAX_COLLECTION]. unfold check at 1. cbn [ensure mbind res_bind]. unfold event_of. rewrite has_unknown_reload, Hu. cbn [negb ensure mbind res_bind]. cbv zeta.
  unfold dget_or. rewrite !dget_reload.
  change (dget "schema_version" (to_dict e)) with (Some (of_num (schema_version e))). change (dget "event_id" (to_dict e)) with (Some (VStr (event_id e))).
  change (dget "run_id" (to_dict e)) with (Some (VStr (run_id e))). change (dget "task_id" (to_dict e)) with (Some (of_opt VStr (task_id e))).
  change (dget "kind" (to_dict e)) with (Some (VStr (kind e))). change (dget "ordering_key" (to_dict e)) with (Some (VStr (ordering_key e))).
  change (dget "sequence" (to_dict e)) with (Some (of_num (sequence e))). change (dget "owner_epoch" (to_dict e)) with (Some (of_opt of_num (owner_epoch e))).
  change (dget "payload" (to_dict e)) with (Some (_thaw (payload e))). change (dget "created_at" (to_dict e)) with (Some (VStr (created_at e))).
  cbn [fmap option_fmap option_map default from_option]. rewrite !reload_num, (reload_opt VStr), (reload_opt of_num) by (done || apply reload_num).
  change (reload (VStr (event_id e))) with (VStr (event_id e)). change (reload (VStr (run_id e))) with (VStr (run_id e)). change (reload (VStr (kind e))) with (VStr (kind e)).
  change (reload (VStr (ordering_key e))) with (VStr (ordering_key e)). change (reload (VStr (created_at e))) with (VStr (created_at e)).
  unfold id, new_event. rewrite Hv. cbn [mbind res_bind]. rewrite H1. cbn [mbind res_bind]. rewrite H2. cbn [mbind res_bind]. rewrite H3. cbn [mbind res_bind]. rewrite H4. cbn [mbind res_bind].
  rewrite H5. cbn [mbind res_bind]. rewrite H6. cbn [mbind res_bind]. rewrite H7. cbn [mbind res_bind]. cbn [truthy]. rewrite H8'. cbn [mbind res_bind]. rewrite H8. cbn [mbind res_bind].
  rewrite H9. cbn [mbind res_bind]. cbv zeta. fold (settled e). rewrite Hst. cbn [mbind res_bind]. rewrite (proj2 (Z.leb_le _ _) Hb). done.
Qed.

Lemma exact_record e canonical : exact_fields RECORD_FIELDS (reload_dict (record_of e canonical)) = true.
Proof.
  unfold exact_fields. rewrite has_unknown_reload. apply andb_true_iff. split.
  - apply negb_true_iff, has_unknown_false. intros kv [-> | H]%elem_of_dset; [exists "checksum"; split; [done|by repeat constructor]|].
    apply elem_of_reload in H as (v & H & _). assert (has_unknown FIELDS (to_dict e) = false) as Hu by reflexivity. rewrite has_unknown_false in Hu.
    destruct (Hu _ H) as (s & Hs & Hin). exists s. split; [done|]. unfold RECORD_FIELDS. apply elem_of_app. by left.
  - apply forallb_true_iff. intros k Hk. rewrite dhas_reload. unfold dhas, record_of. rewrite dget_dset. case_bool_decide as E; [done|]. rewrite dget_reload.
    unfold RECORD_FIELDS in Hk. apply elem_of_app in Hk as [Hk | ->%list_elem_of_singleton]; [|done].
    unfold FIELDS in Hk. rewrite !elem_of_cons, elem_of_nil in Hk. by repeat (destruct Hk as [-> | Hk]; [done|]).
Qed.

Definition written_line (e : FleetEvent) (canonical : string) : log_line :=
  MkLine (match _canonical (record_of e canonical) with Ok text => bytes_of text + 1 | Err _ => 0 end)%Z true (Some (reload (VDict (record_of e canonical)))).
(** A written record reads back as the event and its canonical text. *)
Lemma record_again now e text : made e → _canonical (to_dict e) = Ok text → read_record now (Some (reload (VDict (record_of e text)))) = Ok (settled e, text).
Proof.
  intros He Ht. rewrite reload_VDict. unfold read_record. rewrite exact_record. cbn [check ensure mbind res_bind]. cbv zeta.
  assert (reload_dict (reload_dict (to_dict e)) = reload_dict (to_dict e)) as Ei by (pose proof (reload_idem (VDict (to_dict e))) as H; rewrite !reload_VDict in H; congruence).
  assert (dpop "checksum" (reload_dict (record_of e text)) = reload_dict (to_dict e)) as Ep.
  { rewrite dpop_reload. unfold record_of. rewrite dpop_dset, dpop_reload. assert (dpop "checksum" (to_dict e) = to_dict e) as -> by reflexivity. exact Ei. }
  assert (dget_or VNone "checksum" (reload_dict (record_of e text)) = VStr (sha256_hex text)) as Ec.
  { unfold dget_or. rewrite dget_reload. unfold record_of. by rewrite dget_dset_eq. }
  rewrite Ep, Ec. assert (_canonical (reload_dict (to_dict e)) = Ok text) as ->.
  { apply canonical_dumps. rewrite <- reload_VDict. apply dumps_reload. by apply canonical_dumps. }
  cbn [mbind res_bind]. rewrite bool_decide_true by done. cbn [check ensure mbind res_bind]. by rewrite (event_again now e text He Ht).
Qed.

(** *** Reading lines *)

Definition sizes (ls : list log_line) : Z := foldr (λ l n, line_size l + n)%Z 0%Z ls.
Lemma sizes_app a b : sizes (a ++ b)%list = (sizes a + sizes b)%Z.
Proof. unfold sizes. induction a as [|l a IH]; [done|]. cbn. rewrite IH. lia. Qed.
Lemma read_length now n c ls rs : read_lines now n c ls = Ok rs → length rs = length ls.
Proof.
  revert c ls rs. induction n as [|n IH]; intros c [|l ls] rs; try discriminate; cbn [read_lines]; [by intros <-%ok_inj|]. cbv zeta.
  intros (u & _ & H)%bind_ok. apply bind_ok in H as (r & _ & H). apply bind_ok in H as (rs' & H & <-%ok_inj). cbn. f_equal. by eapply IH.
Qed.
Lemma read_snoc now n c ls l rs r : read_lines now n c ls = Ok rs → (S (length ls) < n)%nat → (c + sizes ls + line_size l <= MAX_LOG_BYTES)%Z →
  (line_size l <= MAX_LOG_LINE_BYTES)%Z → line_complete l = true → read_record now (line_json l) = Ok r → read_lines now n c (ls ++ [l])%list = Ok (rs ++ [r])%list.
Proof.
  revert c ls rs. induction n as [|n IH]; intros c [|l' ls] rs H Hn Hc Hl Hcl Hr; try (cbn in Hn; lia); cbn [read_lines app] in *; cbv zeta in *.
  - apply ok_inj in H as <-. cbn [sizes foldr] in Hc. rewrite (proj2 (Z.leb_le _ _)), (proj2 (Z.leb_le _ _)), Hcl by (unfold sizes in Hc; cbn in Hc; lia). cbn [andb check ensure mbind res_bind].
    rewrite Hr. cbn [mbind res_bind]. destruct n; [cbn in Hn; lia|]. done.
  - apply bind_ok in H as (u & Hck & H). apply bind_ok in H as (r' & Hr' & H). apply bind_ok in H as (rs' & Hrs & <-%ok_inj).
    rewrite Hck. cbn [mbind res_bind]. rewrite Hr'. cbn [mbind res_bind]. erewrite IH; [done|exact Hrs|cbn in Hn; lia| |done..].
    unfold sizes in *. cbn in Hc. lia.
Qed.
Lemma file_size_eq f : file_size f = sizes (lines_of f).
Proof. done. Qed.

(** *** The scan of [append] *)

Lemma find_none e c rs : find_existing e c rs = Ok None ↔ Forall (λ r, event_id r.1 ≠ event_id e ∧ num_eqb (sequence r.1) (sequence e) = false) rs.
Proof.
  induction rs as [|[x b] rs IH]; [split; [constructor|done]|]. cbn [find_existing]. rewrite Forall_cons, <- IH. cbn [fst]. case_bool_decide as E.
  - split; [case_bool_decide; discriminate|]. by intros [[? _] _].
  - destruct (num_eqb _ _); [split; [discriminate|]|]; naive_solver.
Qed.
Lemma find_some e c rs x : find_existing e c rs = Ok (Some x) → (x, c) ∈ rs ∧ event_id x = event_id e.
Proof.
  induction rs as [|[y b] rs IH]; [discriminate|]. cbn [find_existing]. case_bool_decide as E.
  - case_bool_decide; [|discriminate]. intros [= <-]. subst. split; [by left|done].
  - destruct (num_eqb _ _); [discriminate|]. intros [H1 H2]%IH. split; [by right|done].
Qed.
Lemma find_snoc e c rs x : find_existing e c rs = Ok None → event_id x = event_id e → find_existing e c (rs ++ [(x, c)])%list = Ok (Some x).
Proof.
  induction rs as [|[y b] rs IH]; intros H Hx; cbn [find_existing app] in *; [by rewrite !bool_decide_true|].
  case_bool_decide; [by case_bool_decide|]. destruct (num_eqb _ _); [discriminate|]. by apply IH.
Qed.

Lemma append_cases log now f e f' x : append log now f e = Ok (f', x) → ∃ text rs, owns log e = true ∧ _canonical (to_dict e) = Ok text ∧ _records now f = Ok rs ∧
  ((find_existing e text rs = Ok (Some x) ∧ f' = f) ∨
   (find_existing e text rs = Ok None ∧ monotonic rs e = true ∧ x = e ∧ (Z.of_nat (length rs) < MAX_EVENTS)%Z ∧
    f' = Some (lines_of f ++ [written_line e text])%list ∧ (line_size (written_line e text) <= MAX_LOG_LINE_BYTES)%Z)).
Proof.
  unfold append. intros (u & Ho%event_check_ok & H)%bind_ok. apply bind_ok in H as (text & Ht & H). apply bind_ok in H as (rs & Hrs & H). apply bind_ok in H as ([y|] & Hf & H).
  - apply ok_inj in H. injection H as <- <-. exists text, rs. do 3 (split; [done|]). by left.
  - apply bind_ok in H as (u1 & Hm%event_check_ok & H). apply bind_ok in H as (t & Hs & H). cbv zeta in H. apply bind_ok in H as (u2 & Hc%event_check_ok & H).
    apply ok_inj in H. injection H as <- <-. apply andb_true_iff in Hc as [Hn%Z.ltb_lt Hz%Z.leb_le]. exists text, rs. do 3 (split; [done|]). right.
    unfold written_line. rewrite Hs. cbn [line_size]. done.
Qed.

Lemma records_length now f rs : _records now f = Ok rs → length rs = length (lines_of f).
Proof. destruct f as [ls|]; [intros (u & _ & H)%bind_ok; by eapply read_length|by intros <-%ok_inj]. Qed.
Lemma records_snoc now f rs e text : made e → _canonical (to_dict e) = Ok text → _records now f = Ok rs → (Z.of_nat (length rs) < MAX_EVENTS)%Z →
  (line_size (written_line e text) <= MAX_LOG_LINE_BYTES)%Z → (file_size (Some (lines_of f ++ [written_line e text])%list) <= MAX_LOG_BYTES)%Z →
  _records now (Some (lines_of f ++ [written_line e text])%list) = Ok (rs ++ [(settled e, text)])%list.
Proof.
  intros He Ht Hrs Hn Hl Hsz. pose proof (records_length _ _ _ Hrs) as Hlen. unfold _records. rewrite (proj2 (Z.leb_le _ _) Hsz). cbn [check ensure mbind res_bind].
  change (sizes (lines_of f ++ [written_line e text])%list <= MAX_LOG_BYTES)%Z in Hsz. rewrite sizes_app in Hsz. unfold sizes at 2 in Hsz. cbn [foldr] in Hsz.
  apply read_snoc; [|unfold MAX_EVENTS in *; lia|lia|done|done|by apply record_again].
  destruct f as [ls|]; [by apply bind_ok in Hrs as (u & _ & Hrs)|]. apply ok_inj in Hrs as <-. cbn [lines_of default]. 
  destruct (Z.to_nat (MAX_EVENTS + 1)) eqn:E; [unfold MAX_EVENTS in E; lia|done].
Qed.

Lemma append_effect log now f e f' x rs : made e → _records now f = Ok rs → append log now f e = Ok (f', x) → (file_size f' <= MAX_LOG_BYTES)%Z →
  ∃ text, _canonical (to_dict e) = Ok text ∧
    ((f' = f ∧ (x, text) ∈ rs ∧ event_id x = event_id e) ∨
     (x = e ∧ _records now f' = Ok (rs ++ [(settled e, text)])%list ∧ _canonical (to_dict (settled e)) = Ok text)).
Proof.
  intros He Hrs H Hsz. destruct (append_cases _ _ _ _ _ _ H) as (text & rs' & _ & Ht & Hrs' & Hcase). assert (rs' = rs) as -> by congruence. exists text. split; [done|].
  destruct Hcase as [[Hf ->] | (Hf & Hm & -> & Hn & -> & Hl)]; [left; split; [done|by apply find_some]|].
  right. split; [done|]. split; [by apply records_snoc|by apply settled_text].
Qed.
Lemma append_twice log now f e f' x : made e → append log now f e = Ok (f', x) → (file_size f' <= MAX_LOG_BYTES)%Z → ∃ x', append log now f' e = Ok (f', x').
Proof.
  intros He H Hsz. destruct (append_cases _ _ _ _ _ _ H) as (text & rs & Ho & Ht & Hrs & [[Hf ->] | (Hf & Hm & -> & Hn & -> & Hl)]); [by exists x|].
  pose proof (records_snoc now f rs e text He Ht Hrs Hn Hl Hsz) as Hnew. exists (settled e). unfold append. rewrite Ho. cbn [check ensure mbind res_bind]. rewrite Ht. cbn [mbind res_bind].
  rewrite Hnew. cbn [mbind res_bind]. by rewrite (find_snoc e text rs (settled e) Hf).
Qed.

(** C19: What [append] accepts is durable, as long as the file stays within
    [MAX_LOG_BYTES] (an append beyond that is accepted too and leaves a log that
    nothing can read, [append_overgrows]): on a readable log, either an event with this id and this content was in the log, which is left
    alone, or the log gains one record, which reads back as this event, after
    all the others unchanged; and appending the event again is accepted and
    changes nothing. *)
Theorem append_durable log now f e f' x rs : made e → _records now f = Ok rs → append log now f e = Ok (f', x) → (file_size f' <= MAX_LOG_BYTES)%Z →
  ∃ text, _canonical (to_dict e) = Ok text ∧
    ((f' = f ∧ (x, text) ∈ rs ∧ event_id x = event_id e) ∨
     (x = e ∧ _records now f' = Ok (rs ++ [(settled e, text)])%list ∧ _canonical (to_dict (settled e)) = Ok text)) ∧
    ∃ x', append log now f' e = Ok (f', x').
Proof.
  intros He Hrs H Hsz. destruct (append_effect _ _ _ _ _ _ _ He Hrs H Hsz) as (text & Ht & Hcase). exists text. split; [done|]. split; [done|]. by eapply append_twice.
Qed.

(** *** Order *)

Lemma number_finite v x : _number v = Ok x → ∃ m k, num_val x = NVal m k.
Proof.
  destruct v; try discriminate; cbn [_number]; [destruct (float_of_Z z); [|discriminate]; destruct (0 <=? z)%Z|destruct (is_finite f) eqn:Hf; [|discriminate]; destruct (negb _)];
    try discriminate; intros [= <-]; [by exists z, 0%Z|]. destruct f; try discriminate; cbn; eauto.
Qed.
Lemma leb_false_ltb x y : (∃ m k, num_val x = NVal m k) → (∃ m k, num_val y = NVal m k) → num_leb x y = false → num_ltb y x = true.
Proof.
  intros (m & k & Hx) (m' & k' & Hy). unfold num_leb, num_ltb, num_compare. rewrite Hx, Hy. rewrite (dyadic_compare_antisym (m, k) (m', k')).
  destruct (dyadic_compare (m, k) (m', k')); done.
Qed.

(** A file that appends to the run's logs made, by any of them, in any order. *)
Inductive built (run : string) : log_file → Prop :=
| built_none : built run None
| built_append log now f e f' x : built run f → log_run log = run → made e → append log now f e = Ok (f', x) → built run f'.

(** Its lines are the records of events in order. *)
Record ordered (run : string) (l : list (FleetEvent * string)) : Prop := {
  od_made : Forall (λ p, made p.1 ∧ _canonical (to_dict p.1) = Ok p.2 ∧ run_id p.1 = run) l;
  od_ids : NoDup (map (λ p, event_id p.1) l);
  od_sorted : StronglySorted (λ p q, num_ltb (sequence p.1) (sequence q.1) = true) l }.
Lemma read_written now n c l rs : Forall (λ p, made p.1 ∧ _canonical (to_dict p.1) = Ok p.2) l →
  read_lines now n c (map (λ p, written_line p.1 p.2) l) = Ok rs → rs = map (λ p, (settled p.1, p.2)) l.
Proof.
  intros Hl. revert n c rs. induction Hl as [|[e t] l [He Ht] Hl IH]; intros [|n] c rs; try discriminate; cbn [map read_lines]; [by intros <-%ok_inj|]. cbv zeta. cbn [fst snd] in *.
  intros (u & _ & H)%bind_ok. apply bind_ok in H as (r & Hr & H). apply bind_ok in H as (rs' & H%IH & <-%ok_inj). cbn [line_json written_line] in Hr.
  rewrite (record_again now e t He Ht) in Hr. apply ok_inj in Hr as <-. by subst.
Qed.
Lemma records_written now f l rs : Forall (λ p, made p.1 ∧ _canonical (to_dict p.1) = Ok p.2) l → lines_of f = map (λ p, written_line p.1 p.2) l →
  _records now f = Ok rs → rs = map (λ p, (settled p.1, p.2)) l.
Proof.
  intros Hl Hf. destruct f as [ls|]; cbn [lines_of] in Hf.
  - change (ls = map (λ p, written_line p.1 p.2) l) in Hf. subst. intros (u & _ & H)%bind_ok. by eapply read_written.
  - intros <-%ok_inj. by destruct l.
Qed.
Lemma last_sorted {A} (R : A → A → Prop) l x y : StronglySorted R l → last l = Some y → x ∈ l → x = y ∨ R x y.
Proof.
  intros Hs. induction Hs as [|z l Hs IH Hz]; [by intros ? ?%elem_of_nil|]. intros Hl [-> | Hx]%elem_of_cons.
  - destruct l as [|w l]; [injection Hl as ->; by left|]. right. rewrite last_cons_cons in Hl. rewrite Forall_forall in Hz. apply Hz. by apply last_Some_elem_of.
  - destruct l as [|w l]; [by apply elem_of_nil in Hx|]. rewrite last_cons_cons in Hl. by apply IH.
Qed.
Lemma snoc_sorted {A} (R : A → A → Prop) `{!Transitive R} l x : StronglySorted R l → (∀ y, last l = Some y → R y x) → StronglySorted R (l ++ [x])%list.
Proof.
  intros Hs Hx. assert (∀ y, y ∈ l → R y x) as Hall.
  { intros y Hy. destruct (last l) as [z|] eqn:El; [|by apply last_None in El as ->; apply elem_of_nil in Hy].
    destruct (last_sorted R l y z Hs El Hy) as [-> | H]; [by apply Hx|]. transitivity z; [done|by apply Hx]. }
  clear Hx. induction Hs as [|y l Hs IH Hy]; cbn; [by repeat constructor|]. constructor; [apply IH; intros z Hz; apply Hall; by right|].
  apply Forall_app. split; [done|]. constructor; [|constructor]. apply Hall. by left.
Qed.
Definition before (p q : FleetEvent * string) : Prop := num_ltb (sequence p.1) (sequence q.1) = true.
#[local] Instance before_trans : Transitive before.
Proof. intros p q r. apply num_ltb_trans. Qed.

Lemma ordered_snoc run l e text : ordered run l → made e → _canonical (to_dict e) = Ok text → run_id e = run →
  find_existing e text (map (λ p, (settled p.1, p.2)) l) = Ok None → monotonic (map (λ p, (settled p.1, p.2)) l) e = true → ordered run (l ++ [(e, text)])%list.
Proof.
  intros [Hm Hi Hs] He Ht Hr Hf%find_none Hmono. rewrite Forall_fmap in Hf. constructor.
  - apply Forall_app. split; [done|]. by repeat constructor.
  - rewrite map_app. apply NoDup_app. split; [done|]. split; [|by apply NoDup_singleton].
    intros id (p & -> & Hp)%list_elem_of_fmap He2%list_elem_of_singleton. rewrite Forall_forall in Hf. destruct (Hf p Hp) as [Hne _]. by apply Hne.
  - apply (snoc_sorted before); [done|]. intros p Hl. unfold monotonic in Hmono. rewrite fmap_last, Hl in Hmono. cbn [fmap option_fmap option_map fst] in Hmono. apply negb_true_iff in Hmono.
    unfold before. cbn [fst]. apply leb_false_ltb; [| |done].
    + eapply number_finite, (pt_sequence e). by apply made_parts.
    + apply last_Some_elem_of in Hl. rewrite Forall_forall in Hm. destruct (Hm p Hl) as (Hp & _ & _). eapply number_finite, (pt_sequence p.1). by apply made_parts.
Qed.
Lemma owns_run log e : owns log e = true → run_id e = log_run log.
Proof. unfold owns. by intros [?%bool_decide_eq_true _]%andb_true_iff. Qed.
Lemma built_ordered run f : built run f → ∃ l, ordered run l ∧ lines_of f = map (λ p, written_line p.1 p.2) l.
Proof.
  induction 1 as [|log now f e f' x Hb (l & Hl & Hf) Hrun He H].
  { exists []. split; [|done]. by repeat constructor. }
  destruct (append_cases _ _ _ _ _ _ H) as (text & rs & Ho%owns_run & Ht & Hrs & Hcase). destruct Hcase as [[_ ->] | (Hfe & Hm & _ & _ & -> & _)]; [by exists l|].
  assert (rs = map (λ p, (settled p.1, p.2)) l) as ->.
  { apply (records_written now f); [|done..]. eapply Forall_impl; [exact (od_made _ _ Hl)|]. by intros p (? & ? & _). }
  exists (l ++ [(e, text)])%list. split; [|rewrite map_app; by rewrite <- Hf]. apply ordered_snoc; done || congruence.
Qed.
Lemma sublist_take {A} n (l : list A) : take n l `sublist_of` l.
Proof. rewrite <- (take_drop n l) at 2. by apply sublist_inserts_r. Qed.

(** What a replay of such a file gives. *)
Lemma replay_ordered run f now limit es : built run f → replay now f limit = Ok es →
  Forall (λ e, (∃ e0, made e0 ∧ e = settled e0) ∧ run_id e = run) es ∧ (Z.of_nat (length es) <= MAX_QUERY)%Z ∧ NoDup (map event_id es) ∧ StronglySorted (λ a b, num_ltb (sequence a) (sequence b) = true) es.
Proof.
  intros (l & [Hm Hi Hs] & Hf)%built_ordered H. unfold replay in H. apply bind_ok in H as (n & Hn & H). apply bind_ok in H as (rs & Hrs & <-%ok_inj).
  assert (rs = map (λ p, (settled p.1, p.2)) l) as ->.
  { apply (records_written now f); [|done..]. eapply Forall_impl; [exact Hm|]. by intros p (? & ? & _). }
  assert (Z.of_nat (Z.to_nat n) <= MAX_QUERY)%Z as Hq.
  { destruct limit; try discriminate. cbn [_check_limit] in Hn. destruct (_ && _) eqn:E; [|discriminate]. apply ok_inj in Hn as ->. apply andb_true_iff in E as [?%Z.leb_le ?%Z.leb_le]. lia. }
  rewrite <- fmap_take. rewrite map_map. set (k := take _ l). assert (k `sublist_of` l) as Hk by apply sublist_take.
  assert (length k <= Z.to_nat n)%nat as Hlen by (unfold k; rewrite length_take; lia). clearbody k. cbn [fst].
  assert (Forall (λ p, made p.1 ∧ _canonical (to_dict p.1) = Ok p.2 ∧ run_id p.1 = run) k) as Hm'.
  { rewrite Forall_forall in *. intros p Hp. apply Hm. by eapply elem_of_sublist. }
  apply (sorted_sublist _ _ _ Hk) in Hs. assert (NoDup (map (λ p, event_id p.1) k)) as Hi'.
  { eapply sublist_NoDup; [exact Hi|]. clear -Hk. induction Hk; cbn; by constructor. }
  clear -Hm' Hi' Hs Hq Hlen. repeat split.
  - apply Forall_fmap. eapply Forall_impl; [exact Hm'|]. intros p (? & _ & ?). split; [exists p.1; split; [assumption|reflexivity]|assumption].
  - rewrite length_map. lia.
  - rewrite map_map. exact Hi'.
  - clear Hi' Hm' Hlen Hq. induction Hs as [|p k Hs IH Hp]; [constructor|]. cbn [map]. constructor; [done|]. apply Forall_fmap. exact Hp.
Qed.


(** The log of a run is a log: however appends to it interleave, whatever
    their owners, replaying it gives events of that run with distinct ids and
    strictly increasing sequences. *)
Theorem log_ordered run f now limit es : built run f → replay now f limit = Ok es →
  Forall (λ e, run_id e = run) es ∧ NoDup (map event_id es) ∧ StronglySorted (λ a b, num_ltb (sequence a) (sequence b) = true) es.
Proof.
  intros Hb H. destruct (replay_ordered _ _ _ _ _ Hb H) as (Hf & _ & Hi & Hs). split; [|done]. eapply Forall_impl; [exact Hf|]. by intros e [_ ?].
Qed.

(** *** A log that has outgrown its readers

    [append] bounds the records and their lines, not the file: the append that
    takes it beyond [MAX_LOG_BYTES] succeeds, and nothing reads it again. *)
Lemma overgrown now f : (MAX_LOG_BYTES < file_size f)%Z → (∃ ls, f = Some ls) → _records now f = Err EventError ∧ (∀ limit es, replay now f limit ≠ Ok es) ∧
  ∀ log e r, append log now f e ≠ Ok r.
Proof.
  intros Hsz [ls ->]. assert (_records now (Some ls) = Err EventError) as Hr by (unfold _records; by rewrite (proj2 (Z.leb_gt _ _) Hsz)).
  split; [done|]. split.
  - intros limit es. unfold replay. rewrite Hr. by intros (n & _ & H)%bind_ok.
  - intros log e [f' x] (t & rs & _ & _ & H & _)%append_cases. congruence.
Qed.
Definition small_event (i : Z) : eres FleetEvent :=
  new_event at_noon (VInt 1) (VStr ("e" +:+ str_of_Z i)) (VStr "r") VNone (VStr "k") (VStr "o") (VInt i) VNone (VDict []) (VStr "20010101").
(** Records padded with blanks up to the size of a line. *)
Definition padded (size i : Z) : list log_line :=
  match small_event i with Ok e => match _canonical (to_dict e) with Ok t => [MkLine size true (Some (reload (VDict (record_of e t))))] | _ => [] end | _ => [] end.
Definition full_log : list log_line := (flat_map (padded MAX_LOG_LINE_BYTES) (map Z.of_nat (seq 1 63)) ++ padded 1000 64)%list.
Example append_overgrows : (f ← (e ← small_event 65; fst <$> append (MkLog "r" None) at_noon (Some full_log) e);
  Ok (length full_log, file_size (Some full_log), (MAX_LOG_BYTES <? file_size f)%Z, is_ok (replay at_noon f (VInt 1)))) = Ok (64%nat, 4194280%Z, true, false).
Proof. vm_compute. reflexivity. Qed.

(** ** A concrete log *)

Definition blank_event : FleetEvent := MkEvent (NInt 1) "" "" None "" "" (NInt 0) None VNone "".
Definition demo_event : FleetEvent := Eval vm_compute in match create_event demo_log at_noon (demo_fields "e1" 1) with Ok e => e | Err _ => blank_event end.
Definition demo_text : string := Eval vm_compute in match _canonical (to_dict demo_event) with Ok t => t | Err _ => "" end.
Definition demo_file : log_file := Some [written_line demo_event demo_text].
Lemma demo_made : made demo_event.
Proof.
  apply (Made at_noon (VInt 1) (VStr "e1") (VStr "run-1") (VStr "t1") (VStr "lifecycle.transition") (VStr "t1") (VInt 1) (VInt 3)
    (VDict [(VStr "to", VStr "running"); (VStr "from", VStr "ready")]) (VStr "")).
  vm_compute. reflexivity.
Qed.
Lemma demo_append : append demo_log at_noon None demo_event = Ok (demo_file, demo_event).
Proof. vm_compute. reflexivity. Qed.
Lemma demo_size : (file_size demo_file <= MAX_LOG_BYTES)%Z.
Proof. vm_compute. discriminate. Qed.
Lemma append_durable_witness : ∃ text, _canonical (to_dict demo_event) = Ok text ∧
  ((demo_file = None ∧ (demo_event, text) ∈ [] ∧ event_id demo_event = event_id demo_event) ∨
   (demo_event = demo_event ∧ _records at_noon demo_file = Ok ([] ++ [(settled demo_event, text)])%list ∧ _canonical (to_dict (settled demo_event)) = Ok text)) ∧
  ∃ x', append demo_log at_noon demo_file demo_event = Ok (demo_file, x').
Proof.
  exact (append_durable demo_log at_noon None demo_event demo_file demo_event [] demo_made eq_refl demo_append demo_size).
Defined.
Lemma demo_built : built "run-1" demo_file.
Proof. exact (built_append "run-1" demo_log at_noon None demo_event demo_file demo_event (built_none "run-1") eq_refl demo_made demo_append). Qed.
Lemma demo_replay : replay at_noon demo_file (VInt 10) = Ok [settled demo_event].
Proof. vm_compute. reflexivity. Qed.
Lemma log_ordered_witness : Forall (λ e, run_id e = "run-1") [settled demo_event] ∧ NoDup (map event_id [settled demo_event]) ∧
  StronglySorted (λ a b, num_ltb (sequence a) (sequence b) = true) [settled demo_event].
Proof. exact (log_ordered "run-1" demo_file at_noon (VInt 10) [settled demo_event] demo_built demo_replay). Defined.
