(* ===== verification/EventDiagnostics.v ===== *)
(** * Diagnostics of an event log (scripts/pd_fleet/event_diagnostics.py)

    The report with the checks of its constructor, the projection of lifecycle
    transitions, the sequence checks, and [diagnose_event_log].  A dictionary
    of task states is an association list in insertion order. *)

From S2P Require Import Prelude PyStr PyNum PyVal Regex IsoTime Lifecycle Events.

Open Scope string_scope.

Definition _STATUS : list string := ["healthy"; "degraded"; "blocked"; "unknown"].
Definition _REASON_MALFORMED : string := "malformed_transition".
Definition _REASON_INCONSISTENT : string := "inconsistent_transition".
Definition _REASON_GAP : string := "sequence_gap".
Definition _REASON_NON_INTEGER : string := "non_integer_sequence".
Definition _REASON_DUPLICATE : string := "duplicate_sequence".
Definition _REASON_NON_MONOTONIC : string := "non_monotonic_sequence".
Definition _REASONS : list string :=
  [_REASON_MALFORMED; _REASON_INCONSISTENT; _REASON_GAP; _REASON_NON_INTEGER; _REASON_DUPLICATE; _REASON_NON_MONOTONIC].
Definition _MAX_REASONS : nat := 32.
Definition _MAX_GAPS : nat := 32.
Definition _MAX_TASK_STATES : nat := 256.
Definition STATES : list string := map state_value all_states.

(** ** The report *)

Record EventDiagnosticsReport : Type := MkReport {
  status : string; event_count : Z; transition_count : Z; checkpoint_count : Z;
  first_sequence : option pynum; last_sequence : option pynum;
  sequence_gaps : list Z; task_states : list (string * string); reasons : list string }.

Definition demand (b : bool) : eres unit := ensure b EvValueError.
(** What iterating a value yields, at most [maximum] items. *)
Definition iter_of (v : pyval) : option (list pyval) :=
  match v with
  | VStr s => Some (map (λ c, VStr (String c "")) (String.list_ascii_of_string s))
  | VList l | VTuple l => Some l
  | VDict d | VProxy d => Some (map fst d)
  | _ => None
  end.
Definition at_most {A} (maximum : nat) (l : option (list A)) : eres (list A) :=
  match l with Some l => if (length l <=? maximum)%nat then Ok l else Err EvValueError | None => Err EvValueError end.
Definition _bounded_tuple (v : pyval) (maximum : nat) : eres (list pyval) := at_most maximum (iter_of v).

Definition count_of (v : pyval) : eres Z := match v with VInt z => if (0 <=? z)%Z then Ok z else Err EvValueError | _ => Err EvValueError end.
Definition sequence_of (v : pyval) : eres (option pynum) :=
  match v with
  | VNone => Ok None
  | VInt z => match float_of_Z z with None => Err EvOverflowError | Some _ => if (0 <=? z)%Z then Ok (Some (NInt z)) else Err EvValueError end
  | VFloat f => if is_finite f && negb (num_ltb (NFloat f) (NInt 0)) then Ok (Some (NFloat f)) else Err EvValueError
  | _ => Err EvValueError
  end.
Definition task_state (kv : pyval * pyval) : eres (string * string) :=
  match kv with
  | (VStr k, VStr s) => if Events._ID k && bool_decide (s ∈ STATES) then Ok (k, s) else Err EvValueError
  | _ => Err EvValueError
  end.
Definition reason_of (v : pyval) : eres string :=
  match v with VStr s => if bool_decide (s ∈ _REASONS) then Ok s else Err EvValueError | _ => Err EvValueError end.

Definition new_report (status event_count transition_count checkpoint_count first_sequence last_sequence sequence_gaps task_states reasons : pyval) :
    eres EventDiagnosticsReport :=
  status ← match status with VStr s => if bool_decide (s ∈ _STATUS) then Ok s else Err EvValueError | _ => Err EvValueError end;
  events ← count_of event_count; transitions ← count_of transition_count; checkpoints ← count_of checkpoint_count;
  _ ← demand ((events <=? MAX_QUERY)%Z && (transitions <=? events)%Z && (checkpoints <=? events)%Z);
  first ← sequence_of first_sequence; last ← sequence_of last_sequence;
  gaps ← _bounded_tuple sequence_gaps _MAX_GAPS;
  gaps ← mapM count_of gaps;
  items ← at_most _MAX_TASK_STATES (entries task_states);
  states ← mapM task_state items;
  reasons ← _bounded_tuple reasons _MAX_REASONS;
  reasons ← mapM reason_of reasons;
  Ok (MkReport status events transitions checkpoints first last gaps states reasons).

Definition to_dict (r : EventDiagnosticsReport) : dict :=
  let sorted := sort_by (λ x y : string * string, String.leb x.1 y.1) r.(task_states) in
  [(VStr "checkpoint_count", VInt r.(checkpoint_count)); (VStr "event_count", VInt r.(event_count));
   (VStr "first_sequence", of_opt of_num r.(first_sequence)); (VStr "last_sequence", of_opt of_num r.(last_sequence));
   (VStr "reasons", VList (map VStr r.(reasons))); (VStr "sequence_gaps", VList (map VInt r.(sequence_gaps))); (VStr "status", VStr r.(status));
   (VStr "task_states", VDict (map (λ kv, (VStr kv.1, VStr kv.2)) sorted)); (VStr "transition_count", VInt r.(transition_count))].

(** ** The projection of the events *)

Definition _reason_add (reasons : list string) (reason : string) : list string :=
  if bool_decide (reason ∈ reasons) then reasons else (reasons ++ [reason])%list.
Definition _state (v : pyval) : option string := match v with VStr s => if bool_decide (s ∈ STATES) then Some s else None | _ => None end.

(** The task, source and target of a well-formed transition. *)
Definition transition_of (e : FleetEvent) : option (string * string * string) :=
  match e.(task_id), entries e.(payload) with
  | Some t, Some d =>
      if nonempty t then from ← _state (dget_or VNone "from" d); to ← _state (dget_or VNone "to" d); Some (t, from, to) else None
  | _, _ => None
  end.
Definition _transition (e : FleetEvent) (states : dict) (reasons : list string) : dict * list string :=
  match transition_of e with
  | Some (t, from, to) =>
      let reasons := match dget t states with
                     | Some (VStr previous) => if bool_decide (from = previous) then reasons else _reason_add reasons _REASON_INCONSISTENT
                     | _ => reasons
                     end in
      (dset t (VStr to) states, reasons)
  | None => (states, _reason_add reasons _REASON_MALFORMED)
  end.

Record scan : Type := MkScan { sc_states : dict; sc_reasons : list string; sc_transitions : Z; sc_checkpoints : Z }.
Definition same_owner (log : EventLog) (e : FleetEvent) : bool :=
  match log.(log_epoch) with Some x => match e.(owner_epoch) with Some y => num_eqb y x | None => false end | None => true end.
Definition scan_event (log : EventLog) (acc : scan) (e : FleetEvent) : eres scan :=
  _ ← check (same_owner log e);
  if bool_decide (e.(kind) = "lifecycle.transition") then
    let '(states, reasons) := _transition e acc.(sc_states) acc.(sc_reasons) in Ok (MkScan states reasons (acc.(sc_transitions) + 1) acc.(sc_checkpoints))
  else if bool_decide (e.(kind) = "checkpoint.committed") then Ok (MkScan acc.(sc_states) acc.(sc_reasons) acc.(sc_transitions) (acc.(sc_checkpoints) + 1))
  else Ok acc.

(** ** Sequences *)

Definition is_int (x : pynum) : bool := match x with NInt _ => true | NFloat _ => false end.
Definition int_of (x : pynum) : Z := match x with NInt z => z | NFloat _ => 0 end.
Definition numeric (x : pynum) : bool := num_finite x && negb (num_ltb x (NInt 0)).
Definition pairs {A} (l : list A) : list (A * A) := zip l (tail l).
Definition pair_anomaly (p : pynum * pynum) : option string :=
  if num_eqb p.2 p.1 then Some _REASON_DUPLICATE else if num_ltb p.2 p.1 then Some _REASON_NON_MONOTONIC else None.
Definition anomalies (seqs : list pynum) : list string := if forallb numeric seqs then omap pair_anomaly (pairs seqs) else [].
(** The values missing between two sequences, while there are fewer than 32. *)
Definition fill_gap (missing : list Z) (p : Z * Z) : list Z :=
  (missing ++ seqZ (p.1 + 1) (Z.min (p.2 - p.1 - 1) (Z.of_nat _MAX_GAPS - Z.of_nat (length missing))))%list.
Definition gaps_of (seqs : list Z) : list Z := foldl fill_gap [] (pairs seqs).
Definition min_of (x : pynum) (l : list pynum) : pynum := foldl (λ m y, if num_ltb y m then y else m) x l.
Definition max_of (x : pynum) (l : list pynum) : pynum := foldl (λ m y, if num_ltb m y then y else m) x l.

Definition strs (l : list string) : pyval := VTuple (map VStr l).
Definition _empty_report : eres EventDiagnosticsReport :=
  new_report (VStr "unknown") (VInt 0) (VInt 0) (VInt 0) VNone VNone (VTuple []) (VDict []) (VTuple []).

Definition check_active (log : EventLog) (active : pyval) : eres unit :=
  match active with
  | VNone => Ok ()
  | v => x ← _number v; check (match log.(log_epoch) with Some y => num_eqb x y | None => false end)
  end.
Definition diagnose_events (log : EventLog) (events : list FleetEvent) : eres EventDiagnosticsReport :=
  match map sequence events with
  | [] => _empty_report
  | x :: rest =>
      let seqs := x :: rest in
      acc ← foldM (scan_event log) (MkScan [] [] 0 0) events;
      let anomalous := anomalies seqs in
      let reasons := foldl _reason_add acc.(sc_reasons) anomalous in
      let integers := forallb is_int seqs in
      let gaps := if integers && match anomalous with [] => true | _ => false end then gaps_of (map int_of seqs) else [] in
      let reasons := if negb integers then _reason_add reasons _REASON_NON_INTEGER
                     else match gaps with [] => reasons | _ => _reason_add reasons _REASON_GAP end in
      let status := match reasons with [] => "healthy" | _ => "degraded" end in
      new_report (VStr status) (VInt (Z.of_nat (length events))) (VInt acc.(sc_transitions)) (VInt acc.(sc_checkpoints))
        (of_num (min_of x rest)) (of_num (max_of x rest)) (VTuple (map VInt gaps)) (VDict acc.(sc_states)) (strs reasons)
  end.
Definition diagnose_event_log (log : EventLog) (now : clock_reading) (f : log_file) (active_owner_epoch limit : pyval) : eres EventDiagnosticsReport :=
  _ ← check_active log active_owner_epoch;
  events ← replay now f limit;
  diagnose_events log events.

Definition demo_events : list FleetEvent := map (λ p, MkEvent (NInt 1) (p.1.1 +:+ "-id") "run-1" (Some p.1.1) "lifecycle.transition" "k" (NInt p.1.2) (Some (NInt 3))
  (VProxy [(VStr "from", VStr p.2.1); (VStr "to", VStr p.2.2)]) "x") [("a", 1, ("pending", "ready")); ("b", 2, ("pending", "ready")); ("a", 5, ("ready", "running")); ("b", 6, ("running", "completed"))]%Z.
Example event_diagnose_ex : (r ← diagnose_events demo_log demo_events; Ok (status r, sequence_gaps r, task_states r, reasons r)) =
  Ok ("degraded", [3; 4]%Z, [("a", "running"); ("b", "completed")], ["inconsistent_transition"; "sequence_gap"]).
Proof. vm_compute. reflexivity. Qed.

(** ** What a diagnosis should say *)

Definition is_transition (e : FleetEvent) : bool := bool_decide (kind e = "lifecycle.transition").
Definition well_formed (es : list FleetEvent) : Prop := Forall (λ e, is_transition e = true → is_Some (transition_of e)) es.
(** The transitions of one task, as sources and targets. *)
Definition move_of (t : string) (e : FleetEvent) : option (string * string) :=
  match transition_of e with Some (t', from, to) => if is_transition e && bool_decide (t' = t) then Some (from, to) else None | None => None end.
Definition moves (t : string) (es : list FleetEvent) : list (string * string) := omap (move_of t) es.
(** Every move starts where the one before it ended. *)
Definition linked (l : list (string * string)) : Prop := Forall (λ p, p.2.1 = p.1.2) (pairs l).
(** The distinct tasks that moved. *)
Definition moved (e : FleetEvent) : option string := if is_transition e then (λ x, x.1.1) <$> transition_of e else None.
Definition tasks (es : list FleetEvent) : list string := remove_dups (omap moved es).
Definition contiguous (seqs : list pynum) : Prop := ∃ z, seqs = map NInt (seqZ z (Z.of_nat (length seqs))).

(** ** Lemmas *)

Lemma foldM_snoc {E A B} (f : B → A → res E B) b l x : foldM f b (l ++ [x])%list = (c ← foldM f b l; f c x).
Proof. revert b. induction l as [|y l IH]; intros b; cbn; [by destruct (f b x)|]. destruct (f b y); [apply IH|done]. Qed.
Lemma pairs_snoc {A} (l : list A) x y : pairs ((l ++ [x]) ++ [y])%list = (pairs (l ++ [x]) ++ [(x, y)])%list.
Proof.
  induction l as [|z l IH]; [done|]. change (pairs (((z :: l) ++ [x]) ++ [y])%list) with (zip (z :: ((l ++ [x]) ++ [y]))%list ((l ++ [x]) ++ [y])%list).
  change (pairs ((z :: l) ++ [x])%list) with (zip (z :: (l ++ [x]))%list (l ++ [x])%list). destruct l as [|w l]; [done|]. cbn [app zip zip_with] in *. f_equal. exact IH.
Qed.
Lemma linked_snoc l m : linked (l ++ [m])%list ↔ linked l ∧ ∀ p, last l = Some p → m.1 = p.2.
Proof.
  destruct l as [|x l _] using rev_ind; [split; [intros _; split; [constructor|done]|intros _; constructor]|].
  unfold linked. rewrite pairs_snoc, Forall_app, Forall_singleton, last_snoc. naive_solver.
Qed.
Lemma moves_snoc t es e : moves t (es ++ [e])%list = (moves t es ++ match move_of t e with Some m => [m] | None => [] end)%list.
Proof. unfold moves. by rewrite omap_app. Qed.
Lemma reason_add_nil l r : _reason_add l r ≠ [].
Proof. unfold _reason_add. case_bool_decide as E; [|by destruct l]. intros ->. by apply elem_of_nil in E. Qed.
Lemma reason_add_fold l rs : foldl _reason_add l rs = [] ↔ l = [] ∧ rs = [].
Proof.
  revert l. induction rs as [|r rs IH]; intros l; cbn; [naive_solver|]. rewrite IH. split; [intros [H _]; by destruct (reason_add_nil l r)|naive_solver].
Qed.
Definition known (l : list string) : Prop := Forall (λ r, r ∈ _REASONS) l ∧ NoDup l.
Lemma reason_add_known l r : r ∈ _REASONS → known l → known (_reason_add l r).
Proof.
  intros Hr [Hl Hn]. unfold _reason_add. case_bool_decide as E; [done|]. split; [apply Forall_app; split; [done|by apply Forall_singleton]|]. apply NoDup_app. split; [done|].
  split; [|apply NoDup_singleton]. intros x Hx ->%list_elem_of_singleton. done.
Qed.

(** The state of the scan after some events. *)
Record scanned (es : list FleetEvent) (acc : scan) : Prop := {
  sd_state : ∀ t, dget t (sc_states acc) = VStr ∘ snd <$> last (moves t es);
  sd_keys : map fst (sc_states acc) ≡ₚ map VStr (tasks es);
  sd_values : Forall (λ kv, ∃ t s, kv = (VStr t, VStr s) ∧ t ∈ tasks es ∧ s ∈ STATES) (sc_states acc);
  sd_reasons : sc_reasons acc = [] ↔ well_formed es ∧ ∀ t, linked (moves t es);
  sd_known : known (sc_reasons acc);
  sd_counts : sc_transitions acc = Z.of_nat (length (List.filter is_transition es)) ∧
    (0 <= sc_checkpoints acc <= Z.of_nat (length es))%Z }.

Lemma dset_keys k v d : map fst (dset k v d) = if dhas k d then map fst d else (map fst d ++ [VStr k])%list.
Proof.
  unfold dhas. induction d as [|[j w] d IH]; [done|]. cbn [dset dget]. destruct (key_is k j); [done|]. cbn [map fst]. rewrite IH. by destruct (dget k d).
Qed.
Lemma dhas_keys k d : dhas k d = true ↔ VStr k ∈ map fst d.
Proof.
  unfold dhas. induction d as [|[j w] d IH]; [cbn; split; [discriminate|by intros ?%elem_of_nil]|]. cbn [dget map fst]. rewrite elem_of_cons, <- IH.
  destruct (key_is k j) eqn:E; [destruct j; try discriminate; apply bool_decide_eq_true in E as ->; naive_solver|].
  split; [by right|]. intros [<- | H]; [|done]. cbn in E. by rewrite bool_decide_true in E.
Qed.
Lemma elem_of_tasks t es : t ∈ tasks es ↔ ∃ e, e ∈ es ∧ moved e = Some t.
Proof. unfold tasks. by rewrite elem_of_remove_dups, list_elem_of_omap. Qed.
Lemma tasks_snoc es e : tasks (es ++ [e])%list ≡ₚ
  match moved e with Some t => if bool_decide (t ∈ tasks es) then tasks es else (tasks es ++ [t])%list | None => tasks es end.
Proof.
  assert (∀ t, t ∈ tasks (es ++ [e])%list ↔ t ∈ tasks es ∨ moved e = Some t) as Hin.
  { intros t. rewrite !elem_of_tasks. setoid_rewrite elem_of_app. setoid_rewrite list_elem_of_singleton. naive_solver. }
  apply NoDup_Permutation; [apply NoDup_remove_dups| |].
  - destruct (moved e) as [t|]; [case_bool_decide|]; [apply NoDup_remove_dups| |apply NoDup_remove_dups]. apply NoDup_app. split; [apply NoDup_remove_dups|].
    split; [by intros x Hx ->%list_elem_of_singleton|apply NoDup_singleton].
  - intros t. rewrite Hin. destruct (moved e) as [t'|]; [case_bool_decide|]; rewrite ?elem_of_app, ?list_elem_of_singleton; naive_solver.
Qed.
Lemma move_moved t e : move_of t e = (match transition_of e with Some x => if bool_decide (moved e = Some t) then Some (x.1.2, x.2) else None | None => None end).
Proof.
  unfold move_of, moved. destruct (transition_of e) as [[[t' f] g]|]; [|done]. destruct (is_transition e); cbn [andb fmap option_fmap option_map fst snd]; [|done].
  repeat case_bool_decide; congruence.
Qed.
Lemma transition_states e t f g : transition_of e = Some (t, f, g) → g ∈ STATES.
Proof.
  unfold transition_of. destruct (task_id e); [|discriminate]. destruct (entries _); [|discriminate]. destruct (nonempty _); [|discriminate].
  destruct (_state (dget_or VNone "from" l)); [|discriminate]. cbn [mbind option_bind]. destruct (_state _) as [x|] eqn:E; [|discriminate]. cbn. intros [= _ _ <-].
  destruct (dget_or VNone "to" l); try discriminate. cbn [_state] in E. case_bool_decide; [by injection E as <-|discriminate].
Qed.
Lemma reasons_among r : bool_decide (r ∈ _REASONS) = true → r ∈ _REASONS.
Proof. apply bool_decide_eq_true_1. Qed.
Lemma well_formed_snoc es e : well_formed (es ++ [e])%list ↔ well_formed es ∧ (is_transition e = true → is_Some (transition_of e)).
Proof. unfold well_formed. by rewrite Forall_app, Forall_singleton. Qed.
Lemma count_snoc es e : Z.of_nat (length (List.filter is_transition (es ++ [e])%list)) = (Z.of_nat (length (List.filter is_transition es)) + if is_transition e then 1 else 0)%Z.
Proof. rewrite List.filter_app, length_app. cbn [List.filter]. destruct (is_transition e); cbn [length]; lia. Qed.

(** An event that moves no task. *)
Lemma scanned_still es e acc acc' : scanned es acc → moved e = None → (∀ t, move_of t e = None) → sc_states acc' = sc_states acc →
  (sc_reasons acc' = [] ↔ sc_reasons acc = [] ∧ (is_transition e = true → is_Some (transition_of e))) → known (sc_reasons acc') →
  sc_transitions acc' = (sc_transitions acc + if is_transition e then 1 else 0)%Z → (0 <= sc_checkpoints acc' <= Z.of_nat (length (es ++ [e])%list))%Z →
  scanned (es ++ [e])%list acc'.
Proof.
  intros [H1 H2 H3 H4 H5 [H6 H7]] Hm Hmv Hst Hr Hk Ht Hc. assert (tasks (es ++ [e])%list ≡ₚ tasks es) as Htk by (rewrite tasks_snoc; by rewrite Hm).
  assert (∀ t, moves t (es ++ [e])%list = moves t es) as Hmoves by (intros t; rewrite moves_snoc, Hmv; apply app_nil_r).
  constructor; rewrite ?Hst.
  - intros t. by rewrite Hmoves.
  - by rewrite Htk.
  - eapply Forall_impl; [exact H3|]. intros kv (t & s & ? & ? & ?). exists t, s. by rewrite Htk.
  - rewrite Hr, H4, well_formed_snoc. setoid_rewrite Hmoves. naive_solver.
  - done.
  - rewrite count_snoc. split; [lia|done].
Qed.
(** An event that moves a task. *)
Lemma scanned_moved es e acc t f g : scanned es acc → is_transition e = true → transition_of e = Some (t, f, g) →
  let r := _transition e (sc_states acc) (sc_reasons acc) in
  scanned (es ++ [e])%list (MkScan r.1 r.2 (sc_transitions acc + 1) (sc_checkpoints acc)).
Proof.
  intros [H1 H2 H3 H4 H5 [H6 H7]] Hk Ht. cbv zeta. unfold _transition. rewrite Ht. cbn [fst snd]. assert (moved e = Some t) as Hm by (unfold moved; by rewrite Hk, Ht).
  assert (∀ t', moves t' (es ++ [e])%list = if bool_decide (t = t') then (moves t' es ++ [(f, g)])%list else moves t' es) as Hmoves.
  { intros t'. rewrite moves_snoc. unfold move_of. rewrite Ht, Hk. cbn [andb]. case_bool_decide; [done|apply app_nil_r]. }
  pose proof (tasks_snoc es e) as Htk. rewrite Hm in Htk. pose proof (transition_states _ _ _ _ Ht) as Hg.
  assert (dhas t (sc_states acc) = bool_decide (t ∈ tasks es)) as Hd.
  { apply eq_bool_prop_intro. rewrite !Is_true_true, bool_decide_eq_true, dhas_keys, H2. rewrite list_elem_of_fmap. naive_solver. }
  constructor; cbn [sc_states sc_reasons sc_transitions sc_checkpoints].
  - intros t'. rewrite dget_dset, Hmoves. destruct (decide (t = t')); [rewrite !bool_decide_true by done; by rewrite last_snoc|rewrite !bool_decide_false by done; by rewrite H1].
  - rewrite dset_keys, Hd, Htk. case_bool_decide; [done|]. by rewrite map_app, H2.
  - apply Forall_forall. intros kv [-> | Hin]%elem_of_dset.
    + exists t, g. split; [done|]. split; [|done]. rewrite Htk. case_bool_decide; [done|]. apply elem_of_app. right. by apply list_elem_of_singleton.
    + rewrite Forall_forall in H3. destruct (H3 _ Hin) as (t' & s & -> & Ht' & Hs). exists t', s. split; [done|]. split; [|done]. rewrite Htk.
      case_bool_decide; [done|]. apply elem_of_app. by left.
  - rewrite well_formed_snoc. assert ((∀ t', linked (moves t' (es ++ [e])%list)) ↔ (∀ t', linked (moves t' es)) ∧ ∀ p, last (moves t es) = Some p → f = p.2) as ->.
    { setoid_rewrite Hmoves. split.
      - intros H. split; [intros t'; specialize (H t'); destruct (decide (t = t')); [rewrite bool_decide_true in H by done; by apply linked_snoc in H as [? _]|by rewrite bool_decide_false in H]|].
        specialize (H t). rewrite bool_decide_true in H by done. apply linked_snoc in H as [_ H]. exact H.
      - intros [H Hl] t'. destruct (decide (t = t')) as [<- |]; [rewrite bool_decide_true by done; apply linked_snoc; by split|by rewrite bool_decide_false]. }
    rewrite H1. destruct (last (moves t es)) as [[f' g']|] eqn:El; cbn [fmap option_fmap option_map compose snd].
    + destruct (decide (f = g')); [rewrite bool_decide_true by done; rewrite H4; naive_solver|]. rewrite bool_decide_false by done. split; [by intros ?%reason_add_nil|]. intros (_ & _ & Hp). specialize (Hp _ eq_refl). done.
    + rewrite H4. naive_solver.
  - rewrite H1. destruct (last (moves t es)) as [[f' g']|]; cbn [fmap option_fmap option_map compose snd]; [|done]. destruct (bool_decide (f = g')); [done|].
    apply reason_add_known; [|done]. apply reasons_among. vm_compute. reflexivity.
  - rewrite count_snoc, Hk, length_app. cbn [length]. split; [lia|lia].
Qed.

Lemma scan_snoc log es acc e : scanned es acc → same_owner log e = true → ∃ acc', scan_event log acc e = Ok acc' ∧ scanned (es ++ [e])%list acc'.
Proof.
  intros Hs Ho. unfold scan_event. rewrite Ho. cbn [check ensure mbind res_bind]. fold (is_transition e). pose proof Hs as [_ _ _ H4 H5 [H6 H7]].
  destruct (is_transition e) eqn:Hk.
  - destruct (transition_of e) as [[[t f] g]|] eqn:Ht.
    + pose proof (scanned_moved es e acc t f g Hs Hk Ht) as Hn. cbv zeta in Hn. destruct (_transition e (sc_states acc) (sc_reasons acc)) as [st rs]. eexists; by split.
    + unfold _transition. rewrite Ht. eexists; split; [reflexivity|]. apply (scanned_still es e acc); cbn [sc_states sc_reasons sc_transitions sc_checkpoints]; try done.
      * unfold moved. by rewrite Hk, Ht.
      * intros t. unfold move_of. by rewrite Ht.
      * split; [by intros ?%reason_add_nil|]. rewrite Ht. intros [_ Hx]. by destruct (Hx Hk).
      * apply reason_add_known; [apply reasons_among; vm_compute; reflexivity|done].
      * by rewrite Hk.
      * rewrite length_app. cbn. lia.
  - assert (moved e = None) as Hm by (unfold moved; by rewrite Hk).
    assert (∀ t, move_of t e = None) as Hmv by (intros t; unfold move_of; rewrite Hk; by destruct (transition_of e) as [[[? ?] ?]|]).
    case_bool_decide; eexists; (split; [reflexivity|]); apply (scanned_still es e acc); cbn [sc_states sc_reasons sc_transitions sc_checkpoints];
      rewrite ?Hk, ?length_app; cbn [length]; try done; try lia; naive_solver.
Qed.
Lemma scan_all log es : Forall (λ e, same_owner log e = true) es → ∃ acc, foldM (scan_event log) (MkScan [] [] 0 0) es = Ok acc ∧ scanned es acc.
Proof.
  induction es as [|e es IH] using rev_ind; intros Ho.
  - exists (MkScan [] [] 0 0). split; [done|]. constructor; cbn; try done; [|split; constructor]. split; [|done]. split; [constructor|]. intros t. constructor.
  - apply Forall_app in Ho as [Ho He]. apply Forall_cons in He as [He _]. destruct (IH Ho) as (acc & Ha & Hs). destruct (scan_snoc log es acc e Hs He) as (acc' & Ha' & Hs').
    exists acc'. split; [|done]. rewrite foldM_snoc, Ha. exact Ha'.
Qed.

(** *** Sequences *)

Definition ascending (seqs : list pynum) : Prop := StronglySorted (λ a b, num_ltb a b = true) seqs.
Lemma ltb_not_eqb x y : num_ltb x y = true → num_eqb y x = false.
Proof.
  unfold num_ltb, num_eqb, num_compare. destruct (num_val x) as [m k|s|], (num_val y) as [m' k'|s'|]; try done.
  - rewrite (dyadic_compare_antisym (m, k) (m', k')). by destruct (dyadic_compare (m, k) (m', k')).
  - by destruct s'.
  - by destruct s.
  - by destruct s, s'.
Qed.
Lemma ascending_pairs seqs : ascending seqs → Forall (λ p, num_ltb p.1 p.2 = true) (pairs seqs).
Proof.
  induction 1 as [|x l Hl IH Hx]; [constructor|]. destruct l as [|y l]; [constructor|]. change (pairs (x :: y :: l)) with ((x, y) :: pairs (y :: l)).
  constructor; [by apply Forall_cons in Hx as [? _]|done].
Qed.
Lemma no_anomaly seqs : ascending seqs → anomalies seqs = [].
Proof.
  intros H%ascending_pairs. unfold anomalies. destruct (forallb _ _); [|done]. induction H as [|p l Hp H IH]; [done|]. cbn [omap list_omap].
  unfold pair_anomaly. rewrite (ltb_not_eqb _ _ Hp), (num_ltb_antisym _ _ Hp). exact IH.
Qed.

(** The integers missing from an ascending sequence. *)
Definition missing (zs : list Z) : list Z := concat (map (λ p : Z * Z, seqZ (p.1 + 1) (p.2 - p.1 - 1)) (pairs zs)).
Lemma seqZ_min a n k : (0 <= k)%Z → seqZ a (Z.min n k) = take (Z.to_nat k) (seqZ a n).
Proof.
  intros Hk. unfold seqZ. rewrite <- fmap_take, take_seq. do 2 f_equal. lia.
Qed.
Lemma take_take_app {A} n (a b c : list A) : take n (take n (a ++ b) ++ c)%list = take n (a ++ b ++ c)%list.
Proof.
  rewrite (app_assoc a b c). generalize (a ++ b)%list. clear a b. intros a. destruct (Nat.le_gt_cases (length a) n).
  - by rewrite (take_ge a n).
  - rewrite !take_app_le; [by rewrite take_take, Nat.min_id|lia|rewrite length_take; lia].
Qed.
Lemma fill_fold acc ps : (length acc <= _MAX_GAPS)%nat →
  foldl fill_gap acc ps = take _MAX_GAPS (acc ++ concat (map (λ p : Z * Z, seqZ (p.1 + 1) (p.2 - p.1 - 1)) ps))%list.
Proof.
  revert acc. induction ps as [|p ps IH]; intros acc Hl; cbn [foldl map concat]; [by rewrite app_nil_r, take_ge|].
  assert (fill_gap acc p = take _MAX_GAPS (acc ++ seqZ (p.1 + 1) (p.2 - p.1 - 1))%list) as ->.
  { unfold fill_gap. rewrite seqZ_min by lia. rewrite take_app. f_equal; [by rewrite take_ge|]. f_equal. lia. }
  rewrite IH by (rewrite length_take; lia). apply take_take_app.
Qed.
Lemma gaps_missing zs : gaps_of zs = take _MAX_GAPS (missing zs).
Proof. unfold gaps_of. by rewrite fill_fold by (cbn; lia). Qed.

Lemma ascending_ints zs : ascending (map NInt zs) → Forall (λ p, (p.1 < p.2)%Z) (pairs zs).
Proof.
  intros H%ascending_pairs. revert H. induction zs as [|x zs IH]; [constructor|]. destruct zs as [|y zs]; [constructor|].
  change (pairs (map NInt (x :: y :: zs))) with ((NInt x, NInt y) :: pairs (map NInt (y :: zs))). change (pairs (x :: y :: zs)) with ((x, y) :: pairs (y :: zs)).
  intros [H1 H2]%Forall_cons. constructor; [|by apply IH]. cbn [fst snd] in *. rewrite num_ltb_int in H1. by apply Z.ltb_lt.
Qed.
Lemma none_missing x zs : Forall (λ p, (p.1 < p.2)%Z) (pairs (x :: zs)) → missing (x :: zs) = [] ↔ x :: zs = seqZ x (Z.of_nat (length (x :: zs))).
Proof.
  revert x. induction zs as [|y zs IH]; intros x H; [done|].
  change (pairs (x :: y :: zs)) with ((x, y) :: pairs (y :: zs)) in H. apply Forall_cons in H as [Hxy H]. cbn [fst snd] in Hxy.
  change (missing (x :: y :: zs)) with (seqZ (x + 1) (y - x - 1) ++ missing (y :: zs))%list. rewrite app_nil, (IH y H).
  assert (seqZ (x + 1) (y - x - 1) = [] ↔ (y - x - 1 <= 0)%Z) as ->.
  { split; [|apply seqZ_nil]. intros E. apply (f_equal length) in E. rewrite length_seqZ in E. cbn in E. lia. }
  rewrite (seqZ_cons x) by (cbn [length]; lia). replace (Z.pred (Z.of_nat (length (x :: y :: zs)))) with (Z.of_nat (length (y :: zs))) by (cbn [length]; lia). split.
  - intros [H1 H2]. f_equal. assert (y = Z.succ x) as <- by lia. exact H2.
  - intros [= E]. assert (y = Z.succ x) as ->.
    { rewrite (seqZ_cons (Z.succ x)) in E by (cbn [length]; lia). congruence. }
    split; [lia|exact E].
Qed.
Fixpoint end_of (x : Z) (zs : list Z) : Z := match zs with [] => x | y :: zs' => end_of y zs' end.
(** The missing values are the ones between the ends that are not there. *)
Lemma elem_of_missing x zs v : Forall (λ p, (p.1 < p.2)%Z) (pairs (x :: zs)) →
  v ∈ missing (x :: zs) ↔ (x < v)%Z ∧ (v < end_of x zs)%Z ∧ v ∉ zs.
Proof.
  revert x. induction zs as [|y zs IH]; intros x H; [cbn; split; [by intros ?%elem_of_nil|lia]|].
  change (pairs (x :: y :: zs)) with ((x, y) :: pairs (y :: zs)) in H. apply Forall_cons in H as [Hxy H]. cbn [fst snd] in Hxy.
  change (missing (x :: y :: zs)) with (seqZ (x + 1) (y - x - 1) ++ missing (y :: zs))%list. rewrite elem_of_app, (IH y H), elem_of_seqZ, not_elem_of_cons. cbn [end_of].
  assert (∀ z, z ∈ y :: zs → (y <= z)%Z ∧ (z <= end_of y zs)%Z) as Hb.
  { clear -H. revert y H. induction zs as [|w zs IH]; intros y H z Hz; [apply list_elem_of_singleton in Hz as ->; cbn; lia|].
    change (pairs (y :: w :: zs)) with ((y, w) :: pairs (w :: zs)) in H. apply Forall_cons in H as [Hyw H]. cbn [fst snd] in Hyw.
    cbn [end_of]. apply elem_of_cons in Hz as [-> | Hz]; [|pose proof (IH w H z Hz); lia]. pose proof (IH w H w (list_elem_of_here _ _)). lia. }
  pose proof (Hb y (list_elem_of_here _ _)) as Hy. split.
  - intros [H1 | (H1 & H2 & H3)]; [|repeat split; [lia|lia|lia|done]]. repeat split; [lia|lia|lia|]. intros Hv. destruct (Hb v (list_elem_of_further _ _ _ Hv)). lia.
  - intros (H1 & H2 & H3 & H4). destruct (Z.lt_ge_cases v y); [left; lia|right; repeat split; [lia|lia|done]].
Qed.

(** *** The report *)

Lemma identified e : made e → ∀ t, task_id e = Some t → Events._ID t = true ∧ nonempty t = true.
Proof.
  intros He%made_parts t Ht. pose proof (pt_task e He) as H. rewrite Ht in H. cbn [of_opt] in H. unfold to_opt in H.
  destruct (_string true false (VStr t)) as [s|] eqn:E; [|discriminate]. clear H. cbn [_string] in E. apply bind_ok in E as (u & H1%event_check_ok & E). apply bind_ok in E as (u' & H2%event_check_ok & _).
  cbn [negb orb] in H2. apply andb_true_iff in H2 as [H2 _]. apply andb_true_iff in H1 as [[H1 _]%andb_true_iff _]. done.
Qed.
Lemma moved_task e t : moved e = Some t → task_id e = Some t.
Proof.
  unfold moved, transition_of. destruct (is_transition e); [|discriminate]. destruct (task_id e) as [t'|]; [|discriminate]. destruct (entries _); [|discriminate].
  destruct (nonempty t'); [|discriminate].
  destruct (_state (dget_or VNone "from" _)) as [f|]; [|intros H; discriminate H]. destruct (_state (dget_or VNone "to" _)) as [g|]; [|intros H; discriminate H].
  intros H. injection H as ->. done.
Qed.

(** An event that was read back from a log. *)
Definition read (e : FleetEvent) : Prop := ∃ e0, made e0 ∧ e = settled e0.
Lemma tasks_identified es t : Forall read es → t ∈ tasks es → Events._ID t = true.
Proof.
  intros Hr (e & He & Hm%moved_task)%elem_of_tasks. rewrite Forall_forall in Hr. destruct (Hr e He) as (e0 & Hmade & ->). by destruct (identified e0 Hmade t Hm).
Qed.
Lemma read_number e : read e → _number (of_num (sequence e)) = Ok (sequence e).
Proof. intros (e0 & Hm%made_parts & ->). exact (pt_sequence e0 Hm). Qed.
Lemma sequence_again x : _number (of_num x) = Ok x → sequence_of (of_num x) = Ok (Some x).
Proof.
  destruct x as [z|f]; cbn [_number of_num sequence_of]; [destruct (float_of_Z z); [|discriminate]; destruct (0 <=? z)%Z; [done|discriminate]|destruct (_ && _); [done|discriminate]].
Qed.

Lemma states_again es (d : dict) : Forall read es → Forall (λ kv, ∃ t s, kv = (VStr t, VStr s) ∧ t ∈ tasks es ∧ s ∈ STATES) d →
  ∃ l, mapM task_state d = Ok l ∧ d = map (λ kv, (VStr kv.1, VStr kv.2)) l.
Proof.
  intros Hr. induction 1 as [|kv d (t & s & -> & Ht & Hs) Hd (l & Hl & Hd')]; [by exists []|]. exists ((t, s) :: l). cbn [mapM task_state map fst snd].
  rewrite (tasks_identified es t Hr Ht), bool_decide_true by done. cbn [andb mbind res_bind]. rewrite Hl. cbn [mbind res_bind]. by rewrite <- Hd'.
Qed.
Lemma lookup_states l t : (list_to_map l : gmap string string) !! t = (dget t (map (λ kv, (VStr kv.1, VStr kv.2)) l) ≫= as_str).
Proof.
  induction l as [|[k s] l IH]; [done|]. cbn [list_to_map foldr map dget fst snd]. cbn [key_is]. destruct (decide (k = t)) as [-> |].
  - by rewrite lookup_insert_eq, bool_decide_true.
  - rewrite lookup_insert_ne by done. rewrite bool_decide_false by done. exact IH.
Qed.
Lemma reasons_again l : known l → _bounded_tuple (strs l) _MAX_REASONS = Ok (map VStr l) ∧ mapM reason_of (map VStr l) = Ok l.
Proof.
  intros [Hl Hn]. split.
  - unfold _bounded_tuple, strs. cbn [iter_of at_most]. rewrite length_map. assert (length l <= length _REASONS)%nat as Hlen.
    { apply submseteq_length, NoDup_submseteq; [done|]. by apply Forall_forall. }
    change (length _REASONS) with 6%nat in Hlen. rewrite (proj2 (Nat.leb_le _ _)); [done|]. unfold _MAX_REASONS. lia.
  - apply mapM_res_ok, Forall2_fmap_l, Forall_Forall2_diag. eapply Forall_impl; [exact Hl|]. intros r Hr. change (reason_of (VStr r) = Ok r). unfold reason_of. by rewrite bool_decide_true.
Qed.
Lemma gaps_again (gs : list Z) : (length gs <= _MAX_GAPS)%nat → Forall (λ z, (0 <= z)%Z) gs →
  _bounded_tuple (VTuple (map VInt gs)) _MAX_GAPS = Ok (map VInt gs) ∧ mapM count_of (map VInt gs) = Ok gs.
Proof.
  intros Hl Hg. split; [unfold _bounded_tuple; cbn [iter_of at_most]; rewrite length_map; by rewrite (proj2 (Nat.leb_le _ _))|].
  apply mapM_res_ok, Forall2_fmap_l, Forall_Forall2_diag. eapply Forall_impl; [exact Hg|]. intros z Hz. change (count_of (VInt z) = Ok z). unfold count_of. by rewrite (proj2 (Z.leb_le _ _)).
Qed.
Lemma count_again z : (0 <= z)%Z → count_of (VInt z) = Ok z.
Proof. intros H. cbn. by rewrite (proj2 (Z.leb_le _ _)). Qed.

Lemma min_ascending x l : ascending (x :: l) → min_of x l = x.
Proof.
  intros [_ H]%StronglySorted_inv. unfold min_of. induction H as [|y l Hy H IH]; [done|]. cbn [foldl]. by rewrite (num_ltb_antisym _ _ Hy).
Qed.
Lemma max_ascending x l : ascending (x :: l) → Some (max_of x l) = last (x :: l).
Proof.
  unfold max_of. revert x. induction l as [|y l IH]; intros x H; [done|]. apply StronglySorted_inv in H as [Hs H]. apply Forall_cons in H as [H _].
  cbn [foldl]. rewrite H. rewrite last_cons_cons. by apply IH.
Qed.

(** What the report of a sequence of events says. *)
Record tells (es : list FleetEvent) (r : EventDiagnosticsReport) : Prop := {
  te_status : status r = "healthy" ∨ status r = "degraded";
  te_healthy : status r = "healthy" ↔ well_formed es ∧ (∀ t, linked (moves t es)) ∧ contiguous (map sequence es);
  te_counts : event_count r = Z.of_nat (length es) ∧ transition_count r = Z.of_nat (length (List.filter is_transition es));
  te_ends : first_sequence r = sequence <$> head es ∧ last_sequence r = sequence <$> last es;
  te_gaps : ∀ zs, map sequence es = map NInt zs → sequence_gaps r = take _MAX_GAPS (missing zs);
  te_states : ∀ t, (list_to_map (task_states r) : gmap string string) !! t = snd <$> last (moves t es) }.

Lemma ints_of seqs : forallb is_int seqs = true ↔ seqs = map NInt (map int_of seqs).
Proof.
  induction seqs as [|[z|f] l IH]; [done| |]; cbn [forallb is_int map int_of andb]; [rewrite IH; split; [by intros <-|by intros [= <-]]|]. split; [discriminate|intros [=]].
Qed.
Lemma int_of_ints zs : map int_of (map NInt zs) = zs.
Proof. rewrite map_map. apply map_id. Qed.
Lemma take_nil_iff {A} n (l : list A) : (0 < n)%nat → take n l = [] ↔ l = [].
Proof. destruct n; [lia|]. by destruct l. Qed.
Lemma contiguous_iff x seqs : ascending (x :: seqs) → contiguous (x :: seqs) ↔ forallb is_int (x :: seqs) = true ∧ gaps_of (map int_of (x :: seqs)) = [].
Proof.
  intros Ha. rewrite ints_of, gaps_missing, take_nil_iff by (unfold _MAX_GAPS; lia). split.
  - intros [z E]. rewrite E at 1 2. rewrite int_of_ints. split; [done|]. rewrite E, int_of_ints. rewrite E in Ha. apply ascending_ints in Ha. revert Ha. clear E.
    assert (0 < Z.of_nat (length (x :: seqs)))%Z as Hn by (cbn [length]; lia). generalize dependent (Z.of_nat (length (x :: seqs))). intros n Hn Ha.
    rewrite (seqZ_cons z n) in Ha |- * by lia. apply none_missing; [done|]. cbn [length]. rewrite length_seqZ, (seqZ_cons z) by lia. do 2 f_equal. lia.
  - intros [E Hm]. cbn [map] in Hm. rewrite E in Ha. cbn [map] in Ha. change (ascending (map NInt (int_of x :: map int_of seqs))) in Ha. apply ascending_ints in Ha.
    apply (none_missing _ _ Ha) in Hm. exists (int_of x). rewrite E at 1. f_equal. cbn [map]. rewrite Hm at 1. f_equal. cbn [length]. by rewrite length_map.
Qed.
Lemma gaps_bounded x seqs : ascending (x :: seqs) → forallb is_int (x :: seqs) = true → _number (of_num x) = Ok x →
  (length (gaps_of (map int_of (x :: seqs))) <= _MAX_GAPS)%nat ∧ Forall (λ z, (0 <= z)%Z) (gaps_of (map int_of (x :: seqs))).
Proof.
  intros Ha Hi Hn. rewrite gaps_missing. split; [rewrite length_take; lia|]. apply ints_of in Hi. rewrite Hi in Ha. apply ascending_ints in Ha. cbn [map] in Ha |- *.
  destruct x as [z|f]; [|cbn [map] in Hi; congruence]. cbn [of_num _number] in Hn. destruct (float_of_Z z); [|discriminate]. destruct (0 <=? z)%Z eqn:E; [|discriminate]. apply Z.leb_le in E.
  apply Forall_forall. intros v Hv. cbn [int_of] in *. assert (v ∈ missing (z :: map int_of seqs)) as Hv'.
  { rewrite <- (take_drop _MAX_GAPS). apply elem_of_app. by left. }
  apply elem_of_missing in Hv'; [lia|done].
Qed.

(** The reasons of the report: empty for what is in order. *)
Definition final_reasons (found : list string) (integers : bool) (gaps : list Z) : list string :=
  if negb integers then _reason_add found _REASON_NON_INTEGER else match gaps with [] => found | _ => _reason_add found _REASON_GAP end.
Lemma final_nil found integers gaps : final_reasons found integers gaps = [] ↔ found = [] ∧ integers = true ∧ gaps = [].
Proof.
  unfold final_reasons. destruct integers; cbn [negb]; [|split; [by intros ?%reason_add_nil|naive_solver]]. destruct gaps; [naive_solver|].
  split; [by intros ?%reason_add_nil|naive_solver].
Qed.
Lemma final_known found integers gaps : known found → known (final_reasons found integers gaps).
Proof.
  intros H. unfold final_reasons. destruct (negb integers); [|destruct gaps; [done|]]; apply reason_add_known; try done; apply reasons_among; vm_compute; reflexivity.
Qed.

Lemma filter_length {A} (p : A → bool) l : (length (List.filter p l) <= length l)%nat.
Proof. induction l as [|x l IH]; cbn; [done|]. destruct (p x); cbn; lia. Qed.
Lemma read_ends es x rest : Forall read es → map sequence es = x :: rest → ∀ y, y ∈ x :: rest → sequence_of (of_num y) = Ok (Some y).
Proof.
  intros Hr E y Hy. rewrite <- E in Hy. apply list_elem_of_fmap in Hy as (e & -> & He). rewrite Forall_forall in Hr. by apply sequence_again, read_number, Hr.
Qed.
Lemma last_fmap_sequence es : last (map sequence es) = sequence <$> last es.
Proof. apply fmap_last. Qed.

Lemma states_bounded es acc : scanned es acc → length (sc_states acc) = length (tasks es).
Proof. intros Hs. rewrite <- (length_map fst), (sd_keys es acc Hs). by rewrite length_map. Qed.
Lemma diagnose_scanned log es acc x rest : map sequence es = x :: rest → ascending (x :: rest) → Forall read es → (Z.of_nat (length es) <= MAX_QUERY)%Z →
  foldM (scan_event log) (MkScan [] [] 0 0) es = Ok acc → scanned es acc →
  let gaps := if forallb is_int (x :: rest) then gaps_of (map int_of (x :: rest)) else [] in
  let reasons := final_reasons (sc_reasons acc) (forallb is_int (x :: rest)) gaps in
  if (length (tasks es) <=? _MAX_TASK_STATES)%nat
  then ∃ l, sc_states acc = map (λ kv, (VStr kv.1, VStr kv.2)) l ∧
    diagnose_events log es = Ok (MkReport (match reasons with [] => "healthy" | _ => "degraded" end) (Z.of_nat (length es)) (sc_transitions acc) (sc_checkpoints acc)
      (Some (min_of x rest)) (Some (max_of x rest)) gaps l reasons)
  else diagnose_events log es = Err EvValueError.
Proof.
  intros Hseq Hasc Hread Hlen Hfold Hs gaps reasons. unfold diagnose_events. rewrite Hseq, Hfold. cbn [mbind res_bind]. cbv zeta. rewrite (no_anomaly _ Hasc). cbn [foldl]. rewrite andb_true_r.
  fold gaps. fold (final_reasons (sc_reasons acc) (forallb is_int (x :: rest)) gaps). fold reasons.
  assert (known reasons) as [Hk1 Hk2]%reasons_again by (apply final_known, (sd_known es acc Hs)).
  pose proof (read_ends es x rest Hread Hseq) as Hends. pose proof (sd_counts es acc Hs) as [Ht Hc]. pose proof (filter_length is_transition es) as Hfl.
  assert (_bounded_tuple (VTuple (map VInt gaps)) _MAX_GAPS = Ok (map VInt gaps) ∧ mapM count_of (map VInt gaps) = Ok gaps) as [Hg1 Hg2].
  { unfold gaps. destruct (forallb is_int (x :: rest)) eqn:Ei; [|done]. assert (_number (of_num x) = Ok x) as Hx.
    { assert (x ∈ map sequence es) as Hin by (rewrite Hseq; by left). apply list_elem_of_fmap in Hin as (e & -> & He). rewrite Forall_forall in Hread. by apply read_number, Hread. }
    pose proof (gaps_bounded x rest Hasc Ei Hx) as [Hb1 Hb2]. by apply gaps_again. }
  assert (bool_decide ((match reasons with [] => "healthy" | _ => "degraded" end) ∈ _STATUS) = true) as Hst by (destruct reasons; vm_compute; reflexivity).
  assert (∀ m, Some m = last (x :: rest) → sequence_of (of_num m) = Ok (Some m)) as Hmax.
  { intros m Hm. apply Hends. by apply last_Some_elem_of. }
  unfold new_report. rewrite Hst. cbn [mbind res_bind]. rewrite !count_again by lia. cbn [mbind res_bind].
  rewrite (proj2 (Z.leb_le _ _) Hlen), (proj2 (Z.leb_le _ _)), (proj2 (Z.leb_le _ _)) by lia. cbn [andb demand ensure mbind res_bind].
  rewrite (min_ascending _ _ Hasc), (Hends x (list_elem_of_here _ _)). cbn [mbind res_bind]. rewrite (Hmax _ (max_ascending _ _ Hasc)). cbn [mbind res_bind].
  rewrite Hg1. cbn [mbind res_bind]. rewrite Hg2. cbn [mbind res_bind entries at_most]. rewrite (states_bounded es acc Hs).
  destruct (_ <=? _)%nat; [|done]. destruct (states_again es _ Hread (sd_values es acc Hs)) as (l & Hl & El). cbn [mbind res_bind]. rewrite Hl. cbn [mbind res_bind].
  rewrite Hk1. cbn [mbind res_bind]. rewrite Hk2. by exists l.
Qed.
Lemma scanned_tells es acc x rest l : map sequence es = x :: rest → ascending (x :: rest) → scanned es acc → sc_states acc = map (λ kv, (VStr kv.1, VStr kv.2)) l →
  let gaps := if forallb is_int (x :: rest) then gaps_of (map int_of (x :: rest)) else [] in
  let reasons := final_reasons (sc_reasons acc) (forallb is_int (x :: rest)) gaps in
  tells es (MkReport (match reasons with [] => "healthy" | _ => "degraded" end) (Z.of_nat (length es)) (sc_transitions acc) (sc_checkpoints acc)
      (Some (min_of x rest)) (Some (max_of x rest)) gaps l reasons).
Proof.
  intros Hseq Hasc Hs Hl gaps reasons. pose proof (final_nil (sc_reasons acc) (forallb is_int (x :: rest)) gaps) as Hnil. fold reasons in Hnil.
  constructor; cbn [status event_count transition_count first_sequence last_sequence sequence_gaps task_states].
  - destruct reasons; [by left|by right].
  - assert ((match reasons with [] => "healthy" | _ => "degraded" end) = "healthy" ↔ reasons = []) as -> by (destruct reasons; split; done || discriminate).
    rewrite Hnil, (sd_reasons es acc Hs), Hseq, (contiguous_iff x rest Hasc). unfold gaps. destruct (forallb is_int (x :: rest)); naive_solver.
  - split; [done|]. apply (sd_counts es acc Hs).
  - rewrite (min_ascending _ _ Hasc), (max_ascending _ _ Hasc), <- Hseq, last_fmap_sequence. destruct es as [|e es]; [discriminate|]. injection Hseq as <- _. done.
  - intros zs Hzs. unfold gaps. rewrite <- Hseq, Hzs, int_of_ints. assert (forallb is_int (map NInt zs) = true) as -> by (clear; by induction zs). apply gaps_missing.
  - intros t. rewrite lookup_states, <- Hl, (sd_state es acc Hs). by destruct (last _) as [[f g]|].
Qed.

(** ** Properties *)

(** Diagnosing the log of a run that appends made: as long as at most 256
    tasks moved there is a report, and it is healthy exactly when every
    transition is well formed, starts where the task's last one ended, and the
    sequences are consecutive integers; its counts, ends, first 32 gaps and the
    last state of every task are those of the replayed events.  With more tasks
    the diagnosis raises. *)
Theorem event_diagnosis_exact run log f now limit es : built run f → replay now f limit = Ok es → es ≠ [] → Forall (λ e, same_owner log e = true) es →
  if (length (tasks es) <=? _MAX_TASK_STATES)%nat
  then ∃ r, diagnose_event_log log now f VNone limit = Ok r ∧ tells es r
  else diagnose_event_log log now f VNone limit = Err EvValueError.
Proof.
  intros Hb Hrep Hne Ho. destruct (replay_ordered _ _ _ _ _ Hb Hrep) as (Hf & Hlen & _ & Hsort). unfold diagnose_event_log. cbn [check_active mbind res_bind]. rewrite Hrep. cbn [mbind res_bind].
  assert (Forall read es) as Hread by (eapply Forall_impl; [exact Hf|]; by intros e [? _]).
  destruct (map sequence es) as [|x rest] eqn:Hseq; [by destruct es|].
  assert (ascending (x :: rest)) as Hasc.
  { rewrite <- Hseq. clear -Hsort. induction Hsort as [|e es Hs IH He]; [constructor|]. cbn [map]. constructor; [done|]. by apply Forall_fmap. }
  destruct (scan_all log es Ho) as (acc & Hfold & Hs). pose proof (diagnose_scanned log es acc x rest Hseq Hasc Hread Hlen Hfold Hs) as H. cbv zeta in H.
  destruct (_ <=? _)%nat; [|done]. destruct H as (l & Hl & H). eexists. split; [exact H|]. exact (scanned_tells es acc x rest l Hseq Hasc Hs Hl).
Qed.
Lemma demo_owned : Forall (λ e, same_owner demo_log e = true) [settled demo_event].
Proof. constructor; [vm_compute; reflexivity|constructor]. Qed.
Lemma event_diagnosis_exact_witness :
  if (length (tasks [settled demo_event]) <=? _MAX_TASK_STATES)%nat
  then ∃ r, diagnose_event_log demo_log at_noon demo_file VNone (VInt 10) = Ok r ∧ tells [settled demo_event] r
  else diagnose_event_log demo_log at_noon demo_file VNone (VInt 10) = Err EvValueError.
Proof. exact (event_diagnosis_exact "run-1" demo_log demo_file at_noon (VInt 10) [settled demo_event] demo_built demo_replay (λ H, ltac:(discriminate H)) demo_owned). Defined.
