(* ===== verification/Reconciliation.v ===== *)
(** * Reconciliation of a run with its event log (scripts/pd_fleet/run_event_reconciliation.py)

    The report with the checks of its constructor, and the comparison of the
    snapshot that the run store loads with the events that the log replays.
    The file check of the log is whether the file exists. *)

From S2P Require Import Prelude PyStr PyNum PyVal Regex IsoTime RunStore RunStoreFacts RunStoreSpec Events.

Open Scope string_scope.

Inductive rc_error : Type := RcStore (e : store_error) | RcEvent (e : event_error) | RcValueError | RcOverflowError.
#[export] Instance rc_error_eq_dec : EqDecision rc_error.
Proof. solve_decision. Defined.
Notation rres := (res rc_error).
Definition claim (b : bool) : rres unit := ensure b RcValueError.

Definition _STATUS : list string := ["consistent"; "degraded"; "unknown"].
Definition _REASONS : list string :=
  ["event_sequence_mismatch"; "event_count_mismatch"; "missing_store_snapshot"; "missing_event_log"; "run_id_mismatch"; "owner_context_mismatch"].
Definition _ID (s : string) : bool := ident is_alnum (λ c, is_alnum c || one_of "_.-" c) (Some 127%nat) s.
Definition _MAX_REASONS : nat := length _REASONS.

(** ** The report *)

Record RunEventReconciliationReport : Type := MkReport {
  status : string; report_run_id : string; snapshot_status : option string; snapshot_generation : option Z;
  store_event_sequence : option Z; event_log_count : Z; event_log_last_sequence : option pynum; reasons : list string }.

Definition nonnegative_int (v : pyval) : rres (option Z) :=
  match v with VNone => Ok None | VInt z => if (0 <=? z)%Z then Ok (Some z) else Err RcValueError | _ => Err RcValueError end.
Definition last_of (v : pyval) : rres (option pynum) :=
  match v with
  | VNone => Ok None
  | VInt z => match float_of_Z z with None => Err RcOverflowError | Some _ => if (0 <=? z)%Z then Ok (Some (NInt z)) else Err RcValueError end
  | VFloat f => if is_finite f && negb (num_ltb (NFloat f) (NInt 0)) then Ok (Some (NFloat f)) else Err RcValueError
  | _ => Err RcValueError
  end.
Definition reason_of (v : pyval) : rres string :=
  match v with VStr s => if bool_decide (s ∈ _REASONS) then Ok s else Err RcValueError | _ => Err RcValueError end.

Definition new_report (status run_id snapshot_status snapshot_generation store_event_sequence event_log_count event_log_last_sequence : pyval)
    (reasons : list pyval) : rres RunEventReconciliationReport :=
  status ← match status with VStr s => if bool_decide (s ∈ _STATUS) then Ok s else Err RcValueError | _ => Err RcValueError end;
  run_id ← match run_id with VStr s => if _ID s then Ok s else Err RcValueError | _ => Err RcValueError end;
  snapshot ← match snapshot_status with
             | VNone => Ok None
             | VStr s => if (String.length s <=? 256)%nat then Ok (Some s) else Err RcValueError
             | _ => Err RcValueError
             end;
  generation ← nonnegative_int snapshot_generation;
  sequence ← nonnegative_int store_event_sequence;
  count ← match event_log_count with VInt z => if (0 <=? z)%Z && (z <=? MAX_QUERY)%Z then Ok z else Err RcValueError | _ => Err RcValueError end;
  last ← last_of event_log_last_sequence;
  _ ← claim (length reasons <=? _MAX_REASONS)%nat;
  reasons ← mapM reason_of reasons;
  _ ← claim (bool_decide (NoDup reasons));
  _ ← claim (negb (bool_decide (status = "consistent")) || bool_decide (reasons = []));
  _ ← claim (negb (bool_decide (status = "unknown")) || bool_decide (reasons = []));
  Ok (MkReport status run_id snapshot generation sequence count last reasons).

(** ** The comparison *)

Definition check_run_id (v : pyval) : rres string := match v with VStr s => if _ID s then Ok s else Err RcValueError | _ => Err RcValueError end.
Definition check_limit (v : pyval) : rres unit := match v with VInt n => claim ((1 <=? n)%Z && (n <=? MAX_QUERY)%Z) | _ => Err RcValueError end.
Definition _add (reasons : list string) (reason : string) : list string := if bool_decide (reason ∈ reasons) then reasons else (reasons ++ [reason])%list.
Definition add_if (b : bool) (reason : string) (reasons : list string) : list string := if b then _add reasons reason else reasons.
Definition _event_log_file_exists (f : log_file) : bool := match f with Some _ => true | None => false end.

Definition identity_mismatch (log : EventLog) (rid : string) (es : list FleetEvent) : bool :=
  negb (bool_decide (log.(log_run) = rid)) || existsb (λ e, negb (bool_decide (e.(Events.run_id) = rid))) es.
Definition owner_mismatch (log : EventLog) (es : list FleetEvent) : bool :=
  match log.(log_epoch) with
  | Some x => existsb (λ e, match e.(owner_epoch) with Some y => negb (num_eqb y x) | None => true end) es
  | None => false
  end.
(** [a != b] between an integer of the snapshot and a sequence of the log. *)
Definition differs (v : pyval) (x : option pynum) : bool := negb (py_eqb v (of_opt of_num x)).
Definition size_of (v : pyval) : rres Z :=
  match v with VList l | VTuple l => Ok (Z.of_nat (length l)) | VDict d | VProxy d => Ok (Z.of_nat (length d)) | VStr s => Ok (Z.of_nat (String.length s)) | _ => Err (RcStore PyTypeError) end.
Definition ordered (reasons : list string) : list string := List.filter (λ r, bool_decide (r ∈ reasons)) _REASONS.
Definition last_sequence (es : list FleetEvent) (exists_ : bool) : option pynum :=
  match last es with Some e => Some e.(sequence) | None => if exists_ then Some (NInt 0) else None end.

Section reconcile.
Context `{PlanIdentity}.

Definition load_or_none (rid : string) (d : disk) : rres (option dict) :=
  match load rid d with
  | Ok s => Ok (Some s)
  | Err RunNotFoundError => Ok None
  | Err e => Err (RcStore e)
  end.
Definition compare (log : EventLog) (rid : string) (snapshot : option dict) (es : list FleetEvent) (log_exists : bool) : rres RunEventReconciliationReport :=
  let missing := match snapshot with Some _ => false | None => true end in
  let mismatch := identity_mismatch log rid es in
  if missing && negb log_exists && negb mismatch then new_report (VStr "unknown") (VStr rid) VNone VNone VNone (VInt 0) VNone []
  else
    let get k := match snapshot with Some s => dget_or VNone k s | None => VNone end in
    let reasons := add_if (negb log_exists) "missing_event_log" (add_if missing "missing_store_snapshot" []) in
    let last := last_sequence es log_exists in
    let count := Z.of_nat (length es) in
    let reasons := add_if (match snapshot with Some s => negb (py_eqb (dget_or VNone "run_id" s) (VStr rid)) | None => false end) "run_id_mismatch" reasons in
    let reasons := add_if mismatch "run_id_mismatch" reasons in
    let reasons := add_if (owner_mismatch log es) "owner_context_mismatch" reasons in
    reasons ← match snapshot with
              | Some s =>
                  if log_exists then
                    n ← size_of (dget_or (VList []) "events" s);
                    Ok (add_if (negb (n =? count)%Z) "event_count_mismatch" (add_if (differs (get "event_sequence") last) "event_sequence_mismatch" reasons))
                  else Ok reasons
              | None => Ok reasons
              end;
    let status := match reasons with [] => "consistent" | _ => "degraded" end in
    new_report (VStr status) (VStr rid) (get "status") (get "generation") (get "event_sequence") (VInt count) (of_opt of_num last) (map VStr (ordered reasons)).

Definition reconcile_run_events (d : disk) (log : EventLog) (now : clock_reading) (f : log_file) (run_id limit : pyval) : rres RunEventReconciliationReport :=
  rid ← check_run_id run_id;
  _ ← check_limit limit;
  snapshot ← load_or_none rid d;
  es ← map_err RcEvent (replay now f limit);
  compare log rid snapshot es (_event_log_file_exists f).

(** Without a store. *)
Definition reconcile_missing_store (log : EventLog) (now : clock_reading) (f : log_file) (run_id limit : pyval) : rres RunEventReconciliationReport :=
  rid ← check_run_id run_id;
  _ ← check_limit limit;
  es ← map_err RcEvent (replay now f limit);
  let mismatch := identity_mismatch log rid es in
  if negb (_event_log_file_exists f) && negb mismatch then new_report (VStr "unknown") (VStr rid) VNone VNone VNone (VInt 0) VNone []
  else
    let reasons := add_if (owner_mismatch log es) "owner_context_mismatch" (add_if mismatch "run_id_mismatch" ["missing_store_snapshot"]) in
    new_report (VStr "degraded") (VStr rid) VNone VNone VNone (VInt (Z.of_nat (length es)))
      (match last es with Some e => of_num e.(sequence) | None => VInt 0 end) (map VStr (ordered reasons)).
End reconcile.

(** ** Lemmas *)

(** What a loaded snapshot says. *)
Record snapshot_facts (rid : string) (s : dict) : Prop := {
  sf_run : dget_or VNone "run_id" s = VStr rid;
  sf_status : ∃ st, dget_or VNone "status" s = VStr st ∧ st ∈ _STATUSES;
  sf_generation : ∃ n, dget_or VNone "generation" s = VInt n ∧ (0 <= n)%Z;
  sf_sequence : dget_or VNone "event_sequence" s = VInt (int_fld "event_sequence" s) ∧ (0 <= int_fld "event_sequence" s)%Z;
  sf_events : size_of (dget_or (VList []) "events" s) = Ok (int_fld "event_sequence" s) }.

Lemma nat_int_val v : nat_int v = true → ∃ n, v = VInt n ∧ (0 <= n)%Z.
Proof. destruct v; try discriminate. cbn. intros H%Z.leb_le. by eexists. Qed.
Lemma str_is_val p v : str_is p v = true → ∃ s, v = VStr s ∧ p s = true.
Proof. destruct v; try discriminate. intros H. by eexists. Qed.
Lemma pre_valid_facts `{PlanIdentity} rid s : pre_valid rid s → snapshot_facts rid s.
Proof.
  intros [Hkeys _ Hh Hs _ Ht _ Hc]. unfold header_ok in Hh. cbv zeta in Hh. apply andb_true_iff in Hh as [Hh _]. apply andb_true_iff in Hh as [Hh He%nat_int_val].
  apply andb_true_iff in Hh as [Hh Hg%nat_int_val]. apply andb_true_iff in Hh as [_ Hr%str_is_val].
  destruct Hr as (r & Hr & ->%bool_decide_eq_true). destruct He as (n & He & Hn). assert (int_fld "event_sequence" s = n) as En.
  { unfold int_fld. unfold dget_or in He. destruct (dget "event_sequence" s); [|discriminate]. cbn in He. by subst. }
  constructor; [done| |done|by rewrite En|].
  - unfold in_set in Hs. destruct (hashable _); [|discriminate]. injection Hs as Hs. destruct (dget_or VNone "status" s) as [| | | |t| | | | |]; try discriminate.
    exists t. split; [done|]. by apply bool_decide_eq_true in Hs.
  - pose proof (c_sequence s Hc) as Hq. pose proof (c_events s Hc) as Hev. unfold types_ok in Ht. apply andb_true_iff in Ht as [_ Ht]. rewrite forallb_true_iff in Ht.
    assert (is_dict_or_list (dget_or VNone "events" s) = true) as Hd by (apply (Ht "events"); apply (bool_decide_unpack _); vm_compute; exact I).
    unfold dget_or in *. destruct (dget "events" s) as [v|]; [|discriminate]. cbn [default] in *. unfold id in *.
    apply (f_equal length) in Hq. rewrite length_map, length_seqZ in Hq. destruct v as [| | | | |l| |kvs| |]; try discriminate; cbn [iter size_of] in *.
    + unfold id. cbn [size_of]. f_equal. lia.
    + unfold id. cbn [size_of]. rewrite length_map in Hq. f_equal. lia.
Qed.
Lemma loaded_facts `{PlanIdentity} rid d s : load rid d = Ok s → snapshot_facts rid s.
Proof.
  assert (∀ sl x, read_slot rid sl = Ok (Some x) → snapshot_facts rid x) as Hslot.
  { intros sl x. destruct sl as [| | |v]; try discriminate. destruct v as [| | | | | | |kvs| |]; try discriminate. cbn [read_slot].
    intros ([] & Hv & Hx)%bind_ok; [|discriminate]. injection Hx as <-. apply validate_spec in Hv as [Hv _]. by apply pre_valid_facts. }
  unfold load. intros (found & Hf & Hx)%bind_ok. unfold _valid_snapshot in Hf. apply bind_ok in Hf as (u & _ & Hf). apply bind_ok in Hf as (p & Hp & Hf).
  apply bind_ok in Hf as (b & Hb & <-%ok_inj). destruct p as [x|], b as [y|]; cbn [newest] in Hx; [destruct (_ <? _)%Z| | |];
    try (apply ok_inj in Hx as <-; eapply Hslot; eassumption). by destruct (is_symlink (primary d) || is_symlink (backup d)), (is_absent (primary d) && is_absent (backup d)).
Qed.

Lemma ordered_in reasons r : r ∈ ordered reasons ↔ r ∈ _REASONS ∧ r ∈ reasons.
Proof. unfold ordered. rewrite list_elem_of_In, filter_In, <- list_elem_of_In. by rewrite bool_decide_eq_true. Qed.
Lemma add_if_in b r l x : x ∈ add_if b r l ↔ x ∈ l ∨ (b = true ∧ x = r).
Proof. unfold add_if, _add. destruct b; [|naive_solver]. case_bool_decide; [naive_solver|]. rewrite elem_of_app, list_elem_of_singleton. naive_solver. Qed.
Lemma add_if_sub b r l : r ∈ _REASONS → l ⊆ _REASONS → add_if b r l ⊆ _REASONS.
Proof. intros Hr Hl x. rewrite add_if_in. intros [? | [_ ->]]; [by apply Hl|done]. Qed.
Lemma known_reason r : bool_decide (r ∈ _REASONS) = true → r ∈ _REASONS.
Proof. apply bool_decide_eq_true_1. Qed.
Lemma ordered_nil reasons : reasons ⊆ _REASONS → ordered reasons = [] ↔ reasons = [].
Proof.
  intros Hs. split; [|by intros ->; vm_compute]. intros H. destruct reasons as [|r l]; [done|]. assert (r ∈ ordered (r :: l)) as Hr.
  { apply ordered_in. split; [apply Hs; by left|by left]. } rewrite H in Hr. by apply elem_of_nil in Hr.
Qed.

(** The constructor accepts what the comparison gives it. *)
Lemma report_ok st rid sst gen seq count last rs v1 v2 v3 v4 : st ∈ ["consistent"; "degraded"] → (st = "consistent" → rs = []) → rs ⊆ _REASONS → _ID rid = true →
  (match v1 with VNone => sst = None | VStr s => sst = Some s ∧ (String.length s <= 256)%nat | _ => False end) → nonnegative_int v2 = Ok gen → nonnegative_int v3 = Ok seq →
  (0 <= count <= MAX_QUERY)%Z → last_of v4 = Ok last →
  new_report (VStr st) (VStr rid) v1 v2 v3 (VInt count) v4 (map VStr (ordered rs)) = Ok (MkReport st rid sst gen seq count last (ordered rs)).
Proof.
  intros Hst Hc Hrs Hid H1 H2 H3 Hcount H4. unfold new_report. assert (st ∈ _STATUS) as Hin by (unfold _STATUS; rewrite !elem_of_cons in Hst |- *; destruct Hst as [-> | [-> | []%elem_of_nil]]; [by left|by right; left]).
  rewrite bool_decide_true by exact Hin. cbn [mbind res_bind]. rewrite Hid. cbn [mbind res_bind].
  assert ((match v1 with VNone => Ok None | VStr s => if (String.length s <=? 256)%nat then Ok (Some s) else Err RcValueError | _ => Err RcValueError end) = (Ok sst : rres _)) as ->.
  { destruct v1; try done; [by rewrite H1|]. destruct H1 as [-> H1]. by rewrite (proj2 (Nat.leb_le _ _) H1). }
  cbn [mbind res_bind]. rewrite H2. cbn [mbind res_bind]. rewrite H3. cbn [mbind res_bind]. rewrite (proj2 (Z.leb_le _ _)), (proj2 (Z.leb_le _ _)) by lia. cbn [andb mbind res_bind].
  rewrite H4. cbn [mbind res_bind]. rewrite length_map. assert (length (ordered rs) <=? _MAX_REASONS = true)%nat as ->.
  { apply Nat.leb_le. unfold ordered, _MAX_REASONS. apply filter_length_le. }
  cbn [claim ensure mbind res_bind]. assert (mapM reason_of (map VStr (ordered rs)) = Ok (ordered rs)) as ->.
  { apply mapM_res_ok, Forall2_fmap_l, Forall_Forall2_diag, Forall_forall. intros r [Hr _]%ordered_in. change (reason_of (VStr r) = Ok r). unfold reason_of. by rewrite bool_decide_true. }
  cbn [mbind res_bind]. rewrite (bool_decide_true (NoDup (ordered rs))).
  2: { unfold ordered. apply NoDup_ListNoDup, List.NoDup_filter, NoDup_ListNoDup. apply (bool_decide_unpack _). vm_compute. exact I. }
  cbn [claim ensure mbind res_bind]. assert (negb (bool_decide (st = "consistent")) || bool_decide (ordered rs = []) = true) as ->.
  { case_bool_decide as E; [|done]. cbn [negb orb]. apply bool_decide_eq_true. rewrite (Hc E). by vm_compute. }
  cbn [claim ensure mbind res_bind]. rewrite bool_decide_false by (rewrite !elem_of_cons, elem_of_nil in Hst; destruct Hst as [-> | [-> | []]]; done). done.
Qed.

(** A snapshot and the events of a log that agree. *)
Record agrees (log : EventLog) (rid : string) (s : dict) (es : list FleetEvent) : Prop := {
  ag_run : log_run log = rid ∧ Forall (λ e, Events.run_id e = rid) es;
  ag_owner : ∀ x, log_epoch log = Some x → Forall (λ e, ∃ y, owner_epoch e = Some y ∧ num_eqb y x = true) es;
  ag_count : Z.of_nat (length es) = int_fld "event_sequence" s;
  ag_last : num_eqb (NInt (int_fld "event_sequence" s)) (match last es with Some e => sequence e | None => NInt 0 end) = true }.

Lemma identity_false log rid es : identity_mismatch log rid es = false ↔ log_run log = rid ∧ Forall (λ e, Events.run_id e = rid) es.
Proof.
  unfold identity_mismatch. rewrite orb_false_iff, negb_false_iff, bool_decide_eq_true, existsb_false_iff, Forall_forall. by setoid_rewrite negb_false_iff; setoid_rewrite bool_decide_eq_true.
Qed.
Lemma owner_false log es : owner_mismatch log es = false ↔ ∀ x, log_epoch log = Some x → Forall (λ e, ∃ y, owner_epoch e = Some y ∧ num_eqb y x = true) es.
Proof.
  unfold owner_mismatch. destruct (log_epoch log) as [x|]; [|naive_solver]. rewrite existsb_false_iff. split.
  - intros H ? [= <-]. apply Forall_forall. intros e He. specialize (H e He). destruct (owner_epoch e) as [y|]; [|discriminate]. apply negb_false_iff in H. by exists y.
  - intros H e He. specialize (H x eq_refl). rewrite Forall_forall in H. destruct (H e He) as (y & -> & ->). done.
Qed.
Lemma differs_int n x : differs (VInt n) (Some x) = negb (num_eqb (NInt n) x).
Proof. unfold differs. by destruct x. Qed.
Lemma last_of_number x : _number (of_num x) = Ok x → last_of (of_num x) = Ok (Some x).
Proof.
  destruct x as [z|f]; cbn [_number of_num last_of]; [destruct (float_of_Z z); [|discriminate]; destruct (0 <=? z)%Z; [done|discriminate]|destruct (_ && _); [done|discriminate]].
Qed.
Lemma last_sequence_ok es (b : bool) : Forall (λ e, ∃ e0, made e0 ∧ e = settled e0) es → last_of (of_opt of_num (last_sequence es b)) = Ok (last_sequence es b).
Proof.
  intros Hr. unfold last_sequence. destruct (last es) as [e|] eqn:El.
  - apply last_Some_elem_of in El. rewrite Forall_forall in Hr. destruct (Hr e El) as (e0 & Hm%made_parts & ->). apply last_of_number. exact (pt_sequence e0 Hm).
  - by destruct b.
Qed.
Lemma status_length st : st ∈ _STATUSES → (String.length st <= 256)%nat.
Proof.
  intros H. assert (forallb (λ s, (String.length s <=? 256)%nat) _STATUSES = true) as Hf by (vm_compute; reflexivity). rewrite forallb_true_iff in Hf. by apply Nat.leb_le, Hf.
Qed.
Lemma add_if_nil b r l : add_if b r l = [] ↔ b = false ∧ l = [].
Proof. unfold add_if, _add. destruct b; [|naive_solver]. split; [|naive_solver]. case_bool_decide as E; [intros ->; by apply elem_of_nil in E|by destruct l]. Qed.

(** The report of a comparison. *)
Definition verdict (log : EventLog) (rid : string) (snap : option dict) (es : list FleetEvent) (exists_ : bool) (r : RunEventReconciliationReport) : Prop :=
  (status r = "unknown" ↔ snap = None ∧ exists_ = false ∧ log_run log = rid) ∧
  (status r = "consistent" ↔ ∃ s, snap = Some s ∧ exists_ = true ∧ agrees log rid s es) ∧
  event_log_count r = Z.of_nat (length es) ∧ store_event_sequence r = int_fld "event_sequence" <$> snap.
Lemma known6 : "event_sequence_mismatch" ∈ _REASONS ∧ "event_count_mismatch" ∈ _REASONS ∧ "missing_store_snapshot" ∈ _REASONS ∧ "missing_event_log" ∈ _REASONS ∧
  "run_id_mismatch" ∈ _REASONS ∧ "owner_context_mismatch" ∈ _REASONS.
Proof. repeat split; apply known_reason; vm_compute; reflexivity. Qed.

Definition comparison_reasons (log : EventLog) (rid : string) (snap : option dict) (es : list FleetEvent) (log_exists : bool) : list string :=
  let base := add_if (owner_mismatch log es) "owner_context_mismatch" (add_if (identity_mismatch log rid es) "run_id_mismatch" (add_if (negb log_exists) "missing_event_log"
    (add_if (match snap with Some _ => false | None => true end) "missing_store_snapshot" []))) in
  match snap with
  | Some s => if log_exists then
      add_if (negb (int_fld "event_sequence" s =? Z.of_nat (length es))%Z) "event_count_mismatch"
        (add_if (negb (num_eqb (NInt (int_fld "event_sequence" s)) (match last es with Some e => sequence e | None => NInt 0 end))) "event_sequence_mismatch" base)
      else base
  | None => base
  end.
Lemma comparison_known log rid snap es b : comparison_reasons log rid snap es b ⊆ _REASONS.
Proof.
  destruct known6 as (K1 & K2 & K3 & K4 & K5 & K6). unfold comparison_reasons. cbv zeta.
  assert ([] ⊆ _REASONS) as Hnil by (by intros x ?%elem_of_nil).
  destruct snap as [s|]; [destruct b|]; repeat (apply add_if_sub; [assumption|]); exact Hnil.
Qed.
Lemma comparison_nil log rid snap es (b : bool) : comparison_reasons log rid snap es b = [] ↔ ∃ s, snap = Some s ∧ b = true ∧ agrees log rid s es.
Proof.
  unfold comparison_reasons. cbv zeta. destruct snap as [s|]; [destruct b|]; rewrite ?add_if_nil; cbn [negb].
  - rewrite !negb_false_iff, Z.eqb_eq, identity_false, owner_false. split.
    + intros (H1 & H2 & H3 & H4 & _). exists s. do 2 (split; [done|]). constructor; [exact H4|exact H3|lia|exact H2].
    + intros (s' & [= <-] & _ & [H1 H2 H3 H4]). split; [lia|]. split; [exact H4|]. split; [exact H2|]. by split.
  - naive_solver.
  - naive_solver.
Qed.

Lemma compare_reasons log rid snap es (b : bool) : (∀ s, snap = Some s → snapshot_facts rid s) →
  (match snap with None => true | _ => false end) && negb b && negb (identity_mismatch log rid es) = false →
  let last := last_sequence es b in let count := Z.of_nat (length es) in
  let get k := match snap with Some s => dget_or VNone k s | None => VNone end in
  let rs := comparison_reasons log rid snap es b in
  compare log rid snap es b = new_report (VStr (match rs with [] => "consistent" | _ => "degraded" end)) (VStr rid) (get "status") (get "generation") (get "event_sequence")
    (VInt count) (of_opt of_num last) (map VStr (ordered rs)).
Proof.
  intros Hf Hu. cbv zeta. unfold compare, comparison_reasons. cbv zeta. destruct snap as [s|].
  - destruct (Hf s eq_refl) as [Hr _ _ [Hseq _] Hev]. cbn [andb]. rewrite Hr. cbn [py_eqb]. rewrite bool_decide_true by done. cbn [negb]. unfold add_if at 3.
    destruct b; [|done]. rewrite Hev. cbn [mbind res_bind]. rewrite Hseq. unfold last_sequence. cbn [negb].
    assert ((match last es with Some e => Some (sequence e) | None => Some (NInt 0) end) = Some (match last es with Some e => sequence e | None => NInt 0 end)) as -> by (by destruct (last es)).
    by rewrite differs_int.
  - rewrite Hu. cbn [mbind res_bind]. done.
Qed.
Lemma compare_ok run log rid snap es (b : bool) f now limit : built run f → replay now f limit = Ok es → b = _event_log_file_exists f → _ID rid = true →
  (∀ s, snap = Some s → snapshot_facts rid s) → ∃ r, compare log rid snap es b = Ok r ∧ verdict log rid snap es b r.
Proof.
  intros Hb Hrep Hbf Hid Hf. destruct (replay_ordered _ _ _ _ _ Hb Hrep) as (Hread & Hlen & _). assert (b = false → es = []) as Hes.
  { intros ->. destruct f as [ls|]; [discriminate|]. unfold replay in Hrep. cbn [_records] in Hrep. apply bind_ok in Hrep as (n & _ & Hx). cbn [mbind res_bind] in Hx.
    apply ok_inj in Hx as <-. by destruct (Z.to_nat n). }
  destruct ((match snap with None => true | _ => false end) && negb b && negb (identity_mismatch log rid es)) eqn:Hu.
  - apply andb_true_iff in Hu as [[Hs Hnb%negb_true_iff]%andb_true_iff Hmm%negb_true_iff]. destruct snap as [s|]; [discriminate|]. subst b. rewrite (Hes Hnb) in *.
    eexists. split; [unfold compare; rewrite Hnb, Hmm; cbn [andb negb]; unfold new_report; rewrite Hid; reflexivity|].
    apply identity_false in Hmm as [Hrun _]. unfold verdict. cbn [status event_log_count store_event_sequence]. rewrite Hnb. repeat split; try done; try discriminate.
    intros (s & ? & _). done.
  - pose proof (compare_reasons log rid snap es b Hf Hu) as Hc. cbv zeta in Hc. pose proof (comparison_nil log rid snap es b) as Hnil. pose proof (comparison_known log rid snap es b) as Hk.
    set (rs := comparison_reasons log rid snap es b) in *. clearbody rs.
    assert (Forall (λ e, ∃ e0, made e0 ∧ e = settled e0) es) as Hread' by (eapply Forall_impl; [exact Hread|]; by intros e [? _]).
    pose proof (last_sequence_ok es b Hread') as Hlast. assert (∃ sst gen seq, compare log rid snap es b =
      Ok (MkReport (match rs with [] => "consistent" | _ => "degraded" end) rid sst gen seq (Z.of_nat (length es)) (last_sequence es b) (ordered rs)) ∧ seq = int_fld "event_sequence" <$> snap)
      as (sst & gen & seq & Hok & Hseq).
    { rewrite Hc. destruct snap as [s|].
      - destruct (Hf s eq_refl) as [_ (st & Est & Hst) (g & Eg & Hg) [Es Hs0] _]. exists (Some st), (Some g), (Some (int_fld "event_sequence" s)). split; [|done].
        apply report_ok; try done; [destruct rs; [by left|by right; left]|by destruct rs|rewrite Est; split; [done|by apply status_length]|rewrite Eg; cbn; by rewrite (proj2 (Z.leb_le _ _))| |lia].
        rewrite Es. cbn. by rewrite (proj2 (Z.leb_le _ _)).
      - exists None, None, None. split; [|done]. apply report_ok; try done; [destruct rs; [by left|by right; left]|by destruct rs|lia]. }
    eexists. split; [exact Hok|]. unfold verdict. cbn [status event_log_count store_event_sequence]. split; [|split; [rewrite <- Hnil; by destruct rs|by split]].
    split; [by destruct rs|]. intros (-> & -> & Hrun). rewrite (Hes eq_refl) in Hu. cbn [andb negb] in Hu. apply negb_false_iff in Hu.
    assert (identity_mismatch log rid [] = false) as Hx by (apply identity_false; by split). congruence.
Qed.

(** *** The numbering of agreeing events *)

Lemma above_last a zs : StronglySorted Z.lt zs → Forall (λ z, (a < z)%Z) zs → ∀ z, last zs = Some z → (a + Z.of_nat (length zs) <= z)%Z.
Proof.
  intros Hs. revert a. induction Hs as [|x zs Hs IH Hx]; intros a Ha z Hz; [discriminate|]. apply Forall_cons in Ha as [Hax _].
  destruct zs as [|y zs]; [injection Hz as <-; cbn; lia|]. rewrite last_cons_cons in Hz. specialize (IH x Hx z Hz). cbn [length] in *. lia.
Qed.
Lemma dense a zs : StronglySorted Z.lt zs → Forall (λ z, (a < z)%Z) zs → (∀ z, last zs = Some z → z = a + Z.of_nat (length zs))%Z → zs = seqZ (a + 1) (Z.of_nat (length zs)).
Proof.
  intros Hs. revert a. induction Hs as [|x zs Hs IH Hx]; intros a Ha Hl; [done|]. apply Forall_cons in Ha as [Hax Ha].
  assert (x = a + 1)%Z as ->.
  { destruct zs as [|y zs]; [specialize (Hl x eq_refl); cbn in Hl; lia|]. destruct (last (y :: zs)) as [z|] eqn:E; [|by apply last_None in E].
    pose proof (above_last x (y :: zs) Hs Hx z E) as Hz. specialize (Hl z). rewrite last_cons_cons in Hl. specialize (Hl E). cbn [length] in *. lia. }
  rewrite seqZ_cons by (cbn [length]; lia). f_equal. replace (Z.pred (Z.of_nat (length ((a + 1)%Z :: zs)))) with (Z.of_nat (length zs)) by (cbn [length]; lia).
  replace (Z.succ (a + 1)) with (a + 1 + 1)%Z by lia. apply IH; [done|]. intros z Hz. destruct zs as [|y zs]; [discriminate|].
  specialize (Hl z). rewrite last_cons_cons in Hl. specialize (Hl Hz). cbn [length] in *. lia.
Qed.
Lemma sorted_ints es zs : map sequence es = map NInt zs → StronglySorted (λ a b, num_ltb (sequence a) (sequence b) = true) es → StronglySorted Z.lt zs.
Proof.
  intros E Hs. revert zs E. induction Hs as [|e es Hs IH He]; intros [|z zs] E; try discriminate; [constructor|]. cbn [map] in E. injection E as Hz E. constructor; [by apply IH|].
  clear IH Hs. revert zs E. induction He as [|e' es Hlt He IH]; intros [|y zs] E; try discriminate; [constructor|]. cbn [map] in E. injection E as Hy E. constructor; [|by apply IH].
  rewrite Hz, Hy, num_ltb_int in Hlt. by apply Z.ltb_lt.
Qed.
Lemma agree_numbered log rid s es zs : agrees log rid s es → StronglySorted (λ a b, num_ltb (sequence a) (sequence b) = true) es →
  map sequence es = map NInt zs → Forall (λ z, (0 < z)%Z) zs → zs = seqZ 1 (int_fld "event_sequence" s).
Proof.
  intros [_ _ Hc Hl] Hs E Hp. pose proof (sorted_ints es zs E Hs) as Hz. assert (length zs = length es) as Hlen by (apply (f_equal length) in E; by rewrite !length_map in E).
  rewrite <- Hc, <- Hlen. apply (dense 0); [done..|]. intros z Hlast. assert (sequence <$> last es = Some (NInt z)) as Hle.
  { rewrite <- fmap_last. change (fmap sequence es) with (map sequence es). rewrite E. change (map NInt zs) with (NInt <$> zs). by rewrite fmap_last, Hlast. }
  destruct (last es) as [e|]; [|discriminate]. injection Hle as Hle. rewrite Hle, num_eqb_int in Hl. apply Z.eqb_eq in Hl. lia.
Qed.

(** ** Properties *)

(** C20: Reconciling a run with its log gives a report when the run id is valid,
    the run loads or is absent, and the log was built by appends of its run and
    can be replayed within the limit (otherwise the call raises).  The report is
    unknown exactly when neither the run nor the log exists; it is
    consistent exactly when both do and agree: the same run, the same owner
    epoch, as many events, and the snapshot's sequence is the last one of the
    log.  When the log numbers its events with positive integers, consistent
    means that it numbers them 1 to n exactly as the snapshot does. *)
Theorem run_reconciled `{PlanIdentity} d run log f now limit es rid snap : built run f → replay now f limit = Ok es → _ID rid = true → load_or_none rid d = Ok snap →
  ∃ r, reconcile_run_events d log now f (VStr rid) limit = Ok r ∧ verdict log rid snap es (_event_log_file_exists f) r ∧
    ∀ s zs, snap = Some s → status r = "consistent" → map sequence es = map NInt zs → Forall (λ z, (0 < z)%Z) zs → zs = seqZ 1 (int_fld "event_sequence" s).
Proof.
  intros Hb Hrep Hid Hload. destruct (compare_ok run log rid snap es (_event_log_file_exists f) f now limit Hb Hrep eq_refl Hid) as (r & Hr & Hv).
  { intros s ->. unfold load_or_none in Hload. destruct (load rid d) as [s'|e] eqn:E; [|by destruct e]. injection Hload as ->. by eapply loaded_facts. }
  exists r. split; [|split; [done|]].
  - unfold reconcile_run_events. cbn [check_run_id]. rewrite Hid. cbn [mbind res_bind]. rewrite Hload, Hrep. cbn [map_err].
    assert (check_limit limit = Ok ()) as ->; [|exact Hr]. unfold replay in Hrep. apply bind_ok in Hrep as (n & Hn & _). destruct limit; try discriminate. cbn [_check_limit check_limit] in *.
    by destruct (_ && _).
  - intros s zs -> Hc E Hp. destruct Hv as (_ & Hc' & _). apply Hc' in Hc as (s' & [= <-] & _ & Hag). eapply agree_numbered; [exact Hag| |exact E|done].
    by destruct (replay_ordered _ _ _ _ _ Hb Hrep) as (_ & _ & _ & ?).
Qed.

(** A run with more than [MAX_QUERY] events is never consistent with its log. *)
Lemma long_run_degraded `{PlanIdentity} d run log f now limit es rid s r : built run f → replay now f limit = Ok es → _ID rid = true → load_or_none rid d = Ok (Some s) →
  (MAX_QUERY < int_fld "event_sequence" s)%Z → reconcile_run_events d log now f (VStr rid) limit = Ok r → status r ≠ "consistent".
Proof.
  intros Hb Hrep Hid Hload Hlong Hr Hc. destruct (compare_ok run log rid (Some s) es (_event_log_file_exists f) f now limit Hb Hrep eq_refl Hid) as (r' & Hr' & _ & Hv & _).
  { intros s' [= <-]. unfold load_or_none in Hload. destruct (load rid d) as [s'|e] eqn:E; [|by destruct e]. injection Hload as ->. by eapply loaded_facts. }
  assert (r' = r) as ->.
  { unfold reconcile_run_events in Hr. cbn [check_run_id] in Hr. rewrite Hid in Hr. cbn [mbind res_bind] in Hr. apply bind_ok in Hr as (u & _ & Hr). rewrite Hload, Hrep in Hr. cbn [map_err mbind res_bind] in Hr. congruence. }
  apply Hv in Hc as (s' & [= <-] & _ & [_ _ Hcount _]). destruct (replay_ordered _ _ _ _ _ Hb Hrep) as (_ & Hlen & _). lia.
Qed.

(** ** A concrete run and its log *)

Definition paired : sres (disk * dict) :=
  '(d, _) ← create (H := plain_identity) "run-1" demo_plan "owner" None demo_time demo_empty;
  append_event (H := plain_identity) "run-1" (VDict [(VStr "event_id", VStr "e1")]) "owner" None demo_time d.
Definition paired_disk : disk := Eval vm_compute in disk_of paired.
Definition paired_snapshot : dict := Eval vm_compute in loaded (load (H := plain_identity) "run-1" paired_disk).
Example paired_consistent : status <$> reconcile_run_events (H := plain_identity) paired_disk demo_log at_noon demo_file (VStr "run-1") (VInt 10) = Ok "consistent" ∧
  (status <$> reconcile_run_events (H := plain_identity) demo_empty demo_log at_noon demo_file (VStr "run-1") (VInt 10) = Ok "degraded") ∧
  (status <$> reconcile_run_events (H := plain_identity) demo_empty demo_log at_noon None (VStr "run-1") (VInt 10) = Ok "unknown").
Proof. vm_compute. done. Qed.
Lemma paired_loaded : load_or_none (H := plain_identity) "run-1" paired_disk = Ok (Some paired_snapshot).
Proof. vm_compute. reflexivity. Qed.
Lemma run_reconciled_witness : ∃ r, reconcile_run_events (H := plain_identity) paired_disk demo_log at_noon demo_file (VStr "run-1") (VInt 10) = Ok r ∧
  verdict demo_log "run-1" (Some paired_snapshot) [settled demo_event] (_event_log_file_exists demo_file) r ∧
    ∀ s zs, Some paired_snapshot = Some s → status r = "consistent" → map sequence [settled demo_event] = map NInt zs → Forall (λ z, (0 < z)%Z) zs → zs = seqZ 1 (int_fld "event_sequence" s).
Proof.
  exact (run_reconciled (H := plain_identity) paired_disk "run-1" demo_log demo_file at_noon (VInt 10) [settled demo_event] "run-1" (Some paired_snapshot)
    demo_built demo_replay eq_refl paired_loaded).
Defined.
