(* ===== verification/Readiness.v ===== *)
(** * Readiness (scripts/pd_fleet/readiness.py)

    The view with the checks of its constructor, and the composition of the
    supervisor's report, the diagnostics of the event log and the
    reconciliation of the run.  A report that is absent is [None]. *)

From S2P Require Import Prelude PyStr PyNum PyVal IsoTime RunStore Events.
From S2P Require Supervision EventDiagnostics Reconciliation.

Open Scope string_scope.

Inductive rd_error : Type := ValueError | TypeError.
#[export] Instance rd_error_eq_dec : EqDecision rd_error.
Proof. solve_decision. Defined.
Notation vres := (res rd_error).
Definition require (b : bool) : vres unit := ensure b ValueError.

Definition _STATUSES : list string := ["ready"; "unknown"; "degraded"; "blocked"].
Definition _REASONS : list string := ["supervisor_blocked"; "source_degraded"; "missing_or_unknown_source"].
Definition _COMPONENTS : list string := ["supervisor"; "event"; "reconciliation"].
Definition _MAX_ITEMS : nat := 3.
Definition _SUPERVISOR_STATUSES : list string := ["healthy"; "slow"; "suspected"; "blocked"; "degraded"; "failed"; "needs_human_intervention"].
Definition _EVENT_STATUSES : list string := ["healthy"; "degraded"; "unknown"].
Definition _RECONCILIATION_STATUSES : list string := ["consistent"; "degraded"; "unknown"].

Definition member (allowed : list string) (v : pyval) : vres string :=
  match v with VStr s => if bool_decide (s ∈ allowed) then Ok s else Err ValueError | _ => Err ValueError end.
Definition _status (v : pyval) (allowed : list string) : vres (option string) := match v with VNone => Ok None | v => Some <$> member allowed v end.
Definition push (dedupe : bool) (allowed : list string) (result : list string) (v : pyval) : vres (list string) :=
  s ← member allowed v;
  if bool_decide (s ∈ result) then (if dedupe then Ok result else Err ValueError) else Ok (result ++ [s])%list.
Definition _fixed_tuple (v : pyval) (allowed : list string) (dedupe : bool) : vres (list string) :=
  match v with
  | VTuple l => _ ← require (length l <=? _MAX_ITEMS)%nat; foldM (push dedupe allowed) [] l
  | _ => Err TypeError
  end.

Record ReadinessView : Type := MkView {
  status : string; supervisor_status : option string; event_status : option string; reconciliation_status : option string;
  reasons : list string; present_components : list string }.
#[export] Instance view_eq_dec : EqDecision ReadinessView.
Proof. solve_decision. Defined.

Definition within (o : option string) (l : list string) : bool := match o with Some s => bool_decide (s ∈ l) | None => false end.
Definition good (o : option string) (s : string) : bool := match o with Some t => bool_decide (t = s) | None => true end.
Definition present (name : string) (o : option string) : list string := match o with Some _ => [name] | None => [] end.
Definition expected_components (supervisor event reconciliation : option string) : list string :=
  (present "supervisor" supervisor ++ present "event" event ++ present "reconciliation" reconciliation)%list.
Definition coherent (status : string) (supervisor event reconciliation : option string) (reasons components : list string) : bool :=
  let any l := within supervisor l || within event l || within reconciliation l in
  if bool_decide (status = "ready") then
    bool_decide (reasons = []) && good supervisor "healthy" && good event "healthy" && good reconciliation "consistent"
  else if bool_decide (status = "blocked") then
    bool_decide (reasons = ["supervisor_blocked"]) && within supervisor ["blocked"; "failed"; "needs_human_intervention"]
  else if bool_decide (status = "degraded") then bool_decide (reasons = ["source_degraded"]) && any ["slow"; "degraded"]
  else bool_decide (reasons = ["missing_or_unknown_source"]) && (bool_decide (components = []) || any ["suspected"; "unknown"]).

(** [ReadinessView(...)] *)
Definition new_view (status supervisor_status event_status reconciliation_status reasons present_components : pyval) : vres ReadinessView :=
  status ← member _STATUSES status;
  supervisor ← _status supervisor_status _SUPERVISOR_STATUSES;
  event ← _status event_status _EVENT_STATUSES;
  reconciliation ← _status reconciliation_status _RECONCILIATION_STATUSES;
  reasons ← _fixed_tuple reasons _REASONS true;
  components ← _fixed_tuple present_components _COMPONENTS false;
  _ ← require (bool_decide (components = expected_components supervisor event reconciliation));
  _ ← require (coherent status supervisor event reconciliation reasons components);
  Ok (MkView status supervisor event reconciliation reasons components).

Definition opt_str (o : option string) : pyval := of_opt VStr o.
Definition to_dict (v : ReadinessView) : dict :=
  [(VStr "event_status", opt_str v.(event_status)); (VStr "present_components", VList (map VStr v.(present_components)));
   (VStr "reasons", VList (map VStr v.(reasons))); (VStr "reconciliation_status", opt_str v.(reconciliation_status));
   (VStr "status", VStr v.(status)); (VStr "supervisor_status", opt_str v.(supervisor_status))].

(** [compose_readiness] from the statuses of its reports. *)
Definition compose (supervisor event reconciliation : option string) : vres ReadinessView :=
  let components := expected_components supervisor event reconciliation in
  let '(status, reasons) :=
    if within supervisor ["blocked"; "failed"; "needs_human_intervention"] then ("blocked", ["supervisor_blocked"])
    else if within supervisor ["degraded"; "slow"] || within event ["degraded"] || within reconciliation ["degraded"] then ("degraded", ["source_degraded"])
    else if bool_decide (components = []) || within supervisor ["suspected"] || within event ["unknown"] || within reconciliation ["unknown"]
    then ("unknown", ["missing_or_unknown_source"])
    else ("ready", []) in
  new_view (VStr status) (opt_str supervisor) (opt_str event) (opt_str reconciliation) (VTuple (map VStr reasons)) (VTuple (map VStr components)).
Definition compose_readiness (supervisor_report : option Supervision.SupervisorReport) (event_report : option EventDiagnostics.EventDiagnosticsReport)
    (reconciliation_report : option Reconciliation.RunEventReconciliationReport) : vres ReadinessView :=
  compose ((λ r, Supervision.d_status (Supervision.diagnosis r)) <$> supervisor_report) (EventDiagnostics.status <$> event_report)
    (Reconciliation.status <$> reconciliation_report).

(** A view may claim readiness of nothing, which [compose_readiness] never does. *)
Example empty_ready : new_view (VStr "ready") VNone VNone VNone (VTuple []) (VTuple []) = Ok (MkView "ready" None None None [] []) ∧
  status <$> compose None None None = Ok "unknown".
Proof. vm_compute. done. Qed.
(** The diagnostics report admits a status that no view does. *)
Definition blocked_diagnostics : eres EventDiagnostics.EventDiagnosticsReport :=
  EventDiagnostics.new_report (VStr "blocked") (VInt 0) (VInt 0) (VInt 0) VNone VNone (VTuple []) (VDict []) (VTuple []).
Example blocked_refused : EventDiagnostics.status <$> blocked_diagnostics = Ok "blocked" ∧ compose None (Some "blocked") None = Err ValueError.
Proof. vm_compute. done. Qed.

(** ** Lemmas *)

(** The reports that the package makes. *)
Inductive observed_report : Supervision.SupervisorReport → Prop :=
| Observed s desired epoch r : Supervision.observe s desired epoch = Ok r → observed_report r.
Inductive diagnosed_report : EventDiagnostics.EventDiagnosticsReport → Prop :=
| Diagnosed log es r : EventDiagnostics.diagnose_events log es = Ok r → diagnosed_report r.
Inductive reconciled_report : Reconciliation.RunEventReconciliationReport → Prop :=
| Reconciled `{PlanIdentity} log rid snap es b r : Reconciliation.compare log rid snap es b = Ok r → reconciled_report r.

Lemma observed_status r : observed_report r → Supervision.d_status (Supervision.diagnosis r) ∈ _SUPERVISOR_STATUSES.
Proof.
  assert (∀ st rs ps d, Supervision.new_diagnosis st rs ps = Ok d → Supervision.d_status d ∈ _SUPERVISOR_STATUSES) as Hnew.
  { intros st rs ps d. unfold Supervision.new_diagnosis. intros (s & Hs & H)%bind_ok. do 4 (apply bind_ok in H as (? & _ & H)). apply ok_inj in H as <-.
    destruct st; try discriminate. case_bool_decide as E; [|discriminate]. injection Hs as <-. exact E. }
  assert (∀ st rs reason s h d, Supervision.with_proposal st rs reason s h = Ok d → Supervision.d_status d ∈ _SUPERVISOR_STATUSES) as Hprop.
  { intros st rs reason s h d (p & _ & H)%bind_ok. by eapply Hnew. }
  assert (∀ st rs d, Supervision.plain_diagnosis st rs = Ok d → Supervision.d_status d ∈ _SUPERVISOR_STATUSES) as Hplain.
  { intros st rs d H. unfold Supervision.plain_diagnosis in H. exact (Hnew _ _ _ _ H). }
  clear Hnew. intros [s desired epoch r' H]. unfold Supervision.observe in H. apply bind_ok in H as (d & Hd & H). unfold Supervision.new_report in H.
  do 3 (apply bind_ok in H as (? & _ & H)). apply ok_inj in H as <-. cbn [Supervision.diagnosis]. unfold Supervision.reconcile_snapshot in Hd.
  apply bind_ok in Hd as (? & _ & Hd). apply bind_ok in Hd as (? & _ & Hd). unfold Supervision.diagnose_snapshot in Hd. cbv zeta in Hd.
  repeat match type of Hd with context [if ?b then _ else _] => destruct b end;
    lazymatch type of Hd with
    | Supervision.with_proposal _ _ _ _ _ = _ => exact (Hprop _ _ _ _ _ _ Hd)
    | Supervision.plain_diagnosis _ _ = _ => exact (Hplain _ _ _ Hd)
    end.
Qed.
Lemma diagnosed_status r : diagnosed_report r → EventDiagnostics.status r ∈ _EVENT_STATUSES.
Proof.
  assert (∀ st a b c d e f g h r, EventDiagnostics.new_report (VStr st) a b c d e f g h = Ok r → EventDiagnostics.status r = st) as Hnew.
  { intros st a b c d e f g h r'. unfold EventDiagnostics.new_report. intros (s & Hs & H)%bind_ok. do 12 (apply bind_ok in H as (? & _ & H)). apply ok_inj in H as <-.
    case_bool_decide; [by injection Hs as <-|discriminate]. }
  intros [log es r' H]. unfold EventDiagnostics.diagnose_events in H. destruct (map _ es); [apply Hnew in H as ->; by do 2 right; left|].
  apply bind_ok in H as (acc & _ & H). cbv zeta in H. apply Hnew in H as ->. destruct (if negb _ then _ else _); [by left|by right; left].
Qed.
Lemma reconciled_status r : reconciled_report r → Reconciliation.status r ∈ _RECONCILIATION_STATUSES.
Proof.
  assert (∀ st a b c d e f g r, Reconciliation.new_report (VStr st) a b c d e f g = Ok r → Reconciliation.status r = st) as Hnew.
  { intros st a b c d e f g r'. unfold Reconciliation.new_report. intros (s & Hs & H)%bind_ok. do 11 (apply bind_ok in H as (? & _ & H)). apply ok_inj in H as <-.
    case_bool_decide; [by injection Hs as <-|discriminate]. }
  intros [? log rid snap es b r' H]. unfold Reconciliation.compare in H. cbv zeta in H. destruct (_ && _ && _); [apply Hnew in H as ->; by do 2 right; left|].
  apply bind_ok in H as (rs & _ & H). apply Hnew in H as ->. destruct rs; [by left|by right; left].
Qed.

(** What a composed view says of the statuses it was made from. *)
Definition any_report (s e c : option string) : bool := negb (bool_decide (expected_components s e c = [])).
Definition is_blocked (s : option string) : bool := within s ["blocked"; "failed"; "needs_human_intervention"].
Definition is_degraded (s e c : option string) : bool := within s ["slow"; "degraded"] || within e ["degraded"] || within c ["degraded"].
Definition is_ready (s e c : option string) : bool := any_report s e c && good s "healthy" && good e "healthy" && good c "consistent".
Definition tells (s e c : option string) (v : ReadinessView) : bool :=
  Bool.eqb (bool_decide (status v = "blocked")) (is_blocked s) &&
  Bool.eqb (bool_decide (status v = "degraded")) (negb (is_blocked s) && is_degraded s e c) &&
  Bool.eqb (bool_decide (status v = "ready")) (is_ready s e c) &&
  bool_decide (supervisor_status v = s ∧ event_status v = e ∧ reconciliation_status v = c ∧ status v ∈ _STATUSES).

Definition options (l : list string) : list (option string) := None :: map Some l.
Lemma all_tell : forallb (λ s, forallb (λ e, forallb (λ c, match compose s e c with Ok v => tells s e c v | Err _ => false end)
  (options _RECONCILIATION_STATUSES)) (options _EVENT_STATUSES)) (options _SUPERVISOR_STATUSES) = true.
Proof. vm_compute. reflexivity. Qed.
Lemma elem_of_options o l : (∀ s, o = Some s → s ∈ l) → o ∈ options l.
Proof. intros H. destruct o as [s|]; [right; apply list_elem_of_fmap; exists s; split; [done|by apply H]|left]. Qed.
Lemma eqb_iff (b : bool) (P : Prop) `{!Decision P} : Bool.eqb (bool_decide P) b = true ↔ (P ↔ b = true).
Proof. rewrite Bool.eqb_true_iff. case_bool_decide; destruct b; naive_solver. Qed.

(** ** Properties *)

(** C21: For any reports that the package makes, present or not, there is a view.
    It is blocked exactly when the supervisor found the worker blocked, failed
    or in need of a human; degraded exactly when it is not blocked and some
    source is slow or degraded; and ready exactly when there is a report and
    every one of them is good. *)
Theorem readiness_exact sup ev rec : (∀ r, sup = Some r → observed_report r) → (∀ r, ev = Some r → diagnosed_report r) → (∀ r, rec = Some r → reconciled_report r) →
  let s := (λ r, Supervision.d_status (Supervision.diagnosis r)) <$> sup in let e := EventDiagnostics.status <$> ev in let c := Reconciliation.status <$> rec in
  ∃ v, compose_readiness sup ev rec = Ok v ∧ (status v = "blocked" ↔ is_blocked s = true) ∧ (status v = "degraded" ↔ is_blocked s = false ∧ is_degraded s e c = true) ∧
    (status v = "ready" ↔ is_ready s e c = true) ∧ status v ∈ _STATUSES.
Proof.
  intros Hs He Hc s e c. assert (s ∈ options _SUPERVISOR_STATUSES) as Is.
  { apply elem_of_options. intros x. unfold s. destruct sup as [r|]; [|discriminate]. intros [= <-]. by apply observed_status, Hs. }
  assert (e ∈ options _EVENT_STATUSES) as Ie.
  { apply elem_of_options. intros x. unfold e. destruct ev as [r|]; [|discriminate]. intros [= <-]. by apply diagnosed_status, He. }
  assert (c ∈ options _RECONCILIATION_STATUSES) as Ic.
  { apply elem_of_options. intros x. unfold c. destruct rec as [r|]; [|discriminate]. intros [= <-]. by apply reconciled_status, Hc. }
  pose proof all_tell as H. rewrite forallb_true_iff in H. specialize (H s Is). cbv beta in H. rewrite forallb_true_iff in H. specialize (H e Ie). cbv beta in H.
  rewrite forallb_true_iff in H. specialize (H c Ic). cbv beta in H. unfold compose_readiness. fold s e c. destruct (compose s e c) as [v|]; [|discriminate].
  exists v. split; [done|]. unfold tells in H. apply andb_true_iff in H as [[[H1%eqb_iff H2%eqb_iff]%andb_true_iff H3%eqb_iff]%andb_true_iff H4%bool_decide_eq_true].
  rewrite andb_true_iff, negb_true_iff in H2. by destruct H4 as (_ & _ & _ & H4).
Qed.
Definition healthy_report : Supervision.SupervisorReport := Eval vm_compute in
  match Supervision.observe (Supervision.demo_snapshot "r" "alive" "healthy" 0) "running" VNone with
  | Ok r => r | Err _ => Supervision.MkReport (Supervision.MkDiagnosis "" [] []) [] None end.
Lemma healthy_observed : observed_report healthy_report.
Proof. apply (Observed (Supervision.demo_snapshot "r" "alive" "healthy" 0) "running" VNone). vm_compute. reflexivity. Qed.
Lemma readiness_exact_witness : let s := Some "healthy" in
  ∃ v, compose_readiness (Some healthy_report) None None = Ok v ∧ (status v = "blocked" ↔ is_blocked s = true) ∧
    (status v = "degraded" ↔ is_blocked s = false ∧ is_degraded s None None = true) ∧ (status v = "ready" ↔ is_ready s None None = true) ∧ status v ∈ _STATUSES.
Proof.
  exact (readiness_exact (Some healthy_report) None None (λ r H, eq_ind healthy_report observed_report healthy_observed r (f_equal (default healthy_report) H))
    (λ r H, ltac:(discriminate H)) (λ r H, ltac:(discriminate H))).
Defined.
