(* ===== verification/Checkpoint.v ===== *)
(** * Checkpoints of task execution (scripts/pd_fleet/checkpoint.py, version 1)

    A [Checkpoint] object with its constructor, validation, JSON form, file,
    and the operations on its task snapshots: which tasks are completed or can
    be resumed, the recovery of orphaned tasks and explicit retries.  A
    snapshot is a dictionary: [_lifecycle] reads it as a [TaskLifecycle] whose
    fields are whatever the dictionary holds ([RawLife]).  [json.dump] and
    [json.load] are [file_value], the decoded content of the file. *)

From S2P Require Import Prelude PyStr PyNum PyVal IsoTime Lifecycle.

Open Scope string_scope.

Notation dict := (list (pyval * pyval)).

Definition SCHEMA_VERSION : Z := 1.

Inductive ck_error : Type :=
| CheckpointError
| CkTypeError
| CkAttributeError
| CkValueError
| CkLifecycleError (e : lc_error).
#[export] Instance ck_error_eq_dec : EqDecision ck_error.
Proof. solve_decision. Defined.
Notation kres := (res ck_error).

Definition refuse_unless (b : bool) : kres unit := ensure b CheckpointError.
Definition deepcopy (v : pyval) : kres pyval := if copyable v then Ok v else Err CkTypeError.

(** [isinstance(v, str) and v.strip()] *)
Definition named (v : pyval) : bool := match v with VStr s => negb (blank s) | _ => false end.

(** ** Snapshots of tasks *)

Definition history_dict (h : history_entry) : pyval :=
  VDict [(VStr "from", VStr (state_value (h_from h))); (VStr "to", VStr (state_value (h_to h)));
         (VStr "reason", match h_reason h with Some r => VStr r | None => VNone end)].
Definition opt_text (o : option string) : pyval := match o with Some s => VStr s | None => VNone end.
Definition opt_float (o : option spec_float) : pyval := match o with Some f => VFloat f | None => VNone end.

(** [_snapshot] of a [TaskLifecycle] object: the alias [report_final] is left out. *)
Definition snapshot_fields (l : TaskLifecycle) : dict :=
  [(VStr "task_id", VStr (task_id l)); (VStr "status", VStr (state_value (state l))); (VStr "attempt", VInt (attempt l));
   (VStr "max_attempts", VInt (max_attempts l)); (VStr "agent", opt_text (agent l)); (VStr "heartbeat", opt_float (heartbeat l));
   (VStr "started_at", opt_float (started_at l)); (VStr "finished_at", opt_float (finished_at l)); (VStr "outputs", outputs l);
   (VStr "evidence", evidence l); (VStr "reason", opt_text (reason l)); (VStr "error", opt_text (error l));
   (VStr "history", VList (map history_dict (history l))); (VStr "final_report", final_report l); (VStr "retryable", VBool (retryable l))].
Definition snapshot_object (l : TaskLifecycle) : kres dict :=
  if copyable (outputs l) && copyable (evidence l) && copyable (final_report l) then Ok (snapshot_fields l) else Err CkTypeError.

(** [_snapshot] of a mapping. *)
Definition _snapshot (tid : string) (d : dict) : dict :=
  let result := dsetdefault "task_id" (VStr tid) d in
  if dhas "state" result && negb (dhas "status" result) then dset "status" (dget_or VNone "state" result) result else result.

(** ** The two mappings *)

Definition task_item (acc : dict) (item : pyval) : kres dict :=
  let bare := match item with
              | VStr s => if negb (blank s) then Ok (dset s (VDict [(VStr "id", VStr s)]) acc) else Err CheckpointError
              | _ => Err CheckpointError end in
  match entries item with
  | Some d => match dget_or VNone "id" d with
              | VNone => Err CheckpointError
              | VStr s => if blank s then Err CheckpointError else copied ← deepcopy (VDict d); Ok (dset s copied acc)
              | _ => Err CheckpointError
              end
  | None => bare
  end.
Definition task_entry (kv : pyval * pyval) : kres (pyval * pyval) :=
  _ ← refuse_unless (named kv.1);
  v ← deepcopy kv.2;
  Ok (kv.1, v).
Definition _task_mapping (value : pyval) : kres dict :=
  match value with
  | VNone => Ok []
  | VDict kvs | VProxy kvs => mapM task_entry kvs
  | VList items => foldM task_item [] items
  | _ => Err CheckpointError
  end.

(** What is passed as [lifecycle]: its records are objects or values. *)
Inductive life_item : Type := LObject (l : TaskLifecycle) | LValue (v : pyval).
Inductive lifecycle_arg : Type :=
| LcNone
| LcMap (kvs : list (pyval * life_item))
| LcSeq (items : list life_item)
| LcOther.
Definition arg_of (v : pyval) : lifecycle_arg :=
  match v with
  | VNone => LcNone
  | VDict kvs | VProxy kvs => LcMap (map (λ kv, (kv.1, LValue kv.2)) kvs)
  | VList l | VTuple l => LcSeq (map LValue l)
  | _ => LcOther
  end.

Definition life_entry (kv : pyval * life_item) : kres (pyval * pyval) :=
  _ ← refuse_unless (named kv.1);
  match kv.2 with
  | LObject l => s ← snapshot_object l; Ok (kv.1, VDict s)
  | LValue v => match entries v with
                | Some d => s ← deepcopy (VDict d); Ok (kv.1, s)
                | None => Err CheckpointError
                end
  end.
Definition life_record (acc : dict) (item : life_item) : kres dict :=
  match item with
  | LObject l => s ← snapshot_object l; Ok (dset (task_id l) (VDict s) acc)
  | LValue v =>
      match entries v with
      | Some d => match dget_or (dget_or VNone "id" d) "task_id" d with
                  | VStr s => if blank s then Err CheckpointError else copied ← deepcopy (VDict d); Ok (dset s copied acc)
                  | _ => Err CheckpointError
                  end
      | None => Err CheckpointError
      end
  end.
Definition _lifecycle_mapping (value : lifecycle_arg) : kres dict :=
  match value with
  | LcNone => Ok []
  | LcMap kvs => mapM life_entry kvs
  | LcSeq items => foldM life_record [] items
  | LcOther => Err CheckpointError
  end.

(** ** Validation *)

Record Checkpoint : Type := MkCheckpoint {
  schema_version : pyval;
  feature : pyval;
  wave : pyval;
  tasks : dict;
  lifecycle : dict;
  reports : pyval;
  ck_evidence : pyval;
  blockers : pyval;
  created_at : pyval }.

(** [json.dumps(v, allow_nan=False)] raises on nothing in [v]. *)
Definition json_key (k : pyval) : bool :=
  match k with VStr _ | VInt _ | VBool _ | VNone => true | VFloat f => is_finite f | _ => false end.
Fixpoint encodable (v : pyval) : bool :=
  match v with
  | VNone | VBool _ | VInt _ | VStr _ => true
  | VFloat f => is_finite f
  | VList l | VTuple l => forallb encodable l
  | VDict kvs => forallb (λ kv, json_key kv.1 && encodable kv.2) kvs
  | VProxy _ | VOther _ => false
  end.

Definition int_field (d : dict) (name : string) : bool := match dget name d with None | Some (VInt _) => true | _ => false end.
Definition number_or_none (d : dict) (name : string) : bool :=
  match dget_or VNone name d with VNone | VInt _ | VFloat _ => true | _ => false end.
Definition int_of (d : dict) (name : string) : option Z := match dget name d with Some (VInt z) => Some z | _ => None end.
Definition _validate_lifecycle_fields (d : dict) : kres unit :=
  _ ← refuse_unless (int_field d "attempt" && int_field d "max_attempts");
  _ ← refuse_unless (match int_of d "attempt" with Some a => (0 <=? a)%Z | None => true end);
  _ ← refuse_unless (match int_of d "max_attempts" with Some m => (1 <=? m)%Z | None => true end);
  _ ← refuse_unless (match int_of d "attempt", int_of d "max_attempts" with Some a, Some m => (a <=? m)%Z | _, _ => true end);
  _ ← refuse_unless (match dget "retryable" d with None | Some (VBool _) => true | _ => false end);
  refuse_unless (forallb (number_or_none d) ["heartbeat"; "started_at"; "finished_at"]).

(** [snapshot.get("status", snapshot.get("state"))] *)
Definition status_of (d : dict) : pyval := dget_or (dget_or VNone "state" d) "status" d.
Definition known_status (v : pyval) : bool :=
  match v with VNone => true | VStr s => bool_decide (s ∈ map state_value all_states) | _ => false end.
(** [name] is absent, or a name that is the key. *)
Definition same_name (name : string) (key : pyval) (d : dict) : bool :=
  match dget name d with None => true | Some v => named v && py_eqb v key end.

Definition valid_task (kv : pyval * pyval) : bool :=
  named kv.1 && match entries kv.2 with Some d => same_name "id" kv.1 d | None => false end.
Definition valid_snapshot (kv : pyval * pyval) : kres unit :=
  _ ← refuse_unless (named kv.1);
  d ← (match entries kv.2 with Some d => Ok d | None => Err CheckpointError end);
  _ ← refuse_unless (same_name "task_id" kv.1 d);
  _ ← refuse_unless (known_status (status_of d));
  _validate_lifecycle_fields d.

Definition payload (c : Checkpoint) : dict :=
  [(VStr "schema_version", schema_version c); (VStr "feature", feature c); (VStr "wave", wave c); (VStr "tasks", VDict (tasks c));
   (VStr "lifecycle", VDict (lifecycle c)); (VStr "reports", reports c); (VStr "evidence", ck_evidence c);
   (VStr "blockers", blockers c); (VStr "created_at", created_at c)].

Definition validate (c : Checkpoint) : kres unit :=
  _ ← refuse_unless (match schema_version c with VInt z => (z =? SCHEMA_VERSION)%Z | _ => false end);
  _ ← refuse_unless (named (feature c));
  _ ← refuse_unless (match wave c with VInt w => (0 <=? w)%Z | _ => false end);
  _ ← refuse_unless (named (created_at c));
  _ ← refuse_unless (is_list (reports c) && is_list (ck_evidence c) && is_list (blockers c));
  _ ← refuse_unless (forallb valid_task (tasks c));
  _ ← mapM valid_snapshot (lifecycle c);
  refuse_unless (encodable (VDict (payload c))).

(** ** Construction *)

(** The constructor: [__post_init__] on the arguments. *)
Definition new_checkpoint (clock : clock_reading) (version feat wv ts : pyval) (lc : lifecycle_arg) (reps evs blks created : pyval) : kres Checkpoint :=
  ts' ← _task_mapping ts;
  lc' ← _lifecycle_mapping lc;
  created' ← (if truthy created then Ok created else VStr <$> map_err (λ _, CkValueError) (clock_iso clock));
  let c := MkCheckpoint version feat wv ts' lc' reps evs blks created' in
  _ ← validate c;
  Ok c.

(** [[] if x is None else deepcopy(x)] *)
Definition listed (v : pyval) : kres pyval := match v with VNone => Ok (VList []) | _ => deepcopy v end.
Definition create (clock : clock_reading) (feat wv ts : pyval) (lc : lifecycle_arg) (reps evs blks created : pyval) : kres Checkpoint :=
  ts' ← _task_mapping ts;
  lc' ← _lifecycle_mapping lc;
  reps' ← listed reps;
  evs' ← listed evs;
  blks' ← listed blks;
  new_checkpoint clock (VInt SCHEMA_VERSION) feat wv (VDict ts') (arg_of (VDict lc')) reps' evs' blks'
    (if truthy created then created else VStr "").

(** The lifecycle records carried inline by the tasks. *)
Definition inline_record (kv : pyval * pyval) : option (pyval * pyval) :=
  match kv.1, entries kv.2 with
  | VStr tid, Some d => if dhas "status" d || dhas "state" d then Some (kv.1, VDict (_snapshot tid d)) else None
  | _, _ => None
  end.
Definition from_dict (clock : clock_reading) (value : pyval) : kres Checkpoint :=
  d ← (match entries value with Some d => Ok d | None => Err CheckpointError end);
  _ ← deepcopy (VDict d);
  ts ← _task_mapping (dget_or VNone "tasks" d);
  lc ← _lifecycle_mapping (arg_of (dget_or VNone "lifecycle" d));
  let lc' := match lc with [] => omap inline_record ts | _ => lc end in
  new_checkpoint clock (dget_or (VInt SCHEMA_VERSION) "schema_version" d) (dget_or (VStr "") "feature" d) (dget_or (VInt 0) "wave" d)
    (VDict ts) (arg_of (VDict lc')) (dget_or (VList []) "reports" d) (dget_or (VList []) "evidence" d) (dget_or (VList []) "blockers" d)
    (dget_or (VStr "") "created_at" d).
Definition to_dict (c : Checkpoint) : kres dict := _ ← validate c; Ok (payload c).

(** ** The file *)

Definition key_text (k : pyval) : string :=
  match k with
  | VStr s => s | VInt z => str_of_Z z | VFloat f => float_repr f
  | VBool b => if b then "true" else "false" | _ => "null"
  end.
Definition num_key_leb (x y : pyval * pyval) : bool :=
  match as_num x.1, as_num y.1 with Some a, Some b => num_leb a b | _, _ => true end.
(** [sort_keys=True]: keys that do not compare raise [TypeError]. *)
Definition sorted_items (kvs : dict) : option dict :=
  if forallb (λ kv, is_str kv.1) kvs then Some (sort_by kv_leb kvs)
  else if forallb (λ kv, match as_num kv.1 with Some _ => true | None => false end) kvs then Some (sort_by num_key_leb kvs)
  else if (length kvs <=? 1)%nat then Some kvs else None.
(** What [json.load] returns from the text [json.dump(v, sort_keys=True)] wrote. *)
Fixpoint file_value (v : pyval) : option pyval :=
  match v with
  | VList l | VTuple l => VList <$> mapM file_value l
  | VDict kvs =>
      read ← mapM (λ kv, w ← file_value kv.2; Some (kv.1, w)) kvs;
      items ← sorted_items read;
      Some (VDict (map (λ kv, (VStr (key_text kv.1), kv.2)) items))
  | _ => Some v
  end.

(** The file of a path: absent, unreadable as JSON, or its content. *)
Inductive ck_file : Type := NoFile | BadFile | JsonFile (v : pyval).
(** [save_checkpoint] of a checkpoint: the new file, or the old one and an exception. *)
Definition save_checkpoint (c : Checkpoint) (f : ck_file) : ck_file * kres unit :=
  match _ ← validate c; to_dict c with
  | Err e => (f, Err e)
  | Ok d => match file_value (VDict d) with Some v => (JsonFile v, Ok ()) | None => (f, Err CkTypeError) end
  end.
Definition load_checkpoint (clock : clock_reading) (f : ck_file) : kres Checkpoint :=
  match f with JsonFile v => from_dict clock v | _ => Err CheckpointError end.

(** ** Completed and resumable tasks *)

Definition snapshot_of (c : Checkpoint) (tid : string) : pyval := default (default (VDict []) (dget tid (tasks c))) (dget tid (lifecycle c)).
Definition is_completed (c : Checkpoint) (tid : string) : bool :=
  match entries (snapshot_of c tid) with Some d => key_is "completed" (status_of d) | None => false end.
Definition task_ids (d : dict) : list string := omap (λ kv, as_str kv.1) d.
(** The tasks, then the snapshots of no task. *)
Definition all_ids (c : Checkpoint) : list string :=
  task_ids (tasks c) ++ filter (λ t, t ∉ task_ids (tasks c)) (task_ids (lifecycle c)).
Definition completed_tasks (c : Checkpoint) : list string := filter (λ t, is_completed c t = true) (all_ids c).

(** The status of a task that is not completed: a value that cannot be hashed raises [TypeError]. *)
Definition resumable (c : Checkpoint) (tid : string) : kres bool :=
  let snap := default (default VNone (dget tid (tasks c))) (dget tid (lifecycle c)) in
  let status := match entries snap with Some d => dget_or (dget_or (VStr "pending") "state" d) "status" d | None => VStr "pending" end in
  if hashable status then Ok (negb (key_is "blocked" status || key_is "skipped" status)) else Err CkTypeError.
Fixpoint resume_loop (c : Checkpoint) (ids : list string) : kres (list string) :=
  match ids with
  | [] => Ok []
  | t :: ids => if bool_decide (t ∈ completed_tasks c) then resume_loop c ids
                else b ← resumable c t; rest ← resume_loop c ids; Ok (if (b : bool) then t :: rest else rest)
  end.
Definition resume_tasks (c : Checkpoint) : kres (list string) := resume_loop c (task_ids (tasks c)).

(** ** Tasks brought back to life *)

(** A [TaskLifecycle] whose fields come from a dictionary. *)
Record RawLife : Type := MkRaw {
  r_task_id : string;
  r_state : LifecycleState;
  r_attempt : Z;
  r_max_attempts : Z;
  r_agent : pyval;
  r_heartbeat : option pynum;
  r_started_at : option pynum;
  r_finished_at : option pynum;
  r_outputs : pyval;
  r_evidence : pyval;
  r_reason : pyval;
  r_error : pyval;
  r_history : pyval;
  r_final_report : pyval;
  r_report_final : pyval;
  r_retryable : bool }.

Definition lift_lc {A} (m : res lc_error A) : kres A := map_err CkLifecycleError m.
Definition lc_fail (what : string) : ck_error := CkLifecycleError (LifecycleErr what).

(** A number or [None]; validation excludes the rest. *)
Definition instant_of (d : dict) (name : string) : option pynum :=
  match dget_or VNone name d with VInt z => Some (NInt z) | VFloat f => Some (NFloat f) | _ => None end.

(** [_lifecycle]: the fields of a copy of a snapshot that validation accepted, given to the constructor. *)
Definition _lifecycle (tid : string) (value : dict) : kres RawLife :=
  _ ← deepcopy (VDict value);
  let data := _snapshot tid value in
  s ← lift_lc (_state (inr (dget_or (dget_or (VStr "pending") "state" data) "status" data)));
  name ← (match dget_or VNone "task_id" data with
          | VStr n => if nonempty n then Ok n else Err (lc_fail "task_id") | _ => Err (lc_fail "task_id") end);
  let attempt := default 0%Z (int_of data "attempt") in
  let max_attempts := default 1%Z (int_of data "max_attempts") in
  _ ← ensure (1 <=? max_attempts)%Z (lc_fail "max_attempts");
  _ ← ensure (negb ((attempt <? 0) || (max_attempts <? attempt)))%Z (lc_fail "attempt");
  let get := λ k, dget_or VNone k data in
  Ok (MkRaw name s attempt max_attempts (get "agent") (instant_of data "heartbeat") (instant_of data "started_at")
        (instant_of data "finished_at") (get "outputs") (get "evidence") (get "reason") (get "error")
        (dget_or (VList []) "history" data) (get "final_report") (get "report_final")
        (match dget "retryable" data with Some (VBool b) => b | _ => true end)).

Definition opt_num (o : option pynum) : pyval := match o with Some (NInt z) => VInt z | Some (NFloat f) => VFloat f | None => VNone end.
(** [_snapshot] of such an object. *)
Definition raw_snapshot (r : RawLife) : dict :=
  [(VStr "task_id", VStr (r_task_id r)); (VStr "status", VStr (state_value (r_state r))); (VStr "attempt", VInt (r_attempt r));
   (VStr "max_attempts", VInt (r_max_attempts r)); (VStr "agent", r_agent r); (VStr "heartbeat", opt_num (r_heartbeat r));
   (VStr "started_at", opt_num (r_started_at r)); (VStr "finished_at", opt_num (r_finished_at r)); (VStr "outputs", r_outputs r);
   (VStr "evidence", r_evidence r); (VStr "reason", r_reason r); (VStr "error", r_error r); (VStr "history", r_history r);
   (VStr "final_report", r_final_report r); (VStr "retryable", VBool (r_retryable r))].

(** [self.history.append(...)]: only a list has [append]. *)
Definition push_history (r : RawLife) (target : LifecycleState) (why : string) : kres pyval :=
  match r_history r with
  | VList l => Ok (VList (l ++ [history_dict (HistoryEntry (r_state r) target (Some why))]))
  | _ => Err CkAttributeError
  end.

(** [fail("orphaned_run", retryable=True, now=now)] of a running task. *)
Definition raw_orphan (t : spec_float) (r : RawLife) : kres RawLife :=
  h ← push_history r FAILED "orphaned_run";
  Ok (MkRaw (r_task_id r) FAILED (r_attempt r) (r_max_attempts r) (r_agent r) (r_heartbeat r) (r_started_at r)
        (Some (NFloat t)) (r_outputs r) (r_evidence r) (VStr "orphaned_run") (VStr "orphaned_run") h
        (r_final_report r) (r_report_final r) true).

(** The time elapsed since a reference number: a float subtraction. *)
Definition as_float (n : pynum) : kres spec_float :=
  match n with
  | NFloat f => Ok f
  | NInt z => match float_of_Z z with Some f => Ok f | None => Err (CkLifecycleError OverflowErr) end
  end.
Definition raw_expired (now : instant) (timeout : pynum) (r : RawLife) : kres bool :=
  let report := match r_final_report r with VNone => r_report_final r | v => v end in
  match is_none report, opt_or (r_heartbeat r) (r_started_at r) with
  | false, Some ref => t ← lift_lc (_seconds now); f ← as_float ref; Ok (num_leb timeout (NFloat (fsub t f)))
  | _, _ => Ok true
  end.
(** [recover_orphan] of a running task: [None] when it is not an orphan. *)
Definition raw_recover (now : instant) (timeout : pynum) (r : RawLife) : kres (option RawLife) :=
  _ ← ensure (negb (num_ltb timeout (NInt 0))) (lc_fail "timeout_seconds");
  expired ← raw_expired now timeout r;
  if (expired : bool) then t ← lift_lc (_seconds now); r' ← raw_orphan t r; Ok (Some r') else Ok None.

Definition raw_retry (r : RawLife) : kres RawLife :=
  _ ← ensure (bool_decide (r_state r = FAILED)) (CkLifecycleError (InvalidTransition (r_state r) None));
  _ ← ensure (r_attempt r <? r_max_attempts r)%Z (CkLifecycleError RetryExhausted);
  _ ← ensure (r_retryable r) (CkLifecycleError RetryExhausted);
  h ← push_history r READY "explicit_retry";
  Ok (MkRaw (r_task_id r) READY (r_attempt r + 1) (r_max_attempts r) (r_agent r) (r_heartbeat r) (r_started_at r)
        (r_finished_at r) (r_outputs r) (r_evidence r) (VStr "explicit_retry") VNone h (r_final_report r) (r_report_final r) (r_retryable r)).

Definition set_lifecycle (c : Checkpoint) (lc : dict) : Checkpoint :=
  MkCheckpoint (schema_version c) (feature c) (wave c) (tasks c) lc (reports c) (ck_evidence c) (blockers c) (created_at c).

(** One record: its new snapshot when the task was an orphan. *)
Definition recover_entry (now : instant) (timeout : pynum) (kv : pyval * pyval) : kres (option dict) :=
  match kv.1, entries kv.2 with
  | VStr tid, Some raw =>
      if negb (key_is "running" (status_of raw)) then Ok None else
      life ← _lifecycle tid raw;
      out ← raw_recover now timeout life;
      Ok (option_map raw_snapshot out)
  | _, _ => Err CkAttributeError
  end.
(** The loop over the records: what was written stays when a later one raises. *)
Fixpoint recover_loop (now : instant) (timeout : pynum) (items : dict) (recovered : list string) : stm Checkpoint ck_error (list string) :=
  match items with
  | [] => mret recovered
  | kv :: items =>
      out ← lift_res (recover_entry now timeout kv);
      match kv.1, out with
      | VStr tid, Some snap =>
          _ ← modify (λ c, set_lifecycle c (dset tid (VDict snap) (lifecycle c)));
          recover_loop now timeout items (recovered ++ [tid])%list
      | _, _ => recover_loop now timeout items recovered
      end
  end.
Definition recover_orphans (now : instant) (timeout : pynum) : stm Checkpoint ck_error (list string) :=
  c ← get_state;
  recover_loop now timeout (lifecycle c) [].

Definition retry_task (tid : string) : stm Checkpoint ck_error dict :=
  c ← get_state;
  match dget tid (lifecycle c) with
  | Some v =>
      life ← lift_res (match entries v with Some d => _lifecycle tid d | None => Err CkTypeError end);
      life' ← lift_res (raw_retry life);
      _ ← modify (λ c, set_lifecycle c (dset tid (VDict (raw_snapshot life')) (lifecycle c)));
      mret (raw_snapshot life')
  | None => raise CheckpointError
  end.

(** ** Examples *)

Definition demo_life (s : string) (extra : dict) : pyval := VDict ([(VStr "status", VStr s); (VStr "attempt", VInt 1); (VStr "max_attempts", VInt 2)] ++ extra).
Definition demo_args : dict :=
  [(VStr "feature", VStr "f"); (VStr "created_at", VStr "2026-01-01T00:00:00+00:00");
   (VStr "tasks", VDict [(VStr "a", VDict []); (VStr "b", VDict []); (VStr "c", VDict [])]);
   (VStr "lifecycle", VDict [(VStr "a", demo_life "completed" []); (VStr "b", demo_life "running" [(VStr "started_at", VInt 10)]); (VStr "z", demo_life "failed" [])])].
Definition no_clock : clock_reading := ReadValue VNone.
Example demo_from : (completed_tasks <$> from_dict no_clock (VDict demo_args)) = Ok ["a"] ∧
  (from_dict no_clock (VDict demo_args) ≫= resume_tasks) = Ok ["b"; "c"].
Proof. vm_compute. done. Qed.
Example demo_orphan :
  (snd ∘ recover_orphans (AtNum (NInt 20)) (NInt 300)) <$> from_dict no_clock (VDict demo_args) = Ok (Ok ["b"]).
Proof. vm_compute. done. Qed.
Example demo_retry : (is_ok ∘ snd ∘ retry_task "z") <$> from_dict no_clock (VDict demo_args) = Ok true.
Proof. vm_compute. done. Qed.

(** ** Snapshots simulate task objects *)

(** The object read back from the snapshot of [l]. *)
Definition raw_of (l : TaskLifecycle) : RawLife :=
  MkRaw (task_id l) (state l) (attempt l) (max_attempts l) (opt_text (agent l)) (NFloat <$> heartbeat l) (NFloat <$> started_at l)
    (NFloat <$> finished_at l) (outputs l) (evidence l) (opt_text (reason l)) (opt_text (error l)) (VList (map history_dict (history l)))
    (final_report l) VNone (retryable l).

Lemma raw_snapshot_of l : raw_snapshot (raw_of l) = snapshot_fields l.
Proof. unfold raw_snapshot, snapshot_fields, raw_of. cbn. destruct (heartbeat l), (started_at l), (finished_at l); reflexivity. Qed.

Lemma state_of_value s : state_of_string (state_value s) = Some s.
Proof. by destruct s. Qed.

Lemma snapshot_copyable l f : snapshot_object l = Ok f → f = snapshot_fields l ∧ deepcopy (VDict f) = Ok (VDict f).
Proof.
  unfold snapshot_object, deepcopy. destruct (copyable (outputs l) && copyable (evidence l) && copyable (final_report l)) eqn:E; [|done]. intros [= <-]. split; [done|]. bool_inv.
  assert (forallb copyable (map history_dict (history l)) = true) as Hh. { apply forallb_forall. intros v (h & <- & _)%in_map_iff. by destruct h as [? ? []]. }
  assert (∀ o, copyable (opt_text o) = true) as Ht by (by intros []). assert (∀ o, copyable (opt_float o) = true) as Hf by (by intros []).
  assert (copyable (VDict (snapshot_fields l)) = true) as ->; [|done]. unfold snapshot_fields. cbn [copyable forallb fst snd]. by rewrite !Ht, !Hf, Hh, H, H0, H1.
Qed.
Lemma lifecycle_of_snapshot l : lc_wf l → nonempty (task_id l) = true → is_ok (snapshot_object l) = true → _lifecycle (task_id l) (snapshot_fields l) = Ok (raw_of l).
Proof.
  intros [Hm Ha _] Hn Hok. destruct (snapshot_object l) as [f|] eqn:Ef; [|done]. apply snapshot_copyable in Ef as [-> Hc]. unfold _lifecycle. rewrite Hc. cbn [mbind res_bind]. change (_snapshot (task_id l) (snapshot_fields l)) with (snapshot_fields l). cbv zeta.
  change (dget_or (dget_or (VStr "pending") "state" (snapshot_fields l)) "status" (snapshot_fields l)) with (VStr (state_value (state l))).
  change (dget_or VNone "task_id" (snapshot_fields l)) with (VStr (task_id l)).
  unfold _state. rewrite state_of_value. cbn [lift_lc map_err mbind res_bind]. rewrite Hn. cbn [mbind res_bind].
  change (default 0%Z (int_of (snapshot_fields l) "attempt")) with (attempt l). change (default 1%Z (int_of (snapshot_fields l) "max_attempts")) with (max_attempts l).
  rewrite (proj2 (Z.leb_le 1 (max_attempts l))) by done. rewrite (proj2 (Z.ltb_ge (attempt l) 0)), (proj2 (Z.ltb_ge (max_attempts l) (attempt l))) by lia.
  cbn [ensure mbind res_bind orb negb]. unfold raw_of. f_equal. unfold instant_of.
  change (dget_or VNone "heartbeat" (snapshot_fields l)) with (opt_float (heartbeat l)).
  change (dget_or VNone "started_at" (snapshot_fields l)) with (opt_float (started_at l)).
  change (dget_or VNone "finished_at" (snapshot_fields l)) with (opt_float (finished_at l)).
  by destruct (heartbeat l), (started_at l), (finished_at l).
Qed.

(** The result of an operation on an object, as the record it leaves. *)
Definition recovered_as (out : TaskLifecycle * res lc_error bool) : kres (option dict) :=
  match out with
  | (l', Ok true) => Ok (Some (snapshot_fields l'))
  | (_, Ok false) => Ok None
  | (_, Err e) => Err (CkLifecycleError e)
  end.
Definition retried_as (out : TaskLifecycle * res lc_error unit) : kres dict :=
  match out with (l', Ok _) => Ok (snapshot_fields l') | (_, Err e) => Err (CkLifecycleError e) end.

Lemma raw_expired_of now timeout l : (final_report l = VNone → report_final l = VNone) →
  raw_expired now timeout (raw_of l) = lift_lc (orphan_expired l now timeout).
Proof.
  intros Hr. unfold raw_expired, orphan_expired, raw_of. cbn.
  assert (is_none (match final_report l with VNone => VNone | v => v end) = is_none (match final_report l with VNone => report_final l | r => r end)) as ->.
  { destruct (final_report l); try done. by rewrite Hr. }
  destruct (is_none _); [done|]. destruct (heartbeat l) as [h|], (started_at l) as [s|]; cbn; try done; by destruct (_seconds now).
Qed.

Lemma recover_running now timeout l : state l = RUNNING →
  recover_orphan now timeout l =
  (if num_ltb timeout (NInt 0) then (l, Err (LifecycleErr "timeout_seconds")) else
   match orphan_expired l now timeout with
   | Ok true => match _seconds now with
                | Ok t => (set_move (set_times (set_error l (Some "orphaned_run") true) (heartbeat l) (started_at l) (Some t)) FAILED (Some "orphaned_run"), Ok true)
                | Err e => (set_error l (Some "orphaned_run") true, Err e)
                end
   | Ok false => (l, Ok false)
   | Err e => (l, Err e)
   end).
Proof.
  intros Hs. unfold recover_orphan, ensure_st, lift_res, get_state, ensure, mbind, mret, stm_bind, stm_ret. rewrite bool_decide_true by done. cbn [negb].
  destruct (num_ltb timeout (NInt 0)); cbn [negb]; [done|]. destruct (orphan_expired l now timeout) as [[]|]; [|done..].
  rewrite (fail_eq "orphaned_run" true (Some now) l Hs), set_finished_eq. by destruct (_seconds now).
Qed.

Lemma recover_snapshot now timeout l : lc_wf l → nonempty (task_id l) = true → is_ok (snapshot_object l) = true → (final_report l = VNone → report_final l = VNone) →
  recover_entry now timeout (VStr (task_id l), VDict (snapshot_fields l)) = recovered_as (recover_orphan now timeout l).
Proof.
  intros Hl Hn Hok Hr. unfold recover_entry. cbn [fst snd entries]. change (status_of (snapshot_fields l)) with (VStr (state_value (state l))).
  destruct (decide (state l = RUNNING)) as [Hs|Hs].
  2:{ assert (key_is "running" (VStr (state_value (state l))) = false) as -> by (destruct (state l); done). cbn [negb].
      unfold recover_orphan, mbind, stm_bind, get_state, mret, stm_ret. by rewrite bool_decide_false. }
  rewrite Hs. change (negb (key_is "running" (VStr (state_value RUNNING)))) with false. cbv iota. rewrite lifecycle_of_snapshot by done.
  cbn [mbind res_bind]. unfold raw_recover. rewrite raw_expired_of by done. rewrite recover_running by done.
  destruct (num_ltb timeout (NInt 0)); cbn [negb ensure mbind res_bind]; [done|].
  destruct (orphan_expired l now timeout) as [[]|]; cbn [lift_lc map_err mbind res_bind recovered_as]; [|done..].
  destruct (_seconds now) as [t|]; cbn [lift_lc map_err mbind res_bind recovered_as]; [|done].
  unfold raw_orphan, push_history. cbn [raw_of r_history mbind res_bind option_map]. do 2 f_equal.
  unfold raw_snapshot, snapshot_fields, set_move, set_times, set_error. cbn. rewrite Hs, map_app.
  by destruct (heartbeat l), (started_at l).
Qed.

Lemma retry_snapshot l : lc_wf l → nonempty (task_id l) = true → is_ok (snapshot_object l) = true →
  (r ← _lifecycle (task_id l) (snapshot_fields l); r' ← raw_retry r; Ok (raw_snapshot r')) = retried_as (retry l).
Proof.
  intros Hl Hn Hok. rewrite lifecycle_of_snapshot by done. cbn [mbind res_bind]. unfold raw_retry.
  unfold retry, mbind, stm_bind, get_state, ensure_st, lift_res, ensure, modify. cbn [raw_of r_state r_attempt r_max_attempts r_retryable].
  destruct (decide (state l = FAILED)) as [Hs|Hs]; [rewrite !bool_decide_true by done|by rewrite !bool_decide_false].
  cbn [res_bind]. destruct (attempt l <? max_attempts l)%Z; cbn [res_bind]; [|done].
  destruct (retryable l) eqn:Hr; cbn [res_bind]; [|done].
  rewrite transition_eq. unfold can_transition, set_error, set_attempt. cbn [state]. rewrite Hs.
  change (bool_decide (READY ∈ VALID_TRANSITIONS FAILED)) with true. cbn [retried_as].
  unfold push_history, raw_of. cbn [r_history res_bind r_state]. f_equal.
  unfold raw_snapshot, snapshot_fields, set_move. cbn. rewrite Hs, map_app, ?Hr.
  by destruct (heartbeat l), (started_at l), (finished_at l).
Qed.

(** C16: The operations of a checkpoint on the snapshot of a task implement those of the task.  When [_snapshot] of a
    well-formed task with a name gives a snapshot (its outputs, evidence and report can be copied), [recover_orphans] writes
    for it the snapshot of the object [recover_orphan] leaves, exactly when it recovers the object, and [retry_task] the
    snapshot of the object [retry] leaves, with the same exceptions.  This needs a report of the task to be in
    [final_report]: the snapshot does not keep the alias [report_final] ([alias_lost]). *)
Theorem snapshot_simulates l fields now timeout :
  lc_wf l → nonempty (task_id l) = true → (final_report l = VNone → report_final l = VNone) → snapshot_object l = Ok fields →
  recover_entry now timeout (VStr (task_id l), VDict fields) = recovered_as (recover_orphan now timeout l) ∧
  (r ← _lifecycle (task_id l) fields; r' ← raw_retry r; Ok (raw_snapshot r')) = retried_as (retry l).
Proof.
  intros Hl Hn Hr Hs. assert (is_ok (snapshot_object l) = true) as Hok by (by rewrite Hs). apply snapshot_copyable in Hs as [-> _]. split; [by apply recover_snapshot|by apply retry_snapshot].
Qed.

Definition demo_task : TaskLifecycle :=
  MkLifecycle "t" RUNNING 1 2 (Some "w") None (float_of_Z 10) None VNone VNone None None
    [HistoryEntry PENDING READY None; HistoryEntry READY RUNNING None] VNone VNone true.
Lemma snapshot_simulates_witness :
  recover_entry (AtNum (NInt 20)) (NInt 300) (VStr "t", VDict (snapshot_fields demo_task)) = recovered_as (recover_orphan (AtNum (NInt 20)) (NInt 300) demo_task) ∧
  (r ← _lifecycle "t" (snapshot_fields demo_task); r' ← raw_retry r; Ok (raw_snapshot r')) = retried_as (retry demo_task).
Proof. apply (snapshot_simulates demo_task); [split; (done || cbn; lia)|reflexivity|done|reflexivity]. Defined.

(** A worker that left its report under the alias and has just started is healthy as an object, an orphan once snapshot. *)
Definition aliased_task : TaskLifecycle :=
  MkLifecycle "t" RUNNING 1 2 (Some "w") None (float_of_Z 10) None VNone VNone None None
    [HistoryEntry PENDING READY None; HistoryEntry READY RUNNING None] VNone (VStr "report") true.
Example alias_lost :
  (recover_orphan (AtNum (NInt 20)) (NInt 300) aliased_task).2 = Ok false ∧
  is_Some (match recover_entry (AtNum (NInt 20)) (NInt 300) (VStr "t", VDict (snapshot_fields aliased_task)) with Ok o => o | Err _ => None end).
Proof. split; [vm_compute; done|vm_compute; eauto]. Qed.

(** ** Resuming *)

(** The record of a task: its snapshot, or the task itself when it has none. *)
Inductive recorded (c : Checkpoint) (t : string) (d : dict) : Prop :=
| rec_snapshot v : dget t (lifecycle c) = Some v → entries v = Some d → recorded c t d
| rec_task v : dget t (lifecycle c) = None → dget t (tasks c) = Some v → entries v = Some d → recorded c t d.
(** The status that a task states: [status], or [state] in a record without it. *)
Inductive states (c : Checkpoint) (t : string) (v : pyval) : Prop :=
| st_status d : recorded c t d → dget "status" d = Some v → states c t v
| st_state d : recorded c t d → dget "status" d = None → dget "state" d = Some v → states c t v.
Definition done_statuses : list string := ["completed"; "blocked"; "skipped"].

Definition stated_status (c : Checkpoint) (t : string) : option pyval :=
  d ← entries (snapshot_of c t); match dget "status" d with Some v => Some v | None => dget "state" d end.
Lemma stated_iff c t v : states c t v ↔ stated_status c t = Some v.
Proof.
  assert (∀ d, recorded c t d → entries (snapshot_of c t) = Some d) as Hr.
  { intros d [w Hw He|w Hn Hw He]; unfold snapshot_of; [by rewrite Hw|by rewrite Hn, Hw]. }
  unfold stated_status. split.
  - intros [d Hd Hv|d Hd Hn Hv]; rewrite (Hr _ Hd); cbn [mbind option_bind]; [by rewrite Hv|by rewrite Hn].
  - destruct (entries (snapshot_of c t)) as [d|] eqn:He; [|done]. cbn [mbind option_bind]. intros Hv.
    assert (recorded c t d ∨ d = []) as [Hd| ->].
    { unfold snapshot_of in He. destruct (dget t (lifecycle c)) as [w|] eqn:Hl; [left; by eapply rec_snapshot|]. cbn [default] in He.
      destruct (dget t (tasks c)) as [w|] eqn:Ht; [left; by eapply rec_task|right]. cbn in He. by injection He as <-. }
    + destruct (dget "status" d) as [w|] eqn:Hs; [injection Hv as ->; by eapply st_status|by eapply st_state].
    + done.
Qed.
Lemma completed_stated c t : is_completed c t = key_is "completed" (default VNone (stated_status c t)).
Proof.
  unfold is_completed, stated_status. destruct (entries _) as [d|]; [|done]. cbn [mbind option_bind]. unfold status_of, dget_or. by destruct (dget "status" d).
Qed.
Lemma resumable_stated c t : resumable c t = let v := default (VStr "pending") (stated_status c t) in
  if hashable v then Ok (negb (key_is "blocked" v || key_is "skipped" v)) else Err CkTypeError.
Proof.
  unfold resumable, stated_status, snapshot_of. cbv zeta.
  assert (entries (default (default VNone (dget t (tasks c))) (dget t (lifecycle c))) = entries (default (default (VDict []) (dget t (tasks c))) (dget t (lifecycle c))) ∨
    dget t (tasks c) = None ∧ dget t (lifecycle c) = None) as [He|[H1 H2]] by (destruct (dget t (lifecycle c)), (dget t (tasks c)); auto); [rewrite He|by rewrite H1, H2].
  destruct (entries (default (default (VDict []) (dget t (tasks c))) (dget t (lifecycle c)))) as [d|]; [|done]. cbn [mbind option_bind]. unfold dget_or. by destruct (dget "status" d).
Qed.
Lemma key_is_string k v : key_is k v = true ↔ v = VStr k.
Proof. destruct v; cbn; try (by split). rewrite bool_decide_eq_true. split; congruence. Qed.
Lemma completed_in c t : t ∈ task_ids (tasks c) → t ∈ completed_tasks c ↔ states c t (VStr "completed").
Proof.
  intros Ht. unfold completed_tasks, all_ids. rewrite list_elem_of_filter, elem_of_app, completed_stated, key_is_string, stated_iff. destruct (stated_status c t) as [v|]; cbn; split; try tauto; try congruence.
  - by intros [-> _].
  - intros [= ->]. tauto.
  - by intros [? _].
Qed.

(** What one task contributes. *)
Lemma resumable_spec c t : t ∈ task_ids (tasks c) → t ∉ completed_tasks c →
  match resumable c t with
  | Ok b => (∀ v, states c t v → hashable v = true) ∧ (b = true ↔ ∀ k, k ∈ done_statuses → ¬ states c t (VStr k))
  | Err e => e = CkTypeError ∧ ∃ v, states c t v ∧ hashable v = false
  end.
Proof.
  intros Ht Hn. rewrite completed_in in Hn by done. rewrite resumable_stated. cbv zeta. pose proof (stated_iff c t) as Hs. destruct (stated_status c t) as [v|]; cbn [from_option id].
  - assert (states c t v) as Hv by (by apply Hs). destruct (hashable v) eqn:Hh; [|split; [done|exists v; by split]]. split; [intros w Hw%Hs; by injection Hw as <-|].
    rewrite negb_true_iff, orb_false_iff, <- !not_true_iff_false, !key_is_string. unfold done_statuses. split.
    + intros [H1 H2] k. rewrite !elem_of_cons, elem_of_nil. intros Hk Hw%Hs. injection Hw as ->. by destruct Hk as [-> |[-> |[-> |[]]]].
    + intros H. split; intros ->; eapply H, Hv; set_solver.
  - split; [by intros w Hw%Hs|]. split; [|done]. by intros _ k _ Hw%Hs.
Qed.
Lemma resume_loop_spec c ids : (∀ t, t ∈ ids → t ∈ task_ids (tasks c)) →
  match resume_loop c ids with
  | Ok out => out `sublist_of` ids ∧ (∀ t v, t ∈ ids → states c t v → hashable v = true) ∧
      ∀ t, t ∈ out ↔ t ∈ ids ∧ ∀ k, k ∈ done_statuses → ¬ states c t (VStr k)
  | Err e => e = CkTypeError ∧ ∃ t v, t ∈ ids ∧ states c t v ∧ hashable v = false
  end.
Proof.
  induction ids as [|x ids IH]; intros Hids; [cbn; split; [done|]; split; set_solver|]. cbn [resume_loop]. specialize (IH ltac:(set_solver)). assert (x ∈ task_ids (tasks c)) as Hx by set_solver.
  case_bool_decide as Hc.
  - destruct (resume_loop c ids) as [out|e].
    + destruct IH as (H1 & H2 & H3). apply completed_in in Hc as Hs; [|done]. split; [by constructor|]. split.
      * intros t v [-> |Ht]%elem_of_cons Hv; [|by eapply H2]. apply stated_iff in Hs, Hv. rewrite Hs in Hv. by injection Hv as <-.
      * intros t. rewrite H3, elem_of_cons. split; [tauto|]. intros [[-> |Ht] Hk]; [|done]. exfalso. eapply Hk, Hs. set_solver.
    + destruct IH as (-> & t & v & Ht & Hv). split; [done|]. exists t, v. set_solver.
  - pose proof (resumable_spec c x Hx Hc) as Hr. destruct (resumable c x) as [b|e]; cbn [mbind res_bind].
    2:{ destruct Hr as (-> & v & Hv). split; [done|]. exists x, v. set_solver. }
    destruct Hr as [Hh Hb]. destruct (resume_loop c ids) as [out|e]; cbn [mbind res_bind].
    2:{ destruct IH as (-> & t & v & Ht & Hv). split; [done|]. exists t, v. set_solver. }
    destruct IH as (H1 & H2 & H3). split; [destruct b; by constructor|]. split; [intros t v [-> |Ht]%elem_of_cons; eauto|].
    intros t. destruct b; rewrite ?elem_of_cons, H3.
    + split; [intros [-> |?]; [split; [by left|by apply Hb]|tauto]|tauto].
    + split; [tauto|]. intros [[-> |Ht] Hk]; [|done]. by apply Hb in Hk.
Qed.

(** C18: Resuming dispatches exactly the work that is left.  The status of a task is what its snapshot states, or the task
    itself when it has no snapshot, under [status] or else [state]; none counts as pending.  [resume_tasks] returns, in the
    order of the tasks, exactly the tasks of which none of completed, blocked and skipped is the status, unless the status of
    some task cannot be hashed: then, and only then, it raises, and what it raises is [TypeError]. *)
Theorem resume_exact c :
  match resume_tasks c with
  | Ok out => out `sublist_of` task_ids (tasks c) ∧ (∀ t v, t ∈ task_ids (tasks c) → states c t v → hashable v = true) ∧
      ∀ t, t ∈ out ↔ t ∈ task_ids (tasks c) ∧ ¬ states c t (VStr "completed") ∧ ¬ states c t (VStr "blocked") ∧ ¬ states c t (VStr "skipped")
  | Err e => e = CkTypeError ∧ ∃ t v, t ∈ task_ids (tasks c) ∧ states c t v ∧ hashable v = false
  end.
Proof.
  pose proof (resume_loop_spec c (task_ids (tasks c)) ltac:(done)) as H. fold (resume_tasks c) in H. destruct (resume_tasks c) as [out|e]; [|done]. destruct H as (H1 & H2 & H3).
  do 2 (split; [done|]). intros t. rewrite H3. split.
  - intros [Ht Hk]. split; [done|]. split_and!; apply Hk; set_solver.
  - intros (Ht & Hc & Hb & Hs). split; [done|]. intros k. unfold done_statuses. rewrite !elem_of_cons, elem_of_nil. intros [-> |[-> |[-> |[]]]]; done.
Qed.

Definition demo_checkpoint : Checkpoint :=
  match from_dict no_clock (VDict demo_args) with Ok c => c | Err _ => MkCheckpoint VNone VNone VNone [] [] VNone VNone VNone VNone end.

(** A list as the status of a task passes validation and makes [resume_tasks] raise. *)
Example unhashable_status :
  (from_dict no_clock (VDict (dset "lifecycle" (VDict [(VStr "a", demo_life "ready" [])]) (dset "tasks" (VDict [(VStr "b", VDict [(VStr "state", VList [])])]) demo_args))) ≫= resume_tasks) = Err CkTypeError.
Proof. vm_compute. done. Qed.

(** ** Saving and loading *)

(** Every dictionary has only strings as keys. *)
Fixpoint text_keys (v : pyval) : bool :=
  match v with
  | VList l | VTuple l => forallb text_keys l
  | VDict kvs => forallb (λ kv, is_str kv.1 && text_keys kv.2) kvs
  | _ => true
  end.

Lemma mapM_option_ok {A B} (f : A → option B) (g : A → B) l : Forall (λ x, f x = Some (g x)) l → mapM f l = Some (map g l).
Proof. induction 1 as [|x l Hx Hl IH]; [done|]. cbn. by rewrite Hx, IH. Qed.

Lemma file_value_text v : text_keys v = true → file_value v = Some (reload v).
Proof.
  induction v as [| | | | |l IH|l IH|kvs IH|kvs IH|] using pyval_ind'; try done; cbn [text_keys file_value reload]; intros H.
  1,2: rewrite (mapM_option_ok _ reload); [done|]; rewrite Forall_forall in *; intros x Hx; apply IH; [done|];
    rewrite forallb_true_iff in H; by apply H.
  rewrite forallb_true_iff in H. rewrite (mapM_option_ok _ (λ kv, (kv.1, reload kv.2))).
  2:{ rewrite Forall_forall in *. intros kv Hkv. destruct (IH kv Hkv) as [_ IH2]. specialize (H kv Hkv). bool_inv. by rewrite IH2. }
  cbn [mbind option_bind]. unfold sorted_items.
  assert (∀ kv, kv ∈ map (λ kv : pyval * pyval, (kv.1, reload kv.2)) kvs → is_str kv.1 = true) as Hstr.
  { intros kv (kv' & -> & Hin)%list_elem_of_fmap. specialize (H kv' Hin). by bool_inv. }
  rewrite (proj2 (forallb_true_iff _ _)) by done.
  match goal with |- context [Some (sort_by kv_leb ?m)] => set (items := m) in * end.
  change (Some (VDict (map (λ kv, (VStr (key_text kv.1), kv.2)) (sort_by kv_leb items))) = Some (VDict (sort_by kv_leb items))).
  do 2 f_equal. rewrite <- (map_id (sort_by kv_leb items)) at 2. apply map_ext_Forall. apply Forall_forall. intros [k w] Hk%elem_of_sort_by. specialize (Hstr _ Hk). by destruct k.
Qed.

Lemma elem_of_keys d kv : kv ∈ reload_dict d → ∃ v, (kv.1, v) ∈ d ∧ kv.2 = reload v.
Proof. apply elem_of_reload. Qed.

Lemma encodable_copyable v : encodable v = true → copyable v = true.
Proof.
  induction v as [| | | | |l IH|l IH|kvs IH|kvs IH|] using pyval_ind'; try done; cbn [encodable copyable]; rewrite !forallb_true_iff; intros H x Hx;
    specialize (H x Hx); rewrite Forall_forall in IH; specialize (IH x Hx).
  1,2: by apply IH.
  bool_inv. destruct IH as [_ IH2]. rewrite IH2 by done. destruct x as [[] ?]; cbn in *; done.
Qed.

Lemma encodable_reload v : encodable v = true → encodable (reload v) = true.
Proof.
  induction v as [| | | | |l IH|l IH|kvs IH|kvs IH|] using pyval_ind'; try done; cbn [reload encodable]; rewrite !forallb_true_iff; rewrite Forall_forall in IH.
  1,2: intros H x (y & -> & Hy)%list_elem_of_fmap; by apply IH, H.
  intros H x (y & -> & Hy)%elem_of_sort_by%list_elem_of_fmap. specialize (H y Hy). specialize (IH y Hy) as [_ IH2]. cbn [fst snd]. bool_inv.
  by rewrite IH2, andb_true_r.
Qed.

Lemma named_reload v : named (reload v) = named v.
Proof. by destruct v. Qed.
Lemma status_reload d : status_of (reload_dict d) = reload (status_of d).
Proof. unfold status_of, dget_or. rewrite !dget_reload. by destruct (dget "status" d), (dget "state" d). Qed.
Lemma entries_reload v : entries (reload v) = match v with VDict d => Some (reload_dict d) | VProxy d => Some d | _ => None end.
Proof. by destruct v. Qed.

Lemma same_name_reload name k d : same_name name (VStr k) d = true → same_name name (VStr k) (reload_dict d) = true.
Proof. unfold same_name. rewrite dget_reload. destruct (dget name d) as [v|]; [|done]. cbn [fmap option_fmap option_map]. intros H. rewrite named_reload. by destruct v. Qed.

Lemma fields_reload d : _validate_lifecycle_fields (reload_dict d) = _validate_lifecycle_fields d.
Proof.
  assert (∀ n, int_field (reload_dict d) n = int_field d n) as Hi by (intros n; unfold int_field; rewrite dget_reload; by destruct (dget n d) as [[]|]).
  assert (∀ n, int_of (reload_dict d) n = int_of d n) as Ho by (intros n; unfold int_of; rewrite dget_reload; by destruct (dget n d) as [[]|]).
  assert (∀ n, number_or_none (reload_dict d) n = number_or_none d n) as Hn.
  { intros n. unfold number_or_none, dget_or. rewrite dget_reload. by destruct (dget n d) as [[]|]. }
  unfold _validate_lifecycle_fields. rewrite !Hi, !Ho. cbn [forallb]. rewrite !Hn, dget_reload. by destruct (dget "retryable" d) as [[]|].
Qed.

Lemma named_str v : named v = true → ∃ s, v = VStr s ∧ blank s = false.
Proof. destruct v; cbn; try done. intros H%negb_true_iff. eauto. Qed.

Lemma valid_snapshot_reload k v : encodable v = true → valid_snapshot (k, v) = Ok () → valid_snapshot (k, reload v) = Ok ().
Proof.
  unfold valid_snapshot. cbn [fst snd]. intros Henc ([] & Hk%ensure_ok & (d & Hd & H)%bind_ok)%bind_ok.
  destruct v as [| | | | | | |kvs| |]; try discriminate. apply ok_inj in Hd as <-. destruct (named_str k Hk) as (s & -> & _).
  apply bind_ok in H as ([] & Hn%ensure_ok & ([] & Hst%ensure_ok & H)%bind_ok). rewrite reload_VDict. cbn [entries] in *.
  rewrite Hk. cbn [refuse_unless ensure mbind res_bind]. rewrite (same_name_reload _ _ kvs Hn), status_reload, fields_reload, H.
  assert (known_status (reload (status_of kvs)) = true) as ->; [|done]. clear -Hst. by destruct (status_of kvs).
Qed.

(** What a loaded checkpoint looks like. *)
Definition reread (c : Checkpoint) : Checkpoint :=
  MkCheckpoint (schema_version c) (feature c) (wave c) (reload_dict (tasks c)) (reload_dict (lifecycle c)) (reload (reports c))
    (reload (ck_evidence c)) (reload (blockers c)) (created_at c).

Record validated (c : Checkpoint) : Prop := {
  va_version : schema_version c = VInt SCHEMA_VERSION;
  va_feature : named (feature c) = true;
  va_wave : ∃ w, wave c = VInt w ∧ (0 ≤ w)%Z;
  va_created : named (created_at c) = true;
  va_lists : is_list (reports c) = true ∧ is_list (ck_evidence c) = true ∧ is_list (blockers c) = true;
  va_tasks : ∀ kv, kv ∈ tasks c → valid_task kv = true;
  va_snapshots : ∀ kv, kv ∈ lifecycle c → valid_snapshot kv = Ok ();
  va_json : encodable (VDict (payload c)) = true }.

Lemma mapM_unit {A E} (f : A → res E ()) l : (∃ us, mapM f l = Ok us) ↔ ∀ x, x ∈ l → f x = Ok ().
Proof.
  setoid_rewrite mapM_res_ok. split.
  - intros (us & HF) x Hx. destruct (Forall2_in_l _ _ _ _ HF Hx) as ([] & _ & ?). done.
  - intros H. exists (map (λ _, ()) l). induction l as [|x l IH]; cbn; constructor; [apply H; by left|]. apply IH. intros. apply H. by right.
Qed.

Lemma validate_ok c : validate c = Ok () ↔ validated c.
Proof.
  unfold validate, refuse_unless. split.
  - intros H. res_inv. bool_inv. split; try done.
    + destruct (schema_version c); try done. by bool_inv; subst.
    + destruct (wave c); try done. bool_inv. eauto.
    + by apply forallb_true_iff.
    + apply mapM_unit. eauto.
  - intros [Hv Hf (w & Hw & Hw') Hc (H1 & H2 & H3) Ht Hs Hj]. rewrite Hv, Hf, Hw, Hc, H1, H2, H3. rewrite (proj2 (Z.leb_le 0 w)) by done.
    change (1 =? SCHEMA_VERSION)%Z with true. rewrite (proj2 (forallb_true_iff valid_task (tasks c))) by done.
    destruct (proj2 (mapM_unit valid_snapshot (lifecycle c)) Hs) as (us & Hus). cbn [refuse_unless ensure mbind res_bind andb]. cbn [ensure]. rewrite Hus. cbn [mbind res_bind]. by rewrite Hj.
Qed.

Lemma payload_part (c : Checkpoint) k v : encodable (VDict (payload c)) = true → (VStr k, v) ∈ payload c → encodable v = true.
Proof. cbn [encodable]. rewrite forallb_true_iff. intros H Hin. specialize (H _ Hin). by bool_inv. Qed.
Lemma encodable_value d kv : encodable (VDict d) = true → kv ∈ d → encodable kv.2 = true.
Proof. cbn [encodable]. rewrite forallb_true_iff. intros H Hin. specialize (H _ Hin). by bool_inv. Qed.

Lemma tasks_json c : validated c → encodable (VDict (tasks c)) = true.
Proof. intros Hc. apply (payload_part c "tasks" _ (va_json c Hc)). unfold payload. set_solver. Qed.
Lemma lifecycle_json c : validated c → encodable (VDict (lifecycle c)) = true.
Proof. intros Hc. apply (payload_part c "lifecycle" _ (va_json c Hc)). unfold payload. set_solver. Qed.

Lemma task_mapping_again d : (∀ kv, kv ∈ d → named kv.1 = true ∧ copyable kv.2 = true) → _task_mapping (VDict d) = Ok d.
Proof.
  intros H. cbn [_task_mapping]. apply mapM_res_ok. apply Forall2_same_length_lookup. split; [done|]. intros i [k v] y Hx Hy.
  assert (y = (k, v)) as -> by congruence. destruct (H (k, v)) as [Hk Hv]; [by eapply list_elem_of_lookup_2|].
  unfold task_entry, deepcopy. cbn [fst snd] in *. rewrite Hv. destruct k; try discriminate. unfold refuse_unless. by rewrite Hk.
Qed.
Lemma lifecycle_mapping_again d : (∀ kv, kv ∈ d → named kv.1 = true ∧ ∃ s, kv.2 = VDict s ∧ copyable (VDict s) = true) →
  _lifecycle_mapping (arg_of (VDict d)) = Ok d.
Proof.
  intros H. cbn [_lifecycle_mapping arg_of]. induction d as [|[k v] d IH]; [done|]. destruct (H (k, v)) as (Hk & s & Hs & Hc); [by left|].
  cbn [fst snd] in *. subst v. assert (life_entry (k, LValue (VDict s)) = Ok (k, VDict s)) as He.
  { unfold life_entry, refuse_unless, deepcopy. cbn [fst snd entries]. by rewrite Hk, Hc. }
  cbn [map mapM fst snd]. rewrite He. cbn [mbind res_bind]. rewrite IH; [done|]. intros kv Hkv. apply H. by right.
Qed.

Definition no_inline (c : Checkpoint) : Prop := lifecycle c = [] → omap inline_record (tasks c) = [].

Lemma omap_nil_iff {A B} (f : A → option B) l : omap f l = [] ↔ ∀ x, x ∈ l → f x = None.
Proof.
  induction l as [|x l IH]; cbn; [set_solver|]. split.
  - intros H y [-> | Hy]%elem_of_cons; destruct (f x) eqn:E; try done. by apply IH.
  - intros H. rewrite (H x) by left. apply IH. intros y Hy. apply H. by right.
Qed.

Lemma no_inline_reread c : validated c → no_inline c → no_inline (reread c).
Proof.
  intros Hc Hn Hl. unfold reread in *. cbn in *.
  assert (lifecycle c = []) as Hl' by (apply length_zero_iff_nil; rewrite <- (length_map (λ kv, (kv.1, reload kv.2))), <- (length_sort_by kv_leb); fold (reload_dict (lifecycle c)); by rewrite Hl).
  apply omap_nil_iff. intros [k w] (v & Hin & Hw)%elem_of_reload. cbn [fst snd] in *. subst w. pose proof (proj1 (omap_nil_iff _ _) (Hn Hl') _ Hin) as Hi.
  pose proof (encodable_value _ _ (tasks_json c Hc) Hin) as He. unfold inline_record in *. cbn [fst snd] in *. destruct k; try done.
  destruct v; try done. cbn [entries reload] in *. fold (reload_dict kvs). rewrite !dhas_reload. by destruct (_ || _).
Qed.

Lemma validated_reread c : validated c → validated (reread c).
Proof.
  intros Hc. pose proof Hc as [Hv Hf Hw Hcr (H1 & H2 & H3) Ht Hs Hj]. split; try done.
  - unfold reread. cbn [reports ck_evidence blockers]. clear -H1 H2 H3. by split; [destruct (reports c)|split; [destruct (ck_evidence c)|destruct (blockers c)]].
  - intros [k w] (v & Hin & Hw')%elem_of_reload. cbn [fst snd] in *. subst w. specialize (Ht _ Hin). pose proof (encodable_value _ _ (tasks_json c Hc) Hin) as He.
    unfold valid_task in *. cbn [fst snd] in *. apply andb_true_iff in Ht as [Hk Ht]. rewrite Hk. destruct (named_str k Hk) as (s & -> & _).
    destruct v; try done. rewrite reload_VDict. cbn [entries] in *. by apply same_name_reload.
  - intros [k w] (v & Hin & Hw')%elem_of_reload. cbn [fst snd] in *. subst w. apply valid_snapshot_reload; [|by apply Hs].
    exact (encodable_value _ _ (lifecycle_json c Hc) Hin).
  - assert (Permutation (payload (reread c)) (reload_dict (payload c))) as Hp.
    { unfold reload_dict. rewrite sort_by_perm. unfold payload, reread. cbn [map fst snd schema_version feature wave tasks lifecycle reports ck_evidence blockers created_at].
      destruct Hw as (w & -> & _). rewrite Hv. destruct (named_str _ Hf) as (s & -> & _), (named_str _ Hcr) as (s' & -> & _). done. }
    apply encodable_reload in Hj. rewrite reload_VDict in Hj. cbn [encodable] in *. rewrite forallb_true_iff in *. intros kv Hkv. apply Hj. by rewrite <- Hp.
Qed.

Lemma get_payload c k d v : dget k (payload c) = Some v → dget_or d k (reload_dict (payload c)) = reload v.
Proof. intros H. unfold dget_or. by rewrite dget_reload, H. Qed.

Lemma from_payload clock c : validated c → no_inline c → from_dict clock (VDict (reload_dict (payload c))) = Ok (reread c).
Proof.
  intros Hc Hn. pose proof (validated_reread c Hc) as Hr. unfold from_dict. cbn [entries mbind res_bind]. unfold deepcopy at 1.
  rewrite (encodable_copyable _ (encodable_reload _ (va_json c Hc)) : copyable (VDict (reload_dict (payload c))) = true). cbn [mbind res_bind].
  rewrite (get_payload c "tasks" _ (VDict (tasks c))), (get_payload c "lifecycle" _ (VDict (lifecycle c))), (get_payload c "schema_version" _ (schema_version c)),
    (get_payload c "feature" _ (feature c)), (get_payload c "wave" _ (wave c)), (get_payload c "reports" _ (reports c)), (get_payload c "evidence" _ (ck_evidence c)),
    (get_payload c "blockers" _ (blockers c)), (get_payload c "created_at" _ (created_at c)) by done.
  rewrite !reload_VDict. rewrite task_mapping_again.
  2:{ intros kv Hkv. pose proof (va_tasks _ Hr kv Hkv) as Ht. unfold valid_task in Ht. apply andb_true_iff in Ht as [Ht _]. split; [done|].
      apply encodable_copyable, (encodable_value _ _ (tasks_json _ Hr) Hkv). }
  assert (∀ kv, kv ∈ reload_dict (lifecycle c) → named kv.1 = true ∧ ∃ s, kv.2 = VDict s ∧ copyable (VDict s) = true) as Hlc.
  { intros kv Hkv. pose proof (va_snapshots _ Hr kv Hkv) as Ht. unfold valid_snapshot, refuse_unless in Ht. res_inv. split; [done|].
    pose proof (encodable_value _ _ (lifecycle_json _ Hr) Hkv) as He. destruct (kv.2) as [| | | | | | |s| |]; try discriminate.
    exists s. split; [done|]. by apply encodable_copyable. }
  cbn [mbind res_bind]. rewrite lifecycle_mapping_again by done. cbn [mbind res_bind].
  assert (match reload_dict (lifecycle c) with [] => omap inline_record (reload_dict (tasks c)) | _ :: _ => reload_dict (lifecycle c) end = reload_dict (lifecycle c)) as ->.
  { pose proof (no_inline_reread c Hc Hn) as H. unfold no_inline, reread in H. cbn in H. by destruct (reload_dict (lifecycle c)) eqn:E; [rewrite H|]. }
  unfold new_checkpoint. rewrite task_mapping_again.
  2:{ intros kv Hkv. pose proof (va_tasks _ Hr kv Hkv) as Ht. unfold valid_task in Ht. apply andb_true_iff in Ht as [Ht _]. split; [done|].
      apply encodable_copyable, (encodable_value _ _ (tasks_json _ Hr) Hkv). }
  cbn [mbind res_bind]. rewrite lifecycle_mapping_again by done. cbn [mbind res_bind].
  pose proof Hc as [Hv Hf (w & Hw & _) Hcr _ _ _ _]. destruct (named_str _ Hf) as (s & Hs & _), (named_str _ Hcr) as (s' & Hs' & Hb). rewrite Hv, Hs, Hw, Hs'.
  cbn [reload truthy]. assert (nonempty s' = true) as -> by (destruct s'; done). cbn [mbind res_bind].
  change (MkCheckpoint _ _ _ _ _ _ _ _ _) with (MkCheckpoint (VInt SCHEMA_VERSION) (VStr s) (VInt w) (reload_dict (tasks c)) (reload_dict (lifecycle c)) (reload (reports c)) (reload (ck_evidence c)) (reload (blockers c)) (VStr s')).
  rewrite <- Hv, <- Hs, <- Hw, <- Hs'. change (MkCheckpoint _ _ _ _ _ _ _ _ _) with (reread c). by rewrite (proj2 (validate_ok _) Hr).
Qed.

Lemma task_mapping_id v d : _task_mapping (VDict v) = Ok d → d = v.
Proof.
  cbn [_task_mapping]. intros HF%mapM_res_ok. induction HF as [|[k x] y l l' H _ IH]; [done|]. rewrite IH. f_equal.
  unfold task_entry, refuse_unless, deepcopy in H. cbn [fst snd] in H. apply bind_ok in H as ([] & _ & H). apply bind_ok in H as (w & Hw & H). apply ok_inj in H as <-.
  destruct (copyable x); [|done]. by apply ok_inj in Hw as ->.
Qed.
Lemma lifecycle_mapping_id v d : _lifecycle_mapping (arg_of (VDict v)) = Ok d → map fst d = map fst v.
Proof.
  cbn [_lifecycle_mapping arg_of]. revert d. induction v as [|[k x] v IH]; intros d; cbn [map mapM]; [by intros <-%ok_inj|].
  intros (y & Hy & (l & Hl & <-%ok_inj)%bind_ok)%bind_ok. cbn [map]. f_equal; [|by apply IH].
  unfold life_entry, refuse_unless, deepcopy in Hy. cbn [fst snd] in Hy. apply bind_ok in Hy as ([] & _ & Hy). destruct (entries x); [|done].
  by apply bind_ok in Hy as (w & _ & <-%ok_inj).
Qed.

Lemma from_dict_made clock v c : from_dict clock v = Ok c → validated c ∧ no_inline c.
Proof.
  unfold from_dict. intros (d & _ & (u & _ & (ts & Hts & (lc & Hlc & H)%bind_ok)%bind_ok)%bind_ok)%bind_ok.
  unfold new_checkpoint in H. apply bind_ok in H as (ts' & ->%task_mapping_id & (lc' & Hlc'%lifecycle_mapping_id & (cr & _ & H)%bind_ok)%bind_ok).
  apply bind_ok in H as ([] & Hv & <-%ok_inj). split; [by apply validate_ok|]. unfold no_inline. cbn [lifecycle tasks]. intros ->.
  destruct lc as [|x lc]; [|done]. cbn in Hlc'. by destruct (omap inline_record ts).
Qed.

Lemma task_ids_reload d : task_ids (reload_dict d) ≡ₚ task_ids d.
Proof.
  assert (∀ x, task_ids x = omap as_str (map fst x)) as E.
  { intros x. unfold task_ids. induction x as [|[k v] x IH]; [done|]. cbn. by rewrite IH. }
  rewrite !E. apply omap_Permutation, keys_reload.
Qed.
Lemma is_completed_reread c t : is_completed (reread c) t = is_completed c t.
Proof.
  unfold is_completed. assert (snapshot_of (reread c) t = reload (snapshot_of c t)) as ->.
  { unfold snapshot_of, reread. cbn [lifecycle tasks]. rewrite !dget_reload. by destruct (dget t (lifecycle c)), (dget t (tasks c)). }
  destruct (snapshot_of c t); try done. rewrite reload_VDict. cbn [entries]. rewrite status_reload. by destruct (status_of kvs).
Qed.

(** C17: A checkpoint survives its file: when its dictionaries have text keys, [save_checkpoint] of one made by [from_dict]
    replaces whatever the file held by its JSON form and never raises, [load_checkpoint] returns the same checkpoint with the
    keys of its dictionaries sorted and its tuples as lists, and the same tasks are completed. *)
Theorem checkpoint_roundtrip clock clock' v c f :
  from_dict clock v = Ok c → text_keys (VDict (payload c)) = true →
  save_checkpoint c f = (JsonFile (reload (VDict (payload c))), Ok ()) ∧
  load_checkpoint clock' (save_checkpoint c f).1 = Ok (reread c) ∧
  (∀ t, t ∈ completed_tasks (reread c) ↔ t ∈ completed_tasks c).
Proof.
  intros Hc Ht. destruct (from_dict_made _ _ _ Hc) as [Hv Hn].
  assert (save_checkpoint c f = (JsonFile (reload (VDict (payload c))), Ok ())) as Hs.
  { unfold save_checkpoint, to_dict. rewrite (proj2 (validate_ok c) Hv). cbn [mbind res_bind]. by rewrite file_value_text. }
  rewrite Hs. split; [done|]. split; [by apply from_payload|]. intros t. unfold completed_tasks. rewrite !list_elem_of_filter, is_completed_reread.
  unfold all_ids, reread. cbn [tasks lifecycle]. rewrite !elem_of_app, !list_elem_of_filter, !task_ids_reload. tauto.
Qed.
Lemma checkpoint_roundtrip_witness :
  save_checkpoint demo_checkpoint BadFile = (JsonFile (reload (VDict (payload demo_checkpoint))), Ok ()) ∧
  load_checkpoint no_clock (save_checkpoint demo_checkpoint BadFile).1 = Ok (reread demo_checkpoint) ∧
  (∀ t, t ∈ completed_tasks (reread demo_checkpoint) ↔ t ∈ completed_tasks demo_checkpoint).
Proof. apply (checkpoint_roundtrip no_clock no_clock (VDict demo_args) demo_checkpoint BadFile); vm_compute; reflexivity. Defined.

(** Keys of different types pass validation, and make the save raise a bare [TypeError]. *)
Example unsavable :
  (λ c, (save_checkpoint c NoFile).2) <$> from_dict no_clock (VDict (dset "evidence" (VList [VDict [(VStr "a", VNone); (VInt 1, VNone)]]) demo_args)) = Ok (Err CkTypeError).
Proof. vm_compute. done. Qed.

