(* ===== verification/CheckpointStore.v ===== *)
(** * The durable checkpoint store (scripts/pd_fleet/checkpoint.py, version 2)

    [CheckpointV2Store]: sealed envelopes with a generation and a checksum, kept
    in a file and its backup.  The directory of a run is a record of the two
    files and the temporary one; a save is its sequence of steps on them, so
    that an injected fault and a crash are a prefix of the sequence.  The lock
    and symbolic links of the run directory are not modelled: a save is one
    critical section. *)

From S2P Require Import Prelude PyStr PyNum PyVal Regex Sha256 IsoTime Lifecycle Redaction Checkpoint.

Open Scope string_scope.

Definition V2_SCHEMA_VERSION : string := "pd-fleet-checkpoint:v2".

(** ** Run identifiers, redaction, checksums *)

Definition _safe_id (run_id : pyval) : kres string :=
  match run_id with
  | VStr s => if nonempty s && negb (bool_decide (s ∈ ["."; ".."])) && negb (contains s "/") && negb (contains s (String (ascii_of_nat 92) ""))
              then Ok s else Err CheckpointError
  | _ => Err CheckpointError
  end.

Definition secret_key : re :=
  ralt [rlit_ci "token"; rlit_ci "secret"; rlit_ci "password"; rlit_ci "credential"; rseq [rlit_ci "api"; ropt (rchr "_ -"); rlit_ci "key"];
        rlit_ci "authorization"; rseq [rlit_ci "private"; ropt (rchr "_ -"); rlit_ci "key"]].
Definition backslash : ascii := ascii_of_nat 92.
Definition url_like : re :=
  rseq [ralt [rseq [rlit_ci "http"; ropt (rlit_ci "s")]; rlit_ci "ftp"; rseq [rlit_ci "ws"; ropt (rlit_ci "s")]]; rlit "://";
        rplus (RChar (λ c, negb (is_space c || is_quote c || one_of "<>" c)))].
Definition path_body (c : ascii) : bool := negb (Ascii.eqb c " " || between 9 13 c || is_quote c || one_of "<>;," c).
Definition slash_like (c : ascii) : bool := Ascii.eqb c "/" || Ascii.eqb c backslash.
Definition path_like : re :=
  rseq [RNotAfter (λ c, is_word c || Ascii.eqb c ".");
        ralt [rseq [rchr "~"; RChar slash_like; rstar (RChar path_body)];
              rseq [rchr "/"; rplus (RChar path_body)];
              rseq [RChar is_alpha; rchr ":"; RChar slash_like; rstar (RChar path_body)];
              rseq [RChar (Ascii.eqb backslash); RChar (Ascii.eqb backslash); rplus (RChar path_body)]]].
Definition redact_text (s : string) : string := sub path_like (λ _, "[PATH REDACTED]") (sub url_like (λ _, "[URL REDACTED]") s).

Definition UNSUPPORTED : string := "[UNSUPPORTED TYPE]".
(** Tuples are returned as they are. *)
Fixpoint _redact (value : pyval) : pyval :=
  match value with
  | VDict kvs | VProxy kvs =>
      VDict (foldl (λ acc kv, dset kv.1 kv.2 acc) []
        (map (λ kv, match kv.1 with
                    | VStr k => (k, if search secret_key k then VStr "[REDACTED]" else _redact kv.2)
                    | _ => (UNSUPPORTED, _redact kv.2) end) kvs))
  | VList l => VList (map _redact l)
  | VStr s => VStr (redact_text s)
  | _ => value
  end.

(** [b"pd-fleet-checkpoint:v2\x00"] *)
Definition CHECKSUM_DOMAIN : string := V2_SCHEMA_VERSION +:+ String zero "".
Definition _checksum (envelope : dict) : kres string :=
  match json_dumps (VDict (dpop "checksum" envelope)) with
  | Ok text => Ok (sha256_hex (CHECKSUM_DOMAIN +:+ text))
  | Err JsonNaN => Err CkValueError
  | Err _ => Err CkTypeError
  end.

Definition sealed_body (run_id plan_hash : string) (generation : Z) (checkpoint : pyval) : dict :=
  [(VStr "schema_version", VStr V2_SCHEMA_VERSION); (VStr "run_id", VStr run_id); (VStr "plan_hash", VStr plan_hash);
   (VStr "generation", VInt generation); (VStr "checkpoint", checkpoint)].
Definition _seal (run_id : string) (c : Checkpoint) (plan_hash generation : pyval) : kres dict :=
  h ← (match plan_hash with VStr h => if is_sha256_hex h then Ok h else Err CheckpointError | _ => Err CheckpointError end);
  g ← (match generation with VInt g => if (0 <=? g)%Z then Ok g else Err CheckpointError | _ => Err CheckpointError end);
  d ← to_dict c;
  let body := sealed_body run_id h g (_redact (VDict d)) in
  sum ← _checksum body;
  Ok (dset "checksum" (VStr sum) body).

(** ** Validation of what is read back *)

Definition lifecycle_fields : list string :=
  ["task_id"; "status"; "state"; "attempt"; "max_attempts"; "agent"; "heartbeat"; "started_at"; "finished_at"; "outputs"; "evidence"; "reason";
   "error"; "history"; "final_report"; "report_final"; "retryable"].
Definition task_fields : list string :=
  ["id"; "name"; "title"; "description"; "owner"; "depends_on"; "dependencies"; "wave"; "status"; "state"; "metadata"; "inputs"; "outputs"; "acceptance"; "tags"].
Definition checkpoint_fields : list string :=
  ["schema_version"; "feature"; "wave"; "tasks"; "lifecycle"; "reports"; "evidence"; "blockers"; "created_at"].
Definition history_fields : list string := ["from"; "to"; "reason"].
Definition report_fields : list string := ["task_id"; "status"; "summary"; "details"; "content"; "text"; "report"; "agent"; "created_at"; "outputs"; "evidence"; "error"].
Definition evidence_fields : list string := ["task_id"; "kind"; "type"; "path"; "uri"; "url"; "sha256"; "description"; "value"; "metadata"].
Definition blocker_fields : list string := ["task_id"; "reason"; "details"; "status"].
Definition extension_fields : list string := ["metadata"; "inputs"; "outputs"; "acceptance"; "tags"; "value"; "details"; "content"].

(** [walk] does not raise. *)
Fixpoint walk (allowed : option (list string)) (extension : bool) (item : pyval) : bool :=
  match item with
  | VDict kvs | VProxy kvs =>
      forallb (λ kv, match kv.1 with
                     | VStr k => negb (search secret_key k) &&
                         (match allowed with Some ks => bool_decide (k ∈ ks) || extension | None => true end) &&
                         walk None (extension || bool_decide (k ∈ extension_fields)) kv.2
                     | _ => false end) kvs
  | VList l => forallb (walk None extension) l
  | VFloat f => is_finite f
  | VStr _ | VInt _ | VBool _ | VNone => true
  | VTuple _ | VOther _ => false
  end.
Definition named_mapping (kv : pyval * pyval) : bool := named kv.1 && is_mapping kv.2.
Definition history_ok (v : pyval) : bool :=
  match dget_or (VList []) "history" (default [] (entries v)) with
  | VList records => forallb (λ r, is_mapping r && walk (Some history_fields) false r) records
  | _ => false
  end.
Definition records_ok (d : dict) (name : string) (fields : list string) : bool :=
  match dget_or VNone name d with
  | VList records => forallb (λ r, if is_mapping r then walk (Some fields) false r else walk None false r) records
  | _ => false
  end.
Definition _validate_v2_nested (value : pyval) : bool :=
  match entries value with
  | None => false
  | Some d =>
      walk (Some checkpoint_fields) false value &&
      match entries (dget_or VNone "tasks" d) with
      | Some ts => forallb (λ kv, named_mapping kv && walk (Some task_fields) false kv.2) ts
      | None => false end &&
      match entries (dget_or VNone "lifecycle" d) with
      | Some ls => forallb (λ kv, named_mapping kv && walk (Some lifecycle_fields) false kv.2 && history_ok kv.2) ls
      | None => false end &&
      records_ok d "reports" report_fields && records_ok d "evidence" evidence_fields && records_ok d "blockers" blocker_fields
  end.

Definition ENVELOPE_FIELDS : list string := ["schema_version"; "run_id"; "plan_hash"; "generation"; "checkpoint"; "checksum"].
(** [set(value) == fields] *)
Definition exactly_fields (fields : list string) (d : dict) : bool := negb (has_unknown fields d) && forallb (λ k, dhas k d) fields.

Section store.
  Context (clock : clock_reading).

(** The run and the hash that are asked for may be any values; [None] asks for no hash. *)
Definition valid_for (value run expected : pyval) : bool :=
    match entries value with
    | None => false
    | Some d =>
        exactly_fields ENVELOPE_FIELDS d &&
        py_eqb (dget_or VNone "schema_version" d) (VStr V2_SCHEMA_VERSION) && py_eqb (dget_or VNone "run_id" d) run &&
        match dget_or VNone "plan_hash" d with
        | VStr h => is_sha256_hex h && (is_none expected || py_eqb (VStr h) expected)
        | _ => false end &&
        match dget_or VNone "generation" d with VInt g => (0 <=? g)%Z | _ => false end &&
        match _checksum d with Ok sum => py_eqb (VStr sum) (dget_or VNone "checksum" d) | Err _ => false end &&
        _validate_v2_nested (dget_or VNone "checkpoint" d) &&
        is_ok (from_dict clock (dget_or VNone "checkpoint" d))
    end.
Definition _valid (value : pyval) (run_id : string) (expected : option string) : bool :=
    valid_for value (VStr run_id) (match expected with Some e => VStr e | None => VNone end).

(** ** The directory of a run *)

(** A path: nothing, a symbolic link, a file that is no JSON document (or not
    a regular file with one name), a JSON document. *)
Inductive slot : Type := Absent | Link | Unreadable | Content (v : pyval).
Record Dir : Type := MkDir { d_target : slot; d_backup : slot; d_temp : bool }.

Definition generation_of (d : dict) : Z := match dget_or VNone "generation" d with VInt g => g | _ => 0%Z end.
Definition candidate (run_id : string) (expected : option string) (s : slot) : option dict :=
    match s with
    | Content v => if _valid v run_id expected then entries v else None
    | _ => None
    end.
Definition _candidates (run_id : string) (expected : option string) (dir : Dir) : list dict :=
    omap (candidate run_id expected) [d_target dir; d_backup dir].

(** [max(candidates, key=generation)]: the first of the greatest. *)
Fixpoint latest (l : list dict) : option dict :=
    match l with
    | [] => None
    | x :: l => match latest l with
                | Some y => Some (if (generation_of x <? generation_of y)%Z then y else x)
                | None => Some x
                end
    end.

(** ** Saving *)

Inductive fault_exn : Type := FaultOSError | FaultCheckpointError | FaultOther.
Inductive store_error : Type := StoreError (e : ck_error) | Injected (f : fault_exn).

Definition step : Type := option string * (Dir → Dir).
Definition make_temp (dir : Dir) : Dir := MkDir (d_target dir) (d_backup dir) true.
Definition unlink_temp (dir : Dir) : Dir := MkDir (d_target dir) (d_backup dir) false.
Definition move_target (dir : Dir) : Dir := MkDir Absent (d_target dir) (d_temp dir).
Definition install (envelope : dict) (dir : Dir) : Dir := MkDir (Content (reload (VDict envelope))) (d_backup dir) false.
Definition exists_target (dir : Dir) : bool := match d_target dir with Absent => false | _ => true end.
Definition is_link (s : slot) : bool := match s with Link => true | _ => false end.

(** The steps of a save, each with the stage at which a fault may be injected before it. *)
Definition save_steps (envelope : dict) (dir : Dir) : list step :=
    ([(None, make_temp); (Some "write", id); (Some "fsync", id)] ++
    (if exists_target dir then [(Some "backup", move_target)] else []) ++
    [(Some "replace", install envelope); (Some "directory_fsync", id)])%list.

Definition fault_at (fault : string → option fault_exn) (stage : option string) : option store_error :=
    match stage with
    | None => None
    | Some s => match fault s with
                | Some FaultOSError => Some (if bool_decide (s = "directory_fsync") then StoreError CheckpointError else Injected FaultOSError)
                | Some f => Some (Injected f)
                | None => None
                end
    end.
(** An exception removes the temporary file. *)
Fixpoint run_steps (fault : string → option fault_exn) (steps : list step) (dir : Dir) : Dir * option store_error :=
    match steps with
    | [] => (dir, None)
    | (stage, f) :: steps => match fault_at fault stage with
                             | Some e => (unlink_temp dir, Some e)
                             | None => run_steps fault steps (f dir)
                             end
    end.
(** The directory a crash leaves after [n] steps. *)
Definition crash_after (n : nat) (steps : list step) (dir : Dir) : Dir := foldl (λ d s, s.2 d) dir (take n steps).

(** What is saved: a checkpoint or a mapping of one. *)
Definition checkpoint_of (c : Checkpoint + pyval) : kres Checkpoint := match c with inl c => Ok c | inr v => from_dict clock v end.
(** The envelope a save would install, or why it refuses before touching a file. *)
Definition prepare (run_id : pyval) (c : Checkpoint + pyval) (plan_hash generation : pyval) (dir : Dir) : kres dict :=
    rid ← _safe_id run_id;
    cp ← checkpoint_of c;
    envelope ← _seal rid cp plan_hash generation;
    _ ← refuse_unless (match latest (_candidates rid None dir) with Some best => (generation_of best <? generation_of envelope)%Z | None => true end);
    _ ← refuse_unless (negb (is_link (d_target dir) || is_link (d_backup dir)));
    Ok envelope.
Definition save (run_id : pyval) (c : Checkpoint + pyval) (plan_hash generation : pyval) (fault : string → option fault_exn) : stm Dir store_error dict :=
    λ dir, match prepare run_id c plan_hash generation dir with
           | Err e => (dir, Err (StoreError e))
           | Ok envelope => match run_steps fault (save_steps envelope dir) dir with
                            | (dir', None) => (dir', Ok envelope)
                            | (dir', Some e) => (dir', Err e)
                            end
           end.

(** ** Loading, recovering, resuming *)

Definition load (run_id : pyval) (expected_plan_hash : option string) (expected_generation : option Z) (dir : Dir) : kres dict :=
    _ ← refuse_unless (match expected_plan_hash with Some h => is_sha256_hex h | None => true end);
    rid ← _safe_id run_id;
    match latest (_candidates rid expected_plan_hash dir) with
    | None => Err CheckpointError
    | Some best =>
        _ ← refuse_unless (match expected_plan_hash with Some h => py_eqb (dget_or VNone "plan_hash" best) (VStr h) | None => true end);
        _ ← refuse_unless (match expected_generation with Some g => (generation_of best =? g)%Z | None => true end);
        Ok best
    end.

Definition recover (run_id : pyval) (expected_plan_hash : option string) (expected_generation : option Z) (now : option instant) (timeout : pynum) :
      stm Dir store_error dict :=
    λ dir,
    match load run_id expected_plan_hash expected_generation dir with
    | Err e => (dir, Err (StoreError e))
    | Ok envelope =>
        match from_dict clock (dget_or VNone "checkpoint" envelope) with
        | Err e => (dir, Err (StoreError e))
        | Ok c =>
            match (match now with Some t => recover_orphans t timeout c | None => (c, Ok []) end) with
            | (_, Err e) => (dir, Err (StoreError e))
            | (_, Ok []) => (dir, Ok (dset "orphaned" (VList []) envelope))
            | (c', Ok orphaned) =>
                match save run_id (inl c') (dget_or VNone "plan_hash" envelope) (VInt (generation_of envelope + 1)) (λ _, None) dir with
                | (dir', Ok saved) => (dir', Ok (dset "orphaned" (VList (map VStr orphaned)) saved))
                | (dir', Err e) => (dir', Err e)
                end
            end
        end
    end.

Definition resume (run_id : pyval) (expected_plan_hash : option string) (expected_generation : option Z) (now : option instant) (timeout : pynum) :
      stm Dir store_error dict :=
    λ dir,
    match recover run_id expected_plan_hash expected_generation now timeout dir with
    | (dir', Ok envelope) =>
        (dir', map_err StoreError (
          c ← from_dict clock (dget_or VNone "checkpoint" envelope);
          ts ← resume_tasks c;
          Ok (dset "completed_tasks" (VList (map VStr (completed_tasks c))) (dset "resume_tasks" (VList (map VStr ts)) envelope))))
    | (dir', Err e) => (dir', Err e)
    end.
End store.

(** ** A sealed envelope read back *)

Definition sealed_checkpoint (c : Checkpoint) : pyval := reload (_redact (VDict (payload c))).

(** The file of an envelope is valid exactly when the redacted checkpoint passes the two checks of the reader. *)
Definition readable (clock : clock_reading) (c : Checkpoint) : bool :=
  _validate_v2_nested (sealed_checkpoint c) && is_ok (from_dict clock (sealed_checkpoint c)).

Lemma seal_shape rid c h g env : _seal rid c h g = Ok env →
  ∃ hs gz sum, h = VStr hs ∧ is_sha256_hex hs = true ∧ g = VInt gz ∧ (0 ≤ gz)%Z ∧
    _checksum (sealed_body rid hs gz (_redact (VDict (payload c)))) = Ok sum ∧
    env = dset "checksum" (VStr sum) (sealed_body rid hs gz (_redact (VDict (payload c)))).
Proof.
  unfold _seal. intros (hs & Hh & (gz & Hg & (d & Hd & (sum & Hs & <-%ok_inj)%bind_ok)%bind_ok)%bind_ok)%bind_ok.
  unfold to_dict in Hd. apply bind_ok in Hd as (_ & _ & <-%ok_inj).
  destruct h as [| | | |h| | | | |]; try discriminate Hh. destruct (is_sha256_hex h) eqn:Eh; [|discriminate Hh]. apply ok_inj in Hh as <-.
  destruct g as [| |z| | | | | | |]; try discriminate Hg. destruct (0 <=? z)%Z eqn:Ez; [|discriminate Hg]. apply ok_inj in Hg as <-.
  apply Z.leb_le in Ez. exists h, z, sum. by repeat (split; [assumption || reflexivity|]).
Qed.

Lemma checksum_reload d sum : _checksum d = Ok sum → _checksum (reload_dict d) = Ok sum.
Proof.
  unfold _checksum. rewrite dpop_reload, <- reload_VDict. destruct (json_dumps (VDict (dpop "checksum" d))) as [t|[]] eqn:E; try done.
  by rewrite (dumps_reload _ _ E).
Qed.
Lemma checksum_dset d v : dget "checksum" d = None → _checksum (dset "checksum" v d) = _checksum d.
Proof. intros H. unfold _checksum. by rewrite dpop_dset. Qed.

Lemma sealed_checkpoint_valid clock rid c h g env expected : _seal rid c h g = Ok env →
  _valid clock (reload (VDict env)) rid expected =
    match expected with Some e => py_eqb h (VStr e) | None => true end && readable clock c.
Proof.
  intros Hs. destruct (seal_shape _ _ _ _ _ Hs) as (hs & gz & sum & -> & Hh & -> & Hg & Hsum & ->).
  set (body := sealed_body rid hs gz (_redact (VDict (payload c)))) in *. rewrite reload_VDict. unfold _valid, valid_for. cbn [entries].
  assert (∀ k v d, dget k (dset "checksum" (VStr sum) body) = Some v → dget_or d k (reload_dict (dset "checksum" (VStr sum) body)) = reload v) as Hget.
  { intros k v d H. unfold dget_or. by rewrite dget_reload, H. }
  rewrite (Hget "schema_version" (VStr V2_SCHEMA_VERSION)), (Hget "run_id" (VStr rid)), (Hget "plan_hash" (VStr hs)), (Hget "generation" (VInt gz)),
    (Hget "checkpoint" (_redact (VDict (payload c)))), (Hget "checksum" (VStr sum)) by reflexivity.
  assert (exactly_fields ENVELOPE_FIELDS (reload_dict (dset "checksum" (VStr sum) body)) = true) as ->.
  { unfold exactly_fields. rewrite has_unknown_reload. apply andb_true_iff. split; [reflexivity|]. apply forallb_true_iff. intros k Hk. rewrite dhas_reload.
    revert k Hk. apply Forall_forall. repeat (constructor; [reflexivity|]). constructor. }
  rewrite (checksum_reload _ sum) by (by rewrite checksum_dset). cbn [reload py_eqb]. rewrite !bool_decide_true by done. rewrite Hh, (proj2 (Z.leb_le 0 gz) Hg).
  fold (sealed_checkpoint c). unfold readable.
  destruct expected as [e|]; cbn [andb]; [destruct (bool_decide (hs = e))|]; reflexivity.
Qed.

(** ** What a run directory holds through faults and crashes *)

Definition best (clock : clock_reading) (rid : string) (dir : Dir) : option dict := latest (_candidates clock rid None dir).

(** The target is absent or the newest valid envelope. *)
Definition sound (clock : clock_reading) (rid : string) (dir : Dir) : Prop :=
  d_target dir = Absent ∨
  ∃ t, candidate clock rid None (d_target dir) = Some t ∧ ∀ b, candidate clock rid None (d_backup dir) = Some b → (generation_of b < generation_of t)%Z.

Lemma best_temp clock rid dir b : best clock rid (MkDir (d_target dir) (d_backup dir) b) = best clock rid dir.
Proof. done. Qed.
Lemma sound_temp clock rid dir b : sound clock rid dir → sound clock rid (MkDir (d_target dir) (d_backup dir) b).
Proof. done. Qed.

Lemma best_candidate clock rid tg bk b : best clock rid (MkDir tg bk b) =
  match candidate clock rid None tg, candidate clock rid None bk with
  | Some t, Some k => Some (if (generation_of t <? generation_of k)%Z then k else t)
  | Some t, None => Some t
  | None, o => o
  end.
Proof. unfold best, _candidates. cbn [d_target d_backup omap list_omap]. by destruct (candidate clock rid None tg), (candidate clock rid None bk). Qed.

Lemma best_sound clock rid dir : sound clock rid dir → d_target dir ≠ Absent → best clock rid dir = candidate clock rid None (d_target dir).
Proof.
  intros [?|(t & Ht & Hb)] Hne; [done|]. destruct dir as [tg bk b]. rewrite best_candidate. cbn [d_target d_backup] in *. rewrite Ht.
  destruct (candidate clock rid None bk) as [k|]; [|done]. specialize (Hb k eq_refl). by rewrite (proj2 (Z.ltb_ge _ _)) by lia.
Qed.

(** The envelope a directory gains when the target is replaced. *)
Definition gained (clock : clock_reading) (rid : string) (env : dict) (old : option dict) : option dict :=
  if _valid clock (reload (VDict env)) rid None then Some (reload_dict env) else old.

Lemma prepare_ok clock rid c h g dir env : prepare clock (VStr rid) c h g dir = Ok env →
  _safe_id (VStr rid) = Ok rid ∧ (∃ cp, checkpoint_of clock c = Ok cp ∧ _seal rid cp h g = Ok env) ∧
  (∀ b, best clock rid dir = Some b → (generation_of b < generation_of env)%Z) ∧ is_link (d_target dir) = false.
Proof.
  unfold prepare. intros (r & Hr & (cp & Hcp & (e & He & ([] & Hg & ([] & Hl & <-%ok_inj)%bind_ok)%bind_ok)%bind_ok)%bind_ok)%bind_ok.
  assert (r = rid) as -> by (unfold _safe_id in Hr; destruct (_ && _); congruence). unfold refuse_unless in Hg, Hl. apply ensure_ok in Hg, Hl.
  split; [done|]. split; [by exists cp|]. split; [|by bool_inv]. intros b Hb. unfold best in Hb. rewrite Hb in Hg. by apply Z.ltb_lt.
Qed.

Lemma generation_sealed rid c h g env : _seal rid c h g = Ok env → generation_of (reload_dict env) = generation_of env.
Proof.
  intros Hs. destruct (seal_shape _ _ _ _ _ Hs) as (hs & gz & sum & -> & _ & -> & _ & _ & ->). unfold generation_of, dget_or. by rewrite dget_reload.
Qed.

Lemma move_best clock rid dir : sound clock rid dir → d_target dir ≠ Absent → best clock rid (move_target dir) = best clock rid dir.
Proof. intros Hs Hne. rewrite (best_sound _ _ _ Hs Hne). unfold move_target. rewrite best_candidate. cbn [candidate]. by destruct (candidate _ _ _ (d_target dir)). Qed.

Lemma install_best clock rid env bk old : (∀ b, old = Some b → (generation_of b < generation_of env)%Z) →
  generation_of (reload_dict env) = generation_of env → candidate clock rid None bk = old →
  ∀ t, best clock rid (install env (MkDir Absent bk t)) = gained clock rid env old ∧
  (_valid clock (reload (VDict env)) rid None = true → sound clock rid (install env (MkDir Absent bk t))).
Proof.
  intros Hold Hgen Hbk t. unfold install. cbn [d_backup]. rewrite best_candidate. unfold sound. cbn [d_target d_backup]. rewrite Hbk.
  assert (candidate clock rid None (Content (reload (VDict env))) = if _valid clock (reload (VDict env)) rid None then Some (reload_dict env) else None) as -> by done.
  unfold gained. destruct (_valid clock (reload (VDict env)) rid None); [|by destruct old]. split.
  - destruct old as [k|]; [|done]. specialize (Hold k eq_refl). by rewrite (proj2 (Z.ltb_ge _ _)) by lia.
  - intros _. right. exists (reload_dict env). split; [done|]. intros b Hb. rewrite Hgen. by apply Hold.
Qed.

(** The number of steps after which the new envelope is installed. *)
Definition commit (dir : Dir) : nat := if exists_target dir then 5 else 4.
(** A save stopped after [n] steps, with or without its temporary file. *)
Definition stopped (n : nat) (temp : bool) (env : dict) (dir : Dir) : Dir :=
  let d := crash_after n (save_steps env dir) dir in MkDir (d_target d) (d_backup d) temp.

Lemma crash_cases n env dir :
  ((n < commit dir)%nat → ∃ t, crash_after n (save_steps env dir) dir = MkDir (d_target dir) (d_backup dir) t ∨
     (d_target dir ≠ Absent ∧ crash_after n (save_steps env dir) dir = MkDir Absent (d_target dir) t)) ∧
  ((commit dir ≤ n)%nat → crash_after n (save_steps env dir) dir =
     install env (MkDir Absent (match d_target dir with Absent => d_backup dir | t => t end) true)).
Proof.
  destruct dir as [tg bk t]. unfold commit, save_steps. destruct (exists_target (MkDir tg bk t)) eqn:E.
  - assert (tg ≠ Absent) as Hne by (by intros ->). split.
    + intros Hn. destruct n as [|[|[|[|[|n]]]]]; [exists t|exists true..|lia]; by (left; reflexivity) || (right; split; [done|reflexivity]).
    + intros Hn. destruct n as [|[|[|[|[|[|n]]]]]]; try lia; [|destruct n]; destruct tg; (done || reflexivity).
  - assert (tg = Absent) as -> by (by destruct tg). split.
    + intros Hn. destruct n as [|[|[|[|n]]]]; [exists t|exists true..|lia]; left; reflexivity.
    + intros Hn. destruct n as [|[|[|[|[|n]]]]]; try lia; [|destruct n]; reflexivity.
Qed.

Lemma run_steps_prefix fault steps dir : ∃ n, (n ≤ length steps)%nat ∧
  match run_steps fault steps dir with
  | (dir', Some _) => dir' = unlink_temp (crash_after n steps dir)
  | (dir', None) => n = length steps ∧ dir' = crash_after n steps dir
  end.
Proof.
  revert dir. induction steps as [|[stage f] steps IH]; intros dir; [by exists 0%nat|]. cbn [run_steps]. destruct (fault_at fault stage).
  - exists 0%nat. split; [lia|done].
  - destruct (IH (f dir)) as (n & Hn & H). exists (S n). split; [cbn; lia|]. destruct (run_steps fault steps (f dir)) as [dir' [e|]]; [done|].
    destruct H as [-> ->]. done.
Qed.

(** A save stopped anywhere leaves the newest valid envelope what it was, or what it was to become. *)
Lemma stopped_best clock rid c h g env dir n t : sound clock rid dir → prepare clock (VStr rid) c h g dir = Ok env →
  best clock rid (stopped n t env dir) = (if (commit dir <=? n)%nat then gained clock rid env (best clock rid dir) else best clock rid dir) ∧
  (_valid clock (reload (VDict env)) rid None = true → sound clock rid (stopped n t env dir)).
Proof.
  intros Hs Hp. destruct (prepare_ok _ _ _ _ _ _ _ Hp) as (_ & (cp & _ & Hseal) & Hg & _).
  unfold stopped. destruct (crash_cases n env dir) as [Hlt Hge]. destruct (commit dir <=? n)%nat eqn:E.
  - apply Nat.leb_le in E. rewrite (Hge E). unfold sound. set (bk := match d_target dir with Absent => d_backup dir | t => t end).
    assert (candidate clock rid None bk = best clock rid dir) as Hbk.
    { unfold bk. destruct (d_target dir) eqn:Et; [|symmetry; rewrite <- Et; apply best_sound; [done|by rewrite Et]..].
      destruct dir as [tg bk' b]. cbn in Et. subst tg. symmetry. apply best_candidate. }
    destruct (install_best clock rid env bk (best clock rid dir) Hg (generation_sealed _ _ _ _ _ Hseal) Hbk true) as [H1 H2]. by split.
  - apply Nat.leb_gt in E. destruct (Hlt E) as (t' & [-> | [Hne ->]]); cbv zeta; cbn [d_target d_backup].
    + done.
    + split; [|by left]. rewrite best_candidate, (best_sound _ _ _ Hs Hne). cbn [candidate]. by destruct (candidate _ _ _ (d_target dir)).
Qed.

(** Directories reached from an empty one by saves of readable checkpoints, each stopped anywhere, with the envelope
    that a reader should find. *)
Inductive history_of (clock : clock_reading) (rid : string) : Dir → option dict → Prop :=
| history_new : history_of clock rid (MkDir Absent Absent false) None
| history_save dir b c h g env n t : history_of clock rid dir b → prepare clock (VStr rid) c h g dir = Ok env →
    _valid clock (reload (VDict env)) rid None = true →
    history_of clock rid (stopped n t env dir) (if (commit dir <=? n)%nat then Some (reload_dict env) else b).

Lemma history_best clock rid dir b : history_of clock rid dir b → sound clock rid dir ∧ best clock rid dir = b.
Proof.
  induction 1 as [|dir b c h g env n t H [Hs Hb] Hp Hv]; [by split; [left|]|].
  destruct (stopped_best clock rid c h g env dir n t Hs Hp) as [H1 H2]. split; [by apply H2|]. rewrite H1, Hb. unfold gained. by rewrite Hv.
Qed.

Lemma load_best clock rid dir : _safe_id (VStr rid) = Ok rid →
  load clock (VStr rid) None None dir = match best clock rid dir with Some e => Ok e | None => Err CheckpointError end.
Proof. intros Hr. unfold load. cbn [refuse_unless ensure mbind res_bind]. rewrite Hr. cbn [mbind res_bind]. unfold best. by destruct (latest _). Qed.

Lemma save_stopped clock rid c h g fault dir dir' r : save clock (VStr rid) c h g fault dir = (dir', r) →
  (∃ e, r = Err (StoreError e) ∧ prepare clock (VStr rid) c h g dir = Err e ∧ dir' = dir) ∨
  (∃ env n, prepare clock (VStr rid) c h g dir = Ok env ∧ dir' = stopped n false env dir ∧
     (r = Ok env ∧ (commit dir ≤ n)%nat ∨ ∃ e, r = Err e)).
Proof.
  unfold save. destruct (prepare clock (VStr rid) c h g dir) as [env|e]; [|intros [= <- <-]; left; by exists e].
  intros H. right. exists env. destruct (run_steps_prefix fault (save_steps env dir) dir) as (n & Hn & Hr). exists n. split; [done|].
  destruct (run_steps fault (save_steps env dir) dir) as [d [e|]]; injection H as <- <-.
  - split; [by rewrite Hr|]. right. by exists e.
  - destruct Hr as [-> ->].
    assert (commit dir ≤ length (save_steps env dir))%nat as Hc by (unfold commit, save_steps; destruct (exists_target dir); cbn; lia).
    split; [|left; by split]. unfold stopped. rewrite (proj2 (crash_cases _ env dir) Hc). done.
Qed.

(** C15: The checkpoint store is a register that faults and crashes never tear: after any history of saves of readable
    checkpoints, each stopped after any of its steps, [load] returns the last envelope that was installed; a further save
    of a checkpoint whose envelope can be read back ([unreadable_save] has one that cannot), when it returns, is the one
    [load] returns next and has a greater generation; one that raises leaves the register as it was
    or holding the new envelope, and no temporary file; and one that is refused changes nothing. *)
Theorem store_register clock rid dir b :
  history_of clock rid dir b → _safe_id (VStr rid) = Ok rid →
  load clock (VStr rid) None None dir = match b with Some e => Ok e | None => Err CheckpointError end ∧
  ∀ c h g fault dir' r, save clock (VStr rid) c h g fault dir = (dir', r) →
    (∀ env, prepare clock (VStr rid) c h g dir = Ok env → _valid clock (reload (VDict env)) rid None = true) →
    match prepare clock (VStr rid) c h g dir with
    | Err e => r = Err (StoreError e) ∧ dir' = dir
    | Ok env => (∀ e, b = Some e → (generation_of e < generation_of env)%Z) ∧ d_temp dir' = false ∧
        ∃ b', history_of clock rid dir' b' ∧ (b' = Some (reload_dict env) ∨ b' = b ∧ is_ok r = false) ∧ (r = Ok env ∨ is_ok r = false)
    end.
Proof.
  intros Hh Hr. destruct (history_best _ _ _ _ Hh) as [Hs Hb]. split; [by rewrite load_best, Hb|].
  intros c h g fault dir' r Hsave Hv. destruct (save_stopped _ _ _ _ _ _ _ _ _ Hsave) as [(e & -> & -> & ->)|(env & n & Hp & -> & Hres)]; [done|].
  rewrite Hp. destruct (prepare_ok _ _ _ _ _ _ _ Hp) as (_ & _ & Hg & _). rewrite Hb in Hg. split; [done|]. split; [done|].
  pose proof (history_save clock rid dir b c h g env n false Hh Hp (Hv env Hp)) as H. eexists. split; [exact H|].
  destruct Hres as [[-> Hn] | (e & ->)].
  - rewrite (proj2 (Nat.leb_le _ _) Hn). by split; left.
  - split; [|by right]. destruct (commit dir <=? n)%nat; [by left|by right].
Qed.

(** ** Examples *)

Definition demo_hash : pyval := VStr (String.concat "" (replicate 8 "0123abcd")).
Definition never : string → option fault_exn := λ _, None.
Definition at_replace : string → option fault_exn := λ s, if bool_decide (s = "replace") then Some FaultOSError else None.
Definition empty_dir : Dir := MkDir Absent Absent false.
Definition demo_saved : Dir := (save no_clock (VStr "run") (inl demo_checkpoint) demo_hash (VInt 1) never empty_dir).1.
Definition demo_envelope (g : Z) : dict := match _seal "run" demo_checkpoint demo_hash (VInt g) with Ok e => e | Err _ => [] end.

Lemma demo_history : history_of no_clock "run" demo_saved (Some (reload_dict (demo_envelope 1))).
Proof.
  assert (demo_saved = stopped 5 false (demo_envelope 1) empty_dir) as -> by (vm_compute; reflexivity).
  apply (history_save no_clock "run" empty_dir None (inl demo_checkpoint) demo_hash (VInt 1) (demo_envelope 1) 5 false (history_new _ _)); vm_compute; reflexivity.
Qed.
Lemma store_register_witness :
  load no_clock (VStr "run") None None demo_saved = Ok (reload_dict (demo_envelope 1)) ∧
  d_temp (save no_clock (VStr "run") (inl demo_checkpoint) demo_hash (VInt 2) at_replace demo_saved).1 = false.
Proof.
  destruct (store_register no_clock "run" demo_saved _ demo_history eq_refl) as [Hl Hs]. split; [exact Hl|].
  assert (prepare no_clock (VStr "run") (inl demo_checkpoint) demo_hash (VInt 2) demo_saved = Ok (demo_envelope 2)) as Hp by (vm_compute; reflexivity).
  specialize (Hs (inl demo_checkpoint) demo_hash (VInt 2) at_replace _ _ (surjective_pairing _)). rewrite Hp in Hs.
  destruct Hs as (_ & Ht & _); [|exact Ht]. intros env H. apply ok_inj in H as <-. vm_compute. reflexivity.
Defined.

(** A fault while the target is replaced leaves the backup to load; the next save goes on. *)
Example interrupted :
  let d := (save no_clock (VStr "run") (inl demo_checkpoint) demo_hash (VInt 2) at_replace demo_saved).1 in
  d_target d = Absent ∧ generation_of <$> load no_clock (VStr "run") None None d = Ok 1%Z ∧
  generation_of <$> load no_clock (VStr "run") None None (save no_clock (VStr "run") (inl demo_checkpoint) demo_hash (VInt 2) never d).1 = Ok 2%Z.
Proof. vm_compute. done. Qed.
Example stale : (save no_clock (VStr "run") (inl demo_checkpoint) demo_hash (VInt 1) never demo_saved).2 = Err (StoreError CheckpointError).
Proof. vm_compute. done. Qed.
(** An orphan is failed and saved under the next generation. *)
Example demo_recover :
  let '(d, r) := resume no_clock (VStr "run") None None (Some (AtNum (NInt 20))) (NInt 300) demo_saved in
  (λ e, (dget "orphaned" e, dget "resume_tasks" e, dget "completed_tasks" e)) <$> r =
    Ok (Some (VList [VStr "b"]), Some (VList [VStr "b"; VStr "c"]), Some (VList [VStr "a"])) ∧
  generation_of <$> load no_clock (VStr "run") None None d = Ok 2%Z.
Proof. vm_compute. done. Qed.

(** A task whose id mentions a token: the save succeeds, and nothing can be loaded. *)
Definition token_checkpoint : Checkpoint := MkCheckpoint (VInt 1) (VStr "f") (VInt 0) [(VStr "rotate-token", VDict [])] [] (VList []) (VList []) (VList []) (VStr "now").
Example unreadable_save :
  let '(d, r) := save no_clock (VStr "run") (inl token_checkpoint) demo_hash (VInt 1) never empty_dir in
  is_ok r = true ∧ load no_clock (VStr "run") None None d = Err CheckpointError.
Proof. vm_compute. done. Qed.

(** A damaged target is moved over the good backup before the new envelope is installed. *)
Example backup_lost :
  let d := MkDir Unreadable (d_target demo_saved) false in
  is_ok (load no_clock (VStr "run") None None d) = true ∧
  is_ok (load no_clock (VStr "run") None None (save no_clock (VStr "run") (inl demo_checkpoint) demo_hash (VInt 2) at_replace d).1) = false.
Proof. vm_compute. done. Qed.

(** The strings of a tuple are not redacted. *)
Example tuple_leak : _redact (VList [VTuple [VStr "https://host/path"]; VStr "at https://host/path or /etc/x"]) =
  VList [VTuple [VStr "https://host/path"]; VStr "at [URL REDACTED] or [PATH REDACTED]"].
Proof. vm_compute. done. Qed.
