(* ===== verification/OrchestratorParts.v ===== *)
(** * The orchestrator's checks and reports (scripts/pd_fleet/orchestrator.py)

    The pure parts of the orchestrator: redaction of reports, copies of hostile
    values, agents, inputs and conditions of a task, the completion contract,
    the match of retryable errors, waves, and the gates that release a wave.
    The library's components are used under their names. *)

From S2P Require Import Prelude PyStr PyNum PyVal Regex Redaction SafeRendering.
From S2P Require Models Validation Gates Canonical Checkpoint.

Open Scope string_scope.

Notation dict := (list (pyval * pyval)).
Notation TaskSpec := Models.TaskSpec.
Notation FleetPlan := Models.FleetPlan.

(** ** Redaction *)

Definition backslash : ascii := ascii_of_nat 92.
Definition path_part : re := rplus (RChar (λ c, negb (is_space c || is_quote c || one_of "<>;," c))).
Definition _REPORT_PATH_RE : re :=
  rseq [RNotAfter (λ c, is_word c || Ascii.eqb c ".");
        ralt [rseq [RChar is_alpha; rchr ":"; RChar (λ c, Ascii.eqb c "/" || Ascii.eqb c backslash); path_part];
              rseq [rchr "/"; path_part];
              rseq [RChar (Ascii.eqb backslash); RChar (Ascii.eqb backslash); path_part]]].
Definition _REPORT_SECRET_RE : re :=
  rseq [RWordBoundary; ralt [rseq [rlit_ci "bearer"; rplus rspace; rplus rnonspace];
                             rseq [rlit_ci "sk-"; rplus (RChar (λ c, is_alnum c || one_of "_-" c))]]].
Definition _REPORT_ASSIGNMENT_RE : re :=
  RGroup 0 (rseq [RNotAfter is_alnum; RGroup 1 (rseq [RChar is_alpha; rbetween 1 80 (RChar (λ c, is_alnum c || one_of "_.-" c))]);
                  rstar rspace; rchr ":="; rstar rspace; RGroup 2 (rplus (rnot_space ",;"))]).
Definition _SENSITIVE_KEYS : list string :=
  ["secret"; "token"; "password"; "credential"; "apikey"; "accesskey"; "privatekey"; "authorization"; "bearer"].
Definition sensitive (name : string) : bool := existsb (contains name) _SENSITIVE_KEYS.
Definition drop_chars (p : ascii → bool) (s : string) : string :=
  String.string_of_list_ascii (List.filter (λ c, negb (p c)) (String.list_ascii_of_string s)).
Definition redact_assignment (m : mstate) : string :=
  if sensitive (drop_chars (one_of "_-") (lower (group 1 m))) then group 1 m +:+ "=[redacted-secret]" else group 0 m.

Definition _sanitize_text (value : pyval) (default : option string) : option string :=
  match value with
  | VStr text =>
      let text := sub _EXTERNAL_URL (λ _, "[redacted-url]") text in
      let text := sub _REPORT_PATH_RE (λ _, "[redacted-path]") text in
      let text := sub _REPORT_SECRET_RE (λ _, "[redacted-secret]") text in
      Some (sub _REPORT_ASSIGNMENT_RE redact_assignment text)
  | _ => default
  end.
(** [_sanitize_text(value, default) or default] *)
Definition sanitize_or (value : pyval) (default : string) : string :=
  match _sanitize_text value (Some default) with Some "" | None => default | Some s => s end.
Definition text_value (o : option string) : pyval := match o with Some s => VStr s | None => VNone end.
Definition is_low_alnum (c : ascii) : bool := is_lower c || is_digit c.

Fixpoint _sanitize_payload (value : pyval) : pyval :=
  match value with
  | VNone | VBool _ | VInt _ => value
  | VStr _ => text_value (_sanitize_text value None)
  | VFloat f => if is_finite f then value else VNone
  | VDict kvs | VProxy kvs =>
      VDict (foldl (λ acc kv, dset kv.1 kv.2 acc) []
        (map (λ kv, let name := sanitize_or kv.1 "key" in
                    (name, if sensitive (drop_chars (λ c, negb (is_low_alnum c)) (lower name)) then VStr "[redacted-secret]" else _sanitize_payload kv.2)) kvs))
  | VList l | VTuple l => VList (map _sanitize_payload l)
  | VOther _ => VStr "[redacted-value]"
  end.

(** [_strict_copy]: [None] is [ValueError]. *)
Fixpoint _strict_copy (value : pyval) : option pyval :=
  match value with
  | VNone | VStr _ | VBool _ | VInt _ => Some value
  | VFloat f => if is_finite f then Some value else None
  | VDict kvs | VProxy kvs =>
      VDict <$> mapM (λ kv, match kv.1 with
                            | VStr k => if blank k then None else w ← _strict_copy kv.2; Some (VStr k, w)
                            | _ => None end) kvs
  | VList l | VTuple l => VList <$> mapM _strict_copy l
  | VOther _ => None
  end.

Definition _V2_KEY_ALIASES : list (string * string) :=
  [("schemaVersion", "schema_version"); ("planHash", "plan_hash"); ("runId", "run_id"); ("taskId", "task_id"); ("agentId", "agent_id");
   ("maxParallel", "max_parallel"); ("eventSequence", "event_sequence"); ("checkpointId", "checkpoint_id"); ("leaseId", "lease_id");
   ("dependsOn", "depends_on"); ("allowedPaths", "allowed_paths"); ("acceptanceCriteria", "acceptance_criteria");
   ("validationCommands", "validation_commands"); ("blockedWhen", "blocked_when"); ("retryPolicy", "retry_policy");
   ("maxAttempts", "max_attempts"); ("backoffSeconds", "backoff_seconds"); ("retryableErrors", "retryable_errors"); ("agentRole", "agent_role")].
Definition alias_of (key : string) : string := default key (snd <$> List.find (λ a, bool_decide (a.1 = key)) _V2_KEY_ALIASES).
(** On a strict copy; [None] is [ValueError]: two spellings of a key disagree. *)
Fixpoint _runtime_aliases (value : pyval) : option pyval :=
  match value with
  | VDict kvs =>
      pairs ← mapM (λ kv, w ← _runtime_aliases kv.2; Some (alias_of (key_str kv), w)) kvs;
      VDict <$> foldl (λ acc kw, d ← acc; if match dget kw.1 d with Some old => negb (py_eqb old kw.2) | None => false end then None else Some (dset kw.1 kw.2 d)) (Some []) pairs
  | VList l => VList <$> mapM _runtime_aliases l
  | _ => Some value
  end.

(** ** Reports *)

Record TaskReport : Type := MkTaskReport {
  tr_task_id : string; tr_wave : pyval; tr_status : string; tr_attempt : Z; tr_output : pyval; tr_evidence : pyval;
  tr_error : pyval; tr_reason : pyval; tr_agent_id : pyval; tr_role : pyval; tr_outputs : pyval; tr_tests : pyval;
  tr_blockers : pyval; tr_assumptions : pyval; tr_decisions : pyval; tr_timestamps : pyval }.
Definition or_value (v d : pyval) : pyval := if is_none v then d else v.
Definition report_dict (r : TaskReport) : dict :=
  [(VStr "task_id", VStr (tr_task_id r)); (VStr "wave", tr_wave r); (VStr "status", VStr (tr_status r)); (VStr "attempt", VInt (tr_attempt r));
   (VStr "output", tr_output r); (VStr "outputs", or_value (tr_outputs r) (tr_output r)); (VStr "agent_id", tr_agent_id r); (VStr "role", tr_role r);
   (VStr "evidence", tr_evidence r); (VStr "error", tr_error r); (VStr "reason", tr_reason r); (VStr "tests", or_value (tr_tests r) (VList []));
   (VStr "blockers", or_value (tr_blockers r) (VList [])); (VStr "assumptions", or_value (tr_assumptions r) (VList []));
   (VStr "decisions", or_value (tr_decisions r) (VList [])); (VStr "timestamps", or_value (tr_timestamps r) (VDict []))].

(** ** Agents *)

Definition subset (l k : list string) : bool := forallb (λ x, bool_decide (x ∈ k)) l.
Definition fits (t : TaskSpec) (a : Models.AgentSpec) : bool :=
  bool_decide (Models.ag_role a = Models.t_role t) && subset (Models.t_capabilities t) (Models.ag_capabilities a).
Definition sorted_strings (l : list string) : pyval := VList (map VStr (sort_strings (remove_dups l))).
Definition agent_matching (fields : dict) : pyval := VDict [(VStr "agent_matching", VDict fields)].
Definition repr128 (s : string) : string := safe_repr (VStr s) UNSUPPORTED_TYPE 128.

(** [_agent_block]: why no agent can take the task, and the evidence.  The
    owner is one of the candidates exactly when it fits. *)
Definition _agent_block (p : FleetPlan) (t : TaskSpec) : option (string * pyval) :=
  match Models.agents p with
  | [] => None
  | ags =>
      let required := sorted_strings (Models.t_capabilities t) in
      match Models.t_owner t with
      | Some owner =>
          match List.find (λ a, bool_decide (Models.ag_id a = owner)) ags with
          | None => Some (u8 "owner incompatível: agente " +:+ repr128 owner +:+ u8 " não existe",
                          agent_matching [(VStr "owner", VStr owner); (VStr "role", VStr (Models.t_role t)); (VStr "capabilities", required); (VStr "candidates", VList [])])
          | Some a =>
              if fits t a then None else
              Some (u8 "owner incompatível: agente " +:+ repr128 owner +:+ u8 " não atende role/capabilities",
                    agent_matching [(VStr "owner", VStr (Models.ag_id a)); (VStr "role", VStr (Models.t_role t)); (VStr "capabilities", required);
                      (VStr "missing_capabilities", sorted_strings (List.filter (λ c, negb (bool_decide (c ∈ Models.ag_capabilities a))) (Models.t_capabilities t)));
                      (VStr "agent_role", VStr (Models.ag_role a))])
          end
      | None =>
          if existsb (fits t) ags then None else
          Some (u8 "nenhum agente compatível para role " +:+ repr128 (Models.t_role t) +:+ " e capabilities " +:+ safe_repr_list required UNSUPPORTED_TYPE 128,
                agent_matching [(VStr "role", VStr (Models.t_role t)); (VStr "capabilities", required); (VStr "candidates", VList (map (λ a, VStr (Models.ag_id a)) ags))])
      end
  end.
Definition _agent_compatible (p : FleetPlan) (t : TaskSpec) : bool := match _agent_block p t with None => true | Some _ => false end.

(** ** Inputs and conditions

    The context of a run: [None] when the caller supplied none. *)

Definition in_strings (s : string) (v : pyval) : bool :=
  match v with VList l | VTuple l => existsb (λ x, py_eqb (VStr s) x) l | _ => false end.
(** [None] is the [TypeError] of a value that is no iterable. *)
Definition _missing_inputs (context : option dict) (t : TaskSpec) : option (list string) :=
  match context with
  | None => Some []
  | Some ctx =>
      declared ← (match entries (Models.t_inputs t) with
                  | Some kvs => Some (map fst kvs)
                  | None => if truthy (Models.t_inputs t) then iterate (Models.t_inputs t) else Some [] end);
      Some (List.filter (λ s, negb (dhas s ctx) && negb (in_strings s (dget_or VNone "available_inputs" ctx))) (map py_str declared))
  end.

Definition condition_re : re :=
  rseq [RStart; RGroup 1 (rplus (RChar (λ c, is_word c || one_of ".-" c))); rstar rspace; ralt [rlit "=="; rlit "="; rlit_ci "is"]; rstar rspace;
        RGroup 2 (rplus rdot); REnd].
Definition condition_holds (ctx : dict) (condition : string) : bool :=
  let text := strip condition in
  match dget text ctx with
  | Some v => truthy v
  | None =>
      match match_at condition_re (at_start text) with
      | Some m => match dget (group 1 m) ctx with
                  | Some v => let expected := strip_by is_quote (strip (group 2 m)) in bool_decide (lower (py_str v) = lower expected)
                  | None => true
                  end
      | None => true
      end
  end.
Definition _blocked_condition (context : option dict) (t : TaskSpec) : bool :=
  match context with None => false | Some ctx => existsb (condition_holds ctx) (Models.t_blocked_when t) end.

(** ** Completion *)

Definition same_keys (d : dict) (names : list string) : bool := negb (has_unknown names d) && forallb (λ n, dhas n d) names.
Definition simulated (evidence : dict) : bool := key_is "simulated" (dget_or VNone "adapter" evidence).
(** [v not in (None, "", [], {}, ())] *)
Definition meaningful (v : pyval) : bool := negb (existsb (py_eqb v) [VNone; VStr ""; VList []; VDict []; VTuple []]).
Definition py_or (a b : pyval) : pyval := if truthy a then a else b.
Definition normalized_output (names : list string) (output : pyval) (evidence : pyval) : option dict :=
  match entries output with
  | Some d =>
      if same_keys d names then Some (foldl (λ acc n, dset n (dget_or VNone n d) acc) [] names)
      else match names with
           | [n] => if dhas "output" d && match entries evidence with Some e => simulated e | None => false end
                    then Some [(VStr n, dget_or VNone "output" d)] else None
           | _ => None
           end
  | None => match names with [n] => Some [(VStr n, output)] | _ => None end
  end.
Definition acceptance_of (e : dict) : pyval :=
  let get k := dget_or VNone k e in
  py_or (get "acceptance") (py_or (get "acceptance_metadata") (py_or (get "acceptance_criteria") (get "validation"))).
Definition is_false (v : pyval) : bool := match v with VBool false => true | _ => false end.
Definition is_true (v : pyval) : bool := match v with VBool true => true | _ => false end.
Definition _normalize_completion (t : TaskSpec) (output evidence : pyval) : option (pyval * pyval) :=
  let names := map Models.o_name (Models.t_outputs t) in
  match names with
  | [] => None
  | _ =>
      if is_none output || is_none evidence then None else
      out ← normalized_output names output evidence;
      match entries evidence with
      | None | Some [] => None
      | Some e =>
          if negb (existsb (λ kv, meaningful kv.2) e) then None else
          let acceptance := acceptance_of e in
          if (match Models.t_acceptance_criteria t with [] => false | _ => true end) && negb (truthy acceptance) &&
             negb (simulated e && is_true (dget_or VNone "deterministic" e) && truthy (dget_or VNone "fingerprint" e)) then None else
          if is_false acceptance || match entries acceptance with Some a => is_false (dget_or VNone "passed" a) | None => false end then None else
          Some (_sanitize_payload (VDict out), _sanitize_payload evidence)
      end
  end.

(** ** Retryable errors *)

Definition to_words (s : string) : string := strip (sub (rplus (RChar (λ c, negb (is_low_alnum c)))) (λ _, " ") (lower s)).
Definition edge_before : re := ralt [RStart; rlit " "].
Definition edge_after : re := ralt [REnd; rlit " "].
Definition not_re (candidate : string) : re :=
  rseq [edge_before; rlit "not "; ropt (ralt [rlit "transient"; rlit "retryable"]); ropt (rlit " "); rlit candidate; edge_after].
Definition token_matches (normalized candidate : string) : bool :=
  if negb (nonempty candidate) then false
  else if contains candidate " " then bool_decide (candidate = normalized) || search (rseq [edge_before; rlit candidate; edge_after]) normalized
  else bool_decide (candidate ∈ split_on " " normalized) && negb (search (not_re candidate) normalized).
Definition _retry_error_matches (error : string) (tokens : list string) : bool :=
  let normalized := to_words error in existsb (λ t, token_matches normalized (to_words t)) tokens.

(** ** Waves *)

Definition _wave (t : TaskSpec) : string := py_str (Models.t_wave t).
Definition _wave_key (value : string) : string := removeprefix (lower (strip value)) "wave-".
Definition _wave_number (value : string) : Z := match int_of_str (_wave_key value) with Some n => Z.max 0 n | None => 0%Z end.
(** [str.isdigit] below U+0100: the superscripts are digits that [int] refuses. *)
Definition is_unidigit (c : ascii) : bool := is_digit c || between 178 179 c || (code c =? 185)%nat.
Definition isdigit (s : string) : bool := nonempty s && str_forallb is_unidigit s.
(** [None] is the [ValueError] of [int]. *)
Definition order_key (x : string) : option (Z + string) :=
  let y := removeprefix x "wave-" in
  if isdigit y then inl <$> int_of_str y else Some (inr x).
Definition order_leb (a b : (Z + string) * string) : bool := Validation.key_leb a.1 b.1.
(** The waves in order.  Waves of equal numbers ("1" and "01") stay in the order
    in which a set of their names is iterated, which the code leaves open: here
    it is the order of the plan. *)
Definition _ordered_waves (p : FleetPlan) : option (list string) :=
  keyed ← mapM (λ w, k ← order_key w; Some (k, w)) (remove_dups (map _wave (Models.tasks p)));
  Some (map snd (sort_by order_leb keyed)).

(** ** Gates *)

Definition str_items (v : pyval) : option (list string) := elems v ≫= mapM as_str.
Definition GATE_SCOPE_KEYS : list string := ["schema_version"; "plan_hash"; "tasks"; "waves"].
Definition _canonical_gate_scope (value : pyval) : option pyval :=
  d ← entries value;
  if negb (negb (has_unknown GATE_SCOPE_KEYS d) && forallb (λ k, dhas k d) GATE_SCOPE_KEYS) then None else
  match dget_or VNone "schema_version" d, dget_or VNone "plan_hash" d with
  | VStr v, VStr h =>
      ts ← str_items (dget_or VNone "tasks" d);
      ws ← str_items (dget_or VNone "waves" d);
      Some (VDict [(VStr "schema_version", VStr v); (VStr "plan_hash", VStr h); (VStr "tasks", VList (map VStr (sort_strings ts)));
                   (VStr "waves", sorted_strings ws)])
  | _, _ => None
  end.

(** What is configured under a gate's name. *)
Inductive gate_value : Type :=
| GHuman (h : Gates.HumanVerificationGate)
| GResult (g : Gates.GateResult)
| GMapping (v : pyval)
| GOther.

Definition HUMAN_KEYS : list string := ["owner"; "identity"; "decision"; "scope"; "evidence_digest"; "artifact_digest"; "freshness_window"].
Definition governance (type : string) : bool := bool_decide (type ∈ ["review"; "grill"]).
Definition passed_status (r : res Gates.gate_error Gates.GateStatus) : bool := match r with Ok Gates.PASSED => true | _ => false end.
(** The run and the scope of a human gate are those expected. *)
Definition bound (run scope expected_run expected_scope : pyval) : bool :=
  match expected_run with VStr r => negb (blank r) | _ => false end && negb (is_none expected_scope) &&
  match _canonical_gate_scope expected_scope with
  | Some current => py_eqb run expected_run && match _canonical_gate_scope scope with Some actual => py_eqb actual current | None => false end
  | None => false
  end.
Definition human_allows (wall : Z) (h : Gates.HumanVerificationGate) (expected_run expected_scope : pyval) : bool :=
  passed_status (Gates.evaluate_human h None VNone VNone VNone None expected_run expected_scope wall).
Definition contract_allows (v : Gates.GateResult + pyval) : bool := match Gates.allows Gates.default_policy v with Ok b => b | Err _ => false end.

(** [wall] is the reading of the wall clock. *)
Definition _gate_passed (wall : Z) (gate : option gate_value) (expected_run expected_scope : pyval) : bool :=
  match gate with
  | None | Some GOther => false
  | Some (GHuman h) =>
      bound (VStr (Gates.h_run h)) (Gates.h_scope h) expected_run expected_scope && human_allows wall h expected_run expected_scope
  | Some (GResult g) => if governance (Gates.gate_type g) then false else contract_allows (inl g)
  | Some (GMapping v) =>
      match entries v with
      | None => false
      | Some d =>
          if forallb (λ k, dhas k d) HUMAN_KEYS && (dhas "run" d || dhas "run_id" d) then
            bound (dget_or (dget_or VNone "run_id" d) "run" d) (dget_or VNone "scope" d) expected_run expected_scope &&
            match Gates.human_from_dict v true with Ok h => human_allows wall h expected_run expected_scope | Err _ => false end
          else if governance (py_str (dget_or (dget_or (dget_or VNone "type" d) "kind" d) "gate_type" d)) then false
          else if dhas "gate_id" d || dhas "gate_type" d then contract_allows (inr v) else false
      end
  end.

(** The V2 hash of the plan: of the document it was given as when that was a
    V2 plan.  [None] is [OrchestratorError]. *)
Definition V2_PLAN_SCHEMA_VERSION : string := "pd-fleet-plan:v2".
Definition _plan_digest (canonical : option dict) (p : FleetPlan) : option string :=
  payload ← (match canonical with Some d => Some d | None => d ← Models.to_dict p; entries d end);
  match Canonical.plan_hash (VDict (dset "schema_version" (VStr V2_PLAN_SCHEMA_VERSION) payload)) with Ok h => Some h | Err _ => None end.
Definition _gate_scope (canonical : option dict) (p : FleetPlan) : option pyval :=
  h ← _plan_digest canonical p;
  Some (VDict [(VStr "schema_version", VStr "pd-fleet-gate-scope:v1"); (VStr "plan_hash", VStr h);
    (VStr "tasks", VList (map VStr (sort_strings (map Models.t_id (Models.tasks p)))));
    (VStr "waves", sorted_strings (map _wave (Models.tasks p)))]).

(** ** Examples *)

Example sanitize_payload_ex : _sanitize_payload (VDict [(VStr "log", VStr "see https://h/x and /etc/y, api_key=abc bearer q1"); (VStr "API-Key", VInt 1); (VInt 2, VTuple [VNone])]) =
  VDict [(VStr "log", VStr "see [redacted-url] and [redacted-path], api_key=[redacted-secret] [redacted-secret]"); (VStr "API-Key", VStr "[redacted-secret]"); (VStr "key", VList [VNone])].
Proof. vm_compute. reflexivity. Qed.
Example retry_ex : map (λ e, _retry_error_matches e ["rate-limit"; "transient"]) ["Rate limit hit"; "not transient"; "a transient error"; "intransient"] = [true; false; true; false].
Proof. vm_compute. reflexivity. Qed.
Example condition_ex : map (condition_holds [(VStr "env", VStr "Prod"); (VStr "flag", VBool false)]) ["flag"; "env == 'prod'"; "env is dev"; "unknown"] = [false; true; false; true].
Proof. vm_compute. reflexivity. Qed.
Example waves_ex : (order_key <$> ["wave-2"; "10"; "wave-1"; "x"]) = [Some (inl 2%Z); Some (inl 10%Z); Some (inl 1%Z); Some (inr "x")] ∧ order_key (String (ascii_of_nat 178) "") = None.
Proof. vm_compute. done. Qed.
