(* ===== verification/Orchestrator.v ===== *)
(** * The orchestrator (scripts/pd_fleet/orchestrator.py)

    The serial run of a plan: which tasks are ready, how one is dispatched with
    its retries, what is recorded, and how tasks that cannot go on are blocked.
    The state is that of the [FleetOrchestrator] object, with the counters of
    the clock readings and calls it made and the trace of what its hooks, its
    dispatcher and its sleeper receive.  The injected callables are functions
    of the number of the call; hooks are taken to define every method and not
    to raise. *)

From S2P Require Import Prelude PyStr PyNum PyVal SafeRendering Lifecycle OrchestratorParts.
From S2P Require Models Validation Canonical ReportV2.

Open Scope string_scope.

Inductive orch_error : Type :=
| OrchestratorError
| OrchLifecycleError (e : lc_error)
| OrchTypeError
| OrchValueError
| OrchAttributeError
| OrchKeyError
| OrchFuel.
#[export] Instance orch_error_eq_dec : EqDecision orch_error.
Proof. solve_decision. Defined.

(** What leaves the orchestrator, in order. *)
Inductive effect : Type :=
| EDispatch (task_id : string) (attempt : Z)
| ELifecycle (l : TaskLifecycle)
| EReport (report : dict)
| EEvidence (task_id : string) (evidence : pyval)
| ECheckpoint (snapshot : dict)
| ESave (snapshot : dict)
| ECommit (report : pyval)
| ESleep (seconds : pynum).

(** What the dispatcher does: it raises, or replies with an object or mapping
    whose fields are read. *)
Inductive reply : Type :=
| Raised
| Replied (status output evidence error reason : pyval).

Record orch : Type := MkOrch {
  lifecycles : gmap string TaskLifecycle;
  reports : list pyval;
  dry_run_seen : list string;
  current_wave : Z;
  last_wave : Z;
  committed_attempts : list (string * Z);
  clock_reads : nat;
  gate_rounds : nat;
  dispatches : nat;
  commits : nat;
  trace : list effect }.

Section setters.
  Context (s : orch).
Definition set_lifecycles (x : gmap string TaskLifecycle) : orch :=
    MkOrch x s.(reports) s.(dry_run_seen) s.(current_wave) s.(last_wave) s.(committed_attempts) s.(clock_reads) s.(gate_rounds) s.(dispatches) s.(commits) s.(trace).
Definition add_report (r : pyval) : orch :=
    MkOrch s.(lifecycles) (s.(reports) ++ [r]) s.(dry_run_seen) s.(current_wave) s.(last_wave) s.(committed_attempts) s.(clock_reads) s.(gate_rounds) s.(dispatches) s.(commits) s.(trace).
Definition add_seen (i : string) : orch :=
    MkOrch s.(lifecycles) s.(reports) (i :: s.(dry_run_seen)) s.(current_wave) s.(last_wave) s.(committed_attempts) s.(clock_reads) s.(gate_rounds) s.(dispatches) s.(commits) s.(trace).
Definition set_wave (w : Z) : orch :=
    MkOrch s.(lifecycles) s.(reports) s.(dry_run_seen) w w s.(committed_attempts) s.(clock_reads) s.(gate_rounds) s.(dispatches) s.(commits) s.(trace).
Definition add_committed (k : string * Z) : orch :=
    MkOrch s.(lifecycles) s.(reports) s.(dry_run_seen) s.(current_wave) s.(last_wave) (k :: s.(committed_attempts)) s.(clock_reads) s.(gate_rounds) s.(dispatches) s.(commits) s.(trace).
Definition count_clock : orch :=
    MkOrch s.(lifecycles) s.(reports) s.(dry_run_seen) s.(current_wave) s.(last_wave) s.(committed_attempts) (S s.(clock_reads)) s.(gate_rounds) s.(dispatches) s.(commits) s.(trace).
Definition count_round : orch :=
    MkOrch s.(lifecycles) s.(reports) s.(dry_run_seen) s.(current_wave) s.(last_wave) s.(committed_attempts) s.(clock_reads) (S s.(gate_rounds)) s.(dispatches) s.(commits) s.(trace).
Definition count_dispatch : orch :=
    MkOrch s.(lifecycles) s.(reports) s.(dry_run_seen) s.(current_wave) s.(last_wave) s.(committed_attempts) s.(clock_reads) s.(gate_rounds) (S s.(dispatches)) s.(commits) s.(trace).
Definition count_commit : orch :=
    MkOrch s.(lifecycles) s.(reports) s.(dry_run_seen) s.(current_wave) s.(last_wave) s.(committed_attempts) s.(clock_reads) s.(gate_rounds) s.(dispatches) (S s.(commits)) s.(trace).
Definition add_effect (e : effect) : orch :=
    MkOrch s.(lifecycles) s.(reports) s.(dry_run_seen) s.(current_wave) s.(last_wave) s.(committed_attempts) s.(clock_reads) s.(gate_rounds) s.(dispatches) s.(commits) (s.(trace) ++ [e]).
End setters.

Definition O (A : Type) : Type := stm orch orch_error A.
Definition emit (e : effect) : O unit := modify (λ s, add_effect s e).

(** A method call on the lifecycle of a task. *)
Definition on_life {A} (i : string) (m : lc A) : O A := λ s,
  match s.(lifecycles) !! i with
  | None => (s, Err OrchKeyError)
  | Some l => match m l with (l', r) => (set_lifecycles s (<[i := l']> s.(lifecycles)), map_err OrchLifecycleError r) end
  end.
Definition get_life (i : string) : O TaskLifecycle := λ s,
  match s.(lifecycles) !! i with None => (s, Err OrchKeyError) | Some l => (s, Ok l) end.

Fixpoint for_each {A} (f : A → O unit) (l : list A) : O unit :=
  match l with [] => mret () | x :: l => _ ← f x; for_each f l end.

Section orchestrator.
  Context (plan : FleetPlan) (canonical : option dict) (max_parallel : nat) (timeout_seconds : option spec_float) (dry_run : bool)
    (gates : list (string * gate_value)) (gate_dict : gate_value → pyval) (context : option dict) (run_id : pyval) (feature created_at : string)
    (reconciliation : option (string * pyval))
    (clock : nat → spec_float) (wall : nat → string → Z) (dispatch : nat → TaskSpec → Z → reply) (commit : option (nat → pyval → bool)).

Definition by_id (i : string) : option TaskSpec := List.find (λ t, bool_decide (Models.t_id t = i)) (Models.tasks plan).
Definition sorted_ids : list string := sort_strings (map Models.t_id (Models.tasks plan)).
Definition task_of (i : string) : O TaskSpec := lift_res (match by_id i with Some t => Ok t | None => Err OrchKeyError end).

Definition read_clock : O spec_float := λ s, (count_clock s, Ok (clock s.(clock_reads))).
Definition notify (i : string) : O unit := l ← get_life i; emit (ELifecycle l).

(** ** Checkpoints *)

Definition life_record (i : string) (l : TaskLifecycle) : dict :=
    [(VStr "task_id", VStr i); (VStr "status", VStr (state_value (state l))); (VStr "attempt", VInt (attempt l)); (VStr "max_attempts", VInt (max_attempts l));
     (VStr "outputs", _sanitize_payload (outputs l)); (VStr "evidence", _sanitize_payload (evidence l));
     (VStr "reason", text_value (_sanitize_text (Checkpoint.opt_text (reason l)) None)); (VStr "error", text_value (_sanitize_text (Checkpoint.opt_text (error l)) None));
     (VStr "retryable", VBool (retryable l)); (VStr "history", _sanitize_payload (VList (map Checkpoint.history_dict (history l))));
     (VStr "agent", Checkpoint.opt_text (agent l)); (VStr "heartbeat", Checkpoint.opt_float (heartbeat l)); (VStr "started_at", Checkpoint.opt_float (started_at l));
     (VStr "finished_at", Checkpoint.opt_float (finished_at l)); (VStr "final_report", _sanitize_payload (final_report l)); (VStr "report_final", _sanitize_payload (report_final l))].
Definition ids : list string := map Models.t_id (Models.tasks plan).
Definition per_life {A} (f : string → TaskLifecycle → A) (s : orch) : list A :=
    omap (λ i, f i <$> s.(lifecycles) !! i) ids.
Definition agent_record (a : Models.AgentSpec) : pyval * pyval :=
    (VStr (Models.ag_id a), VDict [(VStr "id", VStr (Models.ag_id a)); (VStr "role", VStr (Models.ag_role a));
       (VStr "capabilities", VList (map VStr (Models.ag_capabilities a))); (VStr "status", VStr (Models.ag_status a))]).
Definition checkpoint_snapshot (s : orch) (evidences : list pyval) : dict :=
    [(VStr "schema_version", VInt 1); (VStr "feature", VStr feature); (VStr "wave", VInt s.(current_wave)); (VStr "last_wave", VInt s.(last_wave));
     (VStr "created_at", VStr created_at); (VStr "tasks", VDict (map (λ i, (VStr i, VDict [(VStr "id", VStr i)])) ids));
     (VStr "lifecycle", VDict (per_life (λ i l, (VStr i, VDict (life_record i l))) s));
     (VStr "reports", _sanitize_payload (VList s.(reports))); (VStr "evidence", VList evidences);
     (VStr "blockers", VList (map VStr (omap id (per_life (λ i l, if bool_decide (state l = BLOCKED) then Some i else None) s))));
     (VStr "attempts", VDict (per_life (λ i l, (VStr i, VInt (attempt l))) s));
     (VStr "gates", VDict (map (λ g, (VStr g.1, _sanitize_payload (gate_dict g.2))) gates));
     (VStr "agents", VDict (map agent_record (Models.agents plan)))].
(** [r.get("evidence")] of every report: a report that is no mapping raises. *)
Definition _checkpoint : O unit :=
    s ← get_state;
    evidences ← lift_res (mapM (λ r, match entries r with Some d => Ok (_sanitize_payload (dget_or VNone "evidence" d)) | None => Err OrchAttributeError end) s.(reports));
    _ ← emit (ECheckpoint (checkpoint_snapshot s evidences));
    emit (ESave (checkpoint_snapshot s evidences)).

(** ** Recording and blocking *)

Definition publish (t : TaskSpec) (report : dict) (evid : pyval) : O unit :=
    _ ← ensure_st (copyable (Models.t_wave t)) OrchTypeError;
    _ ← modify (λ s, add_report s (VDict report));
    _ ← emit (EReport report);
    emit (EEvidence (Models.t_id t) evid).
Definition _record (t : TaskSpec) (out evid err why : pyval) : O unit :=
    l ← get_life (Models.t_id t);
    publish t (report_dict (MkTaskReport (Models.t_id t) (Models.t_wave t) (state_value (state l)) (attempt l) (_sanitize_payload out) (_sanitize_payload evid)
      (text_value (_sanitize_text err None)) (text_value (_sanitize_text why None)) (Checkpoint.opt_text (Models.t_owner t)) (VStr (Models.t_role t))
      (_sanitize_payload out) VNone (if bool_decide (state l = BLOCKED) && truthy why then VList [why] else VList []) VNone VNone (VDict []))) evid.

Definition _block_with_report (t : TaskSpec) (why : string) (evid : pyval) : O unit :=
    _ ← on_life (Models.t_id t) (block why);
    _ ← _record t VNone evid VNone (VStr why);
    _ ← notify (Models.t_id t);
    _checkpoint.

Definition _mark_dry_run (t : TaskSpec) : O unit :=
    _ ← modify (λ s, add_seen s (Models.t_id t));
    l ← get_life (Models.t_id t);
    let evid := VDict [(VStr "dry_run", VBool true)] in
    publish t (report_dict (MkTaskReport (Models.t_id t) (Models.t_wave t) "dry_run" (attempt l) (VDict [(VStr "would_dispatch", VBool true)]) evid
      VNone (VStr "dry_run") VNone VNone VNone VNone VNone VNone VNone VNone)) evid.

Definition finished (st : LifecycleState) : bool := bool_decide (st ∈ [COMPLETED; FAILED; BLOCKED; SKIPPED]).
Definition waiting (st : LifecycleState) : bool := bool_decide (st ∈ [PENDING; READY]).
Definition dependency_lost (t : TaskSpec) : O bool :=
    s ← get_state;
    deps ← lift_res (mapM (λ d, match s.(lifecycles) !! d with Some l => Ok (state l) | None => Err OrchKeyError end) (Models.t_depends_on t));
    mret (existsb (λ st, bool_decide (st ∈ [FAILED; BLOCKED])) deps).
Definition block_one (i : string) : O unit :=
    l ← get_life i;
    if finished (state l) then mret () else
    t ← task_of i;
    match _agent_block plan t with
    | Some (why, evid) => _block_with_report t why evid
    | None =>
        lost ← dependency_lost t;
        if (lost : bool) then _ ← on_life i (block "dependency failed or blocked"); _ ← notify i; _checkpoint else mret ()
    end.
Definition _block_unresolvable : O unit := for_each block_one sorted_ids.

(** ** Gates and ready tasks *)

Definition gate_named (g : string) : option gate_value := snd <$> List.find (λ kv, bool_decide (kv.1 = g)) gates.
(** The names among [names] whose gate passes now: one reading of the wall clock per name. *)
Definition passed_gates (names : list string) : O (list string) :=
    s ← get_state;
    _ ← modify count_round;
    match names with
    | [] => mret []
    | _ =>
        scope ← lift_res (match _gate_scope canonical plan with Some sc => Ok sc | None => Err OrchestratorError end);
        mret (List.filter (λ g, _gate_passed (wall s.(gate_rounds) g) (gate_named g) run_id scope) names)
    end.

Definition in_states (sts : list LifecycleState) (s : orch) : list string := omap id (per_life (λ i l, if bool_decide (state l ∈ sts) then Some i else None) s).
Definition _ready_ids : O (list string) :=
    passed ← passed_gates (map fst gates);
    s ← get_state;
    ready ← lift_res (match Validation.compute_ready_tasks (inl plan) (in_states [COMPLETED; SKIPPED] s) (in_states [SKIPPED] s) passed with
                      | Ok l => Ok l | Err _ => Err OrchValueError end);
    mret (List.filter (λ i, match s.(lifecycles) !! i with Some l => waiting (state l) | None => false end && negb (bool_decide (i ∈ s.(dry_run_seen))) &&
                            match by_id i with Some t => _agent_compatible plan t | None => false end) ready).

Definition stall_one (wave i : string) : O unit :=
    t ← task_of i;
    if negb (bool_decide (_wave_key (_wave t) = _wave_key wave)) then mret () else
    l ← get_life i;
    if negb (waiting (state l)) then mret () else
    let required := flat_map (λ w, if bool_decide (_wave_key (Models.w_id w) = _wave_key wave) then Models.w_gates w else []) (Models.waves plan) in
    passed ← passed_gates required;
    match List.filter (λ g, negb (bool_decide (g ∈ passed))) required with
    | [] => mret ()
    | missing => _ ← on_life i (block ("gate: " +:+ join ", " (sort_strings missing))); _ ← notify i; _checkpoint
    end.
Definition _block_wave_stalls (wave : string) : O unit := for_each (stall_one wave) sorted_ids.

(** [ready_tasks]: what could be dispatched now. *)
Definition ready_tasks : O (list string) :=
    match reconciliation with
    | Some _ => mret []
    | None =>
        passed ← passed_gates (map fst gates);
        s ← get_state;
        ready ← lift_res (match Validation.compute_ready_tasks (inl plan) (in_states [COMPLETED; SKIPPED] s) (in_states [SKIPPED] s) passed with
                          | Ok l => Ok l | Err _ => Err OrchValueError end);
        lift_res (foldr (λ i rest,
          l ← rest;
          t ← match by_id i with Some t => Ok t | None => Err OrchKeyError end;
          missing ← match _missing_inputs context t with Some m => Ok m | None => Err OrchTypeError end;
          Ok (if bool_decide (missing = []) && negb (_blocked_condition context t) && _agent_compatible plan t then i :: l else l)) (Ok []) ready)
    end.

(** ** Dispatch *)

(** The commit of a completed V2 report through the hook, once per attempt. *)
Definition _commit_v2_report (t : TaskSpec) (r : ReportV2.AgentReportV2) : O bool :=
    s ← get_state;
    let att := match ReportV2.attempt r with VInt n => n | _ => 0%Z end in
    if bool_decide ((Models.t_id t, att) ∈ s.(committed_attempts)) then mret true else
    match commit, ReportV2.to_dict r with
    | Some callback, Ok d =>
        _ ← modify count_commit;
        _ ← emit (ECommit d);
        if callback s.(commits) d then _ ← modify (λ s, add_committed s (Models.t_id t, att)); mret true else mret false
    | _, _ => mret false
    end.

(** The parts of a reply: status, output, evidence, error, reason, and whether a V2 report was committed. *)
Record outcome : Type := MkOutcome { oc_status : pyval; oc_output : pyval; oc_evidence : pyval; oc_error : pyval; oc_reason : pyval; oc_v2 : bool }.
Definition is_text (v : pyval) (s : string) : bool := key_is s v.
Definition incomplete (o : outcome) : outcome :=
    if is_text (oc_status o) "completed"
    then MkOutcome (VStr "failed") (oc_output o) (oc_evidence o) (VStr "incomplete AgentReportV2") (VStr "invalid terminal report") false else o.
Definition read_v2 (t : TaskSpec) (o : outcome) : O outcome :=
    l ← get_life (Models.t_id t);
    let candidate := match entries (oc_output o) with Some d => dget_or VNone "report" d | None => VNone end in
    match ReportV2.parse_agent_report_v2 (inr candidate) false with
    | Err _ => mret (incomplete o)
    | Ok r =>
        if negb (py_eqb (ReportV2.task_id r) (VStr (Models.t_id t)) && py_eqb (ReportV2.attempt r) (VInt (attempt l))) then mret (incomplete o) else
        let o' := MkOutcome (oc_status o) (ReportV2.attr "outputs" r) (ReportV2.attr "evidence" r) (oc_error o) (oc_reason o) false in
        if is_text (ReportV2.status r) "completed" then
          committed ← _commit_v2_report t r;
          mret (if (committed : bool) then MkOutcome (VStr "completed") (oc_output o') (oc_evidence o') (oc_error o) (oc_reason o) true else incomplete o')
        else mret (MkOutcome (ReportV2.status r) (oc_output o') (oc_evidence o') (py_or (ReportV2.attr "error" r) (ReportV2.attr "reason" r)) (ReportV2.attr "reason" r) false)
    end.

Definition is_timeout (status : pyval) : bool := is_text status "timeout" || is_text status "timed_out".
(** [self.timeout_seconds is not None and elapsed >= self.timeout_seconds] *)
Definition timed_out (elapsed : spec_float) : bool := match timeout_seconds with Some t => fleb t elapsed | None => false end.
Definition attempt_once (t : TaskSpec) : O outcome :=
    started ← read_clock;
    _ ← on_life (Models.t_id t) (start (default (Models.t_role t) (Models.t_owner t)) (Some (AtDatetime started)));
    _ ← notify (Models.t_id t);
    l ← get_life (Models.t_id t);
    s ← get_state;
    _ ← emit (EDispatch (Models.t_id t) (attempt l));
    _ ← modify count_dispatch;
    let o := match dispatch s.(dispatches) t (attempt l) with
             | Raised => MkOutcome (VStr "failed") VNone (VDict []) (VStr "dispatch failed") VNone false
             | Replied st out ev err why => MkOutcome st out ev err why false
             end in
    ended ← read_clock;
    let o := if timed_out (fsub ended started) then MkOutcome (VStr "timeout") (oc_output o) (oc_evidence o) (oc_error o) (oc_reason o) false else o in
    match canonical with Some _ => read_v2 t o | None => mret o end.

(** What a finished attempt amounts to: a completion, or the error and the reason of a failure. *)
Definition completion (t : TaskSpec) (o : outcome) : option (pyval * pyval) :=
    if is_text (oc_status o) "completed" then
      if oc_v2 o then Some (oc_output o, oc_evidence o) else _normalize_completion t (oc_output o) (oc_evidence o)
    else None.
Definition failure (o : outcome) : pyval * pyval :=
    if is_text (oc_status o) "completed" then (VStr (u8 "completed report contract inválido"), VStr (u8 "outputs/evidence ausentes ou acceptance não atendida"))
    else if is_timeout (oc_status o) then (VStr "timeout", VStr "timeout") else (oc_error o, oc_reason o).

(** The loop of the attempts. *)
Fixpoint attempts (fuel : nat) (t : TaskSpec) : O unit :=
    match fuel with
    | 0 => raise OrchFuel
    | S fuel =>
        let i := Models.t_id t in
        o ← attempt_once t;
        match completion t o with
        | Some (out, evid) =>
            now ← read_clock;
            _ ← on_life i (complete out evid (Some (AtDatetime now)));
            _record t out evid VNone VNone
        | None =>
            _ ← ensure_st (hashable (oc_status o)) OrchTypeError;
            let (err, why) := failure o in
            let safe_error := sanitize_or err "dispatch failed" in
            let safe_reason := text_value (_sanitize_text why None) in
            now ← read_clock;
            _ ← on_life i (fail safe_error (negb (is_timeout (oc_status o))) (Some (AtDatetime now)));
            _ ← _record t VNone (if truthy (oc_evidence o) then oc_evidence o else VDict [(VStr "error", VStr safe_error)]) (VStr safe_error) safe_reason;
            l ← get_life i;
            let policy := Models.t_retry_policy t in
            let again := retryable l && (match Models.retryable_errors policy with [] => true | errs => _retry_error_matches safe_error errs end) in
            if negb again || (Models.max_attempts policy <=? attempt l)%Z then mret () else
            _ ← emit (ESleep (Models.backoff_seconds policy));
            _ ← read_clock;
            _ ← on_life i retry;
            _ ← notify i;
            attempts fuel t
        end
    end.

Definition _execute (t : TaskSpec) : O unit :=
    let i := Models.t_id t in
    l ← get_life i;
    if bool_decide (state l = COMPLETED) then mret () else
    match _agent_block plan t with
    | Some (why, evid) => _block_with_report t why evid
    | None =>
        match _missing_inputs context t with
        | None => raise OrchTypeError
        | Some (_ :: _ as missing) => _block_with_report t "input ausente" (VDict [(VStr "missing_inputs", VList (map VStr missing))])
        | Some [] =>
            if _blocked_condition context t then
              _block_with_report t (u8 "blocked_when não resolvido") (VDict [(VStr "blocked_when", VList (map VStr (Models.t_blocked_when t)))])
            else
              _ ← (if bool_decide (state l = PENDING) then _ ← on_life i mark_ready; notify i else mret ());
              _ ← attempts (Z.to_nat (Models.max_attempts (Models.t_retry_policy t))) t;
              _ ← notify i;
              _checkpoint
        end
    end.

(** ** The run *)

Definition run_one (i : string) : O unit := t ← task_of i; if dry_run then _mark_dry_run t else _execute t.
Fixpoint wave_loop (fuel : nat) (wave : string) : O (list (list string)) :=
    match fuel with
    | 0 => raise OrchFuel
    | S fuel =>
        all ← _ready_ids;
        let ready := List.filter (λ i, match by_id i with Some t => bool_decide (_wave_key (_wave t) = _wave_key wave) | None => false end) all in
        match ready with
        | [] => mret []
        | _ =>
            let batch := take max_parallel ready in
            _ ← for_each run_one batch;
            _ ← _block_unresolvable;
            rest ← wave_loop fuel wave;
            mret (batch :: rest)
        end
    end.
Definition run_wave (wave : string) : O (list (list string)) :=
    _ ← modify (λ s, set_wave s (_wave_number wave));
    batches ← wave_loop (S (length (Models.tasks plan))) wave;
    _ ← _block_wave_stalls wave;
    mret batches.
Fixpoint run_waves (waves : list string) : O (list (list string)) :=
    match waves with
    | [] => mret []
    | w :: waves => b ← run_wave w; rest ← run_waves waves; mret (b ++ rest)%list
    end.

Record OrchestrationResult : Type := MkResult { r_statuses : list (string * string); r_reports : list pyval; r_waves : list (list string) }.
Definition blocked_result (why : string) (d : pyval) : OrchestrationResult :=
    MkResult (map (λ i, (i, "blocked")) ids) [VDict [(VStr "status", VStr "blocked"); (VStr "reason", VStr why); (VStr "reconciliation", d)]] [].
Definition run : O OrchestrationResult :=
    match reconciliation with
    | Some (why, d) => mret (blocked_result why d)
    | None =>
        _ ← _block_unresolvable;
        waves ← lift_res (match _ordered_waves plan with Some ws => Ok ws | None => Err OrchValueError end);
        batches ← run_waves waves;
        _ ← _block_unresolvable;
        s ← get_state;
        mret (MkResult (omap (λ i, (λ l, (i, state_value (state l))) <$> s.(lifecycles) !! i) sorted_ids) s.(reports) batches)
    end.
End orchestrator.

(** ** Construction *)

(** The plan argument: an instance, or a mapping copied, read under its aliases
    and, when it is a V2 document, kept to be hashed. *)
Definition plan_of (v : FleetPlan + pyval) : res orch_error (FleetPlan * option dict) :=
  match v with
  | inl p => Ok (p, None)
  | inr v =>
      match entries v with
      | None => Err OrchestratorError
      | Some _ =>
          match _strict_copy v with
          | Some (VDict candidate) =>
              match _runtime_aliases (VDict candidate) with
              | Some (VDict runtime) =>
                  let v2 := key_is V2_PLAN_SCHEMA_VERSION (dget_or (dget_or VNone "schemaVersion" candidate) "schema_version" candidate) in
                  let document := if v2 then dpop "run_id" (dset "schema_version" (VStr "1") runtime) else runtime in
                  match Models.from_dict (inr (VDict document)) with
                  | Ok p => Ok (p, if v2 then Some candidate else None)
                  | Err _ => Err OrchestratorError
                  end
              | _ => Err OrchestratorError
              end
          | _ => Err OrchestratorError
          end
      end
  end.

(** [_resume] of one task, from its record in the checkpoint.  The record is a
    dictionary in the code; here it is the lifecycle that the dictionary stands
    for, each field with the type of its class, so that records with fields of
    other types, which the code stores as they are or refuses, are outside the
    model. *)
Definition clean_text (o : option string) : option string := match o with Some s => _sanitize_text (VStr s) None | None => None end.
Definition resume_task (snap : option TaskLifecycle) (t : TaskSpec) : res orch_error TaskLifecycle :=
  let limit := Models.max_attempts (Models.t_retry_policy t) in
  let '(st, l) := match snap with
                  | Some l => (inl (if bool_decide (state l = RUNNING) then READY else state l),
                      MkLifecycle (Models.t_id t) (state l) (attempt l) limit (agent l) (heartbeat l) (started_at l) (finished_at l) (outputs l) (evidence l)
                        (clean_text (reason l)) (clean_text (error l)) (history l) (final_report l) (report_final l) (retryable l))
                  | None => (inr (VStr (if bool_decide (Models.t_status t = "running") then "ready" else Models.t_status t)), fresh (Models.t_id t) limit)
                  end in
  map_err (λ _, OrchestratorError) (__post_init__ st l).
Definition resume_report (v : pyval) : pyval :=
  _sanitize_payload (match entries v with
    | Some d => VDict (dset "reason" (text_value (_sanitize_text (dget_or VNone "reason" d) None)) (dset "error" (text_value (_sanitize_text (dget_or VNone "error" d) None)) d))
    | None => v end).
(** The state after construction, the plan being valid. *)
Definition _resume (plan : FleetPlan) (snaps : gmap string TaskLifecycle) (saved : list pyval) : res orch_error orch :=
  lives ← mapM (λ t, l ← resume_task (snaps !! Models.t_id t) t; Ok (Models.t_id t, l)) (Models.tasks plan);
  Ok (MkOrch (list_to_map lives) (map resume_report saved) [] 0 0 [] 0 0 0 0 []).

(** ** Examples *)

Section demo.
  Context (attempts_allowed : Z) (timeout : option spec_float).
Definition demo_task (i : string) (deps : list string) : pyval :=
    Models.obj [("id", VStr i); ("wave", VStr "1"); ("role", VStr "worker"); ("objective", VStr "do"); ("depends_on", VList (map VStr deps));
      ("allowed_paths", VList [VStr ("src/" +:+ i)]); ("acceptance_criteria", VList [VStr "ok"]); ("validation_commands", VList [VStr "true"]);
      ("blocked_when", VList [VStr "never"]); ("outputs", VList [Models.obj [("name", VStr "out")]]);
      ("retry_policy", Models.obj [("max_attempts", VInt attempts_allowed)])].
Definition demo_plan (l : list (string * list string)) : FleetPlan :=
    match Models.from_dict (inr (Models.obj [("schema_version", VStr "1"); ("agents", VList []); ("waves", VList [Models.obj [("id", VStr "1"); ("tasks", VList (map (λ d, VStr d.1) l))]]);
      ("tasks", VList (map (λ d, demo_task d.1 d.2) l)); ("gates", VList [])])) with
    | Ok p => p | Err _ => Models.MkPlan "" [] [] [] [] end.
Definition demo_start (p : FleetPlan) : orch :=
    match _resume p ∅ [] with Ok s => s | Err _ => MkOrch ∅ [] [] 0 0 [] 0 0 0 0 [] end.
Definition demo_run (p : FleetPlan) (dispatch : nat → TaskSpec → Z → reply) : orch * res orch_error OrchestrationResult :=
    run p None 2 timeout false [] (λ _, VNone) None VNone "fleet" "1970-01-01T00:00:00+00:00" None (λ n, default (S754_zero false) (float_of_Z (Z.of_nat n))) (λ _ _, 0%Z)
      dispatch None (demo_start p).
End demo.
Definition good : reply := Replied (VStr "completed") (Models.obj [("out", VInt 1)]) (Models.obj [("acceptance", VStr "checked")]) VNone VNone.
Definition bad : reply := Replied (VStr "failed") VNone (VDict []) (VStr "boom") VNone.
Definition dispatched (s : orch) : list (string * Z) := omap (λ e, match e with EDispatch i a => Some (i, a) | _ => None end) (trace s).

Example run_ex : let '(s, r) := demo_run None (demo_plan 2 [("b", ["a"]); ("a", []); ("c", [])]) (λ n t a, if bool_decide (Models.t_id t = "c" ∧ a = 1%Z) then bad else good) in
  dispatched s = [("a", 1%Z); ("c", 1%Z); ("c", 2%Z); ("b", 1%Z)] ∧
  r_statuses <$> r = Ok [("a", "completed"); ("b", "completed"); ("c", "completed")] ∧ r_waves <$> r = Ok [["a"; "c"]; ["b"]].
Proof. vm_compute. done. Qed.

(** A failure blocks its dependants two levels deep; a longer chain is left pending. *)
Example chain_left_pending : let '(s, r) := demo_run None (demo_plan 1 [("d", []); ("c", ["d"]); ("b", ["c"]); ("a", ["b"])]) (λ _ _ _, bad) in
  r_statuses <$> r = Ok [("a", "pending"); ("b", "blocked"); ("c", "blocked"); ("d", "failed")].
Proof. vm_compute. done. Qed.
(** A dispatch that takes as long as the limit is a timeout, and is not retried. *)
Example timeout_ex : let '(s, r) := demo_run (float_of_Z 1) (demo_plan 3 [("a", [])]) (λ _ _ _, good) in
  dispatched s = [("a", 1%Z)] ∧ r_statuses <$> r = Ok [("a", "failed")].
Proof. vm_compute. done. Qed.
(** A saved report that is not an object stops the run with a bare [AttributeError]. *)
Example saved_report_ex : match _resume (demo_plan 1 [("a", [])]) ∅ [VStr "note"] with
  | Ok s => (run (demo_plan 1 [("a", [])]) None 2 None false [] (λ _, VNone) None VNone "fleet" "now" None (λ _, S754_zero false) (λ _ _, 0%Z) (λ _ _ _, good) None s).2 = Err OrchAttributeError
  | Err _ => False end.
Proof. vm_compute. done. Qed.
