(* ===== verification/OrchestratorSpec.v ===== *)
(** * The orchestrator: properties of runs

    A small logic for the orchestrator's state and exceptions ([wp]), the
    invariant of a run ([J]) and what it gives: tasks are dispatched in the order
    of the plan and within their attempts, and a run always ends. *)

From S2P Require Import Prelude PyStr PyNum PyVal Lifecycle OrchestratorParts Orchestrator.
From S2P Require Models Validation Checkpoint.

(** ** Weakest preconditions *)

Section wp.
  Context {A B : Type}.
Definition wp (m : O A) (Q : A → orch → Prop) (E : orch_error → orch → Prop) (s : orch) : Prop :=
    match m s with (s', Ok a) => Q a s' | (s', Err e) => E e s' end.
Lemma wp_mono m Q Q' E E' s : wp m Q E s → (∀ a s', Q a s' → Q' a s') → (∀ e s', E e s' → E' e s') → wp m Q' E' s.
Proof. unfold wp. destruct (m s) as [s' [a|e]]; auto. Qed.
Lemma wp_ret (a : A) (Q : A → orch → Prop) E s : Q a s → wp (mret a) Q E s.
Proof. done. Qed.
End wp.
Lemma wp_bind {A B} (m : O A) (f : A → O B) Q E s : wp m (λ a s', wp (f a) Q E s') E s → wp (x ← m; f x) Q E s.
Proof. unfold wp, mbind, stm_bind. destruct (m s) as [s' [a|e]]; [|done]. by destruct (f a s') as [s'' [b|e]]. Qed.
Lemma wp_lift {A} (m : res orch_error A) (Q : A → orch → Prop) E s : (∀ a, m = Ok a → Q a s) → (∀ e, m = Err e → E e s) → wp (lift_res m) Q E s.
Proof. unfold wp, lift_res. destruct m; auto. Qed.
Lemma wp_ensure b e (Q : () → orch → Prop) E s : (b = true → Q tt s) → (b = false → E e s) → wp (ensure_st b e) Q E s.
Proof. unfold wp, ensure_st, lift_res, ensure. destruct b; auto. Qed.
Lemma wp_get (Q : orch → orch → Prop) E s : Q s s → wp get_state Q E s.
Proof. done. Qed.
Lemma wp_modify f (Q : () → orch → Prop) E s : Q tt (f s) → wp (modify f) Q E s.
Proof. done. Qed.
Lemma wp_life i (Q : TaskLifecycle → orch → Prop) E s : (∀ l, lifecycles s !! i = Some l → Q l s) → (lifecycles s !! i = None → E OrchKeyError s) → wp (get_life i) Q E s.
Proof. unfold wp, get_life. destruct (lifecycles s !! i); auto. Qed.
Lemma wp_on_life {A} i (m : lc A) (Q : A → orch → Prop) E s :
  (lifecycles s !! i = None → E OrchKeyError s) →
  (∀ l, lifecycles s !! i = Some l → match m l with
     | (l', Ok a) => Q a (set_lifecycles s (<[i := l']> (lifecycles s)))
     | (l', Err e) => E (OrchLifecycleError e) (set_lifecycles s (<[i := l']> (lifecycles s))) end) →
  wp (on_life i m) Q E s.
Proof. unfold wp, on_life. intros H1 H2. destruct (lifecycles s !! i) as [l|]; [|by apply H1]. specialize (H2 l eq_refl). by destruct (m l) as [l' [a|e]]. Qed.

(** ** Computations that only speak *)

Definition speech (e : effect) : Prop := match e with EDispatch _ _ | ELifecycle _ => False | _ => True end.
(** The same object, and more effects, none of them a dispatch or the announcement of a lifecycle. *)
Record said (s s' : orch) : Prop := {
  sd_lives : lifecycles s' = lifecycles s;
  sd_seen : dry_run_seen s' = dry_run_seen s;
  sd_trace : ∃ es, trace s' = (trace s ++ es)%list ∧ Forall speech es }.
Lemma said_refl s : said s s.
Proof. split; [done..|]. exists []. by rewrite app_nil_r. Qed.
Lemma said_trans s1 s2 s3 : said s1 s2 → said s2 s3 → said s1 s3.
Proof.
  intros [H1 H2 (es & He & Hn)] [H3 H4 (fs & Hf & Hm)]. split; [congruence..|]. exists (es ++ fs)%list. split; [by rewrite Hf, He, app_assoc|].
  by apply Forall_app.
Qed.
Lemma said_effect s e : speech e → said s (add_effect s e).
Proof. intros He. split; [done..|]. exists [e]. split; [done|]. by apply Forall_singleton. Qed.

(** A computation is quiet when it only speaks and never runs out of fuel. *)
Definition quiet {A} (m : O A) : Prop := ∀ s, wp m (λ _ s', said s s') (λ e s', said s s' ∧ e ≠ OrchFuel) s.
Lemma quiet_ret {A} (a : A) : quiet (mret a).
Proof. intros s. apply said_refl. Qed.
Lemma quiet_bind {A B} (m : O A) (f : A → O B) : quiet m → (∀ a, quiet (f a)) → quiet (x ← m; f x).
Proof.
  intros Hm Hf s. apply wp_bind. eapply wp_mono; [apply Hm| |done]. cbn. intros a s' Hs. eapply wp_mono; [apply Hf| |].
  - intros b s'' H. by eapply said_trans.
  - intros e s'' [H ?]. split; [by eapply said_trans|done].
Qed.
Lemma quiet_lift {A} (m : res orch_error A) : m ≠ Err OrchFuel → quiet (lift_res m).
Proof. intros Hm s. apply wp_lift; intros a Ha; [apply said_refl|split; [apply said_refl|congruence]]. Qed.
Lemma quiet_ensure b e : e ≠ OrchFuel → quiet (ensure_st b e).
Proof. intros He s. apply wp_ensure; intros _; [apply said_refl|split; [apply said_refl|done]]. Qed.
Lemma quiet_get : quiet get_state.
Proof. intros s. apply said_refl. Qed.
Lemma quiet_emit e : speech e → quiet (emit e).
Proof. intros He s. apply wp_modify. by apply said_effect. Qed.
Lemma quiet_life i : quiet (get_life i).
Proof. intros s. apply wp_life; [intros; apply said_refl|]. intros _. split; [apply said_refl|done]. Qed.
Lemma quiet_modify f : (∀ s, lifecycles (f s) = lifecycles s ∧ dry_run_seen (f s) = dry_run_seen s ∧ trace (f s) = trace s) → quiet (modify f).
Proof. intros Hf s. apply wp_modify. destruct (Hf s) as (H1 & H2 & H3). split; [done..|]. exists []. by rewrite app_nil_r. Qed.
Lemma quiet_if {A} (b : bool) (m n : O A) : quiet m → quiet n → quiet (if b then m else n).
Proof. by destruct b. Qed.
Create HintDb quiet discriminated.
#[export] Hint Resolve quiet_ret quiet_get quiet_life quiet_bind quiet_if : quiet.
#[export] Hint Extern 1 (quiet (emit _)) => apply quiet_emit; exact I : quiet.
#[export] Hint Extern 1 (quiet (ensure_st _ _)) => apply quiet_ensure; discriminate : quiet.
#[export] Hint Extern 1 (quiet (modify _)) => apply quiet_modify; intros; split; [reflexivity|split; reflexivity] : quiet.
Ltac quietly := repeat first [apply quiet_bind; [|intros ?]|solve [eauto with quiet]].

Lemma mapM_err {A B E} (f : A → res E B) l e : mapM f l = Err e → ∃ x, x ∈ l ∧ f x = Err e.
Proof.
  induction l as [|x l IH]; cbn; [done|]. intros [H|(y & _ & [H|(ys & _ & H)]%bind_err)]%bind_err; [exists x; split; [left|done]| |done].
  destruct (IH H) as (z & Hz & ?). exists z. split; [by right|done].
Qed.

(** ** What the lifecycle methods leave *)

(** The task, its limit and its attempt are those of [l]. *)
Record keeps (n : Z) (st : LifecycleState) (l l' : TaskLifecycle) : Prop := {
  kp_id : task_id l' = task_id l;
  kp_max : max_attempts l' = max_attempts l;
  kp_attempt : attempt l' = n;
  kp_state : state l' = st }.
(** A method that returns goes from one of [from] to [to]. *)
Definition moves (from : list LifecycleState) (to : LifecycleState) (next : Z → Z) (m : lc unit) : Prop :=
  ∀ l l', m l = (l', Ok tt) → state l ∈ from ∧ keeps (next (attempt l)) to l l'.
Ltac in_list := by repeat constructor.
Lemma mark_ready_moves : moves [PENDING; FAILED] READY id mark_ready.
Proof. intros l l'. unfold mark_ready. rewrite transition_eq. unfold can_transition. destruct (state l) eqn:E; cbn; intros [= <-]; (split; [rewrite ?E; in_list|by split]). Qed.
Lemma block_moves why : moves [PENDING; READY; RUNNING] BLOCKED id (block why).
Proof.
  intros l l'. unfold block, mbind, stm_bind, ensure_st, lift_res, ensure. destruct (negb (blank why)); [|discriminate].
  rewrite transition_eq. unfold can_transition. destruct (state l) eqn:E; cbn; intros [= <-]; (split; [rewrite ?E; in_list|by split]).
Qed.
Lemma start_moves ag t : moves [READY] RUNNING (λ n, if (n =? 0)%Z then 1%Z else n) (start ag (Some (AtDatetime t))).
Proof.
  intros l l'. unfold start, mbind, stm_bind, ensure_st, lift_res, ensure. destruct (nonempty ag); [|discriminate].
  rewrite transition_eq. unfold can_transition. destruct (state l) eqn:E; cbn; try discriminate.
  unfold modify. cbn. destruct (attempt l =? 0)%Z eqn:Ha; cbn; intros [= <-]; (split; [rewrite ?E; in_list|rewrite Ha; by split]).
Qed.
Lemma complete_moves o e t : moves [COMPLETED; RUNNING] COMPLETED id (complete o e (Some (AtDatetime t))).
Proof.
  intros l l'. unfold complete, mbind, stm_bind, ensure_st, lift_res, ensure, get_state, modify.
  case_bool_decide as E; [intros H; injection H as <-; split; [rewrite ?E; in_list|by split]|clear E].
  case_bool_decide as E; [|discriminate]. destruct (_has o && _has e); [|discriminate]. rewrite set_finished_eq. cbn -[transition]. rewrite transition_eq. unfold can_transition. cbn. rewrite E. cbn.
  intros [= <-]. split; [rewrite ?E; in_list|by split].
Qed.
Lemma fail_moves e b t : moves [RUNNING] FAILED id (fail e b (Some (AtDatetime t))).
Proof.
  intros l l'. destruct (decide (state l = RUNNING)) as [E|Hr].
  - rewrite fail_eq by done. cbn. intros [= <-]. split; [rewrite ?E; in_list|by split].
  - unfold fail, mbind, stm_bind, ensure_st, lift_res, ensure, get_state. rewrite bool_decide_false by done. discriminate.
Qed.
Lemma retry_moves l l' : retry l = (l', Ok tt) → (attempt l < max_attempts l)%Z ∧ keeps (attempt l + 1) READY l l'.
Proof.
  intros H. assert (task_id l' = task_id l) as Hi.
  - revert H. unfold retry, mbind, stm_bind, get_state, ensure_st, lift_res, ensure, modify.
    destruct (bool_decide _); [|discriminate]. destruct (_ <? _)%Z; [|discriminate]. destruct (retryable l); [|discriminate].
    rewrite transition_eq. destruct (can_transition _ _); [|discriminate]. by intros [= <-].
  - apply retry_ok in H as (_ & _ & ? & ? & ? & ?). done.
Qed.

(** ** The law of a run

    An abstract system whose state is the trace: the plan says which dispatches
    and which announcements are allowed next. *)

(** The tasks announced as completed. *)
Definition announced (tr : list effect) : list string :=
  omap (λ e, match e with ELifecycle l => if bool_decide (state l = COMPLETED) then Some (task_id l) else None | _ => None end) tr.
Definition dispatched_at (tr : list effect) (i : string) (a : Z) : Prop := EDispatch i a ∈ tr.

#[local] Open Scope list_scope.
#[local] Unset Default Proof Using.

Section law.
  Context (plan : FleetPlan) (canonical : option dict) (dry_run : bool) (gates : list (string * gate_value)) (context : option dict) (run_id : pyval)
    (wall : nat → string → Z) (done0 : list string).

(** The gates that pass at the [n]-th reading of the wall clock. *)
Definition passing (n : nat) : list string :=
  match _gate_scope canonical plan with
  | Some scope => List.filter (λ g, _gate_passed (wall n g) (gate_named gates g) run_id scope) (map fst gates)
  | None => []
  end.
(** Task [t] may be dispatched after [tr]: the dependencies and the earlier waves
    are finished, the gates of the wave pass, an agent can take it, the inputs
    are there and no blocking condition holds. *)
Record may_dispatch (tr : list effect) (t : TaskSpec) : Prop := {
  md_run : dry_run = false;
  md_task : by_id plan (Models.t_id t) = Some t;
  md_ready : ∃ n, Validation.ready plan (Validation.terminal_ids plan (done0 ++ announced tr) []) (passing n) t;
  md_agent : _agent_compatible plan t = true;
  md_inputs : _missing_inputs context t = Some [];
  md_conditions : _blocked_condition context t = false }.
(** A completion is announced for a task that was done before the run, or dispatched in it. *)
Definition honest (tr : list effect) (e : effect) : Prop :=
  match e with
  | ELifecycle l => state l = COMPLETED → task_id l ∈ done0 ∨ ∃ a, dispatched_at tr (task_id l) a
  | EDispatch _ _ => False
  | _ => True
  end.
Inductive lawful : list effect → Prop :=
| lawful_nil : lawful []
| lawful_say tr e : lawful tr → honest tr e → lawful (tr ++ [e])
| lawful_dispatch tr t a : lawful tr → may_dispatch tr t →
    (1 ≤ a ≤ Models.max_attempts (Models.t_retry_policy t))%Z →
    (∀ b, dispatched_at tr (Models.t_id t) b → (b < a)%Z) →
    lawful (tr ++ [EDispatch (Models.t_id t) a]).

Lemma lawful_speech tr es : lawful tr → Forall speech es → lawful (tr ++ es).
Proof.
  intros Htr. induction es as [|e es IH] using rev_ind; [by rewrite app_nil_r|]. intros [He Hs]%Forall_app. rewrite app_assoc.
  apply lawful_say; [by apply IH|]. rewrite Forall_singleton in Hs. by destruct e.
Qed.
Lemma announced_app tr es : announced (tr ++ es) = announced tr ++ announced es.
Proof. apply omap_app. Qed.

(** ** The invariant

    [hold] is the task in the middle of its attempts, if any. *)

Record life_ok (hold : option string) (tr : list effect) (i : string) (l : TaskLifecycle) : Prop := {
  lo_id : task_id l = i;
  lo_task : ∃ t, by_id plan i = Some t ∧ max_attempts l = Models.max_attempts (Models.t_retry_policy t);
  lo_attempt : (1 ≤ max_attempts l ∧ 0 ≤ attempt l ≤ max_attempts l)%Z;
  lo_past : ∀ a, dispatched_at tr i a → (a ≤ attempt l)%Z ∧ (waiting (state l) = true → a < attempt l)%Z;
  lo_skipped : state l = SKIPPED → i ∈ done0;
  lo_completed : state l = COMPLETED → (i ∈ done0 ∨ i ∈ announced tr ∨ hold = Some i) ∧ (i ∈ done0 ∨ ∃ a, dispatched_at tr i a);
  lo_running : state l = RUNNING → hold = Some i }.
Record inv (hold : option string) (s : orch) : Prop := {
  i_law : lawful (trace s);
  i_lives : ∀ i l, lifecycles s !! i = Some l → life_ok hold (trace s) i l }.
Definition bad (e : orch_error) (s : orch) : Prop := lawful (trace s) ∧ e ≠ OrchFuel.

Lemma life_ok_more hold tr es i l : (∀ a, EDispatch i a ∉ es) → life_ok hold tr i l → life_ok hold (tr ++ es) i l.
Proof.
  intros Hs [H1 H2 H3 H4 H5 H6 H7]. assert (∀ a, dispatched_at (tr ++ es) i a ↔ dispatched_at tr i a) as Hd.
  { intros a. unfold dispatched_at. rewrite elem_of_app. split; [|by left]. intros [H|H]; [done|]. by apply Hs in H. }
  split; [done..| |done| |done].
  - intros a Ha. apply H4. by apply Hd.
  - intros Hc. destruct (H6 Hc) as [Ha Hb]. rewrite announced_app, elem_of_app. split; [naive_solver|].
    destruct Hb as [?|[a ?]]; [by left|right; exists a; by apply Hd].
Qed.
Lemma inv_speech hold s s' es : inv hold s → Forall speech es → lifecycles s' = lifecycles s → trace s' = trace s ++ es → inv hold s'.
Proof.
  intros [Hl Hi] Hs He Ht. split; rewrite Ht; [by apply lawful_speech|]. rewrite He. intros i l Hl'. apply life_ok_more; [|by apply Hi].
  intros a Ha. by apply (proj1 (Forall_forall speech es) Hs) in Ha.
Qed.

(** ** Rules *)

(** What a method working on task [i] leaves of the rest. *)
Record moved (i : string) (s s' : orch) : Prop := {
  mv_lives : ∀ j, j ≠ i → lifecycles s' !! j = lifecycles s !! j;
  mv_seen : dry_run_seen s' = dry_run_seen s;
  mv_trace : ∃ es, trace s' = trace s ++ es }.
Lemma moved_refl i s : moved i s s.
Proof. split; [done..|]. exists []. by rewrite app_nil_r. Qed.
Lemma moved_trans i s1 s2 s3 : moved i s1 s2 → moved i s2 s3 → moved i s1 s3.
Proof.
  intros [H1 H2 [es He]] [H3 H4 [fs Hf]]. split; [|congruence|].
  - intros j Hj. by rewrite H3, H1.
  - exists (es ++ fs). by rewrite Hf, He, app_assoc.
Qed.
Lemma said_moved i s s' : said s s' → moved i s s'.
Proof. intros [H1 H2 (es & H3 & _)]. split; [by rewrite H1|done|by exists es]. Qed.

Lemma quiet_rule {A} hold (m : O A) s : quiet m → inv hold s → wp m (λ _ s', inv hold s' ∧ said s s') bad s.
Proof.
  intros Hm Hi. eapply wp_mono; [apply Hm| |]; cbn.
  - intros _ s' Hs. split; [|done]. destruct Hs as [H1 H2 (es & H3 & H4)]. by eapply inv_speech.
  - intros e s' [[H1 H2 (es & H3 & H4)] He]. split; [|done]. rewrite H3. apply lawful_speech; [apply Hi|done].
Qed.
Lemma inv_weaken i s : inv None s → inv (Some i) s.
Proof.
  intros [H1 H2]. split; [done|]. intros j l Hl. destruct (H2 j l Hl) as [? ? ? ? ? H6 H7]. split; [done..| |].
  - intros Hc. destruct (H6 Hc) as [[?|[?|?]] ?]; [tauto|tauto|done].
  - intros Hr. by apply H7 in Hr.
Qed.

(** A lifecycle is announced. *)
Lemma notify_rule hold hold' i s : inv hold s →
  (hold' = hold ∨ hold = Some i ∧ hold' = None ∧ ∀ l, lifecycles s !! i = Some l → state l ≠ RUNNING) →
  wp (notify i) (λ _ s', inv hold' s' ∧ lifecycles s' = lifecycles s ∧ moved i s s' ∧ ∃ l, trace s' = trace s ++ [ELifecycle l]) bad s.
Proof.
  intros [Hlaw Hi] Hh. unfold notify. apply wp_bind, wp_life; [|by split]. intros l Hl. apply wp_modify. cbn. split; [|split; [done|split; [split; [done..|by exists [ELifecycle l]]|by exists l]]].
  assert (Hok := Hi i l Hl). split; cbn.
  - apply lawful_say; [done|]. cbn. intros Hc. rewrite (lo_id _ _ _ _ Hok). by apply Hok.
  - intros j k Hk. assert (Hj := life_ok_more _ _ [ELifecycle l] _ _ ltac:(intros a Ha; rewrite list_elem_of_singleton in Ha; discriminate) (Hi j k Hk)).
    destruct Hh as [->|(-> & -> & Hr)]; [done|]. destruct Hj as [? ? ? ? ? H6 H7]. split; [done..| |].
    + intros Hc. destruct (H6 Hc) as [H Hd]. split; [|done]. destruct H as [?|[?|[= ->]]]; [tauto..|]. right. left.
      assert (k = l) as -> by congruence. rewrite announced_app, elem_of_app. right. cbn. rewrite bool_decide_true by done. rewrite (lo_id _ _ _ _ Hok). left.
    + intros Hr'. specialize (H7 Hr'). injection H7 as ->. by destruct (Hr k Hk).
Qed.

(** A method of a lifecycle. *)
Lemma life_rule (P : TaskLifecycle → Prop) to next hold i m s :
  (∀ l l', m l = (l', Ok tt) → P l ∧ keeps (next (attempt l)) to l l') → inv hold s →
  (∀ l l', lifecycles s !! i = Some l → P l → life_ok hold (trace s) i l → keeps (next (attempt l)) to l l' → life_ok hold (trace s) i l') →
  wp (on_life i m) (λ _ s', inv hold s' ∧ moved i s s' ∧ trace s' = trace s ∧
    ∃ l l', lifecycles s !! i = Some l ∧ P l ∧ keeps (next (attempt l)) to l l' ∧ lifecycles s' !! i = Some l') bad s.
Proof.
  intros Hm [Hlaw Hi] Hok. apply wp_on_life; [by split|]. intros l Hl. destruct (m l) as [l' [[]|e]] eqn:E; [|by split].
  destruct (Hm _ _ E) as [HP Hk]. cbn. split; [|split; [|split; [done|]]].
  - split; [done|]. cbn. intros j k. destruct (decide (j = i)) as [->|Hj].
    + rewrite lookup_insert_eq. intros [= <-]. eauto.
    + rewrite lookup_insert_ne by done. apply Hi.
  - split; cbn; [|done|by exists []; rewrite app_nil_r]. intros j Hj. by rewrite lookup_insert_ne.
  - exists l, l'. by rewrite lookup_insert_eq.
Qed.

Ltac wp_step H := apply wp_bind; eapply wp_mono; [eapply H| |done]; cbn beta.
Ltac wp_quiet H := apply wp_bind; eapply wp_mono; [eapply quiet_rule; [apply H|]| |done]; cbn beta.

Lemma terminal_mono (done1 done2 : list string) i : done1 ⊆ done2 →
  i ∈ Validation.terminal_ids plan done1 [] → i ∈ Validation.terminal_ids plan done2 [].
Proof. intros Hs. unfold Validation.terminal_ids. rewrite !elem_of_app. intros [H|H]; [left; by apply Hs|by right]. Qed.
Lemma may_dispatch_app tr es t : may_dispatch tr t → may_dispatch (tr ++ es) t.
Proof.
  intros [H1 H2 (n & [R1 R2 R3 R4]) H4 H5 H6]. split; [done..| |done|done|done]. exists n.
  assert ((done0 ++ announced tr) ⊆ (done0 ++ announced (tr ++ es))) as Hs by (rewrite announced_app; set_solver).
  split; [done| | |done]; intros; eapply terminal_mono; eauto.
Qed.
Lemma may_dispatch_moved i s s' t : moved i s s' → may_dispatch (trace s) t → may_dispatch (trace s') t.
Proof. intros [_ _ [es ->]]. apply may_dispatch_app. Qed.
Lemma dispatched_moved i s s' j a : moved i s s' → dispatched_at (trace s) j a → dispatched_at (trace s') j a.
Proof. intros [_ _ [es ->]] ?. apply elem_of_app. by left. Qed.

(** Moves into a state that ends an attempt, or waits for none. *)
Lemma life_ok_closed hold tr i to l l' : to ∈ [BLOCKED; FAILED] → life_ok hold tr i l → keeps (attempt l) to l l' → life_ok hold tr i l'.
Proof.
  intros Hto [H1 H2 H3 H4 H5 H6 H7] [K1 K2 K3 K4]. split; rewrite ?K1, ?K2, ?K3, ?K4; [done..| | | |].
  - intros a Ha. destruct (H4 a Ha). split; [done|]. apply list_elem_of_In in Hto as [<-|[<-|[]]]; discriminate.
  - intros ->. by apply list_elem_of_In in Hto as [H|[H|[]]].
  - intros ->. by apply list_elem_of_In in Hto as [H|[H|[]]].
  - intros ->. by apply list_elem_of_In in Hto as [H|[H|[]]].
Qed.
Lemma block_rule hold i why s : inv hold s →
  wp (on_life i (block why)) (λ _ s', inv hold s' ∧ moved i s s' ∧ trace s' = trace s ∧ ∃ l', lifecycles s' !! i = Some l' ∧ state l' = BLOCKED) bad s.
Proof.
  intros Hi. eapply wp_mono; [apply (life_rule (λ l, state l ∈ [PENDING; READY; RUNNING]) BLOCKED id); [apply block_moves|done|]| |done]; cbn.
  - intros l l' _ _ Hok Hk. eapply life_ok_closed; [|done..]. in_list.
  - intros _ s' (Hi' & Hm & Ht & l & l' & _ & _ & Hk & Hl'). split_and!; [done..|]. exists l'. split; [done|apply Hk].
Qed.
Lemma fail_rule hold i e b t s : inv hold s →
  wp (on_life i (fail e b (Some (AtDatetime t)))) (λ _ s', inv hold s' ∧ moved i s s' ∧
    ∃ l l', lifecycles s !! i = Some l ∧ lifecycles s' !! i = Some l' ∧ state l' = FAILED ∧ attempt l' = attempt l) bad s.
Proof.
  intros Hi. eapply wp_mono; [apply (life_rule (λ l, state l ∈ [RUNNING]) FAILED id); [apply fail_moves|done|]| |done]; cbn.
  - intros l l' _ _ Hok Hk. eapply life_ok_closed; [|done..]. in_list.
  - intros _ s' (Hi' & Hm & Ht & l & l' & Hl & _ & [? ? ? ?] & Hl'). split_and!; [done..|]. by exists l, l'.
Qed.
Lemma retry_rule hold i s : inv hold s →
  wp (on_life i retry) (λ _ s', inv hold s' ∧ moved i s s' ∧
    ∃ l l', lifecycles s !! i = Some l ∧ lifecycles s' !! i = Some l' ∧ state l' = READY ∧ attempt l' = (attempt l + 1)%Z ∧ (attempt l < max_attempts l)%Z) bad s.
Proof.
  intros Hi. eapply wp_mono; [apply (life_rule (λ l, attempt l < max_attempts l)%Z READY (λ n, (n + 1)%Z)); [apply retry_moves|done|]| |done]; cbn.
  - intros l l' _ Hlt [H1 H2 H3 H4 H5 H6 H7] [K1 K2 K3 K4]. split; rewrite ?K1, ?K2, ?K3, ?K4; [done..|lia| |done|done|done].
    intros a Ha. apply H4 in Ha. lia.
  - intros _ s' (Hi' & Hm & Ht & l & l' & Hl & Hlt & [? ? ? ?] & Hl'). split_and!; [done..|]. by exists l, l'.
Qed.
Lemma start_rule i ag t s : inv (Some i) s →
  wp (on_life i (start ag (Some (AtDatetime t)))) (λ _ s', inv (Some i) s' ∧ moved i s s' ∧ trace s' = trace s ∧
    ∃ l l', lifecycles s !! i = Some l ∧ state l = READY ∧ lifecycles s' !! i = Some l' ∧ state l' = RUNNING ∧ attempt l' = Z.max 1 (attempt l) ∧
      (∀ a, dispatched_at (trace s) i a → (a < attempt l')%Z)) bad s.
Proof.
  intros Hi. eapply wp_mono; [apply (life_rule (λ l, state l ∈ [READY]) RUNNING (λ n, if (n =? 0)%Z then 1%Z else n)); [apply start_moves|done|]| |done]; cbn.
  - intros l l' _ _ [H1 H2 H3 H4 H5 H6 H7] [K1 K2 K3 K4]. split; rewrite ?K1, ?K2, ?K3, ?K4; [done..| | |done|done|done].
    + destruct (attempt l =? 0)%Z eqn:E; lia.
    + intros a Ha. apply H4 in Ha. split; [|done]. destruct (attempt l =? 0)%Z eqn:E; lia.
  - intros _ s' (Hi' & Hm & Ht & l & l' & Hl & Hs%list_elem_of_singleton & [? ? K3 ?] & Hl'). split_and!; [done..|]. exists l, l'.
    destruct Hi as [_ Hlives]. destruct (Hlives i l Hl) as [H1 H2 H3 H4 _ _ _]. rewrite Hs in H4. split_and!; [done..| |].
    + rewrite K3. destruct (attempt l =? 0)%Z eqn:E; lia.
    + intros a Ha. destruct (H4 a Ha) as [_ Hlt]. specialize (Hlt eq_refl). rewrite K3. destruct (attempt l =? 0)%Z eqn:E; lia.
Qed.
Lemma complete_rule i o e t s : inv (Some i) s → (∃ a, dispatched_at (trace s) i a) →
  wp (on_life i (complete o e (Some (AtDatetime t)))) (λ _ s', inv (Some i) s' ∧ moved i s s' ∧ ∃ l', lifecycles s' !! i = Some l' ∧ state l' = COMPLETED) bad s.
Proof.
  intros Hi [a Ha]. eapply wp_mono; [apply (life_rule (λ l, state l ∈ [COMPLETED; RUNNING]) COMPLETED id); [apply complete_moves|done|]| |done]; cbn.
  - intros l l' _ _ [H1 H2 H3 H4 H5 H6 H7] [K1 K2 K3 K4]. split; rewrite ?K1, ?K2, ?K3, ?K4; [done..| |done| |done].
    + intros b Hb. split; [by apply H4|done].
    + intros _. split; [by do 2 right|]. right. by exists a.
  - intros _ s' (Hi' & Hm & Ht & l & l' & Hl & _ & [? ? ? ?] & Hl'). split_and!; [done..|]. by exists l'.
Qed.
Lemma ready_rule hold i s : inv hold s → (∀ l, lifecycles s !! i = Some l → state l = PENDING) →
  wp (on_life i mark_ready) (λ _ s', inv hold s' ∧ moved i s s' ∧ is_Some (lifecycles s' !! i)) bad s.
Proof.
  intros Hi Hp. eapply wp_mono; [apply (life_rule (λ l, state l ∈ [PENDING; FAILED]) READY id); [apply mark_ready_moves|done|]| |done]; cbn.
  - intros l l' Hl _ [H1 H2 H3 H4 H5 H6 H7] [K1 K2 K3 K4]. rewrite (Hp l Hl) in H4. by split; rewrite ?K1, ?K2, ?K3, ?K4.
  - intros _ s' (Hi' & Hm & _ & _ & l' & _ & _ & _ & Hl'). by rewrite Hl'.
Qed.

(** ** The operations *)

Context (timeout_seconds : option spec_float) (max_parallel : nat) (gate_dict : gate_value → pyval) (feature created_at : string)
  (clock : nat → spec_float) (dispatch : nat → TaskSpec → Z → reply) (commit : option (nat → pyval → bool)).
#[local] Notation _checkpoint := (Orchestrator._checkpoint plan gates gate_dict feature created_at).
#[local] Notation _block_with_report := (Orchestrator._block_with_report plan gates gate_dict feature created_at).
#[local] Notation passed_gates := (Orchestrator.passed_gates plan canonical gates run_id wall).
#[local] Notation _ready_ids := (Orchestrator._ready_ids plan canonical gates run_id wall).
#[local] Notation attempt_once := (Orchestrator.attempt_once canonical timeout_seconds clock dispatch commit).
#[local] Notation attempts := (Orchestrator.attempts canonical timeout_seconds clock dispatch commit).
#[local] Notation _execute := (Orchestrator._execute plan canonical timeout_seconds gates gate_dict context feature created_at clock dispatch commit).

Lemma quiet_checkpoint : quiet _checkpoint.
Proof.
  apply quiet_bind; [apply quiet_get|intros s]. apply quiet_bind; [|intros; apply quiet_bind; [|intros]; apply quiet_emit; exact I].
  apply quiet_lift. intros [x [_ H]]%mapM_err. by destruct (entries x).
Qed.
Lemma quiet_publish t r evid : quiet (publish t r evid).
Proof. unfold publish. quietly. Qed.
Lemma quiet_record t o e err why : quiet (_record t o e err why).
Proof. unfold _record. apply quiet_bind; [apply quiet_life|intros l; apply quiet_publish]. Qed.
Lemma quiet_clock : quiet (read_clock clock).
Proof. intros s. split; [done..|]. exists []. by rewrite app_nil_r. Qed.
Lemma quiet_task_of i : quiet (task_of plan i).
Proof. apply quiet_lift. by destruct (by_id plan i). Qed.
Lemma quiet_lost t : quiet (dependency_lost t).
Proof.
  apply quiet_bind; [apply quiet_get|intros s]. apply quiet_bind; [|intros; apply quiet_ret].
  apply quiet_lift. intros [x [_ H]]%mapM_err. by destruct (lifecycles s !! x).
Qed.
Lemma quiet_passed names : quiet (passed_gates names).
Proof.
  apply quiet_bind; [apply quiet_get|intros s]. apply quiet_bind; [by apply quiet_modify|intros _]. destruct names; [apply quiet_ret|].
  apply quiet_bind; [|intros; apply quiet_ret]. apply quiet_lift. by destruct (_gate_scope canonical plan).
Qed.
Lemma quiet_commit t r : quiet (_commit_v2_report commit t r).
Proof.
  unfold _commit_v2_report. apply quiet_bind; [apply quiet_get|intros s]. cbv zeta. case_bool_decide; [apply quiet_ret|].
  destruct commit as [callback|]; [|apply quiet_ret]. destruct (ReportV2.to_dict r) as [d|]; [|apply quiet_ret].
  apply quiet_bind; [by apply quiet_modify|intros _]. apply quiet_bind; [by apply quiet_emit|intros _]. apply quiet_if; [|apply quiet_ret].
  apply quiet_bind; [by apply quiet_modify|intros _; apply quiet_ret].
Qed.
Lemma quiet_read_v2 t o : quiet (read_v2 commit t o).
Proof.
  unfold read_v2. apply quiet_bind; [apply quiet_life|intros l]. cbv zeta. destruct (ReportV2.parse_agent_report_v2 _ _); [|apply quiet_ret].
  apply quiet_if; [apply quiet_ret|]. apply quiet_if; [|apply quiet_ret]. apply quiet_bind; [apply quiet_commit|intros b; apply quiet_ret].
Qed.

(** One attempt: [t] goes from ready to running and is dispatched. *)
Lemma attempt_rule t s : inv (Some (Models.t_id t)) s → may_dispatch (trace s) t →
  wp (attempt_once t) (λ _ s', inv (Some (Models.t_id t)) s' ∧ moved (Models.t_id t) s s' ∧ (∃ a, dispatched_at (trace s') (Models.t_id t) a) ∧
    ∃ l l', lifecycles s !! Models.t_id t = Some l ∧ state l = READY ∧ lifecycles s' !! Models.t_id t = Some l' ∧ attempt l' = Z.max 1 (attempt l)) bad s.
Proof.
  set (i := Models.t_id t). intros Hi Hmay. unfold Orchestrator.attempt_once. fold i.
  wp_quiet quiet_clock; [done|]. intros started s1 [Hi1 Hs1].
  wp_step start_rule; [done|]. intros _ s2 (Hi2 & Hm2 & Ht2 & l & l' & Hl & Hst & Hl' & Hst' & Ha' & Hpast).
  rewrite (sd_lives _ _ Hs1) in Hl.
  wp_step (notify_rule (Some i) (Some i)); [done|by left|]. intros _ s3 (Hi3 & He3 & Hm3 & k3 & Ht3).
  assert (moved i s s3) as Hm by (eapply moved_trans; [by apply said_moved|by eapply moved_trans]).
  apply wp_bind, wp_life; [|rewrite He3, Hl'; discriminate]. intros l3 Hl3. assert (l3 = l') as -> by congruence.
  apply wp_bind, wp_get, wp_bind, wp_modify, wp_bind, wp_modify.
  set (s4 := count_dispatch _).
  assert (inv (Some i) s4) as Hi4.
  { destruct Hi3 as [Hlaw Hlives]. assert (Hok := Hlives i l' Hl3). destruct (lo_task _ _ _ _ Hok) as (t' & Hby & Hmax).
    assert (t' = t) as -> by (assert (Hb := md_task _ _ Hmay); fold i in Hb; congruence).
    assert (∀ a, dispatched_at (trace s3) i a → (a < attempt l')%Z) as Hp3.
    { intros a. rewrite Ht3. intros [Ha|Ha%list_elem_of_singleton]%elem_of_app; [|done]. apply Hpast. destruct Hs1 as [_ _ (es & He & Hes)]. by rewrite <- Ht2. }
    split.
    - cbn. apply lawful_dispatch; [done|by eapply may_dispatch_moved| |done]. destruct (lo_attempt _ _ _ _ Hok). lia.
    - cbn. intros j k Hk. destruct (decide (j = i)) as [->|Hj].
      + assert (k = l') as -> by congruence. destruct Hok as [? ? ? H4 ? H6 ?]. split; [done..| |done| |done].
        * intros a [Ha|Ha]%elem_of_app; [apply H4, Ha|]. apply list_elem_of_singleton in Ha. injection Ha as ->. split; [done|]. by rewrite Hst'.
        * by rewrite Hst'.
      + apply life_ok_more; [|by apply Hlives]. intros a Ha%list_elem_of_singleton. injection Ha. intros. by destruct Hj. }
  assert (moved i s s4) as Hm4.
  { destruct Hm as [M1 M2 [es M3]]. split; [done..|]. exists (es ++ [EDispatch i (attempt l')]). cbn. by rewrite M3, app_assoc. }
  wp_quiet quiet_clock; [done|]. intros ended s5 [Hi5 Hs5].
  eapply wp_mono; [eapply (quiet_rule (Some i)); [destruct canonical; [apply quiet_read_v2|apply quiet_ret]|done]| |done]. cbn beta.
  intros _ s6 [Hi6 Hs6]. assert (moved i s4 s6) as H46 by (eapply moved_trans; by apply said_moved).
  split; [done|]. split; [by eapply moved_trans|]. split.
  - exists (attempt l'). eapply dispatched_moved; [done|]. apply elem_of_app. right. left.
  - exists l, l'. split_and!; [done..| |done]. rewrite (sd_lives _ _ Hs6), (sd_lives _ _ Hs5). done.
Qed.

(** The attempts end: with as much fuel as attempts are left they never run out. *)
Lemma attempts_rule fuel t s : inv (Some (Models.t_id t)) s → may_dispatch (trace s) t →
  (∃ l, lifecycles s !! Models.t_id t = Some l ∧ (Models.max_attempts (Models.t_retry_policy t) - Z.max 1 (attempt l) < Z.of_nat fuel)%Z) →
  wp (attempts fuel t) (λ _ s', inv (Some (Models.t_id t)) s' ∧ moved (Models.t_id t) s s' ∧
    ∃ l, lifecycles s' !! Models.t_id t = Some l ∧ state l ∈ [COMPLETED; FAILED]) bad s.
Proof.
  set (i := Models.t_id t). revert s. induction fuel as [|fuel IH]; intros s Hi Hmay (l0 & Hl0 & Hfuel).
  { destruct (i_lives _ _ Hi i l0 Hl0) as [_ (t' & Hby & Hmax) Hatt _ _ _ _]. assert (Hb := md_task _ _ Hmay). fold i in Hb. assert (t' = t) as -> by congruence. lia. }
  cbn [Orchestrator.attempts]. fold i.
  wp_step attempt_rule; [done..|]. fold i. intros o s1 (Hi1 & Hm1 & [a Ha] & l & l1 & Hl & Hst & Hl1 & Ha1). assert (l0 = l) as -> by congruence.
  assert (may_dispatch (trace s1) t) as Hmay1 by by eapply may_dispatch_moved.
  destruct (completion t o) as [[out evid]|].
  - wp_quiet quiet_clock; [done|]. intros now s2 [Hi2 Hs2%(said_moved i)].
    wp_step complete_rule; [done|exists a; by eapply dispatched_moved|]. intros _ s3 (Hi3 & Hm3 & l3 & Hl3 & Hst3).
    eapply wp_mono; [eapply quiet_rule; [apply quiet_record|done]| |done]. cbn beta. intros _ s4 [Hi4 Hs4]. split; [done|].
    split; [eauto using moved_trans, said_moved|]. exists l3. rewrite (sd_lives _ _ Hs4), Hst3. split; [done|in_list].
  - wp_quiet quiet_ensure; [done..|]. intros _ s2 [Hi2 Hs2]. destruct (failure o) as [err why]. cbv zeta.
    wp_quiet quiet_clock; [done|]. intros now s3 [Hi3 Hs3].
    wp_step fail_rule; [done|]. intros _ s4 (Hi4 & Hm4 & k & l4 & Hk & Hl4 & Hst4 & Ha4).
    rewrite (sd_lives _ _ Hs3), (sd_lives _ _ Hs2) in Hk. assert (k = l1) as -> by congruence.
    wp_quiet quiet_record; [done|]. intros _ s5 [Hi5 Hs5].
    assert (lifecycles s5 !! i = Some l4) as Hl5 by by rewrite (sd_lives _ _ Hs5).
    assert (moved i s s5) as Hm5 by eauto 8 using moved_trans, said_moved.
    apply wp_bind, wp_life; [|rewrite Hl5; discriminate]. intros l5 Hl5'. assert (l5 = l4) as -> by congruence.
    destruct (negb _ || _)%bool eqn:Hstop.
    + apply wp_ret. split_and!; [done..|]. exists l4. rewrite Hst4. split; [done|in_list].
    + apply orb_false_iff in Hstop as [_ Hlt]. apply Z.leb_gt in Hlt.
      wp_quiet quiet_emit; [exact I|done|]. intros _ s6 [Hi6 Hs6]. wp_quiet quiet_clock; [done|]. intros _ s7 [Hi7 Hs7].
      wp_step retry_rule; [done|]. intros _ s8 (Hi8 & Hm8 & k & l8 & Hk8 & Hl8 & Hst8 & Ha8 & Hlt8).
      rewrite (sd_lives _ _ Hs7), (sd_lives _ _ Hs6) in Hk8. assert (k = l4) as -> by congruence.
      wp_step (notify_rule (Some i) (Some i)); [done|by left|]. intros _ s9 (Hi9 & He9 & Hm9 & _).
      assert (moved i s s9) as Hm by eauto 8 using moved_trans, said_moved.
      eapply wp_mono; [apply IH; [done|by eapply may_dispatch_moved|]| |done]; fold i.
      * exists l8. rewrite He9. split; [done|lia].
      * intros _ s' (? & ? & ?). split; [done|]. split; [by eapply moved_trans|done].
Qed.

(** The task is neither pending nor ready any more. *)
Definition left (i : string) (s : orch) : Prop := ∃ l, lifecycles s !! i = Some l ∧ waiting (state l) = false.
Lemma left_said i s s' : said s s' → left i s → left i s'.
Proof. intros [H _ _] (l & Hl & Hw). exists l. by rewrite H. Qed.
Lemma left_in i s l sts : lifecycles s !! i = Some l → state l ∈ sts → forallb (λ st, negb (waiting st)) sts = true → left i s.
Proof. intros Hl Hs Hf. exists l. split; [done|]. rewrite forallb_true_iff in Hf. apply negb_true_iff. by apply Hf. Qed.

Lemma block_report_rule t why evid s : inv None s →
  wp (_block_with_report t why evid) (λ _ s', inv None s' ∧ moved (Models.t_id t) s s' ∧ left (Models.t_id t) s') bad s.
Proof.
  intros Hi. unfold Orchestrator._block_with_report. wp_step block_rule; [done|]. intros _ s1 (Hi1 & Hm1 & _ & l & Hl & Hst).
  wp_quiet quiet_record; [done|]. intros _ s2 [Hi2 Hs2]. wp_step (notify_rule None None); [done|by left|]. intros _ s3 (Hi3 & He3 & Hm3 & _).
  eapply wp_mono; [eapply quiet_rule; [apply quiet_checkpoint|done]| |done]. cbn beta. intros _ s4 [Hi4 Hs4]. split; [done|].
  split; [eauto 8 using moved_trans, said_moved|]. apply (left_in _ _ l [BLOCKED]); [|rewrite Hst; in_list|done].
  by rewrite (sd_lives _ _ Hs4), He3, (sd_lives _ _ Hs2).
Qed.

Lemma execute_rule t n s : inv None s → dry_run = false → by_id plan (Models.t_id t) = Some t →
  Validation.ready plan (Validation.terminal_ids plan (done0 ++ announced (trace s)) []) (passing n) t →
  wp (_execute t) (λ _ s', inv None s' ∧ moved (Models.t_id t) s s' ∧ left (Models.t_id t) s') bad s.
Proof.
  set (i := Models.t_id t). intros Hi Hdry Hby Hready. unfold Orchestrator._execute. fold i. cbv zeta.
  apply wp_bind, wp_life; [|split; [apply Hi|done]]. intros l Hl. case_bool_decide as Hc.
  { split; [done|]. split; [apply moved_refl|]. apply (left_in _ _ l [COMPLETED]); [done|rewrite Hc; in_list|done]. }
  destruct (_agent_block plan t) as [[why evid]|] eqn:Hag; [by apply block_report_rule|].
  destruct (_missing_inputs context t) as [[|m ms]|] eqn:Hin; [|by apply block_report_rule|split; [apply Hi|done]].
  destruct (_blocked_condition context t) eqn:Hcond; [by apply block_report_rule|].
  assert (may_dispatch (trace s) t) as Hmay. { split; [done|done|by exists n|by unfold _agent_compatible; rewrite Hag|done|done]. }
  apply wp_bind. apply (wp_mono _ (λ _ s', inv None s' ∧ moved i s s' ∧ is_Some (lifecycles s' !! i)) _ bad); [| |done].
  { case_bool_decide as Hp; [|split; [done|split; [apply moved_refl|by exists l]]]. wp_step ready_rule; [done| |].
    - intros k Hk. by assert (k = l) as -> by congruence.
    - intros _ s1 (Hi1 & Hm1 & Hl1). eapply wp_mono; [apply (notify_rule None None); [done|by left]| |done]. cbn beta. intros _ s2 (Hi2 & He2 & Hm2 & _).
      split; [done|]. split; [by eapply moved_trans|by rewrite He2]. }
  intros _ s1 (Hi1%(inv_weaken i) & Hm1 & l1 & Hl1).
  assert (1 ≤ Models.max_attempts (Models.t_retry_policy t))%Z as Hmax.
  { destruct (i_lives _ _ Hi i l Hl) as [_ (t' & Hb & Hm) Hatt _ _ _ _]. assert (t' = t) as -> by congruence. lia. }
  wp_step attempts_rule; [done|by eapply may_dispatch_moved|exists l1; split; [done|lia]|]. fold i.
  intros _ s2 (Hi2 & Hm2 & l2 & Hl2 & Hst2).
  wp_step (notify_rule (Some i) None); [done|right; split_and!; [done..|]|].
  { intros k Hk Hr. assert (k = l2) as -> by congruence. rewrite Hr in Hst2. apply list_elem_of_In in Hst2. by destruct Hst2 as [|[|[]]]. }
  intros _ s3 (Hi3 & He3 & Hm3 & _). eapply wp_mono; [eapply quiet_rule; [apply quiet_checkpoint|done]| |done]. cbn beta. intros _ s4 [Hi4 Hs4]. split; [done|].
  split; [eauto 8 using moved_trans, said_moved|]. apply (left_in _ _ l2 [COMPLETED; FAILED]); [|done..]. by rewrite (sd_lives _ _ Hs4), He3.
Qed.

(** ** The loops *)

(** Task [i] could still be picked by a wave. *)
Definition active (s : orch) (i : string) : Prop := ∃ l, lifecycles s !! i = Some l ∧ waiting (state l) = true ∧ i ∉ dry_run_seen s.
#[local] Instance active_dec s i : Decision (active s i).
Proof.
  destruct (lifecycles s !! i) as [l|] eqn:Hl; [|right; intros (l & H & _); congruence].
  destruct (waiting (state l)) eqn:Hw; [|right; intros (k & H & Hk & _); congruence].
  destruct (decide (i ∈ dry_run_seen s)); [right; by intros (_ & _ & _ & ?)|left; by exists l].
Defined.
(** Nothing is said back, and no task becomes active. *)
Record calmer (s s' : orch) : Prop := {
  ca_trace : ∃ es, trace s' = trace s ++ es;
  ca_active : ∀ i, active s' i → active s i }.
Lemma calmer_refl s : calmer s s.
Proof. split; [exists []; by rewrite app_nil_r|done]. Qed.
Lemma calmer_trans s1 s2 s3 : calmer s1 s2 → calmer s2 s3 → calmer s1 s3.
Proof. intros [[es He] H1] [[fs Hf] H2]. split; [exists (es ++ fs); by rewrite Hf, He, app_assoc|auto]. Qed.
Lemma said_calmer s s' : said s s' → calmer s s'.
Proof. intros [H1 H2 (es & H3 & _)]. split; [by exists es|]. intros i (l & Hl). exists l. by rewrite <- H1, <- H2. Qed.
Lemma moved_calmer i s s' : moved i s s' → left i s' → calmer s s' ∧ ¬ active s' i.
Proof.
  intros [H1 H2 H3] (l & Hl & Hw). assert (¬ active s' i) as Hn by (intros (k & Hk & Hwk & _); congruence). split; [|done].
  split; [done|]. intros j (k & Hk & Hwk & Hs). destruct (decide (j = i)) as [->|Hj]; [by destruct Hn; exists k|].
  exists k. rewrite H1 in Hk by done. by rewrite H2 in Hs.
Qed.

(** [calm m]: [m] keeps the invariant and makes no task active. *)
Definition calm {A} (m : O A) : Prop := ∀ s, inv None s → wp m (λ _ s', inv None s' ∧ calmer s s') bad s.
Lemma calm_quiet {A} (m : O A) : quiet m → calm m.
Proof. intros Hm s Hi. eapply wp_mono; [by eapply quiet_rule| |done]. cbn. intros _ s' [H1 H2]. split; [done|by apply said_calmer]. Qed.
Lemma calm_bind {A B} (m : O A) (f : A → O B) : calm m → (∀ a, calm (f a)) → calm (x ← m; f x).
Proof.
  intros Hm Hf s Hi. apply wp_bind. eapply wp_mono; [by apply Hm| |done]. cbn. intros a s1 [Hi1 H1].
  eapply wp_mono; [by apply Hf| |done]. cbn. intros _ s2 [Hi2 H2]. split; [done|by eapply calmer_trans].
Qed.
Lemma calm_if {A} (b : bool) (m n : O A) : calm m → calm n → calm (if b then m else n).
Proof. by destruct b. Qed.
Lemma calm_for_each {A} (f : A → O unit) l : (∀ x, calm (f x)) → calm (for_each f l).
Proof. intros Hf. induction l as [|x l IH]; [apply calm_quiet, quiet_ret|]. by apply calm_bind. Qed.
Lemma calm_block_report t why evid : calm (_block_with_report t why evid).
Proof.
  intros s Hi. eapply wp_mono; [by apply block_report_rule| |done]. cbn. intros _ s' (H1 & H2 & H3). split; [done|]. by apply (moved_calmer _ _ _ H2).
Qed.
Lemma calm_block i why : calm (_ ← on_life i (block why); _ ← notify i; _checkpoint).
Proof.
  intros s Hi. wp_step block_rule; [done|]. intros _ s1 (Hi1 & Hm1 & _ & l & Hl & Hst).
  wp_step (notify_rule None None); [done|by left|]. intros _ s2 (Hi2 & He2 & Hm2 & _).
  eapply wp_mono; [eapply quiet_rule; [apply quiet_checkpoint|done]| |done]. cbn beta. intros _ s3 [Hi3 Hs3]. split; [done|].
  eapply (moved_calmer i); [eauto 8 using moved_trans, said_moved|]. apply (left_in _ _ l [BLOCKED]); [|rewrite Hst; in_list|done].
  by rewrite (sd_lives _ _ Hs3), He2.
Qed.
Lemma calm_unresolvable : calm (_block_unresolvable plan gates gate_dict feature created_at).
Proof.
  apply calm_for_each. intros i. unfold block_one. apply calm_bind; [apply calm_quiet, quiet_life|intros l].
  apply calm_if; [apply calm_quiet, quiet_ret|]. apply calm_bind; [apply calm_quiet, quiet_task_of|intros t].
  destruct (_agent_block plan t) as [[why evid]|]; [apply calm_block_report|].
  apply calm_bind; [apply calm_quiet, quiet_lost|intros lost]. apply calm_if; [apply calm_block|apply calm_quiet, quiet_ret].
Qed.
Lemma calm_stalls wave : calm (_block_wave_stalls plan canonical gates gate_dict run_id feature created_at wall wave).
Proof.
  apply calm_for_each. intros i. unfold stall_one. apply calm_bind; [apply calm_quiet, quiet_task_of|intros t].
  apply calm_if; [apply calm_quiet, quiet_ret|]. apply calm_bind; [apply calm_quiet, quiet_life|intros l].
  apply calm_if; [apply calm_quiet, quiet_ret|]. cbv zeta. apply calm_bind; [apply calm_quiet, quiet_passed|intros passed].
  destruct (List.filter _ _); [apply calm_quiet, quiet_ret|apply calm_block].
Qed.

(** ** Waves *)

(** What [compute_ready_tasks] found about task [i] when the trace was [tr]. *)
Definition startable (tr : list effect) (i : string) : Prop :=
  ∃ t n, by_id plan i = Some t ∧ Models.t_id t = i ∧ Validation.ready plan (Validation.terminal_ids plan (done0 ++ announced tr) []) (passing n) t.
Lemma ready_mono done1 done2 passed t : done1 ⊆ done2 →
  Validation.ready plan (Validation.terminal_ids plan done1 []) passed t → Validation.ready plan (Validation.terminal_ids plan done2 []) passed t.
Proof. intros Hs [R1 R2 R3 R4]. split; [done|intros d Hd; by eapply terminal_mono, R2|intros o Ho Hb; by eapply terminal_mono, R3|done]. Qed.
Lemma startable_calmer s s' i : calmer s s' → startable (trace s) i → startable (trace s') i.
Proof.
  intros [[es ->] _] (t & n & H1 & H2 & H3). exists t, n. split_and!; [done..|]. eapply ready_mono; [|done]. rewrite announced_app. set_solver.
Qed.
Lemma by_id_task i t : by_id plan i = Some t → t ∈ Models.tasks plan ∧ Models.t_id t = i.
Proof. intros [Ht Hb]%find_some. split; [by apply list_elem_of_In|by bool_inv]. Qed.
Lemma by_id_unique t : NoDup (ids plan) → t ∈ Models.tasks plan → by_id plan (Models.t_id t) = Some t.
Proof.
  unfold ids, by_id. intros Hnd Ht. induction (Models.tasks plan) as [|u ts IH]; [by apply not_elem_of_nil in Ht|]. cbn. apply NoDup_cons in Hnd as [Hu Hnd].
  apply elem_of_cons in Ht as [->|Ht]; [by rewrite bool_decide_true|]. rewrite bool_decide_false; [by apply IH|].
  intros Heq. destruct Hu. rewrite Heq. by apply list_elem_of_fmap_2.
Qed.
Lemma in_states_spec sts s i : i ∈ in_states plan sts s ↔ i ∈ ids plan ∧ ∃ l, lifecycles s !! i = Some l ∧ state l ∈ sts.
Proof.
  unfold in_states, per_life. rewrite list_elem_of_omap. setoid_rewrite list_elem_of_omap. split.
  - intros (o & (j & Hj & Ho) & Hi). unfold id in Hi. subst o. destruct (lifecycles s !! j) as [l|] eqn:Hl; [|done]. cbn in Ho.
    case_bool_decide; [|done]. injection Ho as <-. split; [done|]. by exists l.
  - intros [Hi (l & Hl & Hs)]. exists (Some i). split; [|done]. exists i. split; [done|]. rewrite Hl. cbn. by rewrite bool_decide_true.
Qed.

Lemma passed_rule hold s : inv hold s →
  wp (passed_gates (map fst gates)) (λ passed s', inv hold s' ∧ said s s' ∧ ∃ n, passed = passing n) bad s.
Proof.
  intros Hi. unfold Orchestrator.passed_gates. apply wp_bind, wp_get, wp_bind, wp_modify.
  assert (said s (count_round s)) as Hs by (split; [done..|]; exists []; by rewrite app_nil_r).
  assert (inv hold (count_round s)) as Hi' by (destruct Hi; by split).
  destruct (map fst gates) as [|g gs] eqn:Hg.
  - apply wp_ret. split_and!; [done..|]. exists 0. unfold passing. rewrite Hg. by destruct (_gate_scope canonical plan).
  - apply wp_bind, wp_lift; [|destruct (_gate_scope canonical plan); [done|intros e He; injection He as <-; split; [apply Hi|done]]].
    intros scope Hsc. apply wp_ret. split_and!; [done..|]. exists (gate_rounds s). unfold passing. rewrite Hg.
    destruct (_gate_scope canonical plan); [|done]. by injection Hsc as ->.
Qed.
Lemma done_covered s : inv None s → in_states plan [COMPLETED; SKIPPED] s ⊆ done0 ++ announced (trace s).
Proof.
  intros [_ Hl] i (_ & l & Hi & Hs)%in_states_spec. apply elem_of_app. destruct (Hl i l Hi) as [_ _ _ _ H5 H6 _].
  apply list_elem_of_In in Hs as [Hs|[Hs|[]]]; [|left; by apply H5]. destruct (H6 (eq_sym Hs)) as [[?|[?|?]] _]; [by left|by right|done].
Qed.

Lemma ready_ids_rule s : NoDup (ids plan) → inv None s →
  wp _ready_ids (λ ready s', inv None s' ∧ said s s' ∧ ∀ i, i ∈ ready → active s' i ∧ startable (trace s') i) bad s.
Proof.
  intros Hnd Hi. unfold Orchestrator._ready_ids. wp_step passed_rule; [done|]. intros passed s1 (Hi1 & Hs1 & n & ->).
  apply wp_bind, wp_get, wp_bind, wp_lift; [|intros e He; split; [apply Hi1|by destruct (Validation.compute_ready_tasks _ _ _ _); simplify_eq]].
  intros ready Hready. apply wp_ret. split_and!; [done..|]. intros i [Hin Hf]%list_elem_of_In%filter_In. apply list_elem_of_In in Hin.
  apply andb_true_iff in Hf as [[Hw Hseen]%andb_true_iff _]. destruct (lifecycles s1 !! i) as [l|] eqn:Hl; [|done].
  split; [exists l; split_and!; [done..|]; by bool_inv|].
  unfold Validation.compute_ready_tasks in Hready. destruct (_ ≫= _) as [found|e] eqn:Hc in Hready; [|done]. injection Hready as ->.
  unfold Validation.normalized in Hc. cbn [map_err Models.from_dict mbind res_bind] in Hc. res_inv.
  apply list_elem_of_fmap in Hin as (t & -> & [Hr Ht]%list_elem_of_filter). rewrite Validation.elem_of_sort_tasks in Ht.
  apply Validation.is_ready_spec in Hr; [|done]. exists t, n. split; [by apply by_id_unique|]. split; [done|].
  destruct Hr as [R1 R2 R3 R4]. assert (Hsub := done_covered s1 Hi1).
  assert (∀ j, j ∈ Validation.terminal_ids plan (in_states plan [COMPLETED; SKIPPED] s1) (in_states plan [SKIPPED] s1) →
            j ∈ Validation.terminal_ids plan (done0 ++ announced (trace s1)) []) as Hterm.
  { intros j. unfold Validation.terminal_ids. rewrite !elem_of_app. intros [Hj|[Hj|Hj]]; [left; apply elem_of_app, Hsub, Hj| |by do 2 right].
    left. apply elem_of_app, Hsub. apply in_states_spec in Hj as (Hj & l' & Hl' & Hst). apply in_states_spec. split; [done|]. exists l'. split; [done|]. by right. }
  split; [done|intros d Hd; by apply Hterm, R2|intros o Ho Hb; by apply Hterm, R3|done].
Qed.

#[local] Notation run_one := (Orchestrator.run_one plan canonical timeout_seconds dry_run gates gate_dict context feature created_at clock dispatch commit).
#[local] Notation wave_loop := (Orchestrator.wave_loop plan canonical max_parallel timeout_seconds dry_run gates gate_dict context run_id feature created_at clock wall dispatch commit).
#[local] Notation run_wave := (Orchestrator.run_wave plan canonical max_parallel timeout_seconds dry_run gates gate_dict context run_id feature created_at clock wall dispatch commit).
#[local] Notation run_waves := (Orchestrator.run_waves plan canonical max_parallel timeout_seconds dry_run gates gate_dict context run_id feature created_at clock wall dispatch commit).

Lemma dry_run_rule t s : inv None s →
  wp (_mark_dry_run t) (λ _ s', inv None s' ∧ calmer s s' ∧ ¬ active s' (Models.t_id t)) bad s.
Proof.
  intros [Hlaw Hl]. unfold _mark_dry_run. apply wp_bind, wp_modify. set (s1 := add_seen _ _). assert (inv None s1) as Hi1 by by split.
  assert (calmer s s1 ∧ ¬ active s1 (Models.t_id t)) as [Hc1 Hn1].
  { split; [split; [exists []; by rewrite app_nil_r|]|].
    - intros i (l & H1 & H2 & H3). exists l. split_and!; [done..|]. cbn in H3. set_solver.
    - intros (l & _ & _ & H). apply H. left. }
  wp_quiet quiet_life; [done|]. intros l s2 [Hi2 Hs2%said_calmer].
  eapply wp_mono; [eapply quiet_rule; [apply quiet_publish|done]| |done]. cbn beta. intros _ s3 [Hi3 Hs3%said_calmer].
  split; [done|]. split; [eauto using calmer_trans|]. intros Ha. by apply Hn1, Hs2, Hs3.
Qed.
Lemma run_one_rule i s : inv None s → startable (trace s) i → wp (run_one i) (λ _ s', inv None s' ∧ calmer s s' ∧ ¬ active s' i) bad s.
Proof.
  intros Hi (t & n & Hby & <- & Hready). unfold Orchestrator.run_one. apply wp_bind. unfold task_of. rewrite Hby.
  apply wp_lift; [|done]. intros t' Ht. injection Ht as <-. destruct dry_run eqn:Hdry; [by apply dry_run_rule|].
  eapply wp_mono; [eapply execute_rule; [done..|exact Hready]| |done]. cbn beta. intros _ s' (H1 & H2 & H3). split; [done|]. by apply (moved_calmer _ _ _ H2).
Qed.
Lemma batch_rule batch s : inv None s → (∀ i, i ∈ batch → startable (trace s) i) →
  wp (for_each run_one batch) (λ _ s', inv None s' ∧ calmer s s' ∧ ∀ i, i ∈ batch → ¬ active s' i) bad s.
Proof.
  revert s. induction batch as [|i batch IH]; intros s Hi Hst.
  - split; [done|]. split; [apply calmer_refl|]. intros i H. by apply not_elem_of_nil in H.
  - cbn [for_each]. wp_step run_one_rule; [done|by apply Hst; left|]. intros _ s1 (Hi1 & Hc1 & Hn1).
    eapply wp_mono; [apply IH; [done|intros j Hj; eapply startable_calmer; [done|]; apply Hst; by right]| |done].
    cbn beta. intros _ s2 (Hi2 & Hc2 & Hn2). split; [done|]. split; [by eapply calmer_trans|].
    intros j [->|Hj]%elem_of_cons; [|by apply Hn2]. intros Ha. by apply Hn1, Hc2.
Qed.

(** The measure of a wave: the tasks it could still pick. *)
Definition remaining (s : orch) : list string := filter (active s) (ids plan).
Lemma filter_length_le {A} (P Q : A → Prop) `{!∀ x, Decision (P x), !∀ x, Decision (Q x)} l : (∀ x, P x → Q x) → (length (filter P l) ≤ length (filter Q l))%nat.
Proof.
  intros HPQ. induction l as [|x l IH]; [done|]. rewrite !filter_cons. case_decide as H1; [rewrite decide_True by auto; cbn; lia|]. case_decide; cbn; lia.
Qed.
Lemma filter_length_lt {A} (P Q : A → Prop) `{!∀ x, Decision (P x), !∀ x, Decision (Q x)} l y :
  (∀ x, P x → Q x) → y ∈ l → Q y → ¬ P y → (length (filter P l) < length (filter Q l))%nat.
Proof.
  intros HPQ Hy HQ HP. apply list_elem_of_split in Hy as (l1 & l2 & ->). rewrite !filter_app, !filter_cons, !length_app. rewrite decide_False, decide_True by done. cbn.
  assert (H1 := filter_length_le P Q l1 HPQ). assert (H2 := filter_length_le P Q l2 HPQ). lia.
Qed.
Lemma remaining_calmer s s' : calmer s s' → (length (remaining s') ≤ length (remaining s))%nat.
Proof. intros [_ Ha]. by apply filter_length_le. Qed.
Lemma remaining_less s s' i : calmer s s' → i ∈ ids plan → active s i → ¬ active s' i → (length (remaining s') < length (remaining s))%nat.
Proof. intros [_ Ha] Hin Hs Hs'. by apply (filter_length_lt _ _ _ i). Qed.

Context (plan_ids : NoDup (ids plan)) (parallel_pos : (1 ≤ max_parallel)%nat).

Lemma wave_loop_rule fuel wave s : inv None s → (length (remaining s) < fuel)%nat →
  wp (wave_loop fuel wave) (λ _ s', inv None s' ∧ calmer s s') bad s.
Proof using Type*.
  revert s. induction fuel as [|fuel IH]; intros s Hi Hf; [lia|]. cbn [Orchestrator.wave_loop].
  wp_step ready_ids_rule; [done..|]. intros all s1 (Hi1 & Hs1%said_calmer & Hall). cbv zeta.
  destruct (List.filter _ all) as [|i ready] eqn:Hready; [by split|].
  assert (∀ j, j ∈ i :: ready → active s1 j ∧ startable (trace s1) j) as Hin.
  { intros j Hj. apply Hall. rewrite <- Hready in Hj. apply list_elem_of_In, filter_In in Hj as [Hj _]. by apply list_elem_of_In. }
  assert (∀ j, j ∈ take max_parallel (i :: ready) → j ∈ i :: ready) as Htake by (intros j Hj; apply elem_of_take in Hj as (k & Hk & _); by eapply list_elem_of_lookup_2).
  wp_step batch_rule; [done|intros j Hj; by apply Hin, Htake|]. intros _ s2 (Hi2 & Hc2 & Hn2).
  wp_step calm_unresolvable; [done|]. intros _ s3 [Hi3 Hc3].
  assert (length (remaining s3) < length (remaining s1))%nat as Hless.
  { apply Nat.le_lt_trans with (length (remaining s2)); [by apply remaining_calmer|]. destruct (Hin i) as [Ha (t & n & Hby & Hid & _)]; [left|].
    apply remaining_less with i; [done| |done|].
    - apply by_id_task in Hby as [Ht <-]. by apply list_elem_of_fmap_2.
    - apply Hn2. destruct max_parallel; [lia|left]. }
  assert (H1 := remaining_calmer _ _ Hs1).
  wp_step IH; [done|lia|]. intros rest s4 [Hi4 Hc4]. apply wp_ret. split; [done|eauto using calmer_trans].
Qed.
Lemma run_wave_rule wave s : inv None s → wp (run_wave wave) (λ _ s', inv None s' ∧ calmer s s') bad s.
Proof using Type*.
  intros Hi. unfold Orchestrator.run_wave. apply wp_bind, wp_modify. set (s1 := set_wave _ _).
  assert (inv None s1) as Hi1 by (destruct Hi; by split).
  assert (calmer s s1) as Hc1 by (apply said_calmer; split; [done..|]; exists []; by rewrite app_nil_r).
  wp_step wave_loop_rule; [done| |].
  - unfold remaining. rewrite <- (length_map Models.t_id (Models.tasks plan)). apply Nat.lt_succ_r, length_filter.
  - intros batches s2 [Hi2 Hc2]. wp_step calm_stalls; [done|]. intros _ s3 [Hi3 Hc3]. apply wp_ret. split; [done|eauto using calmer_trans].
Qed.
Lemma run_waves_rule waves s : inv None s → wp (run_waves waves) (λ _ s', inv None s' ∧ calmer s s') bad s.
Proof using Type*.
  revert s. induction waves as [|w waves IH]; intros s Hi; [split; [done|apply calmer_refl]|]. cbn [Orchestrator.run_waves].
  wp_step run_wave_rule; [done|]. intros b s1 [Hi1 Hc1]. wp_step IH; [done|]. intros rest s2 [Hi2 Hc2]. apply wp_ret. split; [done|by eapply calmer_trans].
Qed.

Lemma run_rule reconciliation s : inv None s →
  wp (run plan canonical max_parallel timeout_seconds dry_run gates gate_dict context run_id feature created_at reconciliation clock wall dispatch commit)
    (λ _ s', inv None s') bad s.
Proof using Type*.
  intros Hi. unfold run. destruct reconciliation as [[why d]|]; [done|].
  wp_step calm_unresolvable; [done|]. intros _ s1 [Hi1 _].
  apply wp_bind, wp_lift; [|intros e He; split; [apply Hi1|by destruct (_ordered_waves plan); simplify_eq]]. intros waves _.
  wp_step run_waves_rule; [done|]. intros batches s2 [Hi2 _]. wp_step calm_unresolvable; [done|]. intros _ s3 [Hi3 _].
  by apply wp_bind, wp_get, wp_ret.
Qed.
End law.

(** ** From construction *)

Lemma post_init_ok st l l' : __post_init__ st l = Ok l' →
  _state st = Ok (state l') ∧ task_id l' = task_id l ∧ max_attempts l' = max_attempts l ∧ (1 ≤ max_attempts l')%Z ∧ (0 ≤ attempt l' ≤ max_attempts l')%Z.
Proof. unfold __post_init__. intros H. res_inv. bool_inv. cbn. split_and!; [done..|lia|lia|lia]. Qed.
Lemma state_of_string_value s st : state_of_string s = Some st → state_value st = s.
Proof. intros H%head_Some_elem_of. by apply list_elem_of_filter in H as [H _]. Qed.
Lemma resumed_idle snap t l : resume_task snap t = Ok l →
  task_id l = Models.t_id t ∧ max_attempts l = Models.max_attempts (Models.t_retry_policy t) ∧ (1 ≤ max_attempts l ∧ 0 ≤ attempt l ≤ max_attempts l)%Z ∧ state l ≠ RUNNING.
Proof.
  unfold resume_task. destruct (match snap with Some _ => _ | None => _ end) as [st l0] eqn:E. intros H. destruct (__post_init__ st l0) as [l'|] eqn:Hp; [|done]. injection H as ->.
  apply post_init_ok in Hp as (Hs & -> & -> & H1 & H2). destruct snap as [k|]; injection E as <- <-; cbn in *; (split_and!; [done|done|lia|lia|lia|]).
  - injection Hs as <-. by case_bool_decide.
  - intros Hr. rewrite Hr in Hs. case_bool_decide as Ht; [done|]. destruct (state_of_string _) eqn:Hv; [|done]. injection Hs as ->. by apply state_of_string_value in Hv.
Qed.
Lemma resume_inv plan canonical dry_run gates context run_id wall snaps saved s : NoDup (ids plan) → _resume plan snaps saved = Ok s →
  inv plan canonical dry_run gates context run_id wall (in_states plan [COMPLETED; SKIPPED] s) None s.
Proof.
  unfold _resume. intros Hnd (lives & Hlives & H)%bind_ok. apply ok_inj in H. subst s. split; [constructor|]. cbn. intros i l Hl.
  assert (Hin := elem_of_list_to_map_2 _ _ _ Hl). apply mapM_res_ok in Hlives. apply list_elem_of_lookup in Hin as [k Hk].
  destruct (Forall2_lookup_r _ _ _ _ _ Hlives Hk) as (t & Ht & Hf). apply bind_ok in Hf as (l' & Hr & Hf). apply ok_inj in Hf. injection Hf as <- <-.
  apply list_elem_of_lookup_2 in Ht. assert (Models.t_id t ∈ ids plan) as Hid by by apply list_elem_of_fmap_2.
  apply resumed_idle in Hr as (H1 & H2 & H3 & H4).
  assert (∀ sts, state l' ∈ sts → Models.t_id t ∈ in_states plan sts (MkOrch (list_to_map lives) (map resume_report saved) [] 0 0 [] 0 0 0 0 [])) as Hdone.
  { intros sts Hs. apply in_states_spec. split; [done|]. by exists l'. }
  split; [done|exists t; split; [by apply by_id_unique|done]|done| | | |done].
  - intros a Ha. by apply not_elem_of_nil in Ha.
  - intros Hs. apply Hdone. rewrite Hs. in_list.
  - intros Hs. split; left; apply Hdone; rewrite Hs; in_list.
Qed.

(** The attempts with which task [i] was dispatched. *)
Definition attempts_of (i : string) (tr : list effect) : list Z :=
  omap (λ e, match e with EDispatch j a => if bool_decide (j = i) then Some a else None | _ => None end) tr.
Lemma attempts_of_in i tr a : a ∈ attempts_of i tr ↔ dispatched_at tr i a.
Proof.
  unfold attempts_of, dispatched_at. rewrite list_elem_of_omap. split.
  - intros (e & He & Hs). destruct e; try done. case_bool_decide; [|done]. by simplify_eq.
  - intros H. exists (EDispatch i a). split; [done|]. by rewrite bool_decide_true.
Qed.
Lemma attempts_of_snoc i tr e : attempts_of i (tr ++ [e]) = attempts_of i tr ++ attempts_of i [e].
Proof. apply omap_app. Qed.
(** Increasing numbers from 1 are at most as many as the last. *)
Lemma increasing_snoc l (a : Z) : Sorted.StronglySorted Z.lt l → (∀ b, b ∈ l → (b < a)%Z) → Sorted.StronglySorted Z.lt (l ++ [a]).
Proof.
  induction 1 as [|x l Hl IH Hx]; intros Ha; [by repeat constructor|]. cbn. constructor.
  - apply IH. intros b Hb. apply Ha. by right.
  - apply Forall_app. split; [done|]. constructor; [|done]. apply Ha. left.
Qed.
Lemma increasing_length (l : list Z) (lo hi : Z) : Sorted.StronglySorted Z.lt l → Forall (λ a, (lo ≤ a ≤ hi)%Z) l → (lo ≤ hi + 1)%Z → (Z.of_nat (length l) ≤ hi - lo + 1)%Z.
Proof.
  intros Hs. revert lo. induction Hs as [|x l Hl IH Hx]; intros lo Hf Hlo; [cbn; lia|]. apply Forall_cons in Hf as [Hb Hf]. cbn.
  assert (Z.of_nat (length l) ≤ hi - (x + 1) + 1)%Z; [|lia]. apply IH; [|lia].
  apply Forall_forall. intros y Hy. rewrite Forall_forall in Hx, Hf. specialize (Hx y Hy). specialize (Hf y Hy). lia.
Qed.
Lemma lawful_attempts plan canonical dry_run gates context run_id wall done0 tr i :
  lawful plan canonical dry_run gates context run_id wall done0 tr →
  attempts_of i tr = [] ∨ dry_run = false ∧ ∃ t, by_id plan i = Some t ∧ Sorted.StronglySorted Z.lt (attempts_of i tr) ∧
    Forall (λ a, (1 ≤ a ≤ Models.max_attempts (Models.t_retry_policy t))%Z) (attempts_of i tr).
Proof.
  induction 1 as [|tr e Htr IH He|tr t a Htr IH Hmay Ha Hpast]; [by left| |]; rewrite attempts_of_snoc.
  - assert (attempts_of i [e] = []) as -> by by destruct e. by rewrite app_nil_r.
  - cbn. case_bool_decide as Hi; [|by rewrite app_nil_r]. subst i. right. split; [apply Hmay|]. exists t. split; [apply Hmay|].
    assert (∀ b, b ∈ attempts_of (Models.t_id t) tr → (b < a)%Z) as Hlt by (intros b Hb; apply Hpast; by apply attempts_of_in).
    destruct IH as [->|(_ & t' & Hby & Hs & Hf)]; [split; repeat constructor; lia|].
    assert (t' = t) as -> by (assert (Hb := md_task _ _ _ _ _ _ _ _ _ _ Hmay); congruence).
    split; [by apply increasing_snoc|]. apply Forall_app. split; [done|by repeat constructor; lia].
Qed.

(** ** Properties *)

(** No task is running. *)
Definition at_rest (s : orch) : Prop := ∀ i l, lifecycles s !! i = Some l → state l ≠ RUNNING.

Section properties.
  Context (plan : FleetPlan) (canonical : option dict) (max_parallel : nat) (timeout_seconds : option spec_float) (dry_run : bool)
    (gates : list (string * gate_value)) (gate_dict : gate_value → pyval) (context : option dict) (run_id : pyval) (feature created_at : string)
    (reconciliation : option (string * pyval))
    (clock : nat → spec_float) (wall : nat → string → Z) (dispatch : nat → TaskSpec → Z → reply) (commit : option (nat → pyval → bool))
    (snaps : gmap string TaskLifecycle) (saved : list pyval) (s : orch).
#[local] Notation the_run := (run plan canonical max_parallel timeout_seconds dry_run gates gate_dict context run_id feature created_at reconciliation clock wall dispatch commit s).
#[local] Notation done0 := (in_states plan [COMPLETED; SKIPPED] s).

Lemma run_result : NoDup (ids plan) → (1 ≤ max_parallel)%nat → _resume plan snaps saved = Ok s →
  match the_run with
  | (s', Ok _) => inv plan canonical dry_run gates context run_id wall done0 None s'
  | (s', Err e) => bad plan canonical dry_run gates context run_id wall done0 e s' end.
Proof. intros Hnd Hpos Hs. apply run_rule; [done..|]. by eapply resume_inv. Qed.

(** C4: The trace of every run is a behaviour of the abstract system [lawful],
    whatever the dispatcher, the clocks and the commit hook do and however the
    run ends: a task is dispatched only when its dependencies and every task of
    an earlier wave were done before the run, carry a final status in the plan,
    or have been announced as completed, with the gates of its wave passed,
    an agent that fits, its inputs present and no blocking condition, and with
    an attempt above all earlier ones and within the limit; and a task is
    announced as completed only when it was done before or has been dispatched. *)
Theorem orchestrator_lawful : NoDup (ids plan) → (1 ≤ max_parallel)%nat → _resume plan snaps saved = Ok s →
  lawful plan canonical dry_run gates context run_id wall done0 (trace the_run.1).
Proof. intros H1 H2 H3. assert (H := run_result H1 H2 H3). destruct the_run as [s' [r|e]]; apply H. Qed.

(** C5: A run ends: the loops of the waves and of the attempts stop within the
    fuel they are given, one more than the tasks of the plan and the number of
    attempts of the task.  When it returns, no task is left running. *)
Theorem orchestrator_ends : NoDup (ids plan) → (1 ≤ max_parallel)%nat → _resume plan snaps saved = Ok s →
  the_run.2 ≠ Err OrchFuel ∧
  (is_ok the_run.2 = true → at_rest the_run.1).
Proof.
  intros H1 H2 H3. assert (H := run_result H1 H2 H3). destruct the_run as [s' [r|e]]; cbn; (split; [|try done]).
  - done.
  - intros _ i l Hl Hr. destruct H as [_ Hlives]. destruct (Hlives i l Hl) as [_ _ _ _ _ _ H7]. by apply H7 in Hr.
  - intros [= ->]. by apply H.
Qed.

(** C6: The attempts with which a run dispatches a task increase strictly, from 1
    to the limit of its retry policy, which also bounds their number; a dry
    run dispatches nothing, and so does a run of a plan without the task. *)
Theorem attempts_bounded (i : string) : NoDup (ids plan) → (1 ≤ max_parallel)%nat → _resume plan snaps saved = Ok s →
  let l := attempts_of i (trace the_run.1) in
  Sorted.StronglySorted Z.lt l ∧ (l ≠ [] → dry_run = false ∧ ∃ t, by_id plan i = Some t ∧
    Forall (λ a, (1 ≤ a ≤ Models.max_attempts (Models.t_retry_policy t))%Z) l ∧ (Z.of_nat (length l) ≤ Models.max_attempts (Models.t_retry_policy t))%Z).
Proof.
  intros H1 H2 H3 l. assert (lawful plan canonical dry_run gates context run_id wall done0 (trace the_run.1)) as H.
  { assert (H := run_result H1 H2 H3). destruct the_run as [s' [r|e]]; apply H. }
  apply (lawful_attempts _ _ _ _ _ _ _ _ _ i) in H. fold l in H. destruct H as [->|(Hd & t & Hby & Hs & Hf)]; [split; [constructor|done]|].
  split; [done|]. intros Hne. split; [done|]. exists t. split_and!; [done..|].
  destruct l as [|a l]; [done|]. apply Forall_cons in Hf as Hf'. destruct Hf' as [Ha _]. assert (Hlen := increasing_length _ 1 _ Hs Hf ltac:(lia)). lia.
Qed.
End properties.

Definition two_tasks : FleetPlan := demo_plan 2 [("b", ["a"]); ("a", [])].
Definition fails_once (n : nat) (t : TaskSpec) (a : Z) : reply := if (a =? 1)%Z then Orchestrator.bad else good.
Lemma orchestrator_lawful_witness :
  _resume two_tasks ∅ [] = Ok (demo_start two_tasks) ∧
  lawful two_tasks None false [] None VNone (λ _ _, 0%Z) (in_states two_tasks [COMPLETED; SKIPPED] (demo_start two_tasks)) (trace (demo_run None two_tasks fails_once).1).
Proof.
  assert (_resume two_tasks ∅ [] = Ok (demo_start two_tasks)) as H by (vm_compute; reflexivity). split; [exact H|].
  refine (orchestrator_lawful two_tasks None 2 None false [] (λ _, VNone) None VNone "fleet" "1970-01-01T00:00:00+00:00" None _ (λ _ _, 0%Z) fails_once None ∅ [] (demo_start two_tasks) _ _ H).
  - apply (bool_decide_unpack _). vm_compute. exact I.
  - lia.
Defined.
Lemma orchestrator_ends_witness :
  (demo_run None two_tasks fails_once).2 ≠ Err OrchFuel.
Proof.
  refine (proj1 (orchestrator_ends two_tasks None 2 None false [] (λ _, VNone) None VNone "fleet" "1970-01-01T00:00:00+00:00" None _ (λ _ _, 0%Z) fails_once None ∅ [] (demo_start two_tasks) _ _ _)).
  - apply (bool_decide_unpack _). vm_compute. exact I.
  - lia.
  - vm_compute. reflexivity.
Defined.
Lemma attempts_bounded_witness :
  attempts_of "b" (trace (demo_run None two_tasks fails_once).1) = [1%Z; 2%Z] ∧
  Sorted.StronglySorted Z.lt (attempts_of "b" (trace (demo_run None two_tasks fails_once).1)).
Proof.
  split; [vm_compute; reflexivity|].
  refine (proj1 (attempts_bounded two_tasks None 2 None false [] (λ _, VNone) None VNone "fleet" "1970-01-01T00:00:00+00:00" None _ (λ _ _, 0%Z) fails_once None ∅ [] (demo_start two_tasks) "b" _ _ _)).
  - apply (bool_decide_unpack _). vm_compute. exact I.
  - lia.
  - vm_compute. reflexivity.
Defined.
