(* ===== verification/Provider.v ===== *)
(** * Provider profiles (scripts/pd_fleet/provider.py)

    The boundary to providers: immutable copies and redaction of what is handed
    in, requests and responses, the disabled adapter and its factory, and the
    runtime profiles with the readiness that is derived from them.  An object
    that is no mapping, sequence or scalar is refused wherever it is copied. *)

From S2P Require Import Prelude PyStr PyNum PyVal Regex Redaction SafeRendering.

Open Scope string_scope.

Notation dict := (list (pyval * pyval)).

Definition PROVIDER_SCHEMA_VERSION : string := "pd-provider:v1".
Definition DISABLED_AUDIT_REASON : string := "external providers disabled by policy".

Inductive provider_error : Type :=
| ProviderConfigurationError
| ProviderCapabilityError
| ProviderDisabledError
| ProviderTypeError.
#[export] Instance provider_error_eq_dec : EqDecision provider_error.
Proof. solve_decision. Defined.
Definition pres : Type → Type := res provider_error.
Definition rejected {A} : pres A := Err ProviderConfigurationError.
(** [if not b: raise _configuration_rejected()] *)
Definition accept (b : bool) : pres unit := ensure b ProviderConfigurationError.

(** ** Patterns *)

Definition sensitive_word : re :=
  ralt [rlit_ci "credential"; rlit_ci "secret"; rlit_ci "token"; rlit_ci "password"; rseq [rlit_ci "api"; key_gap; rlit_ci "key"];
        rseq [rlit_ci "access"; key_gap; ralt [rlit_ci "key"; rlit_ci "token"]]; rseq [rlit_ci "private"; key_gap; rlit_ci "key"];
        rlit_ci "authorization"; rlit_ci "bearer"].
Definition _SENSITIVE : re := sensitive_word.
Definition sensitive_key (key : string) : bool := search _SENSITIVE key.
#[local] Arguments sensitive_key : simpl never.
Definition not_after_name : re := RNotAfter (λ c, is_alnum c || one_of "_" c).
Definition bare_text : re := rplus (rnot_space ",;}]").
Definition is_eol (c : ascii) : bool := (code c =? 10)%nat || (code c =? 13)%nat.
Definition quoted_by (q : ascii) : re := rseq [RChar (Ascii.eqb q); rstar (RChar (λ c, negb (Ascii.eqb q c || is_eol c))); RChar (Ascii.eqb q)].
Definition _SECRET_ASSIGNMENT : re :=
  rseq [not_after_name;
        ralt [rlit_ci "token"; rlit_ci "password"; rseq [rlit_ci "api"; key_gap; rlit_ci "key"];
              rseq [rlit_ci "access"; key_gap; ralt [rlit_ci "key"; rlit_ci "token"]]; rlit_ci "secret"; rlit_ci "credential";
              rlit_ci "authorization"; rseq [rlit_ci "private"; key_gap; rlit_ci "key"]];
        rstar rspace; rchr "=:"; rstar rspace; ralt [quoted_by dquote; quoted_by "'"; bare_text]].
Definition _BEARER_VALUE : re :=
  rseq [not_after_name; rlit_ci "bearer"; ralt [rplus rspace; rseq [rstar rspace; rchr "=:"; rstar rspace]]; bare_text].
Definition _URL : re := _EXTERNAL_URL.
(** The classes of the path pattern name the ASCII white space. *)
Definition is_blank_ascii (c : ascii) : bool := between 9 13 c || (code c =? 32)%nat.
Definition path_tail : re := RChar (λ c, negb (is_blank_ascii c || is_quote c || one_of "<>;," c)).
Definition a_backslash : re := RChar (λ c, (code c =? 92)%nat).
Definition a_slash : re := ralt [a_backslash; rchr "/"].
Definition _ABSOLUTE_PATH : re :=
  rseq [RNotAfter (λ c, is_word c || one_of "." c);
        ralt [rseq [rchr "~"; a_slash; rstar path_tail]; rseq [rchr "/"; rplus path_tail];
              rseq [RChar is_alpha; rchr ":"; a_slash; rstar path_tail]; rseq [a_backslash; a_backslash; rplus path_tail]]].

(** ** Copies, redaction and checks of data *)

Fixpoint _immutable (value : pyval) : pres pyval :=
  match value with
  | VDict kvs | VProxy kvs => VProxy <$> mapM (λ kv, _ ← accept (is_str kv.1); w ← _immutable kv.2; Ok (kv.1, w)) kvs
  | VList l | VTuple l => VTuple <$> mapM _immutable l
  | VOther _ => rejected
  | _ => Ok value
  end.
#[local] Arguments sub : simpl never.
Definition redact_string (s : string) : string := sub _ABSOLUTE_PATH (λ _, "[PATH REDACTED]") (sub _URL (λ _, "[URL REDACTED]") s).
Fixpoint _redact (key : string) (value : pyval) : pres pyval :=
  if sensitive_key key then Ok (VStr "[REDACTED]") else
  match value with
  | VDict kvs | VProxy kvs => VDict <$> mapM (λ kv, match kv.1 with VStr k => w ← _redact k kv.2; Ok (VStr k, w) | _ => rejected end) kvs
  | VList l | VTuple l => VList <$> mapM (_redact "") l
  | VStr s => Ok (VStr (redact_string s))
  | _ => Ok value
  end.
Fixpoint _validate_injection (value : pyval) : bool :=
  match value with
  | VDict kvs | VProxy kvs => forallb (λ kv, match kv.1 with VStr k => negb (sensitive_key k) && _validate_injection kv.2 | _ => false end) kvs
  | VList l | VTuple l => forallb _validate_injection l
  | _ => true
  end.
Fixpoint _validate_metadata (value : pyval) : bool :=
  match value with
  | VDict kvs | VProxy kvs => forallb (λ kv, is_str kv.1 && _validate_metadata kv.2) kvs
  | VList l | VTuple l => forallb _validate_metadata l
  | VStr s => negb (search _SECRET_ASSIGNMENT s || search _BEARER_VALUE s)
  | _ => true
  end.
(** The metadata a constructor stores. *)
Definition stored_metadata (metadata : pyval) : pres pyval :=
  _ ← accept (is_mapping metadata);
  _ ← accept (_validate_metadata metadata);
  v ← _redact "" metadata;
  _immutable v.

Definition sorted_names (l : list string) : list string := sort_strings (remove_dups l).
(** Non-empty strings in a sequence. *)
Definition names_of (values : pyval) : pres (list string) :=
  match elems values with
  | Some l => match mapM as_str l with
              | Some names => if forallb nonempty names then Ok names else rejected
              | None => rejected end
  | None => rejected
  end.
Definition _caps (values : pyval) : pres (list string) := sorted_names <$> names_of values.
Definition RUNTIME_CAPABILITIES : list string := ["read"; "write"; "execute"; "network"; "provider_network"; "shell"; "nested_agents"].
Definition _PROVIDER_NETWORK_CONFLICTS : list string := ["write"; "execute"; "shell"; "network"; "nested_agents"].
Definition is_subset (l k : list string) : bool := forallb (λ x, bool_decide (x ∈ k)) l.
Definition meets (l k : list string) : bool := existsb (λ x, bool_decide (x ∈ k)) l.
Definition _runtime_caps (values : pyval) : pres (list string) :=
  result ← _caps values;
  _ ← accept (is_subset result RUNTIME_CAPABILITIES);
  Ok result.
Definition id_char (c : ascii) : bool := is_lower c || is_digit c.
Definition _runtime_identifier (value : pyval) : pres string :=
  match value with
  | VStr s =>
      _ ← accept (ident id_char (λ c, id_char c || one_of "._-" c) None s && negb (sensitive_key s || search _URL s || search _ABSOLUTE_PATH s) &&
                  str_forallb (λ c, negb (is_control c || (code c =? 127)%nat)) s);
      Ok s
  | _ => rejected
  end.
Definition audit_reason_ok (value : pyval) : bool := key_is DISABLED_AUDIT_REASON value.
Definition version_ok (value : pyval) : bool := key_is PROVIDER_SCHEMA_VERSION value.

(** ** Requests, responses and the disabled adapter *)

Inductive ProviderStatus : Type := PsDISABLED | PsOK | PsERROR.
Definition status_value (s : ProviderStatus) : string := match s with PsDISABLED => "disabled" | PsOK => "ok" | PsERROR => "error" end.
Definition status_of (v : pyval) : option ProviderStatus := List.find (λ s, key_is (status_value s) v) [PsDISABLED; PsOK; PsERROR].

Record ProviderRequest : Type := MkRequest { rq_role : string; rq_capabilities : list string; rq_owner : string; rq_payload : pyval }.
Definition new_request (role capabilities owner payload version : pyval) : pres ProviderRequest :=
  _ ← accept (version_ok version);
  match role with
  | VStr r =>
      _ ← accept (nonempty r);
      caps ← _caps capabilities;
      match owner with
      | VStr o => _ ← accept (is_mapping payload); _ ← accept (_validate_injection payload); p ← _immutable payload; Ok (MkRequest r caps o p)
      | _ => rejected
      end
  | _ => rejected
  end.
Record ProviderResponse : Type := MkResponse { rs_status : ProviderStatus; rs_provider_name : string; rs_metadata : pyval }.
Definition new_response (status : ProviderStatus + pyval) (provider_name audit_reason metadata version : pyval) : pres ProviderResponse :=
  _ ← accept (version_ok version);
  match (match status with inl s => Some s | inr v => status_of v end), provider_name with
  | Some s, VStr n =>
      _ ← accept (nonempty n); _ ← accept (audit_reason_ok audit_reason); m ← stored_metadata metadata; Ok (MkResponse s n m)
  | _, _ => rejected
  end.
Record ProviderPolicy : Type := MkPolicy { pp_allowed : list string; pp_capabilities : list string }.
Definition new_policy (allowed capabilities audit_reason : pyval) : pres ProviderPolicy :=
  names ← names_of allowed;
  caps ← _caps capabilities;
  _ ← accept (audit_reason_ok audit_reason);
  Ok (MkPolicy (sorted_names names) caps).
Record DisabledProvider : Type := MkDisabled { dp_metadata : pyval }.
Definition new_disabled (audit_reason metadata name : pyval) : pres DisabledProvider :=
  _ ← accept (audit_reason_ok audit_reason);
  _ ← accept (key_is "disabled" name);
  MkDisabled <$> stored_metadata metadata.
(** [invoke]: the argument is a request, or not. *)
Definition invoke (p : DisabledProvider) (request : option ProviderRequest) : pres ProviderResponse :=
  match request with None => rejected | Some _ => Err ProviderDisabledError end.
(** [create_provider]; [injected] tells whether credentials or a network were passed, and
    [policy] is [inr] for an object that is no policy. *)
Definition create_provider (provider_name required : pyval) (policy : option (ProviderPolicy + pyval)) (injected : bool) (metadata : option pyval) : pres DisabledProvider :=
  _ ← accept (negb injected);
  _ ← accept (match metadata with Some m => is_mapping m && _validate_metadata m | None => true end);
  match provider_name with
  | VStr name =>
      _ ← accept (nonempty name);
      selected ← (match policy with
                  | None => new_policy (VTuple [VStr "disabled"]) (VTuple []) (VStr DISABLED_AUDIT_REASON)
                  | Some (inl p) => Ok p
                  | Some (inr _) => rejected end);
      requested ← _caps required;
      _ ← ensure (is_subset requested (pp_capabilities selected)) ProviderCapabilityError;
      _ ← accept (bool_decide (name = "disabled"));
      _ ← accept (bool_decide ("disabled" ∈ pp_allowed selected));
      new_disabled (VStr DISABLED_AUDIT_REASON) (default (VDict []) metadata) (VStr "disabled")
  | _ => rejected
  end.

(** ** Runtime profiles *)

Inductive ReadinessStatus : Type := UNKNOWN | READY | NOT_READY | BLOCKED | ERROR.
#[export] Instance readiness_eq_dec : EqDecision ReadinessStatus.
Proof. solve_decision. Defined.
Definition readiness_value (s : ReadinessStatus) : string :=
  match s with UNKNOWN => "unknown" | READY => "ready" | NOT_READY => "not_ready" | BLOCKED => "blocked" | ERROR => "error" end.
Definition readiness_of (v : pyval) : option ReadinessStatus := List.find (λ s, key_is (readiness_value s) v) [UNKNOWN; READY; NOT_READY; BLOCKED; ERROR].
Record RuntimeReadiness : Type := MkReadiness { rr_status : ReadinessStatus; rr_reason : string; rr_checked_by : string }.
Definition new_readiness (status : ReadinessStatus + pyval) (reason checked_by : pyval) : pres RuntimeReadiness :=
  match (match status with inl s => Some s | inr v => readiness_of v end), reason, checked_by with
  | Some s, VStr r, VStr c => Ok (MkReadiness s r c)
  | _, _, _ => rejected
  end.

Record CommandMetadata : Type := MkCommand { cm_executable : string; cm_arguments : list string; cm_directory : option string; cm_transport : string }.
Definition visible (c : ascii) : bool := negb (is_control c || (code c =? 127)%nat).
Definition command_argument (v : pyval) : pres string :=
  match v with VStr s => _ ← accept (nonempty s && str_forallb visible s); Ok s | _ => rejected end.
(** What iterates over nothing iterable is a [TypeError]. *)
Definition new_command (executable arguments directory transport : pyval) : pres CommandMetadata :=
  match executable with
  | VStr e =>
      _ ← accept (nonempty e && str_forallb (λ c, negb (is_eol c || (code c =? 0)%nat)) e);
      _ ← accept (negb (is_str arguments));
      items ← (match iterate arguments with Some l => Ok l | None => Err ProviderTypeError end);
      args ← mapM command_argument items;
      dir ← (match directory with VNone => Ok None | VStr d => Ok (Some d) | _ => rejected end);
      match transport with VStr t => _ ← accept (nonempty t); Ok (MkCommand e args dir t) | _ => rejected end
  | _ => rejected
  end.

Record RuntimePolicy : Type := MkRuntimePolicy { po_enabled : bool; po_nested : bool; po_network : bool; po_allowed : list string }.
Definition new_runtime_policy (enabled nested network allowed : pyval) : pres RuntimePolicy :=
  match enabled, nested, network with
  | VBool e, VBool n, VBool w =>
      caps ← _runtime_caps allowed;
      _ ← accept (negb (w && negb (bool_decide ("provider_network" ∈ caps))));
      _ ← accept (negb (w && meets _PROVIDER_NETWORK_CONFLICTS caps));
      Ok (MkRuntimePolicy e n w caps)
  | _, _, _ => rejected
  end.

Record RuntimeProviderProfile : Type := MkProfile {
  provider_name : string; runtime_name : string; auth_ref : option string; capabilities : list string; command : option pyval;
  readiness : RuntimeReadiness; policy : RuntimePolicy; metadata : pyval }.

Definition auth_rest (c : ascii) : bool := is_alnum c || one_of "_.:-" c.
Definition auth_ok (s : string) : bool :=
  existsb (λ p, startswith s p && ident is_alnum auth_rest (Some 127) (removeprefix s p)) ["env:"; "runtime:"; "vault:"; "keyring:"].
(** A part of a command, never shown as it is. *)
Definition hidden (placeholder s : string) : pyval := let r := redact_string s in VStr (if bool_decide (r = s) then placeholder else r).
Definition command_view (c : CommandMetadata) : pyval :=
  VProxy [(VStr "executable", hidden "[EXECUTABLE REDACTED]" (cm_executable c)); (VStr "arguments", VTuple (map (hidden "[ARGUMENT REDACTED]") (cm_arguments c)));
          (VStr "working_directory", match cm_directory c with Some d => VStr (redact_string d) | None => VNone end); (VStr "transport", VStr (cm_transport c))].
Definition _derive_readiness (name runtime : string) (auth : option string) (caps : list string) (cmd : option pyval) (p : RuntimePolicy) : RuntimeReadiness :=
  let answer s r := MkReadiness s r "contract" in
  if negb (po_enabled p) then answer BLOCKED "runtime disabled by policy"
  else if bool_decide (name = "claude-code") && bool_decide (runtime = "claude-code") && negb (po_nested p) then answer BLOCKED "nested subagents denied by policy"
  else if negb (is_subset caps (po_allowed p)) then answer BLOCKED "capabilities denied by policy"
  else if bool_decide ("provider_network" ∈ caps) && negb (po_network p) then answer BLOCKED "provider network denied by policy"
  else match auth, cmd with
       | None, _ => answer NOT_READY "auth reference not configured"
       | _, None => answer NOT_READY "command metadata not configured"
       | _, _ => answer READY "contract checks passed"
       end.
(** The constructor; the objects it takes are instances of their classes, and the readiness it is given is replaced. *)
Definition new_profile (name runtime auth caps : pyval) (cmd : option CommandMetadata) (p : RuntimePolicy) (meta version : pyval) : pres RuntimeProviderProfile :=
  _ ← accept (version_ok version);
  name' ← _runtime_identifier name;
  runtime' ← _runtime_identifier runtime;
  auth' ← (match auth with VNone => Ok None | VStr s => _ ← accept (auth_ok s); Ok (Some s) | _ => rejected end);
  caps' ← _runtime_caps caps;
  _ ← accept (negb (bool_decide ("provider_network" ∈ caps') && meets _PROVIDER_NETWORK_CONFLICTS caps'));
  meta' ← stored_metadata meta;
  let view := command_view <$> cmd in
  Ok (MkProfile name' runtime' auth' caps' view (_derive_readiness name' runtime' auth' caps' view p) p meta').
Definition assess_readiness (p : RuntimeProviderProfile) : RuntimeReadiness :=
  _derive_readiness (provider_name p) (runtime_name p) (auth_ref p) (capabilities p) (command p) (policy p).
Definition default_policy : RuntimePolicy := MkRuntimePolicy false false false [].
Definition default_runtime_profiles : pres (list RuntimeProviderProfile) :=
  mapM (λ nr, new_profile (VStr nr.1) (VStr nr.2) VNone (VTuple []) None default_policy (VDict []) (VStr PROVIDER_SCHEMA_VERSION))
    [("hermes", "openai-codex"); ("codex-cli", "codex-cli"); ("opencode", "opencode-go"); ("claude-code", "claude-code")].

Definition as_list (v : pyval) : pyval := match elems v with Some l => VList l | None => v end.
Definition command_dict (v : pyval) : pyval :=
  match entries v with
  | Some d => VDict (map (λ k, (VStr k, as_list (dget_or VNone k d))) ["executable"; "arguments"; "working_directory"; "transport"])
  | None => v end.
Definition text (s : string) : pyval := VStr s.
Definition as_dict (p : RuntimeProviderProfile) : pres pyval :=
  meta ← _redact "" (metadata p);
  Ok (VDict [(text "version", text PROVIDER_SCHEMA_VERSION); (text "provider_name", text (provider_name p)); (text "runtime_name", text (runtime_name p));
    (text "auth_ref", match auth_ref p with Some _ => text "[AUTH REF]" | None => VNone end); (text "capabilities", VList (map VStr (capabilities p)));
    (text "command", match command p with Some c => command_dict c | None => VNone end);
    (text "readiness", VDict [(text "status", text (readiness_value (rr_status (readiness p)))); (text "reason", text (redact_string (rr_reason (readiness p))));
                              (text "checked_by", text (redact_string (rr_checked_by (readiness p))))]);
    (text "policy", VDict [(text "enabled", VBool (po_enabled (policy p))); (text "allow_nested_subagents", VBool (po_nested (policy p)));
                           (text "allow_provider_network", VBool (po_network (policy p))); (text "allowed_capabilities", VList (map VStr (po_allowed (policy p))))]);
    (text "metadata", meta)]).

(** ** Properties *)

(** The profiles the constructor makes. *)
Definition made (p : RuntimeProviderProfile) : Prop :=
  ∃ name runtime auth caps cmd pol meta version enabled nested network allowed,
    new_runtime_policy enabled nested network allowed = Ok pol ∧ new_profile name runtime auth caps cmd pol meta version = Ok p.
(** Nothing in [v] is a mapping or sequence that can change. *)
Fixpoint frozen (v : pyval) : bool :=
  match v with
  | VProxy kvs => forallb (λ kv, is_str kv.1 && frozen kv.2) kvs
  | VTuple l => forallb frozen l
  | VDict _ | VList _ | VOther _ => false
  | _ => true
  end.
(** No value under a sensitive key is left. *)
Fixpoint masked (v : pyval) : bool :=
  match v with
  | VProxy kvs | VDict kvs => forallb (λ kv, match kv.1 with VStr k => if sensitive_key k then py_eqb kv.2 (VStr "[REDACTED]") else masked kv.2 | _ => false end) kvs
  | VTuple l | VList l => forallb masked l
  | _ => true
  end.
Record profile_ok (p : RuntimeProviderProfile) : Prop := {
  po_names : ident id_char (λ c, id_char c || one_of "._-" c) None (provider_name p) = true ∧ ident id_char (λ c, id_char c || one_of "._-" c) None (runtime_name p) = true;
  po_caps : Forall (λ c, c ∈ RUNTIME_CAPABILITIES) (capabilities p) ∧ NoDup (capabilities p) ∧ StronglySorted (λ x y, String.leb x y = true) (capabilities p);
  po_egress : "provider_network" ∈ capabilities p → ∀ c, c ∈ _PROVIDER_NETWORK_CONFLICTS → c ∉ capabilities p;
  po_policy_egress : po_network (policy p) = true → "provider_network" ∈ po_allowed (policy p) ∧ ∀ c, c ∈ _PROVIDER_NETWORK_CONFLICTS → c ∉ po_allowed (policy p);
  po_ready : rr_status (readiness p) = READY ↔
    po_enabled (policy p) = true ∧ ¬ (provider_name p = "claude-code" ∧ runtime_name p = "claude-code" ∧ po_nested (policy p) = false) ∧
    (∀ c, c ∈ capabilities p → c ∈ po_allowed (policy p)) ∧ ("provider_network" ∈ capabilities p → po_network (policy p) = true) ∧
    is_Some (auth_ref p) ∧ is_Some (command p);
  po_stored : frozen (metadata p) = true ∧ masked (metadata p) = true }.

Lemma accept_ok b u : accept b = Ok u ↔ b = true.
Proof. apply ensure_ok. Qed.
Lemma is_subset_spec l k : is_subset l k = true ↔ ∀ x, x ∈ l → x ∈ k.
Proof. unfold is_subset. rewrite forallb_true_iff. by setoid_rewrite bool_decide_eq_true. Qed.
Lemma meets_false l k : meets l k = false ↔ ∀ x, x ∈ l → x ∉ k.
Proof. unfold meets. rewrite existsb_false_iff. by setoid_rewrite bool_decide_eq_false. Qed.
Lemma sorted_names_ok l : NoDup (sorted_names l) ∧ StronglySorted (λ x y, String.leb x y = true) (sorted_names l).
Proof. split; [|apply sort_strings_sorted]. unfold sorted_names, sort_strings. rewrite sort_by_perm. apply NoDup_remove_dups. Qed.
Lemma runtime_caps_ok v l : _runtime_caps v = Ok l → Forall (λ c, c ∈ RUNTIME_CAPABILITIES) l ∧ NoDup l ∧ StronglySorted (λ x y, String.leb x y = true) l.
Proof.
  unfold _runtime_caps, _caps. intros (r & (names & _ & ->)%fmap_ok & (u & Hs%accept_ok & H)%bind_ok)%bind_ok. apply ok_inj in H. subst l.
  split; [|apply sorted_names_ok]. apply Forall_forall. by apply is_subset_spec.
Qed.
Lemma forall2_forallb {A B} (P : A → B → Prop) (f : B → bool) l k : Forall2 P l k → (∀ x y, x ∈ l → P x y → f y = true) → forallb f k = true.
Proof.
  intros H Hf. apply forallb_true_iff. intros y [n Hn]%list_elem_of_lookup. destruct (Forall2_lookup_r _ _ _ _ _ H Hn) as (x & Hx & HP).
  apply (Hf x); [by eapply list_elem_of_lookup_2|done].
Qed.
Lemma eqb_str_inv v s : py_eqb v (VStr s) = true → v = VStr s.
Proof. destruct v; try done. cbn. intros H. by bool_inv; subst. Qed.
Definition keeps_mask (v w : pyval) : Prop := frozen w = true ∧ (masked v = true → masked w = true).
Lemma immutable_seq l w : Forall (λ v, ∀ w, _immutable v = Ok w → keeps_mask v w) l → VTuple <$> mapM _immutable l = Ok w → keeps_mask (VList l) w.
Proof.
  intros IH (l' & H%mapM_res_ok & ->)%fmap_ok. rewrite Forall_forall in IH. split; cbn.
  - eapply forall2_forallb; [exact H|]. intros x y Hx Hy. by apply (IH x Hx).
  - intros Hm. eapply forall2_forallb; [exact H|]. intros x y Hx Hy. apply (IH x Hx); [done|]. rewrite forallb_true_iff in Hm. by apply Hm.
Qed.
Lemma immutable_map kvs w : Forall (λ kv, (∀ w, _immutable kv.1 = Ok w → keeps_mask kv.1 w) ∧ ∀ w, _immutable kv.2 = Ok w → keeps_mask kv.2 w) kvs →
  VProxy <$> mapM (λ kv, _ ← accept (is_str kv.1); w ← _immutable kv.2; Ok (kv.1, w)) kvs = Ok w → keeps_mask (VDict kvs) w.
Proof.
  intros IH (l' & H%mapM_res_ok & ->)%fmap_ok. rewrite Forall_forall in IH. split; cbn.
  - eapply forall2_forallb; [exact H|]. intros [k v] y Hx (u & Hk%accept_ok & (w & Hw & Hy)%bind_ok)%bind_ok. apply ok_inj in Hy. subst y. cbn in *.
    rewrite Hk. by apply (IH _ Hx).
  - intros Hm. rewrite forallb_true_iff in Hm. eapply forall2_forallb; [exact H|]. intros [k v] y Hx (u & Hk%accept_ok & (w & Hw & Hy)%bind_ok)%bind_ok.
    apply ok_inj in Hy. subst y. specialize (Hm _ Hx). cbn in *. destruct k as [| | | |k| | | | |]; try done. destruct (sensitive_key k); [|by apply (IH _ Hx)].
    apply eqb_str_inv in Hm. subst v. cbn in Hw. by apply ok_inj in Hw; subst w.
Qed.
Lemma immutable_frozen v w : _immutable v = Ok w → keeps_mask v w.
Proof.
  revert w. induction v as [| | | | |l IH|l IH|kvs IH|kvs IH|] using pyval_ind'; intros w H; cbn [_immutable] in H; try (apply ok_inj in H; by subst w); try done;
    first [by apply immutable_seq|by apply immutable_map].
Qed.
Lemma redact_masked key v w : sensitive_key key = false → _redact key v = Ok w → masked w = true.
Proof.
  revert key w. induction v as [| | | | |l IH|l IH|kvs IH|kvs IH|] using pyval_ind'; intros key w Hk H; cbn [_redact] in H; rewrite Hk in H;
    try (apply ok_inj in H; by subst w).
  1,2: apply fmap_ok in H as (l' & H%mapM_res_ok & ->); rewrite Forall_forall in IH; cbn; eapply forall2_forallb; [exact H|];
    intros x y Hx Hy; by apply (IH x Hx "").
  all: apply fmap_ok in H as (l' & H%mapM_res_ok & ->); rewrite Forall_forall in IH; cbn; eapply forall2_forallb; [exact H|];
    intros [k x] y Hx Hy; destruct k as [| | | |k| | | | |]; try done; apply bind_ok in Hy as (u & Hu & Hy); apply ok_inj in Hy; subst y; cbn in *;
    destruct (sensitive_key k) eqn:Es; [destruct x; cbn in Hu; rewrite Es in Hu; apply ok_inj in Hu; by subst u|by apply (IH _ Hx) in Hu].
Qed.
Lemma stored_ok meta m : stored_metadata meta = Ok m → frozen m = true ∧ masked m = true.
Proof.
  intros (? & _ & (? & _ & (v & Hv & Hm)%bind_ok)%bind_ok)%bind_ok. apply immutable_frozen in Hm as [Hf Hk]. split; [done|]. apply Hk.
  by eapply (redact_masked ""); [|exact Hv].
Qed.
Lemma derive_ready name runtime auth caps cmd p : rr_status (_derive_readiness name runtime auth caps cmd p) = READY ↔
  po_enabled p = true ∧ ¬ (name = "claude-code" ∧ runtime = "claude-code" ∧ po_nested p = false) ∧ (∀ c, c ∈ caps → c ∈ po_allowed p) ∧
  ("provider_network" ∈ caps → po_network p = true) ∧ is_Some auth ∧ is_Some cmd.
Proof.
  unfold _derive_readiness. cbv zeta. rewrite <- is_subset_spec.
  assert (bool_decide (name = "claude-code") && bool_decide (runtime = "claude-code") && negb (po_nested p) = true ↔
          name = "claude-code" ∧ runtime = "claude-code" ∧ po_nested p = false) as Hc by (rewrite !andb_true_iff, negb_true_iff, !bool_decide_eq_true; tauto).
  assert (bool_decide ("provider_network" ∈ caps) && negb (po_network p) = true ↔ "provider_network" ∈ caps ∧ po_network p = false) as Hn
    by (rewrite andb_true_iff, negb_true_iff, bool_decide_eq_true; tauto).
  destruct (po_enabled p); cbn [negb]; [|split; [discriminate|intros [H _]; discriminate H]].
  destruct (_ && _ && _); [split; [discriminate|]; intros (_ & H & _); destruct H; by apply Hc|].
  destruct (is_subset caps (po_allowed p)) eqn:Hsub; cbn [negb]; [|split; [discriminate|by intros (_ & _ & ? & _)]].
  destruct (_ && _); [split; [discriminate|]; intros (_ & _ & _ & H & _); destruct (proj1 Hn eq_refl) as [H1 H2]; rewrite (H H1) in H2; done|].
  assert (¬ (name = "claude-code" ∧ runtime = "claude-code" ∧ po_nested p = false)) as H1 by (intros H; by apply Hc in H).
  assert ("provider_network" ∈ caps → po_network p = true) as H2 by (intros H; destruct (po_network p); [done|]; exfalso; by assert (false = true) by by apply Hn).
  destruct auth as [a|], cmd as [c|]; cbn; (split; [try discriminate|]).
  - intros _. split; [reflexivity|]. split; [exact H1|]. split; [reflexivity|]. split; [exact H2|]. split; by eexists.
  - reflexivity.
  - intros (_ & _ & _ & _ & _ & [? H]). discriminate H.
  - intros (_ & _ & _ & _ & [? H] & _). discriminate H.
  - intros (_ & _ & _ & _ & [? H] & _). discriminate H.
Qed.
Lemma identifier_ok v s : _runtime_identifier v = Ok s → ident id_char (λ c, id_char c || one_of "._-" c) None s = true.
Proof. destruct v; try done. cbn [_runtime_identifier]. intros (u & H%accept_ok & H')%bind_ok. apply ok_inj in H'. subst s. by bool_inv. Qed.

Lemma runtime_policy_egress enabled nested network allowed p : new_runtime_policy enabled nested network allowed = Ok p → po_network p = true →
  "provider_network" ∈ po_allowed p ∧ ∀ c, c ∈ _PROVIDER_NETWORK_CONFLICTS → c ∉ po_allowed p.
Proof.
  unfold new_runtime_policy. destruct enabled as [|e| | | | | | | |], nested as [|n| | | | | | | |], network as [|w| | | | | | | |]; try discriminate.
  intros (caps & _ & H)%bind_ok Hw. apply bind_ok in H as (? & H1%accept_ok & H). apply bind_ok in H as (? & H2%accept_ok & H). apply ok_inj in H. subst p. cbn [po_network po_allowed] in *.
  subst w. cbn [andb] in H1, H2. bool_inv. split; [done|]. by apply meets_false.
Qed.

(** C27: Every profile that can be constructed: its names are lower-case
    identifiers, its capabilities sorted, distinct and of the closed
    vocabulary; provider egress excludes every capability that writes,
    executes, uses the network or nests agents, in the profile and in its policy;
    it is ready exactly when its policy enables it and allows each of its
    capabilities and its egress, nesting is allowed where the runtime needs
    it, and an authorisation reference and a command are configured; its
    metadata is immutable and shows nothing under a sensitive name. *)
Theorem profile_exact (p : RuntimeProviderProfile) : made p → profile_ok p.
Proof.
  intros (name & runtime & auth & caps & cmd & pol & meta & version & enabled & nested & network & allowed & Hpol & Hp).
  unfold new_profile in Hp. apply bind_ok in Hp as (? & _ & Hp). apply bind_ok in Hp as (name' & Hname & Hp). apply bind_ok in Hp as (runtime' & Hrun & Hp).
  apply bind_ok in Hp as (auth' & _ & Hp). apply bind_ok in Hp as (caps' & Hcaps & Hp). apply bind_ok in Hp as (? & Hegress%accept_ok & Hp).
  apply bind_ok in Hp as (meta' & Hmeta & Hp). apply ok_inj in Hp. subst p. split; cbn -[_PROVIDER_NETWORK_CONFLICTS RUNTIME_CAPABILITIES].
  - split; by eapply identifier_ok.
  - by eapply runtime_caps_ok.
  - intros Hn. rewrite bool_decide_true in Hegress by done. cbn [andb] in Hegress. bool_inv. by apply meets_false.
  - by eapply runtime_policy_egress.
  - apply derive_ready.
  - by eapply stored_ok.
Qed.
Definition sample_command : pres CommandMetadata := new_command (VStr "codex") (VTuple [VStr "exec"]) VNone (VStr "local").
Definition sample_profile (caps : list string) (auth : pyval) : pres RuntimeProviderProfile :=
  pol ← new_runtime_policy (VBool true) (VBool false) (VBool false) (VTuple [VStr "read"; VStr "write"]);
  cmd ← sample_command;
  new_profile (VStr "codex-cli") (VStr "codex-cli") auth (VTuple (map VStr caps)) (Some cmd) pol (VDict [(VStr "api_key", VInt 1); (VStr "note", VList [VStr "see /etc/x"])]) (VStr PROVIDER_SCHEMA_VERSION).
Definition a_profile : RuntimeProviderProfile := Eval vm_compute in
  match sample_profile ["write"; "read"; "read"] (VStr "env:CODEX_KEY") with Ok p => p | Err _ => MkProfile "" "" None [] None (MkReadiness UNKNOWN "" "") default_policy VNone end.
Lemma profile_exact_witness : rr_status (readiness a_profile) = READY ∧ capabilities a_profile = ["read"; "write"] ∧ profile_ok a_profile.
Proof.
  split; [reflexivity|]. split; [reflexivity|]. apply profile_exact.
  exists (VStr "codex-cli"), (VStr "codex-cli"), (VStr "env:CODEX_KEY"), (VTuple [VStr "write"; VStr "read"; VStr "read"]), (Some (MkCommand "codex" ["exec"] None "local")),
    (MkRuntimePolicy true false false ["read"; "write"]), (VDict [(VStr "api_key", VInt 1); (VStr "note", VList [VStr "see /etc/x"])]), (VStr PROVIDER_SCHEMA_VERSION),
    (VBool true), (VBool false), (VBool false), (VTuple [VStr "read"; VStr "write"]). split; vm_compute; reflexivity.
Defined.

(** ** Examples *)

Example profile_readiness_ex : (rr_reason ∘ readiness <$> sample_profile ["read"] VNone) = Ok "auth reference not configured" ∧
  (rr_reason ∘ readiness <$> sample_profile ["shell"] VNone) = Ok "capabilities denied by policy" ∧ sample_profile ["provider_network"; "write"] VNone = rejected ∧
  sample_profile ["fly"] VNone = rejected ∧ sample_profile [] (VStr "sk-123") = rejected.
Proof. vm_compute. split_and!; reflexivity. Qed.
Example default_profiles_ex : map (rr_status ∘ readiness) <$> default_runtime_profiles = Ok [BLOCKED; BLOCKED; BLOCKED; BLOCKED].
Proof. vm_compute. reflexivity. Qed.
Example factory_ex : create_provider (VStr "disabled") (VTuple []) None false (Some (VDict [(VStr "log", VStr "token = x")])) = rejected ∧
  create_provider (VStr "openai") (VTuple []) None false None = rejected ∧ create_provider (VStr "disabled") (VTuple [VStr "read"]) None false None = Err ProviderCapabilityError ∧
  is_ok (create_provider (VStr "disabled") (VTuple []) None false (Some (VDict [(VStr "log", VStr "tokenization")]))) = true.
Proof. vm_compute. split_and!; reflexivity. Qed.
