(* ===== verification/ProviderRouting.v ===== *)
(** * Provider routing (scripts/pd_fleet/provider_routing.py)

    The choice of a provider profile for a task: the policy and its lists of
    identities, the catalog, the audit event of a decision, and [route_provider].
    Identities are exact; the profiles are those of [Provider]. *)

From S2P Require Import Prelude PyStr PyNum PyVal Regex Redaction Provider.

Open Scope string_scope.

Inductive routing_error : Type := RoutingConfigurationError | RoutingTypeError.
#[export] Instance routing_error_eq_dec : EqDecision routing_error.
Proof. solve_decision. Defined.
Definition rres : Type → Type := res routing_error.
Definition require (b : bool) : rres unit := ensure b RoutingConfigurationError.

Inductive RouteStatus : Type := RSELECTED | RBLOCKED | RNO_PROVIDER.
#[export] Instance route_status_eq_dec : EqDecision RouteStatus.
Proof. solve_decision. Defined.
Inductive AuditReason : Type :=
| PREFERRED_SELECTED
| EXPLICIT_FALLBACK_SELECTED
| FALLBACK_NOT_PERMITTED
| NO_ELIGIBLE_PROVIDER
| NO_PROVIDER_CONFIGURED.
#[export] Instance audit_reason_eq_dec : EqDecision AuditReason.
Proof. solve_decision. Defined.
Definition route_status_value (s : RouteStatus) : string :=
  match s with RSELECTED => "selected" | RBLOCKED => "blocked" | RNO_PROVIDER => "no_provider" end.
Definition audit_reason_value (r : AuditReason) : string :=
  match r with
  | PREFERRED_SELECTED => "preferred_selected" | EXPLICIT_FALLBACK_SELECTED => "explicit_fallback_selected"
  | FALLBACK_NOT_PERMITTED => "fallback_not_permitted" | NO_ELIGIBLE_PROVIDER => "no_eligible_provider"
  | NO_PROVIDER_CONFIGURED => "no_provider_configured" end.

(** ** Identities and policies *)

Definition _SENSITIVE_ID : re := RAlt sensitive_word (ralt [rlit_ci "passwd"; rlit_ci "prompt"]).
Definition sensitive_id (s : string) : bool := search _SENSITIVE_ID s.
#[local] Arguments sensitive_id : simpl never.
Definition slug_char (c : ascii) : bool := is_lower c || is_digit c.
Definition _SAFE_SLUG : re := rseq [rplus (RChar slug_char); rstar (rseq [rchr "-"; rplus (RChar slug_char)])].
Definition safe_slug (s : string) : bool := fullmatch _SAFE_SLUG s.
#[local] Arguments safe_slug : simpl never.
Definition safe_id (s : string) : bool :=
  ident slug_char (λ c, slug_char c || one_of "._/-" c) None s &&
  negb (startswith s "/" || startswith s "-" || contains ("/" +:+ s +:+ "/") "/../" || endswith s "/.." || startswith s "../" || contains s "//" || sensitive_id s).
#[local] Arguments safe_id : simpl never.
Definition distinct (l : list string) : bool := bool_decide (NoDup l).
Definition texts_of (values : pyval) : rres (list string) :=
  match elems values ≫= mapM as_str with Some l => Ok l | None => Err RoutingConfigurationError end.
Definition check_ids (l : list string) : rres (list string) := _ ← require (forallb safe_id l); _ ← require (distinct l); Ok l.
Definition _ids (values : pyval) : rres (list string) := l ← texts_of values; check_ids l.
Definition _FORBIDDEN_CAPABILITIES : list string := ["shell"; "network"; "nested_agents"].
Definition _capabilities (values : pyval) : rres (list string) :=
  l ← texts_of values;
  _ ← require (forallb nonempty l);
  _ ← require (negb (meets l _FORBIDDEN_CAPABILITIES));
  _ ← require (distinct l);
  Ok (sort_strings l).
Definition profile_id (p : RuntimeProviderProfile) : string := provider_name p +:+ "/" +:+ runtime_name p.

Record ProviderRoutePolicy : Type := MkRoutePolicy {
  preferred_ids : list string; fallback_ids : list string; required_capabilities : list string; allow_fallback : bool; max_candidates : Z }.
Definition new_route_policy (preferred fallback required allow limit : pyval) : rres ProviderRoutePolicy :=
  ps ← _ids preferred;
  fs ← _ids fallback;
  _ ← require (negb (meets ps fs));
  caps ← _capabilities required;
  match allow, limit with
  | VBool a, VInt n => _ ← require (1 <=? n)%Z; Ok (MkRoutePolicy ps fs caps a n)
  | _, _ => Err RoutingConfigurationError
  end.
Definition ordered_ids (p : ProviderRoutePolicy) : list string := preferred_ids p ++ if allow_fallback p then fallback_ids p else [].
Definition configured (p : ProviderRoutePolicy) : list string := preferred_ids p ++ fallback_ids p.

(** ** Audit events *)

Record ProviderAuditEvent : Type := MkAudit {
  a_task : string; a_run : string; a_candidates : list string; a_selected : option string; a_status : RouteStatus; a_reason : AuditReason }.
Definition safe_identity (v : string) : bool := safe_slug v && (String.length v <=? 128)%nat && negb (sensitive_id v).
Definition compatible (s : RouteStatus) (r : AuditReason) : bool :=
  match s, r with
  | RSELECTED, (PREFERRED_SELECTED | EXPLICIT_FALLBACK_SELECTED) => true
  | RBLOCKED, (FALLBACK_NOT_PERMITTED | NO_ELIGIBLE_PROVIDER) => true
  | RNO_PROVIDER, NO_PROVIDER_CONFIGURED => true
  | _, _ => false end.
Definition new_audit (task run : string) (candidates : list string) (selected : option string) (s : RouteStatus) (r : AuditReason) : rres ProviderAuditEvent :=
  _ ← require (safe_identity task && safe_identity run);
  cs ← check_ids candidates;
  _ ← (match selected with Some i => _ ← check_ids [i]; require (bool_decide (i ∈ cs)) | None => Ok () end);
  _ ← require (compatible s r);
  _ ← require (match s, selected with RSELECTED, None => false | RSELECTED, Some _ => true | _, Some _ => false | _, None => true end);
  _ ← require (match cs, s with [], RNO_PROVIDER => true | [], _ => false | _, _ => true end);
  Ok (MkAudit task run cs selected s r).
Definition audit_dict (e : ProviderAuditEvent) : pyval :=
  VDict [(VStr "candidates", VList (map VStr (a_candidates e))); (VStr "reason", VStr (audit_reason_value (a_reason e))); (VStr "run_id", VStr (a_run e));
         (VStr "selected", match a_selected e with Some i => VStr i | None => VNone end); (VStr "status", VStr (route_status_value (a_status e))); (VStr "task_id", VStr (a_task e))].

(** ** Routes *)

Record ProviderRouteResult : Type := MkRoute { rt_status : RouteStatus; rt_selected : option RuntimeProviderProfile; rt_audit : ProviderAuditEvent }.
Definition find_profile (catalog : list RuntimeProviderProfile) (i : string) : option RuntimeProviderProfile :=
  List.find (λ p, bool_decide (profile_id p = i)) catalog.
Definition _catalog_map (catalog : list RuntimeProviderProfile) : rres (string → option RuntimeProviderProfile) :=
  _ ← require (distinct (map profile_id catalog)); Ok (find_profile catalog).
Definition suitable (policy : ProviderRoutePolicy) (p : RuntimeProviderProfile) : bool :=
  po_enabled (Provider.policy p) && bool_decide (rr_status (readiness p) = READY) &&
  negb (match auth_ref p with None => true | Some _ => false end || negb (is_subset (required_capabilities policy) (capabilities p))).
(** The identities of the loop, in order; a suitable profile with a forbidden capability raises. *)
Fixpoint eligible (policy : ProviderRoutePolicy) (profiles : string → option RuntimeProviderProfile) (requested : list string) : rres (list string) :=
  match requested with
  | [] => Ok []
  | i :: rest =>
      match profiles i with
      | None => Err RoutingTypeError
      | Some p =>
          if suitable policy p
          then _ ← require (negb (meets (capabilities p) _FORBIDDEN_CAPABILITIES)); l ← eligible policy profiles rest; Ok (i :: l)
          else eligible policy profiles rest
      end
  end.
Definition known (profiles : string → option RuntimeProviderProfile) (i : string) : bool := match profiles i with Some _ => true | None => false end.
Definition is_nil {A} (l : list A) : bool := match l with [] => true | _ => false end.
Definition route_provider (task run : string) (policy : ProviderRoutePolicy) (catalog : list RuntimeProviderProfile) : rres ProviderRouteResult :=
  profiles ← _catalog_map catalog;
  let requested := ordered_ids policy in
  _ ← require (forallb (known profiles) (configured policy));
  found ← eligible policy profiles requested;
  let selected_id := head (take (Z.to_nat (max_candidates policy)) found) in
  let audit_candidates := if is_nil requested then fallback_ids policy else requested in
  let '(status, reason, selected) := match selected_id with
    | Some i => (RSELECTED, if bool_decide (i ∈ preferred_ids policy) then PREFERRED_SELECTED else EXPLICIT_FALLBACK_SELECTED, profiles i)
    | None => if is_nil (configured policy) then (RNO_PROVIDER, NO_PROVIDER_CONFIGURED, None)
              else (RBLOCKED, if allow_fallback policy then NO_ELIGIBLE_PROVIDER else FALLBACK_NOT_PERMITTED, None) end in
  audit ← new_audit task run audit_candidates selected_id status reason;
  Ok (MkRoute status selected audit).

(** ** Properties *)

Section routes.
  Context (policy : ProviderRoutePolicy) (catalog : list RuntimeProviderProfile).

(** The identity names a suitable profile. *)
Definition suits (i : string) : bool := match find_profile catalog i with Some p => suitable policy p | None => false end.
Definition no_forbidden (l : list string) : Prop := ∀ c, c ∈ l → c ∉ _FORBIDDEN_CAPABILITIES.
Definition clean (l : list string) : Prop := ∀ i p, i ∈ l → find_profile catalog i = Some p → suitable policy p = true → no_forbidden (capabilities p).
Record routable (task run : string) : Prop := {
  ro_catalog : NoDup (map profile_id catalog);
  ro_known : ∀ i, i ∈ configured policy → i ∈ map profile_id catalog;
  ro_clean : clean (ordered_ids policy);
  ro_task : safe_identity task = true;
  ro_run : safe_identity run = true }.
(** [i] is the first identity of the policy's order that names a suitable profile, [p]. *)
Definition chosen (i : string) (p : RuntimeProviderProfile) : Prop :=
  find_profile catalog i = Some p ∧ suitable policy p = true ∧ ∃ pre post, ordered_ids policy = (pre ++ i :: post)%list ∧ ∀ j, j ∈ pre → suits j = false.

Lemma known_in i : known (find_profile catalog) i = true ↔ i ∈ map profile_id catalog.
Proof.
  unfold known, find_profile. destruct (List.find _ catalog) as [p|] eqn:E; split; try done.
  - apply find_some in E as [Hp Hb]. bool_inv. intros _. rewrite <- Hb. by apply list_elem_of_fmap_2, list_elem_of_In.
  - intros (p & -> & Hp)%list_elem_of_fmap. apply list_elem_of_In in Hp. apply (find_none _ _ E) in Hp. bool_inv. done.
Qed.
Lemma eligible_spec l : (∀ i, i ∈ l → known (find_profile catalog) i = true) →
  match eligible policy (find_profile catalog) l with
  | Ok found => found = List.filter suits l ∧ clean l
  | Err e => e = RoutingConfigurationError ∧ ¬ clean l end.
Proof.
  induction l as [|i l IH]; intros Hk; [split; [done|]; intros i p H; by apply not_elem_of_nil in H|].
  specialize (IH ltac:(intros j Hj; apply Hk; by right)). assert (Hi := Hk i ltac:(left)). unfold known in Hi.
  assert (clean (i :: l) → clean l) as Htail by (intros H j p Hj; apply H; by right).
  cbn [eligible List.filter]. unfold suits at 1. destruct (find_profile catalog i) as [p|] eqn:Ep; [|done]. destruct (suitable policy p) eqn:Es.
  - assert (clean (i :: l) ↔ no_forbidden (capabilities p) ∧ clean l) as Hc.
    { split; [intros H; split; [by apply (H i p); [left|..]|auto]|]. intros [Hn Hl] j q Hj Hq Hs. apply elem_of_cons in Hj as [->|Hj]; [|by apply (Hl j q)].
      assert (q = p) as -> by congruence. done. }
    destruct (meets (capabilities p) _FORBIDDEN_CAPABILITIES) eqn:Em; cbn.
    + split; [done|]. intros [Hn _]%Hc. apply not_false_iff_true in Em. destruct Em. by apply meets_false.
    + rewrite meets_false in Em. destruct (eligible _ _ l) as [found|e]; cbn.
      * destruct IH as [-> Hl]. split; [done|]. by apply Hc.
      * destruct IH as [-> Hl]. split; [done|]. intros [_ H]%Hc. done.
  - assert (clean (i :: l) ↔ clean l) as Hc.
    { split; [done|]. intros Hl j q Hj Hq Hs. apply elem_of_cons in Hj as [->|Hj]; [|by apply (Hl j q)]. congruence. }
    destruct (eligible _ _ l) as [found|e]; by rewrite Hc.
Qed.
Lemma filter_head (f : string → bool) l : match head (List.filter f l) with
  | Some i => f i = true ∧ ∃ pre post, l = (pre ++ i :: post)%list ∧ ∀ j, j ∈ pre → f j = false
  | None => ∀ j, j ∈ l → f j = false end.
Proof.
  induction l as [|x l IH]; cbn; [intros j H; by apply not_elem_of_nil in H|]. destruct (f x) eqn:Ex; cbn.
  - split; [done|]. exists [], l. split; [done|]. intros j H. by apply not_elem_of_nil in H.
  - destruct (head _) as [i|].
    + destruct IH as [Hi (pre & post & -> & Hp)]. split; [done|]. exists (x :: pre), post. split; [done|]. intros j [->|Hj]%elem_of_cons; auto.
    + intros j [->|Hj]%elem_of_cons; auto.
Qed.

Lemma suitable_ready p : suitable policy p = true → rr_status (readiness p) = READY ∧ po_enabled (Provider.policy p) = true ∧
  (∀ c, c ∈ required_capabilities policy → c ∈ capabilities p).
Proof.
  unfold suitable. intros H. bool_inv. split_and!; [done..|]. by apply is_subset_spec.
Qed.
End routes.

Lemma checked_ids l l' : check_ids l = Ok l' ↔ l' = l ∧ forallb safe_id l = true ∧ NoDup l.
Proof.
  unfold check_ids, distinct, require. destruct (forallb safe_id l); cbn; [|naive_solver]. case_bool_decide; cbn; [|naive_solver]. split.
  - intros H1%ok_inj. done.
  - by intros (-> & _).
Qed.
Record policy_ok (p : ProviderRoutePolicy) : Prop := {
  py_safe : forallb safe_id (configured p) = true;
  py_nodup : NoDup (configured p);
  py_limit : (1 ≤ max_candidates p)%Z }.
Lemma route_policy_ok preferred fallback required allow limit p : new_route_policy preferred fallback required allow limit = Ok p → policy_ok p.
Proof.
  unfold new_route_policy, _ids. intros (ps & Hps & H)%bind_ok. apply bind_ok in H as (fs & Hfs & H). apply bind_ok in Hps as (l1 & _ & [-> [Hs1 Hn1]]%checked_ids).
  apply bind_ok in Hfs as (l2 & _ & [-> [Hs2 Hn2]]%checked_ids). apply bind_ok in H as (? & Hm%ensure_ok & H). apply bind_ok in H as (caps & _ & H).
  destruct allow as [|a| | | | | | | |], limit as [| |n| | | | | | |]; try discriminate. apply bind_ok in H as (? & Hl%ensure_ok & H). apply ok_inj in H. subst p.
  bool_inv. split; cbn; [by rewrite forallb_app, Hs1, Hs2| |done].
  rewrite meets_false in Hm. apply NoDup_app. split; [done|]. split; [|done]. intros y Hy. by apply Hm.
Qed.

(** The audit of a decision that the policy allows exists whenever the identity is safe. *)
Lemma audit_exists task run candidates selected s r : forallb safe_id candidates = true → NoDup candidates → compatible s r = true →
  match selected with Some i => i ∈ candidates ∧ s = RSELECTED | None => s ≠ RSELECTED ∧ (candidates = [] → s = RNO_PROVIDER) end →
  new_audit task run candidates selected s r =
  if safe_identity task && safe_identity run then Ok (MkAudit task run candidates selected s r) else Err RoutingConfigurationError.
Proof.
  intros Hs Hn Hc Hsel. unfold new_audit, require. destruct (safe_identity task && safe_identity run); cbn; [|done].
  rewrite (proj2 (checked_ids _ _)) by done. cbn. rewrite Hc. destruct selected as [i|].
  - destruct Hsel as [Hi ->]. rewrite forallb_true_iff in Hs.
    rewrite (proj2 (checked_ids [i] [i])) by (split; [done|]; split; [cbn; by rewrite Hs|apply NoDup_singleton]). cbn. rewrite bool_decide_true by done. cbn.
    by destruct candidates; [apply not_elem_of_nil in Hi|].
  - destruct Hsel as [Hs1 Hs2]. cbn. destruct s; [done| |by destruct candidates]. destruct candidates; [by specialize (Hs2 eq_refl)|done].
Qed.

Lemma candidates_sublist policy : (if is_nil (ordered_ids policy) then fallback_ids policy else ordered_ids policy) `sublist_of` configured policy.
Proof.
  destruct (is_nil (ordered_ids policy)); [by apply sublist_inserts_l|]. unfold ordered_ids, configured. apply sublist_app; [done|].
  destruct (allow_fallback policy); [done|apply sublist_nil_l].
Qed.
Lemma candidates_nil policy : (if is_nil (ordered_ids policy) then fallback_ids policy else ordered_ids policy) = [] → configured policy = [].
Proof.
  unfold ordered_ids, configured. destruct (preferred_ids policy) as [|x l]; [|done]. cbn. destruct (allow_fallback policy); [|done]. by destruct (fallback_ids policy).
Qed.

(** What a route says, by status. *)
Definition route_says (policy : ProviderRoutePolicy) (catalog : list RuntimeProviderProfile) (r : ProviderRouteResult) : Prop :=
  match rt_status r with
  | RSELECTED => ∃ i p, chosen policy catalog i p ∧ rt_selected r = Some p ∧ a_selected (rt_audit r) = Some i ∧
      rr_status (readiness p) = READY ∧ (∀ c, c ∈ required_capabilities policy → c ∈ capabilities p) ∧ no_forbidden (capabilities p) ∧
      a_reason (rt_audit r) = if bool_decide (i ∈ preferred_ids policy) then PREFERRED_SELECTED else EXPLICIT_FALLBACK_SELECTED
  | RBLOCKED => rt_selected r = None ∧ a_selected (rt_audit r) = None ∧ configured policy ≠ [] ∧ (∀ i, i ∈ ordered_ids policy → suits policy catalog i = false) ∧
      a_reason (rt_audit r) = if allow_fallback policy then NO_ELIGIBLE_PROVIDER else FALLBACK_NOT_PERMITTED
  | RNO_PROVIDER => rt_selected r = None ∧ a_selected (rt_audit r) = None ∧ configured policy = [] ∧ a_reason (rt_audit r) = NO_PROVIDER_CONFIGURED
  end.

(** C26: [route_provider] under a constructed policy returns exactly when the
    catalog has distinct identities, it knows every configured identity, no
    suitable profile in the policy's order holds a forbidden capability and
    the identities of the task and the run are safe; it fails with a routing
    error otherwise.  It selects the first profile in the order that is
    ready, authorised and has the required capabilities (a fallback only when
    the policy permits fallbacks), says blocked when there is none and no
    provider when nothing is configured, and the audit says the same.  The
    limit on the candidates has no effect. *)
Theorem route_exact preferred fallback required allow limit policy catalog task run :
  new_route_policy preferred fallback required allow limit = Ok policy →
  match route_provider task run policy catalog with
  | Err e => e = RoutingConfigurationError ∧ ¬ routable policy catalog task run
  | Ok r => routable policy catalog task run ∧ route_says policy catalog r ∧ a_task (rt_audit r) = task ∧ a_run (rt_audit r) = run ∧ a_status (rt_audit r) = rt_status r
  end.
Proof.
  intros [Hsafe Hnd Hlim]%route_policy_ok. unfold route_provider, _catalog_map, distinct, require. case_bool_decide as Hcat; cbn; [|split; [done|by intros []]].
  destruct (forallb (known _) (configured policy)) eqn:Hk; cbn; cycle 1.
  { split; [done|]. intros [_ Hkn _ _ _]. apply not_true_iff_false in Hk. apply Hk. apply forallb_true_iff. intros i Hi. by apply known_in, Hkn. }
  rewrite forallb_true_iff in Hk. assert (∀ i, i ∈ configured policy → i ∈ map profile_id catalog) as Hkn by (intros i Hi; by apply known_in, Hk).
  assert (∀ i, i ∈ ordered_ids policy → i ∈ configured policy) as Hsub by (unfold ordered_ids, configured; intros i; destruct (allow_fallback policy); rewrite ?app_nil_r; [done|]; intros ?; apply elem_of_app; by left).
  assert (Hel := eligible_spec policy catalog (ordered_ids policy) (λ i Hi, Hk i (Hsub i Hi))).
  destruct (eligible _ _ _) as [found|e]; cbn; [|destruct Hel as [-> Hel]; split; [done|by intros []]]. destruct Hel as [-> Hclean].
  replace (head (take _ _)) with (head (List.filter (suits policy catalog) (ordered_ids policy)))
    by (destruct (Z.to_nat (max_candidates policy)) eqn:?; [lia|by destruct (List.filter _ _)]).
  set (candidates := if is_nil (ordered_ids policy) then fallback_ids policy else ordered_ids policy).
  assert (candidates `sublist_of` configured policy) as Hcand by apply candidates_sublist.
  assert (forallb safe_id candidates = true) as Hcs by (rewrite forallb_true_iff in *; intros i Hi; apply Hsafe; by eapply sublist_subseteq).
  assert (NoDup candidates) as Hcn by (eapply sublist_NoDup; [exact Hnd|exact Hcand]).
  assert (candidates = [] → configured policy = []) as Hnil by apply candidates_nil.
  assert (Hhead := filter_head (suits policy catalog) (ordered_ids policy)).
  destruct (head _) as [i|].
  - destruct Hhead as [Hi (pre & post & Hsplit & Hpre)]. unfold suits in Hi. destruct (find_profile catalog i) as [p|] eqn:Hp; [|done].
    assert (i ∈ candidates) as Hin by (unfold candidates; rewrite Hsplit; destruct pre; cbn; rewrite ?elem_of_cons, ?elem_of_app, ?elem_of_cons; auto).
    cbv beta iota zeta. rewrite (audit_exists task run candidates (Some i)); [|done|done|by case_bool_decide|by split]. destruct (safe_identity task && safe_identity run) eqn:Hid; cbn; bool_inv; cycle 1.
    { split; [done|]. intros [_ _ _ H1 H2]. by rewrite H1, H2 in Hid. }
    split; [by split|]. split; [|done]. destruct (suitable_ready policy p Hi) as (Hr & _ & Hreq). exists i, p. cbn.
    split; [split; [done|]; split; [done|]; by exists pre, post|]. split_and!; try done. apply (Hclean i p); [|done..]. rewrite Hsplit. apply elem_of_app. right. left.
  - destruct (is_nil (configured policy)) eqn:Hn.
    + assert (configured policy = []) as Hnone by by destruct (configured policy).
      cbv beta iota zeta. rewrite (audit_exists task run candidates None); [|done|done|done|by split]. destruct (safe_identity task && safe_identity run) eqn:Hid; cbn; bool_inv; [|split; [done|]; intros [_ _ _ H1 H2]; by rewrite H1, H2 in Hid].
      split; [by split|]. by split.
    + assert (configured policy ≠ []) as Hsome by by destruct (configured policy).
      cbv beta iota zeta. rewrite (audit_exists task run candidates None); [|done|done|by destruct (allow_fallback policy)|split; [done|]; intros H; by apply Hnil in H].
      destruct (safe_identity task && safe_identity run) eqn:Hid; cbn; bool_inv; [|split; [done|]; intros [_ _ _ H1 H2]; by rewrite H1, H2 in Hid].
      split; [by split|]. by split.
Qed.
Definition other_profile : RuntimeProviderProfile :=
  MkProfile "hermes" "openai-codex" None [] None (MkReadiness BLOCKED "runtime disabled by policy" "contract") default_policy (VProxy []).
Definition demo_policy : ProviderRoutePolicy := MkRoutePolicy ["hermes/openai-codex"] ["codex-cli/codex-cli"] ["read"] true 1.
Definition demo_new_policy (allow : bool) : rres ProviderRoutePolicy :=
  new_route_policy (VTuple [VStr "hermes/openai-codex"]) (VList [VStr "codex-cli/codex-cli"]) (VTuple [VStr "read"]) (VBool allow) (VInt 1).
Lemma route_exact_witness : (rt_status <$> route_provider "t-1" "run-1" demo_policy [other_profile; a_profile]) = Ok RSELECTED ∧
  match route_provider "t-1" "run-1" demo_policy [other_profile; a_profile] with
  | Err e => e = RoutingConfigurationError ∧ ¬ routable demo_policy [other_profile; a_profile] "t-1" "run-1"
  | Ok r => routable demo_policy [other_profile; a_profile] "t-1" "run-1" ∧ route_says demo_policy [other_profile; a_profile] r ∧ a_task (rt_audit r) = "t-1" ∧
      a_run (rt_audit r) = "run-1" ∧ a_status (rt_audit r) = rt_status r end.
Proof.
  split; [vm_compute; reflexivity|].
  apply (route_exact (VTuple [VStr "hermes/openai-codex"]) (VList [VStr "codex-cli/codex-cli"]) (VTuple [VStr "read"]) (VBool true) (VInt 1)).
  vm_compute. reflexivity.
Defined.

(** ** Examples *)

Example route_ex : (p ← demo_new_policy false; audit_dict ∘ rt_audit <$> route_provider "t-1" "run-1" p [other_profile; a_profile]) =
  Ok (VDict [(VStr "candidates", VList [VStr "hermes/openai-codex"]); (VStr "reason", VStr "fallback_not_permitted"); (VStr "run_id", VStr "run-1");
             (VStr "selected", VNone); (VStr "status", VStr "blocked"); (VStr "task_id", VStr "t-1")]) ∧
  (p ← demo_new_policy true; a_selected ∘ rt_audit <$> route_provider "t-1" "run-1" p [other_profile; a_profile]) = Ok (Some "codex-cli/codex-cli") ∧
  (p ← demo_new_policy true; a_selected ∘ rt_audit <$> route_provider "T_1" "run-1" p [other_profile; a_profile]) = Err RoutingConfigurationError.
Proof. vm_compute. split_and!; reflexivity. Qed.
(** A provider whose name mentions a prompt is a profile, and can never be configured. *)
Example prompt_unroutable : is_ok (new_profile (VStr "prompt-lab") (VStr "v1") VNone (VTuple []) None default_policy (VDict []) (VStr PROVIDER_SCHEMA_VERSION)) = true ∧
  _ids (VTuple [VStr "prompt-lab/v1"]) = Err RoutingConfigurationError.
Proof. vm_compute. split; reflexivity. Qed.
