(* ===== verification/GatewayBridge.v ===== *)
(** * Contracts of the gateway bridge (scripts/pd_fleet/gateway_bridge_contracts.py)

    The wire contracts of version 1: references, cursors, replay windows,
    snapshots and events, their validation, frozen copies and canonical text.
    A string of code points below 256 is in the normal form NFC, so the
    normalisation of strings is the identity; an object that is no JSON value is
    refused; an integer of more than 4300 digits is outside the model.  Calendar
    arithmetic outside the years 1 to 9999 is the [OverflowError] that no
    handler catches. *)

From S2P Require Import Prelude PyStr PyNum PyVal Regex IsoTime Sha256.

Open Scope string_scope.

Notation dict := (list (pyval * pyval)).

Definition SCHEMA_VERSION : string := "pd-fleet-gateway-bridge:v1".
Definition MAX_STRING_BYTES : nat := 256.
Definition MAX_REF_BYTES : nat := 128.
Definition MAX_PAYLOAD_BYTES : Z := 4096.
Definition MAX_PROVENANCE_REFS : nat := 8.
Definition MAX_LIST_ITEMS : nat := 32.
Definition MAX_SEQUENCE : Z := 2 ^ 63 - 1.
Definition MAX_NESTING_DEPTH : nat := 4.
Definition MAX_ENVELOPE_BYTES : Z := 8192.
Definition MAX_REPLAY_BATCH : Z := 100.
Definition RUNTIME_SURFACES : list string := ["gateway"; "gateway_bridge"].
Definition STATUSES : list string := ["observing"; "active"; "idle"; "paused"; "detached"; "ended"].
Definition REASON_CODES : list string := ["user_requested"; "timeout"; "expired"; "disconnected"; "error"; "reconciled"].
Definition TERMINAL_STATES : list string := ["completed"; "cancelled"; "failed"; "disconnected"].
Definition CHANGED_FIELDS : list string := ["status"; "metadata"; "runtime_surface"; "ownership_mode"].
Definition LIFECYCLE_EVENT_TYPES : list string :=
  ["session.registered"; "session.status_changed"; "session.heartbeat"; "session.metadata_changed"; "session.detached"; "session.ended"].

Inductive BridgeErrorCode : Type :=
| INVALID_REQUEST | UNAUTHENTICATED | OBSERVER_NOT_AUTHORIZED | ACTIVATION_INVALID | ACTIVATION_EXPIRED | ACTIVATION_REPLAYED
| ACTIVATION_BINDING_MISMATCH | FOREIGN_OWNER | ASSOCIATION_REQUIRED | ASSOCIATION_STALE | INVALID_PROVENANCE | UNSUPPORTED_SCHEMA
| UNSUPPORTED_EVENT | INVALID_EVENT | PAYLOAD_TOO_LARGE | CAPABILITY_DENIED | CURSOR_EXPIRED | CURSOR_STALE | REPLAY_GAP | RESYNC_REQUIRED | NO_NEW_EVENTS.
#[export] Instance code_eq_dec : EqDecision BridgeErrorCode.
Proof. solve_decision. Defined.
Definition code_value (c : BridgeErrorCode) : string :=
  match c with
  | INVALID_REQUEST => "invalid_request" | UNAUTHENTICATED => "unauthenticated" | OBSERVER_NOT_AUTHORIZED => "observer_not_authorized"
  | ACTIVATION_INVALID => "activation_invalid" | ACTIVATION_EXPIRED => "activation_expired" | ACTIVATION_REPLAYED => "activation_replayed"
  | ACTIVATION_BINDING_MISMATCH => "activation_binding_mismatch" | FOREIGN_OWNER => "foreign_owner" | ASSOCIATION_REQUIRED => "association_required"
  | ASSOCIATION_STALE => "association_stale" | INVALID_PROVENANCE => "invalid_provenance" | UNSUPPORTED_SCHEMA => "unsupported_schema"
  | UNSUPPORTED_EVENT => "unsupported_event" | INVALID_EVENT => "invalid_event" | PAYLOAD_TOO_LARGE => "payload_too_large" | CAPABILITY_DENIED => "capability_denied"
  | CURSOR_EXPIRED => "cursor_expired" | CURSOR_STALE => "cursor_stale" | REPLAY_GAP => "replay_gap" | RESYNC_REQUIRED => "resync_required" | NO_NEW_EVENTS => "no_new_events"
  end.
(** A validation error with its code and its audit reason, or what escapes. *)
Inductive bridge_error : Type :=
| BridgeValidationError (code : BridgeErrorCode) (audit_reason : option string)
| BridgeOverflow.
#[export] Instance bridge_error_eq_dec : EqDecision bridge_error.
Proof. solve_decision. Defined.
(** The text of the exception: the activation codes look alike. *)
Definition activation_codes : list BridgeErrorCode := [ACTIVATION_INVALID; ACTIVATION_EXPIRED; ACTIVATION_REPLAYED; ACTIVATION_BINDING_MISMATCH; CAPABILITY_DENIED].
Definition external_text (activation : bool) (c : BridgeErrorCode) : string :=
  if activation || bool_decide (c ∈ activation_codes) then code_value ACTIVATION_INVALID else code_value c.

Notation bres := (res bridge_error).
Definition _fail {A} (c : BridgeErrorCode) : bres A := Err (BridgeValidationError c None).
Definition fail_as {A} (c : BridgeErrorCode) (reason : string) : bres A := Err (BridgeValidationError c (Some reason)).
Definition need (b : bool) (c : BridgeErrorCode) : bres unit := if b then Ok () else _fail c.
Definition need_as (b : bool) (c : BridgeErrorCode) (reason : string) : bres unit := if b then Ok () else fail_as c reason.
Definition _unknown (d : dict) (allowed : list string) : bres unit := need_as (negb (has_unknown allowed d)) INVALID_REQUEST "unknown_field".

(** ** Scalars *)

Definition byte_count (s : string) : nat := length (utf8 s).
Definition ref_rest (c : ascii) : bool := is_alnum c || one_of "._:-" c.
Definition line_char (c : ascii) : bool := (code c =? 0)%nat || (code c =? 10)%nat || (code c =? 13)%nat.
Definition string_ok (is_ref : bool) (s : string) : bres string :=
  _ ← need (byte_count s <=? (if is_ref then MAX_REF_BYTES else MAX_STRING_BYTES))%nat PAYLOAD_TOO_LARGE;
  _ ← need (str_forallb (λ c, negb (line_char c)) s) INVALID_EVENT;
  _ ← need (negb is_ref || ident is_alnum ref_rest (Some 127%nat) s) INVALID_EVENT;
  Ok s.
Definition _string (is_ref allow_empty : bool) (v : pyval) : bres string :=
  match v with
  | VStr s => _ ← need (allow_empty || nonempty s) INVALID_EVENT; string_ok is_ref s
  | _ => _fail INVALID_EVENT
  end.
Definition _SENSITIVE : re :=
  ralt [rlit_ci "prompt"; rlit_ci "history"; rlit_ci "message"; rlit_ci "tool"; rlit_ci "provider"; rlit_ci "credential"; rlit_ci "secret"; rlit_ci "token";
        rlit_ci "password"; rlit_ci "terminal"; rlit_ci "path"; rlit_ci "url"; rlit_ci "uri"; rlit_ci "authorization"; rlit_ci "cookie";
        rseq [rlit_ci "api"; ropt (RChar (λ c, negb (code c =? 10)%nat)); rlit_ci "key"]].
Definition sensitive (s : string) : bool := search _SENSITIVE s.
#[local] Arguments sensitive : simpl never.
Definition _ref (v : pyval) : bres string :=
  s ← _string true false v;
  _ ← need_as (negb (str_existsb (Ascii.eqb ":") s || sensitive s)) INVALID_EVENT "redaction_denied";
  Ok s.
Definition opt_ref (v : pyval) : bres (option string) := match v with VNone => Ok None | _ => Some <$> _ref v end.

Inductive EventOrigin : Type := GATEWAY_NATIVE | FLEET_RECONCILED.
Inductive OwnershipMode : Type := USER_OWNED_SESSION | FLEET_OWNED_TASK.
#[export] Instance ownership_eq_dec : EqDecision OwnershipMode.
Proof. solve_decision. Defined.
Definition origin_value (o : EventOrigin) : string := match o with GATEWAY_NATIVE => "gateway_native" | FLEET_RECONCILED => "fleet_reconciled" end.
Definition ownership_value (o : OwnershipMode) : string := match o with USER_OWNED_SESSION => "user_owned_session" | FLEET_OWNED_TASK => "fleet_owned_task" end.
(** [_enum]: a member, or its value. *)
Definition _enum {A} (members : list A) (value : A → string) (v : A + pyval) : bres A :=
  match v with
  | inl a => Ok a
  | inr v => match List.find (λ a, key_is (value a) v) members with Some a => Ok a | None => fail_as INVALID_EVENT "unknown_enum" end
  end.
Definition origin_of : EventOrigin + pyval → bres EventOrigin := _enum [GATEWAY_NATIVE; FLEET_RECONCILED] origin_value.
Definition ownership_of : OwnershipMode + pyval → bres OwnershipMode := _enum [USER_OWNED_SESSION; FLEET_OWNED_TASK] ownership_value.
Definition _integer (lo hi : Z) (v : pyval) : bres Z :=
  match v with VInt n => _ ← need ((lo <=? n) && (n <=? hi))%Z INVALID_EVENT; Ok n | _ => _fail INVALID_EVENT end.
(** The text and the time it stands for. *)
Definition read_timestamp (v : pyval) : bres (string * datetime) :=
  s ← _string false false v;
  match parse_z s with
  | Some t => _ ← need (match dt_offset t with Some _ => true | None => false end) INVALID_EVENT; Ok (s, t)
  | None => _fail INVALID_EVENT
  end.
Definition _timestamp (v : pyval) : bres string := fst <$> read_timestamp v.

(** ** Frozen copies and canonical text *)

Definition is_bslash (c : ascii) : bool := (code c =? 92)%nat.
Definition location : re :=
  ralt [rseq [rlit_ci "http"; ropt (rlit_ci "s"); rlit "://"]; rlit_ci "ftp://"; rseq [rchr "/"; rplus (RChar (λ c, negb (Ascii.eqb " " c)))];
        rseq [RChar is_alpha; rchr ":"; RChar is_bslash; RChar is_bslash]].
Definition located (s : string) : bool := search location s.
#[local] Arguments located : simpl never.
Definition key_ok (k : string) : bres unit :=
  _ ← _string false false (VStr k);
  need_as (negb (sensitive k && negb (bool_decide (k = "terminal_state")))) INVALID_EVENT "redaction_denied".
Definition freeze_entry (freeze_item : pyval → bres pyval) (kv : pyval * pyval) : bres (pyval * pyval) :=
  match kv.1 with
  | VStr k => _ ← key_ok k; w ← freeze_item kv.2; Ok (VStr k, w)
  | _ => fail_as INVALID_EVENT "invalid_key"
  end.
Fixpoint _freeze (levels : nat) (provenance : bool) (value : pyval) : bres pyval :=
  match levels with
  | O => fail_as PAYLOAD_TOO_LARGE "nesting_depth"
  | S levels =>
      match value with
      | VDict kvs | VProxy kvs =>
          _ ← need (length kvs <=? (if provenance then MAX_PROVENANCE_REFS else MAX_LIST_ITEMS))%nat PAYLOAD_TOO_LARGE;
          VProxy <$> mapM (freeze_entry (_freeze levels provenance)) kvs
      | VList l | VTuple l =>
          _ ← need (length l <=? MAX_LIST_ITEMS)%nat PAYLOAD_TOO_LARGE;
          VTuple <$> mapM (_freeze levels provenance) l
      | VStr s => _ ← _string false true value; _ ← need_as (negb (sensitive s || located s)) INVALID_EVENT "redaction_denied"; Ok value
      | VFloat f => if is_finite f then Ok value else fail_as INVALID_EVENT "non_finite"
      | VNone | VBool _ | VInt _ => Ok value
      | VOther _ => fail_as INVALID_EVENT "unsupported_input"
      end
  end.
(** The levels that may be entered: depths 0 to [MAX_NESTING_DEPTH]. *)
Definition freeze (provenance : bool) (value : pyval) : bres pyval := _freeze (S MAX_NESTING_DEPTH) provenance value.
Fixpoint _serialize (value : pyval) : pyval :=
  match value with
  | VDict kvs | VProxy kvs => VDict (map (λ kv, (kv.1, _serialize kv.2)) kvs)
  | VList l | VTuple l => VList (map _serialize l)
  | VFloat f => match f with S754_zero _ => VFloat (S754_zero false) | _ => value end
  | _ => value
  end.
Definition json_of (value : pyval) : bres string := map_err (λ _, BridgeValidationError INVALID_EVENT (Some "invalid_json")) (json_dumps (_serialize value)).
Definition canonical_json (value : pyval) : bres string := v ← freeze false value; json_of v.
Definition fingerprint (value : pyval) : bres string := sha256_hex <$> canonical_json value.
Definition within (limit : Z) (s : string) : bool := (Z.of_nat (byte_count s) <=? limit)%Z.
Definition _safe_mapping (provenance : bool) (value : pyval) : bres pyval :=
  _ ← need (is_mapping value) INVALID_EVENT;
  frozen ← freeze provenance value;
  encoded ← canonical_json frozen;
  _ ← need (within MAX_PAYLOAD_BYTES encoded) PAYLOAD_TOO_LARGE;
  Ok frozen.

(** ** The flat contracts *)

(** [from_dict] of a flat contract: the fields, all known and the required ones present. *)
Definition contract_fields (fields required : list string) (v : pyval) : bres dict :=
  match entries v with
  | None => _fail INVALID_REQUEST
  | Some d => _ ← _unknown d fields; _ ← need_as (forallb (λ k, dhas k d) required) INVALID_REQUEST "missing_field"; Ok d
  end.
Definition text (o : option string) : pyval := match o with Some s => VStr s | None => VNone end.

Record ActivationTicketRef : Type := MkTicket { at_activation : string; at_nonce : option string }.
Definition new_ticket (activation nonce : pyval) : bres ActivationTicketRef := a ← _ref activation; n ← opt_ref nonce; Ok (MkTicket a n).
Definition ticket_dict (t : ActivationTicketRef) : dict := [(VStr "activation_ref", VStr (at_activation t)); (VStr "nonce_ref", text (at_nonce t))].
Definition ticket_from_dict (v : pyval) : bres ActivationTicketRef :=
  d ← contract_fields ["activation_ref"; "nonce_ref"] ["activation_ref"] v; new_ticket (dget_or VNone "activation_ref" d) (dget_or VNone "nonce_ref" d).

Record AssociationRef : Type := MkAssociation { as_association : option string; as_session : option string; as_owner : option string; as_profile : option string; as_workspace : option string; as_mode : OwnershipMode }.
(** Every field is checked unless it is [None], the required ones too. *)
Definition new_association (association session owner profile workspace : pyval) (mode : OwnershipMode + pyval) : bres AssociationRef :=
  a ← opt_ref association; s ← opt_ref session; o ← opt_ref owner; p ← opt_ref profile; w ← opt_ref workspace; m ← ownership_of mode; Ok (MkAssociation a s o p w m).
Definition association_dict (a : AssociationRef) : dict :=
  [(VStr "association_ref", text (as_association a)); (VStr "session_ref", text (as_session a)); (VStr "owner_ref", text (as_owner a)); (VStr "profile_ref", text (as_profile a));
   (VStr "workspace_ref", text (as_workspace a)); (VStr "ownership_mode", VStr (ownership_value (as_mode a)))].
Definition mode_arg (d : dict) : OwnershipMode + pyval := match dget "ownership_mode" d with Some v => inr v | None => inl USER_OWNED_SESSION end.
Definition association_from_dict (v : pyval) : bres AssociationRef :=
  d ← contract_fields ["association_ref"; "session_ref"; "owner_ref"; "profile_ref"; "workspace_ref"; "ownership_mode"] ["association_ref"; "session_ref"] v;
  let get k := dget_or VNone k d in
  new_association (get "association_ref") (get "session_ref") (get "owner_ref") (get "profile_ref") (get "workspace_ref") (mode_arg d).

Record ObserverIdentity : Type := MkObserver { ob_observer : option string; ob_owner : option string; ob_profile : option string }.
Definition new_observer (observer owner profile : pyval) : bres ObserverIdentity := a ← opt_ref observer; o ← opt_ref owner; p ← opt_ref profile; Ok (MkObserver a o p).
Definition observer_dict (o : ObserverIdentity) : dict := [(VStr "observer_ref", text (ob_observer o)); (VStr "owner_ref", text (ob_owner o)); (VStr "profile_ref", text (ob_profile o))].
Definition observer_from_dict (v : pyval) : bres ObserverIdentity :=
  d ← contract_fields ["observer_ref"; "owner_ref"; "profile_ref"] ["observer_ref"] v;
  new_observer (dget_or VNone "observer_ref" d) (dget_or VNone "owner_ref" d) (dget_or VNone "profile_ref" d).

Record BridgeCursor : Type := MkCursor { cu_association : string; cu_subscriber : string; cu_epoch : string; cu_last : Z; cu_issued : string; cu_expires : string }.
Definition to_utc (t : datetime) : bres datetime := match astimezone_utc t with Some u => Ok u | None => Err BridgeOverflow end.
Definition new_cursor (version association subscriber epoch last issued expires : pyval) : bres BridgeCursor :=
  _ ← need (key_is SCHEMA_VERSION version) UNSUPPORTED_SCHEMA;
  a ← _ref association; s ← _ref subscriber; e ← _ref epoch; n ← _integer 0 MAX_SEQUENCE last;
  i ← read_timestamp issued; x ← read_timestamp expires;
  xu ← to_utc x.2; iu ← to_utc i.2;
  _ ← need_as (dt_us iu <=? dt_us xu)%Z INVALID_EVENT "invalid_cursor_interval";
  Ok (MkCursor a s e n i.1 x.1).
Definition cursor_dict (c : BridgeCursor) : dict :=
  [(VStr "cursor_version", VStr SCHEMA_VERSION); (VStr "association_ref", VStr (cu_association c)); (VStr "subscriber_ref", VStr (cu_subscriber c)); (VStr "stream_epoch", VStr (cu_epoch c));
   (VStr "last_sequence", VInt (cu_last c)); (VStr "issued_at", VStr (cu_issued c)); (VStr "expires_at", VStr (cu_expires c))].
Definition CURSOR_FIELDS : list string := ["cursor_version"; "association_ref"; "subscriber_ref"; "stream_epoch"; "last_sequence"; "issued_at"; "expires_at"].
Definition cursor_from_dict (v : pyval) : bres BridgeCursor :=
  d ← contract_fields CURSOR_FIELDS CURSOR_FIELDS v;
  let get k := dget_or VNone k d in
  new_cursor (get "cursor_version") (get "association_ref") (get "subscriber_ref") (get "stream_epoch") (get "last_sequence") (get "issued_at") (get "expires_at").

Record ReplayWindow : Type := MkWindow { rw_association : string; rw_epoch : string; rw_after : Z; rw_limit : Z }.
Definition new_window (association epoch after limit : pyval) : bres ReplayWindow :=
  a ← _ref association; e ← _ref epoch; n ← _integer 0 MAX_SEQUENCE after;
  _ ← need_as (match limit with VInt m => (m <=? MAX_REPLAY_BATCH)%Z | _ => true end) INVALID_REQUEST "invalid_replay_limit";
  m ← _integer 1 MAX_REPLAY_BATCH limit;
  Ok (MkWindow a e n m).
Definition window_dict (w : ReplayWindow) : dict :=
  [(VStr "association_ref", VStr (rw_association w)); (VStr "stream_epoch", VStr (rw_epoch w)); (VStr "after_sequence", VInt (rw_after w)); (VStr "limit", VInt (rw_limit w))].
Definition window_from_dict (v : pyval) : bres ReplayWindow :=
  d ← contract_fields ["association_ref"; "stream_epoch"; "after_sequence"; "limit"] ["association_ref"; "stream_epoch"; "after_sequence"] v;
  let get k := dget_or VNone k d in
  new_window (get "association_ref") (get "stream_epoch") (get "after_sequence") (dget_or (VInt 100) "limit" d).

Record SessionSnapshot : Type := MkSnapshot { sn_session : string; sn_association : string; sn_mode : OwnershipMode; sn_status : string; sn_epoch : option string; sn_sequence : Z; sn_version : Z }.
Definition MAX_COUNTER : Z := 2 ^ 31 - 1.
Definition new_snapshot (session association : pyval) (mode : OwnershipMode + pyval) (status epoch sequence version : pyval) : bres SessionSnapshot :=
  s ← _ref session; a ← _ref association; m ← ownership_of mode; st ← _string false false status;
  _ ← need_as (bool_decide (st ∈ STATUSES)) INVALID_EVENT "unknown_enum";
  n ← _integer 0 MAX_SEQUENCE sequence; v ← _integer 0 MAX_COUNTER version; e ← opt_ref epoch;
  Ok (MkSnapshot s a m st e n v).
Definition snapshot_dict (s : SessionSnapshot) : dict :=
  [(VStr "session_ref", VStr (sn_session s)); (VStr "association_ref", VStr (sn_association s)); (VStr "ownership_mode", VStr (ownership_value (sn_mode s))); (VStr "status", VStr (sn_status s));
   (VStr "stream_epoch", text (sn_epoch s)); (VStr "sequence", VInt (sn_sequence s)); (VStr "metadata_version", VInt (sn_version s))].
Definition snapshot_from_dict (v : pyval) : bres SessionSnapshot :=
  d ← contract_fields ["session_ref"; "association_ref"; "ownership_mode"; "status"; "stream_epoch"; "sequence"; "metadata_version"] ["session_ref"; "association_ref"] v;
  new_snapshot (dget_or VNone "session_ref" d) (dget_or VNone "association_ref" d) (mode_arg d) (dget_or (VStr "observing") "status" d) (dget_or VNone "stream_epoch" d)
    (dget_or (VInt 0) "sequence" d) (dget_or (VInt 0) "metadata_version" d).

(** ** Events *)

Record BridgeEvent : Type := MkEvent {
  event_id : string; event_type : string; occurred_at : string; event_origin : EventOrigin; session_ref : string; association_ref : string; ownership_mode : OwnershipMode;
  stream_epoch : string; sequence : Z; payload : pyval; provenance : pyval; source_instance_ref : option string }.
(** The fields of a payload: those allowed and those required. *)
Definition payload_fields (type : string) : list string * list string :=
  if bool_decide (type = "session.registered") then (["runtime_surface"; "metadata_version"], ["runtime_surface"; "metadata_version"])
  else if bool_decide (type = "session.status_changed") then (["status"; "reason_code"; "metadata_version"], ["status"; "metadata_version"])
  else if bool_decide (type = "session.heartbeat") then (["heartbeat_sequence"; "observed_at"; "ttl_ms"], ["heartbeat_sequence"; "observed_at"; "ttl_ms"])
  else if bool_decide (type = "session.metadata_changed") then (["metadata_version"; "changed_fields"], ["metadata_version"; "changed_fields"])
  else if bool_decide (type = "session.detached") then (["reason_code"; "metadata_version"], ["reason_code"; "metadata_version"])
  else (["terminal_state"; "reason_code"; "metadata_version"], ["terminal_state"; "reason_code"; "metadata_version"]).
Definition one_of_names (names : list string) (v : pyval) : bool := match v with VStr s => bool_decide (s ∈ names) | _ => false end.
Definition unknown_unless (b : bool) : bres unit := need_as b INVALID_EVENT "unknown_enum".
Definition check_item (key : string) (item : pyval) : bres unit :=
  if bool_decide (key = "runtime_surface") then unknown_unless (one_of_names RUNTIME_SURFACES item)
  else if bool_decide (key = "status") then unknown_unless (one_of_names STATUSES item)
  else if bool_decide (key = "reason_code") then unknown_unless (one_of_names REASON_CODES item)
  else if bool_decide (key = "terminal_state") then unknown_unless (one_of_names TERMINAL_STATES item)
  else if endswith key "_version" || endswith key "_sequence" || bool_decide (key = "ttl_ms") then _ ← _integer 0 MAX_COUNTER item; Ok ()
  else if bool_decide (key = "observed_at") then _ ← _timestamp item; Ok ()
  else if bool_decide (key = "changed_fields") then
    unknown_unless (match elems item with Some l => (length l <=? MAX_LIST_ITEMS)%nat && forallb (one_of_names CHANGED_FIELDS) l | None => false end)
  else _ ← _string false false item; Ok ().
Definition dict_of (v : pyval) : dict := default [] (entries v).
Definition check_payload (type : string) (payload : pyval) : bres unit :=
  let '(allowed, required) := payload_fields type in
  let d := dict_of payload in
  _ ← need_as (negb (has_unknown allowed d) && forallb (λ k, dhas k d) required) INVALID_EVENT "payload_shape";
  _ ← mapM (λ kv, check_item (key_str kv) kv.2) d;
  Ok ().
Definition _bridge_event_wire (e : BridgeEvent) : dict :=
  [(VStr "schema_version", VStr SCHEMA_VERSION); (VStr "event_id", VStr (event_id e)); (VStr "event_type", VStr (event_type e)); (VStr "occurred_at", VStr (occurred_at e));
   (VStr "source", VDict ((VStr "system", VStr "hermes-gateway") :: match source_instance_ref e with Some r => [(VStr "instance_ref", VStr r)] | None => [] end));
   (VStr "event_origin", VStr (origin_value (event_origin e)));
   (VStr "session", VDict [(VStr "session_ref", VStr (session_ref e)); (VStr "association_ref", VStr (association_ref e)); (VStr "ownership_mode", VStr (ownership_value (ownership_mode e)))]);
   (VStr "stream_epoch", VStr (stream_epoch e)); (VStr "sequence", VInt (sequence e)); (VStr "payload", _serialize (payload e)); (VStr "provenance", _serialize (provenance e))].
Definition _canonical_event_json (e : BridgeEvent) : bres string := json_of (VDict (_bridge_event_wire e)).
Definition event_fingerprint (e : BridgeEvent) : bres string := sha256_hex <$> _canonical_event_json e.
(** [__post_init__]: the checks in their order. *)
Definition new_event (version id type at_ system : pyval) (origin : EventOrigin + pyval) (session association : pyval) (mode : OwnershipMode + pyval)
    (epoch seq pay prov instance : pyval) : bres BridgeEvent :=
  _ ← need (key_is SCHEMA_VERSION version) UNSUPPORTED_SCHEMA;
  i ← _ref id; t ← _timestamp at_; s ← _ref session; a ← _ref association; ep ← _ref epoch;
  _ ← need (key_is "hermes-gateway" system) INVALID_PROVENANCE;
  ty ← _string false false type;
  _ ← need (bool_decide (ty ∈ LIFECYCLE_EVENT_TYPES)) UNSUPPORTED_EVENT;
  o ← origin_of origin; m ← ownership_of mode; n ← _integer 0 MAX_SEQUENCE seq; r ← opt_ref instance;
  p ← _safe_mapping false pay;
  _ ← check_payload ty p;
  q ← _safe_mapping true prov;
  _ ← need (negb (bool_decide (m = FLEET_OWNED_TASK))) CAPABILITY_DENIED;
  let e := MkEvent i ty t o s a m ep n p q r in
  text ← _canonical_event_json e;
  _ ← need_as (within MAX_ENVELOPE_BYTES text) PAYLOAD_TOO_LARGE "envelope_too_large";
  Ok e.
Definition EVENT_FIELDS : list string :=
  ["schema_version"; "event_id"; "event_type"; "occurred_at"; "source"; "event_origin"; "session"; "stream_epoch"; "sequence"; "payload"; "provenance"].
Definition event_from_dict (v : pyval) : bres BridgeEvent :=
  match entries v with
  | None => _fail INVALID_EVENT
  | Some d =>
      _ ← _unknown d EVENT_FIELDS;
      _ ← need_as (forallb (λ k, dhas k d) EVENT_FIELDS) INVALID_EVENT "missing_field";
      let get k := dget_or VNone k d in
      match entries (get "source"), entries (get "session") with
      | Some source, Some session =>
          _ ← _unknown source ["system"; "instance_ref"]; _ ← _unknown session ["session_ref"; "association_ref"; "ownership_mode"];
          _ ← need_as (dhas "system" source && forallb (λ k, dhas k session) ["session_ref"; "association_ref"; "ownership_mode"]) INVALID_EVENT "missing_field";
          new_event (get "schema_version") (get "event_id") (get "event_type") (get "occurred_at") (dget_or VNone "system" source) (inr (get "event_origin"))
            (dget_or VNone "session_ref" session) (dget_or VNone "association_ref" session) (inr (dget_or VNone "ownership_mode" session)) (get "stream_epoch")
            (get "sequence") (get "payload") (get "provenance") (dget_or VNone "instance_ref" source)
      | _, _ => _fail INVALID_EVENT
      end
  end.

(** ** What validation keeps *)

(** A mapping as it comes back from its canonical text. *)
Definition received (v : pyval) : pyval := reload (_serialize v).

Lemma bind_go {A B} (m : bres A) (f : A → bres B) a r : m = Ok a → f a = r → (x ← m; f x) = r.
Proof. by intros -> <-. Qed.
Lemma need_ok b c u : need b c = Ok u ↔ b = true.
Proof. destruct b, u; cbn; naive_solver. Qed.
Lemma need_as_ok b c r u : need_as b c r = Ok u ↔ b = true.
Proof. destruct b, u; cbn; naive_solver. Qed.
Lemma need_true b c : b = true → need b c = Ok ().
Proof. by intros ->. Qed.
Lemma need_as_true b c r : b = true → need_as b c r = Ok ().
Proof. by intros ->. Qed.
(** [res_inv], with the guards of this file. *)
Ltac guard_inv := repeat (res_inv1 || match goal with
  | H : need _ _ = Ok _ |- _ => apply need_ok in H
  | H : need_as _ _ _ = Ok _ |- _ => apply need_as_ok in H
  end).
(** One step of a chain whose outcome is at hand. *)
Ltac go := eapply bind_go; [first [eassumption | apply need_true; eassumption | apply need_as_true; eassumption]|].

Lemma mapM_oks {A B} (f : A → bres B) l : Forall (λ a, ∃ b, f a = Ok b) l → ∃ bs, mapM f l = Ok bs.
Proof.
  induction 1 as [|a l [b Hb] _ [bs Hbs]]; [by exists []|]. exists (b :: bs). cbn. by rewrite Hb, Hbs.
Qed.
Lemma mapM_ok_in {A B} (f : A → bres B) l bs : mapM f l = Ok bs → Forall (λ a, ∃ b, f a = Ok b) l.
Proof. rewrite mapM_res_ok. induction 1; constructor; eauto. Qed.

Lemma serialize_idem v : _serialize (_serialize v) = _serialize v.
Proof.
  induction v using pyval_ind'; try done; cbn.
  - destruct f; try done.
  - f_equal. rewrite map_map. apply map_ext_Forall. done.
  - f_equal. rewrite map_map. apply map_ext_Forall. done.
  - f_equal. rewrite map_map. apply map_ext_Forall. eapply Forall_impl; [exact H|]. cbn. by intros [k w] [_ ->].
  - f_equal. rewrite map_map. apply map_ext_Forall. eapply Forall_impl; [exact H|]. cbn. by intros [k w] [_ ->].
Qed.

Lemma freeze_entry_ok f kv kw : freeze_entry f kv = Ok kw ↔ ∃ k w, kv.1 = VStr k ∧ key_ok k = Ok () ∧ f kv.2 = Ok w ∧ kw = (VStr k, w).
Proof.
  unfold freeze_entry. split.
  - destruct kv as [k a]; cbn [fst snd]; intros H. destruct k; try done. guard_inv. match goal with u : unit |- _ => destruct u end. eauto 10.
  - destruct kv as [a b]; cbn [fst snd]. intros (k & w & -> & Hk & Hw & ->). do 2 go. done.
Qed.

(** Freezing changes the containers only. *)
Lemma freeze_serialize n p v w : _freeze n p v = Ok w → _serialize w = _serialize v.
Proof.
  revert v w. induction n as [|n IH]; intros v w H; [done|].
  assert (Hl : ∀ l ws, mapM (_freeze n p) l = Ok ws → map _serialize ws = map _serialize l).
  { intros l ws. rewrite mapM_res_ok. induction 1 as [|a b l l' Hab Hll IHl]; cbn; [done|]. by rewrite (IH _ _ Hab), IHl. }
  assert (Hd : ∀ (l ws : dict), mapM (freeze_entry (_freeze n p)) l = Ok ws → map (λ kv, (kv.1, _serialize kv.2)) ws = map (λ kv, (kv.1, _serialize kv.2)) l).
  { intros l ws. rewrite mapM_res_ok. induction 1 as [|[k a] b l l' Hab Hll IHl]; [done|].
    apply freeze_entry_ok in Hab as (k' & w' & Hk & _ & Hw & ->). cbn in *. by rewrite (IH _ _ Hw), IHl, Hk. }
  destruct v; cbn [_freeze] in H; guard_inv; subst; try done; cbn.
  - destruct (is_finite f); [|done]. by guard_inv.
  - by erewrite Hl by eassumption.
  - by erewrite Hl by eassumption.
  - by erewrite Hd by eassumption.
  - by erewrite Hd by eassumption.
Qed.

Section accepted.
  Context (n : nat) (p : bool) (IH : ∀ v w, _freeze n p v = Ok w → ∃ w', _freeze n p (received v) = Ok w').

Lemma items_received l ws : mapM (_freeze n p) l = Ok ws → ∃ ws', mapM (_freeze n p) (map received l) = Ok ws'.
Proof using IH.
  intros H. apply mapM_oks, Forall_fmap. eapply Forall_impl; [by eapply mapM_ok_in|]. intros a [b Hb]. by eapply IH.
Qed.

Lemma entries_received (d ws : dict) :
  mapM (freeze_entry (_freeze n p)) d = Ok ws → ∃ ws', mapM (freeze_entry (_freeze n p)) (reload_dict (map (λ kv, (kv.1, _serialize kv.2)) d)) = Ok ws'.
Proof using IH.
  intros H. apply mapM_oks. unfold reload_dict. rewrite map_map. cbn. rewrite sort_by_perm. apply Forall_fmap.
  eapply Forall_impl; [by eapply mapM_ok_in|]. intros [k a] [b Hb]. apply freeze_entry_ok in Hb as (k' & w' & Hk & Ho & Hw & ->). cbn in *.
  destruct (IH _ _ Hw) as [w'' Hw']. eexists. apply freeze_entry_ok. eauto 10.
Qed.
End accepted.

Lemma length_received d : length (reload_dict d) = length d.
Proof. unfold reload_dict. by rewrite length_sort_by, length_map. Qed.

(** What the wire brings back is accepted again, at the same depth. *)
Lemma freeze_received n p v w : _freeze n p v = Ok w → ∃ w', _freeze n p (received v) = Ok w'.
Proof.
  revert v w. induction n as [|n IH]; intros v w H; [done|]. destruct v; try (by exists w); cbn [_freeze] in H;
    [destruct (is_finite f) eqn:Hf; [destruct f; cbn in *; eauto; done|done]|guard_inv..].
  1,2: destruct (items_received n p IH _ _ H0) as [ws Hws]; eexists; unfold received; cbn [_serialize reload _freeze]; rewrite map_map, length_map; go;
    by setoid_rewrite Hws.
  all: destruct (entries_received n p IH _ _ H0) as [ws Hws]; eexists; unfold received; cbn [_serialize]; rewrite reload_VDict; cbn [_freeze];
    rewrite length_received, length_map; go; by setoid_rewrite Hws.
Qed.

(** A frozen value is as it is, under the wider bound of a payload too. *)
Lemma freeze_frozen n p v w : _freeze n p v = Ok w → _freeze n false w = Ok w.
Proof.
  revert v w. induction n as [|n IH]; intros v w H; [done|].
  assert (Hl : ∀ l ws, mapM (_freeze n p) l = Ok ws → length ws = length l ∧ mapM (_freeze n false) ws = Ok ws).
  { intros l ws. rewrite !mapM_res_ok. intros Hf. split; [by symmetry; eapply Forall2_length|]. induction Hf; constructor; eauto. }
  assert (Hd : ∀ d ws : dict, mapM (freeze_entry (_freeze n p)) d = Ok ws → length ws = length d ∧ mapM (freeze_entry (_freeze n false)) ws = Ok ws).
  { intros d ws. rewrite !mapM_res_ok. intros Hf. split; [by symmetry; eapply Forall2_length|]. induction Hf as [|? ? ? ? Hab]; constructor; [|done].
    apply freeze_entry_ok in Hab as (k & a & _ & Hk & Ha & ->). apply freeze_entry_ok. eauto 10. }
  assert (Hw : ∀ d : dict, (length d <=? (if p then MAX_PROVENANCE_REFS else MAX_LIST_ITEMS))%nat = true → (length d <=? MAX_LIST_ITEMS)%nat = true).
  { intros d. rewrite !Nat.leb_le. destruct p; cbv [MAX_PROVENANCE_REFS MAX_LIST_ITEMS]; lia. }
  destruct v; cbn [_freeze] in H; guard_inv; subst; try done.
  - destruct (is_finite f) eqn:Hf; [|done]. guard_inv. cbn. by rewrite Hf.
  - cbn [_freeze]. do 2 go. done.
  - destruct (Hl _ _ H0) as [Hn Hm]. cbn [_freeze]. rewrite Hn. go. by rewrite Hm.
  - destruct (Hl _ _ H0) as [Hn Hm]. cbn [_freeze]. rewrite Hn. go. by rewrite Hm.
  - destruct (Hd _ _ H0) as [Hn Hm]. cbn [_freeze]. rewrite Hn. eapply bind_go; [apply need_true; eauto|]. by rewrite Hm.
  - destruct (Hd _ _ H0) as [Hn Hm]. cbn [_freeze]. rewrite Hn. eapply bind_go; [apply need_true; eauto|]. by rewrite Hm.
Qed.

Lemma serialize_received v : _serialize (received v) = received v.
Proof.
  unfold received. induction v using pyval_ind'; try done; cbn [_serialize].
  - by destruct f.
  - cbn. f_equal. rewrite !map_map. by apply map_ext_Forall.
  - cbn. f_equal. rewrite !map_map. by apply map_ext_Forall.
  - rewrite reload_VDict. cbn [_serialize]. f_equal. unfold reload_dict. rewrite <- (sort_by_map kv_leb kv_leb) by done. f_equal. rewrite !map_map. apply map_ext_Forall.
    eapply Forall_impl; [exact H|]. cbn. by intros [k w] [_ ->].
  - rewrite reload_VDict. cbn [_serialize]. f_equal. unfold reload_dict. rewrite <- (sort_by_map kv_leb kv_leb) by done. f_equal. rewrite !map_map. apply map_ext_Forall.
    eapply Forall_impl; [exact H|]. cbn. by intros [k w] [_ ->].
Qed.

(** ** What the checks of an event see *)

Lemma one_of_names_received l v : one_of_names l (received v) = one_of_names l v.
Proof. unfold received. destruct v; try done. by destruct f. Qed.
Lemma key_str_of k v : key_str (VStr k, v) = k.
Proof. done. Qed.
Lemma integer_received lo hi v : _integer lo hi (received v) = _integer lo hi v.
Proof. unfold received. destruct v; try done. by destruct f. Qed.
Lemma string_received r b v : _string r b (received v) = _string r b v.
Proof. unfold received. destruct v; try done. by destruct f. Qed.
Lemma elems_received v : elems (received v) = map received <$> elems v.
Proof. unfold received. destruct v; cbn; rewrite ?map_map; try done. by destruct f. Qed.
Lemma check_item_received k v : check_item k (received v) = check_item k v.
Proof.
  unfold check_item, _timestamp, read_timestamp. rewrite !one_of_names_received, integer_received, !string_received, elems_received.
  destruct (elems v) as [l|]; cbn; [|done]. rewrite length_map. replace (forallb (one_of_names CHANGED_FIELDS) (map received l)) with (forallb (one_of_names CHANGED_FIELDS) l); [done|].
  induction l; cbn; [done|]. by rewrite one_of_names_received, IHl.
Qed.

Lemma entries_received_map v d : entries v = Some d → entries (received v) = Some (reload_dict (map (λ kv, (kv.1, _serialize kv.2)) d)).
Proof. unfold received. destruct v; cbn; try done; intros [= ->]; done. Qed.

Lemma dict_of_entries v d : entries v = Some d → dict_of v = d.
Proof. unfold dict_of. by intros ->. Qed.

Lemma mapM_checks {A} (f : A → bres unit) l : (_ ← mapM f l; Ok ()) = Ok () ↔ Forall (λ a, f a = Ok ()) l.
Proof.
  rewrite bind_ok. split.
  - intros (us & Hus & _). eapply Forall_impl; [by eapply mapM_ok_in|]. intros a [[] Ha]. done.
  - intros Hl. destruct (mapM_oks f l) as [us ->]; [|by exists us]. eapply Forall_impl; [exact Hl|]. intros a Ha. by exists ().
Qed.

Lemma check_payload_ok type v d : entries v = Some d →
  check_payload type v = Ok () ↔
  has_unknown (payload_fields type).1 d = false ∧ forallb (λ k, dhas k d) (payload_fields type).2 = true ∧ Forall (λ kv, check_item (key_str kv) kv.2 = Ok ()) d.
Proof.
  intros Hd. unfold check_payload. rewrite (dict_of_entries _ _ Hd). destruct (payload_fields type) as [allowed required]. cbv zeta. cbn [fst snd].
  rewrite bind_ok, <- mapM_checks. split.
  - intros (u & Hs & Hm). apply need_as_ok, andb_true_iff in Hs as [Hu Hr]. by apply negb_true_iff in Hu.
  - intros (Hu & Hr & Hm). exists (). split; [|done]. apply need_as_true. by rewrite Hu, Hr.
Qed.

Lemma check_payload_received type v : is_mapping v = true → check_payload type (received v) = Ok () ↔ check_payload type v = Ok ().
Proof.
  intros Hv. assert (∃ d, entries v = Some d) as [d Hd] by (destruct v; eauto; done).
  rewrite (check_payload_ok _ _ _ (entries_received_map _ _ Hd)), (check_payload_ok _ _ _ Hd).
  rewrite has_unknown_reload. erewrite has_unknown_perm by (rewrite map_map; cbn; reflexivity).
  replace (forallb _ _) with (forallb (λ k, dhas k d) (payload_fields type).2).
  - apply and_iff_compat_l, and_iff_compat_l. unfold reload_dict. rewrite sort_by_perm, map_map. split; intros Hall.
    + rewrite Forall_fmap in Hall. eapply Forall_impl; [exact Hall|]. intros [k a] <-. symmetry. apply check_item_received.
    + apply Forall_fmap. eapply Forall_impl; [exact Hall|]. intros [k a] <-. apply check_item_received.
  - induction (payload_fields type).2 as [|k ks IH]; cbn; [done|]. rewrite IH, dhas_reload. unfold dhas. rewrite dget_map_snd. by destruct (dget k d).
Qed.

Lemma json_of_ok v s : json_of v = Ok s ↔ json_dumps (_serialize v) = Ok s.
Proof. unfold json_of. destruct (json_dumps (_serialize v)); cbn; naive_solver. Qed.

Lemma safe_mapping_ok p v w : _safe_mapping p v = Ok w ↔
  is_mapping v = true ∧ freeze p v = Ok w ∧ ∃ s, json_of v = Ok s ∧ within MAX_PAYLOAD_BYTES s = true.
Proof.
  assert (Hcanon : freeze p v = Ok w → canonical_json w = json_of v).
  { intros Hf. unfold canonical_json. rewrite (freeze_frozen _ _ _ _ Hf : freeze false w = Ok w). cbn. unfold json_of. by rewrite (freeze_serialize _ _ _ _ Hf). }
  unfold _safe_mapping. split.
  - intros H. guard_inv. subst. rewrite Hcanon in * by done. eauto.
  - intros (Hv & Hf & s & Hs & Hb). do 2 go. rewrite Hcanon by done. do 2 go. done.
Qed.

(** A safe mapping comes back from its text as a safe mapping of the same text. *)
Lemma safe_mapping_received p v w : _safe_mapping p v = Ok w → ∃ w', _safe_mapping p (received v) = Ok w' ∧ _serialize w' = received v.
Proof.
  rewrite safe_mapping_ok. intros (Hv & Hf & s & Hs & Hb). destruct (freeze_received _ _ _ _ Hf) as [w' Hf']. exists w'.
  split; [|rewrite (freeze_serialize _ _ _ _ Hf'); apply serialize_received]. apply safe_mapping_ok. split; [|split; [done|]].
  - unfold received. destruct v; try done.
  - exists s. split; [|done]. apply json_of_ok. rewrite serialize_received. apply dumps_reload. by apply json_of_ok.
Qed.

Lemma received_frozen p v w : freeze p v = Ok w → received w = received v.
Proof. intros H. unfold received. by rewrite (freeze_serialize _ _ _ _ H). Qed.

(** A dictionary as it comes back. *)
Definition sent (d : dict) : dict := reload_dict (map (λ kv, (kv.1, _serialize kv.2)) d).
Lemma received_VDict d : received (VDict d) = VDict (sent d).
Proof. unfold received. cbn [_serialize]. apply reload_VDict. Qed.
Lemma dget_sent k d : dget k (sent d) = received <$> dget k d.
Proof. unfold sent. rewrite dget_reload, dget_map_snd. by destruct (dget k d). Qed.
Lemma sent_get k d v : dget k d = Some v → dget_or VNone k (sent d) = received v.
Proof. intros H. unfold dget_or. by rewrite dget_sent, H. Qed.
Lemma has_unknown_sent ks d : has_unknown ks (sent d) = has_unknown ks d.
Proof. unfold sent. rewrite has_unknown_reload. apply has_unknown_perm. by rewrite map_map. Qed.
Lemma has_sent ks d : forallb (λ k, dhas k (sent d)) ks = forallb (λ k, dhas k d) ks.
Proof. induction ks as [|k ks IH]; cbn; [done|]. rewrite IH. unfold dhas. rewrite dget_sent. by destruct (dget k d). Qed.

(** Validated scalars are the values they were made from. *)
Lemma string_same r b v s : _string r b v = Ok s → v = VStr s.
Proof. unfold _string, string_ok. destruct v; try done. intros H. by guard_inv. Qed.
Lemma ref_same v s : _ref v = Ok s → v = VStr s.
Proof. unfold _ref. intros H. guard_inv. subst. by eapply string_same. Qed.
Lemma opt_ref_same v o : opt_ref v = Ok o → v = text o.
Proof. unfold opt_ref. destruct v; intros H; guard_inv; subst; try done; cbn; by eapply ref_same. Qed.
Lemma timestamp_same v s : _timestamp v = Ok s → v = VStr s.
Proof.
  unfold _timestamp, read_timestamp. intros H. guard_inv. subst. destruct (parse_z _); [|done]. guard_inv. subst. cbn. by eapply string_same.
Qed.
Lemma integer_same lo hi v n : _integer lo hi v = Ok n → v = VInt n.
Proof. unfold _integer. destruct v; try done. intros H. by guard_inv. Qed.
Lemma origin_again o : origin_of (inr (VStr (origin_value o))) = Ok o.
Proof. by destruct o. Qed.
Lemma ownership_again m : ownership_of (inr (VStr (ownership_value m))) = Ok m.
Proof. by destruct m. Qed.

(** A hypothesis in so many words. *)
Ltac here := match goal with H : ?P |- ?P => exact H end.

(** ** The events that exist *)

Record valid_event (e : BridgeEvent) : Prop := {
  ve_id : _ref (VStr (event_id e)) = Ok (event_id e);
  ve_at : _timestamp (VStr (occurred_at e)) = Ok (occurred_at e);
  ve_session : _ref (VStr (session_ref e)) = Ok (session_ref e);
  ve_association : _ref (VStr (association_ref e)) = Ok (association_ref e);
  ve_epoch : _ref (VStr (stream_epoch e)) = Ok (stream_epoch e);
  ve_text : _string false false (VStr (event_type e)) = Ok (event_type e);
  ve_type : bool_decide (event_type e ∈ LIFECYCLE_EVENT_TYPES) = true;
  ve_sequence : _integer 0 MAX_SEQUENCE (VInt (sequence e)) = Ok (sequence e);
  ve_instance : opt_ref (text (source_instance_ref e)) = Ok (source_instance_ref e);
  ve_payload : ∃ v, _safe_mapping false v = Ok (payload e);
  ve_shape : check_payload (event_type e) (payload e) = Ok ();
  ve_provenance : ∃ v, _safe_mapping true v = Ok (provenance e);
  ve_owner : ownership_mode e = USER_OWNED_SESSION;
  ve_wire : ∃ s, _canonical_event_json e = Ok s ∧ within MAX_ENVELOPE_BYTES s = true }.

Lemma new_event_valid version id type at_ system origin session association mode epoch seq pay prov instance e :
  new_event version id type at_ system origin session association mode epoch seq pay prov instance = Ok e → valid_event e.
Proof.
  unfold new_event. cbv zeta. intros H. guard_inv. repeat match goal with
  | E : _ref ?v = Ok _ |- _ => is_var v; pose proof (ref_same _ _ E); subst v
  | E : _timestamp ?v = Ok _ |- _ => is_var v; pose proof (timestamp_same _ _ E); subst v
  | E : opt_ref ?v = Ok _ |- _ => is_var v; pose proof (opt_ref_same _ _ E); subst v
  | E : _integer _ _ ?v = Ok _ |- _ => is_var v; pose proof (integer_same _ _ _ _ E); subst v
  | E : _string _ _ ?v = Ok _ |- _ => is_var v; pose proof (string_same _ _ _ _ E); subst v
  | u : () |- _ => destruct u
  end.
  constructor; cbn [event_id event_type occurred_at event_origin session_ref association_ref ownership_mode stream_epoch sequence payload provenance source_instance_ref];
    try here.
  - exists pay. assumption.
  - exists prov. assumption.
  - destruct x9; [done|]. bool_inv. done.
  - exists x16. split; assumption.
Qed.

Lemma json_dict_ext (d d' : dict) s :
  Forall2 (λ x y, x.1 = y.1 ∧ ∀ w, json_dumps x.2 = Ok w → json_dumps y.2 = Ok w) d d' → json_dumps (VDict d) = Ok s → json_dumps (VDict d') = Ok s.
Proof.
  intros Hd. cbn [json_dumps]. rewrite !bind_ok. intros (ws & Hws & Hs). exists ws. split; [|done]. apply mapM_res_ok. apply mapM_res_ok in Hws.
  clear Hs. revert ws Hws. induction Hd as [|[k a] [k' b] d d' [Hk Hab] Hd IH]; intros ws Hws; inversion Hws as [|? kw ? ws' Hw Hws']; subst; constructor; [|by apply IH].
  cbn in *. subst k'. apply bind_ok in Hw as (w & Hw & Hkw). apply bind_ok. eauto.
Qed.

Lemma safe_is_mapping p v w : _safe_mapping p v = Ok w → is_mapping w = true.
Proof.
  rewrite safe_mapping_ok. intros (Hm & Hf & _). unfold freeze in Hf. destruct v; try done; cbn [_freeze] in Hf; guard_inv; by subst.
Qed.

Section reread.
  Context (e : BridgeEvent) (He : valid_event e).

Lemma field_back k v : dget k (_bridge_event_wire e) = Some v → dget_or VNone k (sent (_bridge_event_wire e)) = received v.
Proof using. apply sent_get. Qed.

Lemma instance_back : dget_or VNone "instance_ref" (sent ((VStr "system", VStr "hermes-gateway") :: match source_instance_ref e with Some r => [(VStr "instance_ref", VStr r)] | None => [] end))
  = text (source_instance_ref e).
Proof using. unfold dget_or. rewrite dget_sent. by destruct (source_instance_ref e). Qed.

Lemma payload_back : ∃ p', _safe_mapping false (received (payload e)) = Ok p' ∧ _serialize p' = received (payload e) ∧ check_payload (event_type e) p' = Ok ().
Proof using He.
  destruct (ve_payload e He) as [v Hv]. pose proof (proj1 (safe_mapping_ok _ _ _) Hv) as (Hm & Hf & _). rewrite (received_frozen _ _ _ Hf).
  destruct (safe_mapping_received _ _ _ Hv) as (p' & Hp' & Hs). exists p'. split; [done|]. split; [done|].
  apply check_payload_received; [by eapply safe_is_mapping|]. unfold received. rewrite Hs. unfold received. rewrite reload_idem.
  change (check_payload (event_type e) (received v) = Ok ()). rewrite <- (received_frozen _ _ _ Hf). apply check_payload_received; [|apply (ve_shape e He)].
  by eapply safe_is_mapping.
Qed.

Lemma provenance_back : ∃ q', _safe_mapping true (received (provenance e)) = Ok q' ∧ _serialize q' = received (provenance e).
Proof using He.
  destruct (ve_provenance e He) as [v Hv]. pose proof (proj1 (safe_mapping_ok _ _ _) Hv) as (_ & Hf & _). rewrite (received_frozen _ _ _ Hf).
  destruct (safe_mapping_received _ _ _ Hv) as (q & Hq & Hs). by exists q.
Qed.
End reread.

(** The text of two events whose mappings came back is the same. *)
Lemma text_back e p q s : _canonical_event_json e = Ok s → _serialize p = received (payload e) → _serialize q = received (provenance e) →
  _canonical_event_json (MkEvent (event_id e) (event_type e) (occurred_at e) (event_origin e) (session_ref e) (association_ref e) (ownership_mode e) (stream_epoch e) (sequence e)
    p q (source_instance_ref e)) = Ok s.
Proof.
  unfold _canonical_event_json. rewrite !json_of_ok. intros Hs Hp Hq. cbn [_serialize] in *. revert Hs. apply json_dict_ext.
  cbn [_bridge_event_wire map fst snd event_id event_type occurred_at event_origin session_ref association_ref ownership_mode stream_epoch sequence payload provenance source_instance_ref].
  rewrite Hp, Hq, !serialize_idem, !serialize_received. do 9 (constructor; [by split; eauto|]).
  constructor; [split; [done|]; apply dumps_reload|]. constructor; [split; [done|]; apply dumps_reload|]. constructor.
Qed.

Lemma received_serialize v : received (_serialize v) = received v.
Proof. unfold received. by rewrite serialize_idem. Qed.

Lemma made_again e p q s : valid_event e → _safe_mapping false (received (payload e)) = Ok p → check_payload (event_type e) p = Ok () →
  _safe_mapping true (received (provenance e)) = Ok q →
  let e' := MkEvent (event_id e) (event_type e) (occurred_at e) (event_origin e) (session_ref e) (association_ref e) (ownership_mode e) (stream_epoch e) (sequence e)
    p q (source_instance_ref e) in
  _canonical_event_json e' = Ok s → within MAX_ENVELOPE_BYTES s = true →
  new_event (VStr SCHEMA_VERSION) (VStr (event_id e)) (VStr (event_type e)) (VStr (occurred_at e)) (VStr "hermes-gateway") (inr (VStr (origin_value (event_origin e))))
    (VStr (session_ref e)) (VStr (association_ref e)) (inr (VStr (ownership_value (ownership_mode e)))) (VStr (stream_epoch e)) (VInt (sequence e))
    (received (payload e)) (received (provenance e)) (text (source_instance_ref e)) = Ok e'.
Proof.
  intros [Hi Hat Hse Has Hep Hte Hty Hsq Hin _ _ _ Ho _] Hp Hc Hq e' Hs Hb. unfold new_event. cbv zeta. apply (bind_go _ _ ()); [done|]. do 5 go.
  apply (bind_go _ _ ()); [done|]. do 2 go. eapply bind_go; [apply origin_again|]. eapply bind_go; [apply ownership_again|].
  eapply bind_go; [exact Hsq|]. eapply bind_go; [exact Hin|]. eapply bind_go; [exact Hp|]. eapply bind_go; [exact Hc|]. eapply bind_go; [exact Hq|].
  apply (bind_go _ _ ()); [by rewrite Ho|].
  eapply bind_go; [exact Hs|]. eapply bind_go; [by apply need_as_true|]. done.
Qed.

(** C25: An event that was made survives the wire: read back from its canonical
    text (keys sorted, tuples as lists, the sign of zero lost) it is accepted,
    with the same canonical text and the same fingerprint. *)
Theorem event_reread version id type at_ system origin session association mode epoch seq pay prov instance e :
  new_event version id type at_ system origin session association mode epoch seq pay prov instance = Ok e →
  ∃ e' s, _canonical_event_json e = Ok s ∧ event_from_dict (received (VDict (_bridge_event_wire e))) = Ok e' ∧ _canonical_event_json e' = Ok s ∧
    event_fingerprint e' = event_fingerprint e ∧ _serialize (payload e') = received (payload e).
Proof.
  intros He%new_event_valid. destruct (payload_back e He) as (p & Hp & Hsp & Hc). destruct (provenance_back e He) as (q & Hq & Hsq).
  destruct (ve_wire e He) as (s & Hs & Hb). pose proof (text_back e p q s Hs Hsp Hsq) as Hs'.
  eexists _, s. split; [done|]. split; [|split; [exact Hs'|]].
  - rewrite received_VDict. unfold event_from_dict. cbn [entries].
    apply (bind_go _ _ ()); [by unfold _unknown; rewrite has_unknown_sent|]. apply (bind_go _ _ ()); [by rewrite has_sent|]. cbv zeta.
    rewrite (field_back e "schema_version" _ eq_refl), (field_back e "event_id" _ eq_refl), (field_back e "event_type" _ eq_refl), (field_back e "occurred_at" _ eq_refl), (field_back e "source" _ eq_refl), (field_back e "event_origin" _ eq_refl), (field_back e "session" _ eq_refl), (field_back e "stream_epoch" _ eq_refl), (field_back e "sequence" _ eq_refl), (field_back e "payload" _ eq_refl), (field_back e "provenance" _ eq_refl).
    rewrite !received_VDict. cbn [entries]. rewrite instance_back.
    apply (bind_go _ _ ()); [by unfold _unknown; rewrite has_unknown_sent; destruct (source_instance_ref e)|].
    apply (bind_go _ _ ()); [by unfold _unknown; rewrite has_unknown_sent|].
    apply (bind_go _ _ ()); [by rewrite has_sent; unfold dhas; rewrite dget_sent|].
    set (d := [(VStr "session_ref", _); _; _]). set (d' := (VStr "system", _) :: _).
    rewrite (sent_get "session_ref" d _ eq_refl), (sent_get "association_ref" d _ eq_refl), (sent_get "ownership_mode" d _ eq_refl), (sent_get "system" d' _ eq_refl).
    rewrite (received_serialize (payload e)), (received_serialize (provenance e)). by eapply made_again.
  - split; [|exact Hsp]. unfold event_fingerprint. by rewrite Hs, Hs'.
Qed.

(** ** Examples *)

Definition ex_payload : pyval := VDict [(VStr "status", VStr "active"); (VStr "metadata_version", VInt 1)].
Definition ex_provenance : pyval := VDict [(VStr "level", VFloat (S754_zero true)); (VStr "by", VTuple [VStr "x"])].
Definition ex_event : bres BridgeEvent :=
  new_event (VStr SCHEMA_VERSION) (VStr "evt-1") (VStr "session.status_changed") (VStr "2026-01-02T03:04:05Z") (VStr "hermes-gateway") (inr (VStr "gateway_native"))
    (VStr "s-1") (VStr "a-1") (inl USER_OWNED_SESSION) (VStr "epoch-1") (VInt 1) ex_payload ex_provenance (VStr "node-1").
Definition ex_made : BridgeEvent :=
  MkEvent "evt-1" "session.status_changed" "2026-01-02T03:04:05Z" GATEWAY_NATIVE "s-1" "a-1" USER_OWNED_SESSION "epoch-1" 1
    (VProxy [(VStr "status", VStr "active"); (VStr "metadata_version", VInt 1)])
    (VProxy [(VStr "level", VFloat (S754_zero true)); (VStr "by", VTuple [VStr "x"])]) (Some "node-1").
Lemma ex_event_made : ex_event = Ok ex_made.
Proof. vm_compute. reflexivity. Qed.
Definition ex_cursor (issued expires : string) : bres BridgeCursor :=
  new_cursor (VStr SCHEMA_VERSION) (VStr "a-1") (VStr "sub") (VStr "e") (VInt 3) (VStr issued) (VStr expires).
(** A time of the first year east of Greenwich escapes as an [OverflowError]. *)
Example cursor_overflows : ex_cursor "0001-01-01T00:00:00+01:00" "2026-01-02T03:04:05Z" = Err BridgeOverflow.
Proof. vm_compute. reflexivity. Qed.
(** Any character may part date and time: a cursor with a slash is made and cannot be written. *)
Example cursor_unwritable : is_ok (ex_cursor "2026-01-02/03:04:05Z" "2026-01-02/03:04:05Z") = true ∧
  (c ← ex_cursor "2026-01-02/03:04:05Z" "2026-01-02/03:04:05Z"; canonical_json (VDict (cursor_dict c))) = Err (BridgeValidationError INVALID_EVENT (Some "redaction_denied")).
Proof. vm_compute. done. Qed.
(** A drive with one backslash is no location, with two it is. *)
Example drive_passes : is_ok (canonical_json (VDict [(VStr "note", VStr "C:\x")])) = true ∧ is_ok (canonical_json (VDict [(VStr "note", VStr "C:\\x")])) = false.
Proof. vm_compute. done. Qed.
(** The required references may be [None]. *)
Example association_of_none : new_association VNone VNone VNone VNone VNone (inl USER_OWNED_SESSION) = Ok (MkAssociation None None None None None USER_OWNED_SESSION).
Proof. reflexivity. Qed.
(** A task of the fleet is never observed. *)
Example fleet_task_denied :
  new_event (VStr SCHEMA_VERSION) (VStr "evt-1") (VStr "session.heartbeat") (VStr "2026-01-02T03:04:05Z") (VStr "hermes-gateway") (inl FLEET_RECONCILED)
    (VStr "s-1") (VStr "a-1") (inl FLEET_OWNED_TASK) (VStr "epoch-1") (VInt 1)
    (VDict [(VStr "heartbeat_sequence", VInt 1); (VStr "observed_at", VStr "2026-01-02T03:04:05Z"); (VStr "ttl_ms", VInt 5)]) (VDict []) VNone = _fail CAPABILITY_DENIED.
Proof. vm_compute. reflexivity. Qed.
Example external_alike : external_text false ACTIVATION_REPLAYED = "activation_invalid" ∧ external_text true REPLAY_GAP = "activation_invalid" ∧ external_text false REPLAY_GAP = "replay_gap".
Proof. done. Qed.

Lemma event_reread_witness : ∃ e' s,
  _canonical_event_json ex_made = Ok s ∧ event_from_dict (received (VDict (_bridge_event_wire ex_made))) = Ok e' ∧ _canonical_event_json e' = Ok s ∧
  event_fingerprint e' = event_fingerprint ex_made ∧ _serialize (payload e') = received (payload ex_made).
Proof. exact (event_reread _ _ _ _ _ _ _ _ _ _ _ _ _ _ _ ex_event_made). Defined.
