(* ===== verification/Observability.v ===== *)
(** * The audit sink of a run (scripts/pd_fleet/observability.py)

    Redaction of audited values, the bounded append-only sink and its exports.
    Every operation holds the lock while it reads and writes the sink, so a
    history of calls is a sequence of operations.  Sets are outside the values
    of the model, as are integers of more than 4300 digits. *)

From S2P Require Import Prelude PyStr PyNum PyVal Regex SafeRendering.

Open Scope string_scope.

Notation dict := (list (pyval * pyval)).

Inductive obs_error : Type := ObservabilityError.
#[export] Instance obs_error_eq_dec : EqDecision obs_error.
Proof. solve_decision. Defined.
Notation ores := (res obs_error).
Definition refuse_unless (b : bool) : ores unit := ensure b ObservabilityError.

(** ** Patterns *)

Definition quote_mark (c : ascii) : bool := (code c =? 34)%nat || (code c =? 39)%nat.
Definition angle (c : ascii) : bool := one_of "<>" c.
Definition _URL : re :=
  rseq [ralt [rseq [rlit_ci "http"; ropt (rlit_ci "s")]; rlit_ci "ftp"; rseq [rlit_ci "ws"; ropt (rlit_ci "s")]]; rlit "://";
        rplus (RChar (λ c, negb (is_space c || quote_mark c || angle c)))].
(** Neither a blank of ASCII nor a delimiter. *)
Definition path_char (c : ascii) : bool := negb (between 9 13 c || (code c =? 32)%nat || quote_mark c || angle c || one_of ";," c).
Definition path_sep (c : ascii) : bool := one_of "/\" c.
Definition _PATH : re :=
  rseq [RNotAfter (λ c, is_word c || Ascii.eqb "." c);
        ralt [rseq [rchr "~"; RChar path_sep; rstar (RChar path_char)]; rseq [rchr "/"; rplus (RChar path_char)];
              rseq [RChar is_alpha; rchr ":"; RChar path_sep; rstar (RChar path_char)]; rseq [rlit "\\"; rplus (RChar path_char)]]].
Definition gap : re := ropt (rchr "_ -").
Definition secret_name : re :=
  ralt [rlit_ci "credential"; rlit_ci "secret"; rlit_ci "token"; rlit_ci "password"; rseq [rlit_ci "api"; gap; rlit_ci "key"];
        rseq [rlit_ci "access"; gap; ralt [rlit_ci "key"; rlit_ci "token"]]; rseq [rlit_ci "private"; gap; rlit_ci "key"];
        rseq [rlit_ci "client"; gap; rlit_ci "secret"]; rlit_ci "authorization"; rlit_ci "bearer"].
Definition _SECRET : re :=
  rseq [RNotAfter is_word; secret_name; rstar rspace; ropt (rchr ":="); rstar rspace; rplus (RChar (λ c, negb (is_space c || one_of ",;}" c)))].
Definition at_least (n : nat) (r : re) : re := RSeq (rtimes n r) (rstar r).
Definition _SECRET_VALUE : re :=
  ralt [rseq [rlit_ci "bearer"; rplus rspace; rplus rnonspace]; rseq [rlit_ci "sk-"; at_least 8 (RChar (λ c, is_alnum c || one_of "_-" c))];
        rseq [rlit_ci "gh"; RChar (ci (one_of "pousr")); rchr "_"; at_least 8 (RChar (λ c, is_alnum c || one_of "_" c))];
        rseq [rlit_ci "akia"; at_least 12 (RChar is_alnum)]].
Definition id_char (c : ascii) : bool := is_alnum c || one_of "_.:-" c.
Definition _ID (v : pyval) : ores string :=
  match v with VStr s => _ ← refuse_unless (ident is_alnum id_char (Some 127%nat) s); Ok s | _ => Err ObservabilityError end.

(** ** Frozen values *)

Definition masked (s : string) : string :=
  sub _SECRET_VALUE (λ _, "[SECRET REDACTED]") (sub _SECRET (λ _, "[SECRET REDACTED]") (sub _PATH (λ _, "[PATH REDACTED]") (sub _URL (λ _, "[URL REDACTED]") s))).
#[local] Arguments masked : simpl never.
Definition _redact_text (value : string) (limit : nat) : string := safe_text (VStr (masked value)) UNSUPPORTED_TYPE (Some limit).
Definition normalized (key : string) : string := String.string_of_list_ascii (filter (λ c, is_lower c || is_digit c) (map lower_ascii (String.list_ascii_of_string key))).
Definition secret_words : list string := ["credential"; "secret"; "token"; "password"; "apikey"; "accesskey"; "accesstoken"; "privatekey"; "authorization"].
Definition secret_key (key : string) : bool := existsb (λ w, contains (normalized key) w) secret_words.
#[local] Arguments secret_key : simpl never.
(** The entries in the order of their keys: the first [max_fields] are kept. *)
Definition sorted_items (max_fields : nat) (kvs : dict) : dict := take max_fields (sort_by kv_leb kvs).
Definition named (k : pyval) : bool := match k with VStr s => nonempty s | _ => false end.
Section immutable.
  Context (max_fields max_string : nat).

Fixpoint _immutable (levels : nat) (value : pyval) : ores pyval :=
  match levels with
  | O => Ok (VStr "[DEPTH REDACTED]")
  | S levels =>
      match value with
      | VNone | VBool _ | VInt _ => Ok value
      | VFloat f => _ ← refuse_unless (is_finite f); Ok value
      | VStr s => Ok (VStr (_redact_text s max_string))
      | VDict kvs | VProxy kvs =>
          _ ← refuse_unless (forallb (λ kv, named kv.1) kvs);
          VProxy <$> mapM (λ kv, w ← (if secret_key (key_str kv) then Ok (VStr "[SECRET REDACTED]") else _immutable levels kv.2); Ok (kv.1, w)) (sorted_items max_fields kvs)
      | VList l | VTuple l => VTuple <$> mapM (_immutable levels) (take max_fields l)
      | VOther _ => Ok (VStr "[UNSUPPORTED TYPE]")
      end
  end.
End immutable.
(** Depths 0 to [max_depth = 8]. *)
Definition LEVELS : nat := 9.
Fixpoint _plain (v : pyval) : pyval :=
  match v with
  | VDict kvs | VProxy kvs => VDict (map (λ kv, (kv.1, _plain kv.2)) kvs)
  | VTuple l | VList l => VList (map _plain l)
  | _ => v
  end.

(** ** The sink *)

Record AuditEvent : Type := MkEvent { sequence : Z; event : string; correlation_id : string; run_id : option string; task_id : option string; fields : pyval }.
Definition opt_text (o : option string) : pyval := match o with Some s => VStr s | None => VNone end.
Definition to_dict (e : AuditEvent) : dict :=
  [(VStr "sequence", VInt (sequence e)); (VStr "event", VStr (event e)); (VStr "correlation_id", VStr (correlation_id e)); (VStr "run_id", opt_text (run_id e));
   (VStr "task_id", opt_text (task_id e)); (VStr "fields", _plain (fields e))].

Record AuditSink : Type := MkSink { max_events : Z; max_fields : Z; max_string_length : Z; _events : list AuditEvent; _counters : gmap string Z; _sequence : Z }.
Definition positive (v : pyval) : ores Z := match v with VInt n => _ ← refuse_unless (1 <=? n)%Z; Ok n | _ => Err ObservabilityError end.
Definition new_sink (events fields strings : pyval) : ores AuditSink :=
  e ← positive events; f ← positive fields; s ← positive strings; Ok (MkSink e f s [] ∅ 0).
Definition _id (v : pyval) : ores (option string) := match v with VNone => Ok None | _ => Some <$> _ID v end.
Definition count (name : string) (amount : Z) (c : gmap string Z) : gmap string Z := <[name := (default 0 (c !! name) + amount)%Z]> c.
(** What is looked at under the lock: capacity and payload, before a number is taken. *)
Definition correlation (given run task : option string) (sequence : Z) : string :=
  match given with
  | Some c => c
  | None => match run, task with Some r, Some t => "corr-" +:+ r +:+ "-" +:+ t | _, _ => "corr-" +:+ str_of_Z sequence end
  end.
Definition _freeze_fields (s : AuditSink) (fields : pyval) : ores pyval :=
  _immutable (Z.to_nat (max_fields s)) (Z.to_nat (max_string_length s)) LEVELS (match fields with VNone => VDict [] | _ => fields end).
Definition stored (s : AuditSink) (e : AuditEvent) : AuditSink :=
  MkSink (max_events s) (max_fields s) (max_string_length s) (_events s ++ [e]) (count (event e) 1 (_counters s)) (sequence e).
Definition record (name fields run task given : pyval) : stm AuditSink obs_error AuditEvent :=
  n ← lift_res (_ID name);
  _ ← ensure_st (is_none fields || is_mapping fields) ObservabilityError;
  r ← lift_res (_id run); t ← lift_res (_id task); g ← lift_res (_id given);
  s ← get_state;
  _ ← ensure_st (Z.of_nat (length (_events s)) <? max_events s)%Z ObservabilityError;
  safe ← lift_res (_freeze_fields s fields);
  let sequence := (_sequence s + 1)%Z in
  let item := MkEvent sequence n (correlation g r t sequence) r t safe in
  _ ← modify (λ s, stored s item);
  mret item.
Definition increment (name amount : pyval) : stm AuditSink obs_error Z :=
  n ← lift_res (_ID name);
  a ← lift_res (positive amount);
  _ ← modify (λ s, MkSink (max_events s) (max_fields s) (max_string_length s) (_events s) (count n a (_counters s)) (_sequence s));
  s ← get_state;
  mret (default 0%Z (_counters s !! n)).
Definition events (s : AuditSink) : list dict :=
  map (λ e, [(VStr "sequence", VInt (sequence e)); (VStr "event", VStr (event e)); (VStr "correlation_id", VStr (correlation_id e)); (VStr "run_id", opt_text (run_id e));
             (VStr "task_id", opt_text (task_id e)); (VStr "fields", fields e)]) (_events s).
Definition export (s : AuditSink) : dict :=
  [(VStr "events", VList (map (λ e, VDict (to_dict e)) (_events s)));
   (VStr "counters", VDict (map (λ k, (VStr k, VInt (default 0%Z (_counters s !! k)))) (sort_strings (elements (dom (_counters s))))))].
Definition export_json (s : AuditSink) : res json_error string := json_dumps (VDict (export s)).

(** A history of calls, with the outcome of each. *)
Inductive call : Type := Record_ (name fields run task given : pyval) | Increment (name amount : pyval).
Definition outcome : Type := ores (AuditEvent + Z).
Definition perform (c : call) (s : AuditSink) : AuditSink * outcome :=
  match c with
  | Record_ n f r t g => let '(s', o) := record n f r t g s in (s', inl <$> o)
  | Increment n a => let '(s', o) := increment n a s in (s', inr <$> o)
  end.
Fixpoint history (cs : list call) (s : AuditSink) : AuditSink * list outcome :=
  match cs with
  | [] => (s, [])
  | c :: cs => let '(s1, o) := perform c s in let '(s2, os) := history cs s1 in (s2, o :: os)
  end.

(** ** What is stored *)

Definition marker (s : string) : bool := bool_decide (s ∈ ["[SECRET REDACTED]"; "[DEPTH REDACTED]"; "[UNSUPPORTED TYPE]"]).
(** A value that the sink may hold: printable, bounded in every direction, and
    nothing but the marker under the name of a secret. *)
Section frozen.
  Context (max_fields max_string : nat).

Fixpoint frozen (levels : nat) (v : pyval) : bool :=
  match levels with
  | O => key_is "[DEPTH REDACTED]" v
  | S levels =>
      match v with
      | VNone | VBool _ | VInt _ => true
      | VFloat f => is_finite f
      | VStr s => marker s || ((String.length s <=? max_string)%nat && str_forallb printable s)
      | VProxy kvs => (length kvs <=? max_fields)%nat &&
          forallb (λ kv, named kv.1 && (if secret_key (key_str kv) then key_is "[SECRET REDACTED]" kv.2 else frozen levels kv.2)) kvs
      | VTuple l => (length l <=? max_fields)%nat && forallb (frozen levels) l
      | _ => false
      end
  end.

Lemma mapM_each {A B} (f : A → ores B) (P : B → Prop) l k : mapM f l = Ok k → (∀ a b, a ∈ l → f a = Ok b → P b) → Forall P k.
Proof using.
  rewrite mapM_res_ok. induction 1 as [|a b l k Hab Hl IH]; intros HP; constructor; [eapply HP; [left|exact Hab]|]. apply IH. intros a' b' Ha'. apply HP. by right.
Qed.
Lemma mapM_length {A B} (f : A → ores B) l k : mapM f l = Ok k → length k = length l.
Proof using. rewrite mapM_res_ok. intros H. symmetry. by eapply Forall2_length. Qed.

Lemma length_take_str n s : (String.length (str_take n s) ≤ n)%nat.
Proof using. revert s. induction n as [|n IH]; intros [|c s]; cbn; [lia..|]. specialize (IH s). lia. Qed.
Lemma redact_bounded s : (String.length (_redact_text s max_string) <=? max_string)%nat && str_forallb printable (_redact_text s max_string) = true.
Proof using.
  unfold _redact_text, safe_text. apply andb_true_iff. split; [apply Nat.leb_le, length_take_str|]. apply str_take_forallb, escape_printable.
Qed.

Lemma frozen_by_immutable levels v w : _immutable max_fields max_string levels v = Ok w → frozen levels w = true.
Proof using.
  revert v w. induction levels as [|n IH]; intros v w H; [by apply ok_inj in H as <-|].
  assert (Hi : ∀ l, VTuple <$> mapM (_immutable max_fields max_string n) (take max_fields l) = Ok w → frozen (S n) w = true).
  { intros l (ws & Hws & ->)%fmap_ok. cbn [frozen]. rewrite (mapM_length _ _ _ Hws), length_take. apply andb_true_iff. split; [apply Nat.leb_le; lia|].
    apply forallb_true_iff, Forall_forall. apply (mapM_each _ _ _ _ Hws). eauto. }
  assert (Hd : ∀ kvs : dict, (_ ← refuse_unless (forallb (λ kv, named kv.1) kvs);
    VProxy <$> mapM (λ kv, w ← (if secret_key (key_str kv) then Ok (VStr "[SECRET REDACTED]") else _immutable max_fields max_string n kv.2); Ok (kv.1, w)) (sorted_items max_fields kvs))
    = Ok w → frozen (S n) w = true).
  { intros kvs (u & Hn%ensure_ok & (ws & Hws & ->)%fmap_ok)%bind_ok. cbn [frozen]. rewrite (mapM_length _ _ _ Hws). unfold sorted_items. rewrite length_take.
    apply andb_true_iff. split; [apply Nat.leb_le; lia|]. apply forallb_true_iff, Forall_forall. apply (mapM_each _ _ _ _ Hws). intros kv kw Hkv (x & Hx & [= <-])%bind_ok.
    rewrite forallb_true_iff in Hn. unfold sorted_items in Hkv. apply elem_of_take in Hkv as (i & Hkv & _). apply list_elem_of_lookup_2 in Hkv. rewrite elem_of_sort_by in Hkv.
    cbn [fst snd]. rewrite (Hn _ Hkv). unfold key_str in *. cbn [fst snd]. destruct (secret_key _); [by apply ok_inj in Hx as <-|eauto]. }
  destruct v; cbn [_immutable] in H; [by apply ok_inj in H as <-..| | | | | | |by apply ok_inj in H as <-].
  - apply bind_ok in H as (u & Hf%ensure_ok & <-%ok_inj). done.
  - apply ok_inj in H as <-. cbn [frozen]. by rewrite redact_bounded, orb_true_r.
  - exact (Hi _ H).
  - exact (Hi _ H).
  - exact (Hd _ H).
  - exact (Hd _ H).
Qed.
End frozen.

Lemma json_list (l : list pyval) : (∀ v, v ∈ l → is_ok (json_dumps (_plain v)) = true) → ∃ ws, mapM json_dumps (map _plain l) = Ok ws.
Proof.
  induction l as [|v l IH]; intros Hl; [by exists []|]. destruct (proj1 (is_ok_true _) (Hl v ltac:(left))) as [w Hw].
  destruct IH as [ws Hws]; [intros; apply Hl; by right|]. exists (w :: ws). cbn. by rewrite Hw, Hws.
Qed.
Lemma json_dict (d : dict) : (∀ kv, kv ∈ d → is_str kv.1 = true ∧ is_ok (json_dumps (_plain kv.2)) = true) → is_ok (json_dumps (_plain (VDict d))) = true.
Proof.
  intros Hd. cbn [_plain json_dumps]. match goal with |- is_ok (mbind _ ?m) = true => assert (∃ ws, m = Ok ws) as [ws ->]; [|done] end.
  induction d as [|[k v] d IH]; [by exists []|]. destruct (Hd (k, v) ltac:(left)) as [Hk [w Hw]%is_ok_true].
  destruct IH as [ws Hws]; [intros; apply Hd; by right|]. cbn in *. rewrite Hw. destruct k; try done. exists ((s, w) :: ws). cbn. by setoid_rewrite Hws.
Qed.

(** A frozen value can be written. *)
Lemma frozen_json maxf maxs levels v : frozen maxf maxs levels v = true → is_ok (json_dumps (_plain v)) = true.
Proof.
  revert v. induction levels as [|n IH]; intros v H; [destruct v; try done|]. destruct v; cbn [frozen] in H; try done.
  - cbn. by rewrite H.
  - apply andb_true_iff in H as [_ H]. rewrite forallb_true_iff in H. cbn [_plain json_dumps]. destruct (json_list l) as [ws ->]; [eauto|done].
  - apply andb_true_iff in H as [_ H]. rewrite forallb_true_iff in H. apply (json_dict kvs). intros [k w] Hkv. specialize (H _ Hkv). cbn in *.
    apply andb_true_iff in H as [Hk H]. split; [by destruct k|]. destruct (secret_key _); [by destruct w|eauto].
Qed.

(** ** Histories *)

(** The items that a history returned, and what its calls count for a name. *)
Definition recorded (os : list outcome) : list AuditEvent := omap (λ o, match o with Ok (inl e) => Some e | _ => None end) os.
Definition weight (name : string) (co : call * outcome) : Z :=
  match co with
  | (_, Ok (inl e)) => if bool_decide (event e = name) then 1 else 0
  | (Increment n (VInt a), Ok (inr _)) => if key_is name n then a else 0
  | _ => 0
  end.
Definition tally (name : string) (cs : list call) (os : list outcome) : Z := foldr Z.add 0%Z (map (weight name) (zip cs os)).

Definition same_bounds (s s' : AuditSink) : Prop :=
  max_events s' = max_events s ∧ max_fields s' = max_fields s ∧ max_string_length s' = max_string_length s.
Definition holds (s : AuditSink) (v : pyval) : bool := frozen (Z.to_nat (max_fields s)) (Z.to_nat (max_string_length s)) LEVELS v.

(** What one call can do: nothing, or store the item it returns, or count. *)
Inductive step (s : AuditSink) : call → AuditSink → outcome → Prop :=
| step_refused c : step s c s (Err ObservabilityError)
| step_stored n f r t g e : sequence e = (_sequence s + 1)%Z → n = VStr (event e) → (Z.of_nat (length (_events s)) < max_events s)%Z → holds s (fields e) = true →
    step s (Record_ n f r t g) (stored s e) (Ok (inl e))
| step_counted n a total s' : (1 <= a)%Z → total = (default 0 (_counters s !! n) + a)%Z → same_bounds s s' → _events s' = _events s → _sequence s' = _sequence s →
    _counters s' = <[n := total]> (_counters s) → step s (Increment (VStr n) (VInt a)) s' (Ok (inr total)).

Lemma ID_same v s : _ID v = Ok s → v = VStr s.
Proof. unfold _ID. destruct v; try done. intros H. by res_inv. Qed.
Lemma freeze_held s f v : _freeze_fields s f = Ok v → holds s v = true.
Proof. unfold _freeze_fields, holds. generalize LEVELS. intros n. apply frozen_by_immutable. Qed.

Lemma perform_step c s s' o : perform c s = (s', o) → step s c s' o.
Proof.
  destruct c as [n f r t g|n a]; cbn [perform].
  - unfold record. rewrite stm_lift. destruct (_ID n) as [n'|[]] eqn:Hn; [|intros [= <- <-]; constructor].
    rewrite stm_ensure. destruct (is_none f || is_mapping f); [|intros [= <- <-]; constructor].
    rewrite stm_lift. destruct (_id r) as [r'|[]]; [|intros [= <- <-]; constructor].
    rewrite stm_lift. destruct (_id t) as [t'|[]]; [|intros [= <- <-]; constructor].
    rewrite stm_lift. destruct (_id g) as [g'|[]]; [|intros [= <- <-]; constructor].
    rewrite stm_get, stm_ensure. destruct (_ <? _)%Z eqn:Hb; [|intros [= <- <-]; constructor].
    rewrite stm_lift. destruct (_freeze_fields s f) as [safe|[]] eqn:Hf; [|intros [= <- <-]; constructor].
    intros [= <- <-]. constructor; [done|by apply ID_same|by apply Z.ltb_lt|]. exact (freeze_held _ _ _ Hf).
  - unfold increment. rewrite stm_lift. destruct (_ID n) as [n'|[]] eqn:Hn; [|intros [= <- <-]; constructor]. apply ID_same in Hn as ->.
    rewrite stm_lift. destruct (positive a) as [a'|[]] eqn:Ha; [|intros [= <- <-]; constructor].
    intros [= <- <-]. unfold positive in Ha. destruct a; try done. apply bind_ok in Ha as (u & Ha%ensure_ok & <-%ok_inj). cbn. unfold count.
    rewrite lookup_insert_eq. cbn. constructor; try done. by apply Z.leb_le.
Qed.

(** A sink that a history has led to. *)
Record sound (s : AuditSink) : Prop := {
  so_sequence : _sequence s = Z.of_nat (length (_events s));
  so_numbers : map sequence (_events s) = seqZ 1 (Z.of_nat (length (_events s)));
  so_bound : (Z.of_nat (length (_events s)) <= max_events s)%Z;
  so_held : Forall (λ e, holds s (fields e) = true) (_events s);
  so_counts : ∀ n c, _counters s !! n = Some c → (1 <= c)%Z }.

Lemma seqZ_one m : seqZ m 1 = [m].
Proof. by destruct m. Qed.

Lemma step_sound s c s' o : step s c s' o → sound s → sound s' ∧ same_bounds s s'.
Proof.
  intros Hs [Hq Hn Hb Hh Hc]. destruct Hs as [|n f r t g e Hse Hna Hbo Hho|n a total s' Ha Ht [Hm [Hf Hl]] He Hseq Hcs].
  - by repeat split.
  - split; [|by repeat split]. constructor; cbn [stored _events _sequence max_events _counters]; rewrite ?length_app; cbn [length].
    + lia.
    + rewrite map_app, Hn. cbn [map]. replace (Z.of_nat (length (_events s) + 1)) with (Z.of_nat (length (_events s)) + 1)%Z by lia.
      rewrite seqZ_app by lia. f_equal. rewrite Hse, Hq. rewrite seqZ_one. f_equal. lia.
    + lia.
    + apply Forall_app. split; [exact Hh|]. by repeat constructor.
    + intros k v. unfold count. rewrite lookup_insert_Some. intros [[<- <-]|[_ Hk]]; [|eauto].
      destruct (_counters s !! event e) as [x|] eqn:E; cbn; [|lia]. specialize (Hc _ _ E). lia.
  - split; [|by split]. constructor; rewrite ?He, ?Hseq, ?Hm; [exact Hq|exact Hn|exact Hb|..].
    + eapply Forall_impl; [exact Hh|]. intros e. unfold holds. by rewrite Hf, Hl.
    + rewrite Hcs. intros k v. rewrite lookup_insert_Some. intros [[<- <-]|[_ Hk]]; [|eauto]. subst total.
      destruct (_counters s !! n) as [x|] eqn:E; cbn; [|lia]. specialize (Hc _ _ E). lia.
Qed.

Lemma step_adds s c s' o : step s c s' o →
  _events s' = (_events s ++ recorded [o])%list ∧ ∀ name, default 0%Z (_counters s' !! name) = (default 0 (_counters s !! name) + weight name (c, o))%Z.
Proof.
  destruct 1 as [| |n a total s' Ha Ht _ He _ Hcs]; cbn.
  - split; [by rewrite app_nil_r|]. intros name. destruct c as [|? []]; lia.
  - split; [done|]. intros name. unfold count. destruct (decide (event e = name)) as [<-|Hne].
    + by rewrite lookup_insert_eq, bool_decide_true.
    + rewrite lookup_insert_ne, bool_decide_false by done. lia.
  - split; [by rewrite He, app_nil_r|]. intros name. rewrite Hcs. destruct (decide (n = name)) as [<-|Hne].
    + rewrite lookup_insert_eq. subst total. unfold weight, key_is. rewrite bool_decide_true by done. cbn. lia.
    + rewrite lookup_insert_ne by done. cbn. rewrite bool_decide_false by done. lia.
Qed.

Lemma history_sound cs s s' os : history cs s = (s', os) → sound s → sound s' ∧ same_bounds s s'.
Proof.
  revert s s' os. induction cs as [|c cs IH]; intros s s' os; cbn [history]; [intros [= <- <-] Hs; split; [exact Hs|by split]|].
  destruct (perform c s) as [s1 o] eqn:Hp. destruct (history cs s1) as [s2 os'] eqn:Hh. intros [= <- <-] Hs.
  destruct (step_sound _ _ _ _ (perform_step _ _ _ _ Hp) Hs) as [H1 (B1 & B2 & B3)]. destruct (IH _ _ _ Hh H1) as [H2 (C1 & C2 & C3)].
  split; [done|]. unfold same_bounds. by rewrite C1, C2, C3.
Qed.
Lemma history_adds cs s s' os : history cs s = (s', os) →
  _events s' = (_events s ++ recorded os)%list ∧ ∀ name, default 0%Z (_counters s' !! name) = (default 0 (_counters s !! name) + tally name cs os)%Z.
Proof.
  revert s s' os. induction cs as [|c cs IH]; intros s s' os; cbn [history].
  - intros [= <- <-]. split; [by rewrite app_nil_r|]. intros name. cbn. lia.
  - destruct (perform c s) as [s1 o] eqn:Hp. destruct (history cs s1) as [s2 os'] eqn:Hh. intros [= <- <-].
    destruct (step_adds _ _ _ _ (perform_step _ _ _ _ Hp)) as [E1 T1]. destruct (IH _ _ _ Hh) as [E2 T2]. split.
    + rewrite E2, E1, <- app_assoc. unfold recorded. cbn. by destruct o as [[|]|].
    + intros name. rewrite T2, T1. unfold tally. cbn [zip zip_with map foldr]. lia.
Qed.

Lemma positive_ok v n : positive v = Ok n → v = VInt n ∧ (1 <= n)%Z.
Proof. unfold positive. destruct v; try done. intros (u & Hn%ensure_ok & <-%ok_inj)%bind_ok. split; [done|]. by apply Z.leb_le. Qed.
Lemma new_sink_sound e f m s : new_sink e f m = Ok s → sound s ∧ _events s = [] ∧ _counters s = ∅.
Proof.
  intros (e' & He & (f' & Hf & (m' & Hm & <-%ok_inj)%bind_ok)%bind_ok)%bind_ok. apply positive_ok in He as [_ He].
  split; [|done]. constructor; cbn; try done. lia.
Qed.

Lemma json_counts (f : string → Z) l : ∃ t, json_dumps (VDict (map (λ k, (VStr k, VInt (f k))) l)) = Ok t.
Proof.
  apply is_ok_true. assert (_plain (VDict (map (λ k, (VStr k, VInt (f k))) l)) = VDict (map (λ k, (VStr k, VInt (f k))) l)) as <-
    by (cbn [_plain]; by rewrite map_map). apply json_dict. intros kv (k & -> & _)%list_elem_of_fmap. done.
Qed.

Lemma export_total s : sound s → is_ok (export_json s) = true.
Proof.
  intros [_ _ _ Hh _]. unfold export_json, export. cbn [json_dumps mapM].
  assert (∃ ws, mapM json_dumps (map (λ e, VDict (to_dict e)) (_events s)) = Ok ws) as [ws Hws].
  { induction Hh as [|e l He Hl [ws IH]]; [by exists []|]. apply frozen_json, is_ok_true in He as [w Hw].
    cbn [map mapM]. unfold to_dict. cbn [json_dumps mapM fst snd]. rewrite Hw.
    destruct (run_id e), (task_id e); cbn; setoid_rewrite IH; cbn; eauto. }
  destruct (json_counts (λ k, default 0%Z (_counters s !! k)) (sort_strings (elements (dom (_counters s))))) as [t Ht].
  cbn [fst snd]. rewrite Ht. cbn [json_dumps]. by rewrite Hws.
Qed.

(** C30: Whatever is recorded and counted, accepted or not, the sink stores
    exactly the items its calls returned, numbered from 1 without a gap and
    within its bound; a counter is what the accepted calls add up to; every
    stored value is printable, bounded in size and depth and holds the marker
    under the name of a secret; and the sink can always be exported. *)
Theorem sink_exact bound width text cs s s' os :
  new_sink bound width text = Ok s → history cs s = (s', os) →
  _events s' = recorded os ∧ map sequence (_events s') = seqZ 1 (Z.of_nat (length (_events s'))) ∧ (Z.of_nat (length (_events s')) <= max_events s)%Z ∧
  (∀ name, default 0%Z (_counters s' !! name) = tally name cs os) ∧
  Forall (λ e, holds s (fields e) = true) (_events s') ∧ is_ok (export_json s') = true.
Proof.
  intros (Hs & He & Hc)%new_sink_sound Hh. destruct (history_adds _ _ _ _ Hh) as [Ha Ht]. destruct (history_sound _ _ _ _ Hh Hs) as [Hs' (B1 & B2 & B3)].
  split; [by rewrite Ha, He|]. split; [apply (so_numbers _ Hs')|]. split; [rewrite <- B1; apply (so_bound _ Hs')|].
  split; [intros name; rewrite Ht, Hc; apply Z.add_0_l|]. split; [|by apply export_total].
  eapply Forall_impl; [exact (so_held _ Hs')|]. intros e. unfold holds. by rewrite B2, B3.
Qed.

(** ** Examples *)

Definition ex_calls : list call :=
  [Record_ (VStr "task.started") (VDict [(VStr "token", VStr "t0p"); (VStr "at", VStr "see https://x.y/z and /etc/passwd"); (VStr "n", VInt 1)]) (VStr "r1") (VStr "t1") VNone;
   Record_ (VStr "task.started") (VStr "no mapping") (VStr "r1") VNone VNone;
   Increment (VStr "task.started") (VInt 4);
   Record_ (VStr "task.done") VNone VNone VNone (VStr "c-9");
   Record_ (VStr "task.more") VNone VNone VNone VNone].
Definition ex_sink : AuditSink := MkSink 2 8 64 [] ∅ 0.
Example ex_outcomes : (history ex_calls ex_sink).2 =
  [Ok (inl (MkEvent 1 "task.started" "corr-r1-t1" (Some "r1") (Some "t1")
     (VProxy [(VStr "at", VStr "see [URL REDACTED] and [PATH REDACTED]"); (VStr "n", VInt 1); (VStr "token", VStr "[SECRET REDACTED]")])));
   Err ObservabilityError; Ok (inr 5%Z); Ok (inl (MkEvent 2 "task.done" "c-9" None None (VProxy []))); Err ObservabilityError].
Proof. vm_compute. reflexivity. Qed.
Example ex_tally : tally "task.started" ex_calls (history ex_calls ex_sink).2 = 5%Z.
Proof. vm_compute. reflexivity. Qed.
(** A name with a prefix that a word character joins hides no secret. *)
Example prefixed_secret_leaks : masked "db_password=hunter2 password=hunter2" = "db_password=hunter2 [SECRET REDACTED]".
Proof. vm_compute. reflexivity. Qed.
(** The correlation made of two identities of full length is no identity. *)
Example correlation_too_long : let id := String.string_of_list_ascii (repeat "a"%char 128) in
  _ID (VStr id) = Ok id ∧ _ID (VStr (correlation None (Some id) (Some id) 1)) = Err ObservabilityError.
Proof. vm_compute. done. Qed.

Lemma sink_exact_witness : let r := history ex_calls ex_sink in
  _events r.1 = recorded r.2 ∧ map sequence (_events r.1) = seqZ 1 (Z.of_nat (length (_events r.1))) ∧ (Z.of_nat (length (_events r.1)) <= max_events r.1)%Z ∧
  (∀ name, default 0%Z (_counters r.1 !! name) = tally name ex_calls r.2) ∧
  Forall (λ e, holds ex_sink (fields e) = true) (_events r.1) ∧ is_ok (export_json r.1) = true.
Proof. exact (sink_exact (VInt 2) (VInt 8) (VInt 64) ex_calls ex_sink _ _ eq_refl (surjective_pairing (history ex_calls ex_sink))). Defined.
