(* ===== verification/LifecycleEvents.v ===== *)
(** * Projections onto the event log (scripts/pd_fleet/lifecycle_events.py)

    The recorder that turns a transition or a checkpoint into one event of the
    log of Events.v.  What is recorded is a [TaskLifecycle] or a [Checkpoint]
    object, or a value; another object has none of the attributes that are
    read.  Sequences are numbers. *)

From S2P Require Import Prelude PyStr PyNum PyVal Regex Sha256 IsoTime SafeRendering Lifecycle Checkpoint Events.

Open Scope string_scope.

Definition _MAX_IDS : nat := 128.
Definition _DEFAULT_CREATED_AT : string := "1970-01-01T00:00:00+00:00".
Definition no_newline : re := RChar (λ c, negb (code c =? 10)%nat).
Definition _UNSAFE_REASON : re :=
  ralt [rlit_ci "secret"; rlit_ci "token"; rlit_ci "password"; rlit_ci "passwd"; rseq [rlit_ci "api"; ropt (rchr "_-"); rlit_ci "key"]; rlit_ci "authorization";
        rlit_ci "credential"; rlit_ci "prompt"; rlit_ci "cot"; rseq [rlit_ci "chain"; ropt no_newline; rlit_ci "of"; ropt no_newline; rlit_ci "thought"]; rlit_ci "pid";
        rseq [rlit_ci "process"; ropt (rchr "_-"); rlit_ci "id"]; rlit_ci "handle"; rlit_ci "native"; rseq [rlit_ci "http"; ropt (rlit_ci "s"); rlit "://"];
        rlit_ci "ftp://"; rlit_ci "www."; RChar (λ c, (code c <=? 31)%nat || (code c =? 127)%nat)].
Definition unsafe (s : string) : bool := search _UNSAFE_REASON s.
#[local] Arguments unsafe : simpl never.

(** ** Values *)

Definition _safe_text (v : pyval) : bool :=
  match v with
  | VStr s => negb (blank s) && (String.length s <=? 256)%nat && negb (contains s ":") && negb (contains s "=") && negb (unsafe s)
  | _ => false
  end.
Definition safe_id (v : pyval) : eres string := match v with VStr s => _ ← check (_ID s && negb (unsafe s)); Ok s | _ => Err EventError end.
(** The first [_MAX_IDS + 1] are looked at; that many are too many. *)
Definition ids_of (l : list pyval) : eres (list string) :=
  ids ← mapM safe_id (take (S _MAX_IDS) l);
  _ ← check (length ids <=? _MAX_IDS)%nat;
  Ok ids.
Definition _safe_ids (values : pyval) : eres (list string) :=
  match values with VNone => Ok [] | _ => match iterate values with Some l => ids_of l | None => Err EventError end end.
Definition _bounded_keys (value : pyval) : eres (list pyval) :=
  match entries value with
  | Some d => _ ← check (length d <=? _MAX_IDS)%nat; Ok (map fst d)
  | None => Err EventError
  end.
Definition _valid_state (v : LifecycleState + pyval) : eres string := match _state v with Ok s => Ok (state_value s) | Err _ => Err EventError end.
Definition _created_at (v : pyval) : eres string :=
  match v with
  | VNone => Ok _DEFAULT_CREATED_AT
  | VStr s => _ ← check (nonempty s && fullmatch _TIMESTAMP s && match parse_z s with Some _ => true | None => false end); Ok s
  | _ => Err EventError
  end.
Definition _deepcopy (v : pyval) : eres unit := check (copyable v).

(** The text of a number in JSON, where [NaN] and infinities have one too. *)
Definition num_text (n : pynum) : string :=
  match n with
  | NInt z => str_of_Z z
  | NFloat S754_nan => "NaN"
  | NFloat (S754_infinity s) => if s then "-Infinity" else "Infinity"
  | NFloat f => float_repr f
  end.
Definition _identity (run : string) (task : option string) (sequence : pynum) (kind : string) : string :=
  "e2-" +:+ sha256_hex ("[" +:+ json_str run +:+ "," +:+ match task with Some t => json_str t | None => "null" end +:+ "," +:+ num_text sequence +:+ "," +:+ json_str kind +:+ "]").

(** ** The recorder *)

Record LifecycleEventRecorder : Type := MkRecorder { event_log : EventLog; owner : option pynum }.
Definition differ (a b : pynum) : bool := negb (num_eqb a b).
Definition new_recorder (log : EventLog) (run : pyval) (epoch : option pynum) : eres LifecycleEventRecorder :=
  _ ← check (is_none run || key_is (log_run log) run);
  _ ← check (match epoch, log_epoch log with Some x, Some y => negb (differ x y) | _, _ => true end);
  Ok (MkRecorder log (match epoch with Some _ => epoch | None => log_epoch log end)).

(** The event that a recorder makes, appended to the file. *)
Definition commit (r : LifecycleEventRecorder) (now : clock_reading) (f : log_file) (kind : string) (task : option string) (key : string) (sequence : pynum)
    (payload : dict) (created : string) : eres (log_file * FleetEvent) :=
  e ← new_event now (VInt Events.SCHEMA_VERSION) (VStr (_identity (log_run (event_log r)) task sequence kind)) (VStr (log_run (event_log r))) (of_opt VStr task) (VStr kind) (VStr key)
        (of_num sequence) (of_opt of_num (owner r)) (VDict payload) (VStr created);
  append (event_log r) now f e.

(** ** Transitions *)

(** What is read of a lifecycle: its task and its attempt. *)
Definition task_and_attempt (life : life_item) : eres (pyval * pyval) :=
  match life with
  | LObject l => _ ← _deepcopy (VList [outputs l; Lifecycle.evidence l; final_report l; report_final l]); Ok (VStr (Lifecycle.task_id l), VInt (attempt l))
  | LValue v =>
      _ ← _deepcopy v;
      match entries v with
      | Some d => Ok (match dget_or VNone "task_id" d with VNone => dget_or VNone "id" d | t => t end, dget_or (VInt 0) "attempt" d)
      | None => Ok (VNone, VInt 0)
      end
  end.
(** A number that is not negative: a [NaN] is not. *)
Definition attempt_ok (v : pyval) : bool := match v with VInt z => (0 <=? z)%Z | VFloat f => negb (num_ltb (NFloat f) (NInt 0)) | _ => false end.
Definition transition_payload (from to : string) (attempt : pyval) (reason : pyval) : dict :=
  [(VStr "from", VStr from); (VStr "to", VStr to); (VStr "attempt", attempt)] ++
  match reason with VNone | VStr "" => [] | _ => [(VStr "reason", reason)] end.
Definition record_transition (r : LifecycleEventRecorder) (now : clock_reading) (f : log_file) (life : life_item) (from to : LifecycleState + pyval) (sequence : pynum)
    (reason created : pyval) : eres (log_file * FleetEvent) :=
  ta ← task_and_attempt life;
  task ← (match ta.1 with VStr s => _ ← check (_ID s); Ok s | _ => Err EventError end);
  _ ← check (attempt_ok ta.2);
  from ← _valid_state from; to ← _valid_state to;
  _ ← check (match reason with VNone | VStr "" => true | _ => _safe_text reason end);
  created ← _created_at created;
  commit r now f "lifecycle.transition" (Some task) task sequence (transition_payload from to ta.2 reason) created.

(** ** Checkpoints *)

Definition _count (v : pyval) : eres Z :=
  match v with
  | VStr s => Ok (Z.min (Z.of_nat (String.length s)) 128)
  | VList l | VTuple l => Ok (Z.min (Z.of_nat (length l)) 128)
  | VDict d | VProxy d => Ok (Z.min (Z.of_nat (length d)) 128)
  | _ => Err EventError
  end.
(** The status of a record; [default] only stands for what is no mapping. *)
Definition _status (snapshot : pyval) (default_ : pyval) : eres (option string) :=
  let status := match entries snapshot with Some d => dget_or VNone "status" d | None => default_ end in
  let state := match entries snapshot with Some d => dget_or VNone "state" d | None => VNone end in
  a ← to_opt (λ v, _valid_state (inr v)) status;
  b ← to_opt (λ v, _valid_state (inr v)) state;
  Ok (match a with Some _ => a | None => b end).
Definition _snapshot (d : dict) (tid : string) : pyval := dget_or (VDict []) tid d.
Definition _validate_statuses (d : pyval) : eres unit :=
  keys ← _bounded_keys d; ids ← _safe_ids (VList keys);
  _ ← mapM (λ t, _status (_snapshot (default [] (entries d)) t) VNone) ids; Ok ().
Definition _bounded_task_ids (tasks lifecycle : pyval) : eres (list string) :=
  k ← _bounded_keys tasks; a ← _safe_ids (VList k);
  k' ← _bounded_keys lifecycle; b ← _safe_ids (VList k');
  let result := (a ++ filter (λ t, t ∉ a) b)%list in
  _ ← check (length result <=? _MAX_IDS)%nat; Ok result.
(** The lifecycle's record of a task, or the task's own if that is an empty mapping. *)
Definition chosen (tasks lifecycle : dict) (tid : string) : pyval :=
  match entries (_snapshot lifecycle tid) with Some [] => _snapshot tasks tid | _ => _snapshot lifecycle tid end.
Fixpoint keep {A} (p : A → eres bool) (l : list A) : eres (list A) :=
  match l with [] => Ok [] | a :: l => b ← p a; k ← keep p l; Ok (if (b : bool) then a :: k else k) end.
Definition _completed_from (tasks lifecycle : pyval) : eres (list string) :=
  ids ← _bounded_task_ids tasks lifecycle;
  keep (λ t, s ← _status (chosen (default [] (entries tasks)) (default [] (entries lifecycle)) t) VNone; Ok (bool_decide (s = Some "completed"))) ids.
(** The keys are those of [_validate_statuses], all of them names. *)
Definition _resume_from (tasks lifecycle completed : pyval) : eres (list string) :=
  done ← _safe_ids completed;
  keys ← _bounded_keys tasks;
  ids ← _safe_ids (VList keys);
  keep (λ t, s ← _status (chosen (default [] (entries tasks)) (default [] (entries lifecycle)) t) (VStr "pending");
             Ok (negb (bool_decide (t ∈ done)) && negb (bool_decide (s ∈ [Some "blocked"; Some "skipped"])))) ids.

Inductive checkpoint_item : Type := CObject (c : Checkpoint) | CValue (v : pyval).
Record view : Type := MkView { v_feature : pyval; v_wave : pyval; v_tasks : pyval; v_lifecycle : pyval; v_reports : pyval; v_evidence : pyval; v_blockers : pyval; v_completed : pyval; v_resume : pyval }.
(** What is read of a checkpoint. *)
Definition view_of (c : checkpoint_item) : eres view :=
  match c with
  | CObject c =>
      _ ← _deepcopy (VDict (Checkpoint.payload c));
      resume ← map_err (λ _, EventError) (resume_tasks c);
      Ok (MkView (feature c) (wave c) (VDict (tasks c)) (VDict (lifecycle c)) (reports c) (ck_evidence c) (blockers c) (VList (map VStr (completed_tasks c))) (VList (map VStr resume)))
  | CValue v =>
      _ ← _deepcopy v;
      match entries v with
      | Some d => let get k x := dget_or x k d in
          Ok (MkView (get "feature" VNone) (get "wave" VNone) (get "tasks" (VDict [])) (get "lifecycle" (VDict [])) (get "reports" (VList [])) (get "evidence" (VList []))
                (get "blockers" (VList [])) (get "completed_task_ids" (VList [])) (get "resume_task_ids" (VList [])))
      | None => Ok (MkView (VStr "") (VInt 0) (VDict []) (VDict []) (VList []) (VList []) (VList []) (VList []) (VList []))
      end
  end.
Definition wave_ok (v : pyval) : bool := match v with VInt w => (0 <=? w)%Z | _ => false end.
Definition texts (l : list string) : pyval := VList (map VStr l).
(** The summary, without its digest. *)
Definition summary_of (v : view) : eres dict :=
  _ ← _validate_statuses (v_tasks v); _ ← _validate_statuses (v_lifecycle v);
  found ← _completed_from (v_tasks v) (v_lifecycle v);
  let completed := if truthy (v_completed v) then v_completed v else texts found in
  resume ← (if truthy (v_resume v) then Ok (v_resume v) else texts <$> _resume_from (v_tasks v) (v_lifecycle v) completed);
  _ ← check (_safe_text (v_feature v) && wave_ok (v_wave v));
  c ← _safe_ids completed; k ← _safe_ids resume;
  b ← _count (v_blockers v); n ← _count (v_reports v); m ← _count (v_evidence v);
  Ok [(VStr "feature", v_feature v); (VStr "wave", v_wave v); (VStr "completed_task_ids", texts c); (VStr "resume_task_ids", texts k);
      (VStr "blocker_count", VInt b); (VStr "report_count", VInt n); (VStr "evidence_count", VInt m)].
Definition record_checkpoint (r : LifecycleEventRecorder) (now : clock_reading) (f : log_file) (c : checkpoint_item) (sequence : pynum) (created : pyval) : eres (log_file * FleetEvent) :=
  v ← view_of c;
  summary ← summary_of v;
  created ← _created_at created;
  commit r now f "checkpoint.committed" None "checkpoint" sequence (summary ++ [(VStr "digest", VStr (sha256_hex (dumps (VDict summary))))])%list created.

(** ** Facts *)

(** Data of dictionaries and lists only. *)
Fixpoint plain (v : pyval) : bool :=
  match v with
  | VDict kvs => forallb (λ kv, is_str kv.1 && plain kv.2) kvs
  | VList l => forallb plain l
  | VTuple _ | VProxy _ | VOther _ => false
  | _ => true
  end.
(** The log shows what was handed in. *)
Lemma thaw_frozen v depth p : plain v = true → Events._freeze v depth = Ok p → _thaw p = v.
Proof.
  revert depth p. induction v using pyval_ind'; intros depth p Hv; cbn [plain] in Hv; try done; cbn [Events._freeze]; intros (u & _ & Hp)%bind_ok.
  1-3: by apply ok_inj in Hp as <-.
  - by apply bind_ok in Hp as (u' & _ & <-%ok_inj).
  - by apply bind_ok in Hp as (u' & _ & <-%ok_inj).
  - apply bind_ok in Hp as (u' & _ & (ws & Hws & <-%ok_inj)%bind_ok). cbn [_thaw]. f_equal. apply mapM_res_ok in Hws. rewrite forallb_true_iff in Hv.
    revert Hv H. induction Hws as [|a b l ws Hab Hws IH]; intros Hv Hl; [done|]. apply Forall_cons in Hl as [Ha Hl]. cbn [map]. f_equal.
    + eapply Ha; [apply Hv; by left|exact Hab].
    + apply IH; [|done]. intros x Hx. apply Hv. by right.
  - apply bind_ok in Hp as (u' & _ & (ws & Hws & <-%ok_inj)%bind_ok). cbn [_thaw]. f_equal. apply mapM_res_ok in Hws. rewrite forallb_true_iff in Hv.
    revert Hv H. induction Hws as [|[k a] b l ws Hab Hws IH]; intros Hv Hl; [done|]. apply Forall_cons in Hl as [[_ Ha] Hl]. cbn [map fst snd] in *.
    apply bind_ok in Hab as (u'' & _ & (w & Hw & <-%ok_inj)%bind_ok). pose proof (Hv (k, a) ltac:(by left)) as Hk. cbn [fst snd] in *. apply andb_true_iff in Hk as [Hk Hp]. f_equal.
    + f_equal; [by destruct k|]. by eapply Ha.
    + apply IH; [|done]. intros x Hx. apply Hv. by right.
Qed.

Lemma new_event_fields now a b c d k o n ow p cr e : new_event now a b c d k o n ow p cr = Ok e →
  (b = VStr (event_id e) ∧ c = VStr (run_id e) ∧ d = of_opt VStr (Events.task_id e) ∧ k = VStr (kind e) ∧ o = VStr (ordering_key e)) ∧
  (n = of_num (sequence e) ∧ ow = of_opt of_num (owner_epoch e)) ∧ (truthy cr = true → cr = VStr (Events.created_at e)) ∧ Events._freeze p 0 = Ok (Events.payload e).
Proof.
  unfold new_event. intros (x1 & _ & (x2 & Hb%string_again & (x3 & Hc%string_again & (x4 & Hk%string_again & (x5 & Ho%string_again & H)%bind_ok)%bind_ok)%bind_ok)%bind_ok)%bind_ok.
  apply bind_ok in H as (x6 & Hd & (x7 & Hn%number_fix & (x8 & Hw & (x9 & Hcr & (x10 & Hat & (x11 & Hp & H)%bind_ok)%bind_ok)%bind_ok)%bind_ok)%bind_ok). cbv zeta in H.
  apply bind_ok in H as (text & _ & (u & _ & <-%ok_inj)%bind_ok). cbn [event_id run_id Events.task_id kind ordering_key sequence owner_epoch Events.created_at Events.payload].
  apply (opt_fix _ VStr _ _ (λ v a Ha, proj1 (string_again _ _ _ _ Ha))) in Hd. apply (opt_fix _ of_num _ _ number_fix) in Hw.
  split; [naive_solver|]. split; [done|]. split; [|done]. intros Ht. rewrite Ht in Hcr. apply ok_inj in Hcr as <-. apply created_fix in Hat as Hs. 
  unfold Events._created_at in Hat. apply bind_ok in Hat as (s & Hs' & Hat). apply bind_ok in Hat as (u' & _ & (u'' & _ & <-%ok_inj)%bind_ok). by apply string_again in Hs' as [-> _].
Qed.
Lemma of_num_inj a b : of_num a = of_num b → a = b.
Proof. destruct a, b; cbn; congruence. Qed.

(** What [commit] leaves in the log. *)
Record committed (r : LifecycleEventRecorder) (now : clock_reading) (f f' : log_file) (rs : list (FleetEvent * string)) (x e : FleetEvent) : Prop := {
  cm_effect : ∃ text, _canonical (to_dict e) = Ok text ∧ ((f' = f ∧ (x, text) ∈ rs) ∨ (x = e ∧ _records now f' = Ok (rs ++ [(settled e, text)])%list));
  cm_run : run_id e = log_run (event_log r);
  cm_epoch : owner_epoch e = owner r }.

Lemma commit_durable r now f kind_ task key n d created f' x rs :
  plain (VDict d) = true → nonempty created = true → commit r now f kind_ task key n d created = Ok (f', x) → _records now f = Ok rs → (file_size f' <= MAX_LOG_BYTES)%Z →
  ∃ e, committed r now f f' rs x e ∧
    event_id e = _identity (log_run (event_log r)) task n kind_ ∧ kind e = kind_ ∧ Events.task_id e = task ∧ ordering_key e = key ∧
    sequence e = n ∧ _thaw (Events.payload e) = VDict d ∧ Events.created_at e = created ∧
    ∃ x', commit r now f' kind_ task key n d created = Ok (f', x').
Proof.
  intros Hd Hc H Hrs Hsz. unfold commit in *. apply bind_ok in H as (e & He & H). exists e. assert (Hm : made e) by (econstructor; exact He).
  destruct (append_effect _ _ _ _ _ _ _ Hm Hrs H Hsz) as (text & Ht & Hcase). destruct (append_twice _ _ _ _ _ _ Hm H Hsz) as [x' Hx'].
  apply new_event_fields in He as Hf. destruct Hf as ((Hi & Hr & Hta & Hk & Ho) & (Hn & Hw) & Hat & Hp).
  assert (Events.task_id e = task) as Hta' by (destruct (Events.task_id e), task; cbn in Hta; congruence).
  assert (owner_epoch e = owner r) as Hw'.
  { destruct (owner_epoch e) as [a|], (owner r) as [b|]; cbn in Hw; [by f_equal; apply of_num_inj|by destruct a|by destruct b|done]. }
  split; [constructor; [|congruence|exact Hw']|].
  - exists text. split; [done|]. destruct Hcase as [(-> & Hin & _)|(-> & Hr' & _)]; [by left|by right].
  - apply of_num_inj in Hn. apply (thaw_frozen _ _ _ Hd) in Hp. assert (VStr created = VStr (Events.created_at e)) as [= <-] by (by apply Hat).
    injection Hi as Hi. injection Hk as Hk. injection Ho as Ho. do 7 (split; [done|]). exists x'. apply bind_ok. by exists e.
Qed.

(** ** What a checkpoint's event says *)

Definition safe_name (t : string) : bool := _ID t && negb (unsafe t).
(** Names only, few of them, and numbers that are bounded too. *)
Record bounded_summary (v : view) (completed resume : list string) (d : dict) : Prop := {
  bs_feature : _safe_text (v_feature v) = true;
  bs_wave : wave_ok (v_wave v) = true;
  bs_completed : (length completed <= _MAX_IDS)%nat ∧ Forall (λ t, safe_name t = true) completed;
  bs_resume : (length resume <= _MAX_IDS)%nat ∧ Forall (λ t, safe_name t = true) resume;
  bs_entries : ∃ b n m, Forall (λ z, 0 <= z <= 128)%Z [b; n; m] ∧
    d = [(VStr "feature", v_feature v); (VStr "wave", v_wave v); (VStr "completed_task_ids", texts completed); (VStr "resume_task_ids", texts resume);
         (VStr "blocker_count", VInt b); (VStr "report_count", VInt n); (VStr "evidence_count", VInt m)] }.

Lemma id_validated v t : safe_id v = Ok t → v = VStr t ∧ safe_name t = true.
Proof. destruct v; try done. intros (u & H%event_check_ok & <-%ok_inj)%bind_ok. done. Qed.
Lemma ids_of_ok l ids : ids_of l = Ok ids → l = map VStr ids ∧ (length ids <= _MAX_IDS)%nat ∧ Forall (λ t, safe_name t = true) ids.
Proof.
  intros (ids' & Hm & (u & Hn%event_check_ok%Nat.leb_le & <-%ok_inj)%bind_ok)%bind_ok. apply mapM_res_ok in Hm.
  assert (length (take (S _MAX_IDS) l) = length ids') as Hl by (by eapply Forall2_length). rewrite length_take in Hl.
  rewrite take_ge in Hm by lia. split; [|split; [done|]].
  - clear -Hm. induction Hm as [|a b l k H _ IH]; cbn; [done|]. apply id_validated in H as [-> _]. by rewrite <- IH.
  - clear -Hm. induction Hm as [|a b l k H _ IH]; constructor; [by apply id_validated in H as [_ H]|done].
Qed.
Lemma safe_ids_ok v ids : _safe_ids v = Ok ids → (length ids <= _MAX_IDS)%nat ∧ Forall (λ t, safe_name t = true) ids.
Proof.
  unfold _safe_ids. assert (∀ o, match o with Some l => ids_of l | None => Err EventError end = Ok ids → (length ids <= _MAX_IDS)%nat ∧ Forall (λ t, safe_name t = true) ids) as H.
  { intros [l|]; [|done]. by intros (_ & ? & ?)%ids_of_ok. }
  specialize (H (iterate v)). destruct v; try exact H. intros <-%ok_inj. split; [apply Nat.le_0_l|constructor].
Qed.
Lemma safe_ids_list l ids : _safe_ids (texts l) = Ok ids → ids = l.
Proof.
  cbn [_safe_ids texts iterate]. intros (H & _)%ids_of_ok. revert ids H. induction l as [|t l IH]; intros [|u ids]; try done. intros [= -> H]. f_equal. by apply IH.
Qed.
Lemma count_bound v n : _count v = Ok n → (0 <= n <= 128)%Z.
Proof. destruct v; try done; intros <-%ok_inj; lia. Qed.

Lemma summary_bounded v d : summary_of v = Ok d → ∃ completed resume, bounded_summary v completed resume d ∧
  (∀ l, l ≠ [] → v_completed v = texts l → completed = l) ∧ (∀ l, l ≠ [] → v_resume v = texts l → resume = l).
Proof.
  unfold summary_of. intros (u & _ & (u' & _ & (found & _ & H)%bind_ok)%bind_ok)%bind_ok. cbv zeta in H.
  apply bind_ok in H as (res & Hres & (u'' & Hc%event_check_ok & (c & Hcs & (k & Hk & H)%bind_ok)%bind_ok)%bind_ok).
  apply bind_ok in H as (b & Hb%count_bound & (n & Hn%count_bound & (m & Hm%count_bound & <-%ok_inj)%bind_ok)%bind_ok). apply andb_true_iff in Hc as [Hf Hw].
  exists c, k. split; [|split].
  - constructor; [done|done|by eapply safe_ids_ok|by eapply safe_ids_ok|]. exists b, n, m. split; [|done]. repeat (apply Forall_cons; split; [done|]). by apply Forall_nil.
  - intros [|t l] Hl Hv; [done|]. rewrite Hv in Hcs. by apply safe_ids_list in Hcs.
  - intros [|t l] Hl Hv; [done|]. rewrite Hv in Hres. apply ok_inj in Hres as <-. by apply safe_ids_list in Hk.
Qed.

Lemma texts_plain l : plain (texts l) = true.
Proof. cbn [plain texts]. apply forallb_true_iff. intros x (t & -> & _)%list_elem_of_fmap. done. Qed.
Lemma summary_plain v c k d digest : bounded_summary v c k d → plain (VDict (d ++ [(VStr "digest", VStr digest)])%list) = true.
Proof.
  intros [Hf Hw _ _ (b & n & m & _ & ->)]. cbn [app plain forallb fst snd is_str andb]. rewrite !texts_plain.
  destruct (v_feature v), (v_wave v); try done.
Qed.
Lemma created_named v s : _created_at v = Ok s → nonempty s = true.
Proof. destruct v; try done; [by intros <-%ok_inj|]. intros (u & H%event_check_ok & <-%ok_inj)%bind_ok. by bool_inv. Qed.

(** C29: When the log is readable and stays within [MAX_LOG_BYTES], a recorded
    checkpoint is in it as one event with a bounded summary: safe names only, at most 128 completed and 128 resumable tasks, and
    those of the checkpoint itself where it has any, three counts of at most 128
    and the digest of that, at the default time if none is given.  The event
    reads back from the log, after the other records, and recording the
    checkpoint again changes nothing. *)
Theorem checkpoint_recorded r now f c n created f' x rs :
  record_checkpoint r now f c n created = Ok (f', x) → _records now f = Ok rs → (file_size f' <= MAX_LOG_BYTES)%Z →
  ∃ v d completed resume e, view_of c = Ok v ∧ bounded_summary v completed resume d ∧
    (∀ ck, c = CObject ck → completed_tasks ck ≠ [] → completed = completed_tasks ck) ∧
    committed r now f f' rs x e ∧ kind e = "checkpoint.committed" ∧ Events.task_id e = None ∧ sequence e = n ∧
    _thaw (Events.payload e) = VDict (d ++ [(VStr "digest", VStr (sha256_hex (dumps (VDict d))))])%list ∧
    (created = VNone → Events.created_at e = _DEFAULT_CREATED_AT) ∧ ∃ x', record_checkpoint r now f' c n created = Ok (f', x').
Proof.
  unfold record_checkpoint. intros (v & Hv & (d & Hd & (t & Ht & H)%bind_ok)%bind_ok)%bind_ok Hrs Hsz.
  destruct (summary_bounded _ _ Hd) as (completed & resume & Hb & Hc & _).
  destruct (commit_durable _ _ _ _ _ _ _ _ _ _ _ _ (summary_plain _ _ _ _ _ Hb) (created_named _ _ Ht) H Hrs Hsz) as (e & He & _ & Hk & Hta & _ & Hn & Hp & Hcr & x' & Hx').
  exists v, d, completed, resume, e. do 2 (split; [done|]). split; [|do 5 (split; [done|]); split; [intros ->; by apply ok_inj in Ht as <-|]].
  - intros ck -> Hne. cbn [view_of] in Hv. apply bind_ok in Hv as (u & _ & (l & _ & <-%ok_inj)%bind_ok). by apply Hc.
  - exists x'. rewrite Hv. cbn [mbind res_bind]. rewrite Hd. cbn [mbind res_bind]. by rewrite Ht.
Qed.

(** A recorded transition is in the log for good, under its task's name. *)
Lemma transition_recorded r now f life from to n reason created f' x rs :
  record_transition r now f life from to n reason created = Ok (f', x) → _records now f = Ok rs → (file_size f' <= MAX_LOG_BYTES)%Z →
  ∃ task attempt s s' e, task_and_attempt life = Ok (VStr task, attempt) ∧ attempt_ok attempt = true ∧ _valid_state from = Ok s ∧ _valid_state to = Ok s' ∧
    committed r now f f' rs x e ∧ kind e = "lifecycle.transition" ∧ Events.task_id e = Some task ∧ ordering_key e = task ∧ sequence e = n ∧
    _thaw (Events.payload e) = VDict (transition_payload s s' attempt reason) ∧ ∃ x', record_transition r now f' life from to n reason created = Ok (f', x').
Proof.
  unfold record_transition. intros ([t a] & Hta & (task & Ht & (u & Ha%event_check_ok & H)%bind_ok)%bind_ok)%bind_ok Hrs Hsz. cbn [fst snd] in *.
  apply bind_ok in H as (s & Hs & (s' & Hs' & (u' & Hr%event_check_ok & (cr & Hc & H)%bind_ok)%bind_ok)%bind_ok).
  destruct t as [| | | |t| | | | |]; try done. apply bind_ok in Ht as (u'' & Hid%event_check_ok & ->%ok_inj).
  assert (Hp : plain (VDict (transition_payload s s' a reason)) = true).
  { unfold transition_payload. cbn [plain]. rewrite forallb_app. cbn [forallb fst snd is_str andb]. assert (plain a = true) as -> by by destruct a.
    destruct reason as [| | | |[|ch w]| | | | |]; try done. }
  destruct (commit_durable _ _ _ _ _ _ _ _ _ _ _ _ Hp (created_named _ _ Hc) H Hrs Hsz) as (e & He & _ & Hk & Ht' & Ho & Hn & Hpl & _ & x' & Hx').
  exists task, a, s, s', e. do 10 (split; [done|]). exists x'. rewrite Hta. cbn [mbind res_bind fst snd]. rewrite Hid, Ha. cbn [check ensure mbind res_bind].
  rewrite Hs. cbn [mbind res_bind]. rewrite Hs'. cbn [mbind res_bind]. rewrite Hr. cbn [check ensure mbind res_bind]. by rewrite Hc.
Qed.

(** ** Examples *)

Definition ex_recorder : LifecycleEventRecorder := MkRecorder demo_log (Some (NInt 3)).
Definition ex_record (c : checkpoint_item) : eres (log_file * FleetEvent) := record_checkpoint ex_recorder at_noon None c (NInt 1) VNone.
Example recorder_owned : map (λ p, is_ok (new_recorder demo_log p.1 p.2))
  [(VNone, None); (VStr "run-1", Some (NInt 3)); (VStr "run-2", None); (VNone, Some (NInt 4))] = [true; true; false; false].
Proof. reflexivity. Qed.
Definition ex_summary : list (pyval * pyval) :=
  [(VStr "feature", VStr "f"); (VStr "wave", VInt 0); (VStr "completed_task_ids", VTuple [VStr "a"]); (VStr "resume_task_ids", VTuple [VStr "b"; VStr "c"]);
   (VStr "blocker_count", VInt 0); (VStr "report_count", VInt 0); (VStr "evidence_count", VInt 0);
   (VStr "digest", VStr "3eca40995733973182031a2e711a3a57de2a638f61120a8b08a4fa1387ac0718")].
Definition ex_event : FleetEvent :=
  MkEvent (NInt 1) "e2-116c38f20e1186b29f7a198a9f014ab1e1793ccc3e297aa8aa2acd86117ff07d" "run-1" None "checkpoint.committed" "checkpoint" (NInt 1) (Some (NInt 3))
    (VProxy ex_summary) _DEFAULT_CREATED_AT.
Definition ex_text : string := Eval vm_compute in match _canonical (to_dict ex_event) with Ok t => t | Err _ => "" end.
Definition ex_file : log_file := Some [written_line ex_event ex_text].
Lemma ex_recorded : ex_record (CObject demo_checkpoint) = Ok (ex_file, ex_event).
Proof. vm_compute. reflexivity. Qed.
Lemma ex_size : (file_size ex_file <= MAX_LOG_BYTES)%Z.
Proof. by vm_compute. Qed.
Definition ex_map (id : string) (record : dict) : checkpoint_item :=
  CValue (VDict [(VStr "feature", VStr "login"); (VStr "wave", VInt 1); (VStr "tasks", VDict [(VStr id, VDict record); (VStr "b", VDict [])])]).
(** A name that happens to hold an unsafe word: the task's transitions are
    recorded and no checkpoint with the task is. *)
Example rapid_unrecorded : ex_record (ex_map "rapid" []) = Err EventError ∧
  is_ok (record_transition ex_recorder at_noon None (LValue (VDict [(VStr "id", VStr "rapid")])) (inr (VStr "ready")) (inl RUNNING) (NInt 1) VNone VNone) = true.
Proof. vm_compute. done. Qed.
(** With no status a state counts as completed here, and not for the checkpoint. *)
Definition ex_stateful : Checkpoint :=
  MkCheckpoint (VInt 1) (VStr "f") (VInt 0) [(VStr "a", VDict [])] [(VStr "a", VDict [(VStr "status", VNone); (VStr "state", VStr "completed")])]
    (VList []) (VList []) (VList []) (VStr "2026-01-01T00:00:00+00:00").
Example completed_differs : Checkpoint.validate ex_stateful = Ok () ∧ completed_tasks ex_stateful = [] ∧ resume_tasks ex_stateful = Ok ["a"] ∧
  (v ← view_of (CObject ex_stateful); d ← summary_of v; Ok (dget "completed_task_ids" d, dget "resume_task_ids" d)) = Ok (Some (texts ["a"]), Some (texts ["a"])).
Proof. vm_compute. done. Qed.
Example too_many_tasks : let ids := map (λ i, VStr ("t" +:+ str_of_Z (Z.of_nat i))) (seq 0 129) in
  is_ok (ids_of (take 128 ids)) = true ∧ ids_of ids = Err EventError ∧ is_ok (_bounded_keys (VDict (map (λ t, (t, VNone)) ids))) = false.
Proof. vm_compute. done. Qed.

Lemma checkpoint_recorded_witness : ∃ v d completed resume e,
  view_of (CObject demo_checkpoint) = Ok v ∧ bounded_summary v completed resume d ∧
  (∀ ck, CObject demo_checkpoint = CObject ck → completed_tasks ck ≠ [] → completed = completed_tasks ck) ∧
  committed ex_recorder at_noon None ex_file [] ex_event e ∧ kind e = "checkpoint.committed" ∧ Events.task_id e = None ∧ sequence e = NInt 1 ∧
  _thaw (Events.payload e) = VDict (d ++ [(VStr "digest", VStr (sha256_hex (dumps (VDict d))))])%list ∧
  (VNone = VNone → Events.created_at e = _DEFAULT_CREATED_AT) ∧
  ∃ x', record_checkpoint ex_recorder at_noon ex_file (CObject demo_checkpoint) (NInt 1) VNone = Ok (ex_file, x').
Proof. exact (checkpoint_recorded _ _ _ _ _ _ _ _ [] ex_recorded eq_refl ex_size). Defined.
