(* ===== verification/Dispatch.v ===== *)
(** * Simulated dispatch (scripts/pd_fleet/dispatch.py)

    The checks of what is dispatched, the choice of an adapter, the simulated
    adapter and the dispatcher, which answers a request it has seen with the
    result of then.  Tasks and contexts are values in which every container is
    an object of its own, but for the empty tuple, of which Python has one;
    another object is opaque and refused. *)

From S2P Require Import Prelude PyStr PyNum PyVal Regex Sha256 SafeRendering.

Open Scope string_scope.

Notation dict := (list (pyval * pyval)).

Inductive dispatch_error : Type := DispatchError | UnknownAdapterError | AdapterDeniedError | DispatchTypeError.
#[export] Instance dispatch_error_eq_dec : EqDecision dispatch_error.
Proof. solve_decision. Defined.
Notation dres := (res dispatch_error).

(** ** Values *)

Definition _mapping_copy (v : pyval) : dres dict :=
  match entries v with
  | Some d => _ ← ensure (forallb (λ kv, match kv.1 with VStr s => negb (blank s) | _ => false end) d) DispatchError; Ok d
  | None => Err DispatchError
  end.
Definition _native_nonempty_string (v : pyval) : dres string :=
  match v with VStr s => _ ← ensure (negb (blank s)) DispatchError; Ok (strip s) | _ => Err DispatchError end.
(** A value has entries, and no attribute of the names that are read. *)
Definition _value (task : pyval) (name : string) (default_ : pyval) : pyval := match entries task with Some d => dget_or default_ name d | None => default_ end.
Definition id_text (v : pyval) : option string := match v with VStr s => if blank s then None else Some (strip s) | _ => None end.
Definition _task_value (task : pyval) : dres string :=
  match id_text (_value task "id" VNone) with
  | Some s => Ok s
  | None => match id_text (_value task "task_id" VNone) with Some s => Ok s | None => Err DispatchError end
  end.

(** [json.dumps] with sorted keys, ASCII only, [NaN] allowed. *)
Definition float_text (f : spec_float) : string :=
  match f with S754_nan => "NaN" | S754_infinity s => if s then "-Infinity" else "Infinity" | _ => float_repr f end.
Fixpoint dumps_ascii (v : pyval) : string :=
  match v with
  | VNone => "null"
  | VBool b => if b then "true" else "false"
  | VInt z => str_of_Z z
  | VFloat f => float_text f
  | VStr s => ascii_str s
  | VList l | VTuple l => "[" +:+ join "," (map dumps_ascii l) +:+ "]"
  | VDict kvs | VProxy kvs => "{" +:+ join "," (map (λ kw, ascii_str kw.1 +:+ ":" +:+ kw.2) (sort_by key_leb (map (λ kv, (key_str kv, dumps_ascii kv.2)) kvs))) +:+ "}"
  | VOther _ => ""
  end.
(** Keys can be hashed, so that a second pass over a converted key leaves it. *)
Definition pair_leb (p q : pyval * pyval) : bool := String.leb (dumps_ascii p.1) (dumps_ascii q.1).
Definition key_name (k : pyval) : string := match k with VStr s => s | _ => UNSUPPORTED_TYPE end.
Fixpoint _jsonable (v : pyval) : pyval :=
  match v with
  | VDict kvs | VProxy kvs =>
      VDict (foldl (λ d p, dset (key_name p.1) p.2 d) [] (sort_by pair_leb (map (λ kv, (_jsonable kv.1, _jsonable kv.2)) kvs)))
  | VList l | VTuple l => VList (map _jsonable l)
  | VOther _ => VDict [(VStr "__object_type__", VStr UNSUPPORTED_TYPE)]
  | _ => v
  end.
Definition _canonical (v : pyval) : string := dumps_ascii (_jsonable v).

(** ** What is denied *)

Definition _URL_RE : re :=
  rseq [ralt [rseq [rlit_ci "http"; ropt (rlit_ci "s")]; rlit_ci "ftp"; rseq [rlit_ci "ws"; ropt (rlit_ci "s")]]; rlit "://";
        rplus (RChar (λ c, negb (is_space c || (code c =? 34)%nat || (code c =? 39)%nat || one_of "<>" c)))].
Definition _SECRET_VALUE_RE : re :=
  ralt [rseq [RWordBoundary; rlit_ci "bearer"; rplus rspace; rplus rnonspace]; rseq [RWordBoundary; rlit_ci "sk-"; rplus (RChar (λ c, is_alnum c || one_of "_-" c))]].
Definition _SECRET_ASSIGNMENT_RE : re :=
  rseq [RNotAfter is_alnum; RGroup 1 (rseq [RChar is_alpha; rbetween 1 80 (RChar (λ c, is_alnum c || one_of "_. -" c))]);
        rstar rspace; rchr ":="; rstar rspace; rplus rnonspace].
Definition denied_words : list string :=
  ["credential"; "secret"; "token"; "password"; "apikey"; "accesskey"; "privatekey"; "clientsecret"; "authorization"; "bearer"].
Definition normalized (label : string) : string := String.string_of_list_ascii (filter (λ c, is_lower c || is_digit c) (map lower_ascii (String.list_ascii_of_string label))).
Definition _denied_key (label : string) : bool := existsb (λ w, contains (normalized label) w) denied_words.
#[local] Arguments _denied_key : simpl never.
(** The names of the assignments in a text, from left to right. *)
Fixpoint assigned (fuel : nat) (prev : option ascii) (s : string) : list string :=
  match fuel with
  | O => []
  | S fuel => match search_from _SECRET_ASSIGNMENT_RE prev s with Some (_, m) => group 1 m :: assigned fuel (m_prev m) (m_rest m) | None => [] end
  end.
Definition _contains_secret_assignment (s : string) : bool := existsb _denied_key (assigned (String.length s) None s).
Definition denied_text (s : string) : bool := search _SECRET_VALUE_RE s || _contains_secret_assignment s || search _URL_RE s.
#[local] Arguments denied_text : simpl never.
(** The levels that may be entered: depths 0 to 64. *)
Definition MAX_LEVELS : nat := 65.
(** The search, and whether it has met the empty tuple: the identities that were
    met ([_seen]) are never removed, so that a second empty tuple, the one object
    that can occur twice, is taken for a cycle. *)
Fixpoint _contains_denied (levels : nat) (seen : bool) (v : pyval) : dres (bool * bool) :=
  match levels with
  | O => Err AdapterDeniedError
  | S levels =>
      let any := fix any (seen : bool) (l : list pyval) {struct l} : dres (bool * bool) :=
        match l with
        | [] => Ok (false, seen)
        | x :: l => b ← _contains_denied levels seen x; if (b.1 : bool) then Ok b else any b.2 l
        end in
      let any_entry := fix any_entry (seen : bool) (l : dict) {struct l} : dres (bool * bool) :=
        match l with
        | [] => Ok (false, seen)
        | kv :: l =>
            if _denied_key (key_name kv.1) then Ok (true, seen)
            else b ← _contains_denied levels seen kv.2; if (b.1 : bool) then Ok b else any_entry b.2 l
        end in
      match v with
      | VNone | VBool _ | VInt _ | VFloat _ => Ok (false, seen)
      | VDict kvs | VProxy kvs => any_entry seen kvs
      | VTuple [] => if seen then Err AdapterDeniedError else Ok (false, true)
      | VList l | VTuple l => any seen l
      | VStr s => Ok (denied_text s, seen)
      | VOther _ => Err AdapterDeniedError
      end
  end.
(** A value is searched on its own, with nothing met yet. *)
Definition search_denied (v : pyval) : dres bool := fst <$> _contains_denied MAX_LEVELS false v.
(** [if denied: raise] *)
Definition refuse_denied (task context : pyval) : dres unit :=
  a ← search_denied task;
  b ← (if (a : bool) then Ok true else search_denied context);
  ensure (negb b) AdapterDeniedError.

(** ** The simulated adapter *)

Record DispatchResult : Type := MkResult { r_task : string; r_adapter : string; r_status : string; r_attempt : Z; r_result : pyval; r_evidence : pyval; r_error : option string }.
Definition opt_text (o : option string) : pyval := match o with Some s => VStr s | None => VNone end.
Definition result_dict (r : DispatchResult) : dict :=
  [(VStr "task_id", VStr (r_task r)); (VStr "adapter", VStr (r_adapter r)); (VStr "status", VStr (r_status r)); (VStr "attempt", VInt (r_attempt r));
   (VStr "result", r_result r); (VStr "evidence", r_evidence r); (VStr "error", opt_text (r_error r))].
Record DispatchRecord : Type := MkRecord { d_task : string; d_adapter : string; d_attempt : Z; d_status : string; d_result : DispatchResult; d_evidence : pyval }.
Definition record_dict (r : DispatchRecord) : dict :=
  [(VStr "task_id", VStr (d_task r)); (VStr "adapter", VStr (d_adapter r)); (VStr "attempt", VInt (d_attempt r)); (VStr "status", VStr (d_status r));
   (VStr "result", VDict (result_dict (d_result r))); (VStr "evidence", d_evidence r)].

Inductive fixture : Type := Success | RetryOnce | FailAlways.
Definition fixture_value (x : fixture) : string := match x with Success => "success" | RetryOnce => "retry-once" | FailAlways => "fail-always" end.
Definition new_simulated (v : pyval) : dres fixture :=
  match List.find (λ x, key_is (fixture_value x) v) [Success; RetryOnce; FailAlways] with Some x => Ok x | None => Err AdapterDeniedError end.
(** A positive number, or 1. *)
Definition attempt_of (v : pyval) : Z := match v with VInt n => if (1 <=? n)%Z then n else 1 | _ => 1 end.
Definition output_char (c : ascii) : bool := is_alnum c || one_of "._-" c.
Definition output_name (task : pyval) : dres string :=
  let specs := _value task "outputs" (VList []) in
  let first := match elems specs with Some (x :: _) => x | _ => VStr "output" end in
  match _value first "name" first with
  | VStr s => _ ← ensure (ident is_alnum output_char (Some 127%nat) (strip s)) AdapterDeniedError; Ok (strip s)
  | _ => Err AdapterDeniedError
  end.
Definition or_else (v d : pyval) : pyval := if truthy v then v else d.
Definition list_of (v : pyval) : dres pyval := match iterate (or_else v (VList [])) with Some l => Ok (VList l) | None => Err DispatchTypeError end.
Definition simulated_report (task : pyval) (tid : string) (attempt : Z) (fails : bool) (output digest : string) (evidence : dict) : dres dict :=
  name ← output_name task;
  capabilities ← list_of (_value task "capabilities" (VList []));
  let verdict a b := VStr (if fails then a else b) in
  Ok [(VStr "schema_version", VStr "pd-fleet-report:v2"); (VStr "task_id", VStr tid); (VStr "attempt", VInt attempt);
      (VStr "agent_id", VStr (safe_text (or_else (_value task "owner" VNone) (_value task "role" (VStr "local"))) UNSUPPORTED_TYPE None));
      (VStr "role", VStr (safe_text (_value task "role" (VStr "worker")) UNSUPPORTED_TYPE None)); (VStr "capabilities", capabilities);
      (VStr "status", verdict "failed" "completed"); (VStr "outputs", VDict (if fails then [] else [(VStr name, VStr output)])); (VStr "evidence", VDict evidence);
      (VStr "tests", VList [VDict [(VStr "name", VStr "local"); (VStr "status", verdict "failed" "passed")]]);
      (VStr "validation", VDict [(VStr "status", verdict "failed" "passed"); (VStr "fingerprint", VStr digest)]);
      (VStr "decision", VDict [(VStr "decision", verdict "reject" "accept")]);
      (VStr "reason", if fails then VStr "simulated transient failure" else VNone); (VStr "error", if fails then VStr "simulated_transient" else VNone);
      (VStr "started_at", VStr "1970-01-01T00:00:00Z"); (VStr "completed_at", VStr "1970-01-01T00:00:00Z")].
Definition simulated_dispatch (x : fixture) (task : pyval) (context : dict) : dres DispatchResult :=
  tid ← _task_value task;
  let digest := sha256_hex (_canonical (VDict [(VStr "task", _jsonable task); (VStr "context", _jsonable (VDict context))])) in
  let attempt := attempt_of (dget_or (VInt 1) "attempt" context) in
  let fails := match x with FailAlways => true | RetryOnce => (attempt =? 1)%Z | Success => false end in
  let output := "simulated:" +:+ tid +:+ ":" +:+ str_take 16 digest in
  let result := ([(VStr "output", VStr output); (VStr "fingerprint", VStr digest)] ++ if fails then [(VStr "error", VStr "simulated_transient")] else [])%list in
  let evidence := [(VStr "adapter", VStr "simulated"); (VStr "deterministic", VBool true); (VStr "fixture", VStr (fixture_value x)); (VStr "attempt", VInt attempt);
                   (VStr "fingerprint", VStr digest)] in
  report ← (match dget_or VNone "report_v2" context with
            | VBool true => r ← simulated_report task tid attempt fails output digest evidence; Ok [(VStr "report", VDict r)]
            | _ => Ok []
            end);
  Ok (MkResult tid "simulated" (if fails then "failed" else "completed") attempt (VDict (result ++ report)%list) (VDict evidence) None).

(** ** The dispatcher *)

(** An adapter that is handed in: a simulated one, or another. *)
Inductive adapter : Type := SimulatedAdapter (x : fixture) | Foreign.
Notation request := (string * string * string * Z)%type.
Record Dispatcher : Type := MkDispatcher {
  _simulated_override : bool; _adapters : list string; _routes : dict; dry_run : bool; _records : list DispatchRecord; _by_request : gmap request DispatchRecord }.
Definition route_ok (kv : pyval * pyval) : bool := match kv.2 with VStr s => negb (blank s) | _ => false end.
(** The registry holds the internal simulated adapter whatever is handed in. *)
Definition new_dispatcher (adapters : list (string * adapter)) (routes dry : pyval) : dres Dispatcher :=
  routes ← _mapping_copy (match routes with VNone => VDict [] | _ => routes end);
  _ ← ensure (forallb route_ok routes) DispatchError;
  _ ← ensure (forallb (λ a, negb (blank a.1)) adapters) DispatchError;
  d ← (match dry with VBool b => Ok b | _ => Err DispatchError end);
  Ok (MkDispatcher (existsb (λ a, bool_decide (a.1 = "simulated") && match a.2 with Foreign => true | _ => false end) adapters)
        ("simulated" :: filter (λ n, n ≠ "simulated") (map fst adapters)) routes d [] ∅).
Definition route (d : Dispatcher) (name : string) : option string := dget name (_routes d) ≫= as_str.
Fixpoint route_first (d : Dispatcher) (names : list string) : option string :=
  match names with [] => None | n :: names => match route d n with Some a => Some a | None => route_first d names end end.
Definition capabilities_of (v : pyval) : dres (list string) :=
  match v with
  | VNone => Ok []
  | _ => match elems v ≫= mapM as_str with
         | Some l => _ ← ensure (forallb (λ c, negb (blank c)) l) DispatchError; Ok l
         | None => Err DispatchError end
  end.
Definition select_adapter (d : Dispatcher) (task : pyval) (context : pyval) : dres string :=
  context ← (match context with VNone => Ok [] | _ => _mapping_copy context end);
  let explicit := match _value task "adapter" VNone with VNone => dget_or VNone "adapter" context | v => v end in
  match explicit with
  | VNone =>
      capabilities ← capabilities_of (_value task "capabilities" VNone);
      match route_first d capabilities with
      | Some a => Ok a
      | None => match _value task "role" VNone with
                | VNone => Ok "simulated"
                | role => r ← _native_nonempty_string role; Ok (default "simulated" (route d r))
                end
      end
  | _ => _native_nonempty_string explicit
  end.
Definition a_tilde : string := String (ascii_of_nat 227) "".
Definition FAILED_TEXT : string := "adapter falhou; detalhes n" +:+ a_tilde +:+ "o s" +:+ a_tilde +:+ "o expostos".
(** The adapter gets copies; whatever it raises becomes a failed result. *)
Definition attempt_dispatch (tid name : string) (attempt : Z) (task : pyval) (context : dict) (fingerprint : string) : DispatchResult :=
  let failed := MkResult tid name "failed" attempt VNone (VDict [(VStr "fingerprint", VStr fingerprint)]) (Some FAILED_TEXT) in
  if copyable task && copyable (VDict context) then match simulated_dispatch Success task context with Ok r => r | Err _ => failed end else failed.
Definition request_fingerprint (task : pyval) (context : dict) : string := sha256_hex (_canonical (VDict [(VStr "task", task); (VStr "context", VDict context)])).
Definition record_of (tid name : string) (r : DispatchResult) : DispatchRecord := MkRecord tid name (r_attempt r) (r_status r) r (r_evidence r).
Definition remember (key : request) (rec : DispatchRecord) (d : Dispatcher) : Dispatcher :=
  MkDispatcher (_simulated_override d) (_adapters d) (_routes d) (dry_run d) (_records d ++ [rec])%list (<[key := rec]> (_by_request d)).
(** The request of a task in a context: the checks that come before the look-up. *)
Definition request_of (d : Dispatcher) (task : pyval) (context : dict) : dres request :=
  tid ← _task_value task;
  _ ← refuse_denied task (VDict context);
  _ ← ensure (match dget "dry_run" context with None | Some (VBool _) => true | _ => false end) DispatchError;
  attempt ← (match dget_or (VInt 1) "attempt" context with VInt n => _ ← ensure (1 <=? n)%Z DispatchError; Ok n | _ => Err DispatchError end);
  name ← select_adapter d task (VDict context);
  Ok (tid, request_fingerprint task context, name, attempt).
Definition produce (d : Dispatcher) (tid fingerprint name : string) (attempt : Z) (task : pyval) (context : dict) : DispatchResult :=
  if dry_run d || truthy (dget_or (VBool false) "dry_run" context)
  then MkResult tid name "dry_run" 0 (VDict [(VStr "would_dispatch", VBool true)]) (VDict [(VStr "fingerprint", VStr fingerprint); (VStr "dry_run", VBool true)]) None
  else attempt_dispatch tid name attempt task context fingerprint.
Definition dispatch (task context : pyval) : stm Dispatcher dispatch_error DispatchResult :=
  context ← lift_res (_mapping_copy (match context with VNone => VDict [] | _ => context end));
  d ← get_state;
  key ← lift_res (request_of d task context);
  match _by_request d !! key with
  | Some rec => mret (d_result rec)
  | None =>
      let '(tid, fingerprint, name, attempt) := key in
      _ ← ensure_st (negb (_simulated_override d)) AdapterDeniedError;
      _ ← ensure_st (bool_decide (name ∈ _adapters d)) UnknownAdapterError;
      _ ← ensure_st (bool_decide (name = "simulated")) AdapterDeniedError;
      let result := produce d tid fingerprint name attempt task context in
      _ ← modify (remember key (record_of tid name result));
      mret result
  end.
Definition history (d : Dispatcher) : list DispatchRecord := _records d.
Definition reports (d : Dispatcher) : list dict := map record_dict (_records d).

(** ** What is let through *)

(** The texts and the keys of a value, at any depth. *)
Fixpoint texts_in (v : pyval) : list string :=
  match v with
  | VStr s => [s]
  | VList l | VTuple l => concat (map texts_in l)
  | VDict kvs | VProxy kvs => concat (map (λ kv, texts_in kv.2) kvs)
  | _ => []
  end.
Fixpoint keys_in (v : pyval) : list string :=
  match v with
  | VList l | VTuple l => concat (map keys_in l)
  | VDict kvs | VProxy kvs => concat (map (λ kv, key_name kv.1 :: keys_in kv.2) kvs)
  | _ => []
  end.
Definition clean (v : pyval) : Prop := Forall (λ k, _denied_key k = false) (keys_in v) ∧ Forall (λ t, denied_text t = false) (texts_in v).

Lemma clean_entries (kvs : dict) : Forall (λ kv, _denied_key (key_name kv.1) = false ∧ clean kv.2) kvs → clean (VDict kvs).
Proof.
  induction 1 as [|[k v] kvs [Hk [Hc Ht]] _ [IH1 IH2]]; [by split|]. cbn [fst snd] in *. split; cbn [keys_in texts_in map concat fst snd] in *.
  - constructor; [done|]. by apply Forall_app.
  - by apply Forall_app.
Qed.
Lemma clean_items (l : list pyval) : Forall clean l → clean (VList l).
Proof.
  induction 1 as [|v l [Hc Ht] _ [IH1 IH2]]; [by split|]. split; cbn [keys_in texts_in map concat] in *; by apply Forall_app.
Qed.

Lemma denied_clean levels seen v seen' : _contains_denied levels seen v = Ok (false, seen') → clean v.
Proof.
  revert seen v seen'. induction levels as [|n IH]; intros seen v seen'; [done|]. cbn [_contains_denied].
  set (any := fix any (seen : bool) (l : list pyval) {struct l} : dres (bool * bool) := _). set (any_entry := fix any_entry (seen : bool) (l : dict) {struct l} : dres (bool * bool) := _).
  assert (Hl : ∀ l seen seen', any seen l = Ok (false, seen') → clean (VList l)).
  { intros l s0 s1 Hl. apply clean_items. revert s0 Hl. induction l as [|x l IHl]; intros s0 Hl; [constructor|].
    apply bind_ok in Hl as ([[] s2] & Hx & Hl); [discriminate|]. constructor; [by eapply IH|by apply (IHl s2)]. }
  assert (Hd : ∀ d seen seen', any_entry seen d = Ok (false, seen') → clean (VDict d)).
  { intros d s0 s1 Hd. apply clean_entries. revert s0 Hd. induction d as [|[k x] d IHd]; intros s0 Hd; [constructor|]. cbn in Hd. destruct (_denied_key (key_name k)) eqn:Hk; [discriminate|].
    apply bind_ok in Hd as ([[] s2] & Hx & Hd); [discriminate|]. constructor; [split; [done|by eapply IH]|by apply (IHd s2)]. }
  clearbody any any_entry. destruct v as [|b|z|f|t|l|[|x l]|d|d|o]; intros H; try (by split; constructor); try discriminate.
  - apply ok_inj in H. split; [constructor|]. constructor; [congruence|constructor].
  - exact (Hl _ _ _ H).
  - exact (Hl _ _ _ H).
  - exact (Hd _ _ _ H).
  - exact (Hd _ _ _ H).
Qed.
Lemma search_clean v : search_denied v = Ok false → clean v.
Proof. unfold search_denied. intros ([b seen] & H & E)%fmap_ok. cbn in E. subst b. by eapply denied_clean. Qed.
Lemma refuse_denied_clean task context : refuse_denied task context = Ok () → clean task ∧ clean context.
Proof.
  unfold refuse_denied. intros (a & Ha & (b & Hb & H%ensure_ok%negb_true_iff)%bind_ok)%bind_ok. subst b. destruct a; [done|]. split; by apply search_clean.
Qed.

(** ** Requests and answers *)

Definition answer_of (key : request) (res : DispatchResult) : Prop := r_task res = key.1.1.1 ∧ key.1.2 = "simulated" ∧ r_adapter res = "simulated".

Lemma attempt_answers tid name n task context fp : _task_value task = Ok tid → name = "simulated" →
  r_task (attempt_dispatch tid name n task context fp) = tid ∧ r_adapter (attempt_dispatch tid name n task context fp) = "simulated".
Proof.
  intros Ht ->. unfold attempt_dispatch. destruct (_ && _); [|done]. destruct (simulated_dispatch Success task context) as [r|] eqn:E; [|done].
  unfold simulated_dispatch in E. rewrite Ht in E. apply bind_ok in E as (t & [= <-] & E). cbv zeta in E. by apply bind_ok in E as (rep & _ & <-%ok_inj).
Qed.

Lemma produce_answers d tid fp name n task context : _task_value task = Ok tid → name = "simulated" →
  answer_of (tid, fp, name, n) (produce d tid fp name n task context).
Proof.
  intros Ht Hn. destruct (attempt_answers tid name n task context fp Ht Hn) as [H1 H2]. unfold produce, answer_of. cbn [fst snd]. by destruct (_ || _).
Qed.

Lemma dispatch_cases task context d d' r : dispatch task context d = (d', r) →
  ((∃ e, r = Err e) ∧ d' = d) ∨
  ∃ ctx key, _mapping_copy (match context with VNone => VDict [] | _ => context end) = Ok ctx ∧ request_of d task ctx = Ok key ∧
    ((∃ rec, _by_request d !! key = Some rec ∧ d' = d ∧ r = Ok (d_result rec)) ∨
     (∃ res, _by_request d !! key = None ∧ r = Ok res ∧ d' = remember key (record_of key.1.1.1 key.1.2 res) d ∧ answer_of key res)).
Proof.
  unfold dispatch. set (given := match context with VNone => VDict [] | _ => context end).
  destruct (_mapping_copy given) as [ctx|e] eqn:Hc; [rewrite stm_lift, stm_get, stm_lift|intros [= <- <-]; left; split; [by exists e|done]].
  destruct (request_of d task ctx) as [key|e] eqn:Hk; [|intros [= <- <-]; left; split; [by exists e|done]].
  destruct (_by_request d !! key) as [rec|] eqn:Hb.
  { intros [= <- <-]. right. exists ctx, key. do 2 (split; [done|]). left. by exists rec. }
  destruct key as [[[tid fp] name] n]. rewrite stm_ensure. destruct (negb _); [|intros [= <- <-]; left; split; [by eexists|done]].
  rewrite stm_ensure. destruct (bool_decide (name ∈ _)); [|intros [= <- <-]; left; split; [by eexists|done]].
  rewrite stm_ensure. destruct (bool_decide (name = "simulated")) eqn:Hn; [apply bool_decide_eq_true in Hn|intros [= <- <-]; left; split; [by eexists|done]].
  rewrite stm_modify. intros [= <- <-]. right. exists ctx, (tid, fp, name, n). do 2 (split; [done|]). right. eexists. split; [done|]. split; [done|]. split; [done|].
  apply produce_answers; [|done]. unfold request_of in Hk. by apply bind_ok in Hk as (t & Ht & (_ & _ & (_ & _ & (_ & _ & (_ & _ & [= <- _ _ _])%bind_ok)%bind_ok)%bind_ok)%bind_ok).
Qed.

(** A dispatcher after any dispatches. *)
Inductive reachable : Dispatcher → Prop :=
| reach_new adapters routes dry d : new_dispatcher adapters routes dry = Ok d → reachable d
| reach_next d task context d' r : reachable d → dispatch task context d = (d', r) → reachable d'.

(** One record per request, and each says what the adapter said. *)
Record consistent (d : Dispatcher) : Prop := {
  cs_answers : ∀ key rec, _by_request d !! key = Some rec → answer_of key (d_result rec) ∧ rec = record_of key.1.1.1 key.1.2 (d_result rec) ∧ rec ∈ _records d;
  cs_records : Forall (λ rec, ∃ key, _by_request d !! key = Some rec) (_records d);
  cs_size : length (_records d) = size (_by_request d) }.

Lemma reachable_consistent d : reachable d → consistent d.
Proof.
  induction 1 as [adapters routes dry d H|d task context d' r _ [Ha Hr Hs] H].
  - unfold new_dispatcher in H. apply bind_ok in H as (rs & _ & (_ & _ & (_ & _ & (b & _ & <-%ok_inj)%bind_ok)%bind_ok)%bind_ok). constructor; [done|constructor|done].
  - destruct (dispatch_cases _ _ _ _ _ H) as [[_ ->]|(ctx & key & _ & _ & [(rec & _ & -> & _)|(res & Hn & _ & -> & Hans)])]; [by constructor..|].
    constructor; cbn [remember _by_request _records].
    + intros key' rec. rewrite lookup_insert_Some. intros [[<- <-]|[_ Hk]].
      * do 2 (split; [done|]). apply elem_of_app. right. by left.
      * destruct (Ha _ _ Hk) as (H1 & H2 & H3). do 2 (split; [done|]). apply elem_of_app. by left.
    + apply Forall_app. split; [|constructor; [|constructor]; exists key; apply lookup_insert_eq].
      eapply Forall_impl; [exact Hr|]. intros rec [key' Hk]. exists key'. rewrite lookup_insert_ne; [done|]. congruence.
    + rewrite length_app, map_size_insert_None by done. cbn [length]. lia.
Qed.

Lemma request_clean d task ctx key : request_of d task ctx = Ok key → clean task ∧ clean (VDict ctx) ∧ _task_value task = Ok key.1.1.1.
Proof.
  unfold request_of. intros (tid & Ht & ([] & Hc%refuse_denied_clean & (u & _ & (n & _ & (name & _ & <-%ok_inj)%bind_ok)%bind_ok)%bind_ok)%bind_ok)%bind_ok. naive_solver.
Qed.
Lemma dispatch_again d task context ctx key rec : _mapping_copy (match context with VNone => VDict [] | _ => context end) = Ok ctx →
  request_of d task ctx = Ok key → _by_request d !! key = Some rec → dispatch task context d = (d, Ok (d_result rec)).
Proof.
  intros Hc Hk Hb. unfold dispatch. rewrite Hc, stm_lift, stm_get, Hk, stm_lift, Hb. done.
Qed.

Lemma route_remember key rec d names : route_first (remember key rec d) names = route_first d names.
Proof. induction names as [|n names IH]; [done|]. cbn [route_first]. by rewrite IH. Qed.
Lemma request_remember key rec d task ctx : request_of (remember key rec d) task ctx = request_of d task ctx.
Proof.
  assert (select_adapter (remember key rec d) task (VDict ctx) = select_adapter d task (VDict ctx)) as Hs; [|by unfold request_of; rewrite Hs].
  unfold select_adapter. destruct (_mapping_copy _) as [c|]; [|done]. cbn [mbind res_bind]. cbv zeta. destruct (match _value task "adapter" VNone with VNone => _ | v => v end); try done.
  destruct (capabilities_of _) as [l|]; [|done]. cbn [mbind res_bind]. by rewrite route_remember.
Qed.

(** Any dispatches, one after the other. *)
Inductive later : Dispatcher → Dispatcher → Prop :=
| later_refl d : later d d
| later_next d task context d1 r d2 : dispatch task context d = (d1, r) → later d1 d2 → later d d2.

(** What is recorded for a request stays. *)
Lemma dispatch_keeps task context d d' r key rec : dispatch task context d = (d', r) → _by_request d !! key = Some rec → _by_request d' !! key = Some rec.
Proof.
  intros [[_ ->]|(ctx & key' & _ & _ & [(rec' & _ & -> & _)|(res & Hn & _ & -> & _)])]%dispatch_cases Hk; [done..|].
  cbn [remember _by_request]. rewrite lookup_insert_ne; [done|]. congruence.
Qed.
(** The request of a task and a context does not depend on what was dispatched. *)
Lemma dispatch_request task context d d' r task2 ctx2 : dispatch task context d = (d', r) → request_of d' task2 ctx2 = request_of d task2 ctx2.
Proof.
  intros [[_ ->]|(ctx & key' & _ & _ & [(rec' & _ & -> & _)|(res & Hn & _ & -> & _)])]%dispatch_cases; [done..|]. apply request_remember.
Qed.
Lemma later_keeps d d' key rec : later d d' → _by_request d !! key = Some rec → _by_request d' !! key = Some rec.
Proof. induction 1 as [|d task context d1 r d2 Hd _ IH]; [done|]. intros Hk. apply IH. by eapply dispatch_keeps. Qed.
Lemma later_request d d' task ctx : later d d' → request_of d' task ctx = request_of d task ctx.
Proof. induction 1 as [|d task' context d1 r d2 Hd _ IH]; [done|]. rewrite IH. by eapply dispatch_request. Qed.

(** The context that is meant when [None] is given. *)
Definition given (context : pyval) : pyval := match context with VNone => VDict [] | _ => context end.

(** C28: A dispatcher that any dispatches led to answers a request with a result
    of the simulated adapter for just that task, when neither task nor context
    hold a denied key or text at any depth.  A request is what [request_of]
    makes of a task and a context: the task id, the digest of their canonical
    form, the adapter and the attempt.  After any later dispatches a task and a
    context with the same request, this one or another that the canonical form
    does not tell apart, get the same answer and change nothing: every request
    is dispatched once and has one record.  A call that is refused leaves no
    trace. *)
Theorem dispatch_once d task context d' r : reachable d → dispatch task context d = (d', r) →
  match r with
  | Err _ => d' = d
  | Ok res =>
      r_adapter res = "simulated" ∧ _task_value task = Ok (r_task res) ∧
      (d' = d ∨ ∃ rec, _records d' = (_records d ++ [rec])%list ∧ d_result rec = res) ∧
      (∃ rec, rec ∈ _records d' ∧ d_result rec = res) ∧ length (_records d') = size (_by_request d') ∧
      ∃ ctx key, _mapping_copy (given context) = Ok ctx ∧ clean task ∧ clean (VDict ctx) ∧
        (∀ d'', later d' d'' → request_of d'' task ctx = Ok key ∧ dispatch task context d'' = (d'', Ok res)) ∧
        (∀ d'' task2 context2 ctx2, later d' d'' → _mapping_copy (given context2) = Ok ctx2 → request_of d'' task2 ctx2 = Ok key →
          dispatch task2 context2 d'' = (d'', Ok res))
  end.
Proof.
  intros Hd H. assert (Hd' : reachable d') by (by eapply reach_next). apply reachable_consistent in Hd as [Ha _ Hs]. apply reachable_consistent in Hd' as [_ _ Hs'].
  destruct (dispatch_cases _ _ _ _ _ H) as [[[e ->] ->]|(ctx & key & Hc & Hk & Hcase)]; [done|]. destruct (request_clean _ _ _ _ Hk) as (C1 & C2 & Ht).
  assert (∃ res rec, r = Ok res ∧ _by_request d' !! key = Some rec ∧ d_result rec = res ∧ rec ∈ _records d' ∧ answer_of key res ∧
    (d' = d ∨ _records d' = (_records d ++ [rec])%list)) as (res & rec & -> & Hb & Hres & Hin & (A1 & A2 & A3) & Hrec).
  { destruct Hcase as [(rec & Hb & -> & ->)|(res & Hn & -> & -> & Hans)].
    - destruct (Ha _ _ Hb) as (Hans & _ & Hin). exists (d_result rec), rec. split_and!; try done. by left.
    - eexists res, _. split; [done|]. split; [apply lookup_insert_eq|]. split; [done|]. split; [apply elem_of_app; right; by left|]. split; [done|]. by right. }
  split; [done|]. split; [by rewrite A1|]. split; [destruct Hrec as [? | ?]; [by left|right; by exists rec]|]. split; [by exists rec|]. split; [done|].
  exists ctx, key. do 3 (split; [done|]).
  assert (∀ d'' task2 context2 ctx2, later d' d'' → _mapping_copy (given context2) = Ok ctx2 → request_of d'' task2 ctx2 = Ok key → dispatch task2 context2 d'' = (d'', Ok res)) as Hagain.
  { intros d'' task2 context2 ctx2 Hl Hc2 Hk2. rewrite <- Hres. apply (dispatch_again _ _ _ ctx2 key rec Hc2 Hk2). by eapply later_keeps. }
  split; [|exact Hagain]. intros d'' Hl. assert (request_of d'' task ctx = Ok key) as Hk'' by (by rewrite (later_request _ _ _ _ Hl), (dispatch_request _ _ _ _ _ task ctx H)).
  split; [done|]. by apply (Hagain d'' task context ctx).
Qed.

(** ** Examples *)

Definition ex_task (inputs : dict) : pyval := VDict [(VStr "id", VStr " t1 "); (VStr "role", VStr "dev"); (VStr "inputs", VDict inputs)].
Definition ex_new : Dispatcher := MkDispatcher false ["simulated"] [] false [] ∅.
Lemma ex_reachable : reachable ex_new.
Proof. by apply (reach_new [("simulated", SimulatedAdapter FailAlways)] VNone (VBool false)). Qed.
Definition ex_print : string := "e9103e4c78d3b28b486e19623ec46b5f1e47909f97aa200c756933e56901ded1".
Definition ex_result : DispatchResult :=
  MkResult "t1" "simulated" "completed" 1 (VDict [(VStr "output", VStr "simulated:t1:e9103e4c78d3b28b"); (VStr "fingerprint", VStr ex_print)])
    (VDict [(VStr "adapter", VStr "simulated"); (VStr "deterministic", VBool true); (VStr "fixture", VStr "success"); (VStr "attempt", VInt 1); (VStr "fingerprint", VStr ex_print)]) None.
Definition ex_after : Dispatcher := remember ("t1", ex_print, "simulated", 1%Z) (record_of "t1" "simulated" ex_result) ex_new.
(** The fixture of a simulated adapter that is handed in is not used. *)
Example fixture_ignored : new_dispatcher [("simulated", SimulatedAdapter FailAlways)] VNone (VBool false) = Ok ex_new ∧ r_status ex_result = "completed".
Proof. done. Qed.
Lemma ex_request : request_of ex_new (ex_task []) [] = Ok ("t1", ex_print, "simulated", 1%Z).
Proof. vm_compute. reflexivity. Qed.
Lemma ex_produced : produce ex_new "t1" ex_print "simulated" 1 (ex_task []) [] = ex_result.
Proof. vm_compute. reflexivity. Qed.
Lemma ex_dispatched : dispatch (ex_task []) VNone ex_new = (ex_after, Ok ex_result).
Proof.
  unfold dispatch. change (_mapping_copy (VDict [])) with (Ok [] : dres dict). rewrite stm_lift, stm_get, ex_request, stm_lift. cbn [_by_request ex_new]. rewrite lookup_empty.
  rewrite ex_produced. done.
Qed.
Example ex_refused : map (λ t, (dispatch (ex_task [(VStr "k", t)]) VNone ex_new).2)
  [VStr "token: abc"; VStr "see https://x"; VDict [(VStr "API-Key", VNone)]; VOther "object"; VStr "Bearer abc"; VList [VList [VStr "sk-1"]]] = replicate 6 (Err AdapterDeniedError).
Proof. vm_compute. reflexivity. Qed.
(** Keys that are no strings have one name: tasks that differ in them are one request. *)
Example number_keys_collide : ex_task [(VInt 1, VStr "x")] ≠ ex_task [(VInt 2, VStr "x")] ∧
  request_of ex_new (ex_task [(VInt 1, VStr "x")]) [] = request_of ex_new (ex_task [(VInt 2, VStr "x")]) [].
Proof. split; [done|]. vm_compute. reflexivity. Qed.
(** Two empty tuples are one object, which is taken for a cycle. *)
Example tuples_refused : map (λ t, match (dispatch (ex_task [(VStr "a", VTuple []); (VStr "b", t)]) VNone ex_new).2 with Ok r => r_status r | Err _ => "" end)
  [VList []; VTuple []] = ["completed"; ""].
Proof. vm_compute. reflexivity. Qed.
(** A mapping view inside a task passes the checks and cannot be copied: the dispatch fails. *)
Example view_fails : match dispatch (ex_task [(VStr "k", VProxy [])]) VNone ex_new with (_, Ok r) => r_status r = "failed" ∧ r_error r = Some FAILED_TEXT | _ => False end.
Proof. vm_compute. done. Qed.
Example retry_fixture : map (λ n, match simulated_dispatch RetryOnce (ex_task []) [(VStr "attempt", VInt n)] with Ok r => r_status r | Err _ => "" end) [1; 2; -3]%Z = ["failed"; "completed"; "failed"].
Proof. vm_compute. reflexivity. Qed.
Example unsafe_output_name : simulated_dispatch Success (VDict [(VStr "id", VStr "t"); (VStr "outputs", VList [VStr "../x"])]) [(VStr "report_v2", VBool true)] = Err AdapterDeniedError.
Proof. vm_compute. reflexivity. Qed.

Lemma dispatch_once_witness :
  r_adapter ex_result = "simulated" ∧ _task_value (ex_task []) = Ok (r_task ex_result) ∧
  (ex_after = ex_new ∨ ∃ rec, _records ex_after = (_records ex_new ++ [rec])%list ∧ d_result rec = ex_result) ∧
  (∃ rec, rec ∈ _records ex_after ∧ d_result rec = ex_result) ∧ length (_records ex_after) = size (_by_request ex_after) ∧
  ∃ ctx key, _mapping_copy (given VNone) = Ok ctx ∧ clean (ex_task []) ∧ clean (VDict ctx) ∧
    (∀ d'', later ex_after d'' → request_of d'' (ex_task []) ctx = Ok key ∧ dispatch (ex_task []) VNone d'' = (d'', Ok ex_result)) ∧
    (∀ d'' task2 context2 ctx2, later ex_after d'' → _mapping_copy (given context2) = Ok ctx2 → request_of d'' task2 ctx2 = Ok key →
      dispatch task2 context2 d'' = (d'', Ok ex_result)).
Proof. exact (dispatch_once ex_new (ex_task []) VNone ex_after (Ok ex_result) ex_reachable ex_dispatched). Defined.
