(* ===== verification/OrchestratorReconcile.v ===== *)
(** * Reconciliation before a V2 run (scripts/pd_fleet/orchestrator.py)

    [FleetOrchestrator.reconcile] on a mapping: the issues of the envelope that
    is to be resumed, in their order, and the verdict that [run] obeys.  The
    orchestrator is seen through its plan and the hash of the plan.  A context
    that is no mapping is refused; its issues are not modelled. *)

From S2P Require Import Prelude PyStr PyNum PyVal IsoTime Lifecycle Models Canonical Checkpoint CheckpointStore OrchestratorParts Orchestrator.

Open Scope string_scope.

Notation dict := (list (pyval * pyval)).

Record issue : Type := MkIssue { i_code : string; i_reason : string; i_task : option string }.
Definition issue_eqb_key (a : issue) : string * string * string := (i_code a, default "" (i_task a), i_reason a).
(** The order of the keys (code, task, reason). *)
Definition issue_leb (a b : issue) : bool :=
  let '(c, t, r) := issue_eqb_key a in let '(c', t', r') := issue_eqb_key b in
  if bool_decide (c = c') then if bool_decide (t = t') then String.leb r r' else String.leb t t' else String.leb c c'.
Definition issue_dict (x : issue) : dict :=
  ([(VStr "code", VStr (i_code x)); (VStr "reason", VStr (i_reason x))] ++ match i_task x with Some t => [(VStr "task_id", VStr t)] | None => [] end)%list.
(** [if not ok: add(code, reason, task_id)] *)
Definition add_unless (ok : bool) (code reason : string) (task : option string) : list issue := if ok then [] else [MkIssue code reason task].

Record ReconciliationResult : Type := MkReconciliation { rc_valid : bool; rc_issues : list pyval; rc_events : list pyval }.
Definition reasons (r : ReconciliationResult) : list pyval := map (λ x, match entries x with Some d => dget_or VNone "reason" d | None => VNone end) (rc_issues r).
Definition result_dict (r : ReconciliationResult) : dict :=
  [(VStr "valid", VBool (rc_valid r)); (VStr "issues", VList (rc_issues r)); (VStr "events", VList (rc_events r)); (VStr "reasons", VList (reasons r))].
Definition result_of (issues : list issue) : ReconciliationResult :=
  let sorted := sort_by issue_leb issues in
  let event := [(VStr "type", VStr "reconciliation"); (VStr "status", VStr (match sorted with [] => "valid" | _ => "blocked" end));
                (VStr "reason", VStr (match sorted with x :: _ => i_reason x | [] => "reconciliation valid" end))] in
  MkReconciliation (match sorted with [] => true | _ => false end) (map (λ x, _sanitize_payload (VDict (issue_dict x))) sorted) [_sanitize_payload (VDict event)].

(** ** The envelope *)

Definition is_name (v : pyval) : bool := match v with VStr s => negb (blank s) | _ => false end.
Definition is_natural (v : pyval) : bool := match v with VInt n => (0 <=? n)%Z | _ => false end.
Definition REQUIRED : list string := ["plan_hash"; "run_id"; "generation"; "owner"; "checkpoint"; "leases"; "events"].
Definition one_of_values (l : list pyval) (v : pyval) : bool := existsb (py_eqb v) l.

Section envelope.
  Context (clock : clock_reading) (digest : option string) (ids : list string) (raw : dict).
  Notation get k := (dget_or VNone k raw).

Definition missing_issues : list issue := concat (map (λ name, add_unless (dhas name raw) ("missing_" +:+ name) ("missing " +:+ name) None) REQUIRED).
Definition hash_issues : list issue :=
  (add_unless (is_name (get "plan_hash")) "plan_hash_invalid" "invalid plan hash" None ++
   match digest with
   | None => [MkIssue "hash_contract_error" "canonical hash unavailable" None]
   | Some h => add_unless (negb (is_str (get "plan_hash")) || key_is h (get "plan_hash")) "plan_hash_drift" "plan hash drift" None
   end)%list.
(** An expectation that is not stated is met. *)
Definition unless_stated (name : string) (ok : bool) : bool := negb (dhas name raw) || ok.
Definition identity_issues : list issue :=
  (add_unless (is_name (get "run_id")) "run_id_invalid" "invalid run id" None ++
   add_unless (is_natural (get "generation")) "generation_invalid" "invalid generation" None ++
   add_unless (unless_stated "expected_generation" (is_exact_int (get "expected_generation") && py_eqb (get "generation") (get "expected_generation"))) "stale_generation" "stale generation" None ++
   add_unless (unless_stated "owner" (is_name (get "owner"))) "owner_invalid" "invalid owner" None ++
   add_unless (unless_stated "expected_owner" (py_eqb (get "owner") (get "expected_owner"))) "owner_mismatch" "owner mismatch" None ++
   add_unless (unless_stated "schema_version" (one_of_values [VNone; VInt 1; VStr "1"; VStr V2_SCHEMA_VERSION] (get "schema_version"))) "schema_mismatch" "incompatible schema" None ++
   if unless_stated "expected_run_id" (is_name (get "expected_run_id"))
   then add_unless (unless_stated "expected_run_id" (py_eqb (get "run_id") (get "expected_run_id"))) "run_id_drift" "run id drift" None
   else [MkIssue "run_id_invalid" "invalid run id" None])%list.
Definition lease_shape (lease : dict) : bool :=
  is_name (dget_or VNone "lease_id" lease) && is_name (dget_or VNone "owner" lease) && is_natural (dget_or VNone "generation" lease).
(** The keys of a strict copy are names. *)
Definition lease_issues (kv : pyval * pyval) : list issue :=
  let tid := key_str kv in
  (add_unless (bool_decide (tid ∈ ids)) "lease_task_mismatch" "lease task is not present in loaded plan" (Some tid) ++
   match entries kv.2 with
   | None => if bool_decide (tid ∈ ids) then [MkIssue "stale_lease" "stale lease" (Some tid)] else []
   | Some lease =>
       (if lease_shape lease
        then add_unless (unless_stated "owner" (py_eqb (dget_or VNone "owner" lease) (get "owner"))) "lease_owner_mismatch" "lease owner mismatch" (Some tid)
        else [MkIssue "stale_lease" "stale lease" (Some tid)]) ++
       add_unless (negb (lease_shape lease) || py_eqb (dget_or VNone "generation" lease) (get "generation")) "stale_lease" "stale lease" (Some tid)
   end)%list.
Definition leases_issues : list issue :=
  match entries (get "leases") with Some leases => concat (map lease_issues leases) | None => [MkIssue "leases_invalid" "incompatible leases" None] end.
Definition sequence_of (e : pyval) : pyval :=
  match entries e with Some d => dget_or (dget_or (dget_or VNone "event_sequence" d) "seq" d) "sequence" d | None => VNone end.
Definition as_int (v : pyval) : option Z := match v with VInt n => Some n | _ => None end.
Definition numbered (events : list pyval) : bool :=
  match mapM (λ e, as_int (sequence_of e)) events with Some ns => bool_decide (ns = seqZ 1 (Z.of_nat (length events))) | None => false end.
Definition events_issues : list issue :=
  match get "events" with
  | VList events => add_unless (numbered events) "event_sequence_invalid" "duplicate or non-contiguous event sequence" None
  | _ => [MkIssue "events_invalid" "incompatible events" None]
  end.
Definition checkpoint_ok : bool :=
  match entries (get "checkpoint") with
  | Some cp =>
      if key_is V2_SCHEMA_VERSION (dget_or VNone "schema_version" cp) then valid_for clock (get "checkpoint") (get "run_id") (get "plan_hash")
      else one_of_values [VInt 1; VStr "1"] (dget_or (VInt 1) "schema_version" cp) && is_ok (Checkpoint.from_dict clock (get "checkpoint"))
  | None => false
  end.
Definition lease_held (leases : dict) (tid : string) : bool := match entries (dget_or VNone tid leases) with Some l => truthy (dget_or VNone "lease_id" l) | None => false end.
Definition orphan (leases : dict) (kv : pyval * pyval) : bool :=
  match entries kv.2 with
  | Some s => key_is "running" (dget_or (dget_or VNone "state" s) "status" s) && negb (lease_held leases (key_str kv))
  | None => false
  end.
Definition orphan_issues : list issue :=
  match entries (get "snapshots"), entries (get "leases") with
  | Some snapshots, Some leases => concat (map (λ kv, add_unless (negb (orphan leases kv)) "orphan_running_task" "orphaned running task" (Some (key_str kv))) snapshots)
  | _, _ => []
  end.
Definition envelope_issues : list issue :=
  (missing_issues ++ hash_issues ++ identity_issues ++ leases_issues ++ events_issues ++
   add_unless checkpoint_ok "checkpoint_invalid" "missing or incompatible checkpoint" None ++ orphan_issues)%list.
End envelope.

(** The orchestrator's [reconcile]: a context is a mapping, or there is none. *)
Definition reconcile (clock : clock_reading) (canonical : option dict) (plan : FleetPlan) (context : option dict) : ReconciliationResult :=
  match context with
  | None => MkReconciliation true [] []
  | Some d =>
      match _strict_copy (VDict d) with
      | Some (VDict raw) => result_of (envelope_issues clock (_plan_digest canonical plan) (map Models.t_id (Models.tasks plan)) raw)
      | _ => result_of [MkIssue "context_invalid" "incompatible reconciliation context" None]
      end
  end.
(** What [run] looks at: nothing, or the first reason and the whole result. *)
Definition verdict (r : ReconciliationResult) : option (string * pyval) :=
  if rc_valid r then None
  else Some (match reasons r with VStr why :: _ => why | _ => "reconciliation blocked" end, VDict (result_dict r)).

(** ** The envelopes that may be resumed *)

Record lease_fits (ids : list string) (generation : Z) (owner : string) (kv : pyval * pyval) : Prop := {
  lf_task : key_str kv ∈ ids;
  lf_lease : ∃ l i, entries kv.2 = Some l ∧ dget_or VNone "lease_id" l = VStr i ∧ blank i = false ∧
    dget_or VNone "owner" l = VStr owner ∧ dget_or VNone "generation" l = VInt generation }.
Record resumable_envelope (clock : clock_reading) (digest : option string) (ids : list string) (raw : dict) : Prop := {
  re_hash : ∃ h, dget "plan_hash" raw = Some (VStr h) ∧ blank h = false ∧ digest = Some h;
  re_run : ∃ r, dget "run_id" raw = Some (VStr r) ∧ blank r = false ∧ (∀ v, dget "expected_run_id" raw = Some v → v = VStr r);
  re_owner : ∃ g o, dget "generation" raw = Some (VInt g) ∧ (0 <= g)%Z ∧ dget "owner" raw = Some (VStr o) ∧ blank o = false ∧
    (∀ v, dget "expected_generation" raw = Some v → v = VInt g) ∧ (∀ v, dget "expected_owner" raw = Some v → v = VStr o) ∧
    ∃ leases, (dget "leases" raw ≫= entries) = Some leases ∧ Forall (lease_fits ids g o) leases ∧
      (∀ snapshots, (dget "snapshots" raw ≫= entries) = Some snapshots → Forall (λ kv, orphan leases kv = false) snapshots);
  re_schema : ∀ v, dget "schema_version" raw = Some v → one_of_values [VNone; VInt 1; VStr "1"; VStr V2_SCHEMA_VERSION] v = true;
  re_events : ∃ events, dget "events" raw = Some (VList events) ∧ map sequence_of events = map VInt (seqZ 1 (Z.of_nat (length events)));
  re_checkpoint : dhas "checkpoint" raw = true ∧ checkpoint_ok clock raw = true }.

Lemma add_nil ok c r t : add_unless ok c r t = [] ↔ ok = true.
Proof. by destruct ok. Qed.
Lemma concat_nil {A B} (f : A → list B) l : concat (map f l) = [] ↔ Forall (λ a, f a = []) l.
Proof.
  induction l as [|a l IH]; cbn; [split; [constructor|done]|]. rewrite app_nil, IH. split; [by intros [? ?]; constructor|]. by inversion 1.
Qed.
Lemma is_name_iff v : is_name v = true ↔ ∃ s, v = VStr s ∧ blank s = false.
Proof. destruct v; cbn; try (split; [done|by intros (? & ? & _)]). rewrite negb_true_iff. naive_solver. Qed.
Lemma is_natural_iff v : is_natural v = true ↔ ∃ n, v = VInt n ∧ (0 <= n)%Z.
Proof. destruct v; cbn; try (split; [done|by intros (? & ? & _)]). rewrite Z.leb_le. naive_solver. Qed.
Lemma get_some k d v : v ≠ VNone → dget_or VNone k d = v ↔ dget k d = Some v.
Proof. intros Hv. unfold dget_or. destruct (dget k d); cbn; split; congruence. Qed.
Lemma stated raw name ok : unless_stated raw name ok = true ↔ (is_Some (dget name raw) → ok = true).
Proof. unfold unless_stated, dhas. destruct (dget name raw); cbn; split; [by intros ->|intros H; by apply H|intros _ [? [=]]|done]. Qed.
Lemma eqb_text a s : py_eqb a (VStr s) = true ↔ a = VStr s.
Proof. destruct a; cbn; try (by split). rewrite bool_decide_eq_true. split; congruence. Qed.
Lemma eqb_text_l s b : py_eqb (VStr s) b = true ↔ b = VStr s.
Proof. destruct b; cbn; try (by split). rewrite bool_decide_eq_true. split; congruence. Qed.
Lemma eqb_int a g : is_exact_int a = true → py_eqb (VInt g) a = true ↔ a = VInt g.
Proof. destruct a as [| |z| | | | | | |]; try done. intros _. change (py_eqb (VInt g) (VInt z)) with (num_eqb (NInt g) (NInt z)). rewrite num_eqb_int, Z.eqb_eq. split; congruence. Qed.
Lemma eqb_int_l a g : py_eqb (VInt g) (VInt a) = true ↔ a = g.
Proof. rewrite eqb_int by done. split; congruence. Qed.

Section exactness.
  Context (clock : clock_reading) (digest : option string) (ids : list string) (raw : dict).
  Notation get k := (dget_or VNone k raw).

Lemma field_name k : is_name (get k) = true ↔ ∃ s, dget k raw = Some (VStr s) ∧ blank s = false.
Proof using. rewrite is_name_iff. split; intros (s & Hs & Hb); exists s; (split; [|done]); by apply get_some in Hs. Qed.
Lemma field_some k v : dget k raw = Some v → get k = v.
Proof using. unfold dget_or. by intros ->. Qed.
Lemma stated_field k (p : pyval → bool) : unless_stated raw k (p (get k)) = true ↔ ∀ v, dget k raw = Some v → p v = true.
Proof using.
  rewrite stated. split; [intros H v Hv; rewrite <- (field_some k v Hv); apply H; by exists v|]. intros H [v Hv]. rewrite (field_some k v Hv). by apply H.
Qed.

Lemma hash_nil : hash_issues digest raw = [] ↔ ∃ h, dget "plan_hash" raw = Some (VStr h) ∧ blank h = false ∧ digest = Some h.
Proof using.
  unfold hash_issues. rewrite app_nil, add_nil, field_name. split.
  - intros [(h & Hh & Hb) Hd]. exists h. do 2 (split; [done|]). destruct digest as [e|]; [|done]. apply add_nil in Hd. rewrite (field_some _ _ Hh) in Hd. cbn in Hd. by bool_inv; subst.
  - intros (h & Hh & Hb & ->). split; [by exists h|]. apply add_nil. rewrite (field_some _ _ Hh). cbn. by rewrite bool_decide_true.
Qed.

Record identity : Prop := {
  id_run : ∃ r, dget "run_id" raw = Some (VStr r) ∧ blank r = false ∧ (∀ v, dget "expected_run_id" raw = Some v → v = VStr r);
  id_generation : ∃ g, dget "generation" raw = Some (VInt g) ∧ (0 <= g)%Z ∧ (∀ v, dget "expected_generation" raw = Some v → v = VInt g);
  id_owner : ∃ o, dget "owner" raw = Some (VStr o) ∧ blank o = false ∧ (∀ v, dget "expected_owner" raw = Some v → v = VStr o);
  id_schema : ∀ v, dget "schema_version" raw = Some v → one_of_values [VNone; VInt 1; VStr "1"; VStr V2_SCHEMA_VERSION] v = true }.
Lemma expected_run_nil r : dget "run_id" raw = Some (VStr r) → blank r = false →
  (if unless_stated raw "expected_run_id" (is_name (get "expected_run_id"))
   then add_unless (unless_stated raw "expected_run_id" (py_eqb (get "run_id") (get "expected_run_id"))) "run_id_drift" "run id drift" None
   else [MkIssue "run_id_invalid" "invalid run id" None]) = [] ↔ (∀ v, dget "expected_run_id" raw = Some v → v = VStr r).
Proof using.
  intros Hr Hb. rewrite (field_some _ _ Hr). pose proof (stated_field "expected_run_id" is_name) as H1. pose proof (stated_field "expected_run_id" (py_eqb (VStr r))) as H2. cbv beta in *.
  destruct (unless_stated raw "expected_run_id" (is_name _)).
  - rewrite add_nil, H2. by setoid_rewrite eqb_text_l.
  - split; [done|]. intros H. assert (false = true); [|done]. apply H1. intros v ->%H. cbn. by rewrite Hb.
Qed.
Lemma identity_nil : dhas "owner" raw = true → identity_issues raw = [] ↔ identity.
Proof using.
  intros Ho. unfold identity_issues. rewrite !app_nil, !add_nil.
  pose proof (stated_field "owner" is_name) as H1. pose proof (stated_field "schema_version" (one_of_values [VNone; VInt 1; VStr "1"; VStr V2_SCHEMA_VERSION])) as H3. cbv beta in *. rewrite H1, H3, field_name. split.
  - intros ((r & Hr & Hb) & (g & Hg & Hg0)%is_natural_iff & He & Hn & Hx & Hs & Hrun). apply get_some in Hg; [|done]. rewrite (field_some _ _ Hg) in He.
    pose proof (stated_field "expected_generation" (λ v, is_exact_int v && py_eqb (VInt g) v)) as H4. cbv beta in H4. rewrite H4 in He.
    apply dhas_true in Ho as [o Ho]. specialize (Hn _ Ho). apply is_name_iff in Hn as (o' & -> & Hb'). rewrite (field_some _ _ Ho) in Hx.
    pose proof (stated_field "expected_owner" (py_eqb (VStr o'))) as H5. cbv beta in H5. rewrite H5 in Hx. constructor; [| | |done].
    + exists r. do 2 (split; [done|]). by apply expected_run_nil.
    + exists g. do 2 (split; [done|]). intros v Hv. specialize (He v Hv). bool_inv. by apply eqb_int.
    + exists o'. do 2 (split; [done|]). intros v Hv. by apply eqb_text_l, Hx.
  - intros [(r & Hr & Hb & Hxr) (g & Hg & Hg0 & Hxg) (o & Hoo & Hbo & Hxo) Hsch]. split; [by exists r|]. rewrite (field_some _ _ Hg).
    split; [by apply Z.leb_le|]. pose proof (stated_field "expected_generation" (λ v, is_exact_int v && py_eqb (VInt g) v)) as H4. cbv beta in H4. rewrite H4.
    split; [intros v ->%Hxg; cbn [is_exact_int andb]; by apply eqb_int|]. split; [intros v Hv; rewrite Hoo in Hv; injection Hv as <-; cbn; by rewrite Hbo|].
    rewrite (field_some _ _ Hoo). pose proof (stated_field "expected_owner" (py_eqb (VStr o))) as H5. cbv beta in H5. rewrite H5.
    split; [intros v Hv; by apply eqb_text_l, Hxo|]. split; [done|]. by apply (expected_run_nil r).
Qed.

Lemma lease_nil g o kv : dget "generation" raw = Some (VInt g) → dget "owner" raw = Some (VStr o) → (0 <= g)%Z → blank o = false →
  lease_issues ids raw kv = [] ↔ lease_fits ids g o kv.
Proof using.
  intros Hg Ho Hg0 Hb. unfold lease_issues. cbv zeta. rewrite app_nil, add_nil, bool_decide_eq_true.
  assert (∀ ok, unless_stated raw "owner" ok = ok) as Hst by (intros ok; unfold unless_stated, dhas; by rewrite Ho). rewrite (field_some _ _ Hg), (field_some _ _ Ho). split.
  - intros [Ht H]. destruct (entries kv.2) as [l|] eqn:El; [|by rewrite bool_decide_true in H]. apply app_nil in H as [H1 H2]. destruct (lease_shape l) eqn:Hs; [|done].
    apply add_nil in H1, H2. rewrite Hst in H1. cbn [negb orb] in H2. apply eqb_text in H1. unfold lease_shape in Hs. bool_inv.
    match goal with E : is_name (dget_or VNone "lease_id" l) = true |- _ => apply is_name_iff in E as (i & Hi & Hbi) end.
    match goal with E : is_natural _ = true |- _ => apply is_natural_iff in E as (n & Hn & Hn0) end. rewrite Hn in H2. apply eqb_int_l in H2 as ->.
    constructor; [done|]. exists l, i. by repeat split.
  - intros [Ht (l & i & El & Hi & Hbi & Hlo & Hln)]. split; [done|]. rewrite El.
    assert (lease_shape l = true) as -> by (unfold lease_shape; rewrite Hi, Hlo, Hln; cbn; rewrite Hbi, Hb; cbn; by apply Z.leb_le).
    rewrite Hst, Hlo, Hln. cbn [negb orb]. apply app_nil. split; apply add_nil; [by apply eqb_text|by apply eqb_int_l].
Qed.

Lemma numbered_iff events : numbered events = true ↔ map sequence_of events = map VInt (seqZ 1 (Z.of_nat (length events))).
Proof using.
  unfold numbered. assert (∀ l ns, mapM (λ e, as_int (sequence_of e)) l = Some ns ↔ map sequence_of l = map VInt ns) as Hm.
  { induction l as [|e l IH]; intros ns; cbn; [destruct ns; cbn; split; try done; by intros [=]|]. destruct (sequence_of e) as [| |z| | | | | | |]; cbn; try (split; [done|by destruct ns]).
    specialize (IH (tail ns)). destruct (mapM _ l) as [k|]; cbn in *.
    - split; [intros [= <-]; cbn in *; f_equal; by apply IH|]. destruct ns as [|n ns]; [done|]. cbn in *. intros [= -> H]. f_equal. f_equal. apply IH in H. congruence.
    - split; [done|]. destruct ns as [|n ns]; [done|]. cbn in *. intros [= -> H]. by apply IH in H. }
  destruct (mapM _ events) as [ns|] eqn:E.
  - apply Hm in E as E'. rewrite bool_decide_eq_true. split; [by intros <-|]. intros H. rewrite E' in H. clear -H. revert H. generalize (seqZ 1 (Z.of_nat (length events))). induction ns as [|n ns IH]; intros [|m k]; try done. cbn. intros [= -> H]. f_equal. by apply IH.
  - split; [done|]. intros H%Hm. congruence.
Qed.
End exactness.

Lemma required_nil raw : missing_issues raw = [] ↔ ∀ k, k ∈ REQUIRED → dhas k raw = true.
Proof. unfold missing_issues. rewrite concat_nil, Forall_forall. by setoid_rewrite add_nil. Qed.
Lemma entries_get raw k : (dget k raw ≫= entries) = entries (dget_or VNone k raw).
Proof. unfold dget_or. by destruct (dget k raw). Qed.

Lemma envelope_exact clock digest ids raw : envelope_issues clock digest ids raw = [] ↔ resumable_envelope clock digest ids raw.
Proof.
  unfold envelope_issues. rewrite !app_nil, required_nil, hash_nil, add_nil. split.
  - intros (Hm & Hh & Hi & Hl & He & Hc & Ho). assert (dhas "owner" raw = true) as Hown by (apply Hm; set_solver).
    apply identity_nil in Hi; [|done]. destruct Hi as [Hr (g & Hg & Hg0 & Hxg) (o & Hoo & Hb & Hxo) Hs].
    constructor; [done|done| |done| |split; [apply Hm; set_solver|done]].
    + exists g, o. do 6 (split; [done|]). unfold leases_issues, orphan_issues in *. rewrite <- !entries_get in *. destruct (dget "leases" raw ≫= entries) as [leases|]; [|done].
      exists leases. split; [done|]. split.
      * apply concat_nil in Hl. eapply Forall_impl; [exact Hl|]. intros kv. by apply lease_nil.
      * intros snaps Hsn. rewrite Hsn in Ho. apply concat_nil in Ho. eapply Forall_impl; [exact Ho|]. intros kv H%add_nil. by bool_inv.
    + unfold events_issues in He. assert (dhas "events" raw = true) as [ev Hev]%dhas_true by (apply Hm; set_solver). rewrite (field_some _ _ _ Hev) in He.
      destruct ev as [| | | | |events| | | |]; try done. exists events. split; [done|]. apply add_nil in He. by apply numbered_iff.
  - intros [(h & Hh & Hb & Hd) Hr (g & o & Hg & Hg0 & Hoo & Hbo & Hxg & Hxo & leases & Hl & Hfits & Horph) Hs (events & Hev & Hseq) [Hck Hc]].
    assert (Hown : dhas "owner" raw = true) by (apply dhas_true; eauto).
    split.
    { destruct Hr as (r & Hr & _). intros k. unfold REQUIRED. rewrite !elem_of_cons, elem_of_nil. intros Hk.
      assert (dhas "leases" raw = true) by (unfold dhas; by destruct (dget "leases" raw)).
      destruct Hk as [->|[->|[->|[->|[->|[->|[->|[]]]]]]]]; try done; apply dhas_true; eauto. }
    split; [by exists h|]. split; [apply identity_nil; [done|]; constructor; [done|by exists g|by exists o|done]|].
    split; [unfold leases_issues; rewrite <- entries_get, Hl; apply concat_nil; eapply Forall_impl; [exact Hfits|]; intros kv; by apply lease_nil|].
    split; [unfold events_issues; rewrite (field_some _ _ _ Hev); apply add_nil; by apply numbered_iff|]. split; [done|].
    unfold orphan_issues. rewrite <- !entries_get, Hl. destruct (dget "snapshots" raw ≫= entries) as [snaps|] eqn:E; [|done].
    apply concat_nil. eapply Forall_impl; [by apply Horph|]. intros kv Hkv. apply add_nil. by rewrite Hkv.
Qed.

Lemma result_valid issues : rc_valid (result_of issues) = true ↔ issues = [].
Proof.
  unfold result_of. cbn [rc_valid]. pose proof (length_sort_by issue_leb issues) as Hn. destruct (sort_by issue_leb issues), issues; cbn in Hn; try done.
Qed.

(** C23: A V2 context lets a run proceed exactly when it is a strict copy of
    itself with a resumable envelope: the plan's own hash, a run, owner and
    generation that meet what is expected of them, leases of the plan's tasks
    held by that owner at that generation, events numbered from 1, a checkpoint
    that loads and no running task without a lease.  Otherwise [run] returns at
    once, with every task blocked, and does nothing. *)
Theorem reconcile_gates clock canonical plan context max timeout dry gates gate_dict ctx run_id feature created now wall dispatch commit s :
  let r := reconcile clock canonical plan (Some context) in
  (rc_valid r = true ↔ ∃ raw, _strict_copy (VDict context) = Some (VDict raw) ∧ resumable_envelope clock (_plan_digest canonical plan) (map Models.t_id (Models.tasks plan)) raw) ∧
  (rc_valid r = false → ∃ why, Orchestrator.run plan canonical max timeout dry gates gate_dict ctx run_id feature created (verdict r) now wall dispatch commit s =
     (s, Ok (blocked_result plan why (VDict (result_dict r))))).
Proof.
  cbv zeta. split.
  - unfold reconcile. destruct (_strict_copy (VDict context)) as [v|] eqn:E.
    + assert (∃ raw, v = VDict raw) as [raw ->] by (cbn [_strict_copy] in E; apply fmap_Some in E as (l & _ & ->); by exists l).
      rewrite result_valid, envelope_exact. split; [by exists raw|]. intros (raw' & [= ->] & H). done.
    + rewrite result_valid. split; [done|]. by intros (? & ? & _).
  - intros Hr. unfold verdict. rewrite Hr. eexists. unfold Orchestrator.run. done.
Qed.

(** ** Examples *)

Definition ex_plan : FleetPlan := demo_plan 1 [("a", []); ("b", ["a"])].
Definition ex_hash : string := Eval vm_compute in default "" (_plan_digest None ex_plan).
Definition ex_lease (owner : string) : pyval := VDict [(VStr "lease_id", VStr "L1"); (VStr "owner", VStr owner); (VStr "generation", VInt 3)].
Definition ex_context (owner : string) (leases : dict) (snapshots : dict) : dict :=
  [(VStr "plan_hash", VStr ex_hash); (VStr "run_id", VStr "r1"); (VStr "expected_run_id", VStr "r1"); (VStr "generation", VInt 3); (VStr "owner", VStr owner);
   (VStr "leases", VDict leases); (VStr "events", VList [VDict [(VStr "sequence", VInt 1)]; VDict [(VStr "seq", VInt 2)]]);
   (VStr "checkpoint", VDict [(VStr "feature", VStr "fleet"); (VStr "created_at", VStr "2024-01-01T00:00:00+00:00"); (VStr "tasks", VDict [])]);
   (VStr "snapshots", VDict snapshots)].
Definition ex_running : dict := [(VStr "a", VDict [(VStr "status", VStr "running")])].
Definition ex_reconcile (owner : string) (leases snapshots : dict) : ReconciliationResult :=
  reconcile no_clock None ex_plan (Some (ex_context owner leases snapshots)).
Definition codes (r : ReconciliationResult) : list pyval := map (λ x, match entries x with Some d => dget_or VNone "code" d | None => VNone end) (rc_issues r).
Example valid_ex : ex_reconcile "w" [(VStr "a", ex_lease "w")] ex_running = MkReconciliation true [] [VDict [(VStr "type", VStr "reconciliation"); (VStr "status", VStr "valid"); (VStr "reason", VStr "reconciliation valid")]].
Proof. vm_compute. done. Qed.
Example blocked_ex : codes (ex_reconcile "w" [(VStr "c", ex_lease "v")] ex_running) = [VStr "lease_owner_mismatch"; VStr "lease_task_mismatch"; VStr "orphan_running_task"].
Proof. vm_compute. done. Qed.
(** An empty mapping is a context that lacks everything. *)
Example missing_ex : codes (reconcile no_clock None ex_plan (Some [])) =
  map VStr ["checkpoint_invalid"; "events_invalid"; "generation_invalid"; "leases_invalid"; "missing_checkpoint"; "missing_events"; "missing_generation";
    "missing_leases"; "missing_owner"; "missing_plan_hash"; "missing_run_id"; "plan_hash_invalid"; "run_id_invalid"].
Proof. vm_compute. done. Qed.
Example copy_ex : codes (reconcile no_clock None ex_plan (Some [(VStr " ", VNone)])) = [VStr "context_invalid"].
Proof. vm_compute. done. Qed.

Lemma ex_valid : rc_valid (ex_reconcile "w" [(VStr "a", ex_lease "w")] ex_running) = true.
Proof. by rewrite valid_ex. Qed.
Lemma ex_blocked : rc_valid (ex_reconcile "w" [] ex_running) = false.
Proof. vm_compute. done. Qed.
Example reconcile_gates_witness :
  (∃ raw, _strict_copy (VDict (ex_context "w" [(VStr "a", ex_lease "w")] ex_running)) = Some (VDict raw) ∧ resumable_envelope no_clock (_plan_digest None ex_plan) (map Models.t_id (Models.tasks ex_plan)) raw) ∧
  (∃ why, Orchestrator.run ex_plan None 2 None false [] (λ _, VNone) None VNone "fleet" "now" (verdict (ex_reconcile "w" [] ex_running)) (λ _, S754_zero false) (λ _ _, 0%Z) (λ _ _ _, good) None (demo_start ex_plan) =
     (demo_start ex_plan, Ok (blocked_result ex_plan why (VDict (result_dict (ex_reconcile "w" [] ex_running)))))).
Proof.
  split.
  - exact (proj1 (proj1 (reconcile_gates no_clock None ex_plan (ex_context "w" [(VStr "a", ex_lease "w")] ex_running) 2 None false [] (λ _, VNone) None VNone "fleet" "now"
      (λ _, S754_zero false) (λ _ _, 0%Z) (λ _ _ _, good) None (demo_start ex_plan))) ex_valid).
  - exact (proj2 (reconcile_gates no_clock None ex_plan (ex_context "w" [] ex_running) 2 None false [] (λ _, VNone) None VNone "fleet" "now"
      (λ _, S754_zero false) (λ _ _, 0%Z) (λ _ _ _, good) None (demo_start ex_plan)) ex_blocked).
Defined.
