(* ===== verification/TuiContract.v ===== *)
(** * The read-only TUI contract (scripts/pd_fleet/tui_readonly_contract.py)

    Snapshot requests, the bindings a host resolves, their leases, and the
    bounded registry that issues, resolves and revokes leases; the response to a
    request.  Every method of the registry runs under its lock and is one step;
    what the injected clock gives (or that it raises) is an argument.  A
    frozenset is the list of its distinct elements. *)

From S2P Require Import Prelude PyStr PyNum PyVal Regex.
From S2P Require GatewayBridge.

Open Scope string_scope.

Notation dict := (list (pyval * pyval)).
Notation OwnershipMode := GatewayBridge.OwnershipMode.
Notation SessionSnapshot := GatewayBridge.SessionSnapshot.
#[local] Existing Instance GatewayBridge.ownership_eq_dec.

Definition TUI_SNAPSHOT_METHOD : string := "pd-fleet.session.snapshot".
Definition TUI_SCHEMA_VERSION : string := "pd-fleet-tui-session:v1".
Definition _OBSERVE_CAPABILITY : string := "observe_session_metadata".
Definition MAX_CAPABILITIES : nat := 16.
Definition MAX_CAPABILITY_BYTES : nat := 64.
Definition MAX_BINDING_TTL : Z := 300.
Definition MAX_BINDINGS : Z := 128.

Inductive tui_error : Type :=
| INVALID_REQUEST | UNSUPPORTED_SCHEMA | INVALID_BINDING | CAPABILITY_DENIED | INVALID_LEASE | INVALID_REGISTRY | INVALID_TIME | INVALID_CLOCK | CLOCK_ROLLBACK
| INVALID_TTL | REGISTRY_FULL | STALE_EPOCH | BINDING_NOT_FOUND | BINDING_MISMATCH | BINDING_REVOKED | BINDING_EXPIRED | MALFORMED_HOST_RESULT
| SESSION_BINDING_MISMATCH | PAYLOAD_TOO_LARGE
| BridgeFailure (e : GatewayBridge.bridge_error).
Notation tres := (res tui_error).

(** ** Requests and bindings *)

Definition rest_char (c : ascii) : bool := is_alnum c || one_of "._-" c.
Definition _REF (s : string) : bool := ident is_alnum rest_char (Some 127%nat) s.
Definition _CAPABILITY (s : string) : bool := ident is_alnum rest_char (Some 63%nat) s.
(** The same words as the pattern of the bridge contracts. *)
Definition _SENSITIVE : re :=
  ralt [rlit_ci "prompt"; rlit_ci "history"; rlit_ci "message"; rlit_ci "tool"; rlit_ci "provider"; rlit_ci "credential"; rlit_ci "secret"; rlit_ci "token";
        rlit_ci "password"; rlit_ci "terminal"; rlit_ci "path"; rlit_ci "url"; rlit_ci "uri"; rlit_ci "authorization"; rlit_ci "cookie";
        rseq [rlit_ci "api"; ropt (RChar (λ c, negb (code c =? 10)%nat)); rlit_ci "key"]].
Definition sensitive (s : string) : bool := search _SENSITIVE s.
#[local] Arguments sensitive : simpl never.
Definition ref_ok (s : string) : bool := _REF s && negb (sensitive s).
Definition _ref (v : pyval) : tres string :=
  match v with VStr s => if ref_ok s then Ok s else Err INVALID_REQUEST | _ => Err INVALID_REQUEST end.

Record TuiSnapshotRequest : Type := MkRequest { rq_session : string }.
Definition new_request (session schema : pyval) : tres TuiSnapshotRequest :=
  s ← _ref session; _ ← ensure (key_is TUI_SCHEMA_VERSION schema) UNSUPPORTED_SCHEMA; Ok (MkRequest s).
Definition request_from_dict (value : pyval) : tres TuiSnapshotRequest :=
  match entries value with
  | Some d =>
      _ ← ensure (negb (has_unknown ["session_id"; "schema_version"] d) && dhas "session_id" d && dhas "schema_version" d) INVALID_REQUEST;
      new_request (dget_or VNone "session_id" d) (dget_or VNone "schema_version" d)
  | None => Err INVALID_REQUEST
  end.

Record TuiHostBinding : Type := MkBinding {
  observer_ref : string; owner_ref : string; profile_ref : string; workspace_ref : string; association_ref : string; session_ref : string;
  authenticated : bool; capabilities : gset string }.
Definition binding_ref (v : pyval) : tres string := match _ref v with Ok s => Ok s | Err _ => Err INVALID_BINDING end.
Definition capability (v : pyval) : option string :=
  match v with
  | VStr s => if _CAPABILITY s && nonempty s && (GatewayBridge.byte_count s <=? MAX_CAPABILITY_BYTES)%nat && negb (sensitive s) then Some s else None
  | _ => None
  end.
(** [OwnershipMode(x)], which an accepted binding has as USER_OWNED_SESSION. *)
Definition mode_of (m : OwnershipMode + pyval) : tres OwnershipMode := match GatewayBridge.ownership_of m with Ok o => Ok o | Err _ => Err INVALID_BINDING end.
(** [caps] is [None] when the argument is no frozenset. *)
Definition new_binding (observer owner profile workspace association session auth : pyval) (caps : option (list pyval)) (mode : OwnershipMode + pyval) : tres TuiHostBinding :=
  b ← binding_ref observer; w ← binding_ref owner; p ← binding_ref profile; k ← binding_ref workspace; a ← binding_ref association; s ← binding_ref session;
  match auth with
  | VBool authentic =>
      match caps with
      | Some l =>
          _ ← ensure (length l <=? MAX_CAPABILITIES)%nat INVALID_BINDING;
          match mapM capability l with
          | Some names =>
              m ← mode_of mode;
              _ ← ensure (bool_decide (m = GatewayBridge.USER_OWNED_SESSION)) CAPABILITY_DENIED;
              Ok (MkBinding b w p k a s authentic (list_to_set names))
          | None => Err INVALID_BINDING
          end
      | None => Err INVALID_BINDING
      end
  | _ => Err INVALID_BINDING
  end.

(** ** Leases *)

Record TuiBindingLease : Type := MkLease { binding : TuiHostBinding; epoch : Z; issued_at : pynum; expires_at : pynum; status : string }.
(** The number, and [float] of it; [float] of a huge integer is [OverflowError]. *)
Definition number (v : pyval) : option (pynum * spec_float) :=
  match v with VInt z => f ← float_of_Z z; Some (NInt z, f) | VFloat f => Some (NFloat f, f) | _ => None end.
Definition time_ok (f : spec_float) : bool := is_finite f && fgeZ f 0.
Definition LEASE_STATUSES : list string := ["active"; "expired"; "revoked"].
Definition new_lease (b : option TuiHostBinding) (n issued expires st : pyval) : tres TuiBindingLease :=
  match b, n, number issued, number expires, st with
  | Some b, VInt n, Some (i, fi), Some (x, fx), VStr st =>
      let duration := fsub fx fi in
      if (0 <? n)%Z && time_ok fi && time_ok fx && negb (num_leb (NFloat duration) (NInt 0)) && negb (fgtZ duration MAX_BINDING_TTL) && bool_decide (st ∈ LEASE_STATUSES)
      then Ok (MkLease b n i x st) else Err INVALID_LEASE
  | _, _, _, _, _ => Err INVALID_LEASE
  end.
Definition num_pyval (n : pynum) : pyval := match n with NInt z => VInt z | NFloat f => VFloat f end.
(** [replace(lease, status=st)] constructs the lease again. *)
Definition replace_status (l : TuiBindingLease) (st : string) : tres TuiBindingLease :=
  new_lease (Some (binding l)) (VInt (epoch l)) (num_pyval (issued_at l)) (num_pyval (expires_at l)) (VStr st).

(** ** The registry *)

Record TuiBindingRegistry : Type := MkRegistry { _max_bindings : Z; _last_now : option spec_float; _records : gmap string TuiBindingLease }.
Notation reg := (stm TuiBindingRegistry tui_error).
Definition new_registry (clock_callable : bool) (max_bindings : pyval) : tres TuiBindingRegistry :=
  match max_bindings with
  | VInt n => if clock_callable && (0 <? n)%Z && (n <=? MAX_BINDINGS)%Z then Ok (MkRegistry n None ∅) else Err INVALID_REGISTRY
  | _ => Err INVALID_REGISTRY
  end.
Definition set_now (now : spec_float) (r : TuiBindingRegistry) : TuiBindingRegistry := MkRegistry (_max_bindings r) (Some now) (_records r).
Definition set_record (s : string) (l : TuiBindingLease) (r : TuiBindingRegistry) : TuiBindingRegistry := MkRegistry (_max_bindings r) (_last_now r) (<[s := l]> (_records r)).
Definition _time (v : pyval) : tres spec_float :=
  match number v with Some (_, f) => if time_ok f then Ok f else Err INVALID_TIME | None => Err INVALID_TIME end.
Definition rolled_back (last : option spec_float) (now : spec_float) : bool := match last with Some t => fltb now t | None => false end.
(** [None]: the clock raises. *)
Definition _now (raw : option pyval) : reg spec_float :=
  raw ← lift_res (match raw with Some v => Ok v | None => Err INVALID_CLOCK end);
  now ← lift_res (_time raw);
  r ← get_state;
  _ ← ensure_st (negb (rolled_back (_last_now r) now)) CLOCK_ROLLBACK;
  _ ← modify (set_now now);
  mret now.
Definition read_ttl (ttl : pyval) : tres spec_float :=
  match number ttl with
  | Some (_, f) => if is_finite f && num_ltb (NInt 0) (NFloat f) && num_leb (NFloat f) (NInt MAX_BINDING_TTL) then Ok f else Err INVALID_TTL
  | None => Err INVALID_TTL
  end.
Definition has_room (s : string) (r : TuiBindingRegistry) : bool := bool_decide (is_Some (_records r !! s)) || (Z.of_nat (size (_records r)) <? _max_bindings r)%Z.
Definition _issue (b : option TuiHostBinding) (ttl : pyval) (raw : option pyval) : reg TuiBindingLease :=
  b ← lift_res (match b with Some b => Ok b | None => Err INVALID_BINDING end);
  ttl ← lift_res (read_ttl ttl);
  r ← get_state;
  _ ← ensure_st (has_room (session_ref b) r) REGISTRY_FULL;
  now ← _now raw;
  r ← get_state;
  lease ← lift_res (new_lease (Some b) (VInt (match _records r !! session_ref b with None => 1 | Some prior => epoch prior + 1 end)) (VFloat now) (VFloat (fadd now ttl)) (VStr "active"));
  _ ← modify (set_record (session_ref b) lease);
  mret lease.
Definition expired (l : TuiBindingLease) (now : spec_float) : bool := num_leb (expires_at l) (NFloat now).
Definition _resolve (session observer n : pyval) (raw : option pyval) : reg TuiBindingLease :=
  s ← lift_res (_ref session);
  o ← lift_res (_ref observer);
  n ← lift_res (match n with VInt n => if (0 <? n)%Z then Ok n else Err STALE_EPOCH | _ => Err STALE_EPOCH end);
  r ← get_state;
  lease ← lift_res (match _records r !! s with Some l => Ok l | None => Err BINDING_NOT_FOUND end);
  _ ← ensure_st (epoch lease =? n)%Z STALE_EPOCH;
  _ ← ensure_st (bool_decide (observer_ref (binding lease) = o)) BINDING_MISMATCH;
  _ ← ensure_st (negb (bool_decide (status lease = "revoked"))) BINDING_REVOKED;
  _ ← ensure_st (negb (bool_decide (status lease = "expired"))) BINDING_EXPIRED;
  now ← _now raw;
  if expired lease now
  then (ended ← lift_res (replace_status lease "expired"); _ ← modify (set_record s ended); raise BINDING_EXPIRED)
  else mret lease.
Definition _revoke (session : pyval) : reg bool :=
  s ← lift_res (_ref session);
  r ← get_state;
  match _records r !! s with
  | None => mret false
  | Some lease =>
      if bool_decide (status lease = "revoked") then mret true
      else (ended ← lift_res (replace_status lease "revoked"); _ ← modify (set_record s ended); mret true)
  end.

(** ** The response *)

Definition SESSION_KEYS : list string := ["session_ref"; "association_ref"; "ownership_mode"; "status"; "stream_epoch"; "sequence"; "metadata_version"].
Definition response_of (session : dict) : dict :=
  [(VStr "method", VStr TUI_SNAPSHOT_METHOD); (VStr "schema_version", VStr TUI_SCHEMA_VERSION); (VStr "redacted", VBool true); (VStr "capability", VStr _OBSERVE_CAPABILITY);
   (VStr "session", VDict session)].
Definition bounded (response : dict) : tres dict :=
  match GatewayBridge.canonical_json (VDict response) with
  | Ok text => _ ← ensure (GatewayBridge.within GatewayBridge.MAX_ENVELOPE_BYTES text) PAYLOAD_TOO_LARGE; Ok response
  | Err e => Err (BridgeFailure e)
  end.
(** [None] is an argument of another class. *)
Definition build_snapshot_response (request : option TuiSnapshotRequest) (b : option TuiHostBinding) (snapshot : option SessionSnapshot) : tres dict :=
  match request, b with
  | Some request, Some b =>
      match snapshot with
      | Some snapshot =>
          _ ← ensure (authenticated b && bool_decide (_OBSERVE_CAPABILITY ∈ capabilities b)) CAPABILITY_DENIED;
          _ ← ensure (bool_decide (rq_session request = session_ref b) && bool_decide (GatewayBridge.sn_session snapshot = session_ref b)) SESSION_BINDING_MISMATCH;
          _ ← ensure (bool_decide (GatewayBridge.sn_association snapshot = association_ref b)) SESSION_BINDING_MISMATCH;
          _ ← ensure (bool_decide (GatewayBridge.sn_mode snapshot = GatewayBridge.USER_OWNED_SESSION)) CAPABILITY_DENIED;
          let session := GatewayBridge.snapshot_dict snapshot in
          _ ← ensure (negb (has_unknown SESSION_KEYS session) && forallb (λ k, dhas k session) SESSION_KEYS) MALFORMED_HOST_RESULT;
          bounded (response_of session)
      | None => Err MALFORMED_HOST_RESULT
      end
  | _, _ => Err INVALID_REQUEST
  end.

(** ** Histories of calls *)

Inductive call : Type := Issue (b : option TuiHostBinding) (ttl : pyval) (raw : option pyval) | Resolve (session observer n : pyval) (raw : option pyval) | Revoke (session : pyval).
Inductive answer : Type := ALease (l : TuiBindingLease) | AFlag (found : bool).
Definition step (c : call) : reg answer :=
  match c with
  | Issue b ttl raw => (l ← _issue b ttl raw; mret (ALease l))
  | Resolve s o n raw => (l ← _resolve s o n raw; mret (ALease l))
  | Revoke s => (b ← _revoke s; mret (AFlag b))
  end.
Notation history := (list (call * tres answer)).
Definition play1 (x : TuiBindingRegistry * history) (c : call) : TuiBindingRegistry * history := let '(r, a) := step c x.1 in (r, x.2 ++ [(c, a)])%list.
Definition play (r : TuiBindingRegistry) (calls : list call) : TuiBindingRegistry * history := fold_left play1 calls (r, []).

(** What a history says of a session: the leases issued for it, and the last of
    them with whether it is still open. *)
Definition issued_now (s : string) (e : call * tres answer) : option TuiBindingLease :=
  match e with (Issue _ _ _, Ok (ALease l)) => if bool_decide (session_ref (binding l) = s) then Some l else None | _ => None end.
Definition issued_in (s : string) (h : history) : list TuiBindingLease := omap (issued_now s) h.
Definition closes (s : string) (e : call * tres answer) : bool :=
  match e with (Resolve v _ _ _, Err BINDING_EXPIRED) => key_is s v | (Revoke v, Ok (AFlag true)) => key_is s v | _ => false end.
Definition follow (s : string) (st : option (TuiBindingLease * bool)) (e : call * tres answer) : option (TuiBindingLease * bool) :=
  match issued_now s e with Some l => Some (l, true) | None => if closes s e then (λ st, (st.1, false)) <$> st else st end.
Definition current (s : string) (h : history) : option (TuiBindingLease * bool) := fold_left (follow s) h None.

(** ** Leases of a registry *)

Lemma number_again v n f : number v = Some (n, f) → number (num_pyval n) = Some (n, f).
Proof. destruct v; cbn; try done; [|by intros [= <- <-]]. destruct (float_of_Z z) eqn:E; cbn; [|done]. intros [= <- <-]. cbn. by rewrite E. Qed.
Lemma new_lease_ok b n i x st l : new_lease b n i x st = Ok l → ∀ st', st' ∈ LEASE_STATUSES →
  replace_status l st' = Ok (MkLease (binding l) (epoch l) (issued_at l) (expires_at l) st').
Proof.
  unfold new_lease. destruct b as [b|]; [|done]. destruct n as [| |n| | | | | | |]; try done.
  destruct (number i) as [[i' fi]|] eqn:Hi; [|done]. destruct (number x) as [[x' fx]|] eqn:Hx; [|done]. destruct st; try done.
  destruct (_ && _) eqn:E; [|done]. intros [= <-] st' Hst. unfold replace_status, new_lease. cbn [binding epoch issued_at expires_at].
  rewrite (number_again _ _ _ Hi), (number_again _ _ _ Hx). apply andb_true_iff in E as [-> _]. by rewrite bool_decide_true.
Qed.
Lemma new_lease_fields b n i x l : new_lease (Some b) (VInt n) (VFloat i) (VFloat x) (VStr "active") = Ok l → l = MkLease b n (NFloat i) (NFloat x) "active" ∧ (0 < n)%Z.
Proof. unfold new_lease. cbn [number]. destruct (_ && _) eqn:E; [|done]. intros [= <-]. bool_inv. split; [done|]. lia. Qed.

Definition reading (raw : option pyval) : option spec_float := raw ≫= λ v, match _time v with Ok f => Some f | Err _ => None end.
Lemma stm_now {B} raw (f : spec_float → reg B) r : (x ← _now raw; f x) r =
  match reading raw with
  | Some now => if rolled_back (_last_now r) now then (r, Err CLOCK_ROLLBACK) else f now (set_now now r)
  | None => (r, Err (match raw with Some _ => INVALID_TIME | None => INVALID_CLOCK end))
  end.
Proof.
  unfold mbind, stm_bind at 1, _now. rewrite stm_lift. destruct raw as [v|]; [|done]. unfold reading. cbn [mbind option_bind]. rewrite stm_lift. unfold _time.
  destruct (number v) as [[n t]|]; [|done]. destruct (time_ok t); [|done]. rewrite stm_get, stm_ensure. by destruct (rolled_back _ _).
Qed.

(** ** The invariant of the registry *)

(** A lease as issued, with the status the registry keeps. *)
Definition keeps (kept : TuiBindingLease) (st : TuiBindingLease * bool) : Prop :=
  ∃ word, kept = MkLease (binding st.1) (epoch st.1) (issued_at st.1) (expires_at st.1) word ∧ word ∈ LEASE_STATUSES ∧ (st.2 = true ↔ word = "active").
Record issued_lease (s : string) (l : TuiBindingLease) : Prop := {
  is_session : session_ref (binding l) = s;
  is_active : status l = "active";
  is_closable : ∀ word, word ∈ LEASE_STATUSES → replace_status l word = Ok (MkLease (binding l) (epoch l) (issued_at l) (expires_at l) word) }.
Record session_state (r : TuiBindingRegistry) (h : history) (s : string) : Prop := {
  ss_record : option_Forall2 keeps (_records r !! s) (current s h);
  ss_last : fst <$> current s h = last (issued_in s h);
  ss_epochs : map epoch (issued_in s h) = seqZ 1 (Z.of_nat (length (issued_in s h)));
  ss_issued : Forall (issued_lease s) (issued_in s h) }.
Record inv (max : Z) (r : TuiBindingRegistry) (h : history) : Prop := {
  inv_max : _max_bindings r = max;
  inv_size : (Z.of_nat (size (_records r)) <= max)%Z;
  inv_session : ∀ s, session_state r h s }.

Lemma current_snoc s h e : current s (h ++ [e]) = follow s (current s h) e.
Proof. unfold current. by rewrite fold_left_app. Qed.
Lemma issued_snoc s h e : issued_in s (h ++ [e]) = (issued_in s h ++ match issued_now s e with Some l => [l] | None => [] end)%list.
Proof. unfold issued_in. rewrite omap_app. cbn. by destruct (issued_now s e). Qed.

Lemma seqZ_single n : seqZ n (Z.of_nat 1) = [n].
Proof. done. Qed.
(** A call that leaves the records of a session, and says nothing of it. *)
Lemma session_same r r' h s e : session_state r h s → issued_now s e = None → closes s e = false → _records r' !! s = _records r !! s → session_state r' (h ++ [e]) s.
Proof.
  intros [H1 H2 H3 H4] Hi Hc Hr. constructor; rewrite ?current_snoc, ?issued_snoc; unfold follow; rewrite Hi, ?Hc, ?Hr, ?app_nil_r; done.
Qed.
(** A call that ends the lease of a session. *)
Lemma session_closed r r' h s e kept word : session_state r h s → issued_now s e = None → closes s e = true → _records r !! s = Some kept →
  _records r' !! s = Some (MkLease (binding kept) (epoch kept) (issued_at kept) (expires_at kept) word) → word ∈ LEASE_STATUSES → word ≠ "active" → session_state r' (h ++ [e]) s.
Proof.
  intros [H1 H2 H3 H4] Hi Hc Hr Hr' Hw Hna. rewrite Hr in H1. inversion H1 as [k [l o] (w & Hk & Hws & Hwo) E1 E2|]. symmetry in E2. cbn [fst] in Hk. subst k kept.
  constructor; rewrite ?current_snoc, ?issued_snoc; unfold follow; rewrite Hi, ?Hc, ?app_nil_r; [| |done|done].
  - rewrite Hr', E2. cbn. constructor. exists word. cbn. split; [done|]. split; [done|]. split; [done|by intros ->].
  - rewrite <- H2, E2. done.
Qed.
Lemma session_issued r r' h s e l : session_state r h s → issued_now s e = Some l → epoch l = (match _records r !! s with None => 1 | Some p => epoch p + 1 end)%Z →
  issued_lease s l → _records r' !! s = Some l → session_state r' (h ++ [e]) s.
Proof.
  intros [H1 H2 H3 H4] Hi He Hl Hr'. constructor; rewrite ?current_snoc, ?issued_snoc; unfold follow; rewrite Hi.
  - rewrite Hr'. constructor. exists "active". destruct Hl as [_ Ha _]. cbn. split; [destruct l; cbn in *; by subst|]. split; [|done]. set_solver.
  - by rewrite last_snoc.
  - rewrite map_app, H3, length_app, Nat2Z.inj_add. cbn [map length]. rewrite seqZ_app by lia. f_equal. rewrite seqZ_single. f_equal. rewrite He.
    destruct (_records r !! s) as [p|]; inversion H1 as [k' [l' o] (w & Hk' & _) E1 E2|E1 E2].
 
    + cbn [fst] in Hk'. subst k' p. rewrite <- E2 in H2. cbn in *. symmetry in H2. apply last_Some in H2 as [k Hk]. rewrite Hk in H3 |- *. rewrite map_app, length_app, Nat2Z.inj_add, seqZ_app in H3 by lia. cbn [length] in H3. rewrite seqZ_single in H3.
      apply app_inj_2 in H3 as [_ H3]; [|done]. cbn in H3. rewrite length_app. cbn. injection H3 as ->. lia.
    + rewrite <- E2 in H2. symmetry in H2. apply last_None in H2. by rewrite H2.
  - apply Forall_app. split; [done|]. by apply Forall_singleton.
Qed.

(** ** Outcomes of the methods *)

Lemma issue_outcome b ttl raw r r' a : _issue b ttl raw r = (r', a) →
  (_records r' = _records r ∧ _max_bindings r' = _max_bindings r ∧ ∃ e, a = Err e) ∨
  (∃ b0 l now, b = Some b0 ∧ a = Ok l ∧ r' = set_record (session_ref b0) l (set_now now r) ∧ has_room (session_ref b0) r = true ∧ binding l = b0 ∧
     reading raw = Some now ∧ rolled_back (_last_now r) now = false ∧ issued_at l = NFloat now ∧
     epoch l = (match _records r !! session_ref b0 with None => 1 | Some p => epoch p + 1 end)%Z ∧ issued_lease (session_ref b0) l).
Proof.
  assert (∀ e r1, _records r1 = _records r → _max_bindings r1 = _max_bindings r → (r1, Err e) = (r', a) →
    _records r' = _records r ∧ _max_bindings r' = _max_bindings r ∧ ∃ e, a = Err e) as Hfail by (intros e r1 H1 H2 [= <- <-]; eauto).
  unfold _issue. rewrite stm_lift. destruct b as [b0|]; [|intros H; left; by eapply Hfail; [| |exact H]]. rewrite stm_lift. destruct (read_ttl ttl) as [t|]; [|intros H; left; by eapply Hfail; [| |exact H]].
  rewrite stm_get, stm_ensure. destruct (has_room (session_ref b0) r) eqn:Hroom; [|intros H; left; by eapply Hfail; [| |exact H]]. rewrite stm_now.
  destruct (reading raw) as [now|]; [|intros H; left; by eapply Hfail; [| |exact H]]. destruct (rolled_back _ now) eqn:Hroll; [intros H; left; by eapply Hfail; [| |exact H]|]. rewrite stm_get, stm_lift. cbn [_records set_now].
  destruct (new_lease _ _ _ _ _) as [l|] eqn:El; [|intros H; left; by eapply Hfail; [| |exact H]]. rewrite stm_modify. intros [= <- <-]. right. exists b0, l, now.
  pose proof (new_lease_ok _ _ _ _ _ _ El) as Hrep. apply new_lease_fields in El as [-> Hn]. by repeat split.
Qed.

Record resolves (r : TuiBindingRegistry) (session observer n : pyval) (raw : option pyval) (name : string) (l : TuiBindingLease) (now : spec_float) : Prop := {
  rs_session : session = VStr name;
  rs_name : ref_ok name = true;
  rs_observer : observer = VStr (observer_ref (binding l));
  rs_observer_ok : ref_ok (observer_ref (binding l)) = true;
  rs_epoch : n = VInt (epoch l);
  rs_positive : (0 < epoch l)%Z;
  rs_open : status l ≠ "revoked" ∧ status l ≠ "expired";
  rs_reading : reading raw = Some now;
  rs_forward : rolled_back (_last_now r) now = false;
  rs_live : expired l now = false }.
Lemma ref_text v s : _ref v = Ok s ↔ v = VStr s ∧ ref_ok s = true.
Proof. destruct v as [| | | |t| | | | |]; cbn; try (by split; [|intros [? ?]]). destruct (ref_ok t) eqn:E; split; [intros [= ->]; done|intros [[= ->] _]; done|done|intros [[= ->] ?]; congruence]. Qed.
Lemma resolve_outcome session observer n raw r r' a : (∀ s l, _records r !! s = Some l → ∀ word, word ∈ LEASE_STATUSES → replace_status l word = Ok (MkLease (binding l) (epoch l) (issued_at l) (expires_at l) word)) →
  _resolve session observer n raw r = (r', a) →
  (∃ name l now, a = Ok l ∧ r' = set_now now r ∧ _records r !! name = Some l ∧ resolves r session observer n raw name l now) ∨
  (a = Err BINDING_EXPIRED ∧ ∃ name l, session = VStr name ∧ _records r !! name = Some l ∧ _max_bindings r' = _max_bindings r ∧
     _records r' = <[name := MkLease (binding l) (epoch l) (issued_at l) (expires_at l) "expired"]> (_records r)) ∨
  (∃ e, a = Err e ∧ e ≠ BINDING_EXPIRED ∧ _records r' = _records r ∧ _max_bindings r' = _max_bindings r).
Proof.
  intros Hrep.
  assert (∀ e, e ≠ BINDING_EXPIRED → (r, Err e) = (r', a) → ∃ e, a = Err e ∧ e ≠ BINDING_EXPIRED ∧ _records r' = _records r ∧ _max_bindings r' = _max_bindings r) as Hfail
    by (intros e He [= <- <-]; by exists e).
  unfold _resolve. rewrite stm_lift. destruct (_ref session) as [name|e] eqn:Es; [|intros H; right; right; apply (Hfail e); [destruct session; cbn in Es; try destruct (ref_ok _); congruence|done]].
  rewrite stm_lift. destruct (_ref observer) as [o|e] eqn:Eo; [|intros H; right; right; apply (Hfail e); [destruct observer; cbn in Eo; try destruct (ref_ok _); congruence|done]].
  apply ref_text in Es as [-> Hn], Eo as [-> Ho]. rewrite stm_lift.
  destruct n as [| |n| | | | | | |]; try (intros H; right; right; by apply (Hfail STALE_EPOCH)). destruct (0 <? n)%Z eqn:Hpos; [|intros H; right; right; by apply (Hfail STALE_EPOCH)].
  rewrite stm_get, stm_lift. destruct (_records r !! name) as [l|] eqn:El; [|intros H; right; right; by apply (Hfail BINDING_NOT_FOUND)].
  rewrite stm_ensure. destruct (epoch l =? n)%Z eqn:Hep; [|intros H; right; right; by apply (Hfail STALE_EPOCH)]. apply Z.eqb_eq in Hep as <-. apply Z.ltb_lt in Hpos.
  rewrite stm_ensure. case_bool_decide as Hob; [|intros H; right; right; by apply (Hfail BINDING_MISMATCH)]. subst o.
  rewrite stm_ensure. case_bool_decide as Hrev; [intros H; right; right; by apply (Hfail BINDING_REVOKED)|]. cbn [negb].
  rewrite stm_ensure. case_bool_decide as Hexp; cbn [negb].
  { intros [= <- <-]. right; left. split; [done|]. exists name, l. do 3 (split; [done|]). rewrite insert_id; [done|]. rewrite El. f_equal. destruct l; cbn in *; by subst. }
  rewrite stm_now. destruct (reading raw) as [now|] eqn:Hread; [|intros H; right; right; destruct raw; eapply Hfail; [|exact H| |exact H]; done].
  destruct (rolled_back _ now) eqn:Hroll; [intros H; right; right; by apply (Hfail CLOCK_ROLLBACK)|].
  destruct (expired l now) eqn:Hlive.
  - rewrite stm_lift, Hrep with (s := name) by (done || set_solver). rewrite stm_modify. intros [= <- <-]. right; left. split; [done|]. by exists name, l.
  - intros [= <- <-]. left. exists name, l, now. by repeat split.
Qed.
Lemma resolve_returns session observer n raw r name l now : _records r !! name = Some l → resolves r session observer n raw name l now →
  _resolve session observer n raw r = (set_now now r, Ok l).
Proof.
  intros El [-> Hn -> Ho -> Hpos [Hrev Hexp] Hread Hroll Hlive]. unfold _resolve. rewrite stm_lift, (proj2 (ref_text _ name)) by done. rewrite stm_lift, (proj2 (ref_text _ (observer_ref (binding l)))) by done.
  rewrite stm_lift, (proj2 (Z.ltb_lt _ _)) by done. rewrite stm_get, stm_lift, El, stm_ensure, Z.eqb_refl, stm_ensure, bool_decide_true by done.
  rewrite stm_ensure, bool_decide_false by done. cbn [negb]. rewrite stm_ensure, bool_decide_false by done. cbn [negb].
  rewrite stm_now. by rewrite Hread, Hroll, Hlive.
Qed.
Lemma revoke_outcome session r r' a : (∀ s l, _records r !! s = Some l → ∀ word, word ∈ LEASE_STATUSES → replace_status l word = Ok (MkLease (binding l) (epoch l) (issued_at l) (expires_at l) word)) →
  _revoke session r = (r', a) →
  (a = Ok true ∧ ∃ name l, session = VStr name ∧ _records r !! name = Some l ∧ _max_bindings r' = _max_bindings r ∧
     _records r' = <[name := MkLease (binding l) (epoch l) (issued_at l) (expires_at l) "revoked"]> (_records r)) ∨
  (a ≠ Ok true ∧ r' = r).
Proof.
  intros Hrep. unfold _revoke. rewrite stm_lift. destruct (_ref session) as [name|e] eqn:Es; [|intros [= <- <-]; by right]. apply ref_text in Es as [-> Hn]. rewrite stm_get.
  destruct (_records r !! name) as [l|] eqn:El; [|intros [= <- <-]; by right]. case_bool_decide as Hrev.
  - intros [= <- <-]. left. split; [done|]. exists name, l. do 3 (split; [done|]). rewrite insert_id; [done|]. rewrite El. f_equal. destruct l; cbn in *; by subst.
  - rewrite stm_lift, Hrep with (s := name) by (done || set_solver). intros [= <- <-]. left. split; [done|]. by exists name, l.
Qed.

(** ** Every history keeps the invariant *)

Lemma num_not_ltb_trans x y z : num_finite y = true → num_ltb y x = false → num_ltb z y = false → num_ltb z x = false.
Proof.
  unfold num_ltb, num_finite, num_compare. destruct (num_val x) as [m1 e1|[]|], (num_val y) as [m2 e2|[]|], (num_val z) as [m3 e3|[]|]; try done.
  set (e := Z.min e1 (Z.min e2 e3)). rewrite !(dyadic_compare_scale _ _ e) by (cbn; lia). cbn.
  repeat case_match; simplify_eq; rewrite ?Z.compare_lt_iff, ?Z.compare_eq_iff, ?Z.compare_gt_iff in *; try done; lia.
Qed.
Definition clock_kept (r : TuiBindingRegistry) (h : history) : Prop :=
  ∀ s l, l ∈ issued_in s h → ∃ t, _last_now r = Some t ∧ num_finite (NFloat t) = true ∧ num_ltb (NFloat t) (issued_at l) = false.
Lemma reading_finite raw now : reading raw = Some now → num_finite (NFloat now) = true.
Proof.
  unfold reading, _time. destruct raw as [v|]; [|done]. cbn [mbind option_bind]. destruct (number v) as [[n t]|]; [|done]. destruct (time_ok t) eqn:E; [|done]. intros [= ->].
  unfold time_ok in E. bool_inv. by destruct now.
Qed.
Lemma record_closable r h s l : session_state r h s → _records r !! s = Some l → ∀ word, word ∈ LEASE_STATUSES → replace_status l word = Ok (MkLease (binding l) (epoch l) (issued_at l) (expires_at l) word).
Proof.
  intros [H1 H2 _ H4] Hl word Hw. rewrite Hl in H1. inversion H1 as [k [l' o] (w & Hk & _) E1 E2|]. cbn [fst] in Hk. subst k l. rewrite <- E2 in H2. symmetry in H2.
  apply last_Some in H2 as [k Hk]. rewrite Hk in H4. apply Forall_app in H4 as [_ H4]. apply Forall_singleton in H4 as [_ _ H4]. by apply H4.
Qed.
Lemma size_insert_known {A} (m : gmap string A) k a b : m !! k = Some a → size (<[k := b]> m) = size m.
Proof. intros H. rewrite map_size_insert. by rewrite H. Qed.
Lemma key_is_text s t : key_is s (VStr t) = bool_decide (s = t).
Proof. cbn. apply bool_decide_ext. done. Qed.

(** A session other than the one a call closes or issues a lease for. *)
Lemma untouched r r' h s t e l : session_state r h s → _records r' = <[t := l]> (_records r) → issued_now s e = None → closes s e = false → s ≠ t → session_state r' (h ++ [e]) s.
Proof. intros Hs Hr Hi Hc Hne. eapply session_same; [done..|]. by rewrite Hr, lookup_insert_ne. Qed.

Lemma step_inv max r h c r' a : inv max r h → step c r = (r', a) → inv max r' (h ++ [(c, a)]).
Proof.
  intros [Hmax Hsize Hs] Hstep. assert (∀ s l, _records r !! s = Some l → ∀ word, word ∈ LEASE_STATUSES → replace_status l word = Ok (MkLease (binding l) (epoch l) (issued_at l) (expires_at l) word)) as Hrep
    by (intros s l; by eapply record_closable).
  assert (∀ e, (∀ s, issued_now s e = None) → (∀ s, closes s e = false) → _max_bindings r' = max → _records r' = _records r → inv max r' (h ++ [e])) as Hsame.
  { intros e Hi Hc Hm Hr. constructor; [done|by rewrite Hr|]. intros s. eapply session_same; [done|done|done|by rewrite Hr]. }
  destruct c as [b ttl raw|session observer n raw|session]; cbn [step] in Hstep; unfold mbind, stm_bind at 1 in Hstep.
  - destruct (_issue b ttl raw r) as [r1 a1] eqn:E. apply issue_outcome in E as [(Hr & Hm & e & ->)|(b0 & l & now & -> & -> & -> & Hroom & Hb & _ & _ & _ & Hep & Hl)].
    + injection Hstep as <- <-. apply Hsame; try done. by rewrite Hm.
    + injection Hstep as <- <-. constructor; cbn [_max_bindings _records set_record set_now]; [done| |].
      * unfold has_room in Hroom. apply orb_true_iff in Hroom as [[l0 Hl0]%bool_decide_eq_true|Hlt%Z.ltb_lt]; [by rewrite (size_insert_known _ _ _ _ Hl0)|].
        rewrite map_size_insert. destruct (_records r !! _); cbn; lia.
      * intros s. destruct (decide (s = session_ref b0)) as [->|Hne].
        -- eapply session_issued; [done| |exact Hep|exact Hl|exact (lookup_insert_eq _ _ _)]. cbn. by rewrite bool_decide_true by (by rewrite Hb).
        -- eapply untouched; [done|done| |done|done]. cbn. rewrite bool_decide_false; [done|]. rewrite Hb. congruence.
  - destruct (_resolve session observer n raw r) as [r1 a1] eqn:E. apply resolve_outcome in E as [(name & l & now & -> & -> & _)|[(-> & name & l & -> & Hl & Hm & Hr)|(e & -> & He & Hr & Hm)]]; [| | |done].
    + injection Hstep as <- <-. by apply Hsame.
    + injection Hstep as <- <-. constructor; [by rewrite Hm|by rewrite Hr, (size_insert_known _ _ _ _ Hl)|]. intros s. destruct (decide (s = name)) as [->|Hne].
      * eapply session_closed; [done|done| |exact Hl|rewrite Hr; apply lookup_insert_eq|set_solver|done]. cbn [closes]. by rewrite key_is_text, bool_decide_true.
      * eapply untouched; [done|exact Hr|done| |done]. cbn [closes]. by rewrite key_is_text, bool_decide_false.
    + injection Hstep as <- <-. apply Hsame; [done| |by rewrite Hm|done]. intros s. by destruct e.
  - destruct (_revoke session r) as [r1 a1] eqn:E. apply revoke_outcome in E as [(-> & name & l & -> & Hl & Hm & Hr)|[Ha ->]]; [| |done].
    + injection Hstep as <- <-. constructor; [by rewrite Hm|by rewrite Hr, (size_insert_known _ _ _ _ Hl)|]. intros s. destruct (decide (s = name)) as [->|Hne].
      * eapply session_closed; [done|done| |exact Hl|rewrite Hr; apply lookup_insert_eq|set_solver|done]. cbn [closes]. by rewrite key_is_text, bool_decide_true.
      * eapply untouched; [done|exact Hr|done| |done]. cbn [closes]. by rewrite key_is_text, bool_decide_false.
    + destruct a1 as [[]|]; [done|..]; injection Hstep as <- <-; by apply Hsame.
Qed.

(** What a call does to the last reading of the clock. *)
Definition reading_of (c : call) : option spec_float := match c with Issue _ _ raw | Resolve _ _ _ raw => reading raw | Revoke _ => None end.
Ltac run_method := repeat first [rewrite stm_lift|rewrite stm_get|rewrite stm_ensure|rewrite stm_now|rewrite stm_modify|case_match]; intros [= <- <-].
Lemma step_last c r r' a : step c r = (r', a) →
  _last_now r' = _last_now r ∨ ∃ now, reading_of c = Some now ∧ rolled_back (_last_now r) now = false ∧ _last_now r' = Some now.
Proof.
  assert (∀ {A} (m : reg A) (f : A → answer) r' a, (x ← m; mret (f x)) r = (r', a) → ∃ a', m r = (r', a')) as Hinner
    by (intros A m f r1 a1; unfold mbind, stm_bind; destruct (m r) as [r2 [x|e]]; intros [= <- <-]; by eexists).
  destruct c as [b ttl raw|session observer n raw|session]; cbn [step reading_of]; intros [a' H]%Hinner; revert H.
  - unfold _issue. run_method; first [by left|right; eauto].
  - unfold _resolve. run_method; first [by left|right; eauto].
  - unfold _revoke. run_method; by left.
Qed.
Lemma step_clock r h c r' a : clock_kept r h → step c r = (r', a) → clock_kept r' (h ++ [(c, a)]).
Proof.
  intros Hk Hstep s l. rewrite issued_snoc, elem_of_app. intros [Hl|Hl].
  - destruct (Hk s l Hl) as (t & Ht & Hf & Hlt). apply step_last in Hstep as [->|(now & Hnow & Hroll & ->)]; [by exists t|]. exists now. split; [done|]. rewrite Ht in Hroll.
    assert (num_finite (NFloat now) = true) by (destruct c; [by eapply reading_finite..|done]). split; [done|]. by eapply (num_not_ltb_trans _ (NFloat t)).
  - destruct c as [b ttl raw|? ? ? ?|?]; [|by apply elem_of_nil in Hl..]. destruct a as [[l'|]|]; [|by apply elem_of_nil in Hl..]. cbn in Hl. case_bool_decide; [|by apply elem_of_nil in Hl].
    apply list_elem_of_singleton in Hl as ->. cbn [step] in Hstep. unfold mbind, stm_bind at 1 in Hstep. destruct (_issue b ttl raw r) as [r1 a1] eqn:E.
    apply issue_outcome in E as [(_ & _ & e & ->)|(b0 & l0 & now & -> & -> & -> & _ & _ & Hnow & _ & Hi & _)]; [done|]. injection Hstep as <- <-.
    exists now. split; [done|]. split; [by eapply reading_finite|]. rewrite Hi. apply num_ltb_irrefl.
Qed.

Lemma play_inv max calls : (0 <= max)%Z → let '(r, h) := play (MkRegistry max None ∅) calls in inv max r h ∧ clock_kept r h.
Proof.
  intros Hmax. unfold play. induction calls as [|c calls IH] using rev_ind; cbn [fold_left].
  - split; [|intros s l Hl; by apply elem_of_nil in Hl]. constructor; [done|done|]. intros s. constructor; cbn; [rewrite lookup_empty; constructor|done|done|constructor].
  - rewrite fold_left_app. cbn [fold_left]. destruct (fold_left play1 calls _) as [r h]. destruct IH as [IH1 IH2]. unfold play1. cbn [fst snd]. destruct (step c r) as [r' a] eqn:E.
    split; [by eapply step_inv|by eapply step_clock].
Qed.

(** C37: After any calls on a new registry, under any readings of the clock: it
    holds at most its bound (at most 128) of sessions; the leases issued for a
    session have the epochs 1, 2, 3, ...; [resolve] returns a lease exactly when it
    is the last one issued for the session, neither revoked nor found expired
    since, asked for by its observer with its epoch, at a reading before its end;
    and no reading that is accepted lies before a lease's start. *)
Theorem bindings_fenced callable bound calls r0 : new_registry callable bound = Ok r0 →
  let '(r, h) := play r0 calls in
  (Z.of_nat (size (_records r)) <= MAX_BINDINGS)%Z ∧ VInt (_max_bindings r) = bound ∧
  (∀ s, map epoch (issued_in s h) = seqZ 1 (Z.of_nat (length (issued_in s h)))) ∧
  (∀ session observer n raw l, (step (Resolve session observer n raw) r).2 = Ok (ALease l) ↔
     ∃ name now, current name h = Some (l, true) ∧ resolves r session observer n raw name l now) ∧
  (∀ raw now s l, reading raw = Some now → rolled_back (_last_now r) now = false → l ∈ issued_in s h → num_ltb (NFloat now) (issued_at l) = false).
Proof.
  intros H0. unfold new_registry in H0. destruct bound as [| |max| | | | | | |]; try done. destruct (_ && _) eqn:Hb; [|done]. injection H0 as <-. bool_inv.
  pose proof (play_inv max calls ltac:(lia)) as Hp. destruct (play _ calls) as [r h]. destruct Hp as [[Hmax Hsize Hs] Hclock]. split; [lia|]. split; [by rewrite Hmax|].
  split; [intros s; apply Hs|]. split.
  - intros session observer n raw l. cbn [step]. split.
    + unfold mbind, stm_bind at 1. destruct (_resolve _ _ _ _ r) as [r1 a1] eqn:E.
      apply resolve_outcome in E as [(name & l' & now & -> & -> & Hl & Hr)|[(-> & _)|(e & -> & _)]]; [|done..|intros s k Hk; by eapply record_closable].
      cbn. intros [= ->]. exists name, now. split; [|done]. destruct (Hs name) as [Hrec H2 _ H4]. rewrite Hl in Hrec. inversion Hrec as [k [l' o] (w & Hk & Hw & Ho) E1 E2|]. cbn [fst snd] in *. subst k l.
      rewrite <- E2 in H2. symmetry in H2. apply last_Some in H2 as [k Hk]. rewrite Hk in H4. apply Forall_app in H4 as [_ H4]. apply Forall_singleton in H4 as [_ Hact _].
      destruct Hr as [_ _ _ _ _ _ [Hrev Hexp] _ _ _]. cbn in Hrev, Hexp. assert (w = "active") as -> by set_solver. replace o with true by (symmetry; by apply Ho). f_equal. destruct l'; cbn in *. by subst.
    + intros (name & now & Hc & Hr). destruct (Hs name) as [Hrec H2 _ H4]. rewrite Hc in Hrec. inversion Hrec as [k st (w & Hk & _ & Ho) E1 E2|]. subst st. cbn [fst snd] in *. assert (w = "active") as -> by (by apply Ho).
      rewrite Hc in H2. symmetry in H2. apply last_Some in H2 as [k' Hk']. rewrite Hk' in H4. apply Forall_app in H4 as [_ H4]. apply Forall_singleton in H4 as [_ Hact _].
      unfold mbind, stm_bind at 1. erewrite resolve_returns; [done| |exact Hr]. rewrite <- E1, Hk. destruct l; cbn in *. by subst.
  - intros raw now s l Hnow Hroll Hl. destruct (Hclock s l Hl) as (t & Ht & Hf & Hlt). rewrite Ht in Hroll. by eapply (num_not_ltb_trans _ (NFloat t)).
Qed.

(** ** Examples *)

Definition ex_refs (observer session : string) : tres TuiHostBinding :=
  new_binding (VStr observer) (VStr "owner-1") (VStr "profile-1") (VStr "workspace-1") (VStr "association-1") (VStr session) (VBool true) (Some [VStr _OBSERVE_CAPABILITY]) (inl GatewayBridge.USER_OWNED_SESSION).
Definition ex_binding : TuiHostBinding :=
  MkBinding "observer-1" "owner-1" "profile-1" "workspace-1" "association-1" "session-1" true {[_OBSERVE_CAPABILITY]}.
Definition at_ (z : Z) : option pyval := Some (VInt z).
Definition ex_calls : list call :=
  [Issue (Some ex_binding) (VInt 30) (at_ 100); Resolve (VStr "session-1") (VStr "observer-1") (VInt 1) (at_ 110); Revoke (VStr "session-1");
   Resolve (VStr "session-1") (VStr "observer-1") (VInt 1) (at_ 111); Issue (Some ex_binding) (VInt 30) (at_ 120); Resolve (VStr "session-1") (VStr "observer-1") (VInt 1) (at_ 121);
   Resolve (VStr "session-1") (VStr "observer-2") (VInt 2) (at_ 122); Resolve (VStr "session-1") (VStr "observer-1") (VInt 2) (at_ 119);
   Resolve (VStr "session-1") (VStr "observer-1") (VInt 2) (at_ 150); Resolve (VStr "session-1") (VStr "observer-1") (VInt 2) (at_ 120)].
Definition ex_registry : TuiBindingRegistry := MkRegistry 2 None ∅.
Definition verdicts (h : history) : list (tui_error + Z) := map (λ e, match e.2 with Ok (ALease l) => inr (epoch l) | Ok (AFlag b) => inr (Z.b2z b) | Err e => inl e end) h.

Example binding_ex : ex_refs "observer-1" "session-1" = Ok ex_binding ∧ is_ok (ex_refs "observer-1" "my-Token") = false ∧ is_ok (ex_refs "" "s") = false.
Proof. vm_compute. done. Qed.
Example calls_ex : verdicts (play ex_registry ex_calls).2 = [inr 1%Z; inr 1%Z; inr 1%Z; inl BINDING_REVOKED; inr 2%Z; inl STALE_EPOCH; inl BINDING_MISMATCH; inl CLOCK_ROLLBACK; inl BINDING_EXPIRED; inl BINDING_EXPIRED].
Proof. vm_compute. done. Qed.
(** The longest time to live is refused at 724.4, where the sum of the floats rounds up. *)
Definition rounds_up : spec_float := S754_finite false 6371889785287475 (-43).
Example longest_ttl_ex : (_issue (Some ex_binding) (VInt 300) (Some (VFloat rounds_up)) ex_registry).2 = Err INVALID_LEASE ∧ is_ok (_issue (Some ex_binding) (VInt 300) (at_ 100) ex_registry).2 = true.
Proof. vm_compute. done. Qed.

Lemma ex_registry_made : new_registry true (VInt 2) = Ok ex_registry.
Proof. reflexivity. Qed.
Lemma bindings_fenced_witness : new_registry true (VInt 2) = Ok ex_registry ∧
  let '(r, h) := play ex_registry ex_calls in (Z.of_nat (size (_records r)) <= MAX_BINDINGS)%Z ∧ ∀ s, map epoch (issued_in s h) = seqZ 1 (Z.of_nat (length (issued_in s h))).
Proof.
  split; [exact ex_registry_made|]. pose proof (bindings_fenced true (VInt 2) ex_calls ex_registry ex_registry_made) as H. destruct (play ex_registry ex_calls) as [r h].
  destruct H as (H1 & _ & H2 & _). by split.
Defined.

(** ** Who is answered *)

Lemma session_closed_form s : negb (has_unknown SESSION_KEYS (GatewayBridge.snapshot_dict s)) && forallb (λ k, dhas k (GatewayBridge.snapshot_dict s)) SESSION_KEYS = true.
Proof. by destruct s. Qed.
Lemma bounded_response r d : bounded r = Ok d ↔ d = r ∧ ∃ text, GatewayBridge.canonical_json (VDict r) = Ok text ∧ GatewayBridge.within GatewayBridge.MAX_ENVELOPE_BYTES text = true.
Proof.
  unfold bounded. generalize (GatewayBridge.canonical_json (VDict r)). intros [text|e]; [|split; [done|by intros (_ & ? & [=] & _)]].
  destruct (GatewayBridge.within _ text) eqn:Ew; cbn [ensure mbind res_bind]; split; [intros [= <-]; by eauto|by intros [-> _]|done|intros (_ & ? & [= <-] & ?); congruence].
Qed.
(** A response goes to an authenticated host that may observe, for its own
    session and association, owned by the user, and is the snapshot and no more. *)
Lemma response_exact request b snapshot d : build_snapshot_response (Some request) (Some b) (Some snapshot) = Ok d ↔
  d = response_of (GatewayBridge.snapshot_dict snapshot) ∧ authenticated b = true ∧ _OBSERVE_CAPABILITY ∈ capabilities b ∧
  rq_session request = session_ref b ∧ GatewayBridge.sn_session snapshot = session_ref b ∧ GatewayBridge.sn_association snapshot = association_ref b ∧
  GatewayBridge.sn_mode snapshot = GatewayBridge.USER_OWNED_SESSION ∧
  ∃ text, GatewayBridge.canonical_json (VDict d) = Ok text ∧ GatewayBridge.within GatewayBridge.MAX_ENVELOPE_BYTES text = true.
Proof.
  unfold build_snapshot_response. rewrite session_closed_form. split.
  - destruct (authenticated b && _) eqn:E1; [|done]. destruct (bool_decide (rq_session request = session_ref b) && _) eqn:E2; [|done]. destruct (bool_decide (GatewayBridge.sn_association _ = _)) eqn:E3; [|done].
    destruct (bool_decide (GatewayBridge.sn_mode _ = _)) eqn:E4; [|done]. cbn [ensure mbind res_bind]. intros [-> Ht]%bounded_response. bool_inv. by eauto 10.
  - intros (-> & Ha & Hc & -> & Hs & Has & Hm & Ht). rewrite Ha, !bool_decide_true by done. cbn [ensure mbind res_bind andb]. by apply bounded_response.
Qed.

Definition ex_snapshot : GatewayBridge.bres SessionSnapshot :=
  GatewayBridge.new_snapshot (VStr "session-1") (VStr "association-1") (inl GatewayBridge.USER_OWNED_SESSION) (VStr "observing") (VStr "epoch-1") (VInt 4) (VInt 2).
Example response_ex : match ex_snapshot with
  | Ok s => build_snapshot_response (Some (MkRequest "session-1")) (Some ex_binding) (Some s) = Ok (response_of (GatewayBridge.snapshot_dict s)) ∧
            build_snapshot_response (Some (MkRequest "session-2")) (Some ex_binding) (Some s) = Err SESSION_BINDING_MISMATCH
  | Err _ => False end.
Proof. vm_compute. done. Qed.
Example request_ex : request_from_dict (VDict [(VStr "session_id", VStr "session-1"); (VStr "schema_version", VStr TUI_SCHEMA_VERSION)]) = Ok (MkRequest "session-1") ∧
  request_from_dict (VDict [(VStr "session_id", VStr "session-1")]) = Err INVALID_REQUEST ∧
  request_from_dict (VDict [(VStr "session_id", VStr "session-1"); (VStr "schema_version", VStr "v0")]) = Err UNSUPPORTED_SCHEMA.
Proof. vm_compute. done. Qed.
