(* ===== verification/Evidence.v ===== *)
(** * The evidence gate (scripts/pd_fleet/evidence.py)

    Evidence records with their redaction and checks, and the store that takes a
    record only when it is fresh, successful and backed by the files it names.
    What is under an allowed root is an argument: [files root path] is the
    content of the file that [path] resolves to within [root], if there is one.
    So are the readings of the clocks and the injected executor.  Text is a
    string; [bytes] are outside the model. *)

From S2P Require Import Prelude PyStr PyNum PyVal Regex Sha256 IsoTime Redaction.
From S2P Require Gates.

Open Scope string_scope.

Notation dict := (list (pyval * pyval)).

(** An [EvidenceValidationError] with its code, an [EvidenceError], and the
    [ValueError] of [clock_iso]; [math.isfinite] of a huge integer overflows. *)
Inductive evidence_error : Type := EvidenceValidationError (code : string) | EvidenceError | ClockValueError | HugeOverflow.
Notation eres := (res evidence_error).
Definition invalid : evidence_error := EvidenceValidationError "invalid_evidence".

(** ** Patterns *)

Definition quote_mark (c : ascii) : bool := (code c =? 34)%nat || (code c =? 39)%nat.
Definition value_char : re := RChar (λ c, negb (is_space c || one_of ",;" c)).
Definition _URL : re :=
  rseq [RWordBoundary; ralt [rseq [rlit_ci "http"; ropt (rlit_ci "s")]; rlit_ci "ftp"; rseq [rlit_ci "ws"; ropt (rlit_ci "s")]]; rlit "://";
        rplus (RChar (λ c, negb (is_space c || quote_mark c || one_of "<>" c)))].
Definition _BEARER : re := rseq [RWordBoundary; rlit_ci "bearer"; rplus rspace; rplus value_char].
Definition hyphen : re := ropt (rchr "_-").
Definition secret_word : re :=
  ralt [rlit_ci "password"; rlit_ci "passwd"; rlit_ci "token"; rlit_ci "secret"; rseq [rlit_ci "api"; hyphen; rlit_ci "key"]; rseq [rlit_ci "access"; hyphen; rlit_ci "key"];
        rseq [rlit_ci "private"; hyphen; rlit_ci "key"]; rseq [rlit_ci "client"; hyphen; rlit_ci "secret"]; rlit_ci "authorization"; rlit_ci "credential"].
Definition name_char : re := RChar (λ c, is_alnum c || one_of "_.-" c).
Definition quoted (mark : nat) : re := let m := RChar (λ c, (code c =? mark)%nat) in rseq [m; rstar (RChar (λ c, negb (code c =? mark)%nat)); m].
Definition _SECRET_ASSIGNMENT : re :=
  rseq [RNotAfter (λ c, is_alnum c || one_of "_" c);
        ralt [rseq [RChar (λ c, is_alpha c || one_of "_" c); rstar name_char; secret_word; rstar name_char]; secret_word];
        rstar rspace; rchr ":="; rstar rspace; ralt [quoted 34; quoted 39; rplus value_char]].
Definition token_char : re := RChar (λ c, is_alnum c || one_of "_-" c).
Definition _SECRET_TOKEN : re :=
  rseq [RWordBoundary; ralt [rlit_ci "sk"; rseq [rlit_ci "gh"; RChar (ci (one_of "psoru"))]]; rchr "-_"; rtimes 8 token_char; rstar token_char; RWordBoundary].
Definition slash : re := rchr "/\".
Definition _ABSOLUTE_PATH : re :=
  rseq [RNotAfter (λ c, is_word c || one_of "." c);
        ralt [rseq [rchr "~"; slash; rplus value_char]; rseq [rchr "/"; rplus value_char]; rseq [RChar is_alpha; rchr ":"; slash; rplus value_char]; rseq [rlit "\\"; rplus value_char]]].
Definition is_hex (c : ascii) : bool := is_digit c || between 97 102 c || between 65 70 c.
Definition _HEX (s : string) : bool := (String.length s =? 64)%nat && str_forallb is_hex s.

Definition without_nul (s : string) : string := String.string_of_list_ascii (filter (λ c, is_nul c = false) (String.list_ascii_of_string s)).
Definition masked (s : string) : string :=
  sub _ABSOLUTE_PATH (λ _, "[REDACTED_PATH]") (sub _SECRET_TOKEN (λ _, "[REDACTED]") (sub _SECRET_ASSIGNMENT (λ _, "[REDACTED_ASSIGNMENT]")
    (sub _BEARER (λ _, "Bearer [REDACTED]") (sub _URL (λ _, "[REDACTED_URL]") s)))).
#[local] Arguments masked : simpl never.
Definition sanitize (v : pyval) : eres string := match v with VStr s => Ok (masked (without_nul s)) | _ => Err invalid end.
(** [_URL.search(s) or _SECRET_ASSIGNMENT.search(s) or _SECRET_TOKEN.search(s)] *)
Definition exposes (s : string) : bool := search _URL s || search _SECRET_ASSIGNMENT s || search _SECRET_TOKEN s.
Definition locates (s : string) : bool := search _ABSOLUTE_PATH s.
#[local] Arguments exposes : simpl never.
#[local] Arguments locates : simpl never.

(** ** Fields *)

Definition _text (v : pyval) : eres string := match v with VStr s => if blank s then Err invalid else Ok (strip s) | _ => Err invalid end.
Definition drive : re := rseq [RStart; RChar is_alpha; rchr ":"; REnd].
Definition starts_with (c : string) (s : string) : bool := match s with String a _ => one_of c a | "" => false end.
Definition unsafe_path (s : string) : bool :=
  let parts := split_on "/" s in starts_with "/~" s || bool_decide (".." ∈ parts) || match_prefix drive (default "" (head parts)).
#[local] Arguments unsafe_path : simpl never.
Definition plain_path (s : string) : string := let p := join "/" (List.filter nonempty (split_on "/" s)) in if nonempty p then p else ".".
Definition _relative (path : pyval) : eres string :=
  t ← _text path; let s := replace_char "\" "/" t in _ ← ensure (negb (unsafe_path s)) invalid; Ok (plain_path s).
Definition absent (v : pyval) : bool := match v with VNone | VStr "" => true | _ => false end.
Definition parse_as (name : string) (v : pyval) : eres (string * datetime) :=
  t ← _text v;
  match parse_z t with Some d => Ok (t, d) | None => Err (EvidenceValidationError ("invalid_" +:+ name)) end.
(** The time of capture, of the clock when there is none. *)
Definition timestamp_of (clock : clock_reading) (v : pyval) : eres string :=
  if absent v then map_err (λ _, ClockValueError) (clock_iso clock) else fst <$> parse_as "timestamp" v.
Definition verified_of (v : pyval) : eres string :=
  _ ← ensure (negb (absent v)) (EvidenceValidationError "missing_verified_at");
  '(t, d) ← parse_as "verified_at" v;
  _ ← ensure (is_utc d) (EvidenceValidationError "invalid_verified_at"); Ok t.
Definition command_of (v : pyval) : eres string :=
  c ← (match v with VNone => Ok "" | VStr s => if blank s then Ok "" else _text v | _ => _text v end);
  _ ← ensure (negb (nonempty c && exposes c)) invalid; Ok c.
Definition exit_code_of (v : pyval) : eres (option Z) := match v with VNone => Ok None | VInt n => Ok (Some n) | _ => Err invalid end.
Definition artifacts_of (v : pyval) : eres (list string) := match v with VList l | VTuple l => mapM _relative l | _ => Err invalid end.
Definition source_of (v : pyval) : eres string :=
  s ← (match v with VNone => Ok "" | _ => _text v end); _ ← ensure (negb (exposes s)) invalid; Ok s.
Definition provenance_of (v : pyval) : eres string :=
  _ ← ensure (negb (absent v)) (EvidenceValidationError "missing_provenance");
  p ← _text v; _ ← ensure (negb (exposes p || locates p)) (EvidenceValidationError "unsafe_provenance"); Ok p.

Inductive hashes : Type := NoHash | OneHash (h : string) | Hashes (m : gmap string string).
Definition hash_entry (m : gmap string string) (kv : pyval * pyval) : eres (gmap string string) :=
  k ← map_err (λ _, invalid) (_relative kv.1);
  match kv.2 with VStr h => if _HEX h then Ok (<[k := h]> m) else Err invalid | _ => Err invalid end.
Fixpoint hash_entries (m : gmap string string) (l : dict) : eres (gmap string string) :=
  match l with [] => Ok m | kv :: l => m ← hash_entry m kv; hash_entries m l end.
Definition lower (s : string) : string := String.string_of_list_ascii (map lower_ascii (String.list_ascii_of_string s)).
Definition hashes_of (v : pyval) : eres hashes :=
  match v with
  | VNone => Ok NoHash
  | VStr h => if _HEX h then Ok (OneHash (lower h)) else Err invalid
  | VDict l | VProxy l => Hashes <$> hash_entries ∅ l
  | _ => Err invalid
  end.

(** ** Records *)

Record EvidenceRecord : Type := MkRecord {
  command : string; exit_code : option Z; stdout : string; stderr : string; artifacts : list string; sha256 : hashes;
  timestamp : string; source : string; provenance : string; verified_at : string }.
Definition new_record (clock : clock_reading) (cmd exit out err arts hash stamp src prov verified : pyval) : eres EvidenceRecord :=
  c ← command_of cmd; n ← exit_code_of exit; o ← sanitize out; e ← sanitize err; a ← artifacts_of arts; t ← timestamp_of clock stamp;
  s ← source_of src; p ← provenance_of prov; v ← verified_of verified;
  _ ← ensure (nonempty c || negb (bool_decide (a = []))) invalid;
  h ← hashes_of hash;
  Ok (MkRecord c n o e a h t s p v).
Definition FIELDS : list string := ["command"; "exit_code"; "stdout"; "stderr"; "artifacts"; "artifact_paths"; "sha256"; "timestamp"; "created_at"; "source"; "provenance"; "verified_at"].
Definition from_mapping (clock : clock_reading) (d : dict) : eres EvidenceRecord :=
  _ ← ensure (negb (has_unknown FIELDS d)) (EvidenceValidationError "unknown_field");
  _ ← ensure (negb (dhas "artifacts" d && dhas "artifact_paths" d) && negb (dhas "timestamp" d && dhas "created_at" d)) (EvidenceValidationError "conflicting_alias");
  new_record clock (dget_or (VStr "") "command" d) (dget_or VNone "exit_code" d) (dget_or (VStr "") "stdout" d) (dget_or (VStr "") "stderr" d)
    (dget_or (dget_or (VList []) "artifact_paths" d) "artifacts" d) (dget_or VNone "sha256" d) (dget_or (dget_or (VStr "") "created_at" d) "timestamp" d)
    (dget_or (VStr "manual") "source" d) (dget_or (VStr "") "provenance" d) (dget_or (VStr "") "verified_at" d).
Definition hash_dict (m : gmap string string) : dict := map (λ kv, (VStr kv.1, VStr kv.2)) (sort_by (λ a b, String.leb a.1 b.1) (map_to_list m)).
Definition hash_value (h : hashes) : pyval := match h with NoHash => VNone | OneHash h => VStr h | Hashes m => VDict (hash_dict m) end.
Definition exit_value (n : option Z) : pyval := match n with Some n => VInt n | None => VNone end.
Definition to_dict (r : EvidenceRecord) : dict :=
  [(VStr "command", VStr (command r)); (VStr "exit_code", exit_value (exit_code r)); (VStr "stdout", VStr (stdout r)); (VStr "stderr", VStr (stderr r));
   (VStr "artifacts", VList (map VStr (artifacts r))); (VStr "sha256", hash_value (sha256 r)); (VStr "timestamp", VStr (timestamp r)); (VStr "source", VStr (source r));
   (VStr "provenance", VStr (provenance r)); (VStr "verified_at", VStr (verified_at r))].
(** [cls( **value.to_dict())]; the time of a record is never empty. *)
Definition from_record (clock : clock_reading) (r : EvidenceRecord) : eres EvidenceRecord :=
  new_record clock (VStr (command r)) (exit_value (exit_code r)) (VStr (stdout r)) (VStr (stderr r)) (VList (map VStr (artifacts r))) (hash_value (sha256 r))
    (VStr (timestamp r)) (VStr (source r)) (VStr (provenance r)) (VStr (verified_at r)).
Definition from_dict (clock : clock_reading) (v : EvidenceRecord + pyval) : eres EvidenceRecord :=
  match v with
  | inl r => from_record clock r
  | inr v => match entries v with Some d => from_mapping clock d | None => Err invalid end
  end.

(** ** The store *)

Record EvidenceStore : Type := MkStore { allowed_paths : list string; max_age_seconds : pynum; records : list EvidenceRecord; executed : list string }.
Notation ev := (stm EvidenceStore evidence_error).
Definition keep_record (r : EvidenceRecord) (s : EvidenceStore) : EvidenceStore := MkStore (allowed_paths s) (max_age_seconds s) (records s ++ [r]) (executed s).
Definition positive_age (v : pyval) : eres pynum :=
  n ← (match v with VInt n => match float_of_Z n with Some _ => Ok (NInt n) | None => Err HugeOverflow end
                  | VFloat f => if is_finite f then Ok (NFloat f) else Err (EvidenceValidationError "invalid_max_age_seconds")
                  | _ => Err (EvidenceValidationError "invalid_max_age_seconds") end);
  _ ← ensure (num_ltb (NInt 0) n) (EvidenceValidationError "invalid_max_age_seconds"); Ok n.
(** The roots are resolved by the caller. *)
Definition new_store (clock : clock_reading) (roots : list string) (given : list (EvidenceRecord + pyval)) (max_age : pyval) (callable : bool) : eres EvidenceStore :=
  age ← positive_age max_age;
  _ ← ensure callable (EvidenceValidationError "invalid_clock");
  rs ← mapM (from_dict clock) given; Ok (MkStore roots age rs []).
Definition _clock_datetime (r : clock_reading) : eres datetime := map_err (λ _, EvidenceValidationError "invalid_clock") (clock_now r).
Definition _parse_utc (name value : string) : eres datetime :=
  match parse_z value with
  | Some d => if is_utc d then Ok d else Err (EvidenceValidationError ("invalid_" +:+ name))
  | None => Err (EvidenceValidationError ("invalid_" +:+ name))
  end.
(** [(now - verified).total_seconds()] of two times in UTC. *)
Definition age_of (now verified : datetime) : spec_float := Gates.total_seconds (dt_us now - dt_us verified).

Section files.
  (** The wall clock of the records, and the files. *)
  Context (wall : clock_reading) (files : string → string → option string).

(** The first root that has the file. *)
Definition find_artifact (roots : list string) (path : string) : option string := head (omap (λ root, files root path) roots).
Definition resolved_artifacts (roots : list string) (paths : list string) : option (gmap string string) :=
  list_to_map <$> mapM (λ p, c ← find_artifact roots p; Some (p, c)) paths.
Definition same_hash (content expected : string) : bool := bool_decide (lower (sha256_hex content) = lower expected).
Definition hashes_match (h : hashes) (resolved : gmap string string) : bool :=
  match h with
  | NoHash => true
  | OneHash e => match (map_to_list resolved).*2 with [c] => same_hash c e | _ => false end
  | Hashes m => forallb (λ kv, match resolved !! kv.1 with Some c => same_hash c kv.2 | None => false end) (map_to_list m)
  end.
Definition validate_record (roots : list string) (max_age : pynum) (now : clock_reading) (given : EvidenceRecord + pyval) : eres EvidenceRecord :=
  r ← from_dict wall given;
  now ← _clock_datetime now;
  verified ← _parse_utc "verified_at" (verified_at r);
  let age := NFloat (age_of now verified) in
  _ ← ensure (negb (num_ltb age (NInt 0))) (EvidenceValidationError "verified_at_future");
  _ ← ensure (negb (num_ltb max_age age)) (EvidenceValidationError "evidence_stale");
  _ ← ensure (bool_decide (exit_code r = Some 0%Z)) invalid;
  _ ← ensure (nonempty (command r) || negb (bool_decide (artifacts r = []))) invalid;
  resolved ← (match resolved_artifacts roots (artifacts r) with Some m => Ok m | None => Err invalid end);
  _ ← ensure (hashes_match (sha256 r) resolved) invalid;
  Ok r.
Definition validate (now : clock_reading) (given : EvidenceRecord + pyval) : ev EvidenceRecord :=
  s ← get_state; lift_res (validate_record (allowed_paths s) (max_age_seconds s) now given).
Definition add (now : clock_reading) (given : EvidenceRecord + pyval) : ev EvidenceRecord :=
  r ← lift_res (from_dict wall given);
  _ ← validate now (inl r);
  _ ← modify (keep_record r);
  mret r.
Definition validate_all (now : nat → clock_reading) : ev (list EvidenceRecord) :=
  s ← get_state;
  lift_res (mapM (λ ir, validate_record (allowed_paths s) (max_age_seconds s) (now ir.1) (inl ir.2)) (imap pair (records s))).
Definition store_dict (now : nat → clock_reading) : ev (list dict) := _ ← validate_all now; s ← get_state; mret (map to_dict (records s)).
End files.

(** ** What the gate stands for *)

Section acceptance.
  Context (files : string → string → option string) (roots : list string) (max_age : pynum).
End acceptance.


Section exactness.
  Context (wall : clock_reading) (files : string → string → option string).


End exactness.

(** ** What a text that exposes nothing does not hold

    Stated without the patterns: a URL that begins a word, and the assignment of
    a value to one of the plain names of a secret. *)




(** ** Histories of the store *)


Section gate.
  Context (wall : clock_reading) (files : string → string → option string).


End gate.

(** ** Examples *)

Definition ex_wall : clock_reading := ReadValue (VStr "2026-01-02T00:00:00Z").
Definition ex_files (root path : string) : option string := if bool_decide (root = "/work" ∧ path = "out.txt") then Some "abc" else None.
Definition ex_given (extra : dict) : EvidenceRecord + pyval :=
  inr (VDict ([(VStr "command", VStr " pytest "); (VStr "exit_code", VInt 0); (VStr "stdout", VStr "token=abc see /etc/passwd at https://x.y"); (VStr "artifacts", VList [VStr "out.txt"]);
    (VStr "sha256", VStr (sha256_hex "abc")); (VStr "provenance", VStr "ci"); (VStr "verified_at", VStr "2026-01-01T12:00:00Z")] ++ extra)).
Definition ex_store : EvidenceStore := MkStore ["/tmp"; "/work"] (NInt 86400) [] [].
Definition ex_add (now : string) (extra : dict) : eres EvidenceRecord := (add ex_wall ex_files (ReadValue (VStr now)) (ex_given extra) ex_store).2.

Example sanitize_text_ex : sanitize (VStr "token=abc see /etc/passwd at https://x.y Bearer q, ghp_12345678") =
  Ok "[REDACTED_ASSIGNMENT] see [REDACTED_PATH] at [REDACTED_URL] Bearer [REDACTED], [REDACTED]".
Proof. vm_compute. done. Qed.
Example add_ex : command <$> ex_add "2026-01-02T00:00:00Z" [] = Ok "pytest" ∧ ex_add "2026-01-02T12:00:00.000001Z" [] = Err (EvidenceValidationError "evidence_stale") ∧
  ex_add "2026-01-01T11:00:00Z" [] = Err (EvidenceValidationError "verified_at_future") ∧ ex_add "2026-01-02T00:00:00Z" [(VStr "owner", VNone)] = Err (EvidenceValidationError "unknown_field").
Proof. vm_compute. done. Qed.
(** A source of None is accepted by the constructor, and refused when the store copies the record. *)
Example source_none_ex : is_ok (from_dict ex_wall (ex_given [(VStr "source", VNone)])) = true ∧ ex_add "2026-01-02T00:00:00Z" [(VStr "source", VNone)] = Err invalid.
Proof. vm_compute. done. Qed.
(** The path of an artifact is normalised again by each copy: the store keeps another path than the one it checked. *)
Definition ex_spaced : eres EvidenceRecord :=
  (add ex_wall ex_files (ReadValue (VStr "2026-01-02T00:00:00Z")) (inr (VDict [(VStr "artifacts", VList [VStr "out.txt /"]); (VStr "exit_code", VInt 0); (VStr "provenance", VStr "ci");
     (VStr "verified_at", VStr "2026-01-01T12:00:00Z")])) ex_store).2.
Example spaced_ex : artifacts <$> ex_spaced = Ok ["out.txt "] ∧ ex_files "/work" "out.txt " = None.
Proof. vm_compute. done. Qed.
